(* ===== verification/_CoqProject ===== *)
-Q . S2P
Prelude.v
Kernel.v
Fields.v
Mmu.v
Spinlock.v
Proc.v
Wakeup.v
Cprintf.v
Cstring.v
Bytes.v
Sleeplock.v
Dll.v
Bio.v
Log.v
Txn.v
Kalloc.v
Vm.v
Uvm.v
Sched.v
Pipe.v
Inode.v
Console.v
Fs.v
Path.v
Line.v
File.v
Durable.v
Life.v
Exec.v
Syscall.v
Entry.v
Mp.v
Apic.v
Boot.v
Main.v
Mkfs.v
Ide.v
Ulib.v
Grep.v
Umalloc.v
Usbrk.v
Sh.v
Shrun.v
Usys.v
Utools.v
Uproc.v
Uls.v
Uread.v
Uspec.v
Utests.v
