(* ===== verification/Prelude.v ===== *)
(** * A verification of the xv6 teaching system

    The program is xv6 for x86, extended with three scheduling strategies
    (first come first served, priorities, round robin, chosen when the kernel
    is built) and the calls waitx and setpriority.  This library models the
    kernel, from the boot loader and the page allocator to the system calls, the
    program mkfs that makes the first disk, and the user programs, and proves
    what the parts promise to each other.

    ** The state and the monad of the kernel

    All the data of the kernel is one record, [kernel] (Kernel.v), with the
    structures of the header files under their own names: the process table,
    the buffers, the log, the inode, file and pipe tables, physical memory as
    a function from addresses to bytes, the disk as a function from block
    numbers to lists of 512 bytes.  A pointer into a static table is the index
    of the entry; a pointer to a page, to a page table or into user memory is
    the address.  The fields [k_held] (the spin-locks held) and [k_writes] (the
    disk writes issued, in order) are ghosts of the model.  Fields.v has an
    update function for every field.

    A C function is a function of type [K A], from a state to a result (this
    file): it returns, it panics, it switches to the scheduler with a
    continuation (as [sched] and [scheduler] do through swtch), or it has run
    out of the fuel of a loop that has no bound of its own.  [wp c s Q] says
    that [c] returns from [s] with [Q]: a theorem stated with [wp], or as an
    equation with [Ret], is a statement of total correctness.  Integers are
    integers of [Z]; where the source computes with a fixed width the
    wrap-around is written out with [u8], [u16], [u32], [i16] and [i32].

    Code that takes the address of a buffer of its caller is given the bytes
    or returns them; the system calls load them from and store them to user
    memory through the page table, with the walk of the processor ([mmu]).
    Parts that only touch devices and tables of their own (Ide, Mp, Apic, Boot)
    have a smaller state in the same monad; Main.v puts them together.

    ** The files, and the parts of src/ they model

    The kernel:
    - Mmu: the address arithmetic of mmu.h and memlayout.h.
    - Spinlock: spinlock.c.  Module [Smp] is a machine with any number of
      processors, a step relation in which the exchange, the stores and the
      loads of acquire and release, pushcli and popcli interleave.  The rest
      of the library uses the sequential [acquire] and [release].
    - Proc: sched, yield, sleep, wakeup, kill and setpriority of proc.c.  Wakeup:
      sleep, wakeup and kill of several processes against each other.
    - Cprintf, Console: console.c, kbd.c, uart.c, procdump and getcallerpcs.
    - Cstring: string.c.  Bytes: little-endian words in blocks.
    - Sleeplock: sleeplock.c.
    - Dll: the theory of circular lists behind the cache.  Bio: bio.c and the
      memory disk memide.c.  Ide: the driver ide.c against the ports of the
      controller.
    - Log: log.c.  Txn: the file system's view of the blocks in a transaction.
    - Kalloc: kalloc.c.  Vm, Uvm: vm.c, its code and the theory of address
      spaces.
    - Sched: the scheduler of proc.c.  Pipe: pipe.c.
    - Inode, Fs, Path: fs.c, from blocks to path names.
    - Line: the theory of the console's line discipline.
    - File: file.c.  Durable: the crash safety of filewrite.
    - Life: allocproc, userinit, growproc, fork, exit, wait and waitx of
      proc.c.  Exec: exec.c.
    - Syscall: syscall.c, sysproc.c, sysfile.c and trap.c.
    - Entry: the machine level: the instructions of swtch.S, trapasm.S, the
      vectors of vectors.pl, usys.S and initcode.S on a processor with registers,
      segment and interrupt tables, and seginit, tvinit, idtinit and the task
      state segment of switchuvm.
    - Mp: mp.c.  Apic: lapic.c, ioapic.c and picirq.c.
    - Boot: bootmain.c.  Main: main.c, mycpu and cpuid of proc.c, uartinit.

    The rest of the system:
    - Mkfs: mkfs.c.
    - Ulib: ulib.c and printf.c.  Umalloc: umalloc.c.  Usbrk: the step from the
      allocator's sbrk to growproc.
    - Grep: grep.c.  Sh, Shrun: the parser and the execution of sh.c.
    - Usys: the system calls as events of interaction trees, programs as trees,
      and the contract [Descriptors] of the calls on descriptors.
    - Utools: cat.c, wc.c, echo.c, kill.c, ln.c, mkdir.c, rm.c.  Uls: ls.c.
      Uproc: init.c, forktest.c, stressfs.c, time.c, zombie.c.
    - Uread: the kernel's fileread as an implementation of [Descriptors].
    - Uspec: a specification of the system calls, a system of processes, files,
      directories and pipes that runs programs.  Utests: usertests.c.

    Definitions keep the names of the source.  The body of a loop, or the loop
    itself, has a name derived from its function: [readi_loop] is the loop of
    [readi].  A loop over an array is [foreach] or a search with [list_find]; a
    loop with a known bound takes the bound as its fuel; a loop of a user program
    is [ITree.iter] of its round, which needs none.

    ** What is proved

    - Concurrency.  In every reachable state of [Smp] at most one processor
      is in the critical section of a lock, and the depth of cli is the number
      of locks held ([Smp.mutual_exclusion], [Smp.ncli_counts_held]).
      When processes that sleep until a condition holds, processes that
      establish it and call wakeup, and calls of kill run against each other
      action by action, nothing panics, and whenever nothing can move no
      process sleeps although its condition holds ([no_lost_wakeup]).  [sched]
      keeps the interrupt state of a process ([Smp.sched_keeps_intena]).
    - The disk.  The cache presents every block as it was last written
      ([bcache_coherent]); the driver serves its queue in order, and each
      caller of iderw returns with the flags and the data its request gets
      ([ide_serves_in_order]).  A transaction is atomic and
      durable, its commit point is the write of the header, and recovery may
      itself be interrupted ([transaction_atomic], [commit_crash_safe],
      [recovery_idempotent]): the theorems quantify over every prefix of the disk
      writes.  How many blocks a transaction can hold, and when [begin_op]
      waits, is [log_capacity].
    - The file system.  Allocation takes a free block and no other
      ([balloc_correct]); inodes survive the disk ([inode_roundtrip]); reading
      and writing a file are [slice] and [splice] on its contents, and a write
      leaves other files alone ([readi_correct], [writei_correct],
      [file_roundtrip]); a directory search finds the first matching entry
      ([dirlookup_correct]); [namex] follows the path along the directories on
      the disk and leaks no reference ([namex_correct]); a write to a file of
      up to three blocks is one transaction, so after a crash the file is the
      old or the new one ([filewrite_atomic]).  The image mkfs writes is a file
      system that holds the files it was given ([mkfs_correct]).
    - Memory.  The free list holds distinct pages that nobody owns
      ([kalloc_correct], [kfree_correct], [kinit_frees_memory]).  The page
      tables are described by finite maps from virtual page numbers; growing,
      shrinking, copying and freeing an address space, and the kernel's half
      of it, are stated in terms of what the processor's page walk sees
      ([allocuvm_correct], [deallocuvm_correct], [freevm_correct],
      [setupkvm_correct], [copyuvm_correct], [copyout_correct]).
    - Processes.  The first process of a pass is the oldest one or the one
      with the best priority, and round robin gives every RUNNABLE process its
      turn, in the order of the table ([scheduler_policy],
      [scheduler_round_robin], against an arbitrary environment of processes
      here and on other processors).  wait and waitx free the slot of a zombie
      and return everything it had to the free list, fail without a child and
      sleep otherwise ([wait_correct]).
    - The machine.  An interrupt, the entry code, the handler's frame and the
      return restore every register of the interrupted program
      ([trap_roundtrip]); a thread that switches away and is switched back to
      goes on with its registers and stack ([swtch_roundtrip]); the stack
      allocproc builds makes a new process start in forkret and go on to user
      mode ([new_process_starts]); only the system call gate can be used from
      user mode ([user_int_gate]); all of it keeps the widths of registers,
      selectors and bytes ([machine_well_typed]).
    - Start.  The boot loader puts the segments of the kernel where they belong
      ([bootmain_loads]); mpinit finds the processors of the tables
      ([mpinit_correct]); startothers starts each of them once, and each comes
      up on a stack of its own, whenever the processors take their steps
      ([startothers_correct]); the first page directory maps what the
      start code needs ([entrypgdir_maps]); interrupts are routed to the
      processor asked for ([ioapic_routes]); the date that is read is one
      the clock showed, whatever its registers read as during an update
      ([cmostime_correct]).
    - Communication.  The pipe operations refine a bounded queue for every
      interleaving with other processes ([pipewrite_correct],
      [piperead_correct], [pipe_roundtrip]).  The console implements line
      editing ([uartintr_correct], [console_roundtrip]).
    - The boundary to user programs.  Fetching arguments never faults and
      never leaves the caller's memory ([syscall_args_safe]).
    - User programs.  malloc and free keep the free list and hand out disjoint
      blocks ([malloc_correct], [free_correct], [sbrk_is_growproc]).  The shell
      parses its grammar and connects the programs of a command as written
      ([parsecmd_correct], [shell_wiring]); grep matches its patterns
      ([match_correct], [grep_correct]); cat, wc, echo and ls print what they
      should for every system that keeps the contract, however reads cut the
      input ([cat_correct], [wc_correct], [echo_correct], [ls_correct]), and
      the kernel's fileread keeps it, so that cat and wc print what the disk
      holds ([tools_read_disk]); init opens the console and goes on
      starting shells, and its child becomes one ([init_correct]); forktest tells the end of the process table
      ([forktest_correct]).  The test of pipes accepts exactly the bytes its
      child sends, whatever the system answers ([pipe1_correct]).  As examples,
      the specification of the system calls passes the repository's tests, run as
      programs with turns of several lengths ([usertests_pass]).
    - Library routines: [memmove_correct], [printint_correct], [atoi_printf],
      [toint_correct].
    - Defects of the code, as theorems: [log_capacity],
      [scheduler_falls_through], [rtime_never_credited], [growproc_to_zero], [kill_zero],
      [setpriority_unreachable], [mpinit_hangs], [ide_error_ignored],
      [mkfs_root_hole], [grep_drops_partial_line], [malloc_wraps],
      [malloc_beyond_break].

    ** Bounds and fuel

    Loops that are bounded in the source get their bound: [io_rounds n] is the
    number of blocks [n] bytes can touch, [namex_loop] takes the length of the
    path, which every element shortens, [kill_line] the length of the line,
    [readseg_loop] the number of sectors.  The loops that wait for another
    process ([begin_op], [acquiresleep], [input_wait], [write_wait], [read_wait],
    [wait_loop], [sleep_loop]) take the number of wake-ups, the instance of the
    class [Fuel]; the theorems about them hold for every fuel, or for every
    positive one.  Loops that wait for a device ([waitdisk], [idewait],
    the attempts of [cmostime]) take a number of polls, and the theorems assume
    that the device answers within it; [wait_started] takes a number of polls
    within which a processor makes the five steps to its flag.  [mpinit] needs a round
    for each entry of the table, the parser of the shell three more than the
    length of the line, [grep] one per byte; the theorems say so.  The tests run
    with fuel for five thousand turns.  Addresses of
    the linked kernel image, which the linker chooses, are the class [Link];
    what kernel.ld guarantees about them is [LinkOk].

    ** Not modelled

    bootasm.S, entry.S and entryother.S switch the processor from 16-bit to
    32-bit mode and turn paging on; the machine of Entry.v starts after them.
    Of entryother.S the words it loads and the call are a step relation in Main.
    Of usertests.c the tests of memory and port accesses (mem, sbrktest,
    validatetest, uio) are left out: what they try is not a system call.  Outside
    of [Smp], Wakeup, Sched and the start in Main one processor runs in the
    kernel at a time.  Hardware the code talks to
    (keyboard, serial port, disk controller, interrupt controllers, clock, page
    walk, the bytes in memory that nobody has written) is a parameter of the
    definitions. *)

From Stdlib Require Import ZArith Lia String.
From stdpp Require Import base numbers list option strings.

#[global] Open Scope Z_scope.
#[global] Set Default Goal Selector "!".

(** ** The kernel monad

    A C function that runs in the kernel is a function from the kernel state
    to a [res]: it returns, it panics (and the machine stops), it gives the
    processor away in [swtch] and continues when it is switched back to, or
    the fuel chosen for a loop of unbounded length ran out. *)

Inductive res (S A : Type) : Type :=
| Ret (a : A) (s : S)
| Panic (msg : string)
| Swtch (to : option nat) (s : S) (k : S -> res S A)
| OutOfFuel.
Arguments Ret {S A} a s.
Arguments Panic {S A} msg.
Arguments Swtch {S A} to s k.
Arguments OutOfFuel {S A}.

Definition M (S A : Type) : Type := S -> res S A.

Definition ret {S A} (a : A) : M S A := fun s => Ret a s.

Fixpoint res_bind {S A B} (r : res S A) (f : A -> M S B) : res S B :=
  match r with
  | Ret a s => f a s
  | Panic m => Panic m
  | Swtch t s k => Swtch t s (fun s' => res_bind (k s') f)
  | OutOfFuel => OutOfFuel
  end.

Definition bind {S A B} (c : M S A) (f : A -> M S B) : M S B :=
  fun s => res_bind (c s) f.

Definition panic {S A} (msg : string) : M S A := fun _ => Panic msg.
Definition gets {S A} (f : S -> A) : M S A := fun s => Ret (f s) s.
Definition modify {S} (f : S -> S) : M S unit := fun s => Ret tt (f s).
Definition swtch {S} (to : option nat) : M S unit := fun s => Swtch to s (fun s' => Ret tt s').
Definition out_of_fuel {S A} : M S A := fun _ => OutOfFuel.

Declare Scope k_scope.
Delimit Scope k_scope with k.
Bind Scope k_scope with M.

Notation "x <- c ;; k" := (bind c (fun x => k))
  (at level 100, c at next level, right associativity) : k_scope.
Notation "'let*' p ':=' c 'in' k" := (bind c (fun x => match x with p => k end))
  (at level 100, p pattern, c at next level, right associativity) : k_scope.
Notation "c ;; k" := (bind c (fun _ => k))
  (at level 100, right associativity) : k_scope.
#[global] Open Scope k_scope.

(** [when b c] is the C statement [if(b) c;]. *)
Definition when {S} (b : bool) (c : M S unit) : M S unit :=
  if b then c else ret tt.

(** [foreach l body] is a counted [for] loop without an early exit. *)
Fixpoint foreach {S I} (l : list I) (body : I -> M S unit) : M S unit :=
  match l with
  | [] => ret tt
  | i :: l' => body i ;; foreach l' body
  end.

(** [find_loop l body] is a [for] loop whose body may return from it. *)
Fixpoint find_loop {S I A} (l : list I) (body : I -> M S (option A)) : M S (option A) :=
  match l with
  | [] => ret None
  | i :: l' =>
      r <- body i ;;
      match r with
      | Some a => ret (Some a)
      | None => find_loop l' body
      end
  end.

(** *** Program logic

    [wp c s Q]: from [s], [c] returns without switching away, and its result
    satisfies [Q]; in particular it does not panic. *)
Definition wp {S A} (c : M S A) (s : S) (Q : A -> S -> Prop) : Prop :=
  match c s with
  | Ret a s' => Q a s'
  | _ => False
  end.

(** [rg r G R Q]: rely-guarantee reasoning on a result.  The computation does
    not panic, every state in which it gives the processor away satisfies
    [G], and, provided that every state it is resumed in satisfies [R]
    (relative to the state it was left in), its result satisfies [Q]. *)
Fixpoint rg {S A} (r : res S A) (G : option nat -> S -> Prop) (R : S -> S -> Prop)
    (Q : A -> S -> Prop) : Prop :=
  match r with
  | Ret a s => Q a s
  | Panic _ => False
  | Swtch t s k => G t s /\ forall s', R s s' -> rg (k s') G R Q
  | OutOfFuel => True
  end.

(** Equality of results up to extensional equality of continuations. *)
Fixpoint res_eq {S A} (r1 r2 : res S A) : Prop :=
  match r1, r2 with
  | Ret a s, Ret a' s' => a = a' /\ s = s'
  | Panic m, Panic m' => m = m'
  | Swtch t s k, Swtch t' s' k' => t = t' /\ s = s' /\ forall x, res_eq (k x) (k' x)
  | OutOfFuel, OutOfFuel => True
  | _, _ => False
  end.

Section monad_laws.
Context {S : Type}.

#[global] Instance res_eq_equivalence {A} : Equivalence (@res_eq S A).
Proof.
  split.
  - intros r. induction r as [| |t s k IH|]; simpl; auto.
  - intros r. induction r as [| |t s k IH|]; intros [| | |]; simpl; try done.
    + intros [-> ->]; done.
    + intros (-> & -> & H). auto.
  - intros r. induction r as [| |t s k IH|]; intros [| | |] [| | |]; simpl; try done.
    + intros [-> ->]; done.
    + congruence.
    + intros (-> & -> & H) (-> & -> & H'). eauto.
Qed.

#[global] Instance res_bind_proper {A B} :
  Proper (res_eq ==> (pointwise_relation A (pointwise_relation S res_eq)) ==> res_eq)
    (@res_bind S A B).
Proof.
  intros r r' Hr f f' Hf. revert r' Hr.
  induction r as [| |t s k IH|]; intros [| | |]; simpl; try done.
  - intros [-> ->]. apply Hf.
  - intros (-> & -> & H). auto.
Qed.

Lemma bind_ret_l {A B} (a : A) (f : A -> M S B) s : bind (ret a) f s = f a s.
Proof. done. Qed.

Lemma res_bind_ret_r {A} (r : res S A) : res_eq (res_bind r ret) r.
Proof. induction r; simpl; auto. Qed.

Lemma res_bind_assoc {A B C} (r : res S A) (f : A -> M S B) (g : B -> M S C) :
  res_eq (res_bind (res_bind r f) g) (res_bind r (fun a => bind (f a) g)).
Proof. induction r; simpl; auto. reflexivity. Qed.

Lemma bind_run {A B} (c : M S A) (f : A -> M S B) s a s' :
  c s = Ret a s' -> bind c f s = f a s'.
Proof. intros H. unfold bind. by rewrite H. Qed.

Lemma bind_Ret_inv {A B} (c : M S A) (f : A -> M S B) s b s' :
  bind c f s = Ret b s' -> exists a s1, c s = Ret a s1 /\ f a s1 = Ret b s'.
Proof. unfold bind. destruct (c s); simpl; try done. eauto. Qed.

Lemma wp_ret {A} (a : A) s (Q : A -> S -> Prop) : Q a s -> wp (ret a) s Q.
Proof. done. Qed.

Lemma wp_bind {A B} (c : M S A) (f : A -> M S B) s Q :
  wp c s (fun a s' => wp (f a) s' Q) -> wp (bind c f) s Q.
Proof. unfold wp, bind. by destruct (c s). Qed.

Lemma wp_assoc {A B C} (c : M S A) (f : A -> M S B) (g : B -> M S C) s Q :
  wp (x <- (y <- c ;; f y) ;; g x) s Q -> wp (y <- c ;; x <- f y ;; g x) s Q.
Proof. unfold wp, bind. by destruct (c s). Qed.

Lemma wp_assoc3 {A B C D} (c : M S A) (d : A -> M S B) (f : A -> B -> M S C) (g : C -> M S D) s Q :
  wp (x <- (y <- c ;; z <- d y ;; f y z) ;; g x) s Q -> wp (y <- c ;; z <- d y ;; x <- f y z ;; g x) s Q.
Proof. unfold wp, bind. destruct (c s) as [a s1| | |]; simpl; [|done..]. by destruct (d a s1). Qed.

Lemma wp_bind_inv {A B} (c : M S A) (f : A -> M S B) s Q :
  wp (bind c f) s Q -> wp c s (fun a s' => wp (f a) s' Q).
Proof. unfold wp, bind. by destruct (c s). Qed.

Lemma wp_mono {A} (c : M S A) s (Q Q' : A -> S -> Prop) :
  wp c s Q -> (forall a s', Q a s' -> Q' a s') -> wp c s Q'.
Proof. unfold wp. destruct (c s); auto. Qed.

Lemma wp_run {A} (c : M S A) s a s' (Q : A -> S -> Prop) :
  c s = Ret a s' -> Q a s' -> wp c s Q.
Proof. intros H HQ. unfold wp. by rewrite H. Qed.

Lemma wp_inv {A} (c : M S A) s (Q : A -> S -> Prop) :
  wp c s Q -> exists a s', c s = Ret a s' /\ Q a s'.
Proof. unfold wp. destruct (c s); try done. eauto. Qed.

Lemma rg_bind {A B} (r : res S A) (f : A -> M S B) G R Q :
  rg r G R (fun a s => rg (f a s) G R Q) -> rg (res_bind r f) G R Q.
Proof. induction r as [| |t s k IH|]; simpl; try done. intros [HG H]. auto. Qed.

Lemma rg_mono {A} (r : res S A) G R (Q Q' : A -> S -> Prop) :
  rg r G R Q -> (forall a s, Q a s -> Q' a s) -> rg r G R Q'.
Proof. intros H HQ. induction r as [| |t s k IH|]; simpl in *; auto. destruct H; auto. Qed.

Lemma foreach_inv {I} (P : list I -> S -> Prop) (body : I -> M S unit) :
  (forall done_ i s, P done_ s -> wp (body i) s (fun _ s' => P (done_ ++ [i]) s')) ->
  forall l pre s, P pre s -> wp (foreach l body) s (fun _ s' => P (pre ++ l) s').
Proof.
  intros Hstep l. induction l as [|i l IH]; intros pre s HP; simpl.
  - apply wp_ret. by rewrite app_nil_r.
  - apply wp_bind. eapply wp_mono; [by apply Hstep|]. intros ? s' HP'.
    eapply wp_mono; [exact (IH _ _ HP')|]. intros ? s'' H. simpl in H. by rewrite <- app_assoc in H.
Qed.

Lemma foreach_app_run {I} (body : I -> M S unit) l1 l2 s s' :
  foreach l1 body s = Ret tt s' -> foreach (l1 ++ l2) body s = foreach l2 body s'.
Proof.
  revert s. induction l1 as [|i l1 IH]; intros s; simpl; [by intros [= ->]|].
  intros (a & s1 & H1 & H2)%bind_Ret_inv. erewrite bind_run by exact H1. by apply IH.
Qed.

End monad_laws.

(** ** Machine integers

    A C [uint] is a [Z] in [0, 2^32), an [int] a [Z] in [-2^31, 2^31); every
    operation that can leave the range is wrapped explicitly. *)

Definition u8 (z : Z) : Z := z mod 2 ^ 8.
Definition u16 (z : Z) : Z := z mod 2 ^ 16.
Definition u32 (z : Z) : Z := z mod 2 ^ 32.
Definition i16 (z : Z) : Z := (z + 2 ^ 15) mod 2 ^ 16 - 2 ^ 15.
Definition i32 (z : Z) : Z := (z + 2 ^ 31) mod 2 ^ 32 - 2 ^ 31.

Lemma u32_range z : 0 <= u32 z < 2 ^ 32.
Proof. apply Z.mod_pos_bound. lia. Qed.

Lemma u32_small z : 0 <= z < 2 ^ 32 -> u32 z = z.
Proof. apply Z.mod_small. Qed.

Lemma i32_range z : - 2 ^ 31 <= i32 z < 2 ^ 31.
Proof. unfold i32. pose proof (Z.mod_pos_bound (z + 2 ^ 31) (2 ^ 32)). lia. Qed.

Lemma i32_small z : - 2 ^ 31 <= z < 2 ^ 31 -> i32 z = z.
Proof. intros. unfold i32. rewrite Z.mod_small; lia. Qed.

Lemma u8_range z : 0 <= u8 z < 2 ^ 8.
Proof. apply Z.mod_pos_bound. lia. Qed.

Lemma u8_small z : 0 <= z < 256 -> u8 z = z.
Proof. apply Z.mod_small. Qed.

(** ** Little-endian encoding of machine words *)

Fixpoint le_encode (n : nat) (z : Z) : list Z :=
  match n with
  | O => []
  | S n' => z mod 256 :: le_encode n' (z / 256)
  end.

Fixpoint le_decode (l : list Z) : Z :=
  match l with
  | [] => 0
  | b :: l' => b + 256 * le_decode l'
  end.

Definition is_byte (b : Z) : Prop := 0 <= b < 256.

Lemma length_le_encode n z : length (le_encode n z) = n.
Proof. revert z. induction n; intros; simpl; auto. Qed.

Lemma le_encode_bytes n z : Forall is_byte (le_encode n z).
Proof.
  revert z. induction n; intros; simpl; constructor; auto.
  apply Z.mod_pos_bound. lia.
Qed.

Lemma le_decode_encode n z : 0 <= z < 256 ^ Z.of_nat n -> le_decode (le_encode n z) = z.
Proof.
  revert z. induction n as [|n IH]; intros z Hz.
  - simpl in *. lia.
  - cbn [le_encode le_decode]. rewrite Nat2Z.inj_succ, Z.pow_succ_r in Hz by lia.
    rewrite IH.
    + pose proof (Z.div_mod z 256). lia.
    + split; [apply Z.div_pos; lia|]. apply Z.div_lt_upper_bound; lia.
Qed.

Lemma le_decode_range l : Forall is_byte l -> 0 <= le_decode l < 256 ^ Z.of_nat (length l).
Proof.
  induction 1 as [|b l Hb _ IH]; cbn [le_decode length].
  - simpl. lia.
  - rewrite Nat2Z.inj_succ, Z.pow_succ_r by lia. unfold is_byte in Hb. lia.
Qed.

Lemma le_encode_decode l : Forall is_byte l -> le_encode (length l) (le_decode l) = l.
Proof.
  induction 1 as [|b l Hb _ IH]; [done|]. cbn [length le_encode le_decode]. unfold is_byte in Hb.
  assert (Hmod : (b + 256 * le_decode l) mod 256 = b).
  { rewrite Z.mul_comm, Z.mod_add, Z.mod_small; lia. }
  assert (Hdiv : (b + 256 * le_decode l) / 256 = le_decode l).
  { rewrite Z.mul_comm, Z.div_add, Z.div_small; lia. }
  by rewrite Hmod, Hdiv, IH.
Qed.

(** ** Lists *)

Section list_lemmas.
Context {A : Type}.

Lemma filter_all (P : A -> Prop) `{!forall x, Decision (P x)} (l : list A) :
  Forall P l -> filter P l = l.
Proof. induction 1; [done|]. rewrite filter_cons_True by done. by f_equal. Qed.

Lemma filter_none (P : A -> Prop) `{!forall x, Decision (P x)} (l : list A) :
  Forall (fun x => ~ P x) l -> filter P l = [].
Proof. induction 1; [done|]. by rewrite filter_cons_False. Qed.

Lemma filter_ext_in (P Q : A -> Prop) `{!forall x, Decision (P x)} `{!forall x, Decision (Q x)} (l : list A) :
  (forall x, x ∈ l -> P x <-> Q x) -> filter P l = filter Q l.
Proof.
  induction l as [|x l IH]; intros HPQ; [done|]. rewrite !filter_cons.
  rewrite IH by (intros; apply HPQ; by right). pose proof (HPQ x ltac:(left)).
  destruct (decide (P x)), (decide (Q x)); naive_solver.
Qed.

Lemma alter_is_insert (f : A -> A) (l : list A) i x : l !! i = Some x -> alter f i l = <[i := f x]> l.
Proof. revert i. induction l as [|y l IH]; intros [|i] Hx; simplify_eq/=; [done|]. f_equal. by apply IH. Qed.

Lemma alter_of_insert (f : A -> A) (l : list A) i x : alter f i (<[i := x]> l) = <[i := f x]> l.
Proof. revert i. induction l as [|y l IH]; intros [|i]; simpl; [done..|]. f_equal. apply IH. Qed.

Lemma filter_ne_not_in `{!EqDecision A} (x : A) (l : list A) :
  x ∉ l -> filter (fun y => y <> x) l = l.
Proof. intros Hx. apply filter_all, Forall_forall. intros y Hy ->. done. Qed.

Lemma filter_ne_cons `{!EqDecision A} (x : A) (l : list A) :
  x ∉ l -> filter (fun y => y <> x) (x :: l) = l.
Proof. intros Hx. rewrite filter_cons_False by auto. by apply filter_ne_not_in. Qed.

Lemma length_filter_ne `{!EqDecision A} (x : A) (l : list A) :
  NoDup l -> x ∈ l -> length l = S (length (filter (fun y => y <> x) l)).
Proof.
  induction 1 as [|y l Hy Hnd IH]; intros Hin; [by apply not_elem_of_nil in Hin|].
  destruct (decide (y = x)) as [->|Hne].
  - by rewrite filter_ne_cons.
  - rewrite filter_cons_True by done. simpl. f_equal. apply IH.
    apply elem_of_cons in Hin as [->|Hin]; done.
Qed.

Lemma not_elem_of_filter_ne `{!EqDecision A} (x : A) (l : list A) :
  x ∉ filter (fun y => y <> x) l.
Proof. rewrite list_elem_of_filter. naive_solver. Qed.

End list_lemmas.

(** Case analysis on integer tests appearing in the goal. *)
Ltac zcases :=
  repeat match goal with
  | |- context [?a <? ?b] => destruct (Z.ltb_spec a b); try lia
  | |- context [?a <=? ?b] => destruct (Z.leb_spec a b); try lia
  | |- context [?a =? ?b] => destruct (Z.eqb_spec a b); try lia
  end.
