(* ===== verification/Kernel.v ===== *)
(** * The kernel's data: the structures of the header files, the global state

    Constants of param.h, fs.h, mmu.h, memlayout.h and buf.h; the structures of
    proc.h, buf.h, file.h, fs.h, sleeplock.h and log.c; the record [kernel] of
    all global variables, and the memory accessors.  A pointer into a static
    table (a [struct proc*], [struct buf*], [struct inode*], [struct file*])
    is the index of the entry in its table; a pointer to a page is its kernel
    virtual address, a [Z], with 0 for the null pointer. *)

From stdpp Require Import base numbers list option strings gmap.
From S2P Require Import Prelude.

(** ** param.h, fs.h, buf.h *)

Definition NPROC : nat := 64.
Definition KSTACKSIZE : Z := 4096.
Definition NCPU : nat := 8.
Definition NOFILE : nat := 16.
Definition NFILE : nat := 100.
Definition NINODE : nat := 50.
Definition NDEV : Z := 10.
Definition ROOTDEV : Z := 1.
Definition MAXARG : Z := 32.
Definition MAXOPBLOCKS : Z := 10.
Definition LOGSIZE : Z := MAXOPBLOCKS * 3.
Definition NBUF : nat := 30.
Definition FSSIZE : Z := 1000.

Definition ROOTINO : Z := 1.
Definition BSIZE : Z := 512.
Definition NDIRECT : Z := 12.
Definition NINDIRECT : Z := BSIZE / 4.
Definition MAXFILE : Z := NDIRECT + NINDIRECT.
Definition DIRSIZ : Z := 14.
Definition T_DIR : Z := 1.
Definition T_FILE : Z := 2.
Definition T_DEV : Z := 3.

Definition B_VALID : Z := 2.
Definition B_DIRTY : Z := 4.

(** ** traps.h *)

Definition T_SYSCALL : Z := 64.
Definition T_IRQ0 : Z := 32.
Definition IRQ_TIMER : Z := 0.
Definition IRQ_KBD : Z := 1.
Definition IRQ_COM1 : Z := 4.
Definition IRQ_IDE : Z := 14.
Definition IRQ_ERROR : Z := 19.
Definition IRQ_SPURIOUS : Z := 31.

(** ** mmu.h, memlayout.h *)

Definition PGSIZE : Z := 4096.
Definition NPDENTRIES : Z := 1024.
Definition PTE_P : Z := 1.
Definition PTE_W : Z := 2.
Definition PTE_U : Z := 4.
Definition EXTMEM : Z := 0x100000.
Definition PHYSTOP : Z := 0xE000000.
Definition DEVSPACE : Z := 0xFE000000.
Definition KERNBASE : Z := 0x80000000.
Definition KERNLINK : Z := KERNBASE + EXTMEM.

Definition V2P (a : Z) : Z := u32 (a - KERNBASE).
Definition P2V (a : Z) : Z := u32 (a + KERNBASE).
Definition PDX (va : Z) : Z := Z.land (Z.shiftr va 22) 0x3FF.
Definition PTX (va : Z) : Z := Z.land (Z.shiftr va 12) 0x3FF.
Definition PGADDR (d t o : Z) : Z :=
  u32 (Z.lor (Z.lor (Z.shiftl d 22) (Z.shiftl t 12)) o).
Definition PGROUNDUP (sz : Z) : Z := Z.land (u32 (sz + PGSIZE - 1)) (u32 (Z.lnot (PGSIZE - 1))).
Definition PGROUNDDOWN (a : Z) : Z := Z.land a (u32 (Z.lnot (PGSIZE - 1))).
Definition PTE_ADDR (pte : Z) : Z := Z.land pte (u32 (Z.lnot 0xFFF)).
Definition PTE_FLAGS (pte : Z) : Z := Z.land pte 0xFFF.

(** ** Locks and sleep channels

    A lock is identified by the object that contains it, a channel (a
    [void*] in the source) by the object whose address is slept on. *)

Inductive slref := SL_buf (i : nat) | SL_inode (i : nat).
#[global] Instance slref_eq_dec : EqDecision slref.
Proof. solve_decision. Defined.

Inductive lockid :=
| L_ptable | L_bcache | L_log | L_icache | L_ftable | L_kmem | L_cons | L_ticks | L_ide
| L_pipe (p : Z) | L_sleep (r : slref).
#[global] Instance lockid_eq_dec : EqDecision lockid.
Proof. solve_decision. Defined.

Inductive chan :=
| Ch_proc (i : nat) | Ch_sleep (r : slref) | Ch_buf (i : nat) | Ch_log | Ch_ticks
| Ch_nread (p : Z) | Ch_nwrite (p : Z) | Ch_input.
#[global] Instance chan_eq_dec : EqDecision chan.
Proof. solve_decision. Defined.

(** ** proc.h *)

Inductive procstate := UNUSED | EMBRYO | SLEEPING | RUNNABLE | RUNNING | ZOMBIE.
#[global] Instance procstate_eq_dec : EqDecision procstate.
Proof. solve_decision. Defined.

Record proc := mkproc {
  p_sz : Z;
  p_pgdir : Z;
  p_kstack : Z;
  p_state : procstate;
  p_pid : Z;
  p_parent : option nat;
  p_tf : Z;
  p_context : Z;
  p_chan : option chan;
  p_killed : Z;
  p_ofile : list (option nat);
  p_cwd : option nat;
  p_name : list Z;
  p_ctime : Z;
  p_etime : Z;
  p_rtime : Z;
  p_last_check : Z;
  p_priority : Z;
}.

Definition proc_zero : proc :=
  mkproc 0 0 0 UNUSED 0 None 0 0 None 0 (replicate NOFILE None) None (replicate 16 0) 0 0 0 0 0.
#[global] Instance proc_inhabited : Inhabited proc := populate proc_zero.

(** ** sleeplock.h, buf.h *)

Record sleeplock := mksleeplock { sl_locked : Z; sl_pid : Z }.

Definition block := list Z.
Definition zero_block : block := replicate 512 0.

Record buf := mkbuf {
  b_flags : Z;
  b_dev : Z;
  b_blockno : Z;
  b_lock : sleeplock;
  b_refcnt : Z;
  b_prev : nat;
  b_next : nat;
  b_data : block;
}.

Definition buf_zero : buf := mkbuf 0 0 0 (mksleeplock 0 0) 0 0 0 zero_block.
#[global] Instance buf_inhabited : Inhabited buf := populate buf_zero.

(** ** log.c *)

Record log := mklog {
  log_start : Z;
  log_size : Z;
  log_outstanding : Z;
  log_committing : bool;
  log_dev : Z;
  lh_n : Z;
  lh_block : list Z;
}.

(** ** fs.h, file.h *)

Record superblock := mksuperblock {
  sb_size : Z;
  sb_nblocks : Z;
  sb_ninodes : Z;
  sb_nlog : Z;
  sb_logstart : Z;
  sb_inodestart : Z;
  sb_bmapstart : Z;
}.

Record dinode := mkdinode {
  di_type : Z;
  di_major : Z;
  di_minor : Z;
  di_nlink : Z;
  di_size : Z;
  di_addrs : list Z;
}.

Record inode := mkinode {
  i_dev : Z;
  i_inum : Z;
  i_ref : Z;
  i_lock : sleeplock;
  i_valid : bool;
  i_type : Z;
  i_major : Z;
  i_minor : Z;
  i_nlink : Z;
  i_size : Z;
  i_addrs : list Z;
}.

Definition inode_zero : inode :=
  mkinode 0 0 0 (mksleeplock 0 0) false 0 0 0 0 0 (replicate 13 0).
#[global] Instance inode_inhabited : Inhabited inode := populate inode_zero.

Inductive fdtype := FD_NONE | FD_PIPE | FD_INODE.
#[global] Instance fdtype_eq_dec : EqDecision fdtype.
Proof. solve_decision. Defined.

Record file := mkfile {
  f_type : fdtype;
  f_ref : Z;
  f_readable : bool;
  f_writable : bool;
  f_pipe : Z;
  f_ip : option nat;
  f_off : Z;
}.

Definition file_zero : file := mkfile FD_NONE 0 false false 0 None 0.
#[global] Instance file_inhabited : Inhabited file := populate file_zero.

(** ** pipe.c *)

Definition PIPESIZE : Z := 512.

Record pipe := mkpipe {
  pi_data : list Z;
  pi_nread : Z;
  pi_nwrite : Z;
  pi_readopen : bool;
  pi_writeopen : bool;
}.

Definition pipe_zero : pipe := mkpipe (replicate 512 0) 0 0 false false.
#[global] Instance pipe_inhabited : Inhabited pipe := populate pipe_zero.

(** ** console.c *)

Definition INPUT_BUF : Z := 128.

Record input := mkinput {
  in_buf : list Z;
  in_r : Z;
  in_w : Z;
  in_e : Z;
}.

(** ** The global state

    [k_held] lists the spin-locks the executing processor holds, most recently
    acquired first; [k_cur] is [mycpu()->proc].  [k_disk] is the array
    [memdisk] of memide.c, one block per entry; [k_writes] records the block
    writes it has received, newest last, so that the states in which a crash
    can leave the disk are expressible.  [k_out] records the bytes sent to the
    serial port, [k_crt] are the cells of the screen and [k_cursor] is the
    cursor register of the display controller; [k_first] is the static flag of
    [forkret], [k_shift] the static variable of [kbdgetc], and [k_devsw] says
    which entries of [devsw] hold the functions of the console. *)

Record kernel := mkkernel {
  k_held : list lockid;
  k_cur : option nat;
  k_proc : list proc;
  k_initproc : option nat;
  k_nextpid : Z;
  k_ticks : Z;
  k_mem : Z -> Z;
  k_use_lock : bool;
  k_freelist : Z;
  k_kpgdir : Z;
  k_cr3 : Z;
  k_disk : Z -> block;
  k_disksize : Z;
  k_writes : list (Z * block);
  k_bufs : list buf;
  k_log : log;
  k_sb : superblock;
  k_inodes : list inode;
  k_files : list file;
  k_pipes : gmap Z pipe;
  k_input : input;
  k_uart : bool;
  k_out : list Z;
  k_crt : Z -> Z;
  k_cursor : Z;
  k_cons_locking : bool;
  k_first : bool;
  k_devsw : list bool;
  k_shift : Z;
}.

(** The state in which the kernel is entered: every global variable is zero
    but [nextpid] and the flag [first] of [forkret]. *)
Definition kernel_zero : kernel :=
  mkkernel [] None (replicate NPROC proc_zero) None 1 0 (fun _ => 0) false 0 0 0
    (fun _ => zero_block) 0 [] (replicate (S NBUF) buf_zero) (mklog 0 0 0 false 0 0 (replicate 30 0))
    (mksuperblock 0 0 0 0 0 0 0) (replicate NINODE inode_zero) (replicate NFILE file_zero) ∅
    (mkinput (replicate 128 0) 0 0 0) false [] (fun _ => 0) 0 false true (replicate 10 false) 0.

Abbreviation K := (M kernel).
