(* ===== verification/Fields.v ===== *)
(** * Field updates

    [set_f v r] is the C assignment [r.f = v], for every field of the
    structures of [Kernel], and the tactics that compute with them. *)

From stdpp Require Import base numbers list option gmap.
From S2P Require Import Prelude Kernel.

Definition set_p_sz (v : Z) (r : proc) : proc :=
  mkproc v (p_pgdir r) (p_kstack r) (p_state r) (p_pid r) (p_parent r) (p_tf r) (p_context r)
    (p_chan r) (p_killed r) (p_ofile r) (p_cwd r) (p_name r) (p_ctime r) (p_etime r) (p_rtime r)
    (p_last_check r) (p_priority r).
Definition set_p_pgdir (v : Z) (r : proc) : proc :=
  mkproc (p_sz r) v (p_kstack r) (p_state r) (p_pid r) (p_parent r) (p_tf r) (p_context r) (p_chan r)
    (p_killed r) (p_ofile r) (p_cwd r) (p_name r) (p_ctime r) (p_etime r) (p_rtime r)
    (p_last_check r) (p_priority r).
Definition set_p_kstack (v : Z) (r : proc) : proc :=
  mkproc (p_sz r) (p_pgdir r) v (p_state r) (p_pid r) (p_parent r) (p_tf r) (p_context r) (p_chan r)
    (p_killed r) (p_ofile r) (p_cwd r) (p_name r) (p_ctime r) (p_etime r) (p_rtime r)
    (p_last_check r) (p_priority r).
Definition set_p_state (v : procstate) (r : proc) : proc :=
  mkproc (p_sz r) (p_pgdir r) (p_kstack r) v (p_pid r) (p_parent r) (p_tf r) (p_context r) (p_chan r)
    (p_killed r) (p_ofile r) (p_cwd r) (p_name r) (p_ctime r) (p_etime r) (p_rtime r)
    (p_last_check r) (p_priority r).
Definition set_p_pid (v : Z) (r : proc) : proc :=
  mkproc (p_sz r) (p_pgdir r) (p_kstack r) (p_state r) v (p_parent r) (p_tf r) (p_context r)
    (p_chan r) (p_killed r) (p_ofile r) (p_cwd r) (p_name r) (p_ctime r) (p_etime r) (p_rtime r)
    (p_last_check r) (p_priority r).
Definition set_p_parent (v : option nat) (r : proc) : proc :=
  mkproc (p_sz r) (p_pgdir r) (p_kstack r) (p_state r) (p_pid r) v (p_tf r) (p_context r) (p_chan r)
    (p_killed r) (p_ofile r) (p_cwd r) (p_name r) (p_ctime r) (p_etime r) (p_rtime r)
    (p_last_check r) (p_priority r).
Definition set_p_tf (v : Z) (r : proc) : proc :=
  mkproc (p_sz r) (p_pgdir r) (p_kstack r) (p_state r) (p_pid r) (p_parent r) v (p_context r)
    (p_chan r) (p_killed r) (p_ofile r) (p_cwd r) (p_name r) (p_ctime r) (p_etime r) (p_rtime r)
    (p_last_check r) (p_priority r).
Definition set_p_context (v : Z) (r : proc) : proc :=
  mkproc (p_sz r) (p_pgdir r) (p_kstack r) (p_state r) (p_pid r) (p_parent r) (p_tf r) v (p_chan r)
    (p_killed r) (p_ofile r) (p_cwd r) (p_name r) (p_ctime r) (p_etime r) (p_rtime r)
    (p_last_check r) (p_priority r).
Definition set_p_chan (v : option chan) (r : proc) : proc :=
  mkproc (p_sz r) (p_pgdir r) (p_kstack r) (p_state r) (p_pid r) (p_parent r) (p_tf r) (p_context r)
    v (p_killed r) (p_ofile r) (p_cwd r) (p_name r) (p_ctime r) (p_etime r) (p_rtime r)
    (p_last_check r) (p_priority r).
Definition set_p_killed (v : Z) (r : proc) : proc :=
  mkproc (p_sz r) (p_pgdir r) (p_kstack r) (p_state r) (p_pid r) (p_parent r) (p_tf r) (p_context r)
    (p_chan r) v (p_ofile r) (p_cwd r) (p_name r) (p_ctime r) (p_etime r) (p_rtime r)
    (p_last_check r) (p_priority r).
Definition set_p_ofile (v : list (option nat)) (r : proc) : proc :=
  mkproc (p_sz r) (p_pgdir r) (p_kstack r) (p_state r) (p_pid r) (p_parent r) (p_tf r) (p_context r)
    (p_chan r) (p_killed r) v (p_cwd r) (p_name r) (p_ctime r) (p_etime r) (p_rtime r)
    (p_last_check r) (p_priority r).
Definition set_p_cwd (v : option nat) (r : proc) : proc :=
  mkproc (p_sz r) (p_pgdir r) (p_kstack r) (p_state r) (p_pid r) (p_parent r) (p_tf r) (p_context r)
    (p_chan r) (p_killed r) (p_ofile r) v (p_name r) (p_ctime r) (p_etime r) (p_rtime r)
    (p_last_check r) (p_priority r).
Definition set_p_name (v : list Z) (r : proc) : proc :=
  mkproc (p_sz r) (p_pgdir r) (p_kstack r) (p_state r) (p_pid r) (p_parent r) (p_tf r) (p_context r)
    (p_chan r) (p_killed r) (p_ofile r) (p_cwd r) v (p_ctime r) (p_etime r) (p_rtime r)
    (p_last_check r) (p_priority r).
Definition set_p_ctime (v : Z) (r : proc) : proc :=
  mkproc (p_sz r) (p_pgdir r) (p_kstack r) (p_state r) (p_pid r) (p_parent r) (p_tf r) (p_context r)
    (p_chan r) (p_killed r) (p_ofile r) (p_cwd r) (p_name r) v (p_etime r) (p_rtime r)
    (p_last_check r) (p_priority r).
Definition set_p_etime (v : Z) (r : proc) : proc :=
  mkproc (p_sz r) (p_pgdir r) (p_kstack r) (p_state r) (p_pid r) (p_parent r) (p_tf r) (p_context r)
    (p_chan r) (p_killed r) (p_ofile r) (p_cwd r) (p_name r) (p_ctime r) v (p_rtime r)
    (p_last_check r) (p_priority r).
Definition set_p_rtime (v : Z) (r : proc) : proc :=
  mkproc (p_sz r) (p_pgdir r) (p_kstack r) (p_state r) (p_pid r) (p_parent r) (p_tf r) (p_context r)
    (p_chan r) (p_killed r) (p_ofile r) (p_cwd r) (p_name r) (p_ctime r) (p_etime r) v
    (p_last_check r) (p_priority r).
Definition set_p_last_check (v : Z) (r : proc) : proc :=
  mkproc (p_sz r) (p_pgdir r) (p_kstack r) (p_state r) (p_pid r) (p_parent r) (p_tf r) (p_context r)
    (p_chan r) (p_killed r) (p_ofile r) (p_cwd r) (p_name r) (p_ctime r) (p_etime r) (p_rtime r)
    v (p_priority r).
Definition set_p_priority (v : Z) (r : proc) : proc :=
  mkproc (p_sz r) (p_pgdir r) (p_kstack r) (p_state r) (p_pid r) (p_parent r) (p_tf r) (p_context r)
    (p_chan r) (p_killed r) (p_ofile r) (p_cwd r) (p_name r) (p_ctime r) (p_etime r) (p_rtime r)
    (p_last_check r) v.

Definition set_sl_locked (v : Z) (r : sleeplock) : sleeplock :=
  mksleeplock v (sl_pid r).
Definition set_sl_pid (v : Z) (r : sleeplock) : sleeplock :=
  mksleeplock (sl_locked r) v.

Definition set_b_flags (v : Z) (r : buf) : buf :=
  mkbuf v (b_dev r) (b_blockno r) (b_lock r) (b_refcnt r) (b_prev r) (b_next r) (b_data r).
Definition set_b_dev (v : Z) (r : buf) : buf :=
  mkbuf (b_flags r) v (b_blockno r) (b_lock r) (b_refcnt r) (b_prev r) (b_next r) (b_data r).
Definition set_b_blockno (v : Z) (r : buf) : buf :=
  mkbuf (b_flags r) (b_dev r) v (b_lock r) (b_refcnt r) (b_prev r) (b_next r) (b_data r).
Definition set_b_lock (v : sleeplock) (r : buf) : buf :=
  mkbuf (b_flags r) (b_dev r) (b_blockno r) v (b_refcnt r) (b_prev r) (b_next r) (b_data r).
Definition set_b_refcnt (v : Z) (r : buf) : buf :=
  mkbuf (b_flags r) (b_dev r) (b_blockno r) (b_lock r) v (b_prev r) (b_next r) (b_data r).
Definition set_b_prev (v : nat) (r : buf) : buf :=
  mkbuf (b_flags r) (b_dev r) (b_blockno r) (b_lock r) (b_refcnt r) v (b_next r) (b_data r).
Definition set_b_next (v : nat) (r : buf) : buf :=
  mkbuf (b_flags r) (b_dev r) (b_blockno r) (b_lock r) (b_refcnt r) (b_prev r) v (b_data r).
Definition set_b_data (v : block) (r : buf) : buf :=
  mkbuf (b_flags r) (b_dev r) (b_blockno r) (b_lock r) (b_refcnt r) (b_prev r) (b_next r) v.

Definition set_log_start (v : Z) (r : log) : log :=
  mklog v (log_size r) (log_outstanding r) (log_committing r) (log_dev r) (lh_n r) (lh_block r).
Definition set_log_size (v : Z) (r : log) : log :=
  mklog (log_start r) v (log_outstanding r) (log_committing r) (log_dev r) (lh_n r) (lh_block r).
Definition set_log_outstanding (v : Z) (r : log) : log :=
  mklog (log_start r) (log_size r) v (log_committing r) (log_dev r) (lh_n r) (lh_block r).
Definition set_log_committing (v : bool) (r : log) : log :=
  mklog (log_start r) (log_size r) (log_outstanding r) v (log_dev r) (lh_n r) (lh_block r).
Definition set_log_dev (v : Z) (r : log) : log :=
  mklog (log_start r) (log_size r) (log_outstanding r) (log_committing r) v (lh_n r) (lh_block r).
Definition set_lh_n (v : Z) (r : log) : log :=
  mklog (log_start r) (log_size r) (log_outstanding r) (log_committing r) (log_dev r) v (lh_block r).
Definition set_lh_block (v : list Z) (r : log) : log :=
  mklog (log_start r) (log_size r) (log_outstanding r) (log_committing r) (log_dev r) (lh_n r) v.

Definition set_i_dev (v : Z) (r : inode) : inode :=
  mkinode v (i_inum r) (i_ref r) (i_lock r) (i_valid r) (i_type r) (i_major r) (i_minor r) (i_nlink r)
    (i_size r) (i_addrs r).
Definition set_i_inum (v : Z) (r : inode) : inode :=
  mkinode (i_dev r) v (i_ref r) (i_lock r) (i_valid r) (i_type r) (i_major r) (i_minor r) (i_nlink r)
    (i_size r) (i_addrs r).
Definition set_i_ref (v : Z) (r : inode) : inode :=
  mkinode (i_dev r) (i_inum r) v (i_lock r) (i_valid r) (i_type r) (i_major r) (i_minor r) (i_nlink r)
    (i_size r) (i_addrs r).
Definition set_i_lock (v : sleeplock) (r : inode) : inode :=
  mkinode (i_dev r) (i_inum r) (i_ref r) v (i_valid r) (i_type r) (i_major r) (i_minor r) (i_nlink r)
    (i_size r) (i_addrs r).
Definition set_i_valid (v : bool) (r : inode) : inode :=
  mkinode (i_dev r) (i_inum r) (i_ref r) (i_lock r) v (i_type r) (i_major r) (i_minor r) (i_nlink r)
    (i_size r) (i_addrs r).
Definition set_i_type (v : Z) (r : inode) : inode :=
  mkinode (i_dev r) (i_inum r) (i_ref r) (i_lock r) (i_valid r) v (i_major r) (i_minor r) (i_nlink r)
    (i_size r) (i_addrs r).
Definition set_i_major (v : Z) (r : inode) : inode :=
  mkinode (i_dev r) (i_inum r) (i_ref r) (i_lock r) (i_valid r) (i_type r) v (i_minor r) (i_nlink r)
    (i_size r) (i_addrs r).
Definition set_i_minor (v : Z) (r : inode) : inode :=
  mkinode (i_dev r) (i_inum r) (i_ref r) (i_lock r) (i_valid r) (i_type r) (i_major r) v (i_nlink r)
    (i_size r) (i_addrs r).
Definition set_i_nlink (v : Z) (r : inode) : inode :=
  mkinode (i_dev r) (i_inum r) (i_ref r) (i_lock r) (i_valid r) (i_type r) (i_major r) (i_minor r) v
    (i_size r) (i_addrs r).
Definition set_i_size (v : Z) (r : inode) : inode :=
  mkinode (i_dev r) (i_inum r) (i_ref r) (i_lock r) (i_valid r) (i_type r) (i_major r) (i_minor r)
    (i_nlink r) v (i_addrs r).
Definition set_i_addrs (v : list Z) (r : inode) : inode :=
  mkinode (i_dev r) (i_inum r) (i_ref r) (i_lock r) (i_valid r) (i_type r) (i_major r) (i_minor r)
    (i_nlink r) (i_size r) v.

Definition set_f_type (v : fdtype) (r : file) : file :=
  mkfile v (f_ref r) (f_readable r) (f_writable r) (f_pipe r) (f_ip r) (f_off r).
Definition set_f_ref (v : Z) (r : file) : file :=
  mkfile (f_type r) v (f_readable r) (f_writable r) (f_pipe r) (f_ip r) (f_off r).
Definition set_f_readable (v : bool) (r : file) : file :=
  mkfile (f_type r) (f_ref r) v (f_writable r) (f_pipe r) (f_ip r) (f_off r).
Definition set_f_writable (v : bool) (r : file) : file :=
  mkfile (f_type r) (f_ref r) (f_readable r) v (f_pipe r) (f_ip r) (f_off r).
Definition set_f_pipe (v : Z) (r : file) : file :=
  mkfile (f_type r) (f_ref r) (f_readable r) (f_writable r) v (f_ip r) (f_off r).
Definition set_f_ip (v : option nat) (r : file) : file :=
  mkfile (f_type r) (f_ref r) (f_readable r) (f_writable r) (f_pipe r) v (f_off r).
Definition set_f_off (v : Z) (r : file) : file :=
  mkfile (f_type r) (f_ref r) (f_readable r) (f_writable r) (f_pipe r) (f_ip r) v.

Definition set_pi_data (v : list Z) (r : pipe) : pipe :=
  mkpipe v (pi_nread r) (pi_nwrite r) (pi_readopen r) (pi_writeopen r).
Definition set_pi_nread (v : Z) (r : pipe) : pipe :=
  mkpipe (pi_data r) v (pi_nwrite r) (pi_readopen r) (pi_writeopen r).
Definition set_pi_nwrite (v : Z) (r : pipe) : pipe :=
  mkpipe (pi_data r) (pi_nread r) v (pi_readopen r) (pi_writeopen r).
Definition set_pi_readopen (v : bool) (r : pipe) : pipe :=
  mkpipe (pi_data r) (pi_nread r) (pi_nwrite r) v (pi_writeopen r).
Definition set_pi_writeopen (v : bool) (r : pipe) : pipe :=
  mkpipe (pi_data r) (pi_nread r) (pi_nwrite r) (pi_readopen r) v.

Definition set_in_buf (v : list Z) (r : input) : input :=
  mkinput v (in_r r) (in_w r) (in_e r).
Definition set_in_r (v : Z) (r : input) : input :=
  mkinput (in_buf r) v (in_w r) (in_e r).
Definition set_in_w (v : Z) (r : input) : input :=
  mkinput (in_buf r) (in_r r) v (in_e r).
Definition set_in_e (v : Z) (r : input) : input :=
  mkinput (in_buf r) (in_r r) (in_w r) v.

Definition set_k_held (v : list lockid) (r : kernel) : kernel :=
  mkkernel v (k_cur r) (k_proc r) (k_initproc r) (k_nextpid r) (k_ticks r) (k_mem r) (k_use_lock r)
    (k_freelist r) (k_kpgdir r) (k_cr3 r) (k_disk r) (k_disksize r) (k_writes r) (k_bufs r)
    (k_log r) (k_sb r) (k_inodes r) (k_files r) (k_pipes r) (k_input r) (k_uart r) (k_out r)
    (k_crt r) (k_cursor r) (k_cons_locking r) (k_first r) (k_devsw r) (k_shift r).
Definition set_k_cur (v : option nat) (r : kernel) : kernel :=
  mkkernel (k_held r) v (k_proc r) (k_initproc r) (k_nextpid r) (k_ticks r) (k_mem r) (k_use_lock r)
    (k_freelist r) (k_kpgdir r) (k_cr3 r) (k_disk r) (k_disksize r) (k_writes r) (k_bufs r)
    (k_log r) (k_sb r) (k_inodes r) (k_files r) (k_pipes r) (k_input r) (k_uart r) (k_out r)
    (k_crt r) (k_cursor r) (k_cons_locking r) (k_first r) (k_devsw r) (k_shift r).
Definition set_k_proc (v : list proc) (r : kernel) : kernel :=
  mkkernel (k_held r) (k_cur r) v (k_initproc r) (k_nextpid r) (k_ticks r) (k_mem r) (k_use_lock r)
    (k_freelist r) (k_kpgdir r) (k_cr3 r) (k_disk r) (k_disksize r) (k_writes r) (k_bufs r)
    (k_log r) (k_sb r) (k_inodes r) (k_files r) (k_pipes r) (k_input r) (k_uart r) (k_out r)
    (k_crt r) (k_cursor r) (k_cons_locking r) (k_first r) (k_devsw r) (k_shift r).
Definition set_k_initproc (v : option nat) (r : kernel) : kernel :=
  mkkernel (k_held r) (k_cur r) (k_proc r) v (k_nextpid r) (k_ticks r) (k_mem r) (k_use_lock r)
    (k_freelist r) (k_kpgdir r) (k_cr3 r) (k_disk r) (k_disksize r) (k_writes r) (k_bufs r)
    (k_log r) (k_sb r) (k_inodes r) (k_files r) (k_pipes r) (k_input r) (k_uart r) (k_out r)
    (k_crt r) (k_cursor r) (k_cons_locking r) (k_first r) (k_devsw r) (k_shift r).
Definition set_k_nextpid (v : Z) (r : kernel) : kernel :=
  mkkernel (k_held r) (k_cur r) (k_proc r) (k_initproc r) v (k_ticks r) (k_mem r) (k_use_lock r)
    (k_freelist r) (k_kpgdir r) (k_cr3 r) (k_disk r) (k_disksize r) (k_writes r) (k_bufs r)
    (k_log r) (k_sb r) (k_inodes r) (k_files r) (k_pipes r) (k_input r) (k_uart r) (k_out r)
    (k_crt r) (k_cursor r) (k_cons_locking r) (k_first r) (k_devsw r) (k_shift r).
Definition set_k_ticks (v : Z) (r : kernel) : kernel :=
  mkkernel (k_held r) (k_cur r) (k_proc r) (k_initproc r) (k_nextpid r) v (k_mem r) (k_use_lock r)
    (k_freelist r) (k_kpgdir r) (k_cr3 r) (k_disk r) (k_disksize r) (k_writes r) (k_bufs r)
    (k_log r) (k_sb r) (k_inodes r) (k_files r) (k_pipes r) (k_input r) (k_uart r) (k_out r)
    (k_crt r) (k_cursor r) (k_cons_locking r) (k_first r) (k_devsw r) (k_shift r).
Definition set_k_mem (v : Z -> Z) (r : kernel) : kernel :=
  mkkernel (k_held r) (k_cur r) (k_proc r) (k_initproc r) (k_nextpid r) (k_ticks r) v (k_use_lock r)
    (k_freelist r) (k_kpgdir r) (k_cr3 r) (k_disk r) (k_disksize r) (k_writes r) (k_bufs r)
    (k_log r) (k_sb r) (k_inodes r) (k_files r) (k_pipes r) (k_input r) (k_uart r) (k_out r)
    (k_crt r) (k_cursor r) (k_cons_locking r) (k_first r) (k_devsw r) (k_shift r).
Definition set_k_use_lock (v : bool) (r : kernel) : kernel :=
  mkkernel (k_held r) (k_cur r) (k_proc r) (k_initproc r) (k_nextpid r) (k_ticks r) (k_mem r) v
    (k_freelist r) (k_kpgdir r) (k_cr3 r) (k_disk r) (k_disksize r) (k_writes r) (k_bufs r)
    (k_log r) (k_sb r) (k_inodes r) (k_files r) (k_pipes r) (k_input r) (k_uart r) (k_out r)
    (k_crt r) (k_cursor r) (k_cons_locking r) (k_first r) (k_devsw r) (k_shift r).
Definition set_k_freelist (v : Z) (r : kernel) : kernel :=
  mkkernel (k_held r) (k_cur r) (k_proc r) (k_initproc r) (k_nextpid r) (k_ticks r) (k_mem r)
    (k_use_lock r) v (k_kpgdir r) (k_cr3 r) (k_disk r) (k_disksize r) (k_writes r) (k_bufs r)
    (k_log r) (k_sb r) (k_inodes r) (k_files r) (k_pipes r) (k_input r) (k_uart r) (k_out r)
    (k_crt r) (k_cursor r) (k_cons_locking r) (k_first r) (k_devsw r) (k_shift r).
Definition set_k_kpgdir (v : Z) (r : kernel) : kernel :=
  mkkernel (k_held r) (k_cur r) (k_proc r) (k_initproc r) (k_nextpid r) (k_ticks r) (k_mem r)
    (k_use_lock r) (k_freelist r) v (k_cr3 r) (k_disk r) (k_disksize r) (k_writes r) (k_bufs r)
    (k_log r) (k_sb r) (k_inodes r) (k_files r) (k_pipes r) (k_input r) (k_uart r) (k_out r)
    (k_crt r) (k_cursor r) (k_cons_locking r) (k_first r) (k_devsw r) (k_shift r).
Definition set_k_cr3 (v : Z) (r : kernel) : kernel :=
  mkkernel (k_held r) (k_cur r) (k_proc r) (k_initproc r) (k_nextpid r) (k_ticks r) (k_mem r)
    (k_use_lock r) (k_freelist r) (k_kpgdir r) v (k_disk r) (k_disksize r) (k_writes r)
    (k_bufs r) (k_log r) (k_sb r) (k_inodes r) (k_files r) (k_pipes r) (k_input r) (k_uart r)
    (k_out r) (k_crt r) (k_cursor r) (k_cons_locking r) (k_first r) (k_devsw r) (k_shift r).
Definition set_k_disk (v : Z -> block) (r : kernel) : kernel :=
  mkkernel (k_held r) (k_cur r) (k_proc r) (k_initproc r) (k_nextpid r) (k_ticks r) (k_mem r)
    (k_use_lock r) (k_freelist r) (k_kpgdir r) (k_cr3 r) v (k_disksize r) (k_writes r)
    (k_bufs r) (k_log r) (k_sb r) (k_inodes r) (k_files r) (k_pipes r) (k_input r) (k_uart r)
    (k_out r) (k_crt r) (k_cursor r) (k_cons_locking r) (k_first r) (k_devsw r) (k_shift r).
Definition set_k_disksize (v : Z) (r : kernel) : kernel :=
  mkkernel (k_held r) (k_cur r) (k_proc r) (k_initproc r) (k_nextpid r) (k_ticks r) (k_mem r)
    (k_use_lock r) (k_freelist r) (k_kpgdir r) (k_cr3 r) (k_disk r) v (k_writes r) (k_bufs r)
    (k_log r) (k_sb r) (k_inodes r) (k_files r) (k_pipes r) (k_input r) (k_uart r) (k_out r)
    (k_crt r) (k_cursor r) (k_cons_locking r) (k_first r) (k_devsw r) (k_shift r).
Definition set_k_writes (v : list (Z * block)) (r : kernel) : kernel :=
  mkkernel (k_held r) (k_cur r) (k_proc r) (k_initproc r) (k_nextpid r) (k_ticks r) (k_mem r)
    (k_use_lock r) (k_freelist r) (k_kpgdir r) (k_cr3 r) (k_disk r) (k_disksize r) v (k_bufs r)
    (k_log r) (k_sb r) (k_inodes r) (k_files r) (k_pipes r) (k_input r) (k_uart r) (k_out r)
    (k_crt r) (k_cursor r) (k_cons_locking r) (k_first r) (k_devsw r) (k_shift r).
Definition set_k_bufs (v : list buf) (r : kernel) : kernel :=
  mkkernel (k_held r) (k_cur r) (k_proc r) (k_initproc r) (k_nextpid r) (k_ticks r) (k_mem r)
    (k_use_lock r) (k_freelist r) (k_kpgdir r) (k_cr3 r) (k_disk r) (k_disksize r) (k_writes r)
    v (k_log r) (k_sb r) (k_inodes r) (k_files r) (k_pipes r) (k_input r) (k_uart r) (k_out r)
    (k_crt r) (k_cursor r) (k_cons_locking r) (k_first r) (k_devsw r) (k_shift r).
Definition set_k_log (v : log) (r : kernel) : kernel :=
  mkkernel (k_held r) (k_cur r) (k_proc r) (k_initproc r) (k_nextpid r) (k_ticks r) (k_mem r)
    (k_use_lock r) (k_freelist r) (k_kpgdir r) (k_cr3 r) (k_disk r) (k_disksize r) (k_writes r)
    (k_bufs r) v (k_sb r) (k_inodes r) (k_files r) (k_pipes r) (k_input r) (k_uart r) (k_out r)
    (k_crt r) (k_cursor r) (k_cons_locking r) (k_first r) (k_devsw r) (k_shift r).
Definition set_k_sb (v : superblock) (r : kernel) : kernel :=
  mkkernel (k_held r) (k_cur r) (k_proc r) (k_initproc r) (k_nextpid r) (k_ticks r) (k_mem r)
    (k_use_lock r) (k_freelist r) (k_kpgdir r) (k_cr3 r) (k_disk r) (k_disksize r) (k_writes r)
    (k_bufs r) (k_log r) v (k_inodes r) (k_files r) (k_pipes r) (k_input r) (k_uart r) (k_out r)
    (k_crt r) (k_cursor r) (k_cons_locking r) (k_first r) (k_devsw r) (k_shift r).
Definition set_k_inodes (v : list inode) (r : kernel) : kernel :=
  mkkernel (k_held r) (k_cur r) (k_proc r) (k_initproc r) (k_nextpid r) (k_ticks r) (k_mem r)
    (k_use_lock r) (k_freelist r) (k_kpgdir r) (k_cr3 r) (k_disk r) (k_disksize r) (k_writes r)
    (k_bufs r) (k_log r) (k_sb r) v (k_files r) (k_pipes r) (k_input r) (k_uart r) (k_out r)
    (k_crt r) (k_cursor r) (k_cons_locking r) (k_first r) (k_devsw r) (k_shift r).
Definition set_k_files (v : list file) (r : kernel) : kernel :=
  mkkernel (k_held r) (k_cur r) (k_proc r) (k_initproc r) (k_nextpid r) (k_ticks r) (k_mem r)
    (k_use_lock r) (k_freelist r) (k_kpgdir r) (k_cr3 r) (k_disk r) (k_disksize r) (k_writes r)
    (k_bufs r) (k_log r) (k_sb r) (k_inodes r) v (k_pipes r) (k_input r) (k_uart r) (k_out r)
    (k_crt r) (k_cursor r) (k_cons_locking r) (k_first r) (k_devsw r) (k_shift r).
Definition set_k_pipes (v : gmap Z pipe) (r : kernel) : kernel :=
  mkkernel (k_held r) (k_cur r) (k_proc r) (k_initproc r) (k_nextpid r) (k_ticks r) (k_mem r)
    (k_use_lock r) (k_freelist r) (k_kpgdir r) (k_cr3 r) (k_disk r) (k_disksize r) (k_writes r)
    (k_bufs r) (k_log r) (k_sb r) (k_inodes r) (k_files r) v (k_input r) (k_uart r) (k_out r)
    (k_crt r) (k_cursor r) (k_cons_locking r) (k_first r) (k_devsw r) (k_shift r).
Definition set_k_input (v : input) (r : kernel) : kernel :=
  mkkernel (k_held r) (k_cur r) (k_proc r) (k_initproc r) (k_nextpid r) (k_ticks r) (k_mem r)
    (k_use_lock r) (k_freelist r) (k_kpgdir r) (k_cr3 r) (k_disk r) (k_disksize r) (k_writes r)
    (k_bufs r) (k_log r) (k_sb r) (k_inodes r) (k_files r) (k_pipes r) v (k_uart r) (k_out r)
    (k_crt r) (k_cursor r) (k_cons_locking r) (k_first r) (k_devsw r) (k_shift r).
Definition set_k_uart (v : bool) (r : kernel) : kernel :=
  mkkernel (k_held r) (k_cur r) (k_proc r) (k_initproc r) (k_nextpid r) (k_ticks r) (k_mem r)
    (k_use_lock r) (k_freelist r) (k_kpgdir r) (k_cr3 r) (k_disk r) (k_disksize r) (k_writes r)
    (k_bufs r) (k_log r) (k_sb r) (k_inodes r) (k_files r) (k_pipes r) (k_input r) v (k_out r)
    (k_crt r) (k_cursor r) (k_cons_locking r) (k_first r) (k_devsw r) (k_shift r).
Definition set_k_out (v : list Z) (r : kernel) : kernel :=
  mkkernel (k_held r) (k_cur r) (k_proc r) (k_initproc r) (k_nextpid r) (k_ticks r) (k_mem r)
    (k_use_lock r) (k_freelist r) (k_kpgdir r) (k_cr3 r) (k_disk r) (k_disksize r) (k_writes r)
    (k_bufs r) (k_log r) (k_sb r) (k_inodes r) (k_files r) (k_pipes r) (k_input r) (k_uart r) v
    (k_crt r) (k_cursor r) (k_cons_locking r) (k_first r) (k_devsw r) (k_shift r).
Definition set_k_crt (v : Z -> Z) (r : kernel) : kernel :=
  mkkernel (k_held r) (k_cur r) (k_proc r) (k_initproc r) (k_nextpid r) (k_ticks r) (k_mem r)
    (k_use_lock r) (k_freelist r) (k_kpgdir r) (k_cr3 r) (k_disk r) (k_disksize r) (k_writes r)
    (k_bufs r) (k_log r) (k_sb r) (k_inodes r) (k_files r) (k_pipes r) (k_input r) (k_uart r)
    (k_out r) v (k_cursor r) (k_cons_locking r) (k_first r) (k_devsw r) (k_shift r).
Definition set_k_cursor (v : Z) (r : kernel) : kernel :=
  mkkernel (k_held r) (k_cur r) (k_proc r) (k_initproc r) (k_nextpid r) (k_ticks r) (k_mem r)
    (k_use_lock r) (k_freelist r) (k_kpgdir r) (k_cr3 r) (k_disk r) (k_disksize r) (k_writes r)
    (k_bufs r) (k_log r) (k_sb r) (k_inodes r) (k_files r) (k_pipes r) (k_input r) (k_uart r)
    (k_out r) (k_crt r) v (k_cons_locking r) (k_first r) (k_devsw r) (k_shift r).
Definition set_k_cons_locking (v : bool) (r : kernel) : kernel :=
  mkkernel (k_held r) (k_cur r) (k_proc r) (k_initproc r) (k_nextpid r) (k_ticks r) (k_mem r)
    (k_use_lock r) (k_freelist r) (k_kpgdir r) (k_cr3 r) (k_disk r) (k_disksize r) (k_writes r)
    (k_bufs r) (k_log r) (k_sb r) (k_inodes r) (k_files r) (k_pipes r) (k_input r) (k_uart r)
    (k_out r) (k_crt r) (k_cursor r) v (k_first r) (k_devsw r) (k_shift r).
Definition set_k_first (v : bool) (r : kernel) : kernel :=
  mkkernel (k_held r) (k_cur r) (k_proc r) (k_initproc r) (k_nextpid r) (k_ticks r) (k_mem r)
    (k_use_lock r) (k_freelist r) (k_kpgdir r) (k_cr3 r) (k_disk r) (k_disksize r) (k_writes r)
    (k_bufs r) (k_log r) (k_sb r) (k_inodes r) (k_files r) (k_pipes r) (k_input r) (k_uart r)
    (k_out r) (k_crt r) (k_cursor r) (k_cons_locking r) v (k_devsw r) (k_shift r).
Definition set_k_devsw (v : list bool) (r : kernel) : kernel :=
  mkkernel (k_held r) (k_cur r) (k_proc r) (k_initproc r) (k_nextpid r) (k_ticks r) (k_mem r)
    (k_use_lock r) (k_freelist r) (k_kpgdir r) (k_cr3 r) (k_disk r) (k_disksize r) (k_writes r)
    (k_bufs r) (k_log r) (k_sb r) (k_inodes r) (k_files r) (k_pipes r) (k_input r) (k_uart r)
    (k_out r) (k_crt r) (k_cursor r) (k_cons_locking r) (k_first r) v (k_shift r).
Definition set_k_shift (v : Z) (r : kernel) : kernel :=
  mkkernel (k_held r) (k_cur r) (k_proc r) (k_initproc r) (k_nextpid r) (k_ticks r) (k_mem r)
    (k_use_lock r) (k_freelist r) (k_kpgdir r) (k_cr3 r) (k_disk r) (k_disksize r) (k_writes r)
    (k_bufs r) (k_log r) (k_sb r) (k_inodes r) (k_files r) (k_pipes r) (k_input r) (k_uart r)
    (k_out r) (k_crt r) (k_cursor r) (k_cons_locking r) (k_first r) (k_devsw r) v.

(** [kproj] simplifies the projections of updated kernel states, leaving the
    updates themselves folded. *)
Ltac is_kproj p :=
  lazymatch p with
  | k_held => idtac
  | k_cur => idtac
  | k_proc => idtac
  | k_initproc => idtac
  | k_nextpid => idtac
  | k_ticks => idtac
  | k_mem => idtac
  | k_use_lock => idtac
  | k_freelist => idtac
  | k_kpgdir => idtac
  | k_cr3 => idtac
  | k_disk => idtac
  | k_disksize => idtac
  | k_writes => idtac
  | k_bufs => idtac
  | k_log => idtac
  | k_sb => idtac
  | k_inodes => idtac
  | k_files => idtac
  | k_pipes => idtac
  | k_input => idtac
  | k_uart => idtac
  | k_out => idtac
  | k_crt => idtac
  | k_cursor => idtac
  | k_cons_locking => idtac
  | k_first => idtac
  | k_devsw => idtac
  | k_shift => idtac
  end.

Ltac kreduce t :=
  eval cbn [k_held k_cur k_proc k_initproc k_nextpid k_ticks k_mem k_use_lock k_freelist
            k_kpgdir k_cr3 k_disk k_disksize k_writes k_bufs k_log k_sb k_inodes k_files
            k_pipes k_input k_uart k_out k_crt k_cursor k_cons_locking k_first k_devsw
            k_shift set_k_held set_k_cur set_k_proc set_k_initproc set_k_nextpid
            set_k_ticks set_k_mem set_k_use_lock set_k_freelist set_k_kpgdir set_k_cr3
            set_k_disk set_k_disksize set_k_writes set_k_bufs set_k_log set_k_sb
            set_k_inodes set_k_files set_k_pipes set_k_input set_k_uart set_k_out
            set_k_crt set_k_cursor set_k_cons_locking set_k_first set_k_devsw
            set_k_shift] in t.

Ltac kproj :=
  repeat match goal with
  | |- context [?p (?q ?v ?s)] =>
      is_kproj p; let t := constr:(p (q v s)) in let t' := kreduce t in progress change t with t'
  end.

Ltac kproj_in H :=
  repeat match type of H with
  | context [?p (?q ?v ?s)] =>
      is_kproj p; let t := constr:(p (q v s)) in let t' := kreduce t in
      progress change t with t' in H
  end.

(** Equality of kernel states, up to the order of independent updates. *)
Ltac keq :=
  first [ reflexivity
        | match goal with |- context [?s] => is_var s; match type of s with kernel => destruct s end end;
          reflexivity ].
