(* ===== verification/Mmu.v ===== *)
(** * Addresses and page-table entries (mmu.h, memlayout.h)

    The bit-mask macros of mmu.h as arithmetic: rounding to page boundaries,
    the three-part structure of a linear address, and the fields of a
    page-table entry. *)

From stdpp Require Import base numbers list.
From S2P Require Import Prelude Kernel.

(** Masking off the low [n] bits of a 32-bit word. *)
Lemma land_high_mask a n :
  0 <= n <= 32 -> 0 <= a < 2 ^ 32 ->
  Z.land a (u32 (Z.lnot (Z.ones n))) = a - a mod 2 ^ n.
Proof.
  intros Hn Ha.
  assert (Hl : Z.land a (u32 (Z.lnot (Z.ones n))) = Z.ldiff a (Z.ones n)).
  { unfold u32. rewrite <- Z.land_ones by lia. apply Z.bits_inj'. intros k Hk.
    rewrite Z.land_spec, Z.ldiff_spec, Z.land_spec, Z.lnot_spec by lia.
    destruct (Z.ltb_spec k 32).
    - rewrite (Z.ones_spec_low 32) by lia. by rewrite andb_true_r.
    - rewrite (Z.bits_above_log2 a k); [done|lia|].
      destruct (Z.eq_dec a 0) as [->|]; [simpl; lia|].
      apply Z.log2_lt_pow2; [lia|]. apply Z.lt_le_trans with (2 ^ 32); [lia|].
      apply Z.pow_le_mono_r; lia. }
  rewrite Hl, Z.ldiff_ones_r, Z.shiftl_mul_pow2, Z.shiftr_div_pow2 by lia.
  pose proof (Z.pow_pos_nonneg 2 n). rewrite (Z.mod_eq a (2 ^ n)) by lia. lia.
Qed.

Lemma PGROUNDDOWN_spec a : 0 <= a < 2 ^ 32 -> PGROUNDDOWN a = a - a mod PGSIZE.
Proof. intros Ha. exact (land_high_mask a 12 ltac:(lia) Ha). Qed.

Lemma PTE_ADDR_spec a : 0 <= a < 2 ^ 32 -> PTE_ADDR a = a - a mod PGSIZE.
Proof. intros Ha. exact (land_high_mask a 12 ltac:(lia) Ha). Qed.

Lemma PTE_FLAGS_spec a : PTE_FLAGS a = a mod PGSIZE.
Proof. unfold PTE_FLAGS. change 0xFFF with (Z.ones 12). by rewrite Z.land_ones by lia. Qed.

Lemma PGROUNDUP_spec a :
  0 <= a -> a + PGSIZE <= 2 ^ 32 -> PGROUNDUP a = (a + PGSIZE - 1) / PGSIZE * PGSIZE.
Proof.
  intros Ha Hb. unfold PGROUNDUP. unfold PGSIZE in *. rewrite (u32_small (a + 4096 - 1)) by lia.
  change (4096 - 1) with (Z.ones 12). rewrite land_high_mask by (change (Z.ones 12) with 4095; lia).
  change (Z.ones 12) with 4095. Z.div_mod_to_equations. lia.
Qed.

Lemma PGROUNDUP_bounds a :
  0 <= a -> a + PGSIZE <= 2 ^ 32 ->
  a <= PGROUNDUP a < a + PGSIZE /\ PGROUNDUP a mod PGSIZE = 0.
Proof.
  intros Ha Hb. rewrite PGROUNDUP_spec by done. rewrite Z.mod_mul by done.
  unfold PGSIZE in *. Z.div_mod_to_equations. lia.
Qed.

Lemma PGROUNDUP_aligned a : 0 <= a -> a + PGSIZE <= 2 ^ 32 -> a mod PGSIZE = 0 -> PGROUNDUP a = a.
Proof.
  intros Ha Hb Hm. rewrite PGROUNDUP_spec by done. unfold PGSIZE in *. Z.div_mod_to_equations. lia.
Qed.

Lemma PDX_spec va : 0 <= va < 2 ^ 32 -> PDX va = va / 2 ^ 22.
Proof.
  intros H. unfold PDX. change 0x3FF with (Z.ones 10).
  rewrite Z.land_ones, Z.shiftr_div_pow2 by lia. apply Z.mod_small.
  split; [apply Z.div_pos; lia|]. apply Z.div_lt_upper_bound; lia.
Qed.

Lemma PTX_spec va : 0 <= va -> PTX va = va / PGSIZE mod 1024.
Proof.
  intros H. unfold PTX. change 0x3FF with (Z.ones 10). by rewrite Z.land_ones, Z.shiftr_div_pow2 by lia.
Qed.

Lemma PTX_range va : 0 <= va -> 0 <= PTX va < 1024.
Proof. intros H. rewrite PTX_spec by done. apply Z.mod_pos_bound. lia. Qed.

Lemma PDX_range va : 0 <= va < 2 ^ 32 -> 0 <= PDX va < 1024.
Proof.
  intros H. rewrite PDX_spec by done.
  split; [apply Z.div_pos; lia|]. apply Z.div_lt_upper_bound; lia.
Qed.

(** Combining an aligned word with bits below its alignment. *)
Lemma land_aligned a b n : 0 <= n -> a mod 2 ^ n = 0 -> 0 <= b < 2 ^ n -> Z.land a b = 0.
Proof.
  intros Hn Ha Hb. apply Z.bits_inj'. intros k Hk. rewrite Z.land_spec, Z.bits_0.
  destruct (Z.lt_ge_cases k n) as [Hlt|Hge].
  - rewrite <- (Z.mod_pow2_bits_low a n) by lia. by rewrite Ha, Z.bits_0.
  - destruct (Z.eq_dec b 0) as [->|Hb0]; [by rewrite Z.bits_0, andb_false_r|].
    rewrite (Z.bits_above_log2 b k), andb_false_r; [done|lia|].
    apply Z.log2_lt_pow2; [lia|]. apply Z.lt_le_trans with (2 ^ n); [lia|]. apply Z.pow_le_mono_r; lia.
Qed.

Lemma lor_aligned a b n : 0 <= n -> a mod 2 ^ n = 0 -> 0 <= b < 2 ^ n -> Z.lor a b = a + b.
Proof.
  intros Hn Ha Hb. pose proof (land_aligned a b n Hn Ha Hb) as Hl.
  rewrite <- Z.lxor_lor by done. symmetry. by apply Z.add_nocarry_lxor.
Qed.

Lemma land_1 a : Z.land a 1 = a mod 2.
Proof. change 1 with (Z.ones 1). by rewrite Z.land_ones by lia. Qed.
