(* ===== verification/Spinlock.v ===== *)
(** * Spin-locks (spinlock.c)

    Module [Smp] models the code of spinlock.c on a multiprocessor, one
    processor's [cli] bookkeeping and the atomic exchange written out, the
    steps of the processors interleaved arbitrarily.  It shows mutual
    exclusion, that interrupts are off while a lock is held, and that
    [mycpu()->ncli] counts the locks held.

    The rest of the development runs one kernel thread between the points
    where it gives the processor away; there a lock is a member of [k_held],
    and [acquire] and [release] are the operations at the end of the file.
    [Smp.ncli_counts_held] is what makes [length k_held] a faithful reading of
    [mycpu()->ncli]. *)

From stdpp Require Import base numbers list option strings.
From S2P Require Import Prelude Kernel Fields.

Module Smp.

(** ** State *)

(** The fields of [struct cpu] that spinlock.c uses, and the interrupt flag of
    the processor's [eflags].  [ncli] is not cut to the 32 bits of the [int]:
    an overflow takes 2^31 nested calls. *)
Record cpu := mkcpu { ncli : Z; intena : bool; iflag : bool }.

(** [struct spinlock] without its debugging fields [name] and [pcs]; the field
    [cpu] is the index of the holder. *)
Record spinlock := mkspinlock { locked : Z; lcpu : option nat }.

(** Where a processor is inside [acquire] or [release]: outside both; in the
    [xchg] loop; past it but before [lk->cpu = mycpu()]; or past
    [lk->cpu = 0] but before the store that frees the lock. *)
Inductive pc := P_idle | P_spin (lk : lockid) | P_got (lk : lockid) | P_rel (lk : lockid).

(** A processor with the auxiliary record of the locks it has acquired and
    the number of its [pushcli] calls outside [acquire] ([myproc],
    [switchuvm]) that are not yet undone. *)
Record thread := mkthread { t_cpu : cpu; t_pc : pc; t_mine : list lockid; t_ext : nat }.

Record smp := mksmp { cpus : nat -> thread; locks : lockid -> spinlock }.

(** ** The code *)

Definition initlock : spinlock := mkspinlock 0 None.

Definition pushcli (c : cpu) : cpu :=
  let eflags := iflag c in
  let c := mkcpu (ncli c) (intena c) false in
  let c := if ncli c =? 0 then mkcpu (ncli c) eflags (iflag c) else c in
  mkcpu (ncli c + 1) (intena c) (iflag c).

Definition popcli (c : cpu) : string + cpu :=
  if iflag c then inl "popcli - interruptible"%string
  else
    let c := mkcpu (ncli c - 1) (intena c) (iflag c) in
    if ncli c <? 0 then inl "popcli"%string
    else if (ncli c =? 0) && intena c then inr (mkcpu (ncli c) (intena c) true)
    else inr c.

Definition holding (me : nat) (lk : spinlock) (c : cpu) : string + (bool * cpu) :=
  let c := pushcli c in
  let r := negb (locked lk =? 0) && bool_decide (lcpu lk = Some me) in
  match popcli c with
  | inl m => inl m
  | inr c => inr (r, c)
  end.

(** The last lines of [sched] (proc.c): a process that gave away processor [c]
    continues on [c'] with the [intena] it had saved. *)
Definition sched_swtch (c c' : cpu) : cpu := mkcpu (ncli c') (intena c) (iflag c').

(** ** Steps *)

Definition upd_cpu (s : smp) (i : nat) (t : thread) : smp :=
  mksmp (fun j => if decide (j = i) then t else cpus s j) (locks s).
Definition upd_lock (s : smp) (lk : lockid) (l : spinlock) : smp :=
  mksmp (cpus s) (fun k => if decide (k = lk) then l else locks s k).

Inductive step (i : nat) (s : smp) : smp -> Prop :=
| S_acquire lk t c c' :
    cpus s i = t -> t_pc t = P_idle ->
    pushcli (t_cpu t) = c ->
    holding i (locks s lk) c = inr (false, c') ->
    step i s (upd_cpu s i (mkthread c' (P_spin lk) (t_mine t) (t_ext t)))
| S_xchg_busy lk t :
    cpus s i = t -> t_pc t = P_spin lk -> locked (locks s lk) <> 0 ->
    step i s (upd_lock s lk (mkspinlock 1 (lcpu (locks s lk))))
| S_xchg_free lk t :
    cpus s i = t -> t_pc t = P_spin lk -> locked (locks s lk) = 0 ->
    step i s (upd_cpu (upd_lock s lk (mkspinlock 1 (lcpu (locks s lk)))) i
                (mkthread (t_cpu t) (P_got lk) (t_mine t) (t_ext t)))
| S_acquired lk t :
    cpus s i = t -> t_pc t = P_got lk ->
    step i s (upd_cpu (upd_lock s lk (mkspinlock (locked (locks s lk)) (Some i))) i
                (mkthread (t_cpu t) P_idle (lk :: t_mine t) (t_ext t)))
| S_release lk t c :
    cpus s i = t -> t_pc t = P_idle ->
    holding i (locks s lk) (t_cpu t) = inr (true, c) ->
    step i s (upd_cpu (upd_lock s lk (mkspinlock (locked (locks s lk)) None)) i
                (mkthread c (P_rel lk) (filter (fun k => k <> lk) (t_mine t)) (t_ext t)))
| S_released lk t c :
    cpus s i = t -> t_pc t = P_rel lk ->
    popcli (t_cpu t) = inr c ->
    step i s (upd_cpu (upd_lock s lk (mkspinlock 0 (lcpu (locks s lk)))) i
                (mkthread c P_idle (t_mine t) (t_ext t)))
| S_pushcli t :
    cpus s i = t -> t_pc t = P_idle ->
    step i s (upd_cpu s i (mkthread (pushcli (t_cpu t)) P_idle (t_mine t) (S (t_ext t))))
| S_popcli t c n :
    cpus s i = t -> t_pc t = P_idle -> t_ext t = S n ->
    popcli (t_cpu t) = inr c ->
    step i s (upd_cpu s i (mkthread c P_idle (t_mine t) n))
| S_sti t :
    (* scheduler() calls sti() with no lock held *)
    cpus s i = t -> t_pc t = P_idle -> t_mine t = [] -> t_ext t = 0%nat ->
    step i s (upd_cpu s i
                (mkthread (mkcpu (ncli (t_cpu t)) (intena (t_cpu t)) true) P_idle (t_mine t) 0)).

(** Processors start with interrupts off and no lock held; every lock has
    been through [initlock]. *)
Definition init : smp :=
  mksmp (fun _ => mkthread (mkcpu 0 false false) P_idle [] 0) (fun _ => initlock).

Inductive reachable : smp -> Prop :=
| R_init : reachable init
| R_step s i s' : reachable s -> step i s s' -> reachable s'.

(** A processor is inside the critical section of [lk]. *)
Definition thread_cs (t : thread) (lk : lockid) : Prop :=
  lk ∈ t_mine t \/ t_pc t = P_got lk \/ t_pc t = P_rel lk.
Definition in_cs (s : smp) (i : nat) (lk : lockid) : Prop := thread_cs (cpus s i) lk.

(** ** The bookkeeping of one processor *)

Lemma pushcli_spec c :
  pushcli c = mkcpu (ncli c + 1) (if ncli c =? 0 then iflag c else intena c) false.
Proof. unfold pushcli. simpl. by destruct (ncli c =? 0). Qed.

Lemma popcli_spec c :
  iflag c = false -> 0 < ncli c ->
  popcli c = inr (mkcpu (ncli c - 1) (intena c) ((ncli c =? 1) && intena c)).
Proof.
  intros Hf Hn. unfold popcli. rewrite Hf. simpl.
  destruct (Z.ltb_spec (ncli c - 1) 0); [lia|].
  replace (ncli c - 1 =? 0) with (ncli c =? 1) by (destruct (Z.eqb_spec (ncli c) 1), (Z.eqb_spec (ncli c - 1) 0); lia).
  destruct ((ncli c =? 1) && intena c); done.
Qed.

(** The interrupt flag agrees with the nesting depth. *)
Definition cpu_ok (c : cpu) : Prop := 0 <= ncli c /\ (0 < ncli c -> iflag c = false).

Lemma pushcli_ok c : cpu_ok c -> cpu_ok (pushcli c) /\ ncli (pushcli c) = ncli c + 1.
Proof. intros [H1 H2]. rewrite pushcli_spec. unfold cpu_ok. simpl. repeat split; auto; lia. Qed.

Lemma popcli_ok c c' : cpu_ok c -> popcli c = inr c' -> cpu_ok c' /\ ncli c' = ncli c - 1 /\ 0 < ncli c.
Proof.
  intros [H1 H2] H. assert (Hn : 0 < ncli c).
  { unfold popcli in H. destruct (iflag c); [done|]. simpl in H.
    destruct (Z.ltb_spec (ncli c - 1) 0); [done|lia]. }
  rewrite popcli_spec in H by auto. simplify_eq. unfold cpu_ok. simpl. repeat split; lia.
Qed.

Lemma pushcli_popcli c :
  cpu_ok c -> exists c', popcli (pushcli c) = inr c' /\ ncli c' = ncli c /\ iflag c' = iflag c /\
                         (0 < ncli c -> c' = c).
Proof.
  intros [H1 H2]. rewrite pushcli_spec, popcli_spec; simpl; [|done|lia].
  eexists. split; [done|]. simpl. split; [lia|].
  destruct c as [n ie f]; simpl in *. destruct (Z.eqb_spec n 0) as [->|Hn]; simpl.
  - split; [done|lia].
  - destruct (Z.eqb_spec (n + 1) 1); [lia|]. simpl. rewrite H2 by lia. split; [done|].
    intros _. f_equal. lia.
Qed.

Lemma holding_ok me lk c r c' :
  cpu_ok c -> holding me lk c = inr (r, c') ->
  r = negb (locked lk =? 0) && bool_decide (lcpu lk = Some me) /\
  cpu_ok c' /\ ncli c' = ncli c /\ iflag c' = iflag c.
Proof.
  intros Hc H. unfold holding in H.
  destruct (popcli (pushcli c)) as [m|d] eqn:Hp; simplify_eq.
  destruct (pushcli_popcli c Hc) as (c'' & Hq & Hn & Hi & _).
  rewrite Hp in Hq. simplify_eq. split; [done|]. split; [|done].
  destruct Hc as [H1 H2]. split; rewrite ?Hn, ?Hi; auto.
Qed.

(** [n] nested calls of [pushcli], then [n] of [popcli]. *)
Fixpoint nest (n : nat) (c : cpu) : string + cpu :=
  match n with
  | O => inr c
  | S n' => match nest n' (pushcli c) with inl m => inl m | inr c' => popcli c' end
  end.

Lemma nest_spec n c :
  cpu_ok c -> exists c', nest n c = inr c' /\ ncli c' = ncli c /\ iflag c' = iflag c /\
                         (0 < ncli c -> c' = c).
Proof.
  revert c. induction n as [|n IH]; intros c Hc; simpl; [eauto|].
  destruct (pushcli_ok c Hc) as [Hok Hn].
  destruct (IH _ Hok) as (c1 & -> & _ & _ & Heq). rewrite Heq by (destruct Hc; lia).
  by apply pushcli_popcli.
Qed.

(** ** The invariant *)

Definition pending (p : pc) : Z := match p with P_idle => 0 | _ => 1 end.

Record thread_ok (t : thread) : Prop := {
  tok_cpu : cpu_ok (t_cpu t);
  tok_count : ncli (t_cpu t) = Z.of_nat (length (t_mine t)) + pending (t_pc t) + Z.of_nat (t_ext t);
  tok_nodup : NoDup (t_mine t);
  tok_pc lk : lk ∈ t_mine t -> t_pc t <> P_got lk /\ t_pc t <> P_rel lk;
}.

Record inv (s : smp) : Prop := {
  inv_thread i : thread_ok (cpus s i);
  inv_mine i lk : lk ∈ t_mine (cpus s i) <-> lcpu (locks s lk) = Some i;
  inv_locked lk : locked (locks s lk) = 0 \/ locked (locks s lk) = 1;
  inv_cs i lk : in_cs s i lk -> locked (locks s lk) = 1;
  inv_excl i j lk : in_cs s i lk -> in_cs s j lk -> i = j;
}.

Lemma inv_init : inv init.
Proof.
  split; simpl; try done; intros.
  - split; simpl; by auto using NoDup_nil_2, not_elem_of_nil.
  - split; [|done]. intros H. by apply not_elem_of_nil in H.
  - by left.
  - destruct H as [H|[H|H]]; try done. by apply not_elem_of_nil in H.
  - destruct H as [H|[H|H]]; try done. by apply not_elem_of_nil in H.
Qed.

(** Two shapes of step: one processor changes and no critical section is
    entered or left, or one processor and one lock change while no other
    processor is in the critical section of that lock. *)
Lemma inv_upd_cpu s i t :
  inv s -> thread_ok t -> (forall lk, lk ∈ t_mine t <-> lk ∈ t_mine (cpus s i)) ->
  (forall lk, thread_cs t lk <-> thread_cs (cpus s i) lk) -> inv (upd_cpu s i t).
Proof.
  intros H Ht Hm Hcs.
  assert (Heq : forall j lk, in_cs (upd_cpu s i t) j lk <-> in_cs s j lk).
  { intros j lk. unfold in_cs. simpl. case_decide; subst; [apply Hcs|done]. }
  split; simpl.
  - intros j. case_decide; [done|by apply inv_thread].
  - intros j lk. case_decide; subst; [rewrite Hm|]; by apply inv_mine.
  - apply H.
  - intros j lk Hj. apply Heq in Hj. by apply (inv_cs s H j).
  - intros j k lk Hj Hk. apply Heq in Hj, Hk. by apply (inv_excl s H j k lk).
Qed.

Lemma inv_xchg_busy s lk :
  inv s -> locked (locks s lk) <> 0 -> inv (upd_lock s lk (mkspinlock 1 (lcpu (locks s lk)))).
Proof.
  intros H Hl. destruct (inv_locked _ H lk) as [|H1]; [done|].
  split; simpl; [apply H| |intros k; case_decide; [by right|apply H]| |apply H].
  - intros j k. case_decide; subst; apply H.
  - intros j k Hj. case_decide; [done|]. by apply (inv_cs s H j).
Qed.

Lemma inv_upd_both s i lk t l :
  inv s -> thread_ok t ->
  (forall j, in_cs s j lk -> j = i) ->
  (forall k, k <> lk -> k ∈ t_mine t <-> k ∈ t_mine (cpus s i)) ->
  (forall k, k <> lk -> thread_cs t k <-> thread_cs (cpus s i) k) ->
  (lcpu l = None /\ lk ∉ t_mine t \/ lcpu l = Some i /\ lk ∈ t_mine t) ->
  (locked l = 0 /\ ~ thread_cs t lk \/ locked l = 1) ->
  inv (upd_cpu (upd_lock s lk l) i t).
Proof.
  intros H Ht Hoth Hm Hcs Hl Hk.
  assert (Heq : forall j k, in_cs (upd_cpu (upd_lock s lk l) i t) j k ->
      in_cs s j k \/ k = lk /\ j = i /\ thread_cs t lk).
  { intros j k. unfold in_cs. simpl. case_decide; subst; [|by left].
    destruct (decide (k = lk)) as [->|Hne]; [by right|]. left. by apply Hcs. }
  split; simpl.
  - intros j. case_decide; [done|by apply inv_thread].
  - intros j k. pose proof (inv_mine _ H j k) as Hjk.
    repeat case_decide; subst.
    + destruct Hl as [[-> ?]|[-> ?]]; done.
    + by rewrite Hm.
    + split; intros Hin.
      * exfalso. specialize (Hoth j). unfold in_cs, thread_cs in Hoth. tauto.
      * destruct Hl as [[Hl ?]|[Hl ?]]; congruence.
    + done.
  - intros k. case_decide; [destruct Hk as [[]|]; auto|by apply inv_locked].
  - intros j k Hj. destruct (Heq _ _ Hj) as [Hs|(-> & -> & Hs)]; case_decide; subst; try done.
    + destruct Hk as [[_ Hk]|]; [|done]. exfalso. apply Hk.
      pose proof (Hoth _ Hs). subst. unfold in_cs in Hj. simpl in Hj. by case_decide.
    + by apply (inv_cs s H j).
    + destruct Hk as [[_ Hk]|]; done.
  - intros j j' k Hj Hj'.
    destruct (Heq _ _ Hj) as [?|(-> & -> & _)]; destruct (Heq _ _ Hj') as [?|(? & -> & _)]; subst; try done.
    + by apply (inv_excl s H j j' k).
    + by apply Hoth.
    + symmetry. by apply Hoth.
Qed.

Ltac cs_solver :=
  unfold in_cs, thread_cs in *; simpl in *;
  repeat match goal with H : t_pc _ = _ |- _ => rewrite H in *; clear H end;
  first [solve [tauto] | solve [intuition (simplify_eq; auto)]].

Lemma in_cs_me s i lk : inv s -> in_cs s i lk -> forall j, in_cs s j lk -> j = i.
Proof. intros H Hi j Hj. by apply (inv_excl s H j i lk). Qed.

(** The steps that write a lock, one lemma each. *)
Section lock_steps.
Context (s : smp) (i : nat) (lk : lockid) (H : inv s).
Local Notation t := (cpus s i).
Local Notation l := (locks s lk).

Lemma inv_xchg_free :
  t_pc t = P_spin lk -> locked l = 0 ->
  inv (upd_cpu (upd_lock s lk (mkspinlock 1 (lcpu l))) i (mkthread (t_cpu t) (P_got lk) (t_mine t) (t_ext t))).
Proof using H.
  intros Hp Hl. pose proof (inv_thread _ H i) as [Hc Hn Hnd Hpc]. pose proof (inv_mine _ H) as Hmi.
  assert (Hno : forall j, ~ in_cs s j lk) by (intros j Hj%inv_cs; [lia|done]).
  apply inv_upd_both; auto; try (intros; cs_solver).
  - rewrite Hp in Hn. split; simpl; auto. intros k Hk. split; [|done]. intros [= <-].
    apply (Hno i). by left.
  - intros j Hj. by destruct (Hno j).
  - left. split; [|intros Hin; apply (Hno i); by left]. simpl. destruct (lcpu l) as [j|] eqn:E; [|done].
    exfalso. apply (Hno j). left. by apply Hmi.
Qed.

Lemma inv_acquired :
  t_pc t = P_got lk ->
  inv (upd_cpu (upd_lock s lk (mkspinlock (locked l) (Some i))) i
         (mkthread (t_cpu t) P_idle (lk :: t_mine t) (t_ext t))).
Proof using H.
  intros Hp. pose proof (inv_thread _ H i) as [Hc Hn Hnd Hpc].
  assert (Hi : in_cs s i lk) by cs_solver.
  apply inv_upd_both; auto; try (intros; cs_solver).
  - split; simpl; auto.
    + rewrite Hn, Hp. simpl. lia.
    + constructor; [|done]. intros Hk. by apply Hpc in Hk as [].
  - by apply in_cs_me.
  - intros k Hk. simpl. rewrite elem_of_cons. tauto.
  - intros k Hk. unfold thread_cs. simpl. rewrite elem_of_cons, Hp.
    intuition (simplify_eq; auto).
  - right. split; [done|by left].
  - right. by apply (inv_cs s H i).
Qed.

Lemma inv_release c :
  t_pc t = P_idle -> holding i l (t_cpu t) = inr (true, c) ->
  inv (upd_cpu (upd_lock s lk (mkspinlock (locked l) None)) i
         (mkthread c (P_rel lk) (filter (fun k => k <> lk) (t_mine t)) (t_ext t))).
Proof using H.
  intros Hp Hh. pose proof (inv_thread _ H i) as [Hc Hn Hnd Hpc].
  apply holding_ok in Hh as (Hr & Hok & Hn' & _); [|done].
  symmetry in Hr. apply andb_true_iff in Hr as [_ Hr%bool_decide_eq_true].
  assert (Hin : lk ∈ t_mine t) by by apply (inv_mine s H).
  apply inv_upd_both; auto.
  - split; simpl; auto.
    + rewrite Hn', Hn, Hp, (length_filter_ne lk (t_mine t)) by done. simpl. lia.
    + by apply NoDup_filter.
    + intros k [Hk _]%list_elem_of_filter. split; congruence.
  - apply in_cs_me; [done|by left].
  - intros k Hk. simpl. rewrite list_elem_of_filter. tauto.
  - intros k Hk. unfold thread_cs. simpl. rewrite list_elem_of_filter, Hp.
    intuition (simplify_eq; auto).
  - left. split; [done|apply not_elem_of_filter_ne].
  - right. apply (inv_cs s H i). by left.
Qed.

Lemma inv_released c :
  t_pc t = P_rel lk -> popcli (t_cpu t) = inr c ->
  inv (upd_cpu (upd_lock s lk (mkspinlock 0 (lcpu l))) i (mkthread c P_idle (t_mine t) (t_ext t))).
Proof using H.
  intros Hp Hpop. pose proof (inv_thread _ H i) as [Hc Hn Hnd Hpc].
  apply popcli_ok in Hpop as (Hok & Hn' & _); [|done].
  assert (Hi : in_cs s i lk) by cs_solver.
  assert (Hno : lk ∉ t_mine t) by (intros Hk%Hpc; naive_solver).
  apply inv_upd_both; auto; try (intros; cs_solver).
  - split; simpl; auto. rewrite Hn', Hn, Hp. simpl. lia.
  - by apply in_cs_me.
  - left. split; [|done]. simpl. destruct (lcpu l) as [j|] eqn:E; [|done].
    assert (Hj : lk ∈ t_mine (cpus s j)) by by apply (inv_mine s H).
    assert (j = i) as -> by (apply (inv_excl s H j i lk); [by left|done]). done.
Qed.

End lock_steps.

Lemma inv_step s i s' : inv s -> step i s s' -> inv s'.
Proof.
  intros H Hstep. pose proof (inv_thread _ H i) as [Hc Hn Hnd Hpc].
  destruct Hstep as [lk t c c' <- Hp <- Hh|lk t <- Hp Hl|lk t <- Hp Hl|lk t <- Hp|lk t c <- Hp Hh
                    |lk t c <- Hp Hpop|t <- Hp|t c n <- Hp He Hpop|t <- Hp Hm He];
    eauto using inv_xchg_busy, inv_xchg_free, inv_acquired, inv_release, inv_released.
  - destruct (pushcli_ok _ Hc) as [Hok Hpn].
    apply holding_ok in Hh as (_ & Hok' & Hn' & _); [|done].
    apply inv_upd_cpu; auto; [|intros k; cs_solver].
    split; simpl; auto. rewrite Hn', Hpn, Hn, Hp. simpl. lia.
  - destruct (pushcli_ok _ Hc) as [Hok Hpn].
    apply inv_upd_cpu; auto; [|intros k; cs_solver].
    split; cbn [t_cpu t_pc t_mine t_ext pending]; auto. rewrite Hpn, Hn, Hp. simpl. lia.
  - apply popcli_ok in Hpop as (Hok & Hn' & _); [|done].
    apply inv_upd_cpu; auto; [|intros k; cs_solver].
    split; simpl; auto. rewrite Hn', Hn, Hp, He. simpl. lia.
  - rewrite Hm, He, Hp in Hn. simpl in Hn.
    apply inv_upd_cpu; auto; [|intros k; cs_solver].
    rewrite Hm. split; simpl; auto using NoDup_nil_2. split; simpl; lia.
Qed.

Lemma reachable_inv s : reachable s -> inv s.
Proof. induction 1; eauto using inv_init, inv_step. Qed.

(** ** Theorems *)

(** C8: At every moment of every interleaving of the processors, at most one
    processor is inside the critical section of a spin-lock, and a processor
    that is inside one has its interrupts disabled. *)
Theorem mutual_exclusion s i lk :
  reachable s -> in_cs s i lk ->
  (forall j, in_cs s j lk -> j = i) /\ iflag (t_cpu (cpus s i)) = false.
Proof.
  intros H%reachable_inv Hi. split; [by apply in_cs_me|].
  destruct (inv_thread _ H i) as [[Hc Hf] Hn _ _]. apply Hf. rewrite Hn.
  destruct Hi as [Hi|[-> | ->]]; simpl; [|lia..].
  destruct (t_mine (cpus s i)); [by apply not_elem_of_nil in Hi|].
  unfold pending. destruct (t_pc (cpus s i)); simpl; lia.
Qed.

(** [mycpu()->ncli] counts: for a processor outside [acquire], [release]
    and any other [pushcli] section it is the number of spin-locks the
    processor holds, each of them once; and the [popcli] that ends a
    [release] never panics. *)
Theorem ncli_counts_held s i :
  reachable s ->
  (t_pc (cpus s i) = P_idle -> t_ext (cpus s i) = 0%nat ->
   ncli (t_cpu (cpus s i)) = Z.of_nat (length (t_mine (cpus s i))) /\ NoDup (t_mine (cpus s i))) /\
  (forall lk, t_pc (cpus s i) = P_rel lk -> exists c, popcli (t_cpu (cpus s i)) = inr c).
Proof.
  intros H%reachable_inv. destruct (inv_thread _ H i) as [[Hc Hf] Hn Hnd _]. split.
  - intros Hp He. rewrite Hn, Hp, He. simpl. split; [lia|done].
  - intros lk Hp. rewrite Hp in Hn. simpl in Hn.
    rewrite popcli_spec; [eauto|apply Hf; lia|lia].
Qed.

(** [pushcli] and [popcli] are matched: [n] nested [pushcli] calls followed
    by [n] [popcli] calls never panic and leave the interrupt flag and the
    depth as they were, whether interrupts were on or off before. *)
Theorem pushcli_nesting n c :
  0 <= ncli c -> (0 < ncli c -> iflag c = false) ->
  exists c', nest n c = inr c' /\ ncli c' = ncli c /\ iflag c' = iflag c.
Proof.
  intros H1 H2. destruct (nest_spec n c (conj H1 H2)) as (c' & ? & ? & ? & _). eauto.
Qed.

(** Interrupts after a [sched] are those of the process, not of the processor.
    A process that acquires ptable.lock, calls [sched] and is resumed on any
    processor, where the scheduler holds that lock alone, has after the
    release interrupts enabled if and only if it had before the acquire. *)
Theorem sched_keeps_intena c c' :
  ncli c = 0 -> ncli c' = 1 -> iflag c' = false ->
  exists c'', popcli (sched_swtch (pushcli c) c') = inr c'' /\ ncli c'' = 0 /\ iflag c'' = iflag c.
Proof.
  intros H0 H1 Hf. rewrite pushcli_spec, H0. unfold sched_swtch. cbn [intena Z.eqb]. rewrite H1, Hf.
  eexists. split; [by apply popcli_spec|]. done.
Qed.

(** ** Witnesses *)

(** Processor 0 acquires the log's lock while processor 1 spins on it. *)
Definition demo_thread := mkthread (mkcpu 1 false false).
Definition demo1 : smp := upd_cpu init 0 (demo_thread (P_spin L_log) [] 0%nat).
Definition demo2 : smp := upd_cpu demo1 1 (demo_thread (P_spin L_log) [] 0%nat).
Definition demo3 : smp :=
  upd_cpu (upd_lock demo2 L_log (mkspinlock 1 None)) 0 (demo_thread (P_got L_log) [] 0%nat).
Definition demo_held : smp :=
  upd_cpu (upd_lock demo3 L_log (mkspinlock 1 (Some 0%nat))) 0 (demo_thread P_idle [L_log] 0%nat).

Lemma demo_reachable : reachable demo_held.
Proof.
  assert (reachable demo1) as H1.
  { eapply R_step; [apply R_init|].
    exact (S_acquire 0 init L_log _ _ (mkcpu 1 false false) eq_refl eq_refl eq_refl eq_refl). }
  assert (reachable demo2) as H2.
  { eapply R_step; [exact H1|].
    exact (S_acquire 1 demo1 L_log _ _ (mkcpu 1 false false) eq_refl eq_refl eq_refl eq_refl). }
  assert (reachable demo3) as H3.
  { eapply R_step; [exact H2|]. exact (S_xchg_free 0 demo2 L_log _ eq_refl eq_refl eq_refl). }
  eapply R_step; [exact H3|]. exact (S_acquired 0 demo3 L_log _ eq_refl eq_refl).
Qed.

Lemma mutual_exclusion_witness :
  in_cs demo_held 0 L_log /\
  (forall j, in_cs demo_held j L_log -> j = 0%nat) /\ iflag (t_cpu (cpus demo_held 0)) = false.
Proof.
  assert (H : in_cs demo_held 0 L_log) by (left; by left).
  split; [exact H|]. exact (mutual_exclusion demo_held 0 L_log demo_reachable H).
Defined.

Lemma ncli_counts_held_witness : ncli (t_cpu (cpus demo_held 0)) = 1.
Proof.
  exact (proj1 (proj1 (ncli_counts_held demo_held 0 demo_reachable) eq_refl eq_refl)).
Defined.

Lemma pushcli_nesting_witness :
  exists c', nest 3 (mkcpu 0 false true) = inr c' /\ ncli c' = 0 /\ iflag c' = true.
Proof. apply (pushcli_nesting 3 (mkcpu 0 false true)); simpl; lia. Defined.

Lemma sched_keeps_intena_witness :
  exists c'', popcli (sched_swtch (pushcli (mkcpu 0 false true)) (mkcpu 1 false false)) = inr c'' /\ iflag c'' = true.
Proof.
  destruct (sched_keeps_intena (mkcpu 0 false true) (mkcpu 1 false false)) as (c'' & H1 & _ & H2); [reflexivity..|].
  exists c''. exact (conj H1 H2).
Defined.

End Smp.

(** ** The operations of one kernel thread *)

Definition holding (lk : lockid) : K bool := gets (fun s => bool_decide (lk ∈ k_held s)).

Definition acquire (lk : lockid) : K unit :=
  h <- holding lk ;;
  if h then panic "acquire"
  else modify (fun s => set_k_held (lk :: k_held s) s).

Definition release (lk : lockid) : K unit :=
  h <- holding lk ;;
  if negb h then panic "release"
  else modify (fun s => set_k_held (filter (fun l => l <> lk) (k_held s)) s).

(** [mycpu()->ncli]. *)
Definition cpu_ncli (s : kernel) : Z := Z.of_nat (length (k_held s)).

(** Membership of a lock in an explicit list of locks. *)
Ltac solve_held := kproj; rewrite ?elem_of_cons, ?elem_of_nil; intuition congruence.

Lemma acquire_run lk s : lk ∉ k_held s -> acquire lk s = Ret tt (set_k_held (lk :: k_held s) s).
Proof. intros H. unfold acquire, bind, holding, gets. simpl. by rewrite bool_decide_eq_false_2. Qed.

Lemma release_run lk s :
  lk ∈ k_held s -> release lk s = Ret tt (set_k_held (filter (fun l => l <> lk) (k_held s)) s).
Proof. intros H. unfold release, bind, holding, gets. simpl. by rewrite bool_decide_eq_true_2. Qed.

Lemma release_head lk l s : lk ∉ l -> k_held s = lk :: l -> release lk s = Ret tt (set_k_held l s).
Proof.
  intros Hn H. rewrite release_run by (rewrite H; by left). by rewrite H, filter_ne_cons.
Qed.

(** A critical section that leaves the locks alone: acquire, run, release. *)
Lemma locked_section {A} lk (c : K A) s a s' :
  lk ∉ k_held s -> c (set_k_held (lk :: k_held s) s) = Ret a s' -> k_held s' = lk :: k_held s ->
  (acquire lk ;; x <- c ;; release lk ;; ret x) s = Ret a (set_k_held (k_held s) s').
Proof.
  intros Hn Hc Hh. erewrite bind_run by by apply acquire_run.
  erewrite bind_run by exact Hc. erewrite bind_run; [done|].
  by apply (release_head lk (k_held s)).
Qed.
