(* ===== verification/Proc.v ===== *)
(** * Giving the processor away: sched, yield, sleep, wakeup, kill (proc.c)

    The part of proc.c that the rest of the kernel builds on.  [swtch] to the
    scheduler is the constructor [Swtch None]: the computation stops in the
    state it leaves to the scheduler and continues in whatever state the
    scheduler resumes it in. *)

From stdpp Require Import base numbers list option strings gmap.
From S2P Require Import Prelude Kernel Fields Spinlock.

(** ** Access to the process table *)

Definition get_proc (i : nat) : K proc := gets (fun s => k_proc s !!! i).
Definition upd_proc (i : nat) (f : proc -> proc) : K unit :=
  modify (fun s => set_k_proc (alter f i (k_proc s)) s).

(** Dereferencing a null pointer in the kernel faults, and [trap] panics. *)
Definition null_deref {A} : K A := panic "trap".

Definition myproc : K (option nat) := gets k_cur.

Definition curproc : K nat :=
  p <- myproc ;;
  match p with Some i => ret i | None => null_deref end.

(** [myproc()->pid] *)
Definition mypid : K Z := i <- curproc ;; p <- get_proc i ;; ret (p_pid p).

(** ** The code *)

Definition is_state (st : procstate) (p : proc) : bool := bool_decide (p_state p = st).

(** The processor's interrupt flag and [intena] are not part of [kernel]:
    interrupts are off whenever a lock is held ([Smp.mutual_exclusion]), and
    [Smp.sched_swtch] is what [sched] does about [intena]. *)
Definition sched : K unit :=
  i <- curproc ;;
  h <- holding L_ptable ;;
  if negb h then panic "sched ptable.lock" else
  ncli <- gets cpu_ncli ;;
  if negb (ncli =? 1) then panic "sched locks" else
  p <- get_proc i ;;
  if is_state RUNNING p then panic "sched running" else
  swtch None.

Definition yield : K unit :=
  acquire L_ptable ;;
  i <- curproc ;;
  upd_proc i (set_p_state RUNNABLE) ;;
  sched ;;
  release L_ptable.

(** The body of [wakeup1]'s loop. *)
Definition wake (ch : option chan) (p : proc) : proc :=
  if is_state SLEEPING p && bool_decide (p_chan p = ch) then set_p_state RUNNABLE p else p.

Definition wakeup1 (ch : option chan) : K unit :=
  modify (fun s => set_k_proc (wake ch <$> k_proc s) s).

(** [sleep] and [wakeup] run against each other on several processors, and the
    order of their actions is what makes them correct; so their code is a
    list of actions, run here one after the other and interleaved in
    Wakeup.v. *)
Inductive act :=
| Acquire (lk : lockid)
| Release (lk : lockid)
| Update (i : nat) (f : proc -> proc)
| Sched
| Wakeup1 (ch : option chan).

Definition do_act (a : act) : K unit :=
  match a with
  | Acquire lk => acquire lk
  | Release lk => release lk
  | Update i f => upd_proc i f
  | Sched => sched
  | Wakeup1 ch => wakeup1 ch
  end.

(** The code of [sleep] from its first [if] on, for process [i]. *)
Definition sleep_acts (i : nat) (ch : chan) (lk : lockid) : list act :=
  (if bool_decide (lk = L_ptable) then [] else [Acquire L_ptable; Release lk]) ++
  [Update i (set_p_chan (Some ch)); Update i (set_p_state SLEEPING);
   Sched;
   Update i (set_p_chan None)] ++
  (if bool_decide (lk = L_ptable) then [] else [Release L_ptable; Acquire lk]).

Definition sleep (ch : chan) (lk : lockid) : K unit :=
  p <- myproc ;;
  match p with
  | None => panic "sleep"
  | Some i => foreach (sleep_acts i ch lk) do_act
  end.

Definition wakeup_acts (ch : chan) : list act :=
  [Acquire L_ptable; Wakeup1 (Some ch); Release L_ptable].

Definition wakeup (ch : chan) : K unit := foreach (wakeup_acts ch) do_act.

(** The scan of the table for [pid] in [kill]. *)
Definition find_proc (f : proc -> bool) (l : list proc) : option nat :=
  fst <$> list_find (fun p => f p = true) l.

Definition kill (pid : Z) : K Z :=
  acquire L_ptable ;;
  t <- gets k_proc ;;
  match find_proc (fun p => p_pid p =? pid) t with
  | Some i =>
      upd_proc i (set_p_killed 1) ;;
      p <- get_proc i ;;
      when (is_state SLEEPING p) (upd_proc i (set_p_state RUNNABLE)) ;;
      release L_ptable ;;
      ret 0
  | None => release L_ptable ;; ret (-1)
  end.

Definition setpriority (priority : Z) : K Z :=
  i <- curproc ;;
  if (100 <? priority) || (priority <? 0) then ret (-1) else
  p <- get_proc i ;;
  let old_p := p_priority p in
  upd_proc i (set_p_priority priority) ;;
  when (priority <? old_p) yield ;;
  ret old_p.

(** ** Lemmas *)

(** [krun] unfolds the monad and reduces as far as the next call. *)
Ltac krun := unfold bind, gets, modify, ret, panic; cbn [res_bind].

Lemma set_held_id l s : k_held s = l -> set_k_held l s = s.
Proof. intros <-. by destruct s. Qed.

Lemma curproc_run i s : k_cur s = Some i -> curproc s = Ret i s.
Proof. intros H. unfold curproc, myproc. krun. by rewrite H. Qed.

Lemma sched_run i s :
  k_cur s = Some i -> k_held s = [L_ptable] -> p_state (k_proc s !!! i) <> RUNNING ->
  sched s = swtch None s.
Proof.
  intros Hc Hh Hp. unfold sched, holding, get_proc, cpu_ncli, is_state. krun.
  rewrite (curproc_run i) by done. cbn [res_bind]. rewrite Hh.
  rewrite bool_decide_eq_true_2 by (by left). cbn [negb].
  rewrite Hh. change (Z.of_nat (length [L_ptable]) =? 1) with true. cbn [negb].
  by rewrite bool_decide_eq_false_2.
Qed.

(** The state in which process [i], holding the locks [k_held s], leaves the
    processor to sleep on [ch]. *)
Definition asleep (i : nat) (ch : chan) (s : kernel) : kernel :=
  set_k_held [L_ptable]
    (set_k_proc (alter (fun p => set_p_state SLEEPING (set_p_chan (Some ch) p)) i (k_proc s)) s).

(** The state a process that resumes in [s] continues in, holding [lk]. *)
Definition awoken (i : nat) (lk : lockid) (s : kernel) : kernel :=
  set_k_held [lk] (set_k_proc (alter (set_p_chan None) i (k_proc s)) s).

Lemma sleep_run i ch lk s :
  k_cur s = Some i -> (i < length (k_proc s))%nat -> k_held s = [lk] ->
  exists k, sleep ch lk s = Swtch None (asleep i ch s) k /\
            forall s', k_held s' = [L_ptable] -> k s' = Ret tt (awoken i lk s').
Proof.
  intros Hc Hi Hh. unfold sleep, sleep_acts, myproc. krun. rewrite Hc.
  destruct (decide (lk = L_ptable)) as [->|Hne].
  - rewrite bool_decide_eq_true_2 by done. cbn [app foreach do_act]. unfold upd_proc. krun.
    rewrite (sched_run i); [|done|done|].
    + unfold asleep, awoken. kproj. rewrite list_alter_alter_eq, set_held_id by done.
      eexists. split; [reflexivity|]. intros s' Hs'. by rewrite set_held_id.
    + kproj. by rewrite list_lookup_total_alter_eq by (by rewrite length_alter).
  - rewrite bool_decide_eq_false_2 by done. cbn [app foreach do_act]. unfold upd_proc. krun.
    rewrite acquire_run by (rewrite Hh; solve_held).
    cbn [res_bind]. rewrite release_run by (kproj; rewrite Hh; solve_held).
    cbn [res_bind]. kproj. rewrite Hh.
    rewrite filter_cons_True, filter_ne_cons by (done || solve_held).
    rewrite (sched_run i); [|done|done|].
    + rewrite list_alter_alter_eq. eexists. split; [reflexivity|]. intros s' Hs'. cbn beta iota delta [swtch res_bind].
      rewrite (release_head _ []) by (done || solve_held). cbn [res_bind].
      rewrite acquire_run by solve_held. done.
    + kproj. by rewrite list_lookup_total_alter_eq by (by rewrite length_alter).
Qed.

Lemma wakeup_run ch s :
  L_ptable ∉ k_held s -> wakeup ch s = Ret tt (set_k_proc (wake (Some ch) <$> k_proc s) s).
Proof.
  intros Hh. unfold wakeup, wakeup_acts. cbn [foreach do_act]. unfold wakeup1. krun. rewrite acquire_run by done.
  cbn [res_bind]. rewrite (release_head _ (k_held s)) by done. keq.
Qed.

Lemma wake_spec ch p :
  wake ch p = if is_state SLEEPING p && bool_decide (p_chan p = ch) then set_p_state RUNNABLE p else p.
Proof. done. Qed.

Lemma wake_sleeping ch p :
  p_state p = SLEEPING -> p_chan p = ch -> wake ch p = set_p_state RUNNABLE p.
Proof. intros H1 H2. unfold wake, is_state. by rewrite !bool_decide_eq_true_2. Qed.

Lemma wake_other ch p : ~ (p_state p = SLEEPING /\ p_chan p = ch) -> wake ch p = p.
Proof.
  intros H. unfold wake, is_state.
  destruct (decide (p_state p = SLEEPING)) as [E|E]; [|by rewrite bool_decide_eq_false_2].
  rewrite (bool_decide_eq_false_2 (p_chan p = ch)) by auto. by rewrite andb_false_r.
Qed.

Lemma lookup_wake ch (l : list proc) i :
  (i < length l)%nat -> (wake ch <$> l) !!! i = wake ch (l !!! i).
Proof. apply list_lookup_total_fmap. Qed.

Lemma find_proc_Some f l i :
  find_proc f l = Some i ->
  (i < length l)%nat /\ f (l !!! i) = true /\ forall j, (j < i)%nat -> f (l !!! j) = false.
Proof.
  unfold find_proc. rewrite fmap_Some. intros ([i' p] & Hf & [= ->]).
  apply list_find_Some in Hf as (Hl & Hp & Hb). simpl. split; [by eapply lookup_lt_Some|].
  rewrite (list_lookup_total_correct _ _ _ Hl). split; [done|]. intros j Hj.
  assert (Hlen := lookup_lt_Some _ _ _ Hl).
  destruct (lookup_lt_is_Some_2 l j) as [q Hq]; [lia|].
  rewrite (list_lookup_total_correct _ _ _ Hq). specialize (Hb _ _ Hq Hj).
  by apply not_true_is_false.
Qed.

Lemma find_proc_None f l : find_proc f l = None -> forall i, (i < length l)%nat -> f (l !!! i) = false.
Proof.
  unfold find_proc. rewrite fmap_None, list_find_None. intros H i Hi. apply not_true_is_false.
  rewrite Forall_lookup in H. apply (H i). by apply list_lookup_lookup_total_lt.
Qed.

(** What [kill] does to the table entry it finds. *)
Definition killed_entry (p : proc) : proc :=
  let p := set_p_killed 1 p in
  if is_state SLEEPING p then set_p_state RUNNABLE p else p.

Lemma kill_run pid s i :
  L_ptable ∉ k_held s -> find_proc (fun p => p_pid p =? pid) (k_proc s) = Some i ->
  kill pid s = Ret 0 (set_k_proc (alter killed_entry i (k_proc s)) s).
Proof.
  intros Hh Hf. pose proof (find_proc_Some _ _ _ Hf) as (Hi & _).
  unfold kill, upd_proc, get_proc, when. krun. rewrite acquire_run by done. cbn [res_bind]. kproj.
  rewrite Hf. cbn [res_bind]. kproj. rewrite list_lookup_total_alter_eq by done.
  assert (Hl := list_lookup_lookup_total_lt (k_proc s) i Hi).
  destruct (is_state SLEEPING (set_p_killed 1 (k_proc s !!! i))) eqn:E; cbn [res_bind];
    rewrite (release_head _ (k_held s)) by done; cbn [res_bind]; kproj; rewrite ?list_alter_alter_eq;
    rewrite (list_alter_ext _ killed_entry (k_proc s) (k_proc s) i); try keq;
    intros p Hp; rewrite Hl in Hp; simplify_eq; unfold killed_entry; by rewrite E.
Qed.

Lemma kill_none pid s :
  L_ptable ∉ k_held s -> find_proc (fun p => p_pid p =? pid) (k_proc s) = None -> kill pid s = Ret (-1) s.
Proof.
  intros Hh Hf. unfold kill. krun. rewrite acquire_run by done. cbn [res_bind]. kproj.
  rewrite Hf. cbn [res_bind]. rewrite (release_head _ (k_held s)) by done. keq.
Qed.

(** ** Theorems *)

(** A process that calls [sleep(ch, lk)] while it holds
    [lk] gives the processor away exactly once, in a state in which it is
    already SLEEPING on [ch], [lk] has been given up and only ptable.lock is
    held.  From any state in which it is still sleeping on [ch], a call of
    [wakeup(ch)] makes it RUNNABLE.  When it is switched back to, it
    clears its channel and holds [lk] again. *)
Theorem sleep_wakeup i ch lk s :
  k_cur s = Some i -> (i < length (k_proc s))%nat -> k_held s = [lk] ->
  exists s1 k, sleep ch lk s = Swtch None s1 k /\
    k_held s1 = [L_ptable] /\
    p_state (k_proc s1 !!! i) = SLEEPING /\ p_chan (k_proc s1 !!! i) = Some ch /\
    (forall j, j <> i -> k_proc s1 !!! j = k_proc s !!! j) /\
    (forall s2, L_ptable ∉ k_held s2 -> (i < length (k_proc s2))%nat ->
       p_state (k_proc s2 !!! i) = SLEEPING -> p_chan (k_proc s2 !!! i) = Some ch ->
       exists s3, wakeup ch s2 = Ret tt s3 /\ p_state (k_proc s3 !!! i) = RUNNABLE) /\
    (forall s2, k_held s2 = [L_ptable] -> (i < length (k_proc s2))%nat ->
       exists s3, k s2 = Ret tt s3 /\ k_held s3 = [lk] /\ p_chan (k_proc s3 !!! i) = None).
Proof.
  intros Hc Hi Hh. destruct (sleep_run i ch lk s Hc Hi Hh) as (k & Hrun & Hk).
  exists (asleep i ch s), k. unfold asleep. kproj. rewrite list_lookup_total_alter_eq by done.
  repeat split; auto.
  - intros j Hj. by rewrite list_lookup_total_alter_ne.
  - intros s2 Hh2 Hi2 Hs2 Hc2. eexists. split; [by apply wakeup_run|]. kproj.
    by rewrite lookup_wake, wake_sleeping.
  - intros s2 Hh2 Hi2. eexists. split; [by apply Hk|]. split; [done|].
    unfold awoken. kproj. by rewrite list_lookup_total_alter_eq.
Qed.

(** [wakeup(ch)] makes every process sleeping on [ch] RUNNABLE and changes
    nothing else: no other process, no other field, no other variable. *)
Theorem wakeup_exact ch s :
  L_ptable ∉ k_held s ->
  exists s', wakeup ch s = Ret tt s' /\ s' = set_k_proc (k_proc s') s /\
    length (k_proc s') = length (k_proc s) /\
    forall i, (i < length (k_proc s))%nat ->
      k_proc s' !!! i =
        if decide (p_state (k_proc s !!! i) = SLEEPING /\ p_chan (k_proc s !!! i) = Some ch)
        then set_p_state RUNNABLE (k_proc s !!! i) else k_proc s !!! i.
Proof.
  intros Hh. eexists. split; [by apply wakeup_run|]. kproj. split; [done|].
  split; [by rewrite length_fmap|]. intros i Hi. rewrite lookup_wake by done.
  case_decide as H; [by apply wake_sleeping; destruct H|by apply wake_other].
Qed.

(** [kill(pid)] marks the first table entry with that pid as killed, wakes
    it if it sleeps, and returns 0; without such an entry it returns -1 and
    changes nothing. *)
Theorem kill_correct pid s :
  L_ptable ∉ k_held s ->
  (exists i, (i < length (k_proc s))%nat /\ p_pid (k_proc s !!! i) = pid /\
     (forall j, (j < i)%nat -> p_pid (k_proc s !!! j) <> pid) /\
     exists s', kill pid s = Ret 0 s' /\ s' = set_k_proc (k_proc s') s /\
       p_killed (k_proc s' !!! i) = 1 /\
       p_state (k_proc s' !!! i) =
         (if decide (p_state (k_proc s !!! i) = SLEEPING) then RUNNABLE else p_state (k_proc s !!! i)) /\
       forall j, j <> i -> k_proc s' !!! j = k_proc s !!! j) \/
  ((forall i, (i < length (k_proc s))%nat -> p_pid (k_proc s !!! i) <> pid) /\ kill pid s = Ret (-1) s).
Proof.
  intros Hh. destruct (find_proc (fun p => p_pid p =? pid) (k_proc s)) as [i|] eqn:Hf.
  - left. exists i. destruct (find_proc_Some _ _ _ Hf) as (Hi & Hp & Hb).
    split; [done|]. split; [lia|]. split; [intros j Hj; specialize (Hb j Hj); simpl in Hb; lia|].
    eexists. split; [by apply kill_run|]. kproj. split; [done|].
    rewrite list_lookup_total_alter_eq by done. unfold killed_entry, is_state.
    cbn [p_state set_p_killed]. split_and!.
    + by case_match.
    + by repeat case_decide.
    + intros j Hj. by rewrite list_lookup_total_alter_ne.
  - right. split; [|by apply kill_none]. intros i Hi.
    pose proof (find_proc_None _ _ Hf i Hi) as H. simpl in H. lia.
Qed.

(** ** Witnesses *)

(** Process 3 runs; process 5, with pid 9, sleeps on the timer. *)
Definition demo_procs : kernel :=
  set_k_cur (Some 3%nat) (set_k_proc
    (<[3%nat := set_p_pid 4 (set_p_state RUNNING proc_zero)]>
      (<[5%nat := set_p_pid 9 (set_p_chan (Some Ch_ticks) (set_p_state SLEEPING proc_zero))]>
        (replicate NPROC proc_zero))) kernel_zero).

Lemma sleep_wakeup_witness :
  exists s1 k, sleep Ch_log L_log (set_k_held [L_log] demo_procs) = Swtch None s1 k /\
    k_held s1 = [L_ptable] /\ p_state (k_proc s1 !!! 3%nat) = SLEEPING.
Proof.
  destruct (sleep_wakeup 3 Ch_log L_log (set_k_held [L_log] demo_procs)) as (s1 & k & H1 & H2 & H3 & _).
  - reflexivity.
  - vm_compute. lia.
  - reflexivity.
  - exists s1, k. exact (conj H1 (conj H2 H3)).
Defined.

Lemma wakeup_exact_witness :
  exists s', wakeup Ch_ticks demo_procs = Ret tt s' /\ length (k_proc s') = 64%nat.
Proof.
  destruct (wakeup_exact Ch_ticks demo_procs) as (s' & H1 & _ & H2 & _); [apply not_elem_of_nil|].
  exists s'. exact (conj H1 H2).
Defined.

Lemma kill_correct_witness : exists i, p_pid (k_proc demo_procs !!! i) = 9.
Proof.
  destruct (kill_correct 9 demo_procs) as [(i & _ & H & _)|[_ H]].
  - apply not_elem_of_nil.
  - exists i. exact H.
  - exfalso. revert H. vm_compute. discriminate.
Defined.
