(* ===== verification/Wakeup.v ===== *)
(** * sleep and wakeup on several processors (proc.c)

    Processes that wait for a condition with [sleep] and processes that make
    it true and call [wakeup], run against each other.  The condition is a
    test on data that the lock [lk] protects; the processes run the action
    lists [sleep_acts] and [wakeup_acts] of Proc.v, interleaved action by
    action, on any number of processors.  [sched] leaves ptable.lock to the
    scheduler of its processor, which may release it, take it again and pass it
    to a process it switches to.  The calls are those of the kernel: a loop
    [while(!cond) sleep(ch, lk)] under [lk], a change of the data followed by a
    [wakeup(ch)] under [lk], and a [kill] at any time.  With ptable.lock itself
    as [lk] they are [wait] and [exit], which calls [wakeup1]. *)

From stdpp Require Import base numbers list option functions sets relations.
From S2P Require Import Prelude Kernel Fields Spinlock Proc.

(** Who has a lock: a process, or the scheduler of a processor. *)
Inductive holder := Thread (i : nat) | Scheduler.

#[global] Instance holder_eq_dec : EqDecision holder.
Proof. solve_decision. Defined.

Section wakeup.
Context {D : Type} (cond : D -> bool) (ch : chan) (lk : lockid).

(** ** The machine *)

(** What a process does next: an action of proc.c, the loop
    [while(!cond) sleep(ch, lk)], a change of the data, or to return from
    [swtch] when it is given a processor again. *)
Inductive op :=
| Act (a : act)
| Wait
| Change (f : D -> D)
| Parked.

Inductive job :=
| J_wait (f : D -> D)
| J_notify (f : D -> D)
| J_kill (j : nat).

(** [exit] holds ptable.lock already when it wakes its parent. *)
Definition notify_acts : list act :=
  if bool_decide (lk = L_ptable) then [Wakeup1 (Some ch)] else wakeup_acts ch.

Definition kill_acts (j : nat) : list act := [Acquire L_ptable; Update j killed_entry; Release L_ptable].

Definition job_code (j : job) : list op :=
  match j with
  | J_wait f => [Act (Acquire lk); Wait; Change f; Act (Release lk)]
  | J_notify f => Act (Acquire lk) :: Change f :: (Act <$> notify_acts) ++ [Act (Release lk)]
  | J_kill j => Act <$> kill_acts j
  end.

Definition jobs_code (js : list job) : list op := js ≫= job_code.

Record mach := mkmach {
  m_proc : nat -> proc;
  m_owner : lockid -> option holder;
  m_code : nat -> list op;
  m_data : D;
}.

Definition goto (i : nat) (c : list op) (s : mach) : mach :=
  mkmach (m_proc s) (m_owner s) (<[i := c]> (m_code s)) (m_data s).
Definition set_owner (l : lockid) (h : option holder) (s : mach) : mach :=
  mkmach (m_proc s) (<[l := h]> (m_owner s)) (m_code s) (m_data s).
Definition set_proc (t : nat -> proc) (s : mach) : mach := mkmach t (m_owner s) (m_code s) (m_data s).
Definition set_data (d : D) (s : mach) : mach := mkmach (m_proc s) (m_owner s) (m_code s) d.

(** A step of process [i].  [acquire] waits until the lock is free. *)
Inductive tstep (i : nat) (s : mach) : mach -> Prop :=
| t_acquire l c : m_code s i = Act (Acquire l) :: c -> m_owner s l = None ->
    tstep i s (goto i c (set_owner l (Some (Thread i)) s))
| t_release l c : m_code s i = Act (Release l) :: c -> m_owner s l = Some (Thread i) ->
    tstep i s (goto i c (set_owner l None s))
| t_update j f c : m_code s i = Act (Update j f) :: c ->
    tstep i s (goto i c (set_proc (<[j := f (m_proc s j)]> (m_proc s)) s))
| t_wakeup x c : m_code s i = Act (Wakeup1 x) :: c ->
    tstep i s (goto i c (set_proc (fun j => wake x (m_proc s j)) s))
| t_sched c : m_code s i = Act Sched :: c -> m_owner s L_ptable = Some (Thread i) ->
    tstep i s (goto i (Parked :: c) (set_owner L_ptable (Some Scheduler) s))
| t_wait c : m_code s i = Wait :: c -> cond (m_data s) = true -> tstep i s (goto i c s)
| t_sleep c : m_code s i = Wait :: c -> cond (m_data s) = false ->
    tstep i s (goto i ((Act <$> sleep_acts i ch lk) ++ Wait :: c) s)
| t_change f c : m_code s i = Change f :: c -> tstep i s (goto i c (set_data (f (m_data s)) s)).

Inductive step (s : mach) : mach -> Prop :=
| s_thread i s' : tstep i s s' -> step s s'
| s_release : m_owner s L_ptable = Some Scheduler -> step s (set_owner L_ptable None s)
| s_acquire : m_owner s L_ptable = None -> step s (set_owner L_ptable (Some Scheduler) s)
| s_dispatch i c : m_owner s L_ptable = Some Scheduler -> m_code s i = Parked :: c ->
    p_state (m_proc s i) = RUNNABLE ->
    step s (goto i c (set_owner L_ptable (Some (Thread i))
             (set_proc (<[i := set_p_state RUNNING (m_proc s i)]> (m_proc s)) s))).

(** No lock is held, and every process has its jobs before it. *)
Definition start (t : nat -> proc) (jobs : nat -> list job) (d : D) : mach :=
  mkmach t (fun _ => None) (fun i => jobs_code (jobs i)) d.

Definition asleep_on (s : mach) (i : nat) : Prop :=
  p_state (m_proc s i) = SLEEPING /\ p_chan (m_proc s i) = Some ch.

(** Process [j] holds [lk] and is about to call [wakeup1(ch)], with nothing but
    perhaps [acquire(&ptable.lock)] before it. *)
Definition waker (s : mach) (j : nat) : Prop :=
  m_owner s lk = Some (Thread j) /\ exists c,
    m_code s j = Act (Wakeup1 (Some ch)) :: c \/
    m_code s j = Act (Acquire L_ptable) :: Act (Wakeup1 (Some ch)) :: c.

(** The next action of process [i] is one on which the kernel panics. *)
Definition panics (s : mach) (i : nat) : Prop :=
  match m_code s i with
  | Act (Acquire l) :: _ => m_owner s l = Some (Thread i)
  | Act (Release l) :: _ => m_owner s l <> Some (Thread i)
  | Act Sched :: _ =>
      m_owner s L_ptable <> Some (Thread i) \/
      (exists l, l <> L_ptable /\ m_owner s l = Some (Thread i)) \/ p_state (m_proc s i) = RUNNING
  | _ => False
  end.

(** Nothing is left to do: no process can go on, the schedulers have let go of
    the table, and no process waits for a processor. *)
Definition quiescent (s : mach) : Prop :=
  (forall i s', ~ tstep i s s') /\ m_owner s L_ptable <> Some Scheduler /\
  forall i c, m_code s i = Parked :: c -> p_state (m_proc s i) <> RUNNABLE.

(** ** The invariant *)

Definition holds (s : mach) (i : nat) (ls : list lockid) : Prop :=
  forall l, m_owner s l = Some (Thread i) <-> l ∈ ls.

(** No sleeper is forgotten. *)
Definition safe (s : mach) : Prop := cond (m_data s) = false \/ exists j, waker s j.

Definition parked_ok (p : proc) : Prop :=
  (p_state p = SLEEPING /\ p_chan p = Some ch) \/ p_state p = RUNNABLE.

(** What is left of a wait, of [sleep] after [sched], and of [sleep] after
    [release(lk)]. *)
Definition wait_rest (f : D -> D) (js : list job) : list op :=
  Wait :: Change f :: Act (Release lk) :: jobs_code js.
Definition woken_rest (i : nat) (f : D -> D) (js : list job) : list op :=
  Act (Update i (set_p_chan None)) ::
  (Act <$> if bool_decide (lk = L_ptable) then [] else [Release L_ptable; Acquire lk]) ++ wait_rest f js.
Definition sleep_rest (i : nat) (f : D -> D) (js : list job) : list op :=
  Act (Update i (set_p_chan (Some ch))) :: Act (Update i (set_p_state SLEEPING)) :: Act Sched :: woken_rest i f js.
Definition wake_rest (js : list job) : list op :=
  Act (Wakeup1 (Some ch)) :: Act (Release L_ptable) :: Act (Release lk) :: jobs_code js.

(** Every point a process can be at, with the locks it holds there and what it
    knows. *)
Inductive shape (s : mach) (i : nat) : list op -> Prop :=
| sh_idle js : holds s i [] -> shape s i (jobs_code js)
| sh_wait f js : holds s i [lk] -> shape s i (wait_rest f js)
| sh_go f js : holds s i [lk] -> cond (m_data s) = true ->
    shape s i (Change f :: Act (Release lk) :: jobs_code js)
| sh_leave js : holds s i [lk] -> shape s i (Act (Release lk) :: jobs_code js)
| sh_sleep f js : lk <> L_ptable -> holds s i [lk] -> cond (m_data s) = false ->
    shape s i (Act (Acquire L_ptable) :: Act (Release lk) :: sleep_rest i f js)
| sh_both f js : lk <> L_ptable -> holds s i [L_ptable; lk] -> cond (m_data s) = false ->
    shape s i (Act (Release lk) :: sleep_rest i f js)
| sh_chan f js : holds s i [L_ptable] -> safe s -> shape s i (sleep_rest i f js)
| sh_state f js : holds s i [L_ptable] -> safe s -> p_chan (m_proc s i) = Some ch ->
    shape s i (Act (Update i (set_p_state SLEEPING)) :: Act Sched :: woken_rest i f js)
| sh_sched f js : holds s i [L_ptable] -> asleep_on s i -> shape s i (Act Sched :: woken_rest i f js)
| sh_parked f js : holds s i [] -> parked_ok (m_proc s i) -> shape s i (Parked :: woken_rest i f js)
| sh_woken f js : holds s i [L_ptable] -> shape s i (woken_rest i f js)
| sh_relock f js : lk <> L_ptable -> holds s i [L_ptable] ->
    shape s i (Act (Release L_ptable) :: Act (Acquire lk) :: wait_rest f js)
| sh_lock f js : lk <> L_ptable -> holds s i [] -> shape s i (Act (Acquire lk) :: wait_rest f js)
| sh_change f js : holds s i [lk] ->
    shape s i (Change f :: (Act <$> notify_acts) ++ Act (Release lk) :: jobs_code js)
| sh_wakeup js : lk <> L_ptable -> holds s i [lk] -> shape s i (Act (Acquire L_ptable) :: wake_rest js)
| sh_wakeup1 js : lk <> L_ptable -> holds s i [L_ptable; lk] -> shape s i (wake_rest js)
| sh_exit js : lk = L_ptable -> holds s i [lk] ->
    shape s i (Act (Wakeup1 (Some ch)) :: Act (Release lk) :: jobs_code js)
| sh_awake js : lk <> L_ptable -> holds s i [L_ptable; lk] ->
    shape s i (Act (Release L_ptable) :: Act (Release lk) :: jobs_code js)
| sh_kill j js : holds s i [L_ptable] ->
    shape s i (Act (Update j killed_entry) :: Act (Release L_ptable) :: jobs_code js)
| sh_killed js : holds s i [L_ptable] -> shape s i (Act (Release L_ptable) :: jobs_code js).

Record inv (s : mach) : Prop := {
  inv_shape i : shape s i (m_code s i);
  inv_safe i : asleep_on s i -> safe s;
  inv_sched l : m_owner s l = Some Scheduler -> l = L_ptable;
}.

(** *** Steps of the others *)

(** What a process relies on when another one moves. *)
Record stable (s s' : mach) (j : nat) : Prop := {
  st_own l : m_owner s' l = Some (Thread j) <-> m_owner s l = Some (Thread j);
  st_data : m_owner s lk = Some (Thread j) -> m_data s' = m_data s;
  st_safe : m_owner s L_ptable = Some (Thread j) -> safe s -> safe s';
  st_proc : m_owner s L_ptable = Some (Thread j) -> m_proc s' j = m_proc s j;
  st_parked : parked_ok (m_proc s j) -> parked_ok (m_proc s' j);
}.

Lemma holds_stable s s' j ls : stable s s' j -> holds s j ls -> holds s' j ls.
Proof. intros Hs Hh l. rewrite (st_own _ _ _ Hs). apply Hh. Qed.

Lemma holds_in s j ls l : holds s j ls -> l ∈ ls -> m_owner s l = Some (Thread j).
Proof. intros Hh. apply Hh. Qed.

Lemma shape_stable s s' j c : stable s s' j -> shape s j c -> shape s' j c.
Proof.
  intros Hs Hc. pose proof (holds_stable s s' j) as Hh. destruct Hc; constructor; auto.
  all: try (rewrite (st_data _ _ _ Hs) by (eapply holds_in; [eassumption|set_solver]); done).
  all: try by apply (st_parked _ _ _ Hs).
  all: assert (m_owner s L_ptable = Some (Thread j)) as Hp by (eapply holds_in; [eassumption|set_solver]).
  all: unfold asleep_on; rewrite ?(st_proc _ _ _ Hs Hp); eauto using st_safe.
Qed.

(** *** Steps of the process itself *)

Lemma holds_acquire s i l c ls :
  holds s i ls -> holds (goto i c (set_owner l (Some (Thread i)) s)) i (l :: ls).
Proof.
  intros Hh x. cbn [goto set_owner m_owner]. rewrite elem_of_cons. destruct (decide (x = l)) as [->|Hne].
  - rewrite fn_lookup_insert. naive_solver.
  - rewrite fn_lookup_insert_ne by done. rewrite (Hh x). naive_solver.
Qed.

Lemma holds_release s i l h c ls ls' :
  holds s i ls -> h <> Some (Thread i) -> (forall x, x ∈ ls' <-> x ∈ ls /\ x <> l) ->
  holds (goto i c (set_owner l h s)) i ls'.
Proof.
  intros Hh Hn Hl x. cbn [goto set_owner m_owner]. rewrite Hl. destruct (decide (x = l)) as [->|Hne].
  - rewrite fn_lookup_insert. naive_solver.
  - rewrite fn_lookup_insert_ne by done. rewrite (Hh x). naive_solver.
Qed.

(** The code of the jobs to come starts with an [acquire]. *)
Lemma jobs_head o c js : jobs_code js = o :: c -> exists js',
  (o = Act (Acquire lk) /\ ((exists f, c = wait_rest f js') \/
     (exists f, c = Change f :: (Act <$> notify_acts) ++ Act (Release lk) :: jobs_code js'))) \/
  (o = Act (Acquire L_ptable) /\ exists j, c = Act (Update j killed_entry) :: Act (Release L_ptable) :: jobs_code js').
Proof.
  destruct js as [|[f|f|j] js]; [done|..]; cbn; intros [= <- <-]; exists js.
  - left. split; [done|]. left. by exists f.
  - left. split; [done|]. right. exists f. by rewrite <- app_assoc.
  - right. split; [done|]. by exists j.
Qed.

(** The points from which the given code is left. *)
Ltac points H E :=
  match type of H with shape _ _ ?co => remember co as code eqn:E in H end;
  destruct H; unfold wait_rest, sleep_rest, woken_rest, wake_rest in E; try discriminate E; simplify_eq;
  try match type of E with _ = jobs_code _ => symmetry in E end.

Lemma shape_acquire s i l c : shape s i (Act (Acquire l) :: c) -> m_owner s l = None ->
  shape (goto i c (set_owner l (Some (Thread i)) s)) i c.
Proof.
  intros H Hl. points H E.
  - apply jobs_head in E as (js' & [(E & [[f ->]|[f ->]])|(E & j & ->)]); simplify_eq; constructor; by apply holds_acquire.
  - constructor; [done|by apply holds_acquire|done].
  - apply (sh_wait _ _ f js). by apply holds_acquire.
  - apply (sh_wakeup1 _ _ js); [done|by apply holds_acquire].
Qed.

(** A step keeps the sleepers safe if it leaves the data and the locks of the
    other processes alone, and is not itself the end of a wakeup. *)
Lemma safe_goto s s1 i c :
  m_code s1 = m_code s -> m_data s1 = m_data s ->
  (forall k, k <> i -> m_owner s lk = Some (Thread k) -> m_owner s1 lk = Some (Thread k)) ->
  (waker s i -> waker (goto i c s1) i) -> safe s -> safe (goto i c s1).
Proof.
  intros Ec Ed Ho Hi [Hc|[k Hk]]; [left; cbn; by rewrite Ed|]. right. destruct (decide (k = i)) as [->|Hne]; [by exists i; auto|].
  exists k. destruct Hk as [Hl [c' Hc]]. split; [by apply Ho|]. exists c'. cbn [goto m_code]. by rewrite fn_lookup_insert_ne, Ec.
Qed.

Lemma not_waker s i o c : m_code s i = o :: c -> o <> Act (Acquire L_ptable) -> o <> Act (Wakeup1 (Some ch)) -> ~ waker s i.
Proof. intros E H1 H2 [_ [c' [E'|E']]]; rewrite E in E'; by simplify_eq. Qed.

Lemma shape_release s i l c : shape s i (Act (Release l) :: c) ->
  shape (goto i c (set_owner l None s)) i c.
Proof.
  intros H. points H E.
  - by apply jobs_head in E as (js' & [(E & _)|(E & _)]).
  - constructor. eapply holds_release; [done|done|set_solver].
  - apply (sh_chan _ _ f js); [eapply holds_release; [done|done|set_solver]|by left].
  - apply (sh_lock _ _ f js); [done|]. eapply holds_release; [done|done|set_solver].
  - constructor. eapply holds_release; [done|done|set_solver].
  - constructor. eapply holds_release; [done|done|set_solver].
Qed.

Lemma shape_sched s i c : shape s i (Act Sched :: c) ->
  shape (goto i (Parked :: c) (set_owner L_ptable (Some Scheduler) s)) i (Parked :: c).
Proof.
  intros H. points H E.
  - by apply jobs_head in E as (js' & [(E & _)|(E & _)]).
  - apply (sh_parked _ _ f js); [eapply holds_release; [done|done|set_solver]|by left].
Qed.

Lemma shape_wait s i c : shape s i (Wait :: c) -> cond (m_data s) = true -> shape (goto i c s) i c.
Proof.
  intros H Hc. points H E.
  - by apply jobs_head in E as (js' & [(E & _)|(E & _)]).
  - by apply (sh_go _ _ f js).
Qed.

Lemma shape_sleep s i c : shape s i (Wait :: c) -> cond (m_data s) = false ->
  let c' := (Act <$> sleep_acts i ch lk) ++ Wait :: c in shape (goto i c' s) i c'.
Proof.
  intros H Hc c'. points H E.
  - by apply jobs_head in E as (js' & [(E & _)|(E & _)]).
  - unfold c', sleep_acts. destruct (decide (lk = L_ptable)) as [El|El].
    + rewrite !bool_decide_eq_true_2 by done. cbn [app fmap list_fmap].
      replace (_ :: _) with (sleep_rest i f js).
      * apply (sh_chan _ _ f js); [by rewrite <- El|by left].
      * unfold sleep_rest, woken_rest. by rewrite bool_decide_eq_true_2.
    + rewrite !bool_decide_eq_false_2 by done. cbn [app fmap list_fmap].
      replace (Act (Update i _) :: _) with (sleep_rest i f js).
      * by apply (sh_sleep _ _ f js).
      * unfold sleep_rest, woken_rest. by rewrite bool_decide_eq_false_2.
Qed.

Lemma shape_wakeup s i x c : shape s i (Act (Wakeup1 x) :: c) ->
  let s' := goto i c (set_proc (fun j => wake x (m_proc s j)) s) in
  shape s' i c /\ x = Some ch /\ m_owner s L_ptable = Some (Thread i).
Proof.
  intros H s'. points H E.
  - by apply jobs_head in E as (js' & [(E & _)|(E & _)]).
  - split_and!; [by apply (sh_awake _ _ js)|done|eapply holds_in; [done|set_solver]].
  - split_and!; [by apply (sh_leave _ _ js)|done|eapply holds_in; [done|set_solver]].
Qed.

(** The change that a waiter makes once its condition holds, or one that is
    followed by a wakeup. *)
Lemma shape_change s i f c : shape s i (Change f :: c) ->
  let s' := goto i c (set_data (f (m_data s)) s) in
  shape s' i c /\ m_owner s lk = Some (Thread i) /\ (cond (m_data s) = true \/ waker s' i).
Proof.
  intros H s'. points H E.
  - by apply jobs_head in E as (js' & [(E & _)|(E & _)]).
  - split_and!; [by apply (sh_leave _ _ js)|eapply holds_in; [done|set_solver]|by left].
  - assert (m_owner s lk = Some (Thread i)) as Hl by (eapply holds_in; [done|set_solver]).
    unfold s', waker, notify_acts in *. cbn [goto set_data m_code m_owner]. rewrite fn_lookup_insert.
    destruct (decide (lk = L_ptable)) as [El|El].
    + rewrite bool_decide_eq_true_2 by done. split_and!; [by apply (sh_exit _ _ js)|done|]. right. split; [done|]. eexists. by left.
    + rewrite bool_decide_eq_false_2 by done. split_and!; [by apply (sh_wakeup _ _ js)|done|]. right. split; [done|]. eexists. by right.
Qed.

Lemma killed_not_sleeping p : p_state (killed_entry p) <> SLEEPING.
Proof. unfold killed_entry, is_state. case_bool_decide; done. Qed.

Lemma killed_parked p : parked_ok p -> parked_ok (killed_entry p).
Proof.
  unfold parked_ok, killed_entry, is_state. cbn [p_state set_p_killed]. intros [[H1 H2]|H]; right; [by rewrite H1|].
  by rewrite H, bool_decide_eq_false_2.
Qed.

Lemma shape_update s i j f c : m_code s i = Act (Update j f) :: c -> shape s i (Act (Update j f) :: c) ->
  let s' := goto i c (set_proc (<[j := f (m_proc s j)]> (m_proc s)) s) in
  (safe s -> safe s') ->
  shape s' i c /\ m_owner s L_ptable = Some (Thread i) /\
  (forall k, asleep_on s' k -> asleep_on s k \/ safe s) /\
  forall k, k <> i -> parked_ok (m_proc s k) -> parked_ok (m_proc s' k).
Proof.
  intros Ec H s' Hsafe.
  assert (forall k, k <> j -> m_proc s' k = m_proc s k) as Hk by (intros k Hk; cbn; by rewrite fn_lookup_insert_ne).
  assert (m_proc s' j = f (m_proc s j)) as Ej by (cbn; by rewrite fn_lookup_insert).
  assert (forall k, asleep_on s' k -> k <> j -> asleep_on s k) as Ha by (intros k; unfold asleep_on; intros ? ?; by rewrite <- Hk).
  assert (j = i -> forall k, k <> i -> parked_ok (m_proc s k) -> parked_ok (m_proc s' k)) as Hp
    by (intros -> k Hne; by rewrite Hk).
  points H E.
  - by apply jobs_head in E as (js' & [(E & _)|(E & _)]).
  - split_and!; [apply (sh_state _ _ f0 js); [done|by apply Hsafe|by rewrite Ej]|eapply holds_in; [done|set_solver]|by auto|by auto].
  - split_and!; [apply (sh_sched _ _ f0 js); [done|unfold asleep_on; by rewrite Ej]|eapply holds_in; [done|set_solver]|by auto|by auto].
  - split_and!; [|eapply holds_in; [done|set_solver]| |by auto].
    + destruct (decide (lk = L_ptable)) as [El|El].
      * rewrite bool_decide_eq_true_2 by done. apply (sh_wait _ _ f0 js). by rewrite El.
      * rewrite bool_decide_eq_false_2 by done. by apply (sh_relock _ _ f0 js).
    + intros k Hs. left. apply Ha; [done|]. intros ->. destruct Hs as [_ Hs]. by rewrite Ej in Hs.
  - split_and!; [by apply (sh_killed _ _ js)|eapply holds_in; [done|set_solver]| |].
    + intros k Hs. left. apply Ha; [done|]. intros ->. destruct Hs as [Hs _]. rewrite Ej in Hs. by apply killed_not_sleeping in Hs.
    + intros k _ Hpk. destruct (decide (k = j)) as [->|Hne]; [rewrite Ej; by apply killed_parked|by rewrite Hk].
Qed.

(** *** Every step keeps the invariant *)

(** A step of process [i] from [s] to [s']: its own new point, what it leaves
    to the others, and the sleepers. *)
Lemma inv_move s i c s' :
  inv s -> m_code s' = <[i := c]> (m_code s) -> shape s' i c ->
  (forall j, j <> i -> stable s s' j) -> (forall k, asleep_on s' k -> safe s') ->
  (forall l, m_owner s' l = Some Scheduler -> m_owner s l = Some Scheduler \/ l = L_ptable) -> inv s'.
Proof.
  intros Hi Ec Hs Hst Ha Ho. split; [|exact Ha|intros l Hl; destruct (Ho l Hl); [by apply (inv_sched s Hi)|done]]. intros j. rewrite Ec. destruct (decide (j = i)) as [->|Hne].
  - by rewrite fn_lookup_insert.
  - rewrite fn_lookup_insert_ne by done. by apply (shape_stable s); [apply Hst|apply Hi].
Qed.

Lemma inv_acquire s i l c : inv s -> m_code s i = Act (Acquire l) :: c -> m_owner s l = None ->
  inv (goto i c (set_owner l (Some (Thread i)) s)).
Proof.
  intros Hi Ec Hl. set (s' := goto _ _ _). assert (safe s -> safe s') as Hsafe.
  { apply safe_goto; try done; cbn [set_owner m_owner].
    - intros k Hk Ho. rewrite fn_lookup_insert_ne; congruence.
    - intros [Ho [c' [E|E]]]; rewrite Ec in E; simplify_eq. split; cbn [goto set_owner m_owner m_code].
      + rewrite fn_lookup_insert_ne; congruence.
      + rewrite fn_lookup_insert. eauto. }
  apply (inv_move s i c); [done|done| | | |].
  - apply shape_acquire; [rewrite <- Ec; apply Hi|done].
  - intros j Hj. split; try (done || by intros _). intros x. cbn [s' goto set_owner m_owner].
    destruct (decide (x = l)) as [->|Hx]; [rewrite fn_lookup_insert, Hl|by rewrite fn_lookup_insert_ne]. split; congruence.
  - intros k Hk. by apply Hsafe, (inv_safe s Hi k).
  - intros x. cbn [s' goto set_owner m_owner]. destruct (decide (x = l)) as [->|Hx].
    + by rewrite fn_lookup_insert.
    + rewrite fn_lookup_insert_ne by done. by left.
Qed.

Lemma inv_free_lock s i l h c : inv s -> ~ waker s i -> m_owner s l = Some (Thread i) ->
  h = None \/ (h = Some Scheduler /\ l = L_ptable) -> let s' := goto i c (set_owner l h s) in shape s' i c -> inv s'.
Proof.
  intros Hi Hw Hl Hh s' Hs. assert (safe s -> safe s') as Hsafe.
  { apply safe_goto; try done; cbn [set_owner m_owner]. intros k Hk Ho. rewrite fn_lookup_insert_ne; congruence. }
  apply (inv_move s i c); [done|done|exact Hs| | |].
  - intros j Hj. split; try (done || by intros _). intros x. cbn [s' goto set_owner m_owner].
    destruct (decide (x = l)) as [->|Hx]; [rewrite fn_lookup_insert, Hl|by rewrite fn_lookup_insert_ne].
    split; [by destruct Hh as [->|[-> _]]|congruence].
  - intros k Hk. by apply Hsafe, (inv_safe s Hi k).
  - intros x. cbn [s' goto set_owner m_owner]. destruct (decide (x = l)) as [->|Hx].
    + rewrite fn_lookup_insert. intros ->. right. by destruct Hh as [|[]].
    + rewrite fn_lookup_insert_ne by done. by left.
Qed.

(** A step that only goes on in the code. *)
Lemma inv_goto s i c : inv s -> ~ waker s i -> shape (goto i c s) i c -> inv (goto i c s).
Proof.
  intros Hi Hw Hs. assert (safe s -> safe (goto i c s)) as Hsafe by by apply safe_goto.
  apply (inv_move s i c); [done|done|exact Hs| | |].
  - intros j Hj. split; try done; by intros _.
  - intros k Hk. by apply Hsafe, (inv_safe s Hi k).
  - by left.
Qed.

Lemma inv_update s i j f c : inv s -> m_code s i = Act (Update j f) :: c ->
  inv (goto i c (set_proc (<[j := f (m_proc s j)]> (m_proc s)) s)).
Proof.
  intros Hi Ec. set (s' := goto _ _ _). assert (safe s -> safe s') as Hsafe.
  { apply safe_goto; try done. intros Hw. by apply (not_waker s i _ _ Ec) in Hw. }
  destruct (shape_update s i j f c Ec) as (Hs & Hp & Ha & Hk); [rewrite <- Ec; apply Hi|done|].
  apply (inv_move s i c); [done|done|exact Hs| | |].
  - intros k Hne. split; try (done || congruence || by intros _); by apply Hk.
  - intros k Hs'. apply Hsafe. destruct (Ha k Hs') as [H|H]; [by apply (inv_safe s Hi k)|done].
  - by left.
Qed.

Lemma wake_parked p : parked_ok p -> parked_ok (wake (Some ch) p).
Proof.
  intros [[H1 H2]|H]; right; [by rewrite wake_sleeping|]. rewrite wake_other; [done|]. intros [? _]. congruence.
Qed.

Lemma inv_wakeup s i x c : inv s -> m_code s i = Act (Wakeup1 x) :: c ->
  inv (goto i c (set_proc (fun j => wake x (m_proc s j)) s)).
Proof.
  intros Hi Ec. destruct (shape_wakeup s i x c) as (Hs & -> & Hp); [rewrite <- Ec; apply Hi|].
  apply (inv_move s i c); [done|done|exact Hs| | |].
  - intros j Hj. split; try (done || congruence); by apply wake_parked.
  - intros k [H1 H2]. cbn [goto set_proc m_proc] in H1, H2. exfalso.
    destruct (decide (p_state (m_proc s k) = SLEEPING /\ p_chan (m_proc s k) = Some ch)) as [[E1 E2]|E].
    + by rewrite wake_sleeping in H1.
    + rewrite wake_other in H1, H2 by done. tauto.
  - by left.
Qed.

Lemma inv_change s i f c : inv s -> m_code s i = Change f :: c -> inv (goto i c (set_data (f (m_data s)) s)).
Proof.
  intros Hi Ec. destruct (shape_change s i f c) as (Hs & Hl & Hw); [rewrite <- Ec; apply Hi|].
  assert (safe s -> safe (goto i c (set_data (f (m_data s)) s))) as Hsafe.
  { intros [Hc|[k [Hk Hck]]].
    - destruct Hw as [Hw|Hw]; [congruence|]. right. by exists i.
    - assert (k = i) as -> by congruence. destruct Hck as [c' [E|E]]; congruence. }
  apply (inv_move s i c); [done|done|exact Hs| | |].
  - intros j Hj. split; try (done || congruence || by intros _).
  - intros k Hk. by apply Hsafe, (inv_safe s Hi k).
  - by left.
Qed.

Lemma inv_tstep i s s' : inv s -> tstep i s s' -> inv s'.
Proof.
  intros Hi Hs. destruct Hs as [l c Ec Hl|l c Ec Hl|j f c Ec|x c Ec|c Ec Hl|c Ec Hc|c Ec Hc|f c Ec].
  - by apply inv_acquire.
  - apply inv_free_lock; try done; [by apply (not_waker s i _ c Ec)|by left|]. apply shape_release. rewrite <- Ec. apply Hi.
  - by apply inv_update.
  - by apply inv_wakeup.
  - apply inv_free_lock; try done; [by apply (not_waker s i _ c Ec)|by right|]. apply shape_sched. rewrite <- Ec. apply Hi.
  - apply inv_goto; [done|by apply (not_waker s i _ c Ec)|]. apply shape_wait; [rewrite <- Ec; apply Hi|done].
  - apply inv_goto; [done|by apply (not_waker s i _ c Ec)|]. apply shape_sleep; [rewrite <- Ec; apply Hi|done].
  - by apply inv_change.
Qed.

(** The scheduler takes the lock or gives it back. *)
Lemma inv_scheduler s h : inv s -> (forall j, m_owner s L_ptable <> Some (Thread j)) -> (forall j, h <> Some (Thread j)) ->
  inv (set_owner L_ptable h s).
Proof.
  intros Hi Hn Hh. set (s' := set_owner _ _ _).
  assert (forall x j, m_owner s' x = Some (Thread j) <-> m_owner s x = Some (Thread j)) as Ho.
  { intros x j. cbn [s' set_owner m_owner]. destruct (decide (x = L_ptable)) as [->|Hx].
    - rewrite fn_lookup_insert. split; [by intros ?%Hh|by intros ?%Hn].
    - by rewrite fn_lookup_insert_ne. }
  assert (safe s -> safe s') as Hsafe.
  { intros [Hc|[k [Hk Hck]]]; [by left|]. right. exists k. split; [by apply Ho|done]. }
  split.
  - intros j. apply (shape_stable s); [|apply Hi]. split; done.
  - intros k Hk. by apply Hsafe, (inv_safe s Hi k).
  - intros x. cbn [s' set_owner m_owner]. destruct (decide (x = L_ptable)) as [->|Hx]; [done|].
    rewrite fn_lookup_insert_ne by done. apply Hi.
Qed.

Lemma shape_parked s i c : shape s i (Parked :: c) -> exists f js, c = woken_rest i f js /\ holds s i [] /\ parked_ok (m_proc s i).
Proof.
  intros H. points H E.
  - by apply jobs_head in E as (js' & [(E & _)|(E & _)]).
  - by exists f, js.
Qed.

Lemma inv_dispatch s i c : inv s -> m_owner s L_ptable = Some Scheduler -> m_code s i = Parked :: c ->
  inv (goto i c (set_owner L_ptable (Some (Thread i))
        (set_proc (<[i := set_p_state RUNNING (m_proc s i)]> (m_proc s)) s))).
Proof.
  intros Hi Hl Ec. destruct (shape_parked s i c) as (f & js & -> & Hh & _); [rewrite <- Ec; apply Hi|].
  set (s' := goto _ _ _). assert (safe s -> safe s') as Hsafe.
  { apply safe_goto; try done; cbn [set_owner set_proc m_owner].
    - intros k Hk Ho. rewrite fn_lookup_insert_ne; [done|]. congruence.
    - intros Hw. by apply (not_waker s i _ _ Ec) in Hw. }
  apply (inv_move s i (woken_rest i f js)); [done|done| | | |].
  - apply sh_woken. by apply (holds_acquire (set_proc _ s) i L_ptable).
  - intros j Hj. split; try (done || by intros _).
    + intros x. cbn [s' goto set_owner set_proc m_owner]. destruct (decide (x = L_ptable)) as [->|Hx];
        [rewrite fn_lookup_insert, Hl|by rewrite fn_lookup_insert_ne]. split; congruence.
    + congruence.
    + cbn [s' goto set_owner set_proc m_proc]. by rewrite fn_lookup_insert_ne.
  - intros k [H1 H2]. apply Hsafe, (inv_safe s Hi k). cbn [s' goto set_owner set_proc m_proc] in H1, H2.
    destruct (decide (k = i)) as [->|Hk]; [by rewrite fn_lookup_insert in H1|].
    rewrite fn_lookup_insert_ne in H1, H2 by done. done.
  - intros x. cbn [s' goto set_owner set_proc m_owner]. destruct (decide (x = L_ptable)) as [->|Hx]; [by right|].
    rewrite fn_lookup_insert_ne by done. by left.
Qed.

Lemma inv_any_step s s' : inv s -> step s s' -> inv s'.
Proof.
  intros Hi [i s'' Hs|Hl|Hl|i c Hl Ec Hr]; [by eapply inv_tstep| | |by apply inv_dispatch].
  - apply inv_scheduler; [done|by rewrite Hl|done].
  - apply inv_scheduler; [done|by rewrite Hl|done].
Qed.

Lemma inv_start t jobs d : (forall i, ~ (p_state (t i) = SLEEPING /\ p_chan (t i) = Some ch)) -> inv (start t jobs d).
Proof.
  intros Ht. split; [|by intros i Hs; destruct (Ht i)|done].
  intros i. apply (sh_idle _ _ (jobs i)). intros l. cbn. split; [done|by intros ?%not_elem_of_nil].
Qed.

Lemma inv_reachable t jobs d s :
  (forall i, ~ (p_state (t i) = SLEEPING /\ p_chan (t i) = Some ch)) -> rtc step (start t jobs d) s -> inv s.
Proof.
  intros Ht Hr. pose proof (inv_start t jobs d Ht) as H0. revert H0. induction Hr; eauto using inv_any_step.
Qed.

(** *** What the invariant excludes *)

Lemma acquire_holds s i l c : shape s i (Act (Acquire l) :: c) ->
  holds s i [] \/ (lk <> L_ptable /\ holds s i [lk] /\ l = L_ptable).
Proof. intros H. points H E; auto. Qed.

Lemma release_holds s i l c : shape s i (Act (Release l) :: c) -> m_owner s l = Some (Thread i).
Proof.
  intros H. points H E; try (eapply holds_in; [done|set_solver]).
  by apply jobs_head in E as (js' & [(E & _)|(E & _)]).
Qed.

Lemma sched_holds s i c : shape s i (Act Sched :: c) -> holds s i [L_ptable] /\ asleep_on s i.
Proof.
  intros H. points H E; [|done]. by apply jobs_head in E as (js' & [(E & _)|(E & _)]).
Qed.

Lemma inv_no_panic s i : inv s -> ~ panics s i.
Proof.
  intros Hi. pose proof (inv_shape s Hi i) as Hs. unfold panics. destruct (m_code s i) as [|[[l|l|j f| |x]| |f|] c]; try (by intros []).
  - apply acquire_holds in Hs as [Hh|(Hne & Hh & ->)]; rewrite (Hh _); set_solver.
  - apply release_holds in Hs. tauto.
  - apply sched_holds in Hs as [Hh [Hs _]]. rewrite (Hh _). intros [H|[(l & Hl & Ho)|H]]; [set_solver| |congruence].
    apply Hh in Ho. set_solver.
Qed.

(** A process that cannot go on has finished, is off the processor, or waits
    for a lock. *)
Lemma blocked s i : inv s -> (forall s', ~ tstep i s s') ->
  m_code s i = [] \/ (exists c, m_code s i = Parked :: c) \/
  exists l c, m_code s i = Act (Acquire l) :: c /\ m_owner s l <> None.
Proof.
  intros Hi Hn. pose proof (inv_shape s Hi i) as Hs. destruct (m_code s i) as [|[[l|l|j f| |x]| |f|] c] eqn:Ec; [by left|..].
  - right. right. exists l, c. split; [done|]. intros Hl. by eapply Hn, t_acquire.
  - exfalso. eapply Hn, t_release; [done|]. by eapply release_holds.
  - exfalso. by eapply Hn, t_update.
  - exfalso. eapply Hn, t_sched; [done|]. apply sched_holds in Hs as [Hh _]. eapply holds_in; [done|set_solver].
  - exfalso. by eapply Hn, t_wakeup.
  - exfalso. destruct (cond (m_data s)) eqn:E; [by eapply Hn, t_wait|by eapply Hn, t_sleep].
  - exfalso. by eapply Hn, t_change.
  - right. left. by exists c.
Qed.

Lemma nil_holds s i : shape s i [] -> holds s i [].
Proof. intros H. points H E; done. Qed.

(** A process that has a lock and cannot go on has just [lk], and waits for
    ptable.lock. *)
Lemma holder_blocked s i l : inv s -> (forall s', ~ tstep i s s') -> m_owner s l = Some (Thread i) ->
  l = lk /\ lk <> L_ptable /\ m_owner s L_ptable <> None.
Proof.
  intros Hi Hn Hl. pose proof (inv_shape s Hi i) as Hs.
  destruct (blocked s i Hi Hn) as [E|[[c E]|(l' & c & E & Hl')]]; rewrite E in Hs.
  - apply nil_holds in Hs. apply Hs in Hl. set_solver.
  - apply shape_parked in Hs as (f & js & _ & Hs & _). apply Hs in Hl. set_solver.
  - apply acquire_holds in Hs as [Hh|(Hne & Hh & ->)]; apply Hh in Hl; set_solver.
Qed.

Lemma quiescent_free s l : inv s -> quiescent s -> m_owner s l = None.
Proof.
  intros Hi (Hn & Hns & _). assert (m_owner s L_ptable = None) as Hp.
  { destruct (m_owner s L_ptable) as [[k|]|] eqn:E; [|done..].
    destruct (holder_blocked s k L_ptable Hi (Hn k) E) as (<- & Hne & _). done. }
  destruct (m_owner s l) as [[k|]|] eqn:E; [|by rewrite (inv_sched s Hi l E) in E; congruence|done].
  destruct (holder_blocked s k l Hi (Hn k) E) as (_ & _ & H). done.
Qed.

Lemma quiescent_done s i : inv s -> quiescent s ->
  m_code s i = [] \/ (asleep_on s i /\ cond (m_data s) = false).
Proof.
  intros Hi Hq. pose proof Hq as (Hn & _ & Hr). pose proof (inv_shape s Hi i) as Hs.
  destruct (blocked s i Hi (Hn i)) as [E|[[c E]|(l & c & E & Hl)]]; [by left| |by rewrite quiescent_free in Hl].
  right. rewrite E in Hs. apply shape_parked in Hs as (f & js & -> & _ & [Ha|Ha]); [|by destruct (Hr i _ E)].
  split; [done|]. destruct (inv_safe s Hi i Ha) as [|[k [Hk _]]]; [done|]. by rewrite quiescent_free in Hk.
Qed.

(** ** The theorem *)

(** C9: No wakeup is lost.  Let any number of processes wait for a condition
    with [while(!cond) sleep(ch, lk)] under the lock [lk], change its data under
    [lk] and call [wakeup(ch)], and kill each other, on any number of
    processors and interleaved in any way.  Whenever a process is asleep on
    [ch], its condition is false, or the process that made it true still holds
    [lk] and is about to call [wakeup1(ch)].  None of them panics in
    [acquire], [release] or [sched], and there is no deadlock: when nothing can
    go on, every process has finished or is asleep on [ch] with its condition
    false.  This holds for ptable.lock as [lk] too, as in [wait]. *)
Theorem no_lost_wakeup t jobs d s :
  (forall i, ~ (p_state (t i) = SLEEPING /\ p_chan (t i) = Some ch)) -> rtc step (start t jobs d) s ->
  (forall i, asleep_on s i -> cond (m_data s) = false \/ exists j, waker s j) /\
  (forall i, ~ panics s i) /\
  (quiescent s -> forall i, m_code s i = [] \/ (asleep_on s i /\ cond (m_data s) = false)).
Proof.
  intros Ht Hr. pose proof (inv_reachable t jobs d s Ht Hr) as Hi. split_and!.
  - apply Hi.
  - intros i. by apply inv_no_panic.
  - intros Hq i. by apply quiescent_done.
Qed.

End wakeup.

Arguments start {D} ch lk t jobs d.

(** ** Witness *)

(** Process 0 waits for a flag and process 1 sets it.  Process 0 finds it
    unset and goes to sleep. *)
Definition demo_jobs (i : nat) : list (job (D := bool)) :=
  match i with 0%nat => [J_wait id] | 1%nat => [J_notify (fun _ => true)] | _ => [] end.

Lemma no_lost_wakeup_witness :
  exists s, rtc (step id Ch_log L_log) (start Ch_log L_log (fun _ => proc_zero) demo_jobs false) s /\
    asleep_on Ch_log s 0 /\ (id (m_data s) = false \/ exists j, waker Ch_log L_log s j).
Proof.
  eexists. match goal with |- ?R /\ ?A /\ _ => assert (R /\ A) as [HR HA] end.
  - split.
    + do 7 (eapply rtc_l; [eapply (s_thread _ _ _ _ 0); econstructor; reflexivity|]). apply rtc_refl.
    + split; reflexivity.
  - split; [exact HR|]. split; [exact HA|].
    apply (no_lost_wakeup id Ch_log L_log (fun _ => proc_zero) demo_jobs false) in HR as [H _].
    + exact (H 0%nat HA).
    + intros i [H _]. discriminate H.
Defined.
