(* ===== verification/Cprintf.v ===== *)
(** * Console output (console.c: printint, cprintf, cgaputc, consputc)

    A character is its code.  The serial port is the list of bytes sent to
    it; the screen is the array of character cells, whose cursor is kept in
    registers of the display controller. *)

From Stdlib Require Import Ascii String.
From stdpp Require Import base numbers list option strings gmap.
From S2P Require Import Prelude Kernel Fields Spinlock Proc.

Definition BACKSPACE : Z := 0x100.

(** The characters of a string literal. *)
Fixpoint chars (s : string) : list Z :=
  match s with
  | EmptyString => []
  | String.String c s' => Z.of_nat (nat_of_ascii c) :: chars s'
  end.

(** ** The code *)

(** [digits[x % base]] *)
Definition digit (d : Z) : Z := if d <? 10 then 48 + d else 97 + (d - 10).

(** The loop that fills [buf], least significant digit first. *)
Fixpoint put_digits (fuel : nat) (base x : Z) : list Z :=
  match fuel with
  | O => []
  | S fuel' => digit (x mod base) :: (if x / base =? 0 then [] else put_digits fuel' base (x / base))
  end.

(** The characters [printint] gives to [consputc]; [buf] has 16 entries. *)
Definition printint (xx base : Z) (sign : bool) : list Z :=
  let neg := sign && (xx <? 0) in
  let x := u32 (if neg then - xx else xx) in
  rev (put_digits 16 base x ++ if neg then [45] else []).

(** An argument of [cprintf]: a word, or a pointer to a string. *)
Inductive fmtarg := FInt (x : Z) | FStr (s : list Z) | FNull.

Definition arg_word (a : option fmtarg) : Z := match a with Some (FInt x) => x | _ => 0 end.
Definition arg_string (a : option fmtarg) : list Z :=
  match a with Some (FStr s) => s | _ => chars "(null)" end.

(** The characters [cprintf] gives to [consputc]. *)
Fixpoint format (fmt : list Z) (args : list fmtarg) : list Z :=
  match fmt with
  | [] => []
  | c :: fmt1 =>
      if negb (c =? 37) then c :: format fmt1 args else
      match fmt1 with
      | [] => []
      | d :: fmt2 =>
          if d =? 100 then printint (i32 (arg_word (head args))) 10 true ++ format fmt2 (tail args)
          else if (d =? 120) || (d =? 112) then
            printint (i32 (arg_word (head args))) 16 false ++ format fmt2 (tail args)
          else if d =? 115 then arg_string (head args) ++ format fmt2 (tail args)
          else if d =? 37 then 37 :: format fmt2 args
          else 37 :: d :: format fmt2 args
      end
  end.

(** Moving lines 1-23 of the screen up by one. *)
Definition scroll (crt : Z -> Z) (pos : Z) : Z -> Z :=
  fun i => if (pos <=? i) && (i <? 24 * 80) then 0
           else if (0 <=? i) && (i <? 23 * 80) then crt (i + 80) else crt i.

Definition put_cell (crt : Z -> Z) (pos v : Z) : Z -> Z := fun i => if i =? pos then v else crt i.

Definition cgaputc (c : Z) : K unit :=
  pos <- gets k_cursor ;;
  pos <- (if c =? 10 then ret (pos + (80 - Z.rem pos 80))
          else if c =? BACKSPACE then ret (if 0 <? pos then pos - 1 else pos)
          else modify (fun s => set_k_crt (put_cell (k_crt s) pos (Z.lor (Z.land c 0xff) 0x0700)) s) ;;
               ret (pos + 1)) ;;
  if (pos <? 0) || (25 * 80 <? pos) then panic "pos under/overflow" else
  pos <- (if 24 <=? Z.quot pos 80 then
            modify (fun s => set_k_crt (scroll (k_crt s) (pos - 80)) s) ;; ret (pos - 80)
          else ret pos) ;;
  modify (set_k_cursor pos) ;;
  modify (fun s => set_k_crt (put_cell (k_crt s) pos (Z.lor 32 0x0700)) s).

Definition uartputc (c : Z) : K unit :=
  modify (fun s => if k_uart s then set_k_out (k_out s ++ [u8 c]) s else s).

Definition consputc (c : Z) : K unit :=
  (if c =? BACKSPACE then uartputc 8 ;; uartputc 32 ;; uartputc 8 else uartputc c) ;;
  cgaputc c.

Definition cprintf (fmt : string) (args : list fmtarg) : K unit :=
  locking <- gets k_cons_locking ;;
  when locking (acquire L_cons) ;;
  foreach (format (chars fmt) args) consputc ;;
  when locking (release L_cons).

(** ** The screen *)

(** The cursor is on one of the first 24 lines. *)
Definition cursor_ok (s : kernel) : Prop := 0 <= k_cursor s < 24 * 80.

(** Only the screen and the serial port have changed. *)
Definition screen (s s' : kernel) : Prop :=
  exists o c p, s' = set_k_out o (set_k_crt c (set_k_cursor p s)).
Definition printed (s s' : kernel) : Prop := screen s s' /\ cursor_ok s'.

Lemma screen_refl s : screen s s.
Proof. exists (k_out s), (k_crt s), (k_cursor s). by destruct s. Qed.
Lemma screen_crt s s' v : screen s s' -> screen s (set_k_crt v s').
Proof. intros (o & c & p & ->). by exists o, v, p. Qed.
Lemma screen_cursor s s' v : screen s s' -> screen s (set_k_cursor v s').
Proof. intros (o & c & p & ->). by exists o, c, v. Qed.
Lemma screen_out s s' v : screen s s' -> screen s (set_k_out v s').
Proof. intros (o & c & p & ->). by exists v, c, p. Qed.
#[local] Hint Resolve screen_refl screen_crt screen_cursor screen_out : core.

Lemma screen_trans s1 s2 s3 : screen s1 s2 -> screen s2 s3 -> screen s1 s3.
Proof. intros H (o & c & p & ->). auto. Qed.

Lemma printed_trans s1 s2 s3 : printed s1 s2 -> printed s2 s3 -> printed s1 s3.
Proof. intros [H1 _] [H2 H]. split; [by eapply screen_trans|done]. Qed.

(** The part of [cgaputc] after the character is placed. *)
Lemma cgaputc_tail pos s s1 :
  0 <= pos <= 24 * 80 -> screen s s1 ->
  wp (if (pos <? 0) || (25 * 80 <? pos) then panic "pos under/overflow" else
      pos <- (if 24 <=? Z.quot pos 80 then
                modify (fun s => set_k_crt (scroll (k_crt s) (pos - 80)) s) ;; ret (pos - 80)
              else ret pos) ;;
      modify (set_k_cursor pos) ;;
      modify (fun s => set_k_crt (put_cell (k_crt s) pos (Z.lor 32 0x0700)) s)) s1
    (fun _ s' => printed s s' /\ k_out s' = k_out s1).
Proof.
  intros Hp Hs. destruct (Z.ltb_spec pos 0); [lia|]. destruct (Z.ltb_spec (25 * 80) pos); [lia|].
  cbn [orb]. unfold wp. krun. rewrite Z.quot_div_nonneg by lia.
  destruct (Z.leb_spec 24 (pos / 80)); krun; (split; [split; [auto|]|done]); unfold cursor_ok; kproj;
    Z.div_mod_to_equations; lia.
Qed.

Lemma cgaputc_run c s : cursor_ok s -> wp (cgaputc c) s (fun _ s' => printed s s' /\ k_out s' = k_out s).
Proof.
  intros [H1 H2]. unfold cgaputc. apply wp_bind. eapply wp_run; [reflexivity|]. apply wp_bind.
  destruct (Z.eqb_spec c 10); [|destruct (Z.eqb_spec c BACKSPACE)]; eapply wp_run; try reflexivity.
  - apply cgaputc_tail; auto. rewrite Z.rem_mod_nonneg by lia. Z.div_mod_to_equations. lia.
  - apply cgaputc_tail; auto. zcases.
  - eapply wp_mono; [apply (cgaputc_tail _ s); auto; lia|]. done.
Qed.

(** What [consputc] sends to the serial port. *)
Definition uart_bytes (c : Z) : list Z := if c =? BACKSPACE then [8; 32; 8] else [u8 c].

Lemma uartputc_run c s :
  uartputc c s = Ret tt (if k_uart s then set_k_out (k_out s ++ [u8 c]) s else s).
Proof. done. Qed.

Lemma consputc_spec c s :
  cursor_ok s ->
  wp (consputc c) s (fun _ s' => printed s s' /\
    k_out s' = if k_uart s then k_out s ++ uart_bytes c else k_out s).
Proof.
  intros Hs. unfold consputc, uart_bytes. apply wp_bind.
  assert (forall s1, screen s s1 -> k_cursor s1 = k_cursor s ->
    wp (cgaputc c) s1 (fun _ s' => printed s s' /\ k_out s' = k_out s1)) as G.
  { intros s1 Hs1 E. eapply wp_mono; [apply cgaputc_run; unfold cursor_ok; by rewrite E|].
    intros _ s' [[H1 H2] H3]. split; [|done]. split; [by eapply screen_trans|done]. }
  destruct (c =? BACKSPACE).
  - eapply wp_run; [unfold uartputc; krun; reflexivity|]. destruct (k_uart s) eqn:E; kproj; rewrite ?E; kproj; rewrite ?E.
    + eapply wp_mono; [apply G; auto|]. intros _ s' [H1 ->]. split; [done|]. kproj. by rewrite <- !app_assoc.
    + apply G; auto.
  - eapply wp_run; [reflexivity|]. destruct (k_uart s) eqn:E; apply G; auto.
Qed.

Lemma puts_spec l s :
  cursor_ok s ->
  wp (foreach l consputc) s (fun _ s' => printed s s' /\
    k_out s' = if k_uart s then k_out s ++ concat (uart_bytes <$> l) else k_out s).
Proof.
  revert s. induction l as [|c l IH]; intros s Hs; cbn [foreach].
  { apply wp_ret. split; [split; auto|]. rewrite app_nil_r. by destruct (k_uart s). }
  apply wp_bind. eapply wp_mono; [by apply consputc_spec|]. intros _ s1 [Hp1 E1].
  eapply wp_mono; [apply IH, Hp1|]. intros _ s2 [Hp2 E2]. split; [by eapply printed_trans|].
  destruct Hp1 as [(o & cr & p & ->) _]. kproj_in E2. kproj_in E1. rewrite E2, E1. cbn [fmap list_fmap concat].
  destruct (k_uart s); [|done]. by rewrite <- app_assoc.
Qed.

Lemma screen_held h s s' : screen (set_k_held h s) s' -> screen s (set_k_held (k_held s) s').
Proof. intros (o & c & p & ->). exists o, c, p. by destruct s. Qed.

(** Without the lock, which is how [panic] prints. *)
Lemma cprintf_unlocked fmt args s :
  cursor_ok s -> k_cons_locking s = false ->
  wp (cprintf fmt args) s (fun _ s' => printed s s' /\
    k_out s' = if k_uart s then k_out s ++ concat (uart_bytes <$> format (chars fmt) args) else k_out s).
Proof.
  intros Hs Hl. unfold cprintf, when. apply wp_bind. eapply wp_run; [reflexivity|]. rewrite Hl.
  apply wp_bind. eapply wp_run; [reflexivity|]. apply wp_bind.
  eapply wp_mono; [by apply puts_spec|]. intros ? s1 H. by apply wp_ret.
Qed.

Lemma cprintf_spec fmt args s :
  cursor_ok s -> L_cons ∉ k_held s ->
  wp (cprintf fmt args) s (fun _ s' => printed s s' /\
    k_out s' = if k_uart s then k_out s ++ concat (uart_bytes <$> format (chars fmt) args) else k_out s).
Proof.
  intros Hs Hh. destruct (k_cons_locking s) eqn:Hl; [|by apply cprintf_unlocked].
  unfold cprintf, when. apply wp_bind. eapply wp_run; [reflexivity|]. rewrite Hl.
  apply wp_bind. eapply wp_run; [by apply acquire_run|]. apply wp_bind.
  eapply wp_mono; [by apply puts_spec|]. intros _ s1 [[Hsc Hc] Ho]. eapply wp_run.
  - apply (release_head _ (k_held s)); [done|]. by destruct Hsc as (o & c & p & ->).
  - split; [split; [by eapply screen_held|exact Hc]|exact Ho].
Qed.

(** ** Printing numbers *)

(** The value of a digit character, of a digit string (most significant digit
    first), and of a number with an optional minus sign. *)
Definition digit_value (c : Z) : Z := if c <? 97 then c - 48 else c - 97 + 10.
Definition digits_value (base : Z) (l : list Z) : Z := foldl (fun v c => v * base + digit_value c) 0 l.
Definition number_value (base : Z) (l : list Z) : Z :=
  match l with
  | c :: l' => if c =? 45 then - digits_value base l' else digits_value base l
  | [] => 0
  end.

Lemma digit_value_digit d : 0 <= d < 16 -> digit_value (digit d) = d.
Proof. intros H. unfold digit_value, digit. zcases. Qed.

Lemma digit_not_minus d : 0 <= d -> digit d <> 45.
Proof. intros H. unfold digit. zcases. Qed.

Lemma digits_value_snoc base l c :
  digits_value base (l ++ [c]) = digits_value base l * base + digit_value c.
Proof. unfold digits_value. by rewrite foldl_app. Qed.

Lemma put_digits_value fuel base x :
  2 <= base <= 16 -> 0 <= x < base ^ Z.of_nat fuel ->
  digits_value base (rev (put_digits fuel base x)) = x.
Proof.
  intros Hb. revert x. induction fuel as [|fuel IH]; intros x Hx; cbn [put_digits].
  { simpl in Hx. unfold digits_value. simpl. lia. }
  rewrite Nat2Z.inj_succ, Z.pow_succ_r in Hx by lia.
  pose proof (Z.mod_pos_bound x base). pose proof (Z.div_mod x base).
  cbn [rev]. rewrite digits_value_snoc, digit_value_digit by lia.
  destruct (Z.eqb_spec (x / base) 0) as [E|E].
  - unfold digits_value. simpl. lia.
  - rewrite IH; [lia|]. split; [apply Z.div_pos; lia|]. apply Z.div_lt_upper_bound; lia.
Qed.

Lemma put_digits_head fuel base x :
  2 <= base -> 0 <= x -> exists d l, 0 <= d /\ rev (put_digits (S fuel) base x) = digit d :: l.
Proof.
  intros Hb. revert x. induction fuel as [|fuel IH]; intros x Hx.
  - cbn [put_digits]. exists (x mod base), []. split; [apply Z.mod_pos_bound; lia|]. by case_match.
  - change (put_digits (S (S fuel)) base x) with
      (digit (x mod base) :: (if x / base =? 0 then [] else put_digits (S fuel) base (x / base))).
    cbn [rev]. destruct (x / base =? 0).
    + exists (x mod base), []. split; [apply Z.mod_pos_bound; lia|done].
    + destruct (IH (x / base)) as (d & l & Hd & ->); [apply Z.div_pos; lia|].
      exists d, (l ++ [digit (x mod base)]). done.
Qed.

Lemma length_put_digits fuel base x n :
  2 <= base -> 0 <= x < base ^ Z.of_nat (S n) -> (length (put_digits fuel base x) <= S n)%nat.
Proof.
  intros Hb. revert x n. induction fuel as [|fuel IH]; intros x n Hx; cbn [put_digits length]; [lia|].
  rewrite Nat2Z.inj_succ, Z.pow_succ_r in Hx by lia.
  destruct (Z.eqb_spec (x / base) 0) as [E|E]; [simpl; lia|].
  assert (0 <= x / base < base ^ Z.of_nat n) as Hq.
  { split; [apply Z.div_pos; lia|]. apply Z.div_lt_upper_bound; lia. }
  destruct n as [|n]; [simpl in Hq; lia|]. specialize (IH _ n Hq). lia.
Qed.

Lemma number_value_digits base x fuel :
  2 <= base <= 16 -> 0 <= x < base ^ Z.of_nat (S fuel) ->
  number_value base (rev (put_digits (S fuel) base x)) = x.
Proof.
  intros Hb Hx. pose proof (put_digits_value (S fuel) base x Hb Hx) as Hv.
  destruct (put_digits_head fuel base x) as (d & l & Hd & E); [lia|lia|].
  rewrite E in *. unfold number_value. destruct (Z.eqb_spec (digit d) 45) as [Hm|]; [|done].
  by apply digit_not_minus in Hm.
Qed.

(** [printint] prints numbers faithfully.  For every 32-bit integer, the
    decimal digits it prints, with their sign, read back as that integer,
    and the hexadecimal digits read back as its unsigned value; neither
    overruns the 16-byte buffer. *)
Theorem printint_correct xx :
  - 2 ^ 31 <= xx < 2 ^ 31 ->
  number_value 10 (printint xx 10 true) = xx /\
  number_value 16 (printint xx 16 false) = u32 xx /\
  (length (printint xx 10 true) <= 16)%nat /\ (length (printint xx 16 false) <= 16)%nat.
Proof.
  intros Hx. unfold printint. cbn [andb]. rewrite app_nil_r.
  pose proof (u32_range xx) as Hr. rewrite !length_rev. split_and!.
  - destruct (Z.ltb_spec xx 0).
    + rewrite rev_app_distr. cbn [rev app]. unfold number_value. rewrite Z.eqb_refl.
      rewrite put_digits_value; [rewrite u32_small; lia|lia|]. pose proof (u32_range (- xx)). lia.
    + rewrite app_nil_r. rewrite number_value_digits by lia. apply u32_small. lia.
  - apply number_value_digits; lia.
  - rewrite length_app. set (x := u32 _).
    assert (length (put_digits 16 10 x) <= 10)%nat as Hl.
    { apply (length_put_digits 16 10 x 9); [lia|]. change (10 ^ Z.of_nat 10) with 10000000000.
      pose proof (u32_range (if xx <? 0 then - xx else xx)). subst x. lia. }
    destruct (xx <? 0); cbn [length]; lia.
  - apply (length_put_digits 16 16 (u32 xx) 15); [lia|]. change (16 ^ Z.of_nat 16) with (2 ^ 64). lia.
Qed.

Lemma printint_correct_witness : number_value 10 (printint (-2147483648) 10 true) = -2147483648.
Proof. apply (printint_correct (-2147483648)). lia. Defined.
