(* ===== verification/Cstring.v ===== *)
(** * Memory and strings (string.c)

    Memory is a function from addresses to bytes.  [memset], [memmove] and
    [memcmp] run on it with their loops written out; the string routines read
    their arguments through a function from offsets to characters, so that
    they apply to a string in memory and to a character array alike, and
    give the characters they store. *)

From stdpp Require Import base numbers list option strings.
From S2P Require Import Prelude Kernel Fields.

(** The characters of a [char] array as a string: those before the first NUL. *)
Fixpoint until_nul (l : list Z) : list Z :=
  match l with
  | [] => []
  | c :: l' => if c =? 0 then [] else c :: until_nul l'
  end.

(** ** Memory *)

Definition memory := Z -> Z.

Definition upd (m : memory) (a v : Z) : memory := fun x => if x =? a then v else m x.

(** The 32-bit word at [a], and the store of one. *)
Definition load32 (m : memory) (a : Z) : Z :=
  le_decode [m a; m (a + 1); m (a + 2); m (a + 3)].
Definition store32 (m : memory) (a w : Z) : memory :=
  upd (upd (upd (upd m a (w mod 256)) (a + 1) (w / 256 mod 256))
    (a + 2) (w / 256 / 256 mod 256)) (a + 3) (w / 256 / 256 / 256 mod 256).

(** The 16-bit word at [a]. *)
Definition load16 (m : memory) (a : Z) : Z := le_decode [m a; m (a + 1)].
Definition store16 (m : memory) (a w : Z) : memory := upd (upd m a (w mod 256)) (a + 1) (w / 256 mod 256).

(** Storing the bytes [l] at [a], and reading [n] bytes. *)
Fixpoint write_bytes (m : memory) (a : Z) (l : list Z) : memory :=
  match l with
  | [] => m
  | b :: l' => write_bytes (upd m a b) (a + 1) l'
  end.
Definition read_bytes (m : memory) (a : Z) (n : nat) : list Z := (fun i => m (a + Z.of_nat i)) <$> seq 0 n.

(** ** string.c *)

(** The string instructions of x86.h: [rep stosb], [rep stosl]. *)
Fixpoint stosb (m : memory) (addr data : Z) (cnt : nat) : memory :=
  match cnt with
  | O => m
  | S cnt' => stosb (upd m addr (u8 data)) (addr + 1) data cnt'
  end.

Fixpoint stosl (m : memory) (addr data : Z) (cnt : nat) : memory :=
  match cnt with
  | O => m
  | S cnt' => stosl (store32 m addr data) (addr + 4) data cnt'
  end.

Definition memset (m : memory) (dst c n : Z) : memory :=
  if (Z.rem (i32 dst) 4 =? 0) && (n mod 4 =? 0) then
    let c := Z.land c 0xFF in
    stosl m dst (Z.lor (Z.lor (Z.lor (Z.shiftl c 24) (Z.shiftl c 16)) (Z.shiftl c 8)) c)
      (Z.to_nat (n / 4))
  else stosb m dst c (Z.to_nat n).

Fixpoint memcmp (m : memory) (s1 s2 : Z) (n : nat) : Z :=
  match n with
  | O => 0
  | S n' => if negb (m s1 =? m s2) then m s1 - m s2 else memcmp m (s1 + 1) (s2 + 1) n'
  end.

(** [*d++ = *s++], [n] times *)
Fixpoint copy_up (m : memory) (d s : Z) (n : nat) : memory :=
  match n with
  | O => m
  | S n' => copy_up (upd m d (m s)) (d + 1) (s + 1) n'
  end.

(** [*--d = *--s], [n] times *)
Fixpoint copy_down (m : memory) (d s : Z) (n : nat) : memory :=
  match n with
  | O => m
  | S n' => copy_down (upd m (d - 1) (m (s - 1))) (d - 1) (s - 1) n'
  end.

Definition memmove (m : memory) (dst src n : Z) : memory :=
  if (src <? dst) && (dst <? src + n) then copy_down m (dst + n) (src + n) (Z.to_nat n)
  else copy_up m dst src (Z.to_nat n).

(** A string: the character at each offset from the pointer. *)
Definition cstr := nat -> Z.
Definition tl_str (p : cstr) : cstr := fun i => p (S i).
Definition arr (l : list Z) : cstr := fun i => nth i l 0.
Definition at_mem (m : memory) (a : Z) : cstr := fun i => m (a + Z.of_nat i).

Fixpoint strncmp (p q : cstr) (n : nat) : Z :=
  match n with
  | O => 0
  | S n' =>
      if negb (p 0%nat =? 0) && (p 0%nat =? q 0%nat) then strncmp (tl_str p) (tl_str q) n'
      else u8 (p 0%nat) - u8 (q 0%nat)
  end.

(** The characters [strncpy] stores. *)
Fixpoint strncpy (t : cstr) (n : nat) : list Z :=
  match n with
  | O => []
  | S n' => t 0%nat :: (if t 0%nat =? 0 then replicate n' 0 else strncpy (tl_str t) n')
  end.

(** The characters [safestrcpy] stores: its loop with [k] the value of [n-1]. *)
Fixpoint safestrcpy_loop (t : cstr) (k : nat) : list Z :=
  match k with
  | O => [0]
  | S k' => t 0%nat :: (if t 0%nat =? 0 then [0] else safestrcpy_loop (tl_str t) k')
  end.

Definition safestrcpy (t : cstr) (n : Z) : list Z :=
  if n <=? 0 then [] else safestrcpy_loop t (Z.to_nat (n - 1)).

(** Storing characters [l] at the start of the array [a]. *)
Definition overlay (l a : list Z) : list Z := l ++ drop (length l) a.

Fixpoint strlen (s : cstr) (fuel : nat) : option Z :=
  match fuel with
  | O => None
  | S fuel' => if s 0%nat =? 0 then Some 0 else option_map (Z.add 1) (strlen (tl_str s) fuel')
  end.

(** ** Lemmas *)

Lemma upd_eq m a v : upd m a v a = v.
Proof. unfold upd. by rewrite Z.eqb_refl. Qed.

Lemma upd_ne m a v x : x <> a -> upd m a v x = m x.
Proof. intros H. unfold upd. by destruct (Z.eqb_spec x a). Qed.

Lemma store32_other m a w x : ~ (a <= x < a + 4) -> store32 m a w x = m x.
Proof. intros H. unfold store32. rewrite !upd_ne by lia. done. Qed.

Lemma store32_ext m m' a w x :
  a <= x < a + 4 \/ m' x = m x -> store32 m' a w x = store32 m a w x.
Proof. intros H. unfold store32, upd. zcases; simpl; (done || lia). Qed.

Lemma load32_ext m m' a : (forall x, a <= x < a + 4 -> m' x = m x) -> load32 m' a = load32 m a.
Proof. intros H. unfold load32. by rewrite !H by lia. Qed.

Lemma load32_store32_eq m a w : load32 (store32 m a w) a = u32 w.
Proof.
  unfold load32, store32.
  assert (H : [w mod 256; w / 256 mod 256; w / 256 / 256 mod 256; w / 256 / 256 / 256 mod 256]
              = le_encode 4 (u32 w)).
  { cbn [le_encode]. unfold u32. rewrite !Z.div_div by lia.
    f_equal; [|f_equal; [|f_equal; [|f_equal]]]; Z.div_mod_to_equations; lia. }
  repeat first [rewrite upd_eq | rewrite upd_ne by lia]. rewrite H.
  apply le_decode_encode. apply u32_range.
Qed.

Lemma load32_store32_ne m a b w : a + 4 <= b \/ b + 4 <= a -> load32 (store32 m a w) b = load32 m b.
Proof. intros H. unfold load32. by rewrite !store32_other by lia. Qed.

Lemma stosb_spec m addr data n a :
  stosb m addr data n a = if (addr <=? a) && (a <? addr + Z.of_nat n) then u8 data else m a.
Proof.
  revert m addr. induction n as [|n IH]; intros m addr; cbn [stosb].
  - zcases; simpl; done || lia.
  - rewrite IH. unfold upd. zcases; simpl; done || lia.
Qed.

Lemma word_of_byte c :
  0 <= c < 256 ->
  Z.lor (Z.lor (Z.lor (Z.shiftl c 24) (Z.shiftl c 16)) (Z.shiftl c 8)) c = c * 0x1010101.
Proof.
  intros H. rewrite <- (Z2Nat.id c) by lia.
  assert (Hc : (Z.to_nat c < 256)%nat) by lia. generalize dependent (Z.to_nat c). clear H. intros n Hn.
  do 256 (destruct n as [|n]; [reflexivity|]). lia.
Qed.

Lemma store32_byte m a c x :
  0 <= c < 256 -> store32 m a (c * 0x1010101) x = if (a <=? x) && (x <? a + 4) then c else m x.
Proof.
  intros H. unfold store32, upd. rewrite !Z.div_div by lia.
  zcases; simpl; try done; Z.div_mod_to_equations; lia.
Qed.

Lemma stosl_spec m addr c n a :
  0 <= c < 256 ->
  stosl m addr (c * 0x1010101) n a =
    if (addr <=? a) && (a <? addr + 4 * Z.of_nat n) then c else m a.
Proof.
  intros Hc. revert m addr. induction n as [|n IH]; intros m addr; cbn [stosl].
  - zcases; simpl; done || lia.
  - rewrite IH, store32_byte by done. zcases; simpl; done || lia.
Qed.

Lemma land_255 c : Z.land c 0xFF = u8 c.
Proof. change 0xFF with (Z.ones 8). rewrite Z.land_ones by lia. done. Qed.

Lemma memset_spec m dst c n a :
  0 <= n -> memset m dst c n a = if (dst <=? a) && (a <? dst + n) then u8 c else m a.
Proof.
  intros Hn. unfold memset. pose proof (u8_range c).
  destruct ((Z.rem (i32 dst) 4 =? 0) && (n mod 4 =? 0)) eqn:E.
  - apply andb_true_iff in E as [_ E]. rewrite land_255, word_of_byte, stosl_spec by done.
    replace (4 * Z.of_nat (Z.to_nat (n / 4))) with n; [done|].
    rewrite Z2Nat.id by (apply Z.div_pos; lia). Z.div_mod_to_equations. lia.
  - rewrite stosb_spec. by rewrite Z2Nat.id by lia.
Qed.

Lemma copy_up_spec m d s n a :
  ~ (s < d < s + Z.of_nat n) ->
  copy_up m d s n a = if (d <=? a) && (a <? d + Z.of_nat n) then m (a - d + s) else m a.
Proof.
  revert m d s. induction n as [|n IH]; intros m d s Hov; cbn [copy_up].
  - zcases; simpl; done || lia.
  - rewrite IH by lia. unfold upd. zcases; simpl; try done; try lia; f_equal; lia.
Qed.

Lemma copy_down_spec m d s n a :
  ~ (d < s < d + Z.of_nat n) -> 
  copy_down m d s n a =
    if (d - Z.of_nat n <=? a) && (a <? d) then m (a - d + s) else m a.
Proof.
  revert m d s. induction n as [|n IH]; intros m d s Hov; cbn [copy_down].
  - zcases; simpl; done || lia.
  - rewrite IH by lia. unfold upd. zcases; simpl; try done; try lia; f_equal; lia.
Qed.

Lemma memmove_spec m dst src n a :
  0 <= n ->
  memmove m dst src n a = if (dst <=? a) && (a <? dst + n) then m (a - dst + src) else m a.
Proof.
  intros Hn. unfold memmove. destruct ((src <? dst) && (dst <? src + n)) eqn:E.
  - rewrite copy_down_spec by lia. rewrite Z2Nat.id by lia.
    replace (dst + n - n) with dst by lia. zcases; simpl; try done. f_equal. lia.
  - rewrite copy_up_spec; rewrite Z2Nat.id by lia; [done|]. zcases. lia.
Qed.

(** The C strings at [p] and [q] agree on their first [n] characters. *)
Definition str_agree (p q : cstr) (n : nat) : Prop :=
  forall i, (i < n)%nat -> (forall j, (j < i)%nat -> p j <> 0) -> p i = q i.

Lemma str_agree_S p q n :
  str_agree p q (S n) <-> p 0%nat = q 0%nat /\ (p 0%nat <> 0 -> str_agree (tl_str p) (tl_str q) n).
Proof.
  split.
  - intros H. split; [apply H; lia|]. intros H0 i Hi Hj. apply (H (S i)); [lia|].
    intros [|j] ?; [done|]. apply (Hj j). lia.
  - intros [H0 H] [|i] Hi Hj; [done|]. apply H; [apply Hj; lia|lia|].
    intros j Hlt. apply (Hj (S j)). lia.
Qed.

Lemma strncmp_zero p q n :
  (forall i, is_byte (p i)) -> (forall i, is_byte (q i)) ->
  strncmp p q n = 0 <-> str_agree p q n.
Proof.
  revert p q. induction n as [|n IH]; intros p q Hp Hq.
  - split; [intros _ i Hi; lia|done].
  - rewrite str_agree_S. cbn [strncmp]. pose proof (Hp 0%nat). pose proof (Hq 0%nat). unfold is_byte in *.
    assert (Ht := IH (tl_str p) (tl_str q) (fun i => Hp (S i)) (fun i => Hq (S i))).
    rewrite !u8_small by lia.
    destruct (Z.eqb_spec (p 0%nat) 0), (Z.eqb_spec (p 0%nat) (q 0%nat)); simpl; tauto || lia.
Qed.

Lemma length_strncpy t n : length (strncpy t n) = n.
Proof.
  revert t. induction n as [|n IH]; intros t; [done|]. simpl. f_equal.
  destruct (t 0%nat =? 0); [apply length_replicate|apply IH].
Qed.

(** [strncpy] stores the string and pads with NULs: the array it fills agrees
    with the source string. *)
Lemma strncpy_agree t n : str_agree t (arr (strncpy t n)) n.
Proof.
  revert t. induction n as [|n IH]; intros t; [intros i Hi; lia|].
  apply str_agree_S. simpl. split; [done|]. intros H0.
  destruct (Z.eqb_spec (t 0%nat) 0); [done|]. apply IH.
Qed.

(** [k] characters of [t], none of them NUL, then a NUL. *)
Definition is_prefix (t : cstr) (k : nat) (l : list Z) : Prop :=
  (k < length l)%nat /\ nth k l 0 = 0 /\ forall i, (i < k)%nat -> nth i l 0 = t i /\ t i <> 0.

Lemma safestrcpy_loop_spec t k :
  (length (safestrcpy_loop t k) <= S k)%nat /\
  exists j, (j <= k)%nat /\ is_prefix t j (safestrcpy_loop t k) /\ (j = k \/ t j = 0).
Proof.
  revert t. induction k as [|k IH]; intros t; simpl.
  - split; [lia|]. exists 0%nat. split; [lia|]. split; [|by left]. split; simpl; [lia|].
    split; [done|]. lia.
  - destruct (Z.eqb_spec (t 0%nat) 0) as [E|E]; simpl.
    + split; [lia|]. exists 0%nat. split; [lia|]. split; [|by right].
      split; simpl; [lia|]. split; [done|lia].
    + destruct (IH (tl_str t)) as (Hl & j & Hj & (H1 & H2 & H3) & Hor).
      split; [lia|]. exists (S j). split; [lia|]. split.
      * split; simpl; [lia|]. split; [done|]. intros [|i] Hi; simpl; [done|]. apply (H3 i). lia.
      * destruct Hor as [->|Hor]; [by left|by right].
Qed.

Lemma strlen_spec s n fuel :
  (forall i, (i < n)%nat -> s i <> 0) -> s n = 0 -> (n < fuel)%nat -> strlen s fuel = Some (Z.of_nat n).
Proof.
  revert s fuel. induction n as [|n IH]; intros s [|fuel] Hne Hz Hf; try lia; simpl.
  - by rewrite Hz.
  - destruct (Z.eqb_spec (s 0%nat) 0) as [E|E]; [by apply Hne in E; [|lia]|].
    rewrite (IH (tl_str s)); [simpl; f_equal; lia| |done|lia].
    intros i Hi. apply (Hne (S i)). lia.
Qed.

(** ** Theorems *)

(** [memmove] copies [n] bytes as if through a buffer, whichever way source
    and destination overlap, and touches nothing outside the destination. *)
Theorem memmove_correct m dst src n :
  0 <= n ->
  (forall i, 0 <= i < n -> memmove m dst src n (dst + i) = m (src + i)) /\
  (forall a, ~ (dst <= a < dst + n) -> memmove m dst src n a = m a).
Proof.
  intros Hn. split; intros; rewrite memmove_spec by done; zcases; simpl; f_equal; lia.
Qed.

Definition demo_mem : memory := fun a => a mod 256.

Lemma memmove_correct_witness :
  memmove demo_mem 3 1 5 (3 + 4) = 5 /\ memmove demo_mem 1 3 5 (1 + 2) = 5.
Proof.
  split.
  - exact (proj1 (memmove_correct demo_mem 3 1 5 ltac:(lia)) 4 ltac:(lia)).
  - exact (proj1 (memmove_correct demo_mem 1 3 5 ltac:(lia)) 2 ltac:(lia)).
Defined.

(** The word-at-a-time path of [memset] (taken for an aligned address and a
    length that is a multiple of 4) and the byte-at-a-time path store the
    same bytes: the low byte of [c] in the [n] bytes at [dst], nothing else. *)
Theorem memset_paths_agree m dst c n a :
  0 <= n ->
  memset m dst c n a = stosb m dst c (Z.to_nat n) a /\
  memset m dst c n a = if (dst <=? a) && (a <? dst + n) then u8 c else m a.
Proof.
  intros Hn. rewrite stosb_spec, memset_spec, Z2Nat.id by done. done.
Qed.

Lemma memset_paths_agree_witness :
  memset demo_mem 4096 0x1AB 4096 5000 = stosb demo_mem 4096 0x1AB (Z.to_nat 4096) 5000 /\
  memset demo_mem 4096 0x1AB 4096 5000 = 0xAB.
Proof. exact (memset_paths_agree demo_mem 4096 0x1AB 4096 5000 ltac:(lia)). Defined.

(** [safestrcpy] into an array of [n > 0] characters stores at most [n]
    characters and always leaves a NUL-terminated string: the longest prefix
    of the source that fits with its terminator. *)
Theorem safestrcpy_correct t n :
  0 < n ->
  Z.of_nat (length (safestrcpy t n)) <= n /\
  exists k, Z.of_nat k < n /\ is_prefix t k (safestrcpy t n) /\ (Z.of_nat k = n - 1 \/ t k = 0).
Proof.
  intros Hn. unfold safestrcpy. destruct (Z.leb_spec n 0); [lia|].
  destruct (safestrcpy_loop_spec t (Z.to_nat (n - 1))) as (Hl & k & Hk & Hp & Hor).
  split; [lia|]. exists k. split; [lia|]. split; [done|]. destruct Hor; [left; lia|by right].
Qed.

Lemma safestrcpy_correct_witness :
  safestrcpy (arr [105; 110; 105; 116; 0]) 3 = [105; 110; 0] /\
  Z.of_nat (length (safestrcpy (arr [105; 110; 105; 116; 0]) 3)) <= 3.
Proof.
  split; [reflexivity|]. exact (proj1 (safestrcpy_correct (arr [105; 110; 105; 116; 0]) 3 ltac:(lia))).
Defined.

(** ** Memory of bytes *)

Definition bytes_ok (m : memory) : Prop := forall a, 0 <= m a < 256.

Lemma write_bytes_ok l : forall m a, bytes_ok m -> Forall (fun b => 0 <= b < 256) l -> bytes_ok (write_bytes m a l).
Proof.
  induction l as [|b l IH]; intros m a Hm Hl; [done|]. apply Forall_cons in Hl as [Hb Hl]. apply IH; [|done].
  intros x. unfold upd. by destruct (x =? a).
Qed.

Lemma store32_ok m a w : bytes_ok m -> bytes_ok (store32 m a w).
Proof.
  intros Hm x. unfold store32, upd.
  repeat (match goal with |- context [if ?c then _ else _] => destruct c end; [apply Z.mod_pos_bound; lia|]). apply Hm.
Qed.

Lemma load32_range m a : bytes_ok m -> 0 <= load32 m a < 2 ^ 32.
Proof.
  intros Hm. apply (le_decode_range [m a; m (a + 1); m (a + 2); m (a + 3)]). repeat constructor; apply Hm.
Qed.

(** The loops are reasoned about through their specifications. *)
Lemma write_bytes_spec m a l x :
  write_bytes m a l x =
    if (a <=? x) && (x <? a + Z.of_nat (length l)) then nth (Z.to_nat (x - a)) l 0 else m x.
Proof.
  revert m a. induction l as [|b l IH]; intros m a; cbn [write_bytes length nth].
  - by zcases.
  - rewrite IH. unfold upd. destruct (decide (x = a)) as [->|Hne].
    + rewrite Z.sub_diag. zcases; simpl; (done || lia).
    + destruct (Z.le_gt_cases a x); [|by zcases].
      replace (Z.to_nat (x - a)) with (S (Z.to_nat (x - (a + 1)))) by lia. zcases; simpl; (done || lia).
Qed.

#[global] Opaque memset memmove.
