(* ===== verification/Bytes.v ===== *)
(** * Structured access to disk blocks

    A disk block is a list of bytes; the C code views it through a cast to a
    structure or to an array of words.  [slice] and [splice] are the byte
    range read and written; [get32]/[set32] view a block as [uint a[]]. *)

From stdpp Require Import base numbers list option.
From S2P Require Import Prelude Kernel.

Definition slice (l : list Z) (off n : nat) : list Z := take n (drop off l).
Definition splice (l : list Z) (off : nat) (new : list Z) : list Z :=
  take off l ++ new ++ drop (off + length new) l.

Definition get32 (l : list Z) (i : nat) : Z := le_decode (slice l (4 * i) 4).
Definition set32 (l : list Z) (i : nat) (w : Z) : list Z := splice l (4 * i) (le_encode 4 w).

Definition get16 (l : list Z) (off : nat) : Z := le_decode (slice l off 2).

(** A well-formed disk block. *)
Definition block_ok (b : list Z) : Prop := length b = 512%nat /\ Forall is_byte b.

Lemma length_splice l off new :
  (off + length new <= length l)%nat -> length (splice l off new) = length l.
Proof. intros H. unfold splice. rewrite !length_app, length_take, length_drop. lia. Qed.

Lemma length_slice l off n : (off + n <= length l)%nat -> length (slice l off n) = n.
Proof. intros H. unfold slice. rewrite length_take, length_drop. lia. Qed.

(** What was written can be read back, also where the list has grown. *)
Lemma slice_splice_gen l off new :
  (off <= length l)%nat -> slice (splice l off new) off (length new) = new.
Proof.
  intros H. unfold slice, splice. rewrite drop_app_ge by (rewrite length_take; lia).
  rewrite length_take, Nat.min_l by lia. by rewrite Nat.sub_diag, drop_0, take_app_length.
Qed.

Lemma slice_splice_eq l off new :
  (off + length new <= length l)%nat -> slice (splice l off new) off (length new) = new.
Proof. intros H. apply slice_splice_gen. lia. Qed.

Lemma lookup_splice l off new i :
  (off + length new <= length l)%nat ->
  splice l off new !! i =
    if decide (off <= i < off + length new)%nat then new !! (i - off)%nat else l !! i.
Proof.
  intros H. unfold splice. case_decide as Hi.
  - rewrite lookup_app_r by (rewrite length_take; lia). rewrite length_take, Nat.min_l by lia.
    by rewrite lookup_app_l by lia.
  - destruct (decide (i < off)%nat).
    + rewrite lookup_app_l by (rewrite length_take; lia). by rewrite lookup_take_lt by lia.
    + rewrite lookup_app_r by (rewrite length_take; lia). rewrite length_take, Nat.min_l by lia.
      rewrite lookup_app_r by lia. rewrite lookup_drop. f_equal. lia.
Qed.

Lemma lookup_slice l off n i : (i < n)%nat -> slice l off n !! i = l !! (off + i)%nat.
Proof. intros H. unfold slice. by rewrite lookup_take_lt, lookup_drop by lia. Qed.

Lemma slice_splice_ne l off new off' n :
  (off + length new <= length l)%nat -> (off + length new <= off' \/ off' + n <= off)%nat ->
  slice (splice l off new) off' n = slice l off' n.
Proof.
  intros H Hd. apply list_eq. intros i. destruct (decide (i < n)%nat).
  - rewrite !lookup_slice by lia. rewrite lookup_splice by done. case_decide; [lia|done].
  - rewrite !lookup_ge_None_2; [done|..]; unfold slice; rewrite length_take; lia.
Qed.

Lemma splice_bytes l off new :
  Forall is_byte l -> Forall is_byte new -> Forall is_byte (splice l off new).
Proof.
  intros Hl Hn. unfold splice. apply Forall_app. split; [by apply Forall_take|].
  apply Forall_app. split; [done|by apply Forall_drop].
Qed.

Lemma slice_bytes l off n : Forall is_byte l -> Forall is_byte (slice l off n).
Proof. intros. by apply Forall_take, Forall_drop. Qed.

Lemma splice_slice_id l off n :
  (off + n <= length l)%nat -> splice l off (slice l off n) = l.
Proof.
  intros H. apply list_eq. intros i. rewrite lookup_splice by (rewrite length_slice; lia).
  rewrite length_slice by lia. case_decide; [|done]. rewrite lookup_slice by lia. f_equal. lia.
Qed.

Lemma splice_splice_eq l off new new' :
  length new = length new' -> (off + length new <= length l)%nat ->
  splice (splice l off new) off new' = splice l off new'.
Proof.
  intros Hl H. apply list_eq. intros i.
  rewrite !lookup_splice by (rewrite ?length_splice; lia). rewrite Hl. by case_decide.
Qed.

Lemma length_set32 l i w : (4 * i + 4 <= length l)%nat -> length (set32 l i w) = length l.
Proof. intros H. apply length_splice. rewrite length_le_encode. lia. Qed.

Lemma get32_set32_eq l i w :
  (4 * i + 4 <= length l)%nat -> 0 <= w < 2 ^ 32 -> get32 (set32 l i w) i = w.
Proof.
  intros H Hw. unfold get32, set32.
  pose proof (slice_splice_eq l (4 * i) (le_encode 4 w)) as Hs. rewrite length_le_encode in Hs.
  rewrite Hs by lia. by apply le_decode_encode.
Qed.

Lemma get32_set32_ne l i j w :
  (4 * i + 4 <= length l)%nat -> i <> j -> get32 (set32 l i w) j = get32 l j.
Proof.
  intros H Hne. unfold get32, set32. rewrite slice_splice_ne; [done|..]; rewrite length_le_encode; lia.
Qed.

Lemma set32_bytes l i w : Forall is_byte l -> Forall is_byte (set32 l i w).
Proof. intros. apply splice_bytes; [done|apply le_encode_bytes]. Qed.

Lemma get32_range l i : Forall is_byte l -> 0 <= get32 l i < 2 ^ 32.
Proof.
  intros H. unfold get32. pose proof (le_decode_range _ (slice_bytes l (4 * i) 4 H)) as Hr.
  assert (length (slice l (4 * i) 4) <= 4)%nat by (unfold slice; rewrite length_take; lia).
  assert (256 ^ Z.of_nat (length (slice l (4 * i) 4)) <= 256 ^ 4) by (apply Z.pow_le_mono_r; lia).
  change (2 ^ 32) with (256 ^ 4). lia.
Qed.

Lemma set32_ok b i w : (i < 128)%nat -> block_ok b -> block_ok (set32 b i w).
Proof.
  intros Hi [Hl Hb]. split; [rewrite length_set32; lia|by apply set32_bytes].
Qed.

Lemma zero_block_ok : block_ok zero_block.
Proof. split; [done|]. apply Forall_replicate. unfold is_byte. lia. Qed.

(** Reading inside what was written. *)
Lemma slice_splice_in l off new k m :
  (off + length new <= length l)%nat -> (k + m <= length new)%nat ->
  slice (splice l off new) (off + k) m = slice new k m.
Proof.
  intros H Hk. apply list_eq. intros i. destruct (decide (i < m)%nat).
  - rewrite !lookup_slice by lia. rewrite lookup_splice by done. rewrite decide_True by lia. f_equal. lia.
  - rewrite !lookup_ge_None_2; [done|..]; unfold slice; rewrite length_take; lia.
Qed.

Lemma slice_app_l a b m : length a = m -> slice (a ++ b) 0 m = a.
Proof. intros <-. unfold slice. by rewrite drop_0, take_app_length. Qed.

Lemma slice_app_r a b k m : (length a <= k)%nat -> slice (a ++ b) k m = slice b (k - length a) m.
Proof. intros Hk. unfold slice. by rewrite drop_app_ge. Qed.

(** The words of an array. *)
Lemma words_cons w ws : mjoin (le_encode 4 <$> w :: ws) = le_encode 4 w ++ mjoin (le_encode 4 <$> ws).
Proof. done. Qed.

Lemma slice_words ws k :
  (k < length ws)%nat -> slice (mjoin (le_encode 4 <$> ws)) (4 * k) 4 = le_encode 4 (ws !!! k).
Proof.
  revert k. induction ws as [|w ws IH]; intros k Hk; [simpl in Hk; lia|]. destruct k as [|k].
  - apply slice_app_l, length_le_encode.
  - rewrite words_cons. rewrite slice_app_r by (rewrite length_le_encode; lia).
    rewrite length_le_encode. replace (4 * S k - 4)%nat with (4 * k)%nat by lia.
    apply IH. simpl in Hk. lia.
Qed.

Lemma length_words ws : length (mjoin (le_encode 4 <$> ws)) = (4 * length ws)%nat.
Proof.
  induction ws as [|w ws IH]; [done|]. rewrite words_cons.
  rewrite length_app, length_le_encode, IH. simpl. lia.
Qed.

Lemma words_bytes ws : Forall is_byte (mjoin (le_encode 4 <$> ws)).
Proof.
  induction ws as [|w ws IH]; [constructor|]. rewrite words_cons.
  apply Forall_app. split; [apply le_encode_bytes|done].
Qed.
