(* ===== verification/Sleeplock.v ===== *)
(** * Sleep-locks (sleeplock.c)

    Sleep-locks protect buffers and inodes.  A process that finds one taken
    sleeps on it; the loop that does so is bounded by [fuel], the number of
    times the process may be woken in vain, which no uncontended use
    consumes. *)

From stdpp Require Import base numbers list option strings gmap.
From S2P Require Import Prelude Kernel Fields Spinlock Proc.

(** How often a process may find its condition false again after a wakeup. *)
Class Fuel := fuel : nat.

Definition get_sl (r : slref) (s : kernel) : sleeplock :=
  match r with
  | SL_buf i => b_lock (k_bufs s !!! i)
  | SL_inode i => i_lock (k_inodes s !!! i)
  end.

Definition set_sl (r : slref) (l : sleeplock) (s : kernel) : kernel :=
  match r with
  | SL_buf i => set_k_bufs (alter (set_b_lock l) i (k_bufs s)) s
  | SL_inode i => set_k_inodes (alter (set_i_lock l) i (k_inodes s)) s
  end.

Section sleeplock.
Context `{Fuel}.

Definition initsleeplock (r : slref) : K unit := modify (set_sl r (mksleeplock 0 0)).

(** [while (lk->locked) sleep(lk, &lk->lk);] *)
Fixpoint acquiresleep_loop (n : nat) (r : slref) : K unit :=
  lk <- gets (get_sl r) ;;
  if negb (sl_locked lk =? 0) then
    match n with
    | O => out_of_fuel
    | S n' => sleep (Ch_sleep r) (L_sleep r) ;; acquiresleep_loop n' r
    end
  else ret tt.

Definition acquiresleep (r : slref) : K unit :=
  acquire (L_sleep r) ;;
  acquiresleep_loop fuel r ;;
  pid <- mypid ;;
  modify (set_sl r (mksleeplock 1 pid)) ;;
  release (L_sleep r).

Definition releasesleep (r : slref) : K unit :=
  acquire (L_sleep r) ;;
  modify (set_sl r (mksleeplock 0 0)) ;;
  wakeup (Ch_sleep r) ;;
  release (L_sleep r).

Definition holdingsleep (r : slref) : K bool :=
  acquire (L_sleep r) ;;
  lk <- gets (get_sl r) ;;
  pid <- mypid ;;
  release (L_sleep r) ;;
  ret (negb (sl_locked lk =? 0) && (sl_pid lk =? pid)).

(** ** Uncontended use *)

Lemma held_set_sl r l s : k_held (set_sl r l s) = k_held s.
Proof. by destruct r. Qed.
Lemma cur_set_sl r l s : k_cur (set_sl r l s) = k_cur s.
Proof. by destruct r. Qed.
Lemma proc_set_sl r l s : k_proc (set_sl r l s) = k_proc s.
Proof. by destruct r. Qed.
Lemma set_sl_held r l h s : set_sl r l (set_k_held h s) = set_k_held h (set_sl r l s).
Proof. by destruct r. Qed.
Lemma get_sl_held r h s : get_sl r (set_k_held h s) = get_sl r s.
Proof. by destruct r. Qed.

Lemma acquiresleep_run r s i :
  L_sleep r ∉ k_held s -> k_cur s = Some i -> sl_locked (get_sl r s) = 0 ->
  acquiresleep r s = Ret tt (set_sl r (mksleeplock 1 (p_pid (k_proc s !!! i))) s).
Proof.
  intros Hh Hc Hl. unfold acquiresleep, mypid, get_proc. krun. rewrite acquire_run by done.
  cbn [res_bind].
  assert (Hloop : forall n, acquiresleep_loop n r (set_k_held (L_sleep r :: k_held s) s) =
    Ret tt (set_k_held (L_sleep r :: k_held s) s)).
  { intros n. destruct n; cbn [acquiresleep_loop]; krun; rewrite get_sl_held, Hl; done. }
  rewrite Hloop. cbn [res_bind]. rewrite (curproc_run i) by done. cbn [res_bind]. kproj.
  rewrite set_sl_held. rewrite (release_head _ (k_held s)) by done.
  cbn [res_bind]. rewrite <- (held_set_sl r (mksleeplock 1 (p_pid (k_proc s !!! i))) s) at 1.
  destruct r; keq.
Qed.

(** [releasesleep] also wakes the processes waiting for the lock. *)
Definition sl_released (r : slref) (s : kernel) : kernel :=
  set_k_proc (wake (Some (Ch_sleep r)) <$> k_proc s) (set_sl r (mksleeplock 0 0) s).

Lemma releasesleep_run r s :
  L_sleep r ∉ k_held s -> L_ptable ∉ k_held s -> releasesleep r s = Ret tt (sl_released r s).
Proof.
  intros Hh Hp. unfold releasesleep. krun. rewrite acquire_run by done. cbn [res_bind].
  rewrite set_sl_held, wakeup_run by (kproj; rewrite elem_of_cons; intuition congruence).
  cbn [res_bind]. rewrite (release_head _ (k_held s)) by done. unfold sl_released. destruct r; keq.
Qed.

Lemma holdingsleep_run r s i :
  L_sleep r ∉ k_held s -> k_cur s = Some i ->
  holdingsleep r s = Ret (negb (sl_locked (get_sl r s) =? 0) &&
                          (sl_pid (get_sl r s) =? p_pid (k_proc s !!! i))) s.
Proof.
  intros Hh Hc. unfold holdingsleep, mypid, get_proc. krun. rewrite acquire_run by done.
  cbn [res_bind]. rewrite (curproc_run i) by done. cbn [res_bind].
  rewrite (release_head _ (k_held s)) by done. cbn [res_bind]. rewrite get_sl_held. keq.
Qed.

(** *** In a process that holds no spin-lock *)

Definition cur_pid (s : kernel) : Z :=
  match k_cur s with Some i => p_pid (k_proc s !!! i) | None => 0 end.

(** A process is running and holds no spin-lock: the state in which the
    functions that may sleep are called. *)
Record quiet (s : kernel) : Prop := {
  q_held : k_held s = [];
  q_cur : is_Some (k_cur s);
}.

Lemma quiet_not_held s lk : quiet s -> lk ∉ k_held s.
Proof. intros [-> _]. apply not_elem_of_nil. Qed.

Lemma acquiresleep_quiet r s :
  quiet s -> sl_locked (get_sl r s) = 0 ->
  acquiresleep r s = Ret tt (set_sl r (mksleeplock 1 (cur_pid s)) s).
Proof.
  intros Hq Hl. destruct (q_cur _ Hq) as [i Hc]. unfold cur_pid. rewrite Hc.
  apply acquiresleep_run; auto using quiet_not_held.
Qed.

Lemma releasesleep_quiet r s : quiet s -> releasesleep r s = Ret tt (sl_released r s).
Proof. intros Hq. apply releasesleep_run; auto using quiet_not_held. Qed.

Lemma holdingsleep_quiet r s :
  quiet s ->
  holdingsleep r s = Ret (negb (sl_locked (get_sl r s) =? 0) && (sl_pid (get_sl r s) =? cur_pid s)) s.
Proof.
  intros Hq. destruct (q_cur _ Hq) as [i Hc]. unfold cur_pid. rewrite Hc.
  apply holdingsleep_run; auto using quiet_not_held.
Qed.

(** The lock is held by the running process. *)
Lemma holdingsleep_mine r s :
  quiet s -> get_sl r s = mksleeplock 1 (cur_pid s) -> holdingsleep r s = Ret true s.
Proof. intros Hq Hl. rewrite holdingsleep_quiet, Hl by done. simpl. by rewrite Z.eqb_refl. Qed.

End sleeplock.

(** ** The effect of wakeups on the process table

    [wakes ps ps']: the table [ps'] is [ps] after some sleeping processes were
    made RUNNABLE. *)
Definition wakes (ps ps' : list proc) : Prop :=
  Forall2 (fun p p' => p' = p \/ (p_state p = SLEEPING /\ p' = set_p_state RUNNABLE p)) ps ps'.

#[global] Instance wakes_preorder : PreOrder wakes.
Proof.
  split.
  - intros ps. apply Forall_Forall2_diag, Forall_forall. auto.
  - intros ps1 ps2 ps3 H. revert ps3. induction H as [|p p' l l' Hp _ IH]; intros ps3 H3.
    + done.
    + inversion H3 as [|? p'' ? l'' Hp' Hl]; subst. constructor; [|by apply IH].
      destruct Hp as [->|[Hs ->]], Hp' as [->|[Hs' ->]]; auto.
Qed.

Lemma wakes_wake ch ps : wakes ps (wake ch <$> ps).
Proof.
  induction ps as [|p ps IH]; simpl; constructor; [|done]. unfold wake, is_state.
  destruct (bool_decide _) eqn:E; simpl; [|by left]. destruct (bool_decide (p_chan p = ch)); [|by left].
  right. by apply bool_decide_eq_true in E.
Qed.

Lemma wakes_pid ps ps' i : wakes ps ps' -> p_pid (ps' !!! i) = p_pid (ps !!! i).
Proof.
  intros H. revert i. induction H as [|p p' l l' Hp _ IH]; intros [|i]; try done.
  - by destruct Hp as [->|[_ ->]].
  - apply IH.
Qed.
