(* ===== verification/Dll.v ===== *)
(** * Circular doubly linked lists

    The shape of the buffer cache's list: [next] and [prev] are link
    functions on nodes, [h] the list head.  [dll] relates the links to the
    sequence of nodes, and the lemmas are the effect of inserting a node at
    the head and of moving one there. *)

From stdpp Require Import base numbers list.
From S2P Require Import Prelude.

Definition fupd (f : nat -> nat) (a v : nat) : nat -> nat :=
  fun x => if decide (x = a) then v else f x.

(** From [a], the links [f] visit the nodes [l] and then [z]. *)
Fixpoint chain (f : nat -> nat) (a : nat) (l : list nat) (z : nat) : Prop :=
  match l with
  | [] => f a = z
  | b :: l' => f a = b /\ chain f b l' z
  end.

Record dll (next prev : nat -> nat) (h : nat) (l : list nat) : Prop := {
  dll_next : chain next h l h;
  dll_prev : chain prev h (rev l) h;
}.

Lemma chain_app f a l1 b l2 z : chain f a (l1 ++ b :: l2) z <-> chain f a l1 b /\ chain f b l2 z.
Proof. revert a. induction l1 as [|c l1 IH]; intros a; simpl; [done|]. rewrite IH. tauto. Qed.

Lemma chain_snoc f a l b z : chain f a (l ++ [b]) z <-> chain f a l b /\ f b = z.
Proof. apply chain_app. Qed.

Lemma chain_start f f' a b l z :
  f' b = f a -> (forall x, x ∈ l -> f' x = f x) -> chain f a l z -> chain f' b l z.
Proof.
  revert a b. induction l as [|c l IH]; intros a b Hb Hl; simpl; [congruence|].
  intros [<- Hc]. split; [done|]. eapply IH; [|intros; apply Hl; by right|exact Hc].
  apply Hl. by left.
Qed.

Lemma chain_ext f f' a l z :
  f' a = f a -> (forall x, x ∈ l -> f' x = f x) -> chain f a l z -> chain f' a l z.
Proof. apply chain_start. Qed.

Lemma chain_first f a l z : chain f a l z -> f a = hd z l.
Proof. destruct l; simpl; tauto. Qed.

Lemma chain_last f a l x z : chain f a (l ++ [x]) z -> f x = z.
Proof. by intros [_ ?]%chain_snoc. Qed.

Lemma dll_ext next prev next' prev' h l :
  (forall x, next' x = next x) -> (forall x, prev' x = prev x) ->
  dll next prev h l -> dll next' prev' h l.
Proof. intros Hn Hp [H1 H2]. split; (eapply chain_ext; [..|eassumption]); auto. Qed.

Lemma fupd_eq f a v : fupd f a v a = v.
Proof. unfold fupd. by rewrite decide_True. Qed.
Lemma fupd_ne f a v x : x <> a -> fupd f a v x = f x.
Proof. intros. unfold fupd. by rewrite decide_False. Qed.

Lemma rev_reverse {A} (l : list A) : rev l = reverse l.
Proof. apply rev_alt. Qed.
Lemma elem_of_rev (x : nat) l : x ∈ rev l <-> x ∈ l.
Proof. by rewrite rev_reverse, elem_of_reverse. Qed.

(** Inserting node [i] at the head: [i.next = h.next; i.prev = h;
    h.next.prev = i; h.next = i]. *)
Lemma dll_insert next prev h l i :
  dll next prev h l -> NoDup (h :: i :: l) ->
  dll (fupd (fupd next i (next h)) h i) (fupd (fupd prev i h) (next h) i) h (i :: l).
Proof.
  intros [Hn Hp] Hnd. apply NoDup_cons in Hnd as [Hh [Hi Hnd]%NoDup_cons].
  rewrite elem_of_cons in Hh. split.
  - simpl. rewrite fupd_eq. split; [done|]. eapply chain_start; [| |exact Hn].
    + rewrite fupd_ne, fupd_eq by naive_solver. done.
    + intros x Hx. rewrite !fupd_ne; naive_solver.
  - simpl. apply chain_snoc. rewrite (chain_first _ _ _ _ Hn). destruct l as [|f l]; simpl in *.
    + rewrite fupd_eq. split; [done|]. rewrite fupd_ne, fupd_eq; naive_solver.
    + rewrite elem_of_cons in *. apply NoDup_cons in Hnd as [Hf Hnd]. apply chain_snoc in Hp as [Hp _].
      split; [|rewrite fupd_ne, fupd_eq; naive_solver].
      apply chain_snoc. rewrite fupd_eq. split; [|done]. eapply chain_ext; [..|exact Hp].
      * rewrite !fupd_ne; naive_solver.
      * intros x Hx. rewrite elem_of_rev in Hx. rewrite !fupd_ne; naive_solver.
Qed.

(** Following [f] around a node: the node before [i] is made to skip it. *)
Lemma chain_remove f h l1 i l2 :
  NoDup (h :: l1 ++ i :: l2) -> chain f h (l1 ++ i :: l2) h ->
  chain (fupd f (hd h (rev l1)) (f i)) h (l1 ++ l2) h.
Proof.
  intros Hnd Hc. apply chain_app in Hc as [H1 H2].
  assert (forall x, x ∈ l2 -> x <> hd h (rev l1)) as Hl2.
  { intros x Hx ->. apply NoDup_cons in Hnd as [Hh Hnd]. rewrite elem_of_app, elem_of_cons in Hh.
    apply NoDup_app in Hnd as (_ & Hd & _). destruct (rev l1) as [|p r] eqn:E; simpl in *; [tauto|].
    apply (Hd p); [|by right]. apply elem_of_rev. rewrite E. by left. }
  destruct l1 as [|p l1 _] using rev_ind; simpl in *.
  { eapply chain_start; [apply fupd_eq| |exact H2]. intros. apply fupd_ne. auto. }
  rewrite rev_app_distr in *. simpl in *. rewrite <- app_assoc in *. simpl in *.
  apply chain_app. apply chain_snoc in H1 as [H1 _]. split.
  - rewrite app_comm_cons in Hnd. apply NoDup_app in Hnd as (_ & Hd & _).
    eapply chain_ext; [..|exact H1].
    + apply fupd_ne. intros ->. apply (Hd p); [|]; by left.
    + intros x Hx. apply fupd_ne. intros ->. apply (Hd p); [by right|by left].
  - eapply chain_start; [apply fupd_eq| |exact H2]. intros. apply fupd_ne. auto.
Qed.

(** Unlinking node [i]: [i.next.prev = i.prev; i.prev.next = i.next]. *)
Lemma dll_remove next prev h l1 i l2 :
  dll next prev h (l1 ++ i :: l2) -> NoDup (h :: l1 ++ i :: l2) ->
  dll (fupd next (prev i) (next i)) (fupd prev (next i) (prev i)) h (l1 ++ l2).
Proof.
  intros [Hn Hp] Hnd.
  assert (rev (l1 ++ i :: l2) = rev l2 ++ i :: rev l1) as Er.
  { rewrite rev_app_distr. simpl. by rewrite <- app_assoc. }
  assert (prev i = hd h (rev l1)) as Ep.
  { rewrite Er in Hp. apply chain_app in Hp as [_ Hp]. eauto using chain_first. }
  assert (next i = hd h l2) as En.
  { apply chain_app in Hn as [_ Hn]. eauto using chain_first. }
  split.
  - rewrite Ep. by apply chain_remove.
  - rewrite En, rev_app_distr, <- (rev_involutive l2) at 1. apply chain_remove; [|by rewrite <- Er].
    rewrite <- Er. apply NoDup_cons in Hnd as [Hh Hnd]. constructor; [by rewrite elem_of_rev|].
    by rewrite rev_reverse, reverse_Permutation.
Qed.

(** Unlinking a node and inserting it at the head. *)
Lemma dll_move next prev h l1 i l2 :
  dll next prev h (l1 ++ i :: l2) -> NoDup (h :: l1 ++ i :: l2) ->
  let next1 := fupd next (prev i) (next i) in
  let prev1 := fupd prev (next i) (prev i) in
  dll (fupd (fupd next1 i (next1 h)) h i) (fupd (fupd prev1 i h) (next1 h) i) h (i :: l1 ++ l2).
Proof.
  intros Hd Hnd. apply dll_insert; [by apply dll_remove|].
  rewrite (Permutation_middle l1 l2 i). exact Hnd.
Qed.

(** ** Walking the list *)

(** The nodes a loop visits that follows [f] from [a] until it is back at the
    head, in order, stopping at the first that passes [test]. *)
Fixpoint follow (f : nat -> nat) (h : nat) (test : nat -> bool) (n : nat) (a : nat) :
    option (option nat) :=
  if decide (a = h) then Some None
  else if test a then Some (Some a)
  else match n with
       | O => None
       | S n' => follow f h test n' (f a)
       end.

Lemma follow_chain f h test l n :
  chain f h l h -> h ∉ l -> (length l <= n)%nat ->
  follow f h test n (f h) = Some (List.find test l).
Proof.
  intros Hc Hh Hn.
  assert (forall a n, chain f a l h -> (length l <= n)%nat ->
    follow f h test n (f a) = Some (List.find test l)) as G; [|eauto].
  clear Hc Hn. induction l as [|b l IH]; intros a m Hc Hm; simpl in *.
  { destruct m; simpl; by rewrite Hc, decide_True. }
  rewrite elem_of_cons in Hh. destruct Hc as [-> Hc].
  destruct m as [|m]; [lia|]. cbn [follow]. rewrite decide_False by naive_solver.
  destruct (test b); [done|]. apply IH; [naive_solver|done|lia].
Qed.
