(* ===== verification/Bio.v ===== *)
(** * The buffer cache (bio.c) over the memory disk (memide.c)

    The buffers are the entries 0..NBUF-1 of [k_bufs] and the list head is
    entry NBUF; [b_prev] and [b_next] are the links of the doubly linked LRU
    list.  The disk is memide.c's array of blocks, which completes a request
    at once; [k_writes] records the writes in the order the disk receives
    them. *)

From stdpp Require Import base numbers list option strings gmap.
From S2P Require Import Prelude Kernel Fields Spinlock Proc Sleeplock Bytes Dll.

Definition get_buf (i : nat) : K buf := gets (fun s => k_bufs s !!! i).
Definition upd_buf (i : nat) (f : buf -> buf) : K unit :=
  modify (fun s => set_k_bufs (alter f i (k_bufs s)) s).

(** [&bcache.head] *)
Definition bhead : nat := NBUF.

Definition is_dirty (b : buf) : bool := negb (Z.land (b_flags b) B_DIRTY =? 0).
Definition is_valid (b : buf) : bool := negb (Z.land (b_flags b) B_VALID =? 0).

(** An array of blocks in which block [n] is replaced. *)
Definition bset (V : Z -> block) (n : Z) (d : block) : Z -> block :=
  fun x => if x =? n then d else V x.

Lemma bset_eq V n d : bset V n d n = d.
Proof. unfold bset. by rewrite Z.eqb_refl. Qed.
Lemma bset_ne V n d x : x <> n -> bset V n d x = V x.
Proof. intros H. unfold bset. by rewrite (proj2 (Z.eqb_neq _ _)). Qed.

Section bio.
Context `{Fuel}.

(** ** memide.c *)

(** [memmove(p, b->data, BSIZE)] for the block at [p]. *)
Definition disk_write (bno : Z) (d : block) (s : kernel) : kernel :=
  set_k_writes (k_writes s ++ [(bno, d)])
    (set_k_disk (bset (k_disk s) bno d) s).

(** [_binary_fs_img_size], the size of the linked-in disk image, is the
    argument [img_size]. *)
Definition ideinit (img_size : Z) : K unit := modify (set_k_disksize (img_size / BSIZE)).

Definition iderw (i : nat) : K unit :=
  h <- holdingsleep (SL_buf i) ;;
  if negb h then panic "iderw: buf not locked" else
  b <- get_buf i ;;
  if Z.land (b_flags b) (Z.lor B_VALID B_DIRTY) =? B_VALID then panic "iderw: nothing to do" else
  if negb (b_dev b =? 1) then panic "iderw: request not for disk 1" else
  disksize <- gets k_disksize ;;
  if disksize <=? b_blockno b then panic "iderw: block out of range" else
  (if is_dirty b then
     upd_buf i (set_b_flags (Z.land (b_flags b) (Z.lnot B_DIRTY))) ;;
     modify (disk_write (b_blockno b) (b_data b))
   else
     d <- gets k_disk ;;
     upd_buf i (set_b_data (d (b_blockno b)))) ;;
  b <- get_buf i ;;
  upd_buf i (set_b_flags (Z.lor (b_flags b) B_VALID)).

(** ** bio.c *)

(** The body of [binit]'s loop: insert buffer [i] at the head of the list. *)
Definition binit_body (i : nat) : K unit :=
  h <- get_buf bhead ;;
  upd_buf i (set_b_next (b_next h)) ;;
  upd_buf i (set_b_prev bhead) ;;
  initsleeplock (SL_buf i) ;;
  h <- get_buf bhead ;;
  upd_buf (b_next h) (set_b_prev i) ;;
  upd_buf bhead (set_b_next i).

Definition binit : K unit :=
  upd_buf bhead (set_b_prev bhead) ;;
  upd_buf bhead (set_b_next bhead) ;;
  foreach (seq 0 NBUF) binit_body.

(** The loops of [bget]: follow the links [next] from buffer [b] up to the list
    head, looking for a buffer that passes [test]: [Some (Some i)] when buffer
    [i] does, [Some None] when none does.  [None] is a list with more than
    [n] elements. *)
Definition walk (bufs : list buf) (next : buf -> nat) (test : buf -> bool) (n : nat) (b : nat) :
    option (option nat) :=
  follow (fun i => next (bufs !!! i)) bhead (fun i => test (bufs !!! i)) n b.

Definition bmatch (dev blockno : Z) (b : buf) : bool :=
  (b_dev b =? dev) && (b_blockno b =? blockno).
Definition bunused (b : buf) : bool := (b_refcnt b =? 0) && negb (is_dirty b).

Definition bget (dev blockno : Z) : K nat :=
  acquire L_bcache ;;
  bufs <- gets k_bufs ;;
  match walk bufs b_next (bmatch dev blockno) NBUF (b_next (bufs !!! bhead)) with
  | None => out_of_fuel
  | Some (Some i) =>
      upd_buf i (fun b => set_b_refcnt (u32 (b_refcnt b + 1)) b) ;;
      release L_bcache ;;
      acquiresleep (SL_buf i) ;;
      ret i
  | Some None =>
      match walk bufs b_prev bunused NBUF (b_prev (bufs !!! bhead)) with
      | None => out_of_fuel
      | Some (Some i) =>
          upd_buf i (fun b =>
            set_b_refcnt 1 (set_b_flags 0 (set_b_blockno blockno (set_b_dev dev b)))) ;;
          release L_bcache ;;
          acquiresleep (SL_buf i) ;;
          ret i
      | Some None => panic "bget: no buffers"
      end
  end.

Definition bread (dev blockno : Z) : K nat :=
  i <- bget dev blockno ;;
  b <- get_buf i ;;
  when (negb (is_valid b)) (iderw i) ;;
  ret i.

Definition bwrite (i : nat) : K unit :=
  h <- holdingsleep (SL_buf i) ;;
  if negb h then panic "bwrite" else
  upd_buf i (fun b => set_b_flags (Z.lor (b_flags b) B_DIRTY) b) ;;
  iderw i.

(** The list surgery of [brelse]: unlink buffer [i], insert it at the head. *)
Definition move_to_head (i : nat) : K unit :=
  b <- get_buf i ;;
  upd_buf (b_next b) (set_b_prev (b_prev b)) ;;
  b <- get_buf i ;;
  upd_buf (b_prev b) (set_b_next (b_next b)) ;;
  h <- get_buf bhead ;;
  upd_buf i (set_b_next (b_next h)) ;;
  upd_buf i (set_b_prev bhead) ;;
  h <- get_buf bhead ;;
  upd_buf (b_next h) (set_b_prev i) ;;
  upd_buf bhead (set_b_next i).

Definition brelse (i : nat) : K unit :=
  h <- holdingsleep (SL_buf i) ;;
  if negb h then panic "brelse" else
  releasesleep (SL_buf i) ;;
  acquire L_bcache ;;
  upd_buf i (fun b => set_b_refcnt (u32 (b_refcnt b - 1)) b) ;;
  b <- get_buf i ;;
  when (b_refcnt b =? 0) (move_to_head i) ;;
  release L_bcache.

End bio.

(** ** The LRU list *)

Definition nx (bufs : list buf) (i : nat) : nat := b_next (bufs !!! i).
Definition pv (bufs : list buf) (i : nat) : nat := b_prev (bufs !!! i).

(** A buffer without its links. *)
Definition core (b : buf) : buf := set_b_next 0 (set_b_prev 0 b).

Lemma lookup_alter_buf (f : buf -> buf) i (bufs : list buf) x :
  (i < length bufs)%nat ->
  alter f i bufs !!! x = if decide (x = i) then f (bufs !!! i) else bufs !!! x.
Proof.
  intros Hi. case_decide as E; [subst; by apply list_lookup_total_alter_eq|].
  by apply list_lookup_total_alter_ne.
Qed.

Lemma nx_set_next v i bufs x :
  (i < length bufs)%nat -> nx (alter (set_b_next v) i bufs) x = fupd (nx bufs) i v x.
Proof. intros Hi. unfold nx, fupd. rewrite lookup_alter_buf by done. by case_decide. Qed.
Lemma nx_set_prev v i bufs x :
  (i < length bufs)%nat -> nx (alter (set_b_prev v) i bufs) x = nx bufs x.
Proof. intros Hi. unfold nx. rewrite lookup_alter_buf by done. case_decide; by subst. Qed.
Lemma pv_set_prev v i bufs x :
  (i < length bufs)%nat -> pv (alter (set_b_prev v) i bufs) x = fupd (pv bufs) i v x.
Proof. intros Hi. unfold pv, fupd. rewrite lookup_alter_buf by done. by case_decide. Qed.
Lemma pv_set_next v i bufs x :
  (i < length bufs)%nat -> pv (alter (set_b_next v) i bufs) x = pv bufs x.
Proof. intros Hi. unfold pv. rewrite lookup_alter_buf by done. case_decide; by subst. Qed.
Lemma core_set_next v i bufs x :
  (i < length bufs)%nat -> core (alter (set_b_next v) i bufs !!! x) = core (bufs !!! x).
Proof. intros Hi. rewrite lookup_alter_buf by done. case_decide; by subst. Qed.
Lemma core_set_prev v i bufs x :
  (i < length bufs)%nat -> core (alter (set_b_prev v) i bufs !!! x) = core (bufs !!! x).
Proof. intros Hi. rewrite lookup_alter_buf by done. case_decide; by subst. Qed.

Lemma fupd_ext f g a v x : (forall y, f y = g y) -> fupd f a v x = fupd g a v x.
Proof. intros H. unfold fupd. by case_decide. Qed.

Lemma fupd_fix f a b : fupd f a (f b) b = f b.
Proof. unfold fupd. by case_decide. Qed.

(** [order] lists the buffers from most to least recently used. *)
Record lru (bufs : list buf) (order : list nat) : Prop := {
  lru_len : length bufs = S NBUF;
  lru_perm : order ≡ₚ seq 0 NBUF;
  lru_dll : dll (nx bufs) (pv bufs) bhead order;
}.

Lemma lru_nodup bufs order : lru bufs order -> NoDup (bhead :: order).
Proof.
  intros [_ Hp _]. constructor.
  - rewrite Hp. intros Hin%elem_of_seq. unfold bhead in Hin. lia.
  - rewrite Hp. apply NoDup_seq.
Qed.

Lemma lru_elem bufs order i : lru bufs order -> i ∈ order <-> (i < NBUF)%nat.
Proof. intros [_ Hp _]. rewrite Hp, elem_of_seq. lia. Qed.

Lemma lru_walk_next bufs order test :
  lru bufs order ->
  walk bufs b_next test NBUF (b_next (bufs !!! bhead)) = Some (List.find (fun i => test (bufs !!! i)) order).
Proof.
  intros H. pose proof (lru_nodup _ _ H) as [Hh _]%NoDup_cons. destruct H as [_ Hp [Hn _]].
  apply (follow_chain (nx bufs)); [done|done|]. by rewrite Hp, length_seq.
Qed.

Lemma lru_walk_prev bufs order test :
  lru bufs order ->
  walk bufs b_prev test NBUF (b_prev (bufs !!! bhead)) =
    Some (List.find (fun i => test (bufs !!! i)) (rev order)).
Proof.
  intros H. pose proof (lru_nodup _ _ H) as [Hh _]%NoDup_cons. destruct H as [_ Hp [_ Hpv]].
  apply (follow_chain (pv bufs)); [done|by rewrite elem_of_rev|]. by rewrite length_rev, Hp, length_seq.
Qed.

Lemma chain_in f a l z : chain f a l z -> f a = z \/ f a ∈ l.
Proof. destruct l; simpl; [tauto|]. intros [-> _]. right. by left. Qed.

(** The links of the list stay within the array. *)
Lemma lru_range bufs order i :
  lru bufs order -> (i <= NBUF)%nat -> (nx bufs i <= NBUF)%nat /\ (pv bufs i <= NBUF)%nat.
Proof.
  intros H Hi. assert (forall x, x = bhead \/ x ∈ order -> (x <= NBUF)%nat) as G.
  { intros x [->|Hx]; [done|]. apply (lru_elem _ _ x H) in Hx. lia. }
  assert (Hd := lru_dll _ _ H). destruct Hd as [Hn Hp].
  assert (i = bhead \/ i ∈ order) as [->|(l1 & l2 & ->)%list_elem_of_split].
  { rewrite (lru_elem _ _ i H). unfold bhead. lia. }
  - apply chain_in in Hn, Hp. rewrite elem_of_rev in Hp. auto.
  - rewrite rev_app_distr in Hp. simpl in Hp. rewrite <- app_assoc in Hp.
    apply chain_app in Hn as [_ Hn%chain_in], Hp as [_ Hp%chain_in]. rewrite elem_of_rev in Hp.
    split; apply G; rewrite elem_of_app, elem_of_cons; tauto.
Qed.

(** Evaluates the links of a buffer array that has been updated link by link. *)
Ltac links := repeat first
  [ rewrite nx_set_prev by (rewrite ?length_alter; lia)
  | rewrite pv_set_next by (rewrite ?length_alter; lia)
  | rewrite nx_set_next by (rewrite ?length_alter; lia)
  | rewrite pv_set_prev by (rewrite ?length_alter; lia)
  | rewrite core_set_next by (rewrite ?length_alter; lia)
  | rewrite core_set_prev by (rewrite ?length_alter; lia) ].

(** The two halves of the surgery as functions on the array. *)
Definition unlinked (i : nat) (bufs : list buf) : list buf :=
  alter (set_b_next (nx bufs i)) (pv bufs i) (alter (set_b_prev (pv bufs i)) (nx bufs i) bufs).
Definition inserted (i : nat) (bufs : list buf) : list buf :=
  alter (set_b_next i) bhead (alter (set_b_prev i) (nx bufs bhead)
    (alter (set_b_prev bhead) i (alter (set_b_next (nx bufs bhead)) i bufs))).

Lemma unlinked_spec i bufs :
  (nx bufs i < length bufs)%nat -> (pv bufs i < length bufs)%nat ->
  (forall x, nx (unlinked i bufs) x = fupd (nx bufs) (pv bufs i) (nx bufs i) x) /\
  (forall x, pv (unlinked i bufs) x = fupd (pv bufs) (nx bufs i) (pv bufs i) x) /\
  (forall x, core (unlinked i bufs !!! x) = core (bufs !!! x)) /\
  length (unlinked i bufs) = length bufs.
Proof.
  intros H1 H2. unfold unlinked. split_and!; intros; links; [|done..|by rewrite !length_alter].
  apply fupd_ext. intros y. by links.
Qed.

Lemma inserted_spec i bufs :
  (i < length bufs)%nat -> (nx bufs bhead < length bufs)%nat -> (bhead < length bufs)%nat ->
  (forall x, nx (inserted i bufs) x = fupd (fupd (nx bufs) i (nx bufs bhead)) bhead i x) /\
  (forall x, pv (inserted i bufs) x = fupd (fupd (pv bufs) i bhead) (nx bufs bhead) i x) /\
  (forall x, core (inserted i bufs !!! x) = core (bufs !!! x)) /\
  length (inserted i bufs) = length bufs.
Proof.
  intros H1 H2 H3. unfold inserted. split_and!; intros; links; [..|done|by rewrite !length_alter].
  - apply fupd_ext. intros y. by links.
  - apply fupd_ext. intros y. links. apply fupd_ext. intros z. by links.
Qed.

Lemma move_to_head_eq i s :
  (nx (k_bufs s) i < length (k_bufs s))%nat -> (pv (k_bufs s) i < length (k_bufs s))%nat ->
  (i < length (k_bufs s))%nat ->
  move_to_head i s = Ret tt (set_k_bufs (inserted i (unlinked i (k_bufs s))) s).
Proof.
  intros H1 H2 H3. unfold move_to_head, get_buf, upd_buf. krun. kproj. set (bufs := k_bufs s) in *.
  pose (b1 := alter (set_b_prev (pv bufs i)) (nx bufs i) bufs).
  assert (pv b1 i = pv bufs i) as E1 by (unfold b1; links; apply fupd_fix).
  assert (nx b1 i = nx bufs i) as E2 by (unfold b1; by links).
  change (b_prev (bufs !!! i)) with (pv bufs i). change (b_next (bufs !!! i)) with (nx bufs i).
  fold b1. change (b_prev (b1 !!! i)) with (pv b1 i). change (b_next (b1 !!! i)) with (nx b1 i).
  rewrite E1, E2. unfold b1. fold (unlinked i bufs). set (b2 := unlinked i bufs).
  assert (length b2 = length bufs) as Hl by (unfold b2, unlinked; by rewrite !length_alter).
  set (b3 := alter (set_b_prev bhead) i _).
  assert (nx b3 bhead = nx b2 bhead) as E3 by (unfold b3; links; exact (fupd_fix (nx b2) i bhead)).
  change (b_next (b3 !!! bhead)) with (nx b3 bhead). rewrite E3. unfold inserted. subst b3.
  keq.
Qed.

Lemma move_to_head_run i l1 l2 s :
  lru (k_bufs s) (l1 ++ i :: l2) ->
  exists bufs', move_to_head i s = Ret tt (set_k_bufs bufs' s) /\ lru bufs' (i :: l1 ++ l2) /\
    forall x, core (bufs' !!! x) = core (k_bufs s !!! x).
Proof.
  intros H. set (bufs := k_bufs s) in *.
  assert (Hlen := lru_len _ _ H). assert (i < NBUF)%nat as Hi.
  { apply (lru_elem _ _ _ H). rewrite elem_of_app, elem_of_cons. auto. }
  destruct (lru_range _ _ i H (Nat.lt_le_incl _ _ Hi)) as [Hn Hp].
  destruct (lru_range _ _ bhead H) as [Hhn _]; [done|].
  destruct (unlinked_spec i bufs) as (U1 & U2 & U3 & U4); [lia..|].
  destruct (inserted_spec i (unlinked i bufs)) as (I1 & I2 & I3 & I4); [rewrite U4; unfold bhead; lia|..].
  { rewrite U1, U4. unfold fupd. case_decide; lia. }
  { rewrite U4. unfold bhead. lia. }
  exists (inserted i (unlinked i bufs)). split; [apply move_to_head_eq; fold bufs; lia|].
  split; [split|].
  - by rewrite I4, U4.
  - rewrite Permutation_middle. apply (lru_perm _ _ H).
  - eapply dll_ext; [..|exact (dll_move _ _ _ _ _ _ (lru_dll _ _ H) (lru_nodup _ _ H))]; intros x.
    + rewrite I1, U1. apply fupd_ext. intros y. by apply fupd_ext.
    + rewrite I2, U1. apply fupd_ext. intros y. by apply fupd_ext.
  - intros x. by rewrite I3, U3.
Qed.

(** ** The cache invariant

    [cache_ok s V P L]: the cache presents the blocks [V]; [P] are the blocks
    that are pinned, that is, modified and waiting for the log to write
    them; [L] maps the buffers the running process has locked to their block
    numbers.  No buffer is in use by another process. *)

Definition buf_ok (pid disksize : Z) (V : Z -> block) (P : gset Z) (held : option Z) (b : buf) : Prop :=
  block_ok (b_data b) /\
  ((b_dev b = 0 /\ b_flags b = 0) \/
   (b_dev b = 1 /\ b_blockno b < disksize /\ b_data b = V (b_blockno b) /\
    b_flags b = if bool_decide (b_blockno b ∈ P) then 6 else 2)) /\
  match held with
  | None => b_refcnt b = 0 /\ sl_locked (b_lock b) = 0
  | Some n => b_refcnt b = 1 /\ b_lock b = mksleeplock 1 pid /\ b_dev b = 1 /\ b_blockno b = n
  end.

Record cache_ok (s : kernel) (V : Z -> block) (P : gset Z) (L : gmap nat Z) : Prop := {
  co_quiet : quiet s;
  co_lru : exists order, lru (k_bufs s) order;
  co_buf : forall i, (i < NBUF)%nat ->
    buf_ok (cur_pid s) (k_disksize s) V P (L !! i) (k_bufs s !!! i);
  co_uniq : forall i j, (i < NBUF)%nat -> (j < NBUF)%nat ->
    b_dev (k_bufs s !!! i) = 1 -> b_dev (k_bufs s !!! j) = 1 ->
    b_blockno (k_bufs s !!! i) = b_blockno (k_bufs s !!! j) -> i = j;
  co_pin : forall n, n ∈ P -> exists i, (i < NBUF)%nat /\
    b_dev (k_bufs s !!! i) = 1 /\ b_blockno (k_bufs s !!! i) = n;
  co_clean : forall n, n ∉ P -> (forall i, L !! i <> Some n) -> V n = k_disk s n;
  co_dom : forall i n, L !! i = Some n -> (i < NBUF)%nat;
  co_disk : forall n, block_ok (k_disk s n);
}.

(** What the operations on the cache leave alone: they change the buffers and
    wake processes. *)
Definition cframe (s s' : kernel) : Prop :=
  s' = set_k_bufs (k_bufs s') (set_k_proc (k_proc s') s) /\ wakes (k_proc s) (k_proc s').

#[global] Instance cframe_preorder : PreOrder cframe.
Proof.
  split.
  - intros s. split; [by destruct s|done].
  - intros s1 s2 s3 [E2 H2] [E3 H3]. split; [|by etrans]. rewrite E3. by rewrite E2.
Qed.

Lemma cframe_bufs bufs s : cframe s (set_k_bufs bufs s).
Proof. split; [keq|done]. Qed.

Lemma cframe_pid s s' : cframe s s' -> cur_pid s' = cur_pid s.
Proof.
  intros [E H]. unfold cur_pid. assert (k_cur s' = k_cur s) as -> by by rewrite E.
  case_match; [by apply wakes_pid|done].
Qed.

Lemma cframe_quiet s s' : cframe s s' -> quiet s -> quiet s'.
Proof. intros [E _] [H1 H2]. split; rewrite E; done. Qed.

(** Replacing one buffer of the cache, and with it the abstract state. *)
Lemma cache_upd s V P L f i V' P' L' s' :
  cache_ok s V P L -> (i < NBUF)%nat -> (forall b, b_next (f b) = b_next b /\ b_prev (f b) = b_prev b) ->
  k_bufs s' = alter f i (k_bufs s) -> quiet s' -> cur_pid s' = cur_pid s ->
  k_disksize s' = k_disksize s -> (forall n, block_ok (k_disk s' n)) ->
  buf_ok (cur_pid s) (k_disksize s) V' P' (L' !! i) (f (k_bufs s !!! i)) ->
  (forall j, (j < NBUF)%nat -> j <> i ->
     buf_ok (cur_pid s) (k_disksize s) V' P' (L' !! j) (k_bufs s !!! j)) ->
  (forall j, (j < NBUF)%nat -> j <> i -> b_dev (f (k_bufs s !!! i)) = 1 ->
     b_dev (k_bufs s !!! j) = 1 -> b_blockno (f (k_bufs s !!! i)) <> b_blockno (k_bufs s !!! j)) ->
  (forall n, n ∈ P' -> exists j, (j < NBUF)%nat /\
     b_dev (k_bufs s' !!! j) = 1 /\ b_blockno (k_bufs s' !!! j) = n) ->
  (forall n, n ∉ P' -> (forall j, L' !! j <> Some n) -> V' n = k_disk s' n) ->
  (forall j n, L' !! j = Some n -> (j < NBUF)%nat) ->
  cache_ok s' V' P' L'.
Proof.
  intros H Hi Hf Hb Hq Hpid Hdsz Hdisk Hbi Hbj Hu Hpin Hclean Hdom.
  destruct (co_lru _ _ _ _ H) as [order [Hlen Hperm Hdll]].
  assert (forall x, k_bufs s' !!! x = if decide (x = i) then f (k_bufs s !!! i) else k_bufs s !!! x) as Hx.
  { intros x. rewrite Hb. apply lookup_alter_buf. lia. }
  split; try done.
  - exists order. split; [by rewrite Hb, length_alter|done|].
    eapply dll_ext; [..|exact Hdll]; intros x; unfold nx, pv; rewrite Hx; case_decide; subst; try done;
      apply Hf.
  - intros j Hj. rewrite Hx, Hpid, Hdsz. case_decide; subst; auto.
  - intros j k Hj Hk. rewrite !Hx. case_decide; case_decide; subst; auto.
    + intros D1 D2 E. by destruct (Hu k).
    + intros D1 D2 E. by destruct (Hu j).
    + apply (co_uniq _ _ _ _ H); done.
Qed.

Lemma find_elem {A} (f : A -> bool) l x : List.find f l = Some x -> x ∈ l /\ f x = true.
Proof. rewrite list_elem_of_In. apply find_some. Qed.

Lemma find_not {A} (f : A -> bool) l x : List.find f l = None -> x ∈ l -> f x = false.
Proof. intros H. rewrite list_elem_of_In. by apply find_none. Qed.

Lemma nodup_size `{Countable A} (l : list A) (X : gset A) :
  NoDup l -> (forall x, x ∈ l -> x ∈ X) -> (length l <= size X)%nat.
Proof.
  intros Hnd Hin. rewrite <- (size_list_to_set (C := gset A)) by done. apply subseteq_size.
  intros x. rewrite elem_of_list_to_set. auto.
Qed.

(** A request for a locked buffer whose contents were never read. *)
Lemma iderw_read i s :
  quiet s -> (i < length (k_bufs s))%nat ->
  let b := k_bufs s !!! i in
  b_lock b = mksleeplock 1 (cur_pid s) -> b_flags b = 0 -> b_dev b = 1 -> b_blockno b < k_disksize s ->
  iderw i s =
    Ret tt (set_k_bufs (alter (fun b => set_b_flags 2 (set_b_data (k_disk s (b_blockno b)) b)) i (k_bufs s)) s).
Proof.
  intros Hq Hi b Hl Hf Hd Hn. unfold iderw, is_dirty, get_buf, upd_buf.
  erewrite bind_run by by apply holdingsleep_mine. cbn [negb]. krun. fold b. rewrite Hf, Hd.
  change (Z.land 0 (Z.lor B_VALID B_DIRTY) =? B_VALID) with false. change (1 =? 1) with true.
  cbn [negb]. rewrite (proj2 (Z.leb_gt _ _) Hn).
  change (Z.land 0 B_DIRTY =? 0) with true. cbn [negb res_bind]. kproj.
  rewrite lookup_alter_buf, decide_True by done. fold b. rewrite list_alter_alter_eq.
  rewrite (list_alter_ext _ (fun b => set_b_flags 2 (set_b_data (k_disk s (b_blockno b)) b)) _ (k_bufs s) i).
  - keq.
  - intros x Hx. apply list_lookup_total_correct in Hx. subst x. unfold compose.
    cbn [b_flags set_b_data]. fold b. by rewrite Hf.
  - done.
Qed.

(** A request for a locked, modified buffer. *)
Lemma iderw_write i s :
  quiet s -> (i < length (k_bufs s))%nat ->
  let b := k_bufs s !!! i in
  b_lock b = mksleeplock 1 (cur_pid s) -> b_flags b = 6 -> b_dev b = 1 -> b_blockno b < k_disksize s ->
  iderw i s =
    Ret tt (disk_write (b_blockno b) (b_data b) (set_k_bufs (alter (set_b_flags 2) i (k_bufs s)) s)).
Proof.
  intros Hq Hi b Hl Hf Hd Hn. unfold iderw, is_dirty, get_buf, upd_buf.
  erewrite bind_run by by apply holdingsleep_mine. cbn [negb]. krun. fold b. rewrite Hf, Hd.
  change (Z.land 6 (Z.lor B_VALID B_DIRTY) =? B_VALID) with false. change (1 =? 1) with true.
  cbn [negb]. rewrite (proj2 (Z.leb_gt _ _) Hn).
  change (Z.land 6 B_DIRTY =? 0) with false. cbn [negb res_bind]. unfold disk_write. kproj.
  rewrite lookup_alter_buf, decide_True by done. fold b. rewrite list_alter_alter_eq.
  rewrite (list_alter_ext _ (set_b_flags 2) _ (k_bufs s) i); [keq|done..].
Qed.

(** Relinking the list changes nothing else. *)
Lemma cache_links {s V P L} (H : cache_ok s V P L) bufs order :
  lru bufs order -> (forall x, core (bufs !!! x) = core (k_bufs s !!! x)) ->
  cache_ok (set_k_bufs bufs s) V P L.
Proof.
  intros Hl Hc.
  assert (forall A (p : buf -> A), (forall b, p (core b) = p b) ->
    forall x, p (bufs !!! x) = p (k_bufs s !!! x)) as G.
  { intros A p Hp x. by rewrite <- Hp, Hc, Hp. }
  assert (Ed := G _ b_dev (fun _ => eq_refl)). assert (En := G _ b_blockno (fun _ => eq_refl)).
  split; kproj; try apply H.
  - apply (cframe_quiet s); [apply cframe_bufs|apply H].
  - eauto.
  - intros i Hi. change (cur_pid (set_k_bufs bufs s)) with (cur_pid s).
    pose proof (co_buf _ _ _ _ H i Hi) as Hb. unfold buf_ok in *. rewrite !Ed, !En.
    rewrite (G _ b_data), (G _ b_flags), (G _ b_refcnt), (G _ b_lock); done.
  - intros i j. rewrite !Ed, !En. apply H.
  - intros n Hn. destruct (co_pin _ _ _ _ H n Hn) as (j & ?). exists j. by rewrite Ed, En.
Qed.

Section cache.
Context {s : kernel} {V : Z -> block} {P : gset Z} {L : gmap nat Z}.
Hypothesis H : cache_ok s V P L.

Lemma cache_walk_hit n order i :
  lru (k_bufs s) order ->
  List.find (fun i => bmatch 1 n (k_bufs s !!! i)) order = Some i ->
  (i < NBUF)%nat /\ b_dev (k_bufs s !!! i) = 1 /\ b_blockno (k_bufs s !!! i) = n.
Proof.
  intros Hl [Hin Ht]%find_elem. apply (lru_elem _ _ _ Hl) in Hin. unfold bmatch in Ht. lia.
Qed.

Lemma cache_walk_miss n order i :
  lru (k_bufs s) order ->
  List.find (fun i => bmatch 1 n (k_bufs s !!! i)) order = None -> (i < NBUF)%nat ->
  b_dev (k_bufs s !!! i) = 1 -> b_blockno (k_bufs s !!! i) <> n.
Proof.
  intros Hl Hf Hi Hd Hn. apply (lru_elem _ _ _ Hl) in Hi.
  pose proof (find_not _ _ _ Hf Hi) as Ht. unfold bmatch in Ht. lia.
Qed.

(** A buffer that is neither locked nor pinned can be recycled. *)
Lemma bunused_iff i :
  (i < NBUF)%nat ->
  bunused (k_bufs s !!! i) = true <->
  L !! i = None /\ ~ (b_dev (k_bufs s !!! i) = 1 /\ b_blockno (k_bufs s !!! i) ∈ P).
Proof.
  intros Hi. destruct (co_buf _ _ _ _ H i Hi) as (_ & Hf & Hh).
  unfold bunused, is_dirty, B_DIRTY. destruct (L !! i) as [n|].
  { destruct Hh as [-> _]. simpl. split; [done|]. by intros [? _]. }
  destruct Hh as [-> _]. simpl. destruct Hf as [(Hd & ->)|(Hd & _ & _ & ->)].
  { simpl. split; [|done]. intros _. split; [done|]. intros [? _]. lia. }
  case_bool_decide as Hp; simpl; naive_solver.
Qed.

(** With fewer than NBUF buffers locked or pinned, one can be recycled. *)
Lemma cache_room order :
  lru (k_bufs s) order -> (size L + size P < NBUF)%nat ->
  exists i, List.find (fun i => bunused (k_bufs s !!! i)) (rev order) = Some i.
Proof.
  intros Hl Hroom. destruct (List.find _ _) as [i|] eqn:Hf; [eauto|]. exfalso.
  assert (forall i, (i < NBUF)%nat -> L !! i = None ->
    b_dev (k_bufs s !!! i) = 1 /\ b_blockno (k_bufs s !!! i) ∈ P) as Hall.
  { intros i Hi HL. pose proof Hi as Hi'. apply (lru_elem _ _ _ Hl), elem_of_rev in Hi'.
    pose proof (find_not _ _ _ Hf Hi') as Hb. cbv beta in Hb.
    destruct (decide (b_dev (k_bufs s !!! i) = 1 /\ b_blockno (k_bufs s !!! i) ∈ P)); [done|].
    rewrite (proj2 (bunused_iff i Hi)) in Hb; done. }
  set (open := filter (fun i => L !! i = None) (seq 0 NBUF)).
  set (used := filter (fun i => ~ L !! i = None) (seq 0 NBUF)).
  assert (length open + length used = NBUF)%nat as Hsum.
  { unfold used, open. by rewrite <- length_app, filter_app_complement, length_seq. }
  assert (length used <= size L)%nat as Hused.
  { rewrite <- (size_dom (D := gset nat)). apply nodup_size; [apply NoDup_filter, NoDup_seq|].
    intros i [Hi _]%list_elem_of_filter. apply elem_of_dom. by destruct (L !! i); eauto. }
  assert (length open <= size P)%nat as Hopen.
  { rewrite <- (length_fmap (fun i => b_blockno (k_bufs s !!! i)) open). apply nodup_size.
    - apply NoDup_fmap_2_strong; [|apply NoDup_filter, NoDup_seq].
      intros i j [Hi Hi'%elem_of_seq]%list_elem_of_filter [Hj Hj'%elem_of_seq]%list_elem_of_filter.
      apply (co_uniq _ _ _ _ H); try lia; apply Hall; (lia || done).
    - intros n (i & -> & [Hi Hi'%elem_of_seq]%list_elem_of_filter)%list_elem_of_fmap.
      apply Hall; [lia|done]. }
  lia.
Qed.

(** The entry of [bget] in the two ways it can succeed. *)
Definition bgot_hit (pid : Z) (b : buf) : buf :=
  set_b_lock (mksleeplock 1 pid) (set_b_refcnt (u32 (b_refcnt b + 1)) b).
Definition bgot_miss (pid n : Z) (b : buf) : buf :=
  set_b_lock (mksleeplock 1 pid)
    (set_b_refcnt 1 (set_b_flags 0 (set_b_blockno n (set_b_dev 1 b)))).

Lemma locked_none i :
  (i < NBUF)%nat -> L !! i = None -> sl_locked (b_lock (k_bufs s !!! i)) = 0.
Proof. intros Hi HL. destruct (co_buf _ _ _ _ H i Hi) as (_ & _ & Hh). rewrite HL in Hh. tauto. Qed.

(** The end of both branches: release the cache's lock, lock the buffer. *)
Lemma bget_finish `{Fuel} f i :
  (i < NBUF)%nat -> L !! i = None -> (forall b, b_lock (f b) = b_lock b) ->
  (upd_buf i f ;; release L_bcache ;; acquiresleep (SL_buf i) ;; ret i)
    (set_k_held [L_bcache] s) =
  Ret i (set_k_bufs (alter (fun b => set_b_lock (mksleeplock 1 (cur_pid s)) (f b)) i (k_bufs s)) s).
Proof.
  intros Hi HL Hf. destruct (co_quiet _ _ _ _ H) as [Hh Hc]. destruct (co_lru _ _ _ _ H) as [o Ho].
  unfold upd_buf. krun. rewrite (release_head _ []) by (done || apply not_elem_of_nil). cbn [res_bind].
  rewrite acquiresleep_quiet.
  - cbn [res_bind set_sl]. kproj. rewrite list_alter_alter_eq. f_equal.
    unfold cur_pid. kproj. destruct s. simpl in *. by subst.
  - split; done.
  - cbn [get_sl]. kproj. rewrite lookup_alter_buf by (rewrite (lru_len _ _ Ho); lia).
    rewrite decide_True, Hf by done. by apply locked_none.
Qed.

Lemma bget_hit `{Fuel} n order i :
  lru (k_bufs s) order -> List.find (fun i => bmatch 1 n (k_bufs s !!! i)) order = Some i ->
  L !! i = None ->
  bget 1 n s = Ret i (set_k_bufs (alter (bgot_hit (cur_pid s)) i (k_bufs s)) s).
Proof.
  intros Hl Hf HL. destruct (cache_walk_hit _ _ _ Hl Hf) as (Hi & _).
  destruct (co_quiet _ _ _ _ H) as [Hh Hc].
  unfold bget. erewrite bind_run by (apply acquire_run; by apply quiet_not_held, (co_quiet _ _ _ _ H)).
  rewrite Hh. erewrite bind_run by reflexivity. kproj.
  rewrite (lru_walk_next _ order), Hf by done. by apply bget_finish.
Qed.

Lemma bget_miss `{Fuel} n order i :
  lru (k_bufs s) order -> List.find (fun i => bmatch 1 n (k_bufs s !!! i)) order = None ->
  List.find (fun i => bunused (k_bufs s !!! i)) (rev order) = Some i ->
  bget 1 n s = Ret i (set_k_bufs (alter (bgot_miss (cur_pid s) n) i (k_bufs s)) s).
Proof.
  intros Hl Hf Hu. destruct (co_quiet _ _ _ _ H) as [Hh Hc].
  unfold bget. erewrite bind_run by (apply acquire_run; by apply quiet_not_held, (co_quiet _ _ _ _ H)).
  rewrite Hh. erewrite bind_run by reflexivity. kproj.
  rewrite (lru_walk_next _ order), Hf by done. rewrite (lru_walk_prev _ order), Hu by done.
  apply find_elem in Hu as [Hin Ht]. rewrite elem_of_rev, (lru_elem _ _ _ Hl) in Hin.
  apply bget_finish; [done| |done]. by apply bunused_iff.
Qed.

(** The buffers other than [i] do not notice that [i] is locked or unlocked. *)
Lemma others_ok i h j :
  (j < NBUF)%nat -> j <> i ->
  buf_ok (cur_pid s) (k_disksize s) V P (partial_alter (fun _ => h) i L !! j) (k_bufs s !!! j).
Proof. intros Hj Hne. rewrite lookup_partial_alter_ne by done. by apply (co_buf _ _ _ _ H). Qed.

Lemma lock_clean i n m :
  L !! i = None -> m ∉ P -> (forall j, <[i:=n]> L !! j <> Some m) -> V m = k_disk s m.
Proof.
  intros HL Hm Hall. apply (co_clean _ _ _ _ H m Hm). intros j Hj.
  destruct (decide (j = i)) as [->|]; [congruence|]. apply (Hall j). by rewrite lookup_insert_ne.
Qed.

Lemma lock_dom i n j m : (i < NBUF)%nat -> <[i:=n]> L !! j = Some m -> (j < NBUF)%nat.
Proof.
  intros Hi Hj. destruct (decide (j = i)) as [->|]; [done|]. rewrite lookup_insert_ne in Hj by done.
  by apply (co_dom _ _ _ _ H j m).
Qed.

Lemma cache_hit i n :
  (i < NBUF)%nat -> L !! i = None ->
  b_dev (k_bufs s !!! i) = 1 -> b_blockno (k_bufs s !!! i) = n ->
  cache_ok (set_k_bufs (alter (bgot_hit (cur_pid s)) i (k_bufs s)) s) V P (<[i:=n]> L).
Proof.
  intros Hi HL Hd Hn. destruct (co_lru _ _ _ _ H) as [o Ho].
  destruct (co_buf _ _ _ _ H i Hi) as (Hb1 & Hb2 & Hb3). rewrite HL in Hb3. destruct Hb3 as [Hr _].
  eapply (cache_upd s V P L (bgot_hit (cur_pid s)) i); try done.
  - apply (cframe_quiet s); [apply cframe_bufs|apply (co_quiet _ _ _ _ H)].
  - apply (co_disk _ _ _ _ H).
  - rewrite lookup_insert_eq. split_and!; try done. simpl. by rewrite Hr.
  - intros j Hj Hne. by apply (others_ok i (Some n)).
  - intros j Hj Hne D1 D2 E. apply Hne. symmetry. by apply (co_uniq _ _ _ _ H).
  - intros m (j & Hj & D & E)%(co_pin _ _ _ _ H). exists j. kproj.
    rewrite lookup_alter_buf by (rewrite (lru_len _ _ Ho); lia).
    destruct (decide (j = i)) as [->|]; done.
  - intros m. by apply lock_clean.
  - intros j m. by apply lock_dom.
Qed.

(** The buffer recycled for block [n] and filled from the disk. *)
Definition brecycled (pid n : Z) (d : block) (b : buf) : buf :=
  set_b_flags 2 (set_b_data d (bgot_miss pid n b)).

Lemma cache_recycle i n :
  (i < NBUF)%nat -> bunused (k_bufs s !!! i) = true -> n < k_disksize s ->
  (forall j, (j < NBUF)%nat -> b_dev (k_bufs s !!! j) = 1 -> b_blockno (k_bufs s !!! j) <> n) ->
  cache_ok (set_k_bufs (alter (brecycled (cur_pid s) n (k_disk s n)) i (k_bufs s)) s) V P (<[i:=n]> L).
Proof.
  intros Hi [HL HP]%bunused_iff Hn Hnone; [|done]. destruct (co_lru _ _ _ _ H) as [o Ho].
  assert (n ∉ P) as HnP.
  { intros (j & Hj & D & E)%(co_pin _ _ _ _ H). by apply (Hnone j). }
  assert (V n = k_disk s n) as HV.
  { apply (co_clean _ _ _ _ H); [done|]. intros j Hj.
    pose proof (co_dom _ _ _ _ H _ _ Hj) as Hj'.
    destruct (co_buf _ _ _ _ H j Hj') as (_ & _ & Hh). rewrite Hj in Hh. apply (Hnone j); tauto. }
  eapply (cache_upd s V P L (brecycled (cur_pid s) n (k_disk s n)) i); try done.
  - apply (cframe_quiet s); [apply cframe_bufs|apply (co_quiet _ _ _ _ H)].
  - apply (co_disk _ _ _ _ H).
  - rewrite lookup_insert_eq. split_and!; try done; [apply (co_disk _ _ _ _ H)|]. right. simpl.
    by rewrite bool_decide_eq_false_2.
  - intros j Hj Hne. by apply (others_ok i (Some n)).
  - intros j Hj Hne _ D2. simpl. intros E. by apply (Hnone j).
  - intros m Hm. destruct (co_pin _ _ _ _ H m Hm) as (j & Hj & D & E). exists j. kproj.
    rewrite lookup_alter_buf by (rewrite (lru_len _ _ Ho); lia). case_decide; [|done].
    subst. tauto.
  - intros m. by apply lock_clean.
  - intros j m. by apply lock_dom.
Qed.

(** The contents of a locked buffer are the block's. *)
Lemma cache_data i n : L !! i = Some n -> b_data (k_bufs s !!! i) = V n.
Proof.
  intros HL. destruct (co_buf _ _ _ _ H i (co_dom _ _ _ _ H _ _ HL)) as (_ & Hf & Hh).
  rewrite HL in Hh. destruct Hh as (_ & _ & Hd & Hn). destruct Hf as [[]|(_ & _ & -> & _)]; [lia|].
  by rewrite Hn.
Qed.

Lemma not_locked i n :
  (i < NBUF)%nat -> b_blockno (k_bufs s !!! i) = n -> (forall j, L !! j <> Some n) -> L !! i = None.
Proof.
  intros Hi Hn Hno. destruct (L !! i) as [m|] eqn:E; [|done].
  destruct (co_buf _ _ _ _ H i Hi) as (_ & _ & Hh). rewrite E in Hh.
  destruct (Hno i). rewrite E. f_equal. destruct Hh as (_ & _ & _ & <-). done.
Qed.

Lemma bread_spec `{Fuel} n :
  n < k_disksize s -> (forall j, L !! j <> Some n) ->
  (n ∈ P \/ size L + size P < NBUF)%nat ->
  wp (bread 1 n) s (fun i s' =>
    L !! i = None /\ cache_ok s' V P (<[i:=n]> L) /\ exists bufs, s' = set_k_bufs bufs s).
Proof.
  intros Hn Hno Hroom. destruct (co_lru _ _ _ _ H) as [order Ho].
  assert (Hlen := lru_len _ _ Ho).
  unfold bread, get_buf, when.
  destruct (List.find (fun i => bmatch 1 n (k_bufs s !!! i)) order) as [i|] eqn:Hf.
  - destruct (cache_walk_hit _ _ _ Ho Hf) as (Hi & Hd & Hb).
    assert (HL := not_locked _ _ Hi Hb Hno). eapply wp_run.
    + erewrite bind_run by by eapply bget_hit. krun. kproj.
      rewrite lookup_alter_buf, decide_True by (done || lia).
      destruct (co_buf _ _ _ _ H i Hi) as (_ & [[]|(_ & _ & _ & Hfl)] & _); [lia|].
      unfold is_valid, bgot_hit. cbn [b_flags set_b_lock set_b_refcnt]. rewrite Hfl.
      case_bool_decide; reflexivity.
    + split; [done|]. split; [by apply cache_hit|eauto].
  - assert (forall j, (j < NBUF)%nat -> b_dev (k_bufs s !!! j) = 1 -> b_blockno (k_bufs s !!! j) <> n) as Hno'.
    { intros j Hj. by eapply cache_walk_miss. }
    destruct (cache_room order Ho) as [i Hu].
    { destruct Hroom as [(j & Hj & D & E)%(co_pin _ _ _ _ H)|]; [by destruct (Hno' j)|done]. }
    pose proof Hu as [Hin Ht]%find_elem. rewrite elem_of_rev, (lru_elem _ _ _ Ho) in Hin.
    eapply wp_run.
    + erewrite bind_run by by eapply bget_miss. krun. kproj.
      rewrite lookup_alter_buf, decide_True by (done || lia). 
      change (is_valid (bgot_miss _ _ _)) with false. cbn [negb].
      rewrite iderw_read; kproj; rewrite ?length_alter, ?lookup_alter_buf, ?decide_True by (done || lia).
      * cbn [res_bind]. rewrite list_alter_alter_eq. reflexivity.
      * apply (cframe_quiet s); [apply cframe_bufs|apply (co_quiet _ _ _ _ H)].
      * lia.
      * done.
      * done.
      * done.
      * done.
    + apply bunused_iff in Ht as HL; [|done].
      split; [tauto|]. split; [|eexists; reflexivity]. exact (cache_recycle _ _ Hin Ht Hn Hno').
Qed.

(** What is known of a locked buffer. *)
Lemma cache_locked i n :
  L !! i = Some n ->
  (i < NBUF)%nat /\ b_lock (k_bufs s !!! i) = mksleeplock 1 (cur_pid s) /\
  b_refcnt (k_bufs s !!! i) = 1 /\ b_dev (k_bufs s !!! i) = 1 /\ b_blockno (k_bufs s !!! i) = n /\
  n < k_disksize s /\ block_ok (V n) /\ b_data (k_bufs s !!! i) = V n /\
  b_flags (k_bufs s !!! i) = (if bool_decide (n ∈ P) then 6 else 2) /\
  (i < length (k_bufs s))%nat.
Proof.
  intros HL. assert (Hi := co_dom _ _ _ _ H _ _ HL). destruct (co_lru _ _ _ _ H) as [o Ho].
  destruct (co_buf _ _ _ _ H i Hi) as (Hb & Hf & Hh). rewrite HL in Hh.
  destruct Hh as (Hr & Hl & Hd & Hn). destruct Hf as [[]|(_ & Hs & Hdt & Hf)]; [lia|].
  rewrite Hn in *. rewrite Hdt in Hb. rewrite (lru_len _ _ Ho). split_and!; (done || lia).
Qed.

(** Other buffers hold other blocks. *)
Lemma other_block i n j :
  L !! i = Some n -> (j < NBUF)%nat -> j <> i -> b_dev (k_bufs s !!! j) = 1 ->
  b_blockno (k_bufs s !!! j) <> n.
Proof.
  intros (Hi & _ & _ & Hd & Hn & _)%cache_locked Hj Hne D E. apply Hne.
  apply (co_uniq _ _ _ _ H); congruence.
Qed.

(** A change of a locked buffer that leaves its identity and locks alone. *)
Lemma cache_change f i n V' P' s' :
  L !! i = Some n ->
  k_bufs s' = alter f i (k_bufs s) -> quiet s' -> cur_pid s' = cur_pid s ->
  k_disksize s' = k_disksize s -> (forall m, block_ok (k_disk s' m)) ->
  (forall m, m <> n -> V' m = V m /\ (m ∈ P' <-> m ∈ P) /\ k_disk s' m = k_disk s m) ->
  (forall b, b_next (f b) = b_next b /\ b_prev (f b) = b_prev b /\ b_dev (f b) = b_dev b /\
     b_blockno (f b) = b_blockno b /\ b_refcnt (f b) = b_refcnt b /\ b_lock (f b) = b_lock b) ->
  block_ok (V' n) -> b_data (f (k_bufs s !!! i)) = V' n ->
  b_flags (f (k_bufs s !!! i)) = (if bool_decide (n ∈ P') then 6 else 2) ->
  cache_ok s' V' P' L.
Proof.
  intros HL Hb Hq Hpid Hdsz Hdisk Hm Hf Hok Hdata Hflags.
  pose proof HL as (Hi & Hlk & Hr & Hd & Hn & Hs & _ & _ & _ & Hlen)%cache_locked.
  destruct (Hf (k_bufs s !!! i)) as (_ & _ & F3 & F4 & F5 & F6).
  eapply (cache_upd s V P L f i); try done.
  - intros b. destruct (Hf b) as (? & ? & _). done.
  - rewrite HL. unfold buf_ok. rewrite F3, F4, F5, F6, Hdata, Hn. split; [done|]. split; [|done].
    right. done.
  - intros j Hj Hne. destruct (co_buf _ _ _ _ H j Hj) as (B1 & B2 & B3). split; [done|]. split; [|done].
    destruct B2 as [|(D & B4 & B5 & B6)]; [by left|]. right.
    assert (Hnj := other_block _ _ _ HL Hj Hne D). destruct (Hm _ Hnj) as (-> & Hiff & _).
    split_and!; try done. rewrite B6. by rewrite (bool_decide_ext _ _ Hiff).
  - intros j Hj Hne _ D. rewrite F4, Hn. intros E. by apply (other_block _ _ _ HL Hj Hne D).
  - intros m HmP. rewrite Hb. destruct (decide (m = n)) as [->|Hne].
    + exists i. rewrite lookup_alter_buf, decide_True by done. by rewrite F3, F4.
    + apply (Hm _ Hne) in HmP. destruct (co_pin _ _ _ _ H m HmP) as (j & Hj & D & E). exists j.
      rewrite lookup_alter_buf by done. destruct (decide (j = i)) as [->|]; [congruence|done].
  - intros m HmP Hall. assert (m <> n) as Hne by congruence.
    destruct (Hm _ Hne) as (-> & Hiff & ->). apply (co_clean _ _ _ _ H); [by rewrite <- Hiff|done].
  - apply (co_dom _ _ _ _ H).
Qed.

(** Writing to [b->data]. *)
Lemma cache_set_data i n d :
  L !! i = Some n -> block_ok d ->
  cache_ok (set_k_bufs (alter (set_b_data d) i (k_bufs s)) s) (bset V n d) P L.
Proof.
  intros HL Hd. pose proof HL as (_ & _ & _ & _ & _ & _ & _ & _ & Hf & _)%cache_locked.
  eapply (cache_change (set_b_data d) i n); try done; rewrite ?bset_eq; try done.
  - apply (cframe_quiet s); [apply cframe_bufs|apply (co_quiet _ _ _ _ H)].
  - apply (co_disk _ _ _ _ H).
  - intros m Hm. by rewrite bset_ne.
Qed.

(** Pinning a block: [b->flags |= B_DIRTY]. *)
Lemma cache_pin i n :
  L !! i = Some n ->
  cache_ok (set_k_bufs (alter (fun b => set_b_flags (Z.lor (b_flags b) B_DIRTY) b) i (k_bufs s)) s)
    V ({[n]} ∪ P) L.
Proof.
  intros HL. pose proof HL as (_ & _ & _ & _ & _ & _ & Hok & Hdt & Hf & _)%cache_locked.
  eapply (cache_change (fun b => set_b_flags (Z.lor (b_flags b) B_DIRTY) b) i n); try done.
  - apply (cframe_quiet s); [apply cframe_bufs|apply (co_quiet _ _ _ _ H)].
  - apply (co_disk _ _ _ _ H).
  - intros m Hm. set_solver.
  - cbn [b_flags set_b_flags]. rewrite Hf, (bool_decide_eq_true_2 (n ∈ {[n]} ∪ P)) by set_solver.
    by case_bool_decide.
Qed.

Lemma bwrite_spec i n :
  L !! i = Some n ->
  wp (bwrite i) s (fun _ s' =>
    cache_ok s' V (P ∖ {[n]}) L /\ exists bufs, s' = disk_write n (V n) (set_k_bufs bufs s)).
Proof.
  intros HL. pose proof HL as (Hi & Hlk & Hr & Hd & Hn & Hs & Hok & Hdt & Hf & Hlen)%cache_locked.
  assert (Hq := co_quiet _ _ _ _ H).
  set (f := fun b => set_b_flags (Z.lor (b_flags b) B_DIRTY) b).
  eapply wp_run.
  - unfold bwrite. erewrite bind_run by by apply holdingsleep_mine. cbn [negb].
    unfold upd_buf. krun. fold f.
    rewrite iderw_write; kproj; rewrite ?length_alter, ?lookup_alter_buf, ?decide_True by done;
      [| |done|done| |done|].
    + change (b_blockno (f (k_bufs s !!! i))) with (b_blockno (k_bufs s !!! i)).
      change (b_data (f (k_bufs s !!! i))) with (b_data (k_bufs s !!! i)). rewrite Hn, Hdt.
      rewrite list_alter_alter_eq. reflexivity.
    + by apply (cframe_quiet s); [apply cframe_bufs|].
    + unfold f. cbn [b_flags set_b_flags]. rewrite Hf. by case_bool_decide.
    + unfold f. cbn [b_blockno set_b_flags]. lia.
  - split; [|eauto].
    eapply (cache_change (set_b_flags 2 ∘ f) i n); try done.
    + destruct Hq. by split.
    + intros m. unfold disk_write. kproj. unfold bset. destruct (m =? n); [done|apply (co_disk _ _ _ _ H)].
    + intros m Hm. simpl. rewrite bset_ne by done. set_solver.
    + rewrite bool_decide_eq_false_2 by set_solver. done.
Qed.

(** The state in which a buffer's last reference is dropped. *)
Definition bfreed (b : buf) : buf := set_b_refcnt (u32 (b_refcnt b - 1)) (set_b_lock (mksleeplock 0 0) b).

Lemma cache_release i n ps :
  L !! i = Some n -> n ∈ P \/ V n = k_disk s n -> wakes (k_proc s) ps ->
  cache_ok (set_k_bufs (alter bfreed i (k_bufs s)) (set_k_proc ps s)) V P (delete i L).
Proof.
  intros HL Hn Hw. pose proof HL as (Hi & _ & Hr & Hd & Hb & Hs & Hok & Hdt & Hf & Hlen)%cache_locked.
  assert (cframe s (set_k_bufs (alter bfreed i (k_bufs s)) (set_k_proc ps s))) as Hfr by (split; [keq|done]).
  eapply (cache_upd s V P L bfreed i); try done; try apply H.
  - by apply (cframe_quiet s); [|apply H].
  - by apply cframe_pid.
  - rewrite lookup_delete_eq. split_and!; simpl; try done; [by rewrite Hdt| |by rewrite Hr]. right.
    by rewrite Hb.
  - intros j Hj Hne. by apply (others_ok i None).
  - intros j Hj Hne _ D. simpl. rewrite Hb. intros E. by apply (other_block _ _ _ HL Hj Hne D).
  - intros m (j & Hj & D & E)%(co_pin _ _ _ _ H). exists j. kproj. rewrite lookup_alter_buf by done.
    destruct (decide (j = i)) as [->|]; done.
  - intros m Hm Hall. destruct (decide (m = n)) as [->|Hne]; [by destruct Hn|].
    apply (co_clean _ _ _ _ H m Hm). intros j Hj. apply (Hall j). rewrite lookup_delete_ne; [done|].
    congruence.
  - intros j m [_ Hj]%lookup_delete_Some. by apply (co_dom _ _ _ _ H j m).
Qed.

Lemma brelse_spec i n :
  L !! i = Some n -> n ∈ P \/ V n = k_disk s n ->
  wp (brelse i) s (fun _ s' => cache_ok s' V P (delete i L) /\ cframe s s').
Proof.
  intros HL Hn. pose proof HL as (Hi & Hlk & Hr & Hd & Hb & Hs & Hok & Hdt & Hf & Hlen)%cache_locked.
  destruct (co_quiet _ _ _ _ H) as [Hh Hc].
  set (ps := wake (Some (Ch_sleep (SL_buf i))) <$> k_proc s).
  assert (Hw : wakes (k_proc s) ps) by apply wakes_wake.
  pose proof (cache_release i n ps HL Hn Hw) as Hmid.
  set (s1 := set_k_bufs (alter bfreed i (k_bufs s)) (set_k_proc ps s)) in *.
  destruct (co_lru _ _ _ _ Hmid) as [order Ho].
  pose proof (proj2 (lru_elem _ _ i Ho) Hi) as (l1 & l2 & ->)%list_elem_of_split.
  destruct (move_to_head_run i l1 l2 (set_k_held [L_bcache] s1)) as (bufs' & Hrun & Hlru & Hcore); [done|].
  eapply wp_run.
  - unfold brelse. erewrite bind_run by by apply holdingsleep_mine. cbn [negb].
    erewrite bind_run by by apply releasesleep_quiet.
    erewrite bind_run by (apply acquire_run; simpl; rewrite Hh; apply not_elem_of_nil).
    unfold upd_buf, get_buf. krun. unfold sl_released, set_sl, when. kproj. rewrite Hh.
    rewrite list_alter_alter_eq, lookup_alter_buf, decide_True by done. cbn [compose b_refcnt set_b_refcnt].
    replace (b_refcnt _ - 1) with 0 by (simpl; lia). change (u32 0 =? 0) with true. cbv iota.
    change (set_k_bufs _ (set_k_held _ _)) with (set_k_held [L_bcache] s1).
    rewrite Hrun. cbn [res_bind]. rewrite (release_head _ []) by (done || apply not_elem_of_nil).
    reflexivity.
  - assert (set_k_held [] (set_k_bufs bufs' (set_k_held [L_bcache] s1)) = set_k_bufs bufs' s1) as ->.
    { subst s1 ps. destruct s. simpl in *. by subst. }
    split; [|split; [subst s1; keq|done]]. exact (cache_links Hmid _ _ Hlru Hcore).
Qed.

End cache.

(** ** Initialisation *)

Lemma binit_body_eq i s :
  (i < NBUF)%nat -> length (k_bufs s) = S NBUF -> b_lock (k_bufs s !!! i) = mksleeplock 0 0 ->
  binit_body i s = Ret tt (set_k_bufs (inserted i (k_bufs s)) s).
Proof.
  intros Hi Hlen Hl. unfold binit_body, get_buf, upd_buf, initsleeplock, set_sl. krun. kproj.
  set (bufs := k_bufs s) in *. set (b2 := alter (set_b_prev bhead) i _).
  assert (alter (set_b_lock (mksleeplock 0 0)) i b2 = b2) as ->.
  { unfold b2. rewrite !list_alter_alter_eq. apply list_alter_ext; [|done].
    intros x Hx%list_lookup_total_correct. fold bufs in Hx. subst x. unfold compose.
    rewrite <- Hl. by destruct (bufs !!! i). }
  assert (nx b2 bhead = nx bufs bhead) as E.
  { unfold b2. links. exact (fupd_fix (nx bufs) i bhead). }
  change (b_next (b2 !!! bhead)) with (nx b2 bhead). rewrite E. subst b2. keq.
Qed.

Lemma binit_loop l pre s :
  length (k_bufs s) = S NBUF -> NoDup (pre ++ l) -> (forall i, i ∈ pre ++ l -> (i < NBUF)%nat) ->
  dll (nx (k_bufs s)) (pv (k_bufs s)) bhead (rev pre) ->
  (forall i, core (k_bufs s !!! i) = core buf_zero) ->
  exists bufs, foreach l binit_body s = Ret tt (set_k_bufs bufs s) /\ length bufs = S NBUF /\
    dll (nx bufs) (pv bufs) bhead (rev (pre ++ l)) /\ (forall i, core (bufs !!! i) = core buf_zero).
Proof.
  revert pre s. induction l as [|i l IH]; intros pre s Hlen Hnd Hr Hd Hz; cbn [foreach].
  { exists (k_bufs s). rewrite app_nil_r. split; [|done]. unfold ret. f_equal. by destruct s. }
  assert (i < NBUF)%nat as Hi by (apply Hr; rewrite elem_of_app, elem_of_cons; auto).
  assert (Hrp : forall j, j ∈ pre -> (j < NBUF)%nat) by (intros j Hj; apply Hr, elem_of_app; auto).
  assert (nx (k_bufs s) bhead < length (k_bufs s))%nat as Hnx.
  { rewrite Hlen. destruct Hd as [[->|Hin%elem_of_rev%Hrp]%chain_in _]; [unfold bhead; lia|lia]. }
  destruct (inserted_spec i (k_bufs s)) as (I1 & I2 & I3 & I4); [lia|lia|rewrite Hlen; unfold bhead; lia|].
  destruct (IH (pre ++ [i]) (set_k_bufs (inserted i (k_bufs s)) s)) as (bufs & Hrun & Hrest); kproj.
  - by rewrite I4.
  - by rewrite <- app_assoc.
  - intros j. rewrite <- app_assoc. apply Hr.
  - rewrite rev_app_distr. simpl. eapply dll_ext; [exact I1|exact I2|].
    apply dll_insert; [done|]. repeat rewrite NoDup_cons. rewrite elem_of_cons, !elem_of_rev.
    apply NoDup_app in Hnd as (Hp & Hdis & _). split_and!.
    + unfold bhead. intros [E|Hin]; [lia|]. apply Hrp in Hin. lia.
    + intros Hin. apply (Hdis _ Hin). by left.
    + by rewrite rev_reverse, reverse_Permutation.
  - intros j. by rewrite I3.
  - exists bufs. rewrite <- app_assoc in Hrest. split; [|exact Hrest].
    erewrite bind_run; [exact Hrun|]. apply binit_body_eq; [done|done|].
    exact (f_equal b_lock (Hz i)).
Qed.

Lemma binit_run s :
  k_bufs s = replicate (S NBUF) buf_zero ->
  exists bufs, binit s = Ret tt (set_k_bufs bufs s) /\ lru bufs (rev (seq 0 NBUF)) /\
    forall i, core (bufs !!! i) = core buf_zero.
Proof.
  intros Hz. set (b0 := alter (set_b_next bhead) bhead (alter (set_b_prev bhead) bhead (k_bufs s))).
  assert (length (k_bufs s) = S NBUF) as Hlen by by rewrite Hz.
  destruct (binit_loop (seq 0 NBUF) [] (set_k_bufs b0 s)) as (bufs & Hrun & Hl & Hd & Hc); kproj.
  - unfold b0. by rewrite !length_alter.
  - apply NoDup_seq.
  - intros i Hi. apply elem_of_seq in Hi. lia.
  - unfold b0. rewrite Hz. by split.
  - intros i. unfold b0. rewrite core_set_next, core_set_prev by (rewrite ?length_alter, Hlen; unfold bhead; lia).
    rewrite Hz. destruct (decide (i < S NBUF)%nat).
    + by rewrite lookup_total_replicate_2.
    + by rewrite list_lookup_total_alt, lookup_ge_None_2 by (rewrite length_replicate; lia).
  - exists bufs. split; [|split; [|done]].
    + unfold binit, upd_buf. krun. kproj. fold b0. exact Hrun.
    + split; [done|by rewrite rev_reverse, reverse_Permutation|done].
Qed.

Lemma cache_fresh s order :
  quiet s -> lru (k_bufs s) order -> (forall i, core (k_bufs s !!! i) = core buf_zero) ->
  (forall n, block_ok (k_disk s n)) -> cache_ok s (k_disk s) ∅ ∅.
Proof.
  intros Hq Hl Hc Hd.
  assert (forall A (p : buf -> A) x, (forall b, p (core b) = p b) -> p (k_bufs s !!! x) = p buf_zero) as G.
  { intros A p x Hp. by rewrite <- Hp, Hc, Hp. }
  split; try done; eauto.
  - intros i _. unfold buf_ok. rewrite lookup_empty, (G _ b_data), (G _ b_dev), (G _ b_flags),
      (G _ b_refcnt), (G _ b_lock) by done. split; [apply zero_block_ok|]. auto.
  - intros i j _ _. by rewrite (G _ b_dev).
Qed.

(** ** The interface of the cache

    What the rest of the file system relies on.  [ok] is an abstract
    predicate: clients know that the operations maintain it and what it says
    of the blocks, not how the buffers are linked or counted. *)
Class BlockCache `{Fuel} (ok : kernel -> (Z -> block) -> gset Z -> gmap nat Z -> Prop) : Prop := {
  bc_quiet s V P L : ok s V P L -> quiet s;
  bc_data s V P L i n : ok s V P L -> L !! i = Some n -> b_data (k_bufs s !!! i) = V n;
  bc_clean s V P L n : ok s V P L -> n ∉ P -> (forall i, L !! i <> Some n) -> V n = k_disk s n;
  bc_bread s V P L n : ok s V P L -> n < k_disksize s -> (forall j, L !! j <> Some n) ->
    (n ∈ P \/ size L + size P < NBUF)%nat ->
    wp (bread 1 n) s (fun i s' => L !! i = None /\ ok s' V P (<[i:=n]> L) /\
      exists bufs, s' = set_k_bufs bufs s);
  bc_write s V P L i n d : ok s V P L -> L !! i = Some n -> block_ok d ->
    ok (set_k_bufs (alter (set_b_data d) i (k_bufs s)) s) (bset V n d) P L;
  bc_pin s V P L i n : ok s V P L -> L !! i = Some n ->
    ok (set_k_bufs (alter (fun b => set_b_flags (Z.lor (b_flags b) B_DIRTY) b) i (k_bufs s)) s)
      V ({[n]} ∪ P) L;
  bc_bwrite s V P L i n : ok s V P L -> L !! i = Some n ->
    wp (bwrite i) s (fun _ s' => ok s' V (P ∖ {[n]}) L /\
      exists bufs, s' = disk_write n (V n) (set_k_bufs bufs s));
  bc_brelse s V P L i n : ok s V P L -> L !! i = Some n -> n ∈ P \/ V n = k_disk s n ->
    wp (brelse i) s (fun _ s' => ok s' V P (delete i L) /\ cframe s s');
  bc_blockno s V P L i n : ok s V P L -> L !! i = Some n -> b_blockno (k_bufs s !!! i) = n;
  bc_blocks s V P L n : ok s V P L -> block_ok (V n);
  bc_view s V V' P L : ok s V P L -> (forall n, V' n = V n) -> ok s V' P L;
  bc_frame s s' V P L : ok s V P L -> quiet s' -> cur_pid s' = cur_pid s ->
    k_bufs s' = k_bufs s -> k_disk s' = k_disk s -> k_disksize s' = k_disksize s -> ok s' V P L;
}.

Lemma cache_blocks s V P L n : cache_ok s V P L -> block_ok (V n).
Proof.
  intros H.
  destruct (decide (Exists (fun i => b_dev (k_bufs s !!! i) = 1 /\ b_blockno (k_bufs s !!! i) = n)
    (seq 0 NBUF))) as [(i & Hi%elem_of_seq & D & E)%Exists_exists|Hno].
  - destruct (co_buf _ _ _ _ H i) as (Hb & [[]|(_ & _ & Hv & _)] & _); [lia|lia|]. by rewrite <- E, <- Hv.
  - rewrite Exists_exists in Hno. rewrite (co_clean _ _ _ _ H); [apply H|..].
    + intros (i & Hi & Hi')%(co_pin _ _ _ _ H). apply Hno. exists i. by rewrite elem_of_seq; split; [lia|].
    + intros i HL. apply Hno. exists i. destruct (cache_locked H _ _ HL) as (Hi & _ & _ & D & E & _).
      rewrite elem_of_seq. split; [lia|done].
Qed.

Lemma cache_view s V V' P L : cache_ok s V P L -> (forall n, V' n = V n) -> cache_ok s V' P L.
Proof.
  intros H E. split; try apply H.
  - intros i Hi. pose proof (co_buf _ _ _ _ H i Hi) as Hb. unfold buf_ok. by rewrite E.
  - intros n. rewrite E. apply H.
Qed.

Lemma cache_frame s s' V P L :
  cache_ok s V P L -> quiet s' -> cur_pid s' = cur_pid s ->
  k_bufs s' = k_bufs s -> k_disk s' = k_disk s -> k_disksize s' = k_disksize s -> cache_ok s' V P L.
Proof.
  intros H Hq Hp Hb Hd Hs. split; rewrite ?Hp, ?Hb, ?Hd, ?Hs; try apply H. done.
Qed.

#[global] Instance cache_ok_interface `{Fuel} : BlockCache cache_ok.
Proof.
  split; intros.
  - by eapply co_quiet.
  - by eapply cache_data.
  - by eapply co_clean.
  - by apply bread_spec.
  - by apply cache_set_data.
  - by apply cache_pin.
  - by apply bwrite_spec.
  - by eapply brelse_spec.
  - by eapply cache_locked.
  - by eapply cache_blocks.
  - by eapply cache_view.
  - by eapply cache_frame.
Qed.

(** ** Theorems *)

(** [binit] establishes the cache invariant: from zeroed buffers it builds
    a well-formed circular list of all NBUF buffers, without a panic, and the
    cache then presents exactly the contents of the disk. *)
Theorem binit_correct s :
  k_bufs s = replicate (S NBUF) buf_zero ->
  exists s', binit s = Ret tt s' /\ s' = set_k_bufs (k_bufs s') s /\
    (exists order, lru (k_bufs s') order) /\
    forall s'', k_bufs s'' = k_bufs s' -> quiet s'' -> (forall n, block_ok (k_disk s'' n)) ->
      cache_ok s'' (k_disk s'') ∅ ∅.
Proof.
  intros Hz. destruct (binit_run s Hz) as (bufs & Hrun & Hl & Hc).
  eexists. split; [exact Hrun|]. kproj. split; [done|]. split; [eauto|].
  intros s'' Hb Hq Hd. eapply cache_fresh; rewrite ?Hb; eauto.
Qed.

(** [bread(1, n)] returns the block.  While fewer than NBUF buffers are
    locked or pinned (or block [n] is pinned itself), reading a block the
    process has not already locked neither panics nor sleeps, returns a
    buffer that was not locked before, holding the current contents of block
    [n], locked by the running process, and leaves the blocks the cache
    presents, the pinned blocks and the disk as they were. *)
Theorem bread_correct `{Fuel} s V P L n :
  cache_ok s V P L -> n < k_disksize s -> (forall j, L !! j <> Some n) ->
  (n ∈ P \/ size L + size P < NBUF)%nat ->
  exists i s', bread 1 n s = Ret i s' /\ L !! i = None /\
    b_data (k_bufs s' !!! i) = V n /\ b_blockno (k_bufs s' !!! i) = n /\
    b_lock (k_bufs s' !!! i) = mksleeplock 1 (cur_pid s) /\
    cache_ok s' V P (<[i:=n]> L) /\ s' = set_k_bufs (k_bufs s') s.
Proof.
  intros Hok Hn Hno Hroom. destruct (wp_inv _ _ _ (bread_spec Hok n Hn Hno Hroom))
    as (i & s' & Hrun & HL & Hok' & bufs & ->).
  exists i, (set_k_bufs bufs s). destruct (cache_locked Hok' i n) as (_ & Hl & _ & _ & Hb & _ & _ & Hd & _).
  { apply lookup_insert_eq. }
  split_and!; done.
Qed.

(** The cache is write-through and coherent.  After a block is read,
    overwritten with [d], written with [bwrite] and released, reading any
    block [m] gives [d] for [m = n] and the old contents otherwise; the disk
    has received exactly this one write. *)
Theorem bcache_coherent `{Fuel} s V P n m d :
  cache_ok s V P ∅ -> n < k_disksize s -> m < k_disksize s -> block_ok d -> (size P < NBUF)%nat ->
  wp (i <- bread 1 n ;; upd_buf i (set_b_data d) ;; bwrite i ;; brelse i ;; bread 1 m) s
    (fun j s' => b_data (k_bufs s' !!! j) = (if decide (m = n) then d else V m) /\
       k_disk s' = bset (k_disk s) n d /\ k_writes s' = k_writes s ++ [(n, d)]).
Proof.
  intros Hok Hn Hm Hd Hroom.
  apply wp_bind. eapply wp_mono.
  { apply (bc_bread _ _ _ _ _ Hok Hn); [done|]. rewrite map_size_empty. lia. }
  intros i s1 (_ & H1 & bufs1 & ->). apply wp_bind.
  pose proof (bc_write _ _ _ _ i n d H1 (lookup_insert_eq _ _ _) Hd) as H2.
  apply wp_bind. eapply wp_mono; [exact (bc_bwrite _ _ _ _ _ _ H2 (lookup_insert_eq _ _ _))|].
  intros _ s3 (H3 & bufs3 & ->). rewrite bset_eq in *.
  apply wp_bind. eapply wp_mono.
  { eapply (bc_brelse _ _ _ _ _ _ H3); [apply lookup_insert_eq|]. right. simpl. by rewrite !bset_eq. }
  intros _ s4 [H4 [E4 _]]. rewrite delete_insert_eq in H4.
  eapply wp_mono.
  { eapply (bc_bread _ _ _ _ m H4); [by rewrite E4|done|].
    right. rewrite delete_empty, map_size_empty. assert (size (P ∖ {[n]}) <= size P)%nat by (apply subseteq_size; set_solver). lia. }
  intros j s5 (_ & H5 & bufs5 & ->). split.
  - rewrite (bc_data _ _ _ _ _ _ H5 (lookup_insert_eq _ _ _)). unfold bset.
    case_decide; [by subst; rewrite Z.eqb_refl|by rewrite (proj2 (Z.eqb_neq _ _))].
  - kproj. rewrite E4. done.
Qed.

(** ** Witnesses *)

(** The state of process 0 after start-up, on an all-zero disk of 1000 blocks. *)
Definition demo_bufs : list buf :=
  match binit kernel_zero with Ret _ s => k_bufs s | _ => [] end.
Definition demo_boot : kernel :=
  set_k_disksize 1000 (set_k_cur (Some 0%nat) (set_k_bufs demo_bufs kernel_zero)).

Lemma demo_bufs_fresh : lru demo_bufs (rev (seq 0 NBUF)) /\ forall i, core (demo_bufs !!! i) = core buf_zero.
Proof.
  destruct (binit_run kernel_zero eq_refl) as (bufs & Hrun & Hl & Hc).
  assert (demo_bufs = bufs) as -> by (unfold demo_bufs; by rewrite Hrun). exact (conj Hl Hc).
Qed.

#[global] Opaque demo_bufs.

Lemma demo_bufs_ok s :
  quiet s -> k_bufs s = demo_bufs -> (forall n, block_ok (k_disk s n)) -> cache_ok s (k_disk s) ∅ ∅.
Proof.
  intros Hq Eb Hd. destruct demo_bufs_fresh as [Hl Hc]. rewrite <- Eb in Hl, Hc. exact (cache_fresh s _ Hq Hl Hc Hd).
Qed.

Lemma demo_boot_ok : cache_ok demo_boot (fun _ => zero_block) ∅ ∅.
Proof. refine (demo_bufs_ok demo_boot _ eq_refl _); [by split|]. intros n. apply zero_block_ok. Qed.


Lemma binit_correct_witness :
  exists s', binit kernel_zero = Ret tt s' /\ exists order, lru (k_bufs s') order.
Proof.
  destruct (binit_correct kernel_zero eq_refl) as (s' & H1 & _ & H2 & _). exists s'. exact (conj H1 H2).
Defined.

Lemma bread_correct_witness :
  exists i s', @bread 0%nat 1 5 demo_boot = Ret i s' /\ b_data (k_bufs s' !!! i) = zero_block.
Proof.
  destruct (@bread_correct 0%nat demo_boot _ ∅ ∅ 5 demo_boot_ok eq_refl) as (i & s' & H1 & _ & H2 & _).
  - done.
  - right. vm_compute. lia.
  - exists i, s'. exact (conj H1 H2).
Defined.

Lemma bcache_coherent_witness :
  wp (i <- @bread 0%nat 1 5 ;; upd_buf i (set_b_data (replicate 512 7)) ;; bwrite i ;; brelse i ;;
      @bread 0%nat 1 5) demo_boot
    (fun j s' => b_data (k_bufs s' !!! j) = replicate 512 7 /\ k_writes s' = [(5, replicate 512 7)]).
Proof.
  eapply wp_mono.
  - apply (@bcache_coherent 0%nat demo_boot _ ∅ 5 5 (replicate 512 7) demo_boot_ok); try done.
    + split; [done|]. apply Forall_replicate. unfold is_byte. lia.
    + vm_compute. lia.
  - intros j s' (H1 & _ & H2). exact (conj H1 H2).
Defined.
