(* ===== verification/Log.v ===== *)
(** * The write-ahead log (log.c)

    File-system calls bracket their updates with [begin_op] and [end_op] and
    write blocks with [log_write], which only pins the modified buffer in the
    cache.  When the last outstanding call ends, [commit] copies the pinned
    blocks to the log, writes the header (the commit point), installs the
    blocks in their home locations and clears the header.  [initlog] replays
    a committed log after a crash.

    An [int] of the code is kept in [i32] range, and converted with [u32]
    where it is passed as a block number. *)

From stdpp Require Import base numbers list option strings gmap.
From S2P Require Import Prelude Kernel Fields Spinlock Proc Sleeplock Bytes Bio.

Definition get_log : K log := gets k_log.
Definition upd_log (f : log -> log) : K unit := modify (fun s => set_k_log (f (k_log s)) s).

(** fs.c: the superblock as it lies in block 1. *)
Definition superblock_of (d : block) : superblock :=
  mksuperblock (get32 d 0) (get32 d 1) (get32 d 2) (get32 d 3) (get32 d 4) (get32 d 5) (get32 d 6).

Section log.
Context `{Fuel}.

(** fs.c: [readsb]. *)
Definition readsb (dev : Z) : K superblock :=
  i <- bread dev 1 ;;
  b <- get_buf i ;;
  brelse i ;;
  ret (superblock_of (b_data b)).

(** [memmove(to->data, from->data, BSIZE)] *)
Definition copy_buf (to from : nat) : K unit :=
  b <- get_buf from ;; upd_buf to (set_b_data (b_data b)).

(** The number of the [tail]th log block, [log.start+tail+1]. *)
Definition log_block (l : log) (tail : nat) : Z := u32 (log_start l + Z.of_nat tail + 1).
(** The home of the [tail]th logged block, [log.lh.block[tail]]. *)
Definition home_block (l : log) (tail : nat) : Z := u32 (lh_block l !!! tail).
(** The counter of [for (i = 0; i < log.lh.n; i++)]. *)
Definition lh_range (n : Z) : list nat := seq 0 (Z.to_nat n).

Definition install_one (tail : nat) : K unit :=
  l <- get_log ;;
  lbuf <- bread (log_dev l) (log_block l tail) ;;
  dbuf <- bread (log_dev l) (home_block l tail) ;;
  copy_buf dbuf lbuf ;;
  bwrite dbuf ;;
  brelse lbuf ;;
  brelse dbuf.

Definition install_trans : K unit :=
  l <- get_log ;;
  foreach (lh_range (lh_n l)) install_one.

(** The struct logheader at the start of a block: [n], then [block[]]. *)
Definition head_n (d : block) : Z := i32 (get32 d 0).
Definition head_block (d : block) (i : nat) : Z := i32 (get32 d (S i)).

(** A header that lists more blocks than [block[]] has room for makes the code
    write beyond the array; here that stops the run, as any access out of range
    does. *)
Definition read_head : K unit :=
  l <- get_log ;;
  i <- bread (log_dev l) (u32 (log_start l)) ;;
  b <- get_buf i ;;
  upd_log (set_lh_n (head_n (b_data b))) ;;
  l <- get_log ;;
  foreach (lh_range (lh_n l)) (fun j =>
    if decide (j < 30)%nat
    then upd_log (fun l => set_lh_block (<[j := head_block (b_data b) j]> (lh_block l)) l)
    else panic "log.lh.block: index out of range") ;;
  brelse i.

(** [hb->n = n; hb->block[i] = block[i] for i < n] *)
Definition put_head (n : Z) (bl : list Z) (d : block) : block :=
  foldl (fun d i => set32 d (S i) (u32 (bl !!! i))) (set32 d 0 (u32 n)) (lh_range n).

Definition write_head : K unit :=
  l <- get_log ;;
  i <- bread (log_dev l) (u32 (log_start l)) ;;
  b <- get_buf i ;;
  upd_buf i (set_b_data (put_head (lh_n l) (lh_block l) (b_data b))) ;;
  bwrite i ;;
  brelse i.

Definition recover_from_log : K unit :=
  read_head ;;
  install_trans ;;
  upd_log (set_lh_n 0) ;;
  write_head.

Definition initlog (dev : Z) : K unit :=
  sb <- readsb dev ;;
  upd_log (set_log_start (i32 (sb_logstart sb))) ;;
  upd_log (set_log_size (i32 (sb_nlog sb))) ;;
  upd_log (set_log_dev dev) ;;
  recover_from_log.

Fixpoint begin_op_loop (n : nat) : K unit :=
  l <- get_log ;;
  let wait := match n with
              | O => out_of_fuel
              | S n' => sleep Ch_log L_log ;; begin_op_loop n'
              end in
  if log_committing l then wait
  else if LOGSIZE <? lh_n l + (log_outstanding l + 1) * MAXOPBLOCKS then wait
  else
    upd_log (set_log_outstanding (log_outstanding l + 1)) ;;
    release L_log.

Definition begin_op : K unit :=
  acquire L_log ;;
  begin_op_loop fuel.

Definition write_log_one (tail : nat) : K unit :=
  l <- get_log ;;
  to <- bread (log_dev l) (log_block l tail) ;;
  from <- bread (log_dev l) (home_block l tail) ;;
  copy_buf to from ;;
  bwrite to ;;
  brelse from ;;
  brelse to.

Definition write_log : K unit :=
  l <- get_log ;;
  foreach (lh_range (lh_n l)) write_log_one.

Definition commit : K unit :=
  l <- get_log ;;
  when (0 <? lh_n l)
    (write_log ;;
     write_head ;;
     install_trans ;;
     upd_log (set_lh_n 0) ;;
     write_head).

Definition end_op : K unit :=
  acquire L_log ;;
  l <- get_log ;;
  upd_log (set_log_outstanding (log_outstanding l - 1)) ;;
  l <- get_log ;;
  if log_committing l then panic "log.committing" else
  let do_commit := log_outstanding l =? 0 in
  (if do_commit then upd_log (set_log_committing true) else wakeup Ch_log) ;;
  release L_log ;;
  when do_commit
    (commit ;;
     acquire L_log ;;
     upd_log (set_log_committing false) ;;
     wakeup Ch_log ;;
     release L_log).

(** The index at which [log_write]'s loop stops: the first entry for the
    block, or [n]. *)
Definition log_index (l : log) (blockno : Z) : nat :=
  match list_find (fun b => u32 b = blockno) (take (Z.to_nat (lh_n l)) (lh_block l)) with
  | Some (i, _) => i
  | None => Z.to_nat (lh_n l)
  end.

Definition log_write (i : nat) : K unit :=
  l <- get_log ;;
  if (LOGSIZE <=? lh_n l) || (log_size l - 1 <=? lh_n l) then panic "too big a transaction" else
  if log_outstanding l <? 1 then panic "log_write outside of trans" else
  acquire L_log ;;
  l <- get_log ;;
  b <- get_buf i ;;
  let j := log_index l (b_blockno b) in
  upd_log (fun l => set_lh_block (<[j := i32 (b_blockno b)]> (lh_block l)) l) ;;
  when (Z.of_nat j =? lh_n l) (upd_log (set_lh_n (lh_n l + 1))) ;;
  upd_buf i (fun b => set_b_flags (Z.lor (b_flags b) B_DIRTY) b) ;;
  release L_log.

End log.

(** ** Sequences of disk writes *)

Definition bsets (V : Z -> block) (ws : list (Z * block)) : Z -> block :=
  foldl (fun V w => bset V w.1 w.2) V ws.
Definition dwrites (ws : list (Z * block)) (s : kernel) : kernel :=
  foldl (fun s w => disk_write w.1 w.2 s) s ws.

Lemma bsets_app V ws ws' : bsets V (ws ++ ws') = bsets (bsets V ws) ws'.
Proof. apply foldl_app. Qed.
Lemma bsets_cons V n d ws : bsets V ((n, d) :: ws) = bsets (bset V n d) ws.
Proof. done. Qed.
Lemma dwrites_app ws ws' s : dwrites (ws ++ ws') s = dwrites ws' (dwrites ws s).
Proof. apply foldl_app. Qed.

Lemma bsets_ext V V' ws x : V x = V' x -> bsets V ws x = bsets V' ws x.
Proof.
  revert V V'. induction ws as [|[n d] ws IH]; intros V V' E; [done|]. rewrite !bsets_cons. apply IH.
  unfold bset. by case_match.
Qed.

Lemma bsets_notin V ws x : x ∉ ws.*1 -> bsets V ws x = V x.
Proof.
  revert V. induction ws as [|[n d] ws IH]; intros V Hx; [done|]. rewrite bsets_cons.
  rewrite fmap_cons, not_elem_of_cons in Hx. rewrite IH by tauto. apply bset_ne. tauto.
Qed.

(** With distinct addresses each write is visible in the end. *)
Lemma bsets_in V ws n d : NoDup ws.*1 -> (n, d) ∈ ws -> bsets V ws n = d.
Proof.
  revert V. induction ws as [|[m e] ws IH]; intros V Hnd Hin; [by apply not_elem_of_nil in Hin|].
  rewrite fmap_cons in Hnd. apply NoDup_cons in Hnd as [Hm Hnd]. rewrite bsets_cons.
  apply elem_of_cons in Hin as [[= -> ->]|Hin]; [|by apply IH].
  rewrite bsets_notin by done. apply bset_eq.
Qed.

(** If every write of address [n] stores [d], the end result is [d] as soon as
    there is one or [d] was there before. *)
Lemma bsets_same V ws n d :
  (forall e, (n, e) ∈ ws -> e = d) -> V n = d -> bsets V ws n = d.
Proof.
  revert V. induction ws as [|[m e] ws IH]; intros V Hall HV; [done|]. rewrite bsets_cons. apply IH.
  - intros e' He. apply Hall. by right.
  - unfold bset. destruct (Z.eqb_spec n m) as [->|]; [|done]. apply Hall. by left.
Qed.

Lemma dwrites_disk ws s : k_disk (dwrites ws s) = bsets (k_disk s) ws.
Proof. revert s. induction ws as [|[n d] ws IH]; intros s; [done|]. simpl. by rewrite IH. Qed.
Lemma dwrites_writes ws s : k_writes (dwrites ws s) = k_writes s ++ ws.
Proof.
  revert s. induction ws as [|[n d] ws IH]; intros s; simpl; [by rewrite app_nil_r|].
  rewrite IH. simpl. by rewrite <- app_assoc.
Qed.

(** [s'] is [s] after the disk writes [ws], up to the cache and wakeups. *)
Definition wrote (ws : list (Z * block)) (s s' : kernel) : Prop := cframe (dwrites ws s) s'.

Lemma disk_write_frame n d s s' : cframe s s' -> cframe (disk_write n d s) (disk_write n d s').
Proof.
  intros [E Hw]. split; [|done].
  rewrite E. unfold disk_write. by destruct s, s'.
Qed.

Lemma dwrites_frame ws s s' : cframe s s' -> cframe (dwrites ws s) (dwrites ws s').
Proof.
  revert s s'. induction ws as [|[n d] ws IH]; intros s s' Hs; [done|]. simpl.
  apply IH. by apply disk_write_frame.
Qed.

Lemma wrote_trans ws1 ws2 s1 s2 s3 : wrote ws1 s1 s2 -> wrote ws2 s2 s3 -> wrote (ws1 ++ ws2) s1 s3.
Proof.
  unfold wrote. rewrite dwrites_app. intros H1 H2. etrans; [|exact H2]. by apply dwrites_frame.
Qed.

Lemma wrote_nil s s' : cframe s s' -> wrote [] s s'.
Proof. done. Qed.

Lemma wrote_disk ws s s' : wrote ws s s' -> k_disk s' = bsets (k_disk s) ws.
Proof. intros [E _]. rewrite E. kproj. apply dwrites_disk. Qed.
Lemma wrote_writes ws s s' : wrote ws s s' -> k_writes s' = k_writes s ++ ws.
Proof. intros [E _]. rewrite E. kproj. apply dwrites_writes. Qed.

(** Everything else is untouched. *)
Lemma dwrites_other ws s :
  dwrites ws s = set_k_disk (bsets (k_disk s) ws) (set_k_writes (k_writes s ++ ws) s).
Proof.
  revert s. induction ws as [|[n d] ws IH]; intros s; simpl.
  - rewrite app_nil_r. by destruct s.
  - rewrite IH. simpl. rewrite <- app_assoc. by destruct s.
Qed.
Lemma wrote_log ws s s' : wrote ws s s' -> k_log s' = k_log s.
Proof. intros [E _]. by rewrite E, dwrites_other. Qed.
Lemma wrote_disksize ws s s' : wrote ws s s' -> k_disksize s' = k_disksize s.
Proof. intros [E _]. by rewrite E, dwrites_other. Qed.

(** Steps that replace the buffers are within the frame. *)
Ltac bufs_frame := repeat (etrans; [|apply cframe_bufs]); reflexivity.

(** The same for code that also changes the in-memory log. *)
Definition logged (ws : list (Z * block)) (s s' : kernel) : Prop := wrote ws (set_k_log (k_log s') s) s'.

Lemma wrote_set_log ws l s s' : wrote ws s s' -> wrote ws (set_k_log l s) (set_k_log l s').
Proof.
  unfold wrote. rewrite !dwrites_other. intros [E Hw]. split; [|exact Hw].
  rewrite E. by destruct s, s'.
Qed.

Lemma wrote_logged ws s s' : wrote ws s s' -> logged ws s s'.
Proof.
  intros Hw. unfold logged. rewrite (wrote_log _ _ _ Hw).
  assert (set_k_log (k_log s) s = s) as -> by by destruct s. done.
Qed.

Lemma logged_trans ws1 ws2 s1 s2 s3 : logged ws1 s1 s2 -> logged ws2 s2 s3 -> logged (ws1 ++ ws2) s1 s3.
Proof.
  intros H1 H2. unfold logged in *. eapply wrote_trans; [|exact H2].
  apply (wrote_set_log _ (k_log s3)) in H1.
  assert (set_k_log (k_log s3) (set_k_log (k_log s2) s1) = set_k_log (k_log s3) s1) as E by by destruct s1.
  by rewrite E in H1.
Qed.

Lemma logged_upd l s : logged [] s (set_k_log l s).
Proof. apply wrote_nil. by destruct s. Qed.

Lemma logged_disk ws s s' : logged ws s s' -> k_disk s' = bsets (k_disk s) ws.
Proof. apply (wrote_disk ws (set_k_log (k_log s') s)). Qed.
Lemma logged_writes ws s s' : logged ws s s' -> k_writes s' = k_writes s ++ ws.
Proof. apply (wrote_writes ws (set_k_log (k_log s') s)). Qed.
Lemma logged_disksize ws s s' : logged ws s s' -> k_disksize s' = k_disksize s.
Proof. apply (wrote_disksize ws (set_k_log (k_log s') s)). Qed.

(** ** Geometry of the log, and the blocks a header lists *)

(** The log as [initlog] sets it up, on a disk of [dsz] blocks: mkfs makes it
    at most LOGSIZE blocks long, header included. *)
Record log_geo (l : log) (dsz : Z) : Prop := {
  lg_dev : log_dev l = 1;
  lg_start : 0 <= log_start l;
  lg_size : 1 <= log_size l <= LOGSIZE;
  lg_end : log_start l + log_size l <= dsz;
  lg_dsz : dsz <= 2 ^ 31;
  lg_len : length (lh_block l) = 30%nat;
}.

(** A block outside the log. *)
Definition home (l : log) (dsz n : Z) : Prop :=
  0 <= n < dsz /\ ~ (log_start l <= n < log_start l + log_size l).

(** The in-memory header lists the blocks [bl]. *)
Record lists (l : log) (dsz : Z) (bl : list Z) : Prop := {
  ls_n : lh_n l = Z.of_nat (length bl);
  ls_blocks : take (length bl) (lh_block l) = bl;
  ls_nodup : NoDup bl;
  ls_home : Forall (home l dsz) bl;
  ls_max : Z.of_nat (length bl) < log_size l;
}.

(** The writes of [write_log] and of [install_trans]: from the home blocks [bl]
    to the log blocks [a], [a+1], ..., and back. *)
Fixpoint log_writes (V : Z -> block) (a : Z) (bl : list Z) : list (Z * block) :=
  match bl with
  | [] => []
  | b :: bl' => (a, V b) :: log_writes V (a + 1) bl'
  end.
Fixpoint install_writes (V : Z -> block) (a : Z) (bl : list Z) : list (Z * block) :=
  match bl with
  | [] => []
  | b :: bl' => (b, V a) :: install_writes V (a + 1) bl'
  end.

Lemma log_writes_ext V V' a bl :
  (forall b, b ∈ bl -> V' b = V b) -> log_writes V' a bl = log_writes V a bl.
Proof.
  revert a. induction bl as [|b bl IH]; intros a E; [done|]. simpl.
  rewrite E by by left. f_equal. apply IH. intros b' Hb'. apply E. by right.
Qed.

Lemma install_writes_ext V V' a bl :
  (forall x, a <= x < a + Z.of_nat (length bl) -> V' x = V x) ->
  install_writes V' a bl = install_writes V a bl.
Proof.
  revert a. induction bl as [|b bl IH]; intros a E; [done|]. simpl in *.
  rewrite E by lia. f_equal. apply IH. intros x Hx. apply E. lia.
Qed.

(** Installing what [log_writes] wrote stores each block of [bl] in its place. *)
Definition home_writes (V : Z -> block) (bl : list Z) : list (Z * block) :=
  (fun b => (b, V b)) <$> bl.

Lemma log_writes_addr V a bl x :
  x ∈ (log_writes V a bl).*1 -> a <= x < a + Z.of_nat (length bl).
Proof.
  revert a. induction bl as [|b bl IH]; intros a Hx; simpl in *; [by apply not_elem_of_nil in Hx|].
  apply elem_of_cons in Hx as [->|Hx]; [lia|]. apply IH in Hx. lia.
Qed.

Lemma install_writes_addr V a bl x : x ∈ (install_writes V a bl).*1 -> x ∈ bl.
Proof.
  revert a. induction bl as [|b bl IH]; intros a Hx; simpl in *; [done|].
  apply elem_of_cons in Hx as [->|Hx]; [by left|]. right. by apply (IH (a + 1)).
Qed.

Lemma install_logged V V' a bl :
  (forall b, b ∈ bl -> ~ (a <= b < a + Z.of_nat (length bl))) ->
  (forall x, a <= x < a + Z.of_nat (length bl) -> V' x = bsets V (log_writes V a bl) x) ->
  install_writes V' a bl = home_writes V bl.
Proof.
  revert V a. induction bl as [|b bl IH]; intros V a Hout HV'; [done|].
  change (home_writes V (b :: bl)) with ((b, V b) :: home_writes V bl).
  cbn [length log_writes install_writes] in *. f_equal.
  - rewrite HV' by lia. rewrite bsets_cons, bsets_notin; [by rewrite bset_eq|].
    intros Hx%log_writes_addr. lia.
  - specialize (IH (bset V a (V b)) (a + 1)).
    assert (forall b', b' ∈ bl -> bset V a (V b) b' = V b') as E.
    { intros b' Hb'. apply bset_ne. intros ->. apply (Hout a); [by right|lia]. }
    rewrite IH.
    + apply list_fmap_ext. intros i b' Hb'%list_elem_of_lookup_2. by rewrite E.
    + intros b' Hb' Hr. apply (Hout b'); [by right|lia].
    + intros x Hx. rewrite (log_writes_ext _ _ _ _ E). rewrite HV' by lia. done.
Qed.

(** ** The header block *)

Lemma put_head_loop (bl : list Z) m d :
  (m <= 30)%nat -> block_ok d ->
  let d' := foldl (fun d i => set32 d (S i) (u32 (bl !!! i))) d (seq 0 m) in
  block_ok d' /\ get32 d' 0 = get32 d 0 /\ forall t, (t < m)%nat -> get32 d' (S t) = u32 (bl !!! t).
Proof.
  intros Hm Hd. induction m as [|m IH]; [simpl; split_and!; (done || lia)|].
  rewrite seq_S, foldl_app. cbn [foldl Nat.add]. destruct IH as (IH1 & IH2 & IH3); [lia|].
  set (d' := foldl _ _ _) in *. destruct IH1 as [Hlen Hb]. split_and!.
  - apply set32_ok; [lia|done].
  - rewrite get32_set32_ne; [done|lia|lia].
  - intros t Ht. destruct (decide (t = m)) as [->|].
    + rewrite get32_set32_eq; [done|lia|apply u32_range].
    + rewrite get32_set32_ne by lia. apply IH3. lia.
Qed.

Lemma u32_i32 z : 0 <= z < 2 ^ 31 -> i32 (u32 z) = z.
Proof. intros. rewrite u32_small, i32_small; lia. Qed.

(** Writing a header and reading it back. *)
Lemma put_head_spec n bl d :
  0 <= n <= 30 -> block_ok d ->
  block_ok (put_head n bl d) /\ head_n (put_head n bl d) = n /\
  forall t, Z.of_nat t < n -> 0 <= bl !!! t < 2 ^ 31 -> head_block (put_head n bl d) t = bl !!! t.
Proof.
  intros Hn Hd. unfold put_head, lh_range.
  assert (block_ok (set32 d 0 (u32 n))) as Hd0 by (apply set32_ok; [lia|done]).
  destruct (put_head_loop bl (Z.to_nat n) (set32 d 0 (u32 n))) as (H1 & H2 & H3); [lia|done|].
  split; [exact H1|]. unfold head_n, head_block. split.
  - rewrite H2, get32_set32_eq; [apply u32_i32; lia|destruct Hd; lia|apply u32_range].
  - intros t Ht Hb. rewrite H3 by lia. by apply u32_i32.
Qed.

(** The header block [d] lists the blocks [bl]. *)
Record head_lists (d : block) (l : log) (dsz : Z) (bl : list Z) : Prop := {
  hl_n : head_n d = Z.of_nat (length bl);
  hl_blocks : forall t, (t < length bl)%nat -> head_block d t = bl !!! t;
  hl_nodup : NoDup bl;
  hl_home : Forall (home l dsz) bl;
  hl_max : Z.of_nat (length bl) < log_size l;
}.

Lemma lists_lookup l dsz bl t : lists l dsz bl -> (t < length bl)%nat -> lh_block l !!! t = bl !!! t.
Proof.
  intros Hl Ht. apply list_lookup_total_correct. rewrite <- (lookup_take_lt _ (length bl)) by done.
  rewrite (ls_blocks _ _ _ Hl). by apply list_lookup_lookup_total_lt.
Qed.

Lemma put_head_lists l dsz bl d :
  lists l dsz bl -> log_geo l dsz -> block_ok d ->
  head_lists (put_head (lh_n l) (lh_block l) d) l dsz bl.
Proof.
  intros Hl Hg Hd. pose proof (ls_n _ _ _ Hl) as Hn. pose proof (ls_max _ _ _ Hl) as Hm.
  pose proof (lg_size _ _ Hg) as Hs. unfold LOGSIZE, MAXOPBLOCKS in Hs.
  destruct (put_head_spec (lh_n l) (lh_block l) d) as (_ & H1 & H2); [lia|done|].
  split; try apply Hl; [by rewrite H1|].
  intros t Ht. rewrite <- (lists_lookup _ _ _ _ Hl Ht). apply H2; [lia|].
  rewrite (lists_lookup _ _ _ _ Hl Ht).
  assert (home l dsz (bl !!! t)) as [? _].
  { apply (proj1 (Forall_forall _ _) (ls_home _ _ _ Hl)). by apply list_elem_of_lookup_total_2. }
  destruct Hg. lia.
Qed.

(** ** The operations over the interface of the cache *)

Section log_proofs.
Context `{HF : Fuel} {ok : kernel -> (Z -> block) -> gset Z -> gmap nat Z -> Prop} {HC : BlockCache ok}.

(** Reading a second block while the buffer [i] of block [n] is locked. *)
Lemma bread_second s V P i n m :
  ok s V P (<[i:=n]> ∅) -> m < k_disksize s -> m <> n -> (m ∈ P \/ S (size P) < NBUF)%nat ->
  wp (bread 1 m) s (fun j s' => j <> i /\ ok s' V P (<[j:=m]> (<[i:=n]> ∅)) /\
    exists bufs, s' = set_k_bufs bufs s).
Proof.
  intros Hok Hm Hne Hroom. eapply wp_mono.
  - apply (bc_bread _ _ _ _ m Hok Hm).
    + intros j [[_ <-]|[_ E]]%lookup_insert_Some; [done|]. by rewrite lookup_empty in E.
    + rewrite map_size_insert_None, map_size_empty by apply lookup_empty. tauto.
  - intros j s' (Hj & Hok' & Hs'). split; [|done]. intros ->. by rewrite lookup_insert_eq in Hj.
Qed.

(** Copying a buffer onto another one, both locked. *)
Lemma copy_buf_spec s V P L to from a b :
  ok s V P L -> L !! to = Some a -> L !! from = Some b ->
  wp (copy_buf to from) s (fun _ s' => ok s' (bset V a (V b)) P L /\ exists bufs, s' = set_k_bufs bufs s).
Proof.
  intros Hok Hto Hfrom. eapply wp_run; [reflexivity|]. split; [|eauto].
  rewrite (bc_data _ _ _ _ _ _ Hok Hfrom). apply bc_write; [done|done|]. by eapply bc_blocks.
Qed.

Lemma brelse_frame s V P L i n :
  ok s V P L -> L !! i = Some n -> n ∈ P \/ V n = k_disk s n ->
  wp (brelse i) s (fun _ s' => ok s' V P (delete i L) /\ cframe s s').
Proof. apply bc_brelse. Qed.

(** One round of [write_log]: the contents of block [b] are written to block [a]. *)
Lemma copy_to_log s V P a b :
  ok s V P ∅ -> a < k_disksize s -> b < k_disksize s -> a <> b -> a ∉ P ->
  (size P < NBUF)%nat -> (b ∈ P \/ S (size P) < NBUF)%nat ->
  wp (to <- bread 1 a ;; from <- bread 1 b ;; copy_buf to from ;; bwrite to ;; brelse from ;; brelse to) s
    (fun _ s' => ok s' (bset V a (V b)) P ∅ /\ wrote [(a, V b)] s s').
Proof.
  intros Hok Ha Hb Hne HaP Hroom Hroom'.
  assert (b ∈ P \/ V b = k_disk s b) as Hclean.
  { destruct (decide (b ∈ P)); [by left|right]. by apply (bc_clean _ _ _ _ _ Hok). }
  apply wp_bind. eapply wp_mono.
  { apply (bc_bread _ _ _ _ _ Hok Ha); [done|]. rewrite map_size_empty. auto. }
  intros to s1 (_ & Hok1 & bufs1 & ->). apply wp_bind. eapply wp_mono.
  { by apply (bread_second _ _ _ _ _ b Hok1). }
  intros from s2 (Hft & Hok2 & bufs2 & ->). apply wp_bind. eapply wp_mono.
  { eapply (copy_buf_spec _ _ _ _ to from a b Hok2); [|apply lookup_insert_eq].
    by rewrite lookup_insert_ne, lookup_insert_eq. }
  intros _ s3 (Hok3 & bufs3 & ->). apply wp_bind. eapply wp_mono.
  { apply (bc_bwrite _ _ _ _ to a Hok3). by rewrite lookup_insert_ne, lookup_insert_eq. }
  intros _ s4 (Hok4 & bufs4 & ->). rewrite bset_eq in *.
  assert (P ∖ {[a]} = P) as HP by set_solver. rewrite HP in *.
  apply wp_bind. eapply wp_mono.
  { eapply (bc_brelse _ _ _ _ from b Hok4); [apply lookup_insert_eq|]. simpl.
    rewrite !bset_ne by done. done. }
  intros _ s5 (Hok5 & Hf5). rewrite delete_insert_id in Hok5 by (by rewrite lookup_insert_ne).
  eapply wp_mono.
  { eapply (bc_brelse _ _ _ _ to a Hok5); [apply lookup_insert_eq|]. right.
    destruct Hf5 as [-> _]. simpl. by rewrite !bset_eq. }
  intros _ s6 (Hok6 & Hf6). rewrite delete_insert_id in Hok6 by done. split; [done|].
  unfold wrote. simpl. etrans; [|exact Hf6]. etrans; [|exact Hf5]. apply disk_write_frame.
  bufs_frame.
Qed.

(** One round of [install_trans]: block [a] of the log is written home, to [b]. *)
Lemma copy_home s V P a b :
  ok s V P ∅ -> a < k_disksize s -> b < k_disksize s -> a <> b -> a ∉ P ->
  (size P < NBUF)%nat -> (b ∈ P \/ S (size P) < NBUF)%nat ->
  wp (lbuf <- bread 1 a ;; dbuf <- bread 1 b ;; copy_buf dbuf lbuf ;; bwrite dbuf ;; brelse lbuf ;; brelse dbuf) s
    (fun _ s' => ok s' (bset V b (V a)) (P ∖ {[b]}) ∅ /\ wrote [(b, V a)] s s').
Proof.
  intros Hok Ha Hb Hne HaP Hroom Hroom'.
  assert (V a = k_disk s a) as Hclean by by apply (bc_clean _ _ _ _ _ Hok).
  apply wp_bind. eapply wp_mono.
  { apply (bc_bread _ _ _ _ _ Hok Ha); [done|]. rewrite map_size_empty. auto. }
  intros lb s1 (_ & Hok1 & bufs1 & ->). apply wp_bind. eapply wp_mono.
  { by apply (bread_second _ _ _ _ _ b Hok1). }
  intros db s2 (Hft & Hok2 & bufs2 & ->). apply wp_bind. eapply wp_mono.
  { eapply (copy_buf_spec _ _ _ _ db lb b a Hok2); [apply lookup_insert_eq|].
    by rewrite lookup_insert_ne, lookup_insert_eq. }
  intros _ s3 (Hok3 & bufs3 & ->). apply wp_bind. eapply wp_mono.
  { apply (bc_bwrite _ _ _ _ db b Hok3). apply lookup_insert_eq. }
  intros _ s4 (Hok4 & bufs4 & ->). rewrite bset_eq in *. rewrite insert_insert_ne in Hok4 by done.
  apply wp_bind. eapply wp_mono.
  { eapply (bc_brelse _ _ _ _ lb a Hok4); [apply lookup_insert_eq|]. right. simpl.
    by rewrite !bset_ne. }
  intros _ s5 (Hok5 & Hf5). rewrite delete_insert_id in Hok5 by (by rewrite lookup_insert_ne).
  eapply wp_mono.
  { eapply (bc_brelse _ _ _ _ db b Hok5); [apply lookup_insert_eq|]. right.
    destruct Hf5 as [-> _]. simpl. by rewrite !bset_eq. }
  intros _ s6 (Hok6 & Hf6). rewrite delete_insert_id in Hok6 by done. split; [done|].
  unfold wrote. simpl. etrans; [|exact Hf6]. etrans; [|exact Hf5]. apply disk_write_frame. bufs_frame.
Qed.

(** A locked block is modified, written and released: [write_head]. *)
Lemma rewrite_block s V P n (f : block -> block) :
  ok s V P ∅ -> n < k_disksize s -> n ∉ P -> (size P < NBUF)%nat -> (forall d, block_ok d -> block_ok (f d)) ->
  wp (i <- bread 1 n ;; b <- get_buf i ;; upd_buf i (set_b_data (f (b_data b))) ;; bwrite i ;; brelse i) s
    (fun _ s' => ok s' (bset V n (f (V n))) P ∅ /\ wrote [(n, f (V n))] s s').
Proof.
  intros Hok Hn HnP Hroom Hf. apply wp_bind. eapply wp_mono.
  { apply (bc_bread _ _ _ _ _ Hok Hn); [done|]. rewrite map_size_empty. auto. }
  intros i s1 (_ & Hok1 & bufs1 & ->). apply wp_bind. eapply wp_run; [reflexivity|]. apply wp_bind.
  eapply wp_run; [reflexivity|]. rewrite (bc_data _ _ _ _ i n Hok1) by apply lookup_insert_eq.
  pose proof (bc_write _ _ _ _ i n (f (V n)) Hok1 (lookup_insert_eq _ _ _) (Hf _ (bc_blocks _ _ _ _ _ Hok1))) as Hok2.
  apply wp_bind. eapply wp_mono; [apply (bc_bwrite _ _ _ _ i n Hok2); apply lookup_insert_eq|].
  intros _ s3 (Hok3 & bufs3 & ->). rewrite bset_eq in *.
  assert (P ∖ {[n]} = P) as HP by set_solver. rewrite HP in *.
  eapply wp_mono.
  { eapply (bc_brelse _ _ _ _ i n Hok3); [apply lookup_insert_eq|]. right. simpl. by rewrite !bset_eq. }
  intros _ s4 (Hok4 & Hf4). rewrite delete_insert_id in Hok4 by done. split; [done|].
  unfold wrote. simpl. etrans; [|exact Hf4]. apply disk_write_frame. bufs_frame.
Qed.
(** *** The loops of [write_log] and [install_trans] *)

Lemma log_block_eq l dsz t :
  log_geo l dsz -> (Z.of_nat t + 1 < log_size l) -> log_block l t = log_start l + 1 + Z.of_nat t.
Proof. intros Hg Ht. unfold log_block. destruct Hg. rewrite u32_small; lia. Qed.

Lemma home_block_eq l dsz pre b rest :
  lists l dsz (pre ++ b :: rest) -> dsz <= 2 ^ 31 -> home_block l (length pre) = b.
Proof.
  intros Hl Hd. unfold home_block. assert (lh_block l !!! length pre = b) as ->.
  { apply list_lookup_total_correct. rewrite <- (take_drop (length (pre ++ b :: rest)) (lh_block l)).
    rewrite (ls_blocks _ _ _ Hl). rewrite <- app_assoc. cbn [app]. by rewrite list_lookup_middle. }
  assert (home l dsz b) as [? _].
  { apply (proj1 (Forall_forall _ _) (ls_home _ _ _ Hl)). rewrite elem_of_app, elem_of_cons. auto. }
  apply u32_small. lia.
Qed.

Lemma write_log_loop l rest pre s V P :
  k_log s = l -> log_geo l (k_disksize s) -> lists l (k_disksize s) (pre ++ rest) ->
  ok s V P ∅ -> (size P < NBUF)%nat -> (forall b, b ∈ rest -> b ∈ P) -> (forall b, b ∈ P -> home l (k_disksize s) b) ->
  let ws := log_writes V (log_start l + 1 + Z.of_nat (length pre)) rest in
  wp (foreach (seq (length pre) (length rest)) write_log_one) s
    (fun _ s' => ok s' (bsets V ws) P ∅ /\ wrote ws s s').
Proof.
  revert pre s V. induction rest as [|b rest IH]; intros pre s V El Hg Hl Hok Hroom Hin Hhome.
  { by apply wp_ret. }
  cbn [length seq foreach log_writes].
  assert (b ∈ P) as HbP by (apply Hin; by left).
  destruct (Hhome b HbP) as [Hb Hnl].
  assert (Z.of_nat (length pre) + 1 < log_size l) as Hlt.
  { pose proof (ls_max _ _ _ Hl) as Hm. rewrite length_app in Hm. simpl in Hm. lia. }
  set (a := log_start l + 1 + Z.of_nat (length pre)) in *.
  apply wp_bind. eapply wp_mono.
  { unfold write_log_one. apply wp_bind. eapply wp_run; [reflexivity|]. rewrite El.
    rewrite (log_block_eq _ _ _ Hg Hlt), (home_block_eq _ _ _ _ _ Hl) by apply Hg. fold a.
    rewrite (lg_dev _ _ Hg). destruct Hg.
    apply (copy_to_log _ _ _ _ _ Hok); [lia|lia|lia| |done|by left].
    intros Ha%Hhome. unfold home in Ha. lia. }
  intros _ s1 [Hok1 Hw1]. assert (Hd1 := wrote_disksize _ _ _ Hw1).
  assert (Hl1 := wrote_log _ _ _ Hw1).
  specialize (IH (pre ++ [b]) s1 (bset V a (V b))).
  rewrite <- app_assoc, length_app, Hd1 in IH. cbn [app length] in IH.
  replace (S (length pre)) with (length pre + 1)%nat by lia.
  eapply wp_mono.
  { apply IH; try done; [congruence|]. intros b' Hb'. apply Hin. by right. }
  intros _ s2 [Hok2 Hw2].
  assert (log_writes (bset V a (V b)) (log_start l + 1 + Z.of_nat (length pre + 1)) rest =
    log_writes V (a + 1) rest) as E.
  { replace (log_start l + 1 + Z.of_nat (length pre + 1)) with (a + 1) by lia.
    apply log_writes_ext. intros b' Hb'. apply bset_ne.
    destruct (Hhome b') as [_ Hnl']; [apply Hin; by right|]. destruct Hg. lia. }
  rewrite E in *. split; [exact Hok2|]. exact (wrote_trans [(a, V b)] _ _ _ _ Hw1 Hw2).
Qed.

Lemma install_loop l rest pre s V P :
  k_log s = l -> log_geo l (k_disksize s) -> lists l (k_disksize s) (pre ++ rest) ->
  ok s V P ∅ -> (size P < NBUF)%nat -> (forall b, b ∈ P -> home l (k_disksize s) b) ->
  (forall b, b ∈ rest -> b ∈ P) \/ (S (size P) < NBUF)%nat ->
  let ws := install_writes V (log_start l + 1 + Z.of_nat (length pre)) rest in
  wp (foreach (seq (length pre) (length rest)) install_one) s
    (fun _ s' => ok s' (bsets V ws) (P ∖ list_to_set rest) ∅ /\ wrote ws s s').
Proof.
  revert pre s V P. induction rest as [|b rest IH]; intros pre s V P El Hg Hl Hok Hroom Hhome Hin.
  { apply wp_ret. simpl. by rewrite difference_empty_L. }
  cbn [length seq foreach install_writes].
  assert (home l (k_disksize s) b) as [Hb Hnl].
  { apply (proj1 (Forall_forall _ _) (ls_home _ _ _ Hl)). rewrite elem_of_app, elem_of_cons. auto. }
  assert (Z.of_nat (length pre) + 1 < log_size l) as Hlt.
  { pose proof (ls_max _ _ _ Hl) as Hm. rewrite length_app in Hm. simpl in Hm. lia. }
  set (a := log_start l + 1 + Z.of_nat (length pre)) in *.
  apply wp_bind. eapply wp_mono.
  { unfold install_one. apply wp_bind. eapply wp_run; [reflexivity|]. rewrite El.
    rewrite (log_block_eq _ _ _ Hg Hlt), (home_block_eq _ _ _ _ _ Hl) by apply Hg. fold a.
    rewrite (lg_dev _ _ Hg). destruct Hg.
    apply (copy_home _ _ _ _ _ Hok); [lia|lia|lia| |done|].
    - intros Ha%Hhome. unfold home in Ha. lia.
    - destruct Hin as [Hin|]; [|by right]. left. apply Hin. by left. }
  intros _ s1 [Hok1 Hw1]. assert (Hd1 := wrote_disksize _ _ _ Hw1).
  assert (Hl1 := wrote_log _ _ _ Hw1).
  assert (size (P ∖ {[b]}) <= size P)%nat as Hsz by (apply subseteq_size; set_solver).
  specialize (IH (pre ++ [b]) s1 (bset V b (V a)) (P ∖ {[b]})).
  rewrite <- app_assoc, length_app, Hd1 in IH. cbn [app length] in IH.
  replace (S (length pre)) with (length pre + 1)%nat by lia.
  assert (b ∉ rest) as Hbr.
  { pose proof (ls_nodup _ _ _ Hl) as (_ & _ & [? _]%NoDup_cons)%NoDup_app. done. }
  eapply wp_mono.
  { apply IH; try done; [congruence|lia|set_solver|]. destruct Hin as [Hin|]; [left|right; lia].
    intros b' Hb'. apply elem_of_difference. split; [apply Hin; by right|set_solver]. }
  intros _ s2 [Hok2 Hw2].
  assert (install_writes (bset V b (V a)) (log_start l + 1 + Z.of_nat (length pre + 1)) rest =
    install_writes V (a + 1) rest) as E.
  { replace (log_start l + 1 + Z.of_nat (length pre + 1)) with (a + 1) by lia.
    apply install_writes_ext. intros x Hx. apply bset_ne.
    pose proof (ls_max _ _ _ Hl) as Hm. rewrite length_app in Hm. simpl in Hm. destruct Hg. lia. }
  rewrite E in *. split; [|exact (wrote_trans [(b, V a)] _ _ _ _ Hw1 Hw2)].
  replace (P ∖ list_to_set (b :: rest)) with (P ∖ {[b]} ∖ list_to_set rest : gset Z) by set_solver.
  exact Hok2.
Qed.

Lemma list_set_size (bl : list Z) : NoDup bl -> size (list_to_set bl : gset Z) = length bl.
Proof. apply size_list_to_set. Qed.

(** The blocks of a transaction leave a buffer free. *)
Lemma lists_room l dsz bl :
  log_geo l dsz -> lists l dsz bl -> (size (list_to_set bl : gset Z) < NBUF)%nat.
Proof.
  intros Hg Hl. rewrite list_set_size by apply Hl. pose proof (ls_max _ _ _ Hl). pose proof (lg_size _ _ Hg).
  unfold NBUF, LOGSIZE, MAXOPBLOCKS in *. lia.
Qed.

Lemma lists_set_home l dsz bl b : lists l dsz bl -> b ∈ (list_to_set bl : gset Z) -> home l dsz b.
Proof. intros Hl Hb%elem_of_list_to_set. by apply (proj1 (Forall_forall _ _) (ls_home _ _ _ Hl)). Qed.

(** *** The header *)

Lemma ok_set_log l s V P L : ok s V P L -> ok (set_k_log l s) V P L.
Proof. intros Hok. eapply bc_frame; [exact Hok|..]; try done. by destruct (bc_quiet _ _ _ _ Hok). Qed.

Lemma start_not_pinned l dsz (P : gset Z) :
  log_geo l dsz -> (forall b, b ∈ P -> home l dsz b) -> log_start l ∉ P.
Proof. intros Hg Hh [_ Hn]%Hh. destruct Hg. lia. Qed.

Lemma write_head_spec s V P :
  log_geo (k_log s) (k_disksize s) -> 0 <= lh_n (k_log s) <= 30 ->
  ok s V P ∅ -> (size P < NBUF)%nat -> log_start (k_log s) ∉ P ->
  let st := log_start (k_log s) in
  let d := put_head (lh_n (k_log s)) (lh_block (k_log s)) (V st) in
  wp write_head s (fun _ s' => ok s' (bset V st d) P ∅ /\ wrote [(st, d)] s s').
Proof.
  intros Hg Hn Hok Hroom HP. cbv zeta. unfold write_head. apply wp_bind. eapply wp_run; [reflexivity|].
  rewrite (lg_dev _ _ Hg). destruct Hg. rewrite (u32_small (log_start _)) by lia.
  apply (rewrite_block _ _ _ _ _ Hok); [lia|done|done|]. intros d Hd. by apply put_head_spec.
Qed.

(** The loop of [read_head]. *)
Lemma read_head_loop d m k s :
  (k + m <= 30)%nat -> length (lh_block (k_log s)) = 30%nat ->
  exists bl, length bl = 30%nat /\
    (forall t, (k <= t < k + m)%nat -> bl !!! t = head_block d t) /\
    (forall t, (t < k)%nat -> bl !!! t = lh_block (k_log s) !!! t) /\
    foreach (seq k m) (fun j =>
      if decide (j < 30)%nat
      then upd_log (fun l => set_lh_block (<[j := head_block d j]> (lh_block l)) l)
      else panic "log.lh.block: index out of range") s =
    Ret tt (set_k_log (set_lh_block bl (k_log s)) s).
Proof.
  revert k s. induction m as [|m IH]; intros k s Hm Hlen.
  { exists (lh_block (k_log s)). split_and!; try done; [intros; lia|]. cbn. unfold ret. f_equal.
    destruct s as [? ? ? ? ? ? ? ? ? ? ? ? ? ? ? []]. done. }
  cbn [seq foreach]. rewrite decide_True by lia.
  set (s1 := set_k_log (set_lh_block (<[k := head_block d k]> (lh_block (k_log s))) (k_log s)) s).
  destruct (IH (S k) s1) as (bl & H1 & H2 & H3 & Hrun); [lia|by simpl; rewrite length_insert|].
  exists bl. split_and!; [done|..].
  - intros t Ht. destruct (decide (t = k)) as [->|]; [|apply H2; lia].
    rewrite H3 by lia. simpl. apply list_lookup_total_insert_eq. lia.
  - intros t Ht. rewrite H3 by lia. simpl. apply list_lookup_total_insert_ne. lia.
  - erewrite bind_run; [|reflexivity]. exact Hrun.
Qed.

(** [l'] is the log [l] with another header. *)
Definition reheaded (l l' : log) : Prop := l' = set_lh_n (lh_n l') (set_lh_block (lh_block l') l).

Lemma read_head_spec s V P bl :
  log_geo (k_log s) (k_disksize s) -> ok s V P ∅ -> (size P < NBUF)%nat -> log_start (k_log s) ∉ P ->
  head_lists (V (log_start (k_log s))) (k_log s) (k_disksize s) bl ->
  wp read_head s (fun _ s' => ok s' V P ∅ /\ logged [] s s' /\ reheaded (k_log s) (k_log s') /\
    log_geo (k_log s') (k_disksize s') /\ lists (k_log s') (k_disksize s') bl).
Proof.
  intros Hg Hok Hroom HP Hh. unfold read_head. apply wp_bind. eapply wp_run; [reflexivity|].
  rewrite (lg_dev _ _ Hg). pose proof Hg as [_ ? Hsz ? ? Hlen]. unfold LOGSIZE, MAXOPBLOCKS in Hsz.
  rewrite (u32_small (log_start _)) by lia. apply wp_bind.
  assert (log_start (k_log s) < k_disksize s) as Hst by lia.
  eapply wp_mono; [apply (bc_bread _ _ _ _ _ Hok Hst); [done|rewrite map_size_empty; auto]|].
  intros i s1 (_ & Hok1 & bufs1 & ->). apply wp_bind. eapply wp_run; [reflexivity|].
  rewrite (bc_data _ _ _ _ i _ Hok1) by apply lookup_insert_eq. set (d := V (log_start (k_log s))) in *.
  apply wp_bind. eapply wp_run; [reflexivity|]. apply wp_bind. eapply wp_run; [reflexivity|].
  set (s2 := set_k_log _ _). change (lh_n (k_log s2)) with (head_n d). rewrite (hl_n _ _ _ _ Hh).
  pose proof (hl_max _ _ _ _ Hh) as Hmax.
  destruct (read_head_loop d (length bl) 0 s2) as (bl' & H1 & H2 & _ & Hrun); [lia|done|].
  apply wp_bind. unfold lh_range. rewrite Nat2Z.id. eapply wp_run; [exact Hrun|].
  set (l' := set_lh_block bl' (k_log s2)). set (s3 := set_k_log l' s2).
  assert (ok s3 V P (<[i:=log_start (k_log s)]> ∅)) as Hok3 by by apply ok_set_log, ok_set_log.
  eapply wp_mono.
  { apply (bc_brelse _ _ _ _ i _ Hok3 (lookup_insert_eq _ _ _)). right.
    by apply (bc_clean _ _ _ _ _ Hok HP). }
  intros _ s4 (Hok4 & Hf4). rewrite delete_insert_id in Hok4 by done.
  assert (k_log s4 = l') as El by (destruct Hf4 as [-> _]; done).
  assert (k_disksize s4 = k_disksize s) as Ed by (destruct Hf4 as [-> _]; done).
  rewrite El, Ed. split_and!; [done|..].
  - unfold logged. rewrite El. apply wrote_nil. etrans; [|exact Hf4]. subst s3 s2 l'. simpl.
    split; [by destruct s|done].
  - done.
  - split; try apply Hg. done.
  - split; try apply Hh. apply list_eq_same_length with (length bl).
    + done.
    + rewrite length_take. change (lh_block l') with bl'. lia.
    + intros t x y Ht Hx Hy. rewrite lookup_take_lt in Hx by done. change (lh_block l') with bl' in Hx.
      apply list_lookup_total_correct in Hx, Hy. subst x y. rewrite H2 by lia.
      by apply (hl_blocks _ _ _ _ Hh).
Qed.

(** *** Commit and recovery *)

(** The log between transactions, and during one that has written the blocks
    [bl] so far: the on-disk header is empty. *)
Record log_ok (s : kernel) (V : Z -> block) (bl : list Z) (L : gmap nat Z) : Prop := {
  lk_geo : log_geo (k_log s) (k_disksize s);
  lk_lists : lists (k_log s) (k_disksize s) bl;
  lk_cache : ok s V (list_to_set bl) L;
  lk_head : head_n (k_disk s (log_start (k_log s))) = 0;
}.

(** The disk writes of a commit, in order. *)
Definition commit_writes (V : Z -> block) (l : log) (bl : list Z) : list (Z * block) :=
  let st := log_start l in
  let h := put_head (lh_n l) (lh_block l) (V st) in
  log_writes V (st + 1) bl ++ (st, h) :: home_writes V bl ++ [(st, put_head 0 (lh_block l) h)].

(** The second half, which recovery shares: install, and clear the header. *)
Lemma install_stage s V (P : gset Z) bl :
  let l := k_log s in
  log_geo l (k_disksize s) -> lists l (k_disksize s) bl -> ok s V P ∅ ->
  (size P < NBUF)%nat -> (forall b, b ∈ P <-> b ∈ bl) \/ P = ∅ ->
  let ws := install_writes V (log_start l + 1) bl ++
            [(log_start l, put_head 0 (lh_block l) (V (log_start l)))] in
  wp (install_trans ;; upd_log (set_lh_n 0) ;; write_head) s (fun _ s' =>
    ok s' (bsets V ws) ∅ ∅ /\ k_log s' = set_lh_n 0 l /\ logged ws s s').
Proof.
  intros l Hg Hl Hok Hroom HP. cbv zeta. set (st := log_start l).
  assert (Hbl : forall b, b ∈ bl -> home l (k_disksize s) b).
  { intros b Hb. by apply (proj1 (Forall_forall _ _) (ls_home _ _ _ Hl)). }
  assert (Hhome : forall b, b ∈ P -> home l (k_disksize s) b).
  { intros b Hb. apply Hbl. destruct HP as [HP| ->]; [by apply HP|set_solver]. }
  assert (P ∖ list_to_set bl = ∅) as HP'.
  { destruct HP as [HP| ->]; [|set_solver]. apply set_eq. intros b.
    rewrite elem_of_difference, elem_of_list_to_set, HP. set_solver. }
  unfold install_trans, lh_range. apply wp_bind. apply wp_bind. eapply wp_run; [reflexivity|].
  fold l. rewrite (ls_n _ _ _ Hl), Nat2Z.id.
  eapply wp_mono.
  { apply (install_loop l bl [] s V P eq_refl Hg Hl Hok Hroom Hhome).
    destruct HP as [HP| ->]; [left; intros b; apply HP|right; rewrite size_empty; unfold NBUF; lia]. }
  intros _ s1 [Hok1 Hw1]. simpl in Hok1, Hw1. rewrite Z.add_0_r in *. rewrite HP' in Hok1. fold st in Hok1, Hw1.
  set (iw := install_writes V (st + 1) bl) in *.
  assert (bsets V iw st = V st) as Ehd.
  { apply bsets_notin. intros Hx%install_writes_addr. apply Hbl in Hx as [_ Hx]. destruct Hg.
    apply Hx. unfold st. lia. }
  assert (k_log s1 = l) as El1 by apply (wrote_log _ _ _ Hw1).
  assert (k_disksize s1 = k_disksize s) as Ed1 by apply (wrote_disksize _ _ _ Hw1).
  apply wp_bind. eapply wp_run; [reflexivity|]. rewrite El1. set (s2 := set_k_log (set_lh_n 0 l) s1).
  eapply wp_mono.
  { apply (write_head_spec s2 (bsets V iw) ∅); simpl; rewrite ?Ed1; [by destruct Hg| |by apply ok_set_log|
      vm_compute; lia|set_solver]. lia. }
  intros _ s3 [Hok3 Hw3]. simpl in Hok3, Hw3. fold st in Hok3, Hw3. rewrite Ehd in Hok3, Hw3. split_and!.
  - rewrite bsets_app. exact Hok3.
  - by rewrite (wrote_log _ _ _ Hw3).
  - eapply logged_trans; [by apply wrote_logged|]. apply (logged_trans [] _ _ s2); [apply logged_upd|].
    by apply wrote_logged.
Qed.

Lemma log_stage s V bl :
  log_ok s V bl ∅ ->
  let l := k_log s in let st := log_start l in
  let ws := log_writes V (st + 1) bl ++ [(st, put_head (lh_n l) (lh_block l) (V st))] in
  wp (write_log ;; write_head) s (fun _ s' => ok s' (bsets V ws) (list_to_set bl) ∅ /\ wrote ws s s').
Proof.
  intros [Hg Hl Hok _]. cbv zeta. set (l := k_log s) in *. set (st := log_start l) in *.
  assert (Hroom := lists_room _ _ _ Hg Hl). assert (Hhome := fun b => lists_set_home _ _ _ b Hl).
  pose proof (ls_n _ _ _ Hl) as Hn. pose proof (ls_max _ _ _ Hl) as Hmax.
  pose proof (lg_size _ _ Hg) as Hsz. unfold LOGSIZE, MAXOPBLOCKS in Hsz.
  unfold write_log, lh_range. apply wp_bind. apply wp_bind. eapply wp_run; [reflexivity|].
  fold l. rewrite Hn, Nat2Z.id.
  eapply wp_mono.
  { apply (write_log_loop l bl [] s V _ eq_refl Hg Hl Hok Hroom); [|done].
    intros b Hb. by apply elem_of_list_to_set. }
  intros _ s1 [Hok1 Hw1]. simpl in Hok1, Hw1. rewrite Z.add_0_r in *. fold st in Hok1, Hw1.
  assert (k_log s1 = l) as El1 by apply (wrote_log _ _ _ Hw1).
  assert (k_disksize s1 = k_disksize s) as Ed1 by apply (wrote_disksize _ _ _ Hw1).
  eapply wp_mono.
  { apply (write_head_spec s1 (bsets V (log_writes V (st + 1) bl)) (list_to_set bl)); rewrite ?El1, ?Ed1; [done|lia|exact Hok1|done|].
    by apply (start_not_pinned _ _ _ Hg Hhome). }
  intros _ s2 [Hok2 Hw2]. rewrite El1 in Hok2, Hw2. fold st in Hok2, Hw2.
  rewrite (bsets_notin V _ st), Hn in Hok2, Hw2 by (intros Hx%log_writes_addr; lia).
  rewrite bsets_app. split; [exact Hok2|]. exact (wrote_trans _ _ _ _ _ Hw1 Hw2).
Qed.

Lemma commit_spec s V bl :
  log_ok s V bl ∅ -> bl <> [] ->
  let W := commit_writes V (k_log s) bl in
  wp commit s (fun _ s' => ok s' (bsets V W) ∅ ∅ /\ k_log s' = set_lh_n 0 (k_log s) /\ logged W s s').
Proof.
  intros Hok Hne. pose proof Hok as [Hg Hl _ _]. cbv zeta. unfold commit, when. apply wp_bind.
  eapply wp_run; [reflexivity|]. set (l := k_log s) in *. set (st := log_start l).
  assert (0 < lh_n l) as Hn. { rewrite (ls_n _ _ _ Hl). destruct bl; simpl; [done|lia]. }
  rewrite (proj2 (Z.ltb_lt _ _) Hn).
  pose proof (wp_bind_inv _ _ _ _ (log_stage _ _ _ Hok)) as Hls. fold l st in Hls.
  set (h := put_head (lh_n l) (lh_block l) (V st)) in *.
  set (lw := log_writes V (st + 1) bl ++ [(st, h)]) in *.
  apply wp_bind. eapply wp_mono; [exact Hls|]. clear Hls. intros ? s1 Hwh.
  apply wp_bind. eapply wp_mono; [exact Hwh|]. clear Hwh. intros _ s2 [Hok2 Hw2].
  assert (k_log s2 = l) as El by apply (wrote_log _ _ _ Hw2).
  assert (k_disksize s2 = k_disksize s) as Ed by apply (wrote_disksize _ _ _ Hw2).
  assert (bsets V lw st = h) as Eh by (unfold lw; rewrite bsets_app; apply bset_eq).
  pose proof (ls_max _ _ _ Hl) as Hmax.
  assert (install_writes (bsets V lw) (st + 1) bl = home_writes V bl) as Ei.
  { apply install_logged.
    - intros b Hb Hr. pose proof (proj1 (Forall_forall _ _) (ls_home _ _ _ Hl) b Hb) as [_ Hx].
      apply Hx. unfold st in Hr. lia.
    - intros x Hx. unfold lw. rewrite bsets_app. apply bset_ne. simpl. lia. }
  eapply wp_mono.
  { apply (install_stage s2 (bsets V lw) (list_to_set bl) bl); rewrite ?El, ?Ed; try done.
    - by apply (lists_room l (k_disksize s)).
    - left. intros b. apply elem_of_list_to_set. }
  intros _ s3 (Hok3 & El3 & Hl3). rewrite El in *. fold st in Hok3, Hl3. rewrite Ei, Eh in Hok3, Hl3.
  assert (commit_writes V l bl = lw ++ home_writes V bl ++ [(st, put_head 0 (lh_block l) h)]) as EW.
  { unfold commit_writes, lw. by rewrite <- app_assoc. }
  rewrite EW. split_and!; [by rewrite bsets_app|done|].
  eapply logged_trans; [by apply wrote_logged|exact Hl3].
Qed.

Lemma commit_empty s V L : log_ok s V [] L -> commit s = Ret tt s.
Proof. intros [_ Hl _ _]. unfold commit, when. krun. unfold get_log. krun. by rewrite (ls_n _ _ _ Hl). Qed.

Lemma recover_spec s V bl :
  log_geo (k_log s) (k_disksize s) -> ok s V ∅ ∅ ->
  head_lists (V (log_start (k_log s))) (k_log s) (k_disksize s) bl ->
  let st := log_start (k_log s) in
  wp recover_from_log s (fun _ s' => exists lh,
    let W := install_writes V (st + 1) bl ++ [(st, put_head 0 lh (V st))] in
    ok s' (bsets V W) ∅ ∅ /\ lh_n (k_log s') = 0 /\ reheaded (k_log s) (k_log s') /\
    log_geo (k_log s') (k_disksize s') /\ logged W s s').
Proof.
  intros Hg Hok Hh. cbv zeta. unfold recover_from_log. apply wp_bind. eapply wp_mono.
  { apply (read_head_spec s V ∅ bl); try done. vm_compute. lia. }
  intros _ s1 (Hok1 & Hl1 & Hr1 & Hg1 & Hls1).
  assert (log_start (k_log s1) = log_start (k_log s)) as Est by by rewrite Hr1.
  eapply wp_mono; [apply (install_stage s1 V ∅ bl Hg1 Hls1 Hok1)|].
  - vm_compute. lia.
  - by right.
  - rewrite Est. intros _ s2 (Hok2 & El2 & Hl2). exists (lh_block (k_log s1)).
    split_and!; [done|by rewrite El2|rewrite El2; unfold reheaded; rewrite Hr1; done|..].
    + rewrite (logged_disksize _ _ _ Hl2), El2. by destruct Hg1.
    + exact (logged_trans [] _ _ _ _ Hl1 Hl2).
Qed.
End log_proofs.

(** ** Crashes

    Blocks are written atomically and in order, so the disk a crash leaves
    behind holds a prefix of the writes issued. *)

(** After a reboot: the cache is empty, the log is where it was. *)
Record rebooted (s : kernel) (D : Z -> block) (r : kernel) : Prop := {
  rb_disk : k_disk r = D;
  rb_cache : cache_ok r D ∅ ∅;
  rb_size : k_disksize r = k_disksize s;
  rb_geo : log_geo (k_log r) (k_disksize s);
  rb_start : log_start (k_log r) = log_start (k_log s);
  rb_logsize : log_size (k_log r) = log_size (k_log s);
}.

Lemma lists_nil l dsz : log_geo l dsz -> lh_n l = 0 -> lists l dsz [].
Proof. intros [] Hn. split; simpl; try done; [constructor|lia]. Qed.

Lemma log_writes_addr_2 V a bl x :
  a <= x < a + Z.of_nat (length bl) -> x ∈ (log_writes V a bl).*1.
Proof.
  revert a. induction bl as [|b bl IH]; intros a Hx; simpl in *; [lia|].
  apply elem_of_cons. destruct (decide (x = a)); [by left|right]. apply IH. lia.
Qed.

Lemma home_writes_addr V bl : (home_writes V bl).*1 = bl.
Proof. unfold home_writes. rewrite <- list_fmap_compose. apply list_fmap_id. Qed.

Lemma length_log_writes V a bl : length (log_writes V a bl) = length bl.
Proof. revert a. induction bl; intros a0; simpl; auto. Qed.

(** What was written does not depend on what was there before. *)
Lemma bsets_cover V V' ws x : x ∈ ws.*1 -> bsets V ws x = bsets V' ws x.
Proof.
  revert V V'. induction ws as [|[n d] ws IH]; intros V V' Hx; [by apply not_elem_of_nil in Hx|].
  rewrite !bsets_cons. destruct (decide (x ∈ ws.*1)) as [Hin|Hin]; [by apply IH|].
  rewrite fmap_cons, elem_of_cons in Hx. destruct Hx as [->|]; [|done].
  rewrite !bsets_notin by done. simpl. by rewrite !bset_eq.
Qed.

(** Splitting a prefix of a concatenation. *)
Lemma prefix_app_cases {A} (l l1 l2 : list A) :
  l `prefix_of` l1 ++ l2 ->
  (l `prefix_of` l1 /\ (length l <= length l1)%nat) \/
  (exists k, l = l1 ++ k /\ k `prefix_of` l2).
Proof.
  intros [k E]. apply app_eq_inv in E as [(k' & -> & ->)|(k' & -> & ->)].
  - left. split; [by exists k'|]. rewrite length_app. lia.
  - right. exists k'. split; [done|]. by exists k.
Qed.

Lemma prefix_addr (ws ws' : list (Z * block)) x : ws `prefix_of` ws' -> x ∈ ws.*1 -> x ∈ ws'.*1.
Proof. intros [k ->]. rewrite fmap_app, elem_of_app. auto. Qed.

Lemma install_writes_addrs V a bl : (install_writes V a bl).*1 = bl.
Proof. revert a. induction bl as [|b bl IH]; intros a; simpl; [done|]. by rewrite IH. Qed.

Lemma install_writes_in V a bl t :
  (t < length bl)%nat -> (bl !!! t, V (a + Z.of_nat t)) ∈ install_writes V a bl.
Proof.
  revert a t. induction bl as [|b bl IH]; intros a t Ht; simpl in *; [lia|]. destruct t as [|t].
  - rewrite Z.add_0_r. by left.
  - right. replace (a + Z.of_nat (S t)) with (a + 1 + Z.of_nat t) by lia. apply IH. lia.
Qed.

Lemma prefix_singleton {A} (l : list A) x : l `prefix_of` [x] -> l = [] \/ l = [x].
Proof.
  destruct l as [|y l]; [by left|]. intros Hp. right. apply prefix_cons_inv_1 in Hp as Hy.
  apply prefix_cons_inv_2, prefix_nil_inv in Hp. by subst.
Qed.

Section recovery.
Context `{HF : Fuel} {s : kernel}.

Let l := k_log s.
Let dsz := k_disksize s.
Let st := log_start l.
Hypothesis Hgeo : log_geo l dsz.

(** Recovery from a disk whose header lists [bl']. *)
Lemma recover_disk D r bl' :
  rebooted s D r -> head_lists (D st) l dsz bl' ->
  exists r' lh, recover_from_log r = Ret tt r' /\ log_ok (ok := cache_ok) r' (k_disk r') [] ∅ /\
    k_disk r' = bsets D (install_writes D (st + 1) bl' ++ [(st, put_head 0 lh (D st))]) /\
    k_writes r' = k_writes r ++ install_writes D (st + 1) bl' ++ [(st, put_head 0 lh (D st))] /\
    k_disksize r' = dsz /\ log_start (k_log r') = st /\ log_size (k_log r') = log_size l.
Proof.
  intros [Hd Hc Hsz Hg Hst Hls] Hh.
  assert (head_lists (D (log_start (k_log r))) (k_log r) (k_disksize r) bl') as Hh'.
  { rewrite Hsz, Hst. destruct Hh as [H1 H2 H3 H4 H5]. split; [done..| |by rewrite Hls].
    eapply Forall_impl; [exact H4|]. intros b [? Hb]. split; [done|]. by rewrite Hst, Hls. }
  rewrite <- Hsz in Hg.
  destruct (wp_inv _ _ _ (recover_spec (ok := cache_ok) r D bl' Hg Hc Hh')) as ([] & r' & Hrun & lh & Hq).
  exists r', lh. rewrite Hst in Hq. destruct Hq as (Hc' & Hn & Hr & Hg' & Hlg).
  pose proof (logged_disk _ _ _ Hlg) as Ed. rewrite Hd in Ed. fold l st in Ed.
  assert (k_disk r' st = put_head 0 lh (D st)) as Eh by (rewrite Ed, bsets_app; apply bset_eq).
  assert (log_start (k_log r') = st) as Est by (rewrite Hr; exact Hst).
  split; [done|]. split_and!; [..|done|exact (logged_writes _ _ _ Hlg)| |done|rewrite Hr; exact Hls].
  - split; [done|by apply lists_nil|by rewrite Ed|]. rewrite Est, Eh.
    apply put_head_spec; [lia|]. eapply cache_blocks; exact Hc.
  - rewrite (logged_disksize _ _ _ Hlg). exact Hsz.
Qed.

Lemma home_ne_log b x : home l dsz b -> st <= x < st + log_size l -> b <> x.
Proof. intros [_ Hb] Hx ->. by apply Hb. Qed.

Lemma head_here x : x = st -> st <= x < st + log_size l.
Proof using Hgeo. intros ->. pose proof (lg_size _ _ Hgeo) as Hm. lia. Qed.

Lemma empty_head d : head_n d = 0 -> head_lists d l dsz [].
Proof using Hgeo.
  intros Hd. pose proof (lg_size _ _ Hgeo) as Hm. split; simpl; try done; [lia|constructor|lia].
Qed.

(** Recovery from an empty header changes no home block. *)
Lemma recover_empty D r :
  rebooted s D r -> head_n (D st) = 0 ->
  exists r', recover_from_log r = Ret tt r' /\ log_ok (ok := cache_ok) r' (k_disk r') [] ∅ /\
    forall b, home l dsz b -> k_disk r' b = D b.
Proof using Hgeo.
  intros Hr Hh. destruct (recover_disk D r [] Hr (empty_head _ Hh)) as (r' & lh & Hrun & Hok' & Ed & _).
  exists r'. split; [done|]. split; [done|]. intros b Hb. rewrite Ed. simpl. apply bset_ne. simpl.
  eapply home_ne_log; [exact Hb|]. by apply head_here.
Qed.

End recovery.

Section crash.
Context `{HF : Fuel} {s : kernel} {V : Z -> block} {bl : list Z}.
Hypothesis Hok : log_ok (ok := cache_ok) s V bl ∅.

Let l := k_log s.
Let dsz := k_disksize s.
Let st := log_start l.
Let h := put_head (lh_n l) (lh_block l) (V st).
Let lw := log_writes V (st + 1) bl.
Let hw := home_writes V bl.
Let Hgeo : log_geo l dsz := lk_geo _ _ _ _ Hok.

Lemma home_off b x : home l dsz b -> st <= x < st + log_size l -> b <> x.
Proof. apply home_ne_log. Qed.
Lemma head_at x : x = st -> st <= x < st + log_size l.
Proof. apply (head_here Hgeo). Qed.

Lemma bl_home b : b ∈ bl -> home l dsz b.
Proof. intros Hb. by apply (proj1 (Forall_forall _ _) (ls_home _ _ _ (lk_lists _ _ _ _ Hok))). Qed.

Lemma lw_addr x : x ∈ lw.*1 -> st < x < st + log_size l.
Proof.
  intros Hx%log_writes_addr. pose proof (ls_max _ _ _ (lk_lists _ _ _ _ Hok)) as Hm. fold l in Hm. lia.
Qed.

(** A block outside the log holds its old contents unless it is in the
    transaction, and [V] says so too. *)
Lemma clean_home b : home l dsz b -> b ∉ bl -> V b = k_disk s b.
Proof.
  intros Hb Hn. apply (co_clean _ _ _ _ (lk_cache _ _ _ _ Hok)); [|done].
  by rewrite elem_of_list_to_set.
Qed.

(** Before the commit point. *)
Lemma crash_before W1 r :
  W1 `prefix_of` lw -> rebooted s (bsets (k_disk s) W1) r ->
  exists r', recover_from_log r = Ret tt r' /\ log_ok (ok := cache_ok) r' (k_disk r') [] ∅ /\
    forall b, home l dsz b -> k_disk r' b = k_disk s b.
Proof.
  intros Hp Hr. assert (forall x, x ∈ W1.*1 -> st < x < st + log_size l) as Ha.
  { intros x Hx. eapply lw_addr, prefix_addr; eauto. }
  destruct (recover_empty Hgeo _ r Hr) as (r' & Hrun & Hok' & Hb).
  - fold l st. rewrite bsets_notin; [apply (lk_head _ _ _ _ Hok)|]. intros Hx%Ha. lia.
  - exists r'. split; [done|]. split; [done|]. intros b Hb'. rewrite Hb by done.
    apply bsets_notin. intros Hx%Ha. by eapply home_off; [exact Hb'| |reflexivity]; lia.
Qed.

(** The disk after the commit point. *)
Lemma disk_after k b :
  k `prefix_of` hw -> home l dsz b -> b ∉ bl -> bsets (k_disk s) (lw ++ (st, h) :: k) b = V b.
Proof.
  intros Hk Hb Hn. rewrite clean_home by done. apply bsets_notin.
  rewrite fmap_app, fmap_cons, elem_of_app, elem_of_cons. intros [Hx%lw_addr|[Hx|Hx]].
  - by eapply home_off; [exact Hb| |reflexivity]; lia.
  - by eapply home_off; [exact Hb|by apply head_at|].
  - eapply prefix_addr in Hx; [|exact Hk]. unfold hw in Hx. by rewrite home_writes_addr in Hx.
Qed.

Lemma crash_after k r :
  k `prefix_of` hw -> rebooted s (bsets (k_disk s) (lw ++ (st, h) :: k)) r ->
  exists r', recover_from_log r = Ret tt r' /\ log_ok (ok := cache_ok) r' (k_disk r') [] ∅ /\
    forall b, home l dsz b -> k_disk r' b = V b.
Proof.
  intros Hk Hr. set (D := bsets (k_disk s) (lw ++ (st, h) :: k)) in *.
  assert (Hlog : forall x, st <= x < st + log_size l -> x ∉ k.*1).
  { intros x Hx Hin. eapply prefix_addr in Hin; [|exact Hk]. unfold hw in Hin. rewrite home_writes_addr in Hin.
    apply bl_home in Hin. by eapply home_off; [exact Hin|exact Hx|]. }
  assert (D st = h) as Dh.
  { unfold D. rewrite bsets_app, bsets_cons, bsets_notin by (by apply Hlog, head_at). apply bset_eq. }
  assert (head_lists (D st) l dsz bl) as Hh.
  { rewrite Dh. apply put_head_lists; try apply Hok. eapply cache_blocks, (lk_cache _ _ _ _ Hok). }
  assert (install_writes D (st + 1) bl = hw) as Ei.
  { pose proof (ls_max _ _ _ (lk_lists _ _ _ _ Hok)) as Hm. fold l in Hm. apply install_logged.
    - intros b Hb%bl_home Hx. by eapply home_off; [exact Hb| |reflexivity]; lia.
    - intros x Hx. unfold D. rewrite bsets_app, bsets_cons, bsets_notin by (apply Hlog; lia).
      rewrite bset_ne by lia. apply bsets_cover. by apply log_writes_addr_2. }
  destruct (recover_disk D r bl Hr Hh) as (r' & lh & Hrun & Hok' & Ed & _).
  fold l st in Ed. rewrite Ei in Ed.
  exists r'. split; [done|]. split; [done|]. intros b Hb. rewrite Ed, bsets_app. simpl.
  rewrite bset_ne by (simpl; eapply home_off; [exact Hb|by apply head_at]).
  destruct (decide (b ∈ bl)) as [Hin|Hin].
  - apply bsets_in; [unfold hw; rewrite home_writes_addr; apply Hok|].
    unfold hw, home_writes. apply list_elem_of_fmap. eauto.
  - rewrite bsets_notin by (unfold hw; by rewrite home_writes_addr). by apply disk_after.
Qed.

(** After the last write. *)
Lemma crash_end lh r :
  rebooted s (bsets (k_disk s) (lw ++ (st, h) :: hw ++ [(st, put_head 0 lh h)])) r ->
  exists r', recover_from_log r = Ret tt r' /\ log_ok (ok := cache_ok) r' (k_disk r') [] ∅ /\
    forall b, home l dsz b -> k_disk r' b = V b.
Proof.
  intros Hr. replace (lw ++ (st, h) :: hw ++ _) with ((lw ++ (st, h) :: hw) ++ [(st, put_head 0 lh h)]) in Hr
    by (by rewrite <- app_assoc).
  rewrite bsets_app in Hr. destruct (recover_empty Hgeo _ r Hr) as (r' & Hrun & Hok' & Hb).
  - fold l st. simpl. rewrite bset_eq. apply put_head_spec; [lia|]. apply put_head_spec.
    + pose proof (lk_lists _ _ _ _ Hok) as Hl. pose proof (ls_max _ _ _ Hl). pose proof (ls_n _ _ _ Hl) as Hn.
      pose proof (lg_size _ _ (lk_geo _ _ _ _ Hok)). unfold l. rewrite Hn. unfold LOGSIZE, MAXOPBLOCKS in *. lia.
    + eapply cache_blocks, (lk_cache _ _ _ _ Hok).
  - exists r'. split; [done|]. split; [done|]. intros b Hb'. rewrite Hb by done. simpl.
    rewrite bset_ne by (simpl; eapply home_off; [exact Hb'|by apply head_at]).
    destruct (decide (b ∈ bl)) as [Hin|Hin]; [|by apply disk_after].
    rewrite bsets_app, bsets_cons. apply bsets_in; [unfold hw; rewrite home_writes_addr; apply Hok|].
    unfold hw, home_writes. apply list_elem_of_fmap. eauto.
Qed.

(** Crashing anywhere in a commit: before the header is written (the write
    after the [length bl] log blocks) the old contents survive, after it
    the new ones. *)
Lemma crash_anywhere W1 r :
  W1 `prefix_of` commit_writes V l bl -> rebooted s (bsets (k_disk s) W1) r ->
  exists r', recover_from_log r = Ret tt r' /\ log_ok (ok := cache_ok) r' (k_disk r') [] ∅ /\
    forall b, home l dsz b ->
      k_disk r' b = if decide (length W1 <= length bl)%nat then k_disk s b else V b.
Proof.
  unfold commit_writes. fold st h lw hw. intros Hp Hr.
  assert (length lw = length bl) as Hlen by apply length_log_writes.
  apply prefix_app_cases in Hp as [[Hp Hle]|(k & -> & Hp)].
  { destruct (decide _) as [_|]; [|lia]. by apply (crash_before W1). }
  destruct k as [|w k].
  { rewrite app_nil_r in *. destruct (decide _) as [_|]; [|lia]. by apply (crash_before lw). }
  apply prefix_cons_inv_1 in Hp as Hw. apply prefix_cons_inv_2 in Hp. subst w.
  destruct (decide _) as [Hle|_]; [rewrite length_app in Hle; simpl in Hle; lia|].
  apply prefix_app_cases in Hp as [[Hp _]|(k' & -> & Hp)]; [by apply (crash_after k)|].
  destruct k' as [|w k'].
  { rewrite app_nil_r in *. by apply (crash_after hw). }
  apply prefix_cons_inv_1 in Hp as Hw. apply prefix_cons_inv_2 in Hp. subst w.
  apply prefix_nil_inv in Hp as ->. by apply (crash_end (lh_block l)).
Qed.
End crash.

(** ** Transactions *)

Section transactions.
Context `{HF : Fuel} {ok : kernel -> (Z -> block) -> gset Z -> gmap nat Z -> Prop} {HC : BlockCache ok}.

(** The lock-protected counters are not part of [log_ok]. *)
Lemma log_ok_frame s s' V bl L :
  log_ok (ok := ok) s V bl L -> quiet s' -> cur_pid s' = cur_pid s -> k_bufs s' = k_bufs s ->
  k_disk s' = k_disk s -> k_disksize s' = k_disksize s ->
  k_log s' = set_log_outstanding (log_outstanding (k_log s'))
               (set_log_committing (log_committing (k_log s')) (k_log s)) ->
  log_ok (ok := ok) s' V bl L.
Proof.
  intros [Hg Hl Hc Hh] Hq Hp Hb Hd Hs El.
  set (o := log_outstanding (k_log s')) in El. set (c := log_committing (k_log s')) in El. clearbody o c.
  split; rewrite ?El, ?Hd, ?Hs; [by destruct Hg| |by eapply bc_frame|done].
  by destruct Hl.
Qed.

Lemma log_ok_quiet s V bl L : log_ok (ok := ok) s V bl L -> quiet s.
Proof. intros Hok. eapply bc_quiet, Hok. Qed.

Lemma begin_op_spec s V bl L :
  log_ok (ok := ok) s V bl L -> log_committing (k_log s) = false ->
  lh_n (k_log s) + (log_outstanding (k_log s) + 1) * MAXOPBLOCKS <= LOGSIZE ->
  let s' := set_k_log (set_log_outstanding (log_outstanding (k_log s) + 1) (k_log s)) s in
  begin_op s = Ret tt s' /\ log_ok (ok := ok) s' V bl L.
Proof.
  intros Hok Hc Hn s'. pose proof (log_ok_quiet _ _ _ _ Hok) as Hq. split.
  - unfold begin_op. erewrite bind_run by by apply acquire_run, quiet_not_held.
    destruct fuel; cbn [begin_op_loop]; unfold get_log, upd_log; krun; kproj; rewrite Hc;
      rewrite (proj2 (Z.ltb_ge _ _) Hn); cbn [res_bind];
      rewrite (release_head _ (k_held s)) by (done || by apply quiet_not_held); keq.
  - eapply log_ok_frame; [exact Hok|by destruct Hq|done..].
Qed.

(** The first position of a block in the header. *)
Lemma log_index_spec l dsz bl n :
  lists l dsz bl -> dsz <= 2 ^ 31 -> home l dsz n ->
  (n ∈ bl -> (log_index l n < length bl)%nat /\ bl !! log_index l n = Some n) /\
  (n ∉ bl -> log_index l n = length bl).
Proof.
  intros Hl Hd [Hn _]. unfold log_index. rewrite (ls_n _ _ _ Hl), Nat2Z.id, (ls_blocks _ _ _ Hl).
  assert (forall b, b ∈ bl -> u32 b = b) as Hu.
  { intros b Hb. pose proof (proj1 (Forall_forall _ _) (ls_home _ _ _ Hl) b Hb) as [? _]. apply u32_small. lia. }
  destruct (list_find (fun b => u32 b = n) bl) as [[i b]|] eqn:E.
  - apply list_find_Some in E as (Hb & Hbn & _). pose proof (list_elem_of_lookup_2 _ _ _ Hb) as Hin.
    rewrite Hu in Hbn by done. subst b. split; [|done]. intros _. split; [by eapply lookup_lt_Some|done].
  - apply list_find_None in E. split; [|done]. intros Hin.
    pose proof (proj1 (Forall_forall _ _) E n Hin) as Hx. by destruct Hx; apply Hu.
Qed.

(** The blocks of a transaction after one more [log_write]. *)
Definition absorb (n : Z) (bl : list Z) : list Z := if decide (n ∈ bl) then bl else bl ++ [n].

Lemma log_write_run s V bl L i n :
  log_ok (ok := ok) s V bl L -> L !! i = Some n -> home (k_log s) (k_disksize s) n ->
  1 <= log_outstanding (k_log s) -> Z.of_nat (length bl) < log_size (k_log s) - 1 ->
  exists lh n',
    let l' := set_lh_n n' (set_lh_block lh (k_log s)) in
    lists l' (k_disksize s) (absorb n bl) /\ length lh = 30%nat /\
    log_write i s = Ret tt (set_k_log l' (set_k_bufs
      (alter (fun b => set_b_flags (Z.lor (b_flags b) B_DIRTY) b) i (k_bufs s)) s)).
Proof.
  intros Hok HL Hn Ho Hlt. pose proof (log_ok_quiet _ _ _ _ Hok) as Hq.
  destruct Hok as [Hg Hl Hc Hh]. set (l := k_log s) in *.
  pose proof (ls_n _ _ _ Hl) as El. pose proof (lg_size _ _ Hg) as Hs. unfold LOGSIZE, MAXOPBLOCKS in Hs.
  pose proof (lg_len _ _ Hg) as Hlen. pose proof (lg_dsz _ _ Hg) as Hdz.
  pose proof (bc_blockno _ _ _ _ _ _ Hc HL) as Eb.
  assert (i32 n = n) as Ei by (apply i32_small; destruct Hn; lia).
  destruct (log_index_spec _ _ _ n Hl Hdz Hn) as [Hin Hnotin].
  set (j := log_index l n) in *.
  exists (<[j:=n]> (lh_block l)), (if Z.of_nat j =? lh_n l then lh_n l + 1 else lh_n l).
  cbv zeta. split_and!; [|by rewrite length_insert|].
  - unfold absorb. destruct (decide (n ∈ bl)) as [Hb|Hb].
    + destruct (Hin Hb) as [Hj Hjn]. rewrite El, (proj2 (Z.eqb_neq _ _)) by lia.
      split; simpl; try apply Hl; [done|]. rewrite take_insert_lt by done.
      rewrite (ls_blocks _ _ _ Hl). by apply list_insert_id.
    + rewrite (Hnotin Hb), El, Z.eqb_refl.
      split; simpl; rewrite ?length_app; simpl; [lia| | | |lia].
      * rewrite Nat.add_1_r. rewrite take_S_r with (x := n).
        -- rewrite take_insert_ge by lia. by rewrite (ls_blocks _ _ _ Hl).
        -- apply list_lookup_insert_eq. lia.
      * apply NoDup_app. split_and!; [apply Hl|set_solver|apply NoDup_singleton].
      * apply Forall_app. split; [apply Hl|by apply Forall_singleton].
  - unfold log_write, get_log, upd_log, get_buf, upd_buf, when. krun. fold l. rewrite El.
    rewrite (proj2 (Z.leb_gt LOGSIZE _)) by (unfold LOGSIZE, MAXOPBLOCKS; lia).
    rewrite (proj2 (Z.leb_gt (log_size l - 1) _)) by lia. cbn [orb].
    rewrite (proj2 (Z.ltb_ge _ _) Ho). rewrite acquire_run by by apply quiet_not_held.
    cbn [res_bind]. kproj. fold l. rewrite Eb. fold j. rewrite Ei, El.
    destruct (Z.of_nat j =? Z.of_nat (length bl)) eqn:E; cbn [res_bind];
      rewrite (release_head _ (k_held s)) by (done || by apply quiet_not_held); kproj; f_equal;
      subst l; destruct s as [? ? ? ? ? ? ? ? ? ? ? ? ? ? ? []]; simpl in *; by subst.
Qed.

Lemma absorb_set n bl : list_to_set (absorb n bl) = ({[n]} ∪ list_to_set bl : gset Z).
Proof.
  unfold absorb. destruct (decide (n ∈ bl)) as [Hin|Hin].
  - apply set_eq. intros x. rewrite elem_of_union, elem_of_singleton, !elem_of_list_to_set. naive_solver.
  - rewrite list_to_set_app_L. simpl. set_solver.
Qed.

Lemma log_write_spec s V bl L i n :
  log_ok (ok := ok) s V bl L -> L !! i = Some n -> home (k_log s) (k_disksize s) n ->
  1 <= log_outstanding (k_log s) -> Z.of_nat (length bl) < log_size (k_log s) - 1 ->
  wp (log_write i) s (fun _ s' => log_ok (ok := ok) s' V (absorb n bl) L /\
    logged [] s s' /\ reheaded (k_log s) (k_log s')).
Proof.
  intros Hok HL Hn Ho Hlt. destruct (log_write_run _ _ _ _ _ _ Hok HL Hn Ho Hlt) as (lh & n' & Hl & Hlen & Hrun).
  destruct Hok as [Hg Hls Hc Hh].
  eapply wp_run; [exact Hrun|]. set (l' := set_lh_n n' (set_lh_block lh (k_log s))) in *. split_and!.
  - split; kproj; [destruct Hg; by split|done| |done]. rewrite absorb_set.
    apply ok_set_log. by apply bc_pin.
  - unfold logged. kproj. apply wrote_nil. split; [by destruct s|done].
  - done.
Qed.

(** The use of the log its comment describes: read a block, modify it,
    [log_write] it, release it. *)
Definition write_block (n : Z) (d : block) : K unit :=
  i <- bread 1 n ;;
  upd_buf i (set_b_data d) ;;
  log_write i ;;
  brelse i.

Lemma write_block_spec s V bl n d :
  log_ok (ok := ok) s V bl ∅ -> home (k_log s) (k_disksize s) n -> block_ok d ->
  1 <= log_outstanding (k_log s) -> Z.of_nat (length bl) < log_size (k_log s) - 1 ->
  wp (write_block n d) s (fun _ s' => log_ok (ok := ok) s' (bset V n d) (absorb n bl) ∅ /\
    logged [] s s' /\ reheaded (k_log s) (k_log s')).
Proof.
  intros Hok Hn Hd Ho Hlt. unfold write_block. pose proof Hok as [Hg Hl Hc Hh].
  apply wp_bind. eapply wp_mono.
  { apply (bc_bread _ _ _ _ n Hc); [apply Hn|done|right; rewrite map_size_empty; by apply (lists_room _ _ _ Hg Hl)]. }
  intros i s1 (_ & Hc1 & bufs1 & ->). apply wp_bind. eapply wp_run; [reflexivity|].
  pose proof (bc_write _ _ _ _ i n d Hc1 (lookup_insert_eq _ _ _) Hd) as Hc2.
  match type of Hc2 with ok ?x _ _ _ => set (s2 := x) in * end.
  assert (log_ok (ok := ok) s2 (bset V n d) bl (<[i:=n]> ∅)) as Hok2 by (split; [exact Hg|exact Hl|exact Hc2|exact Hh]).
  apply wp_bind. eapply wp_mono.
  { apply (log_write_spec s2 _ _ _ i n Hok2); try done. apply lookup_insert_eq. }
  intros _ s3 (Hok3 & Hlg3 & Hr3). eapply wp_mono.
  { eapply (bc_brelse _ _ _ _ i n (lk_cache _ _ _ _ Hok3)); [apply lookup_insert_eq|]. left.
    rewrite absorb_set. set_solver. }
  intros _ s4 (Hc4 & Hf4). rewrite delete_insert_id in Hc4 by done.
  assert (k_log s4 = k_log s3) as El by (destruct Hf4 as [-> _]; done).
  split_and!.
  - destruct Hok3 as [Hg3 Hl3 _ Hh3].
    split; rewrite ?El; [..|exact Hc4|]; destruct Hf4 as [-> _]; done.
  - apply (logged_trans [] [] _ s3); [|by apply wrote_logged].
    apply (logged_trans [] [] _ s2); [|exact Hlg3]. apply wrote_logged, wrote_nil. bufs_frame.
  - by rewrite El.
Qed.

Lemma length_absorb n bl : (length (absorb n bl) <= S (length bl))%nat.
Proof. unfold absorb. case_decide; rewrite ?length_app; simpl; lia. Qed.

(** A file-system call that writes the blocks [ws]. *)
Definition write_blocks (ws : list (Z * block)) : K unit :=
  foreach ws (fun w => write_block w.1 w.2).

(** The blocks they list in the header. *)
Definition absorb_all (ws : list (Z * block)) (bl : list Z) : list Z := foldl (fun bl w => absorb w.1 bl) bl ws.

Lemma absorb_fresh ws bl : NoDup (bl ++ ws.*1) -> absorb_all ws bl = bl ++ ws.*1.
Proof.
  revert bl. induction ws as [|[n d] ws IH]; intros bl Hnd; [by rewrite app_nil_r|]. unfold absorb_all in *. cbn [foldl].
  assert (absorb n bl = bl ++ [n]) as E.
  { unfold absorb. rewrite decide_False; [done|]. intros Hin. apply NoDup_app in Hnd as (_ & Hd & _).
    apply (Hd n Hin). by left. }
  rewrite fmap_cons, cons_middle, app_assoc in Hnd. simpl. rewrite E, IH by done. by rewrite <- app_assoc.
Qed.

Lemma write_blocks_spec ws s V bl :
  log_ok (ok := ok) s V bl ∅ -> Forall (fun w => home (k_log s) (k_disksize s) w.1 /\ block_ok w.2) ws ->
  1 <= log_outstanding (k_log s) -> Z.of_nat (length bl + length ws) < log_size (k_log s) ->
  wp (write_blocks ws) s (fun _ s' =>
    log_ok (ok := ok) s' (bsets V ws) (absorb_all ws bl) ∅ /\ logged [] s s' /\ reheaded (k_log s) (k_log s')).
Proof.
  revert s V bl. induction ws as [|[n d] ws IH]; intros s V bl Hok Hws Ho Hlt.
  { apply wp_ret. split_and!; [done|by apply wrote_logged, wrote_nil|by destruct s as [? ? ? ? ? ? ? ? ? ? ? ? ? ? ? []]]. }
  apply Forall_cons in Hws as [[Hn Hd] Hws]. simpl in Hn, Hd, Hlt. cbn [write_blocks foreach].
  apply wp_bind. eapply wp_mono; [apply (write_block_spec s V bl n d Hok Hn Hd Ho); lia|].
  intros _ s1 (Hok1 & Hlg1 & Hr1). pose proof (logged_disksize _ _ _ Hlg1) as Ed.
  pose proof (length_absorb n bl) as Hlen.
  eapply wp_mono.
  { apply (IH s1 (bset V n d) (absorb n bl)); rewrite ?Ed; [done| |by rewrite Hr1|by rewrite Hr1; simpl; lia].
    eapply Forall_impl; [exact Hws|]. intros w [[? Hw] ?]. split; [|done]. split; [done|]. by rewrite Hr1. }
  intros _ s2 (Hok2 & Hlg2 & Hr2). split_and!; [done| |].
  - exact (logged_trans [] [] _ _ _ Hlg1 Hlg2).
  - unfold reheaded in *. rewrite Hr2, Hr1. done.
Qed.

(** An empty transaction writes nothing. *)
Definition tx_writes (V : Z -> block) (l : log) (bl : list Z) : list (Z * block) :=
  match bl with [] => [] | _ => commit_writes V l bl end.

Lemma commit_ok s V bl :
  log_ok (ok := ok) s V bl ∅ ->
  let W := tx_writes V (k_log s) bl in
  wp commit s (fun _ s' => log_ok (ok := ok) s' (bsets V W) [] ∅ /\ logged W s s' /\
    k_log s' = set_lh_n 0 (k_log s)).
Proof.
  intros Hok. cbv zeta. destruct (decide (bl = [])) as [->|Hne].
  { eapply wp_run; [by eapply commit_empty|]. split_and!; [done|by apply wrote_logged, wrote_nil|].
    pose proof (ls_n _ _ _ (lk_lists _ _ _ _ Hok)) as Hn. simpl in Hn.
    destruct (k_log s). simpl in *. by subst. }
  assert (tx_writes V (k_log s) bl = commit_writes V (k_log s) bl) as -> by by destruct bl.
  eapply wp_mono; [by apply commit_spec|]. intros _ s' (Hc' & El & Hlg).
  pose proof (logged_disksize _ _ _ Hlg) as Ed. pose proof (logged_disk _ _ _ Hlg) as Edk.
  destruct Hok as [Hg Hl Hc Hh]. split; [|done].
  assert (log_geo (k_log s') (k_disksize s')) as Hg' by (rewrite El, Ed; by destruct Hg).
  split; [done|apply lists_nil; [done|by rewrite El]|done|].
  rewrite Edk, El. cbn [log_start set_lh_n]. unfold commit_writes.
  set (h := put_head _ _ _). rewrite bsets_app, bsets_cons, bsets_app.
  change (bsets ?X [(?n, ?d)]) with (bset X n d). rewrite bset_eq.
  assert (0 <= lh_n (k_log s) <= 30) as Hr.
  { rewrite (ls_n _ _ _ Hl). pose proof (ls_max _ _ _ Hl). pose proof (lg_size _ _ Hg). unfold LOGSIZE, MAXOPBLOCKS in *. lia. }
  apply put_head_spec; [lia|]. apply put_head_spec; [done|]. by eapply bc_blocks.
Qed.

(** The end of a commit: [log.committing = 0; wakeup(&log)] under the lock. *)
Definition end_commit : K unit :=
  acquire L_log ;; upd_log (set_log_committing false) ;; wakeup Ch_log ;; release L_log.

Lemma end_commit_run s :
  quiet s ->
  end_commit s = Ret tt (set_k_proc (wake (Some Ch_log) <$> k_proc s)
                          (set_k_log (set_log_committing false (k_log s)) s)).
Proof.
  intros Hq. unfold end_commit, upd_log. krun. rewrite acquire_run by by apply quiet_not_held.
  cbn [res_bind]. rewrite wakeup_run by (kproj; rewrite (q_held _ Hq); solve_held). cbn [res_bind].
  rewrite (release_head _ (k_held s)) by (done || by apply quiet_not_held). keq.
Qed.

Lemma end_op_spec s V bl :
  log_ok (ok := ok) s V bl ∅ -> log_outstanding (k_log s) = 1 -> log_committing (k_log s) = false ->
  let W := tx_writes V (k_log s) bl in
  wp end_op s (fun _ s' => log_ok (ok := ok) s' (bsets V W) [] ∅ /\ logged W s s' /\
    k_log s' = set_log_outstanding 0 (set_lh_n 0 (k_log s))).
Proof.
  intros Hok Ho Hc. cbv zeta. pose proof (log_ok_quiet _ _ _ _ Hok) as Hq.
  set (l1 := set_log_committing true (set_log_outstanding 0 (k_log s))).
  set (s1 := set_k_log l1 s).
  assert (log_ok (ok := ok) s1 V bl ∅) as Hok1 by (eapply log_ok_frame; [exact Hok|by destruct Hq|done..]).
  assert (end_op s = (commit ;; end_commit) s1) as E.
  { unfold end_op, get_log, upd_log, when. krun. rewrite acquire_run by by apply quiet_not_held.
    cbn [res_bind]. kproj. cbn [log_committing log_outstanding set_log_outstanding]. rewrite Hc, Ho.
    change (1 - 1 =? 0) with true. cbn [res_bind].
    rewrite (release_head _ (k_held s)) by (done || by apply quiet_not_held). cbn [res_bind]. kproj.
    match goal with |- res_bind (commit ?x) _ = _ => assert (x = s1) as -> by (subst s1 l1; by destruct s) end.
    done. }
  unfold wp. rewrite E. apply wp_bind. eapply wp_mono; [exact (commit_ok s1 V bl Hok1)|].
  intros _ s2 (Hok2 & Hlg2 & El2). pose proof (log_ok_quiet _ _ _ _ Hok2) as Hq2.
  eapply wp_run; [by apply end_commit_run|]. set (ps := wake (Some Ch_log) <$> k_proc s2).
  set (s3 := set_k_proc ps _). assert (wakes (k_proc s2) ps) as Hw by apply wakes_wake.
  split_and!.
  - eapply log_ok_frame; [exact Hok2|by destruct Hq2| |done..].
    unfold cur_pid. simpl. case_match; [by apply wakes_pid|done].
  - rewrite <- (app_nil_r (tx_writes V (k_log s) bl)). eapply logged_trans.
    + exact (logged_trans [] _ _ s1 _ (logged_upd l1 s) Hlg2).
    + unfold logged, s3. kproj. apply wrote_nil. split; [by destruct s2|done].
  - unfold s3. kproj. rewrite El2. unfold s1, l1. kproj. by destruct (k_log s); simpl in *; subst.
Qed.
End transactions.

(** ** Theorems *)

(** One file-system call that writes the blocks [ws]. *)
Definition transaction `{Fuel} (ws : list (Z * block)) : K unit :=
  begin_op ;; write_blocks ws ;; end_op.

(** The idle log: no transaction, and the cache presents the disk. *)
Record log_idle (s : kernel) : Prop := {
  li_ok : log_ok (ok := cache_ok) s (k_disk s) [] ∅;
  li_outstanding : log_outstanding (k_log s) = 0;
  li_committing : log_committing (k_log s) = false;
}.

Lemma log_ok_view s V : log_ok (ok := cache_ok) s V [] ∅ -> log_ok (ok := cache_ok) s (k_disk s) [] ∅.
Proof.
  intros [Hg Hl Hc Hh]. split; try done. eapply cache_view; [exact Hc|]. intros n. symmetry.
  by apply (co_clean _ _ _ _ Hc).
Qed.

(** The home blocks after a commit. *)
Lemma tx_home `{Fuel} {s V bl} (Hok : log_ok (ok := cache_ok) s V bl ∅) b :
  home (k_log s) (k_disksize s) b -> bsets (k_disk s) (tx_writes V (k_log s) bl) b = V b.
Proof.
  intros Hb. destruct (decide (bl = [])) as [->|Hne].
  { symmetry. by apply (co_clean _ _ _ _ (lk_cache _ _ _ _ Hok)). }
  assert (tx_writes V (k_log s) bl = commit_writes V (k_log s) bl) as -> by by destruct bl.
  unfold commit_writes. set (st := log_start (k_log s)). set (h := put_head _ _ _).
  rewrite app_comm_cons, app_assoc, bsets_app.
  change (bsets ?X [(?n, ?d)]) with (bset X n d).
  rewrite bset_ne by (eapply home_ne_log; [exact Hb|by apply (head_here (lk_geo _ _ _ _ Hok))]).
  destruct (decide (b ∈ bl)) as [Hin|Hin]; [|by apply (disk_after Hok)].
  rewrite bsets_app, bsets_cons. apply bsets_in; [rewrite home_writes_addr; apply Hok|].
  apply list_elem_of_fmap. eauto.
Qed.

Lemma transaction_run `{Fuel} s ws :
  log_idle s -> Forall (fun w => home (k_log s) (k_disksize s) w.1 /\ block_ok w.2) ws ->
  Z.of_nat (length ws) < log_size (k_log s) ->
  exists s1 s' bl, transaction ws s = Ret tt s' /\
    log_ok (ok := cache_ok) s1 (bsets (k_disk s) ws) bl ∅ /\
    k_disk s1 = k_disk s /\ k_disksize s1 = k_disksize s /\
    log_start (k_log s1) = log_start (k_log s) /\ log_size (k_log s1) = log_size (k_log s) /\
    k_writes s' = k_writes s ++ tx_writes (bsets (k_disk s) ws) (k_log s1) bl /\
    k_disk s' = bsets (k_disk s) (tx_writes (bsets (k_disk s) ws) (k_log s1) bl) /\ log_idle s'.
Proof.
  intros [Hok Ho Hc] Hws Hlen. pose proof Hok as [Hg Hl _ _].
  destruct (begin_op_spec s _ _ _ Hok Hc) as [Hrun Hok1].
  { rewrite (ls_n _ _ _ Hl), Ho. vm_compute. done. }
  set (s0 := set_k_log _ s) in *.
  assert (1 <= log_outstanding (k_log s0)) as Ho0 by (simpl; lia).
  destruct (wp_inv _ _ _ (write_blocks_spec ws s0 _ [] Hok1 Hws Ho0 Hlen))
    as ([] & s1 & Hrun1 & Hok2 & Hlg2 & Hr2). set (bl := absorb_all ws []) in *.
  assert (log_outstanding (k_log s1) = 1) as Ho1 by (rewrite Hr2; simpl; by rewrite Ho).
  assert (log_committing (k_log s1) = false) as Hc1 by by rewrite Hr2.
  destruct (wp_inv _ _ _ (end_op_spec s1 _ bl Hok2 Ho1 Hc1)) as ([] & s' & Hrun3 & Hok3 & Hlg3 & El3).
  pose proof (logged_disk _ _ _ Hlg2) as Ed2. pose proof (logged_writes _ _ _ Hlg2) as Ew2.
  simpl in Ed2, Ew2. rewrite app_nil_r in Ew2.
  exists s1, s', bl. split_and!; [|done..| |by rewrite Hr2|by rewrite Hr2| | |].
  - unfold transaction. erewrite bind_run by exact Hrun. erewrite bind_run by exact Hrun1. exact Hrun3.
  - exact (logged_disksize _ _ _ Hlg2).
  - rewrite (logged_writes _ _ _ Hlg3). by rewrite Ew2.
  - rewrite (logged_disk _ _ _ Hlg3). by rewrite Ed2.
  - split; [by eapply log_ok_view|by rewrite El3|by rewrite El3].
Qed.

(** A crash at any of the disk writes that end a transaction. *)
Lemma tx_crash `{Fuel} {s V bl} (Hok : log_ok (ok := cache_ok) s V bl ∅) W1 r :
  W1 `prefix_of` tx_writes V (k_log s) bl -> rebooted s (bsets (k_disk s) W1) r ->
  exists r', recover_from_log r = Ret tt r' /\ log_ok (ok := cache_ok) r' (k_disk r') [] ∅ /\
    ((forall b, home (k_log s) (k_disksize s) b -> k_disk r' b = k_disk s b) \/
     (forall b, home (k_log s) (k_disksize s) b -> k_disk r' b = V b)).
Proof.
  intros Hp Hr. destruct bl as [|b0 bl0].
  - apply prefix_nil_inv in Hp as ->. destruct (crash_before Hok [] r) as (r' & ? & ? & Hb); [done|done|].
    exists r'. split_and!; [done|done|by left].
  - destruct (crash_anywhere Hok W1 r Hp Hr) as (r' & ? & ? & Hb). exists r'. split_and!; [done|done|].
    destruct (decide (length W1 <= length (b0 :: bl0))%nat) as [_|_]; [by left|by right].
Qed.

(** C2: Transactions are atomic and durable.  From an idle log, a call that
    writes the blocks [ws] (fewer than the log has room for) between
    [begin_op] and [end_op] returns, leaves the log idle, and on the disk
    exactly those blocks of the file system have changed.  If the machine
    stops after any number of the disk writes it issues, recovery at the
    next boot returns, and the file system holds either all of the old
    contents or all of the new ones. *)
Theorem transaction_atomic `{Fuel} s ws :
  log_idle s -> Forall (fun w => home (k_log s) (k_disksize s) w.1 /\ block_ok w.2) ws ->
  Z.of_nat (length ws) < log_size (k_log s) ->
  exists s' W, transaction ws s = Ret tt s' /\ log_idle s' /\ k_writes s' = k_writes s ++ W /\
    (forall b, home (k_log s) (k_disksize s) b -> k_disk s' b = bsets (k_disk s) ws b) /\
    forall W1 r, W1 `prefix_of` W -> rebooted s (bsets (k_disk s) W1) r ->
      exists r', recover_from_log r = Ret tt r' /\ log_ok (ok := cache_ok) r' (k_disk r') [] ∅ /\
        ((forall b, home (k_log s) (k_disksize s) b -> k_disk r' b = k_disk s b) \/
         (forall b, home (k_log s) (k_disksize s) b -> k_disk r' b = bsets (k_disk s) ws b)).
Proof.
  intros Hi Hws Hlen.
  destruct (transaction_run s ws Hi Hws Hlen) as (s1 & s' & bl & Hrun & Hok & Ed & Es & Est & Els & Ew & Ed' & Hi').
  set (V := bsets (k_disk s) ws) in *. exists s', (tx_writes V (k_log s1) bl).
  assert (forall b, home (k_log s) (k_disksize s) b <-> home (k_log s1) (k_disksize s1) b) as Hh.
  { intros b. unfold home. by rewrite Es, Est, Els. }
  assert (forall D r, rebooted s D r <-> rebooted s1 D r) as Hrb.
  { intros D r. split; intros [H1 H2 H3 H4 H5 H6]; split; congruence. }
  split_and!; try done.
  - intros b Hb. rewrite Ed'. apply Hh in Hb. rewrite <- Ed. by apply (tx_home Hok).
  - intros W1 r Hp Hr. apply Hrb in Hr. rewrite <- Ed in Hr.
    destruct (tx_crash Hok W1 r Hp Hr) as (r' & ? & ? & Hb). exists r'. split_and!; [done|done|].
    destruct Hb as [Hb|Hb]; [left|right]; intros b Hb'%Hh; by rewrite Hb, ?Ed.
Qed.

(** C6: The header write is the commit point.  A commit of the transaction
    that has modified the blocks [bl] issues one write per block to the log,
    the header write, one write per block to its home and a last header
    write.  A crash after at most [length bl] of them loses the whole
    transaction, a crash after more of them none of it: recovery restores
    for every block outside the log exactly the old contents in the first
    case and the contents the cache presented in the second. *)
Theorem commit_crash_safe `{Fuel} s V bl :
  log_ok (ok := cache_ok) s V bl ∅ -> bl <> [] ->
  exists s' W, commit s = Ret tt s' /\ k_writes s' = k_writes s ++ W /\
    length W = (2 * length bl + 2)%nat /\
    (forall b, home (k_log s) (k_disksize s) b -> k_disk s' b = V b) /\
    forall W1 r, W1 `prefix_of` W -> rebooted s (bsets (k_disk s) W1) r ->
      exists r', recover_from_log r = Ret tt r' /\ log_ok (ok := cache_ok) r' (k_disk r') [] ∅ /\
        forall b, home (k_log s) (k_disksize s) b ->
          k_disk r' b = if decide (length W1 <= length bl)%nat then k_disk s b else V b.
Proof.
  intros Hok Hne. destruct (wp_inv _ _ _ (commit_spec s V bl Hok Hne)) as ([] & s' & Hrun & _ & _ & Hlg).
  assert (tx_writes V (k_log s) bl = commit_writes V (k_log s) bl) as Etx by by destruct bl.
  exists s', (commit_writes V (k_log s) bl). split_and!; [done|exact (logged_writes _ _ _ Hlg)|..].
  - unfold commit_writes, home_writes. rewrite length_app, length_log_writes. simpl.
    rewrite length_app, length_fmap. simpl. lia.
  - intros b Hb. rewrite (logged_disk _ _ _ Hlg), <- Etx. by apply tx_home.
  - intros W1 r Hp Hr. by apply (crash_anywhere Hok W1 r).
Qed.

(** Recovering from an interrupted recovery installs the same blocks. *)
Lemma recover_again `{Fuel} r bl W1 r2 :
  log_geo (k_log r) (k_disksize r) ->
  let st := log_start (k_log r) in let D := k_disk r in
  head_lists (D st) (k_log r) (k_disksize r) bl ->
  W1 `prefix_of` install_writes D (st + 1) bl -> rebooted r (bsets D W1) r2 ->
  exists r2', recover_from_log r2 = Ret tt r2' /\
    forall b, home (k_log r) (k_disksize r) b -> k_disk r2' b = bsets D (install_writes D (st + 1) bl) b.
Proof.
  intros Hg st D Hh Hp Hr. set (iw := install_writes D (st + 1) bl) in *. set (D1 := bsets D W1) in *.
  assert (forall x, x ∈ W1.*1 -> x ∈ bl) as HW.
  { intros x Hx. rewrite <- (install_writes_addrs D (st + 1) bl). by eapply prefix_addr. }
  assert (forall x, st <= x < st + log_size (k_log r) -> D1 x = D x) as Hlog.
  { intros x Hx. apply bsets_notin. intros Hin%HW.
    pose proof (proj1 (Forall_forall _ _) (hl_home _ _ _ _ Hh) x Hin) as Hb. by apply Hb. }
  assert (D1 st = D st) as Est by (apply Hlog; by apply (head_here Hg)).
  destruct (recover_disk D1 r2 bl Hr) as (r2' & lh & Hrun & _ & Ed & _); [by fold st; rewrite Est|].
  fold st in Ed. assert (install_writes D1 (st + 1) bl = iw) as Ei.
  { apply install_writes_ext. intros x Hx. apply Hlog. pose proof (hl_max _ _ _ _ Hh). lia. }
  rewrite Ei in Ed. exists r2'. split; [done|]. intros b Hb. rewrite Ed, bsets_app.
  change (bsets ?X [(?n, ?d)]) with (bset X n d).
  rewrite bset_ne by (eapply home_ne_log; [exact Hb|by apply (head_here Hg)]).
  destruct (decide (b ∈ bl)) as [Hin|Hin].
  - apply bsets_cover. unfold iw. by rewrite install_writes_addrs.
  - unfold D1. rewrite <- bsets_app. rewrite !bsets_notin; [done|..]; unfold iw;
      rewrite ?fmap_app, ?elem_of_app, install_writes_addrs; naive_solver.
Qed.

(** C7: Recovery may itself be interrupted.  When the header on the disk lists
    the blocks [bl], [recover_from_log] returns, copies their logged
    contents home and leaves every other block of the file system alone; and
    if the machine stops after any number of its disk writes, recovering
    again gives the same file system. *)
Theorem recovery_idempotent `{Fuel} r bl :
  cache_ok r (k_disk r) ∅ ∅ -> log_geo (k_log r) (k_disksize r) ->
  let st := log_start (k_log r) in
  head_lists (k_disk r st) (k_log r) (k_disksize r) bl ->
  exists r' W, recover_from_log r = Ret tt r' /\ k_writes r' = k_writes r ++ W /\
    log_ok (ok := cache_ok) r' (k_disk r') [] ∅ /\
    (forall t, (t < length bl)%nat -> k_disk r' (bl !!! t) = k_disk r (st + 1 + Z.of_nat t)) /\
    (forall b, home (k_log r) (k_disksize r) b -> b ∉ bl -> k_disk r' b = k_disk r b) /\
    forall W1 r2, W1 `prefix_of` W -> rebooted r (bsets (k_disk r) W1) r2 ->
      exists r2', recover_from_log r2 = Ret tt r2' /\
        forall b, home (k_log r) (k_disksize r) b -> k_disk r2' b = k_disk r' b.
Proof.
  intros Hc Hg st Hh. set (D := k_disk r) in *. set (l := k_log r) in *.
  assert (rebooted r D r) as Hr by by split.
  destruct (recover_disk D r bl Hr Hh) as (r' & lh & Hrun & Hok' & Ed & Ew & _).
  fold l st in Ed, Ew. set (iw := install_writes D (st + 1) bl) in *.
  assert (iw.*1 = bl) as Eiw by apply install_writes_addrs.
  assert (forall b, home l (k_disksize r) b -> b <> st) as Hst.
  { intros b Hb. eapply home_ne_log; [exact Hb|by apply (head_here Hg)]. }
  assert (forall b, home l (k_disksize r) b -> k_disk r' b = bsets D iw b) as Hfin.
  { intros b Hb. rewrite Ed, bsets_app. apply bset_ne. by apply Hst. }
  assert (forall b, b ∈ bl -> home l (k_disksize r) b) as Hbl.
  { intros b Hb. by apply (proj1 (Forall_forall _ _) (hl_home _ _ _ _ Hh)). }
  exists r', (iw ++ [(st, put_head 0 lh (D st))]). split_and!; try done.
  - intros t Ht. rewrite Hfin by (by apply Hbl, list_elem_of_lookup_total_2).
    apply bsets_in; [rewrite Eiw; apply Hh|]. by apply install_writes_in.
  - intros b Hb Hn. rewrite Hfin by done. apply bsets_notin. by rewrite Eiw.
  - intros W1 r2 Hp Hr2. apply prefix_app_cases in Hp as [[Hp _]|(k & -> & Hp)].
    + destruct (recover_again r bl W1 r2 Hg Hh Hp Hr2) as (r2' & Hrun2 & Hb2).
      exists r2'. split; [done|]. intros b Hb. rewrite Hb2, Hfin by done. done.
    + apply prefix_singleton in Hp as [->| ->].
      * rewrite app_nil_r in Hr2. destruct (recover_again r bl iw r2 Hg Hh) as (r2' & Hrun2 & Hb2); [done|done|].
        exists r2'. split; [done|]. intros b Hb. rewrite Hb2, Hfin by done. done.
      * rewrite bsets_app in Hr2. destruct (recover_empty Hg _ r2 Hr2) as (r2' & Hrun2 & _ & Hb2).
        { fold l st. simpl. rewrite bset_eq. apply put_head_spec; [lia|]. eapply cache_blocks, Hc. }
        exists r2'. split; [done|]. intros b Hb. rewrite Hb2, Hfin by done. apply bset_ne. by apply Hst.
Qed.

(** [log_write] on every branch.  It panics when the log is full or no
    transaction is running.  Otherwise the buffer's block is listed in the
    header exactly once, at its old place if it was already there (log
    absorption) and at the end if not, and is pinned in the cache; nothing
    is written to the disk. *)
Theorem log_write_correct `{Fuel} s V bl L i n :
  log_ok (ok := cache_ok) s V bl L -> L !! i = Some n -> home (k_log s) (k_disksize s) n ->
  (log_size (k_log s) - 1 <= Z.of_nat (length bl) -> log_write i s = Panic "too big a transaction") /\
  (Z.of_nat (length bl) < log_size (k_log s) - 1 -> log_outstanding (k_log s) < 1 ->
     log_write i s = Panic "log_write outside of trans") /\
  (Z.of_nat (length bl) < log_size (k_log s) - 1 -> 1 <= log_outstanding (k_log s) ->
     exists s', log_write i s = Ret tt s' /\
       log_ok (ok := cache_ok) s' V (if decide (n ∈ bl) then bl else bl ++ [n]) L /\
       k_disk s' = k_disk s /\ k_writes s' = k_writes s).
Proof.
  intros Hok HL Hn. pose proof (lk_lists _ _ _ _ Hok) as Hl. pose proof (ls_n _ _ _ Hl) as El.
  pose proof (lg_size _ _ (lk_geo _ _ _ _ Hok)) as Hs. split_and!.
  - intros Hfull. unfold log_write, get_log. krun. rewrite El. rewrite (proj2 (Z.leb_le (log_size _ - 1) _)) by lia.
    by rewrite orb_true_r.
  - intros Hlt Ho. unfold log_write, get_log. krun. rewrite El.
    rewrite !(proj2 (Z.leb_gt _ _)) by lia. cbn [orb]. by rewrite (proj2 (Z.ltb_lt _ _)).
  - intros Hlt Ho. destruct (wp_inv _ _ _ (log_write_spec s V bl L i n Hok HL Hn Ho Hlt))
      as ([] & s' & Hrun & Hok' & Hlg & _).
    exists s'. split_and!; [done|exact Hok'|exact (logged_disk _ _ _ Hlg)|].
    rewrite (logged_writes _ _ _ Hlg). apply app_nil_r.
Qed.

(** *** Three calls at once *)

(** With the log full, writing another block panics. *)
Lemma write_block_full `{Fuel} s V bl n d :
  log_ok (ok := cache_ok) s V bl ∅ -> home (k_log s) (k_disksize s) n -> block_ok d ->
  log_size (k_log s) - 1 <= Z.of_nat (length bl) -> write_block n d s = Panic "too big a transaction".
Proof.
  intros Hok Hn Hd Hfull. pose proof Hok as [Hg Hl Hc Hh].
  destruct (wp_inv _ _ _ (bread_spec Hc n (proj2 (proj1 Hn)) ltac:(done)
    ltac:(right; rewrite map_size_empty; by apply (lists_room _ _ _ Hg Hl)))) as (i & s1 & Hrun & _ & Hc1 & bufs & ->).
  unfold write_block. erewrite bind_run by exact Hrun. unfold upd_buf, log_write, get_log. krun.
  kproj. rewrite (ls_n _ _ _ Hl), (proj2 (Z.leb_le (log_size _ - 1) _)) by done. by rewrite orb_true_r.
Qed.

(** A call that the reservation does not leave room for sleeps on the log. *)
Lemma begin_op_waits `{Fuel} i s :
  k_cur s = Some i -> (i < length (k_proc s))%nat -> k_held s = [] -> (0 < fuel)%nat ->
  LOGSIZE < lh_n (k_log s) + (log_outstanding (k_log s) + 1) * MAXOPBLOCKS ->
  exists k, begin_op s = Swtch None (asleep i Ch_log (set_k_held [L_log] s)) k.
Proof.
  intros Hc Hi Hh Hf Hn. unfold begin_op. erewrite bind_run by (apply acquire_run; rewrite Hh; apply not_elem_of_nil). rewrite Hh.
  destruct fuel as [|n]; [lia|]. cbn [begin_op_loop].
  destruct (sleep_run i Ch_log L_log (set_k_held [L_log] s) Hc Hi eq_refl) as (k & Hs & _).
  unfold get_log. krun. kproj. rewrite (proj2 (Z.ltb_lt _ _) Hn).
  destruct (log_committing (k_log s)); rewrite Hs; by eexists.
Qed.

(** C40: The capacity of the log.  On a log of LOGSIZE blocks, as [mkfs] makes
    it, [begin_op] admits three calls at once, and a fourth sleeps on the log.
    The three share 29 blocks: whatever distinct blocks they write, up to 29
    of them are listed in the header and presented by the cache, and with
    30 of them, the MAXOPBLOCKS that each call may write, a [log_write]
    panics.  So the reservation of [begin_op] is one block too generous. *)
Theorem log_capacity `{Fuel} s ws :
  log_idle s -> log_size (k_log s) = LOGSIZE ->
  Forall (fun w => home (k_log s) (k_disksize s) w.1 /\ block_ok w.2) ws -> NoDup ws.*1 ->
  exists s3, (begin_op ;; begin_op ;; begin_op) s = Ret tt s3 /\ log_outstanding (k_log s3) = 3 /\
    (forall i, k_cur s = Some i -> (i < length (k_proc s))%nat -> k_held s = [] -> (0 < fuel)%nat ->
      exists s4 k, begin_op s3 = Swtch None s4 k /\ k_log s4 = k_log s3 /\
        p_state (k_proc s4 !!! i) = SLEEPING /\ p_chan (k_proc s4 !!! i) = Some Ch_log) /\
    ((length ws < 30)%nat -> exists s', write_blocks ws s3 = Ret tt s' /\
      log_ok (ok := cache_ok) s' (bsets (k_disk s) ws) ws.*1 ∅ /\ k_disk s' = k_disk s) /\
    ((30 <= length ws)%nat -> write_blocks ws s3 = Panic "too big a transaction").
Proof.
  intros [Hok Ho Hc] Hsz Hws Hnd. pose proof (ls_n _ _ _ (lk_lists _ _ _ _ Hok)) as Hn. simpl in Hn.
  destruct (begin_op_spec s _ _ _ Hok Hc) as [R1 Hok1]; [by rewrite Hn, Ho|].
  destruct (begin_op_spec _ _ _ _ Hok1 Hc) as [R2 Hok2]; [simpl; by rewrite Hn, Ho|].
  destruct (begin_op_spec _ _ _ _ Hok2 Hc) as [R3 Hok3]; [simpl; by rewrite Hn, Ho|].
  match type of R3 with _ = Ret _ ?x => set (s3 := x) in * end.
  assert (forall ws', (length ws' < 30)%nat -> ws' `prefix_of` ws -> exists s', write_blocks ws' s3 = Ret tt s' /\
    log_ok (ok := cache_ok) s' (bsets (k_disk s) ws') ws'.*1 ∅ /\ k_disk s' = k_disk s /\
    reheaded (k_log s3) (k_log s') /\ k_disksize s' = k_disksize s) as Hfit.
  { intros ws' Hlen [ws2 ->]. rewrite fmap_app in Hnd. apply NoDup_app in Hnd as (Hnd & _ & _). apply Forall_app in Hws as [Hws _].
    destruct (wp_inv _ _ _ (write_blocks_spec ws' s3 _ [] Hok3 Hws ltac:(simpl; lia)
      ltac:(change (log_size (k_log s3)) with (log_size (k_log s)); rewrite Hsz; unfold LOGSIZE, MAXOPBLOCKS; simpl; lia)))
      as ([] & s' & Hrun & Hok' & Hlg & Hr).
    rewrite absorb_fresh in Hok' by done. exists s'. split_and!; [done|done|exact (logged_disk _ _ _ Hlg)|done|].
    exact (logged_disksize _ _ _ Hlg). }
  exists s3. split_and!.
  - erewrite bind_run by exact R1. erewrite bind_run by exact R2. exact R3.
  - simpl. lia.
  - intros i Hcur Hi Hh Hf. destruct (begin_op_waits i s3) as (k & Hk); try done.
    { simpl. rewrite Hn, Ho. unfold LOGSIZE, MAXOPBLOCKS. lia. }
    exists (asleep i Ch_log (set_k_held [L_log] s3)), k. split; [done|]. unfold asleep. kproj. split; [done|].
    by rewrite list_lookup_total_alter_eq.
  - intros Hlen. destruct (Hfit ws Hlen) as (s' & ? & ? & ? & _); [done|by exists s'].
  - intros Hlen. destruct (Hfit (take 29 ws)) as (s' & Hrun & Hok' & _ & Hr & Ed); [rewrite length_take; lia|apply prefix_take|].
    destruct (lookup_lt_is_Some_2 ws 29) as [[n d] Hnd29]; [lia|].
    rewrite <- (take_drop_middle ws 29 (n, d) Hnd29). pose proof (proj1 (Forall_lookup _ _) Hws _ _ Hnd29) as [Hh Hd].
    unfold write_blocks in *. rewrite (foreach_app_run _ _ _ _ _ Hrun). cbn [foreach]. unfold bind.
    rewrite (write_block_full s' _ _ n d Hok'); [done| |done|].
    + rewrite Ed. destruct Hh as [? Hh]. split; [done|]. by rewrite Hr.
    + rewrite Hr, length_fmap, length_take. change (log_size _) with (log_size (k_log s)). rewrite Hsz. unfold LOGSIZE, MAXOPBLOCKS. lia.
Qed.

(** ** Witnesses *)

#[local] Instance demo_fuel : Fuel := 0%nat.

(** The demonstration disk with a log of 30 blocks that starts at block 2. *)
Definition demo_log : kernel :=
  set_k_log (mklog 2 30 0 false 1 0 (replicate 30 0)) demo_boot.

Lemma demo_log_ok : log_ok (ok := cache_ok) demo_log (fun _ => zero_block) [] ∅.
Proof.
  split.
  - split; vm_compute; (done || lia).
  - split; try done. constructor.
  - apply ok_set_log, demo_boot_ok.
  - vm_compute. done.
Qed.

Lemma demo_log_idle : log_idle demo_log.
Proof. split; [|done..]. eapply log_ok_view, demo_log_ok. Qed.

Definition ones : block := replicate 512 1.
Lemma ones_ok : block_ok ones.
Proof. split; [done|]. apply Forall_replicate. unfold is_byte. lia. Qed.

Lemma demo_home n : 32 <= n < 1000 -> home (k_log demo_log) (k_disksize demo_log) n.
Proof. intros Hn. split; [change (0 <= n < 1000)|change (~ (2 <= n < 2 + 30))]; lia. Qed.

Lemma transaction_atomic_witness :
  exists s', transaction [(100, ones); (200, ones)] demo_log = Ret tt s' /\ log_idle s'.
Proof.
  destruct (transaction_atomic demo_log [(100, ones); (200, ones)] demo_log_idle)
    as (s' & W & H1 & H2 & _).
  - repeat (apply Forall_cons; split; [split; [apply demo_home; simpl; lia|apply ones_ok]|]). constructor.
  - vm_compute. done.
  - exists s'. exact (conj H1 H2).
Defined.

(** A transaction that has modified block 100. *)
Definition demo_tx : kernel :=
  match (begin_op ;; write_block 100 ones) demo_log with Ret _ s => s | _ => demo_log end.

Lemma demo_tx_ok : exists V, V 100 = ones /\ log_ok (ok := cache_ok) demo_tx V [100] ∅.
Proof.
  destruct (begin_op_spec demo_log _ _ _ demo_log_ok) as [Hrun Hok]; [done|vm_compute; done|].
  match type of Hrun with _ = Ret _ ?x => set (s0 := x) in * end.
  assert (home (k_log s0) (k_disksize s0) 100) as Hh by (apply demo_home; lia).
  destruct (wp_inv _ _ _ (write_block_spec s0 _ [] 100 ones Hok Hh ones_ok ltac:(by vm_compute) ltac:(by vm_compute)))
    as ([] & s1 & Hrun1 & Hok1 & _).
  exists (bset (fun _ => zero_block) 100 ones). split; [apply bset_eq|].
  unfold demo_tx. erewrite bind_run by exact Hrun. rewrite Hrun1. exact Hok1.
Qed.

Lemma commit_crash_safe_witness :
  exists s' W, commit demo_tx = Ret tt s' /\ k_writes s' = k_writes demo_tx ++ W /\ length W = 4%nat.
Proof.
  destruct demo_tx_ok as (V & _ & Hok).
  destruct (commit_crash_safe demo_tx V [100] Hok) as (s' & W & H1 & H2 & H3 & _); [done|].
  exists s', W. exact (conj H1 (conj H2 H3)).
Defined.

(** A disk on which a crash left blocks 100 and 200 in the log, with the header
    that lists them. *)
Definition demo_crashed : kernel :=
  set_k_disk (bset (bset (bset (fun _ => zero_block) 2 (put_head 2 [100; 200] zero_block)) 3 ones) 4 ones) demo_log.

Lemma demo_crashed_ok : cache_ok demo_crashed (k_disk demo_crashed) ∅ ∅.
Proof.
  apply demo_bufs_ok; [by split|done|]. intros n. cbn [demo_crashed k_disk set_k_disk]. unfold bset.
  repeat case_match; try apply ones_ok; try apply zero_block_ok. apply put_head_spec; [lia|apply zero_block_ok].
Qed.

Lemma recovery_idempotent_witness :
  exists r', recover_from_log demo_crashed = Ret tt r' /\ k_disk r' 100 = ones /\ k_disk r' 200 = ones.
Proof.
  destruct (recovery_idempotent demo_crashed [100; 200]) as (r' & W & H1 & _ & _ & H2 & _).
  - exact demo_crashed_ok.
  - apply demo_log_ok.
  - split; [vm_compute; reflexivity|intros [|[|t]] Ht; [vm_compute; reflexivity..|simpl in Ht; lia]| | |vm_compute; reflexivity].
    + apply (bool_decide_eq_true_1 _). vm_compute. reflexivity.
    + repeat (apply Forall_cons; split; [apply demo_home; lia|]). constructor.
  - exists r'. split; [exact H1|]. split; [exact (H2 0%nat ltac:(simpl; lia))|exact (H2 1%nat ltac:(simpl; lia))].
Defined.

Lemma log_write_correct_witness : exists i s, log_write i s = Panic "log_write outside of trans".
Proof.
  destruct (wp_inv _ _ _ (bread_spec (lk_cache _ _ _ _ demo_log_ok) 100 ltac:(by vm_compute) ltac:(done)
    ltac:(right; vm_compute; lia))) as (i & s1 & _ & _ & Hc & bufs & ->).
  exists i, (set_k_bufs bufs demo_log).
  assert (log_ok (ok := cache_ok) (set_k_bufs bufs demo_log) (fun _ => zero_block) [] (<[i:=100]> ∅)) as Hok.
  { destruct demo_log_ok. by split. }
  apply (log_write_correct _ _ _ _ i 100 Hok).
  - apply lookup_insert_eq.
  - apply demo_home. lia.
  - vm_compute. done.
  - vm_compute. done.
Defined.

Lemma log_capacity_witness :
  exists s3, (begin_op ;; begin_op ;; begin_op) demo_log = Ret tt s3 /\
    write_blocks ((fun n => (100 + Z.of_nat n, ones)) <$> seq 0 30) s3 = Panic "too big a transaction".
Proof.
  destruct (log_capacity demo_log ((fun n => (100 + Z.of_nat n, ones)) <$> seq 0 30)) as (s3 & H1 & _ & _ & _ & H2).
  - exact demo_log_idle.
  - reflexivity.
  - apply Forall_fmap, Forall_seq. intros n Hn. split; [apply demo_home; simpl; lia|exact ones_ok].
  - apply (bool_decide_eq_true_1 _). vm_compute. reflexivity.
  - exists s3. split; [exact H1|apply H2; simpl; lia].
Defined.
