(* ===== verification/Txn.v ===== *)
(** * Blocks inside a transaction

    What the file system uses of the buffer cache and the log: [tx s V bl L]
    says that the blocks have the contents [V], that those of [bl] have been
    logged by the current transaction, and that the buffers [L] are locked by
    the caller.  Each operation on a block is a lemma on [tx]; the rest of the
    kernel's state is described by [fframe]. *)

From stdpp Require Import base numbers list option strings gmap.
From S2P Require Import Prelude Kernel Fields Spinlock Proc Bytes Sleeplock Dll Bio Log.

Definition tx (s : kernel) (V : Z -> block) (bl : list Z) (L : gmap nat Z) : Prop :=
  log_ok (ok := cache_ok) s V bl L.

(** What the operations of the file system may change: buffers, processes
    woken, the list of logged blocks, and the inode table. *)
Record fframe (s s' : kernel) : Prop := {
  ff_state : s' = set_k_bufs (k_bufs s') (set_k_proc (k_proc s') (set_k_log (k_log s') (set_k_inodes (k_inodes s') s)));
  ff_wakes : wakes (k_proc s) (k_proc s');
  ff_log : reheaded (k_log s) (k_log s');
}.

#[global] Instance fframe_preorder : PreOrder fframe.
Proof.
  split.
  - intros s. split; [by destruct s|done|]. unfold reheaded. by destruct (k_log s).
  - intros s1 s2 s3 [E2 W2 R2] [E3 W3 R3]. split.
    + rewrite E3. rewrite E2 at 1. by destruct s1, s3.
    + by etrans.
    + unfold reheaded in *. rewrite R3. rewrite R2. by destruct (k_log s1), (k_log s3).
Qed.

Section frame.
Context {s s' : kernel} (Hf : fframe s s').

Lemma ff_disk : k_disk s' = k_disk s.
Proof. by rewrite (ff_state _ _ Hf). Qed.
Lemma ff_disksize : k_disksize s' = k_disksize s.
Proof. by rewrite (ff_state _ _ Hf). Qed.
Lemma ff_sb : k_sb s' = k_sb s.
Proof. by rewrite (ff_state _ _ Hf). Qed.
Lemma ff_held : k_held s' = k_held s.
Proof. by rewrite (ff_state _ _ Hf). Qed.
Lemma ff_cur : k_cur s' = k_cur s.
Proof. by rewrite (ff_state _ _ Hf). Qed.
Lemma ff_files : k_files s' = k_files s.
Proof. by rewrite (ff_state _ _ Hf). Qed.
Lemma ff_devsw : k_devsw s' = k_devsw s.
Proof. by rewrite (ff_state _ _ Hf). Qed.
Lemma ff_mem : k_mem s' = k_mem s.
Proof. by rewrite (ff_state _ _ Hf). Qed.

Lemma ff_log_start : log_start (k_log s') = log_start (k_log s).
Proof. by rewrite (ff_log _ _ Hf). Qed.
Lemma ff_log_size : log_size (k_log s') = log_size (k_log s).
Proof. by rewrite (ff_log _ _ Hf). Qed.
Lemma ff_outstanding : log_outstanding (k_log s') = log_outstanding (k_log s).
Proof. by rewrite (ff_log _ _ Hf). Qed.
Lemma ff_committing : log_committing (k_log s') = log_committing (k_log s).
Proof. by rewrite (ff_log _ _ Hf). Qed.

Lemma ff_pid : cur_pid s' = cur_pid s.
Proof. unfold cur_pid. rewrite ff_cur. destruct (k_cur s); [|done]. apply wakes_pid, Hf. Qed.
Lemma ff_quiet : quiet s -> quiet s'.
Proof. intros [Hh Hc]. split; [by rewrite ff_held|by rewrite ff_cur]. Qed.
Lemma ff_home n : home (k_log s) (k_disksize s) n -> home (k_log s') (k_disksize s') n.
Proof. unfold home. by rewrite ff_disksize, ff_log_start, ff_log_size. Qed.

End frame.

Lemma fframe_bufs bufs s : fframe s (set_k_bufs bufs s).
Proof. split; kproj; [by destruct s|done|]. unfold reheaded. by destruct (k_log s). Qed.

Lemma fframe_inodes t s : fframe s (set_k_inodes t s).
Proof. split; kproj; [by destruct s|done|]. unfold reheaded. by destruct (k_log s). Qed.

Lemma fframe_cframe s s' : cframe s s' -> fframe s s' /\ k_inodes s' = k_inodes s.
Proof.
  intros [E Hw]. assert (k_log s' = k_log s /\ k_inodes s' = k_inodes s) as [El Ei] by (rewrite E; done).
  split; [|done]. split; [rewrite El, Ei, E; by destruct s|done|]. unfold reheaded. rewrite El. by destruct (k_log s).
Qed.

Lemma fframe_logged s s' :
  logged [] s s' -> reheaded (k_log s) (k_log s') -> fframe s s' /\ k_inodes s' = k_inodes s.
Proof.
  intros [E Hw] Hr. simpl in *. assert (k_inodes s' = k_inodes s) as Ei by (rewrite E; done).
  split; [|done]. split; [rewrite Ei; rewrite E at 1; by destruct s|exact Hw|done].
Qed.

(** ** Operations on one block *)

Section txn.
Context `{Fuel}.
Implicit Types (s : kernel) (V : Z -> block) (bl : list Z) (L : gmap nat Z).

Lemma tx_quiet s V bl L : tx s V bl L -> quiet s.
Proof. apply log_ok_quiet. Qed.

Lemma tx_frame s s' V bl L :
  tx s V bl L -> quiet s' -> cur_pid s' = cur_pid s -> k_bufs s' = k_bufs s -> k_disk s' = k_disk s ->
  k_disksize s' = k_disksize s -> k_log s' = k_log s -> tx s' V bl L.
Proof.
  intros Hok Hq Hp Hb Hd Hs El. eapply log_ok_frame; try done. rewrite El. by destruct (k_log s).
Qed.

Lemma tx_inodes t s V bl L : tx s V bl L -> tx (set_k_inodes t s) V bl L.
Proof.
  intros Hok. pose proof (tx_quiet _ _ _ _ Hok) as [? ?]. by eapply tx_frame; [exact Hok|..].
Qed.

Lemma tx_view s V V' bl L : tx s V bl L -> (forall n, V' n = V n) -> tx s V' bl L.
Proof. intros [Hg Hl Hc Hh] E. split; try done. by eapply bc_view. Qed.

Lemma tx_block s V bl L n : tx s V bl L -> block_ok (V n).
Proof. intros Hok. exact (bc_blocks _ _ _ _ n (lk_cache _ _ _ _ Hok)). Qed.

Lemma tx_nodup s V bl L : tx s V bl L -> NoDup bl.
Proof. intros Hok. apply (ls_nodup _ _ _ (lk_lists _ _ _ _ Hok)). Qed.

Lemma tx_data s V bl L i n : tx s V bl L -> L !! i = Some n -> b_data (k_bufs s !!! i) = V n.
Proof. intros Hok. exact (bc_data _ _ _ _ i n (lk_cache _ _ _ _ Hok)). Qed.

(** The contents on which a buffer that was not logged agrees with the disk. *)
Definition settled s V bl n : Prop := n ∈ bl \/ V n = k_disk s n.

Lemma tx_settled s V bl L n : tx s V bl L -> (forall j, L !! j <> Some n) -> settled s V bl n.
Proof.
  intros Hok HL. destruct (decide (n ∈ bl)); [by left|]. right.
  apply (bc_clean _ _ _ _ n (lk_cache _ _ _ _ Hok)); [by rewrite elem_of_list_to_set|done].
Qed.

Lemma tx_bread s V bl L n :
  tx s V bl L -> n < k_disksize s -> (forall j, L !! j <> Some n) -> (size L + length bl < NBUF)%nat ->
  wp (bread 1 n) s (fun i s' => L !! i = None /\ tx s' V bl (<[i:=n]> L) /\ settled s' V bl n /\
    fframe s s' /\ k_inodes s' = k_inodes s).
Proof.
  intros Hok Hn HL Hroom. pose proof (tx_settled _ _ _ _ _ Hok HL) as Hs. pose proof Hok as [Hg Hl Hc Hh].
  eapply wp_mono.
  { apply (bc_bread _ _ _ _ n Hc Hn HL). right. by rewrite list_set_size by apply Hl. }
  intros i s' (Hi & Hc' & bufs & ->). split_and!; [done|by split|exact Hs|apply fframe_bufs|done].
Qed.

Lemma tx_brelse s V bl L i n :
  tx s V bl L -> L !! i = Some n -> settled s V bl n ->
  wp (brelse i) s (fun _ s' => tx s' V bl (delete i L) /\ fframe s s' /\ k_inodes s' = k_inodes s).
Proof.
  intros Hok Hi Hs. pose proof Hok as [Hg Hl Hc Hh]. eapply wp_mono.
  { apply (bc_brelse _ _ _ _ i n Hc Hi). by rewrite elem_of_list_to_set. }
  intros _ s' (Hc' & Hf). destruct (fframe_cframe _ _ Hf) as [Hff Ei].
  split_and!; [|done|done]. destruct Hf as [E _]. split; [by rewrite E|by rewrite E|done|by rewrite E].
Qed.

Lemma tx_set s V bl L i n d :
  tx s V bl L -> L !! i = Some n -> block_ok d ->
  tx (set_k_bufs (alter (set_b_data d) i (k_bufs s)) s) (bset V n d) bl L.
Proof. intros [Hg Hl Hc Hh] Hi Hd. split; try done. by apply bc_write. Qed.

Lemma tx_log_write s V bl L i n :
  tx s V bl L -> L !! i = Some n -> home (k_log s) (k_disksize s) n ->
  1 <= log_outstanding (k_log s) -> Z.of_nat (length bl) < log_size (k_log s) - 1 ->
  wp (log_write i) s (fun _ s' => tx s' V (absorb n bl) L /\ fframe s s' /\ k_inodes s' = k_inodes s).
Proof.
  intros. eapply wp_mono; [by eapply (log_write_spec (ok := cache_ok))|].
  intros _ s' (? & Hl & Hr). destruct (fframe_logged _ _ Hl Hr). by split_and!.
Qed.

Lemma elem_of_absorb n m bl : n ∈ absorb m bl <-> n = m \/ n ∈ bl.
Proof. unfold absorb. case_decide; rewrite ?elem_of_app, ?list_elem_of_singleton; naive_solver. Qed.

(** Storing new contents in a locked block and logging it. *)
Lemma tx_store {A} s V bl L i n d (k : K A) Q :
  tx s V bl L -> L !! i = Some n -> block_ok d -> home (k_log s) (k_disksize s) n ->
  1 <= log_outstanding (k_log s) -> Z.of_nat (length bl) < log_size (k_log s) - 1 ->
  (forall s', tx s' (bset V n d) (absorb n bl) L -> settled s' (bset V n d) (absorb n bl) n ->
    fframe s s' -> k_inodes s' = k_inodes s -> wp k s' Q) ->
  wp (upd_buf i (set_b_data d) ;; log_write i ;; k) s Q.
Proof.
  intros Hok Hi Hd Hn Ho Hlt Hk. apply wp_bind. eapply wp_run; [reflexivity|]. apply wp_bind.
  eapply wp_mono; [apply (tx_log_write _ _ _ _ i n (tx_set _ _ _ _ _ _ _ Hok Hi Hd)); done|].
  intros _ s' (Hok' & Hf & Ei). apply Hk; [done|left; rewrite elem_of_absorb; auto| |done].
  etrans; [apply fframe_bufs|exact Hf].
Qed.

End txn.
