(* ===== verification/Kalloc.v ===== *)
(** * The physical page allocator (kalloc.c)

    The free pages form a list linked through their own first words, as in
    the source.  [kmem_ok s l] relates the memory to the list [l] of free
    pages; against it [kalloc] is a pop, [kfree] a push. *)

From stdpp Require Import base numbers list option strings gmap.
From S2P Require Import Prelude Kernel Fields Mmu Spinlock Proc Cstring.

(** Addresses chosen by the linker: the symbols [end] and [data] of kernel.ld,
    and the entry points that [allocproc] stores in a new kernel stack. *)
Class Link := {
  l_end : Z;
  l_data : Z;
  l_trapret : Z;
  l_forkret : Z;
}.

(** What kernel.ld guarantees about them: [data] is page-aligned and lies
    above the kernel's text, [end] above [data], and the kernel fits in the
    4 Mbyte that entrypgdir maps. *)
Class LinkOk `{Link} : Prop := {
  data_aligned : l_data mod PGSIZE = 0;
  data_text : KERNLINK < l_data;
  data_end : l_data <= l_end;
  end_4M : l_end <= KERNBASE + 4 * 1024 * 1024;
}.

Section kalloc.
Context `{LinkOk}.

Definition get_mem : K memory := gets k_mem.
Definition set_mem (m : memory) : K unit := modify (set_k_mem m).

Definition kfree (v : Z) : K unit :=
  if negb (v mod PGSIZE =? 0) || (v <? l_end) || (PHYSTOP <=? V2P v) then panic "kfree" else
  m <- get_mem ;;
  set_mem (memset m v 1 PGSIZE) ;;
  use_lock <- gets k_use_lock ;;
  when use_lock (acquire L_kmem) ;;
  m <- get_mem ;;
  next <- gets k_freelist ;;
  set_mem (store32 m v next) ;;
  modify (set_k_freelist v) ;;
  use_lock <- gets k_use_lock ;;
  when use_lock (release L_kmem).

Definition kalloc : K Z :=
  use_lock <- gets k_use_lock ;;
  when use_lock (acquire L_kmem) ;;
  r <- gets k_freelist ;;
  m <- get_mem ;;
  when (negb (r =? 0)) (modify (set_k_freelist (load32 m r))) ;;
  use_lock <- gets k_use_lock ;;
  when use_lock (release L_kmem) ;;
  ret r.

Fixpoint freerange_loop (fuel : nat) (p vend : Z) : K unit :=
  match fuel with
  | O => out_of_fuel
  | S fuel' =>
      if p + PGSIZE <=? vend then kfree p ;; freerange_loop fuel' (p + PGSIZE) vend
      else ret tt
  end.

(** One iteration per page below [vend] is enough. *)
Definition freerange (vstart vend : Z) : K unit :=
  freerange_loop (Z.to_nat (vend / PGSIZE) + 1) (PGROUNDUP vstart) vend.

Definition kinit1 (vstart vend : Z) : K unit :=
  modify (set_k_use_lock false) ;;
  freerange vstart vend.

Definition kinit2 (vstart vend : Z) : K unit :=
  freerange vstart vend ;;
  modify (set_k_use_lock true).

(** ** The representation of the free list *)

(** A page the allocator may hold: aligned, past the kernel, in memory. *)
Definition page_ok (p : Z) : Prop :=
  p mod PGSIZE = 0 /\ l_end <= p /\ p + PGSIZE <= KERNBASE + PHYSTOP.

Fixpoint linked (m : memory) (head : Z) (l : list Z) : Prop :=
  match l with
  | [] => head = 0
  | p :: l' => head = p /\ linked m (load32 m p) l'
  end.

Record kmem_ok (s : kernel) (l : list Z) : Prop := {
  km_linked : linked (k_mem s) (k_freelist s) l;
  km_nodup : NoDup l;
  km_pages : Forall page_ok l;
}.

(** ** Lemmas *)

Lemma page_ok_pos p : page_ok p -> KERNBASE < p.
Proof.
  intros (_ & Hp & _). pose proof data_text. pose proof data_end.
  unfold KERNLINK, EXTMEM, KERNBASE in *. lia.
Qed.

Lemma page_disjoint p q :
  page_ok p -> page_ok q -> p <> q -> p + PGSIZE <= q \/ q + PGSIZE <= p.
Proof. intros (Hp & _) (Hq & _) Hne. unfold PGSIZE in *. Z.div_mod_to_equations. lia. Qed.

Lemma page_ok_check p :
  page_ok p -> negb (p mod PGSIZE =? 0) || (p <? l_end) || (PHYSTOP <=? V2P p) = false.
Proof.
  intros Hp. pose proof (page_ok_pos p Hp) as Hpos. destruct Hp as (Ha & He & Ht).
  unfold V2P. rewrite u32_small; unfold PGSIZE, PHYSTOP, KERNBASE in *; [|lia].
  rewrite Ha. simpl. zcases.
Qed.

Lemma check_page_ok p :
  0 <= p < 2 ^ 32 -> negb (p mod PGSIZE =? 0) || (p <? l_end) || (PHYSTOP <=? V2P p) = false -> page_ok p.
Proof.
  intros Hr. rewrite !orb_false_iff, negb_false_iff, Z.eqb_eq, Z.ltb_ge, Z.leb_gt.
  intros ((Ha & He) & Ht). pose proof data_text. pose proof data_end.
  unfold V2P in Ht. rewrite u32_small in Ht; unfold KERNLINK, EXTMEM, KERNBASE, PGSIZE, PHYSTOP in *; [|lia].
  split; [done|]. split; [done|]. unfold PGSIZE, KERNBASE, PHYSTOP. Z.div_mod_to_equations. lia.
Qed.

(** Changing memory outside the free pages does not disturb the list. *)
Lemma linked_frame m m' head l :
  Forall (fun p => load32 m' p = load32 m p) l -> linked m head l -> linked m' head l.
Proof.
  intros Hf. revert head. induction Hf as [|p l Hp _ IH]; intros head; [done|].
  simpl. intros [-> Hl]. split; [done|]. rewrite Hp. by apply IH.
Qed.

Lemma kmem_ok_frame s s' l :
  k_freelist s' = k_freelist s ->
  (forall a, (exists p, p ∈ l /\ p <= a < p + PGSIZE) -> k_mem s' a = k_mem s a) ->
  kmem_ok s l -> kmem_ok s' l.
Proof.
  intros Hf Hm [H1 H2 H3]. split; [|done|done]. rewrite Hf.
  eapply linked_frame; [|exact H1]. apply Forall_forall. intros p Hp. unfold load32.
  rewrite !Hm; [done|..]; exists p; unfold PGSIZE; lia || (split; [done|lia]).
Qed.

Lemma kalloc_run s p l :
  L_kmem ∉ k_held s -> kmem_ok s (p :: l) ->
  kalloc s = Ret p (set_k_freelist (load32 (k_mem s) p) s).
Proof.
  intros Hh [[<- _] _ [Hp _]%Forall_cons]. apply page_ok_pos in Hp. unfold KERNBASE in Hp.
  unfold kalloc, get_mem, when. krun. destruct (k_use_lock s) eqn:Hu.
  - rewrite acquire_run by done. cbn [res_bind]. kproj.
    destruct (Z.eqb_spec (k_freelist s) 0); [lia|]. cbn [negb res_bind]. kproj. rewrite Hu.
    rewrite (release_head _ (k_held s)) by done. keq.
  - cbn [res_bind]. destruct (Z.eqb_spec (k_freelist s) 0); [lia|]. cbn [negb res_bind]. kproj.
    by rewrite Hu.
Qed.

Lemma kalloc_empty s : L_kmem ∉ k_held s -> kmem_ok s [] -> kalloc s = Ret 0 s.
Proof.
  intros Hh [Hf _ _]. simpl in Hf. unfold kalloc, get_mem, when. krun. destruct (k_use_lock s) eqn:Hu.
  - rewrite acquire_run by done. cbn [res_bind]. kproj. rewrite Hf. cbn [Z.eqb negb res_bind].
    kproj. rewrite Hu. rewrite (release_head _ (k_held s)) by done. cbn [res_bind]. keq.
  - cbn [res_bind]. rewrite Hf. cbn [Z.eqb negb res_bind]. by rewrite Hu.
Qed.

Lemma kmem_ok_pop s p l : kmem_ok s (p :: l) -> kmem_ok (set_k_freelist (load32 (k_mem s) p) s) l.
Proof.
  intros [[_ Hl] [_ Hn]%NoDup_cons [_ Hp]%Forall_cons]. by split.
Qed.

(** The memory after [kfree v]. *)
Definition freed (v next : Z) (m : memory) : memory := store32 (memset m v 1 PGSIZE) v next.

Lemma kfree_run s v :
  L_kmem ∉ k_held s -> page_ok v ->
  kfree v s = Ret tt (set_k_freelist v (set_k_mem (freed v (k_freelist s) (k_mem s)) s)).
Proof.
  intros Hh Hv. unfold kfree. rewrite page_ok_check by done. unfold get_mem, set_mem, when. krun.
  kproj. destruct (k_use_lock s) eqn:Hu.
  - rewrite acquire_run by done. cbn [res_bind]. kproj. rewrite Hu.
    rewrite (release_head _ (k_held s)) by done. keq.
  - cbn [res_bind]. kproj. by rewrite Hu.
Qed.

Lemma freed_other v next m a : ~ (v <= a < v + PGSIZE) -> freed v next m a = m a.
Proof.
  intros Ha. unfold freed, PGSIZE in *. rewrite store32_other by lia. rewrite memset_spec by lia.
  zcases; done.
Qed.

Lemma load32_freed v next m : load32 (freed v next m) v = u32 next.
Proof. apply load32_store32_eq. Qed.

Lemma kmem_ok_push s v l :
  kmem_ok s l -> page_ok v -> v ∉ l ->
  kmem_ok (set_k_freelist v (set_k_mem (freed v (k_freelist s) (k_mem s)) s)) (v :: l).
Proof.
  intros [Hl Hn Hp] Hv Hin. split; kproj; [|by constructor..]. split; [done|].
  rewrite load32_freed.
  assert (Hfree : u32 (k_freelist s) = k_freelist s).
  { destruct l as [|p l]; simpl in Hl; [by rewrite Hl|]. destruct Hl as [-> _].
    apply Forall_cons in Hp as [Hp _]. pose proof (page_ok_pos p Hp). destruct Hp as (_ & _ & Hp).
    apply u32_small. unfold KERNBASE, PHYSTOP, PGSIZE in *. lia. }
  rewrite Hfree. eapply linked_frame; [|exact Hl]. apply Forall_forall. intros p Hpl.
  rewrite Forall_forall in Hp. specialize (Hp p Hpl).
  destruct (page_disjoint v p) as [?|?]; [done|done|by intros ->| |];
    unfold load32; rewrite !freed_other by (unfold PGSIZE in *; lia); done.
Qed.

(** The pages of [vstart, vend), highest first. *)
Fixpoint pages (n : nat) (p : Z) : list Z :=
  match n with O => [] | S n' => pages n' (p + PGSIZE) ++ [p] end.

Lemma elem_of_pages n p q :
  q ∈ pages n p <-> p <= q < p + PGSIZE * Z.of_nat n /\ (q - p) mod PGSIZE = 0.
Proof.
  unfold PGSIZE. revert p. induction n as [|n IH]; intros p; simpl.
  - rewrite elem_of_nil. lia.
  - rewrite elem_of_app, list_elem_of_singleton, IH. unfold PGSIZE. Z.div_mod_to_equations. lia.
Qed.

Lemma freerange_loop_run fuel n p vend s l :
  L_kmem ∉ k_held s -> kmem_ok s l -> p mod PGSIZE = 0 -> l_end <= p ->
  vend <= KERNBASE + PHYSTOP -> n = Z.to_nat ((vend - p) / PGSIZE) -> (n < fuel)%nat ->
  (forall q, q ∈ l -> q < p \/ vend <= q) ->
  wp (freerange_loop fuel p vend) s (fun _ s' =>
    kmem_ok s' (pages n p ++ l) /\ k_held s' = k_held s /\ k_use_lock s' = k_use_lock s).
Proof.
  revert n p s l. induction fuel as [|fuel IH]; intros n p s l Hh Hk Ha He Hv Hn Hf Hl; [lia|].
  cbn [freerange_loop]. destruct (Z.leb_spec (p + PGSIZE) vend) as [Hle|Hgt].
  - assert (Hpok : page_ok p) by (split; [done|]; split; [done|]; lia).
    assert (Hpl : p ∉ l) by (intros Hin; apply Hl in Hin; unfold PGSIZE in *; lia).
    destruct n as [|n]; [exfalso; unfold PGSIZE in *; Z.div_mod_to_equations; lia|].
    apply wp_bind. eapply wp_run; [by apply kfree_run|].
    eapply wp_mono.
    + apply (IH n (p + PGSIZE) _ (p :: l)); kproj; auto using kmem_ok_push.
      * unfold PGSIZE in *. Z.div_mod_to_equations. lia.
      * unfold PGSIZE in *. lia.
      * unfold PGSIZE in *. Z.div_mod_to_equations. lia.
      * lia.
      * intros q [->|Hq]%elem_of_cons; [unfold PGSIZE; lia|]. destruct (Hl q Hq); unfold PGSIZE; lia.
    + simpl. intros _ s' (H1 & H2 & H3). by rewrite <- app_assoc.
  - replace n with 0%nat by (unfold PGSIZE in *; Z.div_mod_to_equations; lia).
    by apply wp_ret.
Qed.

Lemma freerange_run vstart vend s l :
  L_kmem ∉ k_held s -> kmem_ok s l -> l_end <= vstart -> vstart <= vend -> vend <= KERNBASE + PHYSTOP ->
  (forall q, q ∈ l -> q < PGROUNDUP vstart \/ vend <= q) ->
  wp (freerange vstart vend) s (fun _ s' => exists n,
    n = Z.to_nat ((vend - PGROUNDUP vstart) / PGSIZE) /\
    kmem_ok s' (pages n (PGROUNDUP vstart) ++ l) /\ k_held s' = k_held s /\ k_use_lock s' = k_use_lock s).
Proof.
  intros Hh Hk He Hv Ht Hl. pose proof data_text. pose proof data_end.
  unfold KERNLINK, EXTMEM, KERNBASE, PHYSTOP in *.
  destruct (PGROUNDUP_bounds vstart) as [Hb Ha]; [lia|unfold PGSIZE; lia|].
  unfold freerange. eapply wp_mono.
  - eapply freerange_loop_run; eauto; try (unfold KERNBASE, PHYSTOP; lia).
    unfold PGSIZE in *. Z.div_mod_to_equations. lia.
  - simpl. intros _ s' (? & ? & ?). eauto.
Qed.

(** ** Theorems *)

(** [kalloc] returns the first page of the free list and removes it, or
    returns 0 when the list is empty; the page it returns is page-aligned,
    lies in physical memory past the kernel, is not on the list any more,
    and no byte of memory changes. *)
Theorem kalloc_correct s l :
  L_kmem ∉ k_held s -> kmem_ok s l ->
  match l with
  | [] => kalloc s = Ret 0 s
  | p :: l' => exists s', kalloc s = Ret p s' /\ kmem_ok s' l' /\ page_ok p /\ (p ∉ l') /\
                 s' = set_k_freelist (k_freelist s') s
  end.
Proof.
  intros Hh Hk. destruct l as [|p l]; [by apply kalloc_empty|].
  eexists. split; [by apply (kalloc_run s p l)|]. split; [by apply kmem_ok_pop|].
  destruct Hk as [_ [Hn _]%NoDup_cons [Hp _]%Forall_cons]. done.
Qed.

(** [kfree(v)] of a page that is not free puts it at the front of the free
    list, filled with junk, and changes no byte outside the page; for any
    other address it panics before touching anything. *)
Theorem kfree_correct s l v :
  L_kmem ∉ k_held s -> kmem_ok s l -> 0 <= v < 2 ^ 32 -> v ∉ l ->
  (page_ok v /\ exists s', kfree v s = Ret tt s' /\ kmem_ok s' (v :: l) /\
     (forall a, v + 4 <= a < v + PGSIZE -> k_mem s' a = 1) /\
     (forall a, ~ (v <= a < v + PGSIZE) -> k_mem s' a = k_mem s a) /\
     s' = set_k_freelist v (set_k_mem (k_mem s') s)) \/
  (~ page_ok v /\ kfree v s = Panic "kfree").
Proof.
  intros Hh Hk Hr Hin.
  destruct (negb (v mod PGSIZE =? 0) || (v <? l_end) || (PHYSTOP <=? V2P v)) eqn:E.
  - right. split; [intros Hv; by rewrite page_ok_check in E|]. unfold kfree. by rewrite E.
  - left. assert (Hv : page_ok v) by by apply check_page_ok. split; [done|].
    eexists. split; [by apply kfree_run|]. split; [by apply kmem_ok_push|]. kproj.
    split; [|by auto using freed_other]. intros a Ha. unfold freed, PGSIZE in *.
    rewrite store32_other by lia. rewrite memset_spec by lia. zcases. done.
Qed.

(** Initialisation: [kinit1(end, P2V(4M))] followed by
    [kinit2(P2V(4M), P2V(PHYSTOP))], as [main] calls them, puts every whole
    page between the end of the kernel and the top of memory on the free
    list, once each, and turns locking on. *)
Theorem kinit_frees_memory s :
  L_kmem ∉ k_held s -> k_freelist s = 0 ->
  exists a s', (kinit1 l_end (KERNBASE + 0x400000) ;;
                kinit2 (KERNBASE + 0x400000) (KERNBASE + PHYSTOP)) s = Ret a s' /\
    k_use_lock s' = true /\
    exists l, kmem_ok s' l /\ forall p, p ∈ l <-> page_ok p.
Proof.
  intros Hh Hf. apply wp_inv. pose proof data_text. pose proof data_end. pose proof end_4M.
  assert (Hk : kmem_ok (set_k_use_lock false s) []) by (split; kproj; auto using NoDup_nil_2).
  unfold KERNLINK, EXTMEM in *. change KERNBASE with 0x80000000 in *.
  destruct (PGROUNDUP_bounds l_end) as [Hb1 Ha1]; [lia|unfold PGSIZE; lia|].
  unfold kinit1, kinit2. apply wp_bind, wp_bind, (wp_run _ _ tt (set_k_use_lock false s)); [done|].
  eapply wp_mono; [apply (freerange_run _ _ _ []); [done|done|lia|lia|unfold KERNBASE, PHYSTOP; lia|by intros q []%not_elem_of_nil]|].
  intros ? s1 (n1 & Hn1 & Hk1 & Hh1 & Hu1). cbv beta in *.
  apply wp_bind. eapply wp_mono.
  { eapply freerange_run; [by rewrite Hh1|exact Hk1|lia|unfold PHYSTOP; lia|unfold KERNBASE, PHYSTOP; lia|].
    intros q Hq. rewrite app_nil_r in Hq. apply elem_of_pages in Hq.
    rewrite PGROUNDUP_aligned by (done || unfold PGSIZE; lia). left.
    unfold PGSIZE in *. Z.div_mod_to_equations. lia. }
  intros ? s2 (n2 & Hn2 & Hk2 & Hh2 & Hu2). cbv beta in *.
  eapply wp_run; [reflexivity|]. kproj. split; [done|]. eexists.
  split; [destruct Hk2 as [K1 K2 K3]; by split|]. intros p.
  rewrite app_nil_r, elem_of_app, !elem_of_pages. unfold page_ok.
  rewrite PGROUNDUP_aligned in * by (done || unfold PGSIZE; lia).
  change KERNBASE with 0x80000000 in *. unfold PGSIZE, PHYSTOP in *. Z.div_mod_to_equations. lia.
Qed.

End kalloc.

(** ** Witnesses *)

(** A link map of the size of the kernel that the sources build. *)
#[local] Instance demo_link : Link := {|
  l_end := 0x801154A8; l_data := 0x80109000; l_trapret := 0x80105A00; l_forkret := 0x80103A00 |}.
#[local] Instance demo_link_ok : LinkOk.
Proof. split; vm_compute; congruence. Qed.

(** Two free pages. *)
Definition demo_free : kernel :=
  set_k_freelist 0x80200000
    (set_k_mem (store32 (fun _ => 0) 0x80200000 0x80300000) kernel_zero).

Lemma demo_free_ok : kmem_ok demo_free [0x80200000; 0x80300000].
Proof.
  split.
  - vm_compute. done.
  - apply (bool_decide_unpack _). vm_compute. done.
  - repeat constructor; vm_compute; done.
Qed.

Lemma kalloc_correct_witness :
  exists s', kalloc demo_free = Ret 0x80200000 s' /\ kmem_ok s' [0x80300000].
Proof.
  destruct (kalloc_correct demo_free _ (not_elem_of_nil _) demo_free_ok) as (s' & H1 & H2 & _).
  exists s'. split; assumption.
Defined.

Lemma kfree_correct_witness :
  (exists s', kfree 0x80400000 demo_free = Ret tt s' /\
     kmem_ok s' [0x80400000; 0x80200000; 0x80300000]) /\
  kfree 0x80400004 demo_free = Panic "kfree".
Proof.
  split.
  - destruct (kfree_correct demo_free _ 0x80400000 (not_elem_of_nil _) demo_free_ok ltac:(lia)
      ltac:(rewrite !elem_of_cons, elem_of_nil; lia))
      as [(_ & s' & H1 & H2 & _)|(Hn & _)].
    + exists s'. split; assumption.
    + exfalso. apply Hn. vm_compute. intuition congruence.
  - destruct (kfree_correct demo_free _ 0x80400004 (not_elem_of_nil _) demo_free_ok ltac:(lia)
      ltac:(rewrite !elem_of_cons, elem_of_nil; lia))
      as [((H & _) & _)|(_ & H)]; [|exact H].
    exfalso. vm_compute in H. congruence.
Defined.

Lemma kinit_frees_memory_witness :
  exists a s', (kinit1 l_end (KERNBASE + 0x400000) ;;
                kinit2 (KERNBASE + 0x400000) (KERNBASE + PHYSTOP)) kernel_zero = Ret a s' /\
    k_use_lock s' = true.
Proof.
  destruct (kinit_frees_memory kernel_zero (not_elem_of_nil _) eq_refl) as (a & s' & H1 & H2 & _).
  exists a, s'. split; assumption.
Defined.
