(* ===== verification/Vm.v ===== *)
(** * Virtual memory (vm.c)

    Page directories and page tables are pages of [k_mem]; a page-table entry
    is the word at its address, as in the source.  [vm_ok] describes the
    page table of an address space by the pages that hold its tables, and
    the theorems state the effect of the operations on the entries and on
    the list of free pages. *)

From stdpp Require Import base numbers list option strings gmap.
From S2P Require Import Prelude Kernel Fields Mmu Spinlock Proc Cprintf Cstring Kalloc.

Section vm_code.
Context `{Link}.

(** [walkpgdir] gives the address of the entry, 0 for none. *)
Definition walkpgdir (pgdir va : Z) (alloc : bool) : K Z :=
  let pde := pgdir + 4 * PDX va in
  m <- get_mem ;;
  if negb (Z.land (load32 m pde) PTE_P =? 0) then
    ret (P2V (PTE_ADDR (load32 m pde)) + 4 * PTX va)
  else if negb alloc then ret 0
  else
    pgtab <- kalloc ;;
    if pgtab =? 0 then ret 0 else
    m <- get_mem ;;
    let m := memset m pgtab 0 PGSIZE in
    set_mem (store32 m pde (Z.lor (Z.lor (Z.lor (V2P pgtab) PTE_P) PTE_W) PTE_U)) ;;
    ret (pgtab + 4 * PTX va).

(** The loop of [mappages], from page [a] to page [last]. *)
Fixpoint mappages_loop (fuel : nat) (pgdir a last pa perm : Z) : K Z :=
  match fuel with
  | O => out_of_fuel
  | S fuel' =>
      pte <- walkpgdir pgdir a true ;;
      if pte =? 0 then ret (-1) else
      m <- get_mem ;;
      if negb (Z.land (load32 m pte) PTE_P =? 0) then panic "remap" else
      set_mem (store32 m pte (Z.lor (Z.lor pa perm) PTE_P)) ;;
      if a =? last then ret 0 else mappages_loop fuel' pgdir (u32 (a + PGSIZE)) last (u32 (pa + PGSIZE)) perm
  end.

(** The loop runs once per page from the first to the last. *)
Definition mappages (pgdir va size pa perm : Z) : K Z :=
  let a := PGROUNDDOWN va in
  let last := PGROUNDDOWN (u32 (va + size - 1)) in
  mappages_loop (S (Z.to_nat (u32 (last - a) / PGSIZE))) pgdir a last pa perm.

Fixpoint deallocuvm_loop (fuel : nat) (pgdir a oldsz : Z) : K unit :=
  match fuel with
  | O => out_of_fuel
  | S fuel' =>
      if negb (a <? oldsz) then ret tt else
      pte <- walkpgdir pgdir a false ;;
      a' <- (if pte =? 0 then ret (u32 (PGADDR (PDX a + 1) 0 0 - PGSIZE))
             else
               m <- get_mem ;;
               when (negb (Z.land (load32 m pte) PTE_P =? 0))
                 (let pa := PTE_ADDR (load32 m pte) in
                  if pa =? 0 then panic "kfree" else
                  kfree (P2V pa) ;;
                  m <- get_mem ;;
                  set_mem (store32 m pte 0)) ;;
               ret a) ;;
      deallocuvm_loop fuel' pgdir (u32 (a' + PGSIZE)) oldsz
  end.

(** One round per page below [oldsz] is enough. *)
Definition deallocuvm (pgdir oldsz newsz : Z) : K Z :=
  if oldsz <=? newsz then ret oldsz else
  deallocuvm_loop (S (Z.to_nat (oldsz / PGSIZE + 1))) pgdir (PGROUNDUP newsz) oldsz ;;
  ret newsz.

Definition freevm (pgdir : Z) : K unit :=
  if pgdir =? 0 then panic "freevm: no pgdir" else
  deallocuvm pgdir KERNBASE 0 ;;
  foreach (seq 0 1024) (fun i =>
    m <- get_mem ;;
    let pde := load32 m (pgdir + 4 * Z.of_nat i) in
    when (negb (Z.land pde PTE_P =? 0)) (kfree (P2V (PTE_ADDR pde)))) ;;
  kfree pgdir.

(** [kmap]: virtual start, physical start and end, permissions. *)
Definition kmap : list (Z * Z * Z * Z) :=
  [ (KERNBASE, 0, EXTMEM, PTE_W);
    (KERNLINK, V2P KERNLINK, V2P l_data, 0);
    (l_data, V2P l_data, PHYSTOP, PTE_W);
    (DEVSPACE, DEVSPACE, 0, PTE_W) ].

(** The loop of [setupkvm] over the entries of [kmap]. *)
Fixpoint map_kernel (pgdir : Z) (k : list (Z * Z * Z * Z)) : K Z :=
  match k with
  | [] => ret pgdir
  | (virt, pstart, pend, perm) :: k' =>
      r <- mappages pgdir virt (u32 (pend - pstart)) pstart perm ;;
      if r <? 0 then freevm pgdir ;; ret 0 else map_kernel pgdir k'
  end.

Definition setupkvm : K Z :=
  pgdir <- kalloc ;;
  if pgdir =? 0 then ret 0 else
  m <- get_mem ;;
  set_mem (memset m pgdir 0 PGSIZE) ;;
  if DEVSPACE <? P2V PHYSTOP then panic "PHYSTOP too high" else
  map_kernel pgdir kmap.

Definition switchkvm : K unit :=
  kpgdir <- gets k_kpgdir ;; modify (set_k_cr3 (V2P kpgdir)).

Definition kvmalloc : K unit :=
  pgdir <- setupkvm ;;
  modify (set_k_kpgdir pgdir) ;;
  switchkvm.

(** The task state segment and its descriptor are in Entry.v. *)
Definition switchuvm (p : nat) : K unit :=
  pr <- get_proc p ;;
  if p_kstack pr =? 0 then panic "switchuvm: no kstack" else
  if p_pgdir pr =? 0 then panic "switchuvm: no pgdir" else
  modify (set_k_cr3 (V2P (p_pgdir pr))).

(** [init] are the bytes of the linked-in initcode. *)
Definition inituvm (pgdir : Z) (init : list Z) : K unit :=
  if PGSIZE <=? Z.of_nat (length init) then panic "inituvm: more than a page" else
  mem <- kalloc ;;
  if mem =? 0 then null_deref else
  m <- get_mem ;;
  set_mem (memset m mem 0 PGSIZE) ;;
  mappages pgdir 0 PGSIZE (V2P mem) (Z.lor PTE_W PTE_U) ;;
  m <- get_mem ;;
  set_mem (write_bytes m mem init).

Fixpoint allocuvm_loop (fuel : nat) (pgdir a oldsz newsz : Z) : K Z :=
  match fuel with
  | O => out_of_fuel
  | S fuel' =>
      if negb (a <? newsz) then ret newsz else
      mem <- kalloc ;;
      if mem =? 0 then
        cprintf "allocuvm out of memory
" [] ;;
        deallocuvm pgdir newsz oldsz ;;
        ret 0
      else
        m <- get_mem ;;
        set_mem (memset m mem 0 PGSIZE) ;;
        r <- mappages pgdir a PGSIZE (V2P mem) (Z.lor PTE_W PTE_U) ;;
        if r <? 0 then
          cprintf "allocuvm out of memory (2)
" [] ;;
          deallocuvm pgdir newsz oldsz ;;
          kfree mem ;;
          ret 0
        else allocuvm_loop fuel' pgdir (u32 (a + PGSIZE)) oldsz newsz
  end.

Definition allocuvm (pgdir oldsz newsz : Z) : K Z :=
  if KERNBASE <=? newsz then ret 0 else
  if newsz <? oldsz then ret oldsz else
  allocuvm_loop (S (Z.to_nat (newsz / PGSIZE + 1))) pgdir (PGROUNDUP oldsz) oldsz newsz.

Definition clearpteu (pgdir uva : Z) : K unit :=
  pte <- walkpgdir pgdir uva false ;;
  if pte =? 0 then panic "clearpteu" else
  m <- get_mem ;;
  set_mem (store32 m pte (Z.land (load32 m pte) (u32 (Z.lnot PTE_U)))).

Fixpoint copyuvm_loop (fuel : nat) (d pgdir i sz : Z) : K Z :=
  match fuel with
  | O => out_of_fuel
  | S fuel' =>
      if negb (i <? sz) then ret d else
      pte <- walkpgdir pgdir i false ;;
      if pte =? 0 then panic "copyuvm: pte should exist" else
      m <- get_mem ;;
      let e := load32 m pte in
      if Z.land e PTE_P =? 0 then panic "copyuvm: page not present" else
      mem <- kalloc ;;
      if mem =? 0 then freevm d ;; ret 0 else
      m <- get_mem ;;
      set_mem (memmove m mem (P2V (PTE_ADDR e)) PGSIZE) ;;
      r <- mappages d i PGSIZE (V2P mem) (PTE_FLAGS e) ;;
      if r <? 0 then kfree mem ;; freevm d ;; ret 0
      else copyuvm_loop fuel' d pgdir (u32 (i + PGSIZE)) sz
  end.

Definition copyuvm (pgdir sz : Z) : K Z :=
  d <- setupkvm ;;
  if d =? 0 then ret 0 else
  copyuvm_loop (S (Z.to_nat (sz / PGSIZE + 1))) d pgdir 0 sz.

(** The entry is dereferenced without a test for null. *)
Definition uva2ka (pgdir uva : Z) : K Z :=
  pte <- walkpgdir pgdir uva false ;;
  if pte =? 0 then null_deref else
  m <- get_mem ;;
  if Z.land (load32 m pte) PTE_P =? 0 then ret 0 else
  if Z.land (load32 m pte) PTE_U =? 0 then ret 0 else
  ret (P2V (PTE_ADDR (load32 m pte))).

(** [buf] are the [len] bytes to copy. *)
Fixpoint copyout_loop (fuel : nat) (pgdir va : Z) (buf : list Z) : K Z :=
  match fuel with
  | O => out_of_fuel
  | S fuel' =>
      if bool_decide (buf = []) then ret 0 else
      let va0 := PGROUNDDOWN va in
      pa0 <- uva2ka pgdir va0 ;;
      if pa0 =? 0 then ret (-1) else
      let n := Z.min (PGSIZE - (va - va0)) (Z.of_nat (length buf)) in
      m <- get_mem ;;
      set_mem (write_bytes m (pa0 + (va - va0)) (take (Z.to_nat n) buf)) ;;
      copyout_loop fuel' pgdir (u32 (va0 + PGSIZE)) (drop (Z.to_nat n) buf)
  end.

Definition copyout (pgdir va : Z) (buf : list Z) : K Z :=
  copyout_loop (S (length buf)) pgdir va buf.

End vm_code.

(** ** Pages of memory *)

Section vm_proofs.
Context `{LinkOk}.

(** Memories [m] and [m'] agree on the page [p]. *)
Definition same_on (m m' : memory) (p : Z) : Prop := forall a, p <= a < p + PGSIZE -> m' a = m a.

#[local] Instance same_on_preorder p : PreOrder (fun m m' => same_on m m' p).
Proof. split; [done|]. intros m1 m2 m3 H1 H2 a Ha. by rewrite H2, H1. Qed.

Lemma same_on_trans m1 m2 m3 p : same_on m1 m2 p -> same_on m2 m3 p -> same_on m1 m3 p.
Proof. intros H1 H2 a Ha. by rewrite H2, H1. Qed.

Lemma same_on_load32 m m' p a :
  same_on m m' p -> p <= a -> a + 4 <= p + PGSIZE -> load32 m' a = load32 m a.
Proof. intros Hs H1 H2. unfold load32. by rewrite (Hs a), (Hs (a + 1)), (Hs (a + 2)), (Hs (a + 3)) by lia. Qed.

Lemma same_on_store32 m p q a w :
  page_ok p -> page_ok q -> p <> q -> q <= a -> a + 4 <= q + PGSIZE -> same_on m (store32 m a w) p.
Proof.
  intros Hp Hq Hne H1 H2 x Hx. apply store32_other.
  destruct (page_disjoint p q Hp Hq Hne); lia.
Qed.

Lemma same_on_memset m p q c : page_ok p -> page_ok q -> p <> q -> same_on m (memset m q c PGSIZE) p.
Proof.
  intros Hp Hq Hne x Hx. rewrite memset_spec by (unfold PGSIZE; lia).
  destruct (page_disjoint p q Hp Hq Hne); unfold PGSIZE in *; zcases; done.
Qed.

Lemma same_on_freed m p q next :
  page_ok p -> page_ok q -> p <> q -> same_on m (freed q next m) p.
Proof.
  intros Hp Hq Hne x Hx. apply freed_other. destruct (page_disjoint p q Hp Hq Hne); lia.
Qed.

(** The physical address of a page is its offset from KERNBASE. *)
Lemma V2P_page p : page_ok p -> V2P p = p - KERNBASE /\ 0 <= V2P p < PHYSTOP /\ V2P p mod PGSIZE = 0.
Proof.
  intros Hp. pose proof (page_ok_pos p Hp). destruct Hp as (Ha & _ & Ht).
  unfold V2P. unfold PHYSTOP, KERNBASE, PGSIZE in *. rewrite u32_small by lia.
  split; [done|]. split; [lia|]. Z.div_mod_to_equations. lia.
Qed.

Lemma P2V_V2P p : page_ok p -> P2V (V2P p) = p.
Proof.
  intros Hp. destruct (V2P_page p Hp) as (-> & Hr & _). unfold P2V, PHYSTOP, KERNBASE in *.
  rewrite u32_small; lia.
Qed.

(** The entry [pa|flags] of a page. *)
Definition mkpte (p flags : Z) : Z := V2P p + flags.

Lemma mkpte_addr p f : page_ok p -> 0 <= f < PGSIZE -> PTE_ADDR (mkpte p f) = V2P p.
Proof.
  intros Hp Hf. destruct (V2P_page p Hp) as (_ & Hr & Ha). unfold mkpte, PHYSTOP, PGSIZE in *.
  rewrite PTE_ADDR_spec by lia. unfold PGSIZE. Z.div_mod_to_equations. lia.
Qed.

Lemma mkpte_flags p f : page_ok p -> 0 <= f < PGSIZE -> PTE_FLAGS (mkpte p f) = f.
Proof.
  intros Hp Hf. destruct (V2P_page p Hp) as (_ & Hr & Ha). unfold mkpte.
  rewrite PTE_FLAGS_spec. unfold PGSIZE in *. Z.div_mod_to_equations. lia.
Qed.

Lemma mkpte_P p f : page_ok p -> Z.land (mkpte p f) PTE_P = f mod 2.
Proof.
  intros Hp. destruct (V2P_page p Hp) as (_ & Hr & Ha). unfold mkpte, PTE_P. rewrite land_1.
  unfold PGSIZE in *. Z.div_mod_to_equations. lia.
Qed.

Lemma lor_mkpte p f : page_ok p -> 0 <= f < PGSIZE -> Z.lor (V2P p) f = mkpte p f.
Proof.
  intros Hp Hf. destruct (V2P_page p Hp) as (_ & Hr & Ha). unfold mkpte.
  by apply (lor_aligned _ _ 12).
Qed.

Lemma mkpte_range p f : page_ok p -> 0 <= f < PGSIZE -> 0 <= mkpte p f < 2 ^ 32.
Proof.
  intros Hp Hf. destruct (V2P_page p Hp) as (_ & Hr & _). unfold mkpte, PHYSTOP, PGSIZE in *. lia.
Qed.

(** ** Page tables

    An address space is described by its page directory [pgdir] and the
    pages [T] of its page tables, by directory index.  [l] are the free
    pages. *)

Definition pt_pages (pgdir : Z) (T : gmap Z Z) : list Z := pgdir :: (map_to_list T).*2.

Record vm_ok (s : kernel) (pgdir : Z) (T : gmap Z Z) (l : list Z) : Prop := {
  vm_mem : kmem_ok s l;
  vm_nodup : NoDup (pt_pages pgdir T ++ l);
  vm_pages : Forall page_ok (pt_pages pgdir T);
  vm_dir : forall i t, T !! i = Some t ->
    0 <= i < 1024 /\ load32 (k_mem s) (pgdir + 4 * i) = mkpte t 7;
  vm_none : forall i, 0 <= i < 1024 -> T !! i = None ->
    Z.land (load32 (k_mem s) (pgdir + 4 * i)) PTE_P = 0;
}.

(** The address of the entry for page number [v], and the entry. *)
Definition pte_addr (T : gmap Z Z) (v : Z) : Z :=
  match T !! (v / 1024) with Some t => t + 4 * (v mod 1024) | None => 0 end.
Definition entry (m : memory) (T : gmap Z Z) (v : Z) : Z :=
  match T !! (v / 1024) with Some t => load32 m (t + 4 * (v mod 1024)) | None => 0 end.

Lemma pt_pages_elem pgdir T i t : T !! i = Some t -> t ∈ pt_pages pgdir T.
Proof.
  intros HT. right. apply list_elem_of_fmap. exists (i, t). split; [done|]. by apply elem_of_map_to_list.
Qed.

Lemma vm_table_ok s pgdir T l i t : vm_ok s pgdir T l -> T !! i = Some t -> page_ok t.
Proof.
  intros Hv HT. eapply (proj1 (Forall_forall _ _) (vm_pages _ _ _ _ Hv)). by eapply pt_pages_elem.
Qed.

Lemma vm_dir_ok s pgdir T l : vm_ok s pgdir T l -> page_ok pgdir.
Proof. intros Hv. by destruct (proj1 (Forall_cons _ _ _) (vm_pages _ _ _ _ Hv)). Qed.

(** Different indices have different tables. *)
Lemma vm_inj s pgdir T l i j t : vm_ok s pgdir T l -> T !! i = Some t -> T !! j = Some t -> i = j.
Proof.
  intros Hv Hi Hj. pose proof (vm_nodup _ _ _ _ Hv) as (Hnd & _)%NoDup_app.
  apply NoDup_cons in Hnd as [_ Hnd].
  apply elem_of_map_to_list in Hi, Hj.
  apply list_elem_of_lookup in Hi as [a Ha], Hj as [b Hb].
  assert (a = b) as ->; [|by rewrite Ha in Hb; simplify_eq].
  eapply NoDup_lookup; [exact Hnd|..]; rewrite list_lookup_fmap, ?Ha, ?Hb; done.
Qed.

Lemma vm_table_dir s pgdir T l i : vm_ok s pgdir T l -> T !! i <> Some pgdir.
Proof.
  intros Hv Hi. pose proof (vm_nodup _ _ _ _ Hv) as (Hnd & _)%NoDup_app.
  apply NoDup_cons in Hnd as [Hn _]. apply Hn, list_elem_of_fmap. exists (i, pgdir). split; [done|].
  by apply elem_of_map_to_list.
Qed.

(** The structure depends on its own pages and on the free list only. *)
Lemma vm_frame s s' pgdir T l :
  vm_ok s pgdir T l -> k_freelist s' = k_freelist s ->
  (forall p, p ∈ pt_pages pgdir T ++ l -> same_on (k_mem s) (k_mem s') p) ->
  vm_ok s' pgdir T l /\ forall v, entry (k_mem s') T v = entry (k_mem s) T v.
Proof.
  intros Hv Hf Hs. assert (same_on (k_mem s) (k_mem s') pgdir) as Hd.
  { apply Hs, elem_of_app. left. by left. }
  assert (forall i, 0 <= i < 1024 ->
    load32 (k_mem s') (pgdir + 4 * i) = load32 (k_mem s) (pgdir + 4 * i)) as Hdir.
  { intros i Hi. eapply same_on_load32; [exact Hd|lia|unfold PGSIZE; lia]. }
  split.
  - destruct Hv as [H1 H2 H3 H4 H5]. split; [|done..| |].
    + eapply kmem_ok_frame; [exact Hf| |exact H1]. intros a (p & Hp & Ha). eapply (Hs p); [|done].
      apply elem_of_app. by right.
    + intros i t HT. destruct (H4 i t HT) as [Hi He]. by rewrite Hdir.
    + intros i Hi HT. rewrite Hdir by done. auto.
  - intros v. unfold entry. destruct (T !! (v / 1024)) as [t|] eqn:HT; [|done].
    eapply same_on_load32; [apply Hs, elem_of_app; left; by eapply pt_pages_elem|..];
      pose proof (Z.mod_pos_bound v 1024); unfold PGSIZE; lia.
Qed.

(** Only memory and the free list change. *)
Definition mframe (s s' : kernel) : Prop := exists m f, s' = set_k_mem m (set_k_freelist f s).

Lemma mframe_refl s : mframe s s.
Proof. exists (k_mem s), (k_freelist s). by destruct s. Qed.
Lemma mframe_trans s1 s2 s3 : mframe s1 s2 -> mframe s2 s3 -> mframe s1 s3.
Proof. intros (m & f & ->) (m' & f' & ->). by exists m', f'. Qed.
Lemma mframe_mem s m : mframe s (set_k_mem m s).
Proof. exists m, (k_freelist s). by destruct s. Qed.
Lemma mframe_free s f : mframe s (set_k_freelist f s).
Proof. exists (k_mem s), f. by destruct s. Qed.
Lemma mframe_held s s' : mframe s s' -> k_held s' = k_held s.
Proof. by intros (m & f & ->). Qed.

(** A step of the page-table code: no page is gained or lost, tables are only
    added, and pages that are neither tables nor free keep their contents. *)
Record vm_step (s : kernel) (pgdir : Z) (T : gmap Z Z) (l : list Z)
    (s' : kernel) (T' : gmap Z Z) (l' : list Z) : Prop := {
  vs_ok : vm_ok s' pgdir T' l';
  vs_frame : mframe s s';
  vs_perm : pt_pages pgdir T' ++ l' ≡ₚ pt_pages pgdir T ++ l;
  vs_sub : T ⊆ T';
  vs_free : forall p, p ∈ l' -> p ∈ l;
  vs_out : forall p, page_ok p -> p ∉ pt_pages pgdir T ++ l -> same_on (k_mem s) (k_mem s') p;
}.

Lemma vm_step_refl s pgdir T l : vm_ok s pgdir T l -> vm_step s pgdir T l s T l.
Proof. intros Hv. split; try done. apply mframe_refl. Qed.

Lemma vm_step_trans s1 pgdir T1 l1 s2 T2 l2 s3 T3 l3 :
  vm_step s1 pgdir T1 l1 s2 T2 l2 -> vm_step s2 pgdir T2 l2 s3 T3 l3 ->
  vm_step s1 pgdir T1 l1 s3 T3 l3.
Proof.
  intros [H1 H2 H3 H4 H5 H6] [G1 G2 G3 G4 G5 G6]. split; try done.
  - by eapply mframe_trans.
  - by rewrite G3.
  - by etrans.
  - auto.
  - intros p Hp Hn. eapply same_on_trans; [by apply H6|]. apply G6; [done|]. by rewrite H3.
Qed.

(** Page numbers of a linear address. *)
Lemma PDX_vpn va : 0 <= va < 2 ^ 32 -> PDX va = va / PGSIZE / 1024.
Proof. intros Hv. rewrite PDX_spec by done. by rewrite Z.div_div by (unfold PGSIZE; lia). Qed.
Lemma PTX_vpn va : 0 <= va < 2 ^ 32 -> PTX va = va / PGSIZE mod 1024.
Proof. intros Hv. apply PTX_spec. lia. Qed.

Lemma vpn_range va : 0 <= va < 2 ^ 32 -> 0 <= va / PGSIZE / 1024 < 1024.
Proof. intros Hv. rewrite <- PDX_vpn by done. by apply PDX_range. Qed.

Lemma dir_present s pgdir T l i t :
  vm_ok s pgdir T l -> T !! i = Some t ->
  (Z.land (load32 (k_mem s) (pgdir + 4 * i)) PTE_P =? 0) = false /\
  P2V (PTE_ADDR (load32 (k_mem s) (pgdir + 4 * i))) = t.
Proof.
  intros Hv HT. pose proof (vm_table_ok _ _ _ _ _ _ Hv HT) as Ht.
  destruct (vm_dir _ _ _ _ Hv i t HT) as [_ ->].
  rewrite mkpte_P, mkpte_addr, P2V_V2P by (done || unfold PGSIZE; lia). done.
Qed.

Lemma pte_addr_ne0 s pgdir T l v t : vm_ok s pgdir T l -> T !! (v / 1024) = Some t -> pte_addr T v <> 0.
Proof.
  intros Hv HT. unfold pte_addr. rewrite HT. pose proof (page_ok_pos t (vm_table_ok _ _ _ _ _ _ Hv HT)).
  pose proof (Z.mod_pos_bound v 1024). unfold KERNBASE in *. lia.
Qed.

Lemma walk_false s pgdir T l va :
  vm_ok s pgdir T l -> 0 <= va < 2 ^ 32 ->
  walkpgdir pgdir va false s = Ret (pte_addr T (va / PGSIZE)) s.
Proof.
  intros Hv Hva. unfold walkpgdir, get_mem. krun. rewrite PDX_vpn, PTX_vpn by done.
  pose proof (vpn_range va Hva) as Hi. unfold pte_addr.
  destruct (T !! (va / PGSIZE / 1024)) as [t|] eqn:HT.
  - destruct (dir_present _ _ _ _ _ _ Hv HT) as [-> ->]. done.
  - by rewrite (vm_none _ _ _ _ Hv _ Hi HT).
Qed.

(** Adding a table taken from the free list. *)
Definition add_table (pgdir va pgtab : Z) (m : memory) : memory :=
  store32 (memset m pgtab 0 PGSIZE) (pgdir + 4 * PDX va)
    (Z.lor (Z.lor (Z.lor (V2P pgtab) PTE_P) PTE_W) PTE_U).

Lemma pt_pages_insert pgdir T i t :
  T !! i = None -> pt_pages pgdir (<[i:=t]> T) ≡ₚ pgdir :: t :: (map_to_list T).*2.
Proof. intros HT. unfold pt_pages. constructor. by rewrite map_to_list_insert. Qed.

Lemma load32_memset0 m p a : page_ok p -> p <= a -> a + 4 <= p + PGSIZE -> load32 (memset m p 0 PGSIZE) a = 0.
Proof.
  intros Hp H1 H2. unfold load32. rewrite !memset_spec by (unfold PGSIZE; lia).
  unfold PGSIZE in *. zcases. done.
Qed.

Section new_table.
Context s pgdir T p l va (Hv : vm_ok s pgdir T (p :: l)) (Hva : 0 <= va < 2 ^ 32) (HT : T !! PDX va = None).
Local Notation i := (PDX va).
Local Notation m := (k_mem s).
Local Notation m' := (add_table pgdir va p m).

Lemma new_table_page : page_ok p.
Proof. by pose proof (km_pages _ _ (vm_mem _ _ _ _ Hv)) as [Hp _]%Forall_cons. Qed.

Lemma new_table_rest q : q ∈ pt_pages pgdir T ++ l -> page_ok q /\ q <> p.
Proof.
  intros Hq. split.
  - pose proof (km_pages _ _ (vm_mem _ _ _ _ Hv)) as [_ Hl]%Forall_cons. apply elem_of_app in Hq as [Hq|Hq].
    + exact (proj1 (Forall_forall _ _) (vm_pages _ _ _ _ Hv) q Hq).
    + exact (proj1 (Forall_forall _ _) Hl q Hq).
  - intros ->. pose proof (vm_nodup _ _ _ _ Hv) as Hnd. rewrite <- Permutation_middle in Hnd.
    by apply NoDup_cons in Hnd as [? _].
Qed.

Lemma new_table_perm : pt_pages pgdir (<[i:=p]> T) ++ l ≡ₚ pt_pages pgdir T ++ p :: l.
Proof.
  rewrite pt_pages_insert by done. unfold pt_pages. rewrite <- Permutation_middle. simpl.
  by rewrite Permutation_swap.
Qed.

Lemma new_table_same q : page_ok q -> q <> p -> q <> pgdir -> same_on m m' q.
Proof.
  intros Hq H1 H2. pose proof (PDX_range va Hva). pose proof (vm_dir_ok _ _ _ _ Hv).
  eapply same_on_trans; [apply same_on_memset; [done|apply new_table_page|done]|].
  apply (same_on_store32 _ q pgdir); unfold PGSIZE; (done || lia).
Qed.

(** The directory: the new entry, and the others as they were. *)
Lemma new_table_dir j : 0 <= j < 1024 ->
  load32 m' (pgdir + 4 * j) = if decide (j = i) then mkpte p 7 else load32 m (pgdir + 4 * j).
Proof.
  intros Hj. pose proof (PDX_range va Hva). pose proof new_table_page as Hp. unfold add_table.
  assert (pgdir ∈ pt_pages pgdir T ++ l) as [Hd Hdp]%new_table_rest by by left.
  case_decide as Hji.
  - subst j. rewrite load32_store32_eq. unfold PTE_P, PTE_W, PTE_U. rewrite <- !Z.lor_assoc.
    change (Z.lor 1 (Z.lor 2 4)) with 7. rewrite (lor_mkpte p 7) by done. apply u32_small, mkpte_range; [done|unfold PGSIZE; lia].
  - rewrite load32_store32_ne by lia.
    eapply same_on_load32; [by apply (same_on_memset _ pgdir p)|lia|unfold PGSIZE; lia].
Qed.

(** No address is mapped by the new table, and the others as before. *)
Lemma new_table_entry v : entry m' (<[i:=p]> T) v = entry m T v.
Proof.
  unfold entry. pose proof (Z.mod_pos_bound v 1024). pose proof (PDX_range va Hva). pose proof new_table_page as Hp.
  assert (pgdir ∈ pt_pages pgdir T ++ l) as [Hd Hdp]%new_table_rest by by left.
  destruct (decide (v / 1024 = i)) as [Ev|Ev].
  - rewrite Ev, lookup_insert_eq, HT. unfold add_table.
    destruct (page_disjoint pgdir p Hd Hp Hdp); rewrite load32_store32_ne by (unfold PGSIZE in *; lia);
      (apply load32_memset0; [done|lia|unfold PGSIZE; lia]).
  - rewrite lookup_insert_ne by done. destruct (T !! (v / 1024)) as [t|] eqn:Ht; [|done].
    assert (t ∈ pt_pages pgdir T ++ l) as [Htp Hne]%new_table_rest
      by (apply elem_of_app; left; by eapply pt_pages_elem).
    eapply same_on_load32; [apply (new_table_same t); auto|lia|unfold PGSIZE; lia].
    intros ->. by apply (vm_table_dir _ _ _ _ (v / 1024) Hv).
Qed.

Local Notation s' := (set_k_mem m' (set_k_freelist (load32 m p) s)).

Lemma new_table_ok : vm_ok s' pgdir (<[i:=p]> T) l.
Proof.
  pose proof (PDX_range va Hva). pose proof (vm_nodup _ _ _ _ Hv) as Hnd. split; kproj.
  - eapply kmem_ok_frame; [..|exact (kmem_ok_pop _ _ _ (vm_mem _ _ _ _ Hv))]; [done|]. kproj.
    intros a (q & Hq & Ha). assert (q ∈ pt_pages pgdir T ++ l) as [??]%new_table_rest by (apply elem_of_app; by right).
    apply (new_table_same q); auto. intros ->. apply NoDup_app in Hnd as (_ & Hx & _). apply (Hx pgdir); [by left|by right].
  - by rewrite new_table_perm.
  - rewrite Forall_forall. intros q Hq. rewrite pt_pages_insert in Hq by done.
    apply elem_of_cons in Hq as [->|[->|Hq]%elem_of_cons];
      [exact (vm_dir_ok _ _ _ _ Hv)|exact new_table_page|]. apply new_table_rest, elem_of_app. left. by right.
  - intros j t Hj. destruct (decide (j = i)) as [->|Hji].
    + rewrite lookup_insert_eq in Hj. injection Hj as <-. by rewrite new_table_dir, decide_True.
    + rewrite lookup_insert_ne in Hj by done. destruct (vm_dir _ _ _ _ Hv j t Hj) as [Hj' He].
      by rewrite new_table_dir, decide_False.
  - intros j Hj Hn. destruct (decide (j = i)) as [->|Hji]; [by rewrite lookup_insert_eq in Hn|].
    rewrite lookup_insert_ne in Hn by done. rewrite new_table_dir, decide_False by done.
    by apply (vm_none _ _ _ _ Hv).
Qed.

Lemma add_table_step :
  vm_step s pgdir T (p :: l) s' (<[i := p]> T) l /\
  forall v, entry (k_mem s') (<[i := p]> T) v = entry m T v.
Proof.
  split; [split|exact new_table_entry].
  - exact new_table_ok.
  - eapply mframe_trans; [apply mframe_free|apply mframe_mem].
  - exact new_table_perm.
  - by apply insert_subseteq.
  - intros q Hq. by right.
  - kproj. intros q Hq Hn. rewrite elem_of_app, elem_of_cons in Hn.
    apply new_table_same; [done|intros ->; by apply Hn; right; left|intros ->; apply Hn; left; by left].
Qed.

End new_table.

Lemma walk_true s pgdir T l va :
  vm_ok s pgdir T l -> L_kmem ∉ k_held s -> 0 <= va < 2 ^ 32 ->
  wp (walkpgdir pgdir va true) s (fun r s' =>
    (r = 0 /\ s' = s /\ l = []) \/
    exists T' l' t, T' !! (va / PGSIZE / 1024) = Some t /\ r = pte_addr T' (va / PGSIZE) /\ r <> 0 /\
      vm_step s pgdir T l s' T' l' /\
      forall v, entry (k_mem s') T' v = entry (k_mem s) T v).
Proof.
  intros Hv Hh Hva. unfold walkpgdir. apply wp_bind. eapply wp_run; [reflexivity|].
  pose proof (vpn_range va Hva) as Hi. rewrite <- PDX_vpn in Hi |- * by done.
  destruct (T !! PDX va) as [t|] eqn:HT.
  - destruct (dir_present _ _ _ _ _ _ Hv HT) as [-> ->]. cbn [negb]. apply wp_ret. right.
    assert (t + 4 * PTX va = pte_addr T (va / PGSIZE)) as E.
    { unfold pte_addr. by rewrite <- PDX_vpn, HT, PTX_vpn. }
    exists T, l, t. split; [done|]. split; [done|]. split; [|split; [by apply vm_step_refl|done]].
    rewrite E. eapply (pte_addr_ne0 _ _ _ _ _ t Hv). by rewrite <- PDX_vpn.
  - rewrite (vm_none _ _ _ _ Hv _ Hi HT). cbn [Z.eqb negb]. apply wp_bind.
    destruct l as [|p l].
    { eapply wp_run; [apply kalloc_empty; [done|apply Hv]|]. apply wp_ret. by left. }
    eapply wp_run; [by apply (kalloc_run s p l), Hv|].
    pose proof (km_pages _ _ (vm_mem _ _ _ _ Hv)) as [Hp _]%Forall_cons.
    pose proof (page_ok_pos p Hp). unfold KERNBASE in *. destruct (Z.eqb_spec p 0); [lia|].
    destruct (add_table_step s pgdir T p l va Hv Hva HT) as [Hstep Hent].
    apply wp_bind. eapply wp_run; [reflexivity|]. apply wp_bind. eapply wp_run; [reflexivity|].
    apply wp_ret. right. exists (<[PDX va:=p]> T), l, p.
    assert (p + 4 * PTX va = pte_addr (<[PDX va:=p]> T) (va / PGSIZE)) as E.
    { unfold pte_addr. by rewrite <- PDX_vpn, lookup_insert_eq, PTX_vpn. }
    split; [by rewrite lookup_insert_eq|]. split; [done|].
    split; [|split; [exact Hstep|exact Hent]].
    rewrite E. eapply (pte_addr_ne0 _ _ _ _ _ p (vs_ok _ _ _ _ _ _ _ Hstep)). by rewrite <- PDX_vpn, lookup_insert_eq.
Qed.

(** Storing an entry. *)
Lemma set_entry s pgdir T l v t w :
  vm_ok s pgdir T l -> T !! (v / 1024) = Some t ->
  let s' := set_k_mem (store32 (k_mem s) (pte_addr T v) w) s in
  vm_step s pgdir T l s' T l /\
  forall u, entry (k_mem s') T u = if u =? v then u32 w else entry (k_mem s) T u.
Proof.
  intros Hv HT. cbv zeta. pose proof (Z.mod_pos_bound v 1024 ltac:(lia)) as Hmod.
  pose proof (vm_table_ok _ _ _ _ _ _ Hv HT) as Ht.
  assert (pte_addr T v = t + 4 * (v mod 1024)) as Ea by (unfold pte_addr; by rewrite HT).
  rewrite Ea. set (a := t + 4 * (v mod 1024)).
  assert (forall q, page_ok q -> q <> t -> same_on (k_mem s) (store32 (k_mem s) a w) q) as Hs.
  { intros q Hq Hne. apply (same_on_store32 _ q t); unfold a, PGSIZE; (done || lia). }
  assert (pgdir <> t) as Hdt by (intros ->; by apply (vm_table_dir _ _ _ _ _ Hv HT)).
  pose proof (vm_dir_ok _ _ _ _ Hv) as Hd. pose proof (vm_nodup _ _ _ _ Hv) as Hnd.
  assert (forall j, 0 <= j < 1024 ->
    load32 (store32 (k_mem s) a w) (pgdir + 4 * j) = load32 (k_mem s) (pgdir + 4 * j)) as Hld.
  { intros j Hj. eapply same_on_load32; [by apply Hs|lia|unfold PGSIZE; lia]. }
  assert (t ∈ pt_pages pgdir T) as Hin by by eapply pt_pages_elem.
  split; [split|]; kproj.
  - destruct Hv as [H1 H2 H3 H4 H5]. split; kproj; [|done..| |].
    + eapply kmem_ok_frame; [..|exact H1]; [done|]. kproj. intros x (q & Hq & Hx).
      eapply (Hs q); [exact (proj1 (Forall_forall _ _) (km_pages _ _ H1) q Hq)| |done].
      intros ->. apply NoDup_app in Hnd as (_ & Hdis & _). by apply (Hdis t).
    + intros j u Hj. destruct (H4 j u Hj) as [Hj' ?]. by rewrite Hld.
    + intros j Hj Hn. rewrite Hld by done. auto.
  - apply mframe_mem.
  - done.
  - done.
  - done.
  - intros q Hq Hn. apply Hs; [done|]. intros ->. apply Hn, elem_of_app. by left.
  - intros u. pose proof (Z.mod_pos_bound u 1024 ltac:(lia)). unfold entry.
    destruct (Z.eqb_spec u v) as [->|Huv]; [rewrite HT; apply load32_store32_eq|].
    destruct (T !! (u / 1024)) as [t'|] eqn:Hu; [|done].
    destruct (decide (t' = t)) as [->|Hne].
    + assert (u / 1024 = v / 1024) by by eapply vm_inj.
      apply load32_store32_ne. unfold a. pose proof (Z.div_mod u 1024). pose proof (Z.div_mod v 1024). lia.
    + eapply same_on_load32; [apply Hs; [by eapply vm_table_ok|done]|lia|unfold PGSIZE; lia].
Qed.

(** *** Mapping a range of pages *)

Definition in_range (v k u : Z) : bool := (v <=? u) && (u <? v + k).

(** What [mappages] does to [n] pages from page number [v] on: it maps the
    first [k] of them to consecutive physical pages, all of them when it
    returns 0, fewer when memory runs out. *)
Definition mapped (s : kernel) (pgdir : Z) (T : gmap Z Z) (l : list Z) (v n pa perm r : Z)
    (s' : kernel) : Prop :=
  exists T' l' k, vm_step s pgdir T l s' T' l' /\
    ((r = 0 /\ k = n) \/ (r = -1 /\ 0 <= k < n /\ l' = [])) /\
    forall u, entry (k_mem s') T' u =
      if in_range v k u then pa + PGSIZE * (u - v) + Z.lor perm 1 else entry (k_mem s) T u.

Lemma lor_perm perm : 0 <= perm < PGSIZE -> 0 <= Z.lor perm 1 < PGSIZE.
Proof.
  unfold PGSIZE. intros Hp. split; [apply Z.lor_nonneg; lia|].
  assert (Z.lor perm 1 = perm \/ Z.lor perm 1 = perm + 1) as [E|E]; [|lia|].
  - destruct (Z.odd perm) eqn:Ho.
    + left. apply Z.bits_inj'. intros k Hk. rewrite Z.lor_spec. destruct (Z.eq_dec k 0) as [->|].
      * by rewrite Z.bit0_odd, Ho.
      * rewrite (Z.bits_above_log2 1 k) by (simpl; lia). apply orb_false_r.
    + right. apply (lor_aligned _ _ 1); [lia| |lia]. change (2 ^ 1) with 2. rewrite Zmod_odd. by rewrite Ho.
  - assert (perm <> 4095); [|lia]. intros ->. by vm_compute in E.
Qed.

Lemma map_value pa perm :
  0 <= pa < 2 ^ 32 -> pa mod PGSIZE = 0 -> 0 <= perm < PGSIZE ->
  u32 (Z.lor (Z.lor pa perm) PTE_P) = pa + Z.lor perm 1.
Proof.
  intros Hpa Ha Hp. pose proof (lor_perm perm Hp) as Hl. rewrite <- Z.lor_assoc. unfold PTE_P.
  rewrite (lor_aligned _ _ 12) by done. apply u32_small. unfold PGSIZE in *. Z.div_mod_to_equations. lia.
Qed.

Lemma mappages_loop_spec n : forall fuel s pgdir T l v pa perm,
  vm_ok s pgdir T l -> L_kmem ∉ k_held s -> 0 <= v -> v + Z.of_nat (S n) <= 2 ^ 20 ->
  0 <= pa -> pa mod PGSIZE = 0 -> pa + PGSIZE * Z.of_nat (S n) <= 2 ^ 32 -> 0 <= perm < PGSIZE ->
  (forall u, v <= u < v + Z.of_nat (S n) -> Z.land (entry (k_mem s) T u) PTE_P = 0) ->
  (n < fuel)%nat ->
  wp (mappages_loop fuel pgdir (v * PGSIZE) ((v + Z.of_nat n) * PGSIZE) pa perm) s
    (fun r s' => mapped s pgdir T l v (Z.of_nat (S n)) pa perm r s').
Proof.
  induction n as [|n IH]; intros fuel s pgdir T l v pa perm Hv Hh Hv0 Hv1 Hpa0 Hpa Hpa1 Hperm Hfree Hfuel;
    (destruct fuel as [|fuel]; [lia|]); cbn [mappages_loop]; apply wp_bind.
  all: assert (0 <= v * PGSIZE < 2 ^ 32) as Hva by (unfold PGSIZE; lia).
  all: assert (v * PGSIZE / PGSIZE = v) as Ediv by (apply Z.div_mul; done).
  all: eapply wp_mono; [by apply (walk_true s pgdir T l _ Hv Hh)|].
  all: rewrite Ediv; intros r s1 [(-> & -> & ->)|(T1 & l1 & t & HT1 & -> & Hne & Hst1 & Hent1)].
  1, 3: (apply wp_ret; exists T, [], 0; split; [by apply vm_step_refl|]; split; [right; split_and!; (done || lia)|];
    intros u; unfold in_range; zcases; simpl; (done || lia)).
  all: destruct (Z.eqb_spec (pte_addr T1 v) 0) as [|_]; [done|].
  all: apply wp_bind; eapply wp_run; [reflexivity|].
  all: assert (load32 (k_mem s1) (pte_addr T1 v) = entry (k_mem s1) T1 v) as El
    by (unfold pte_addr, entry; by rewrite HT1).
  all: rewrite El, Hent1, Hfree by lia; cbn [Z.eqb negb].
  all: apply wp_bind; eapply wp_run; [reflexivity|].
  all: destruct (set_entry s1 pgdir T1 l1 v t (Z.lor (Z.lor pa perm) PTE_P) (vs_ok _ _ _ _ _ _ _ Hst1) HT1)
    as [Hst2 Hent2].
  all: rewrite map_value in Hent2 by (unfold PGSIZE in *; (done || lia)).
  all: pose proof (vm_step_trans _ _ _ _ _ _ _ _ _ _ Hst1 Hst2) as Hst.
  all: set (s2 := set_k_mem _ s1) in *.
  - rewrite Z.add_0_r, Z.eqb_refl. apply wp_ret. exists T1, l1, 1. split; [done|]. split; [by left|].
    intros u. rewrite Hent2, Hent1. unfold in_range. zcases; simpl; subst; try done. f_equal. lia.
  - rewrite (proj2 (Z.eqb_neq _ _)) by (unfold PGSIZE in *; lia).
    assert (u32 (v * PGSIZE + PGSIZE) = (v + 1) * PGSIZE) as -> by (rewrite u32_small; unfold PGSIZE in *; lia).
    rewrite (u32_small (pa + PGSIZE)) by (unfold PGSIZE in *; lia).
    replace (v + Z.of_nat (S n)) with (v + 1 + Z.of_nat n) by lia.
    eapply wp_mono.
    { apply (IH fuel s2 pgdir T1 l1 (v + 1) (pa + PGSIZE) perm); try lia.
      - apply Hst2.
      - by rewrite (mframe_held _ _ (vs_frame _ _ _ _ _ _ _ Hst)).
      - unfold PGSIZE in *. Z.div_mod_to_equations. lia.
      - intros u Hu. rewrite Hent2, (proj2 (Z.eqb_neq _ _)), Hent1 by lia. apply Hfree. lia. }
    intros r s3 (T3 & l3 & k & Hst3 & Hr & Hent3). exists T3, l3, (k + 1).
    split; [by eapply vm_step_trans|]. split; [destruct Hr as [[-> ->]|(-> & Hk & ->)]; [left|right]; split_and!; (done || lia)|].
    intros u. rewrite Hent3, Hent2, Hent1. unfold in_range.
    assert (0 <= k) by lia. zcases; simpl; try done; subst; unfold PGSIZE; f_equal; lia.
Qed.

Lemma mappages_spec n s pgdir T l v pa perm :
  vm_ok s pgdir T l -> L_kmem ∉ k_held s -> 0 <= v -> 0 < n -> v + n <= 2 ^ 20 ->
  0 <= pa -> pa mod PGSIZE = 0 -> pa + PGSIZE * n <= 2 ^ 32 -> 0 <= perm < PGSIZE ->
  (forall u, v <= u < v + n -> Z.land (entry (k_mem s) T u) PTE_P = 0) ->
  wp (mappages pgdir (v * PGSIZE) (n * PGSIZE) pa perm) s
    (fun r s' => mapped s pgdir T l v n pa perm r s').
Proof.
  intros Hv Hh Hv0 Hn Hv1 Hpa0 Hpa Hpa1 Hperm Hfree. unfold mappages.
  rewrite (u32_small (_ - 1)) by (unfold PGSIZE; lia).
  rewrite !PGROUNDDOWN_spec by (unfold PGSIZE; lia).
  assert (v * PGSIZE - (v * PGSIZE) mod PGSIZE = v * PGSIZE) as -> by (rewrite Z.mod_mul by done; lia).
  assert (v * PGSIZE + n * PGSIZE - 1 - (v * PGSIZE + n * PGSIZE - 1) mod PGSIZE
    = (v + Z.of_nat (Z.to_nat (n - 1))) * PGSIZE) as ->.
  { rewrite Z2Nat.id by lia. unfold PGSIZE. Z.div_mod_to_equations. lia. }
  rewrite (u32_small (_ - _)) by (unfold PGSIZE; lia).
  replace ((v + Z.of_nat (Z.to_nat (n - 1))) * PGSIZE - v * PGSIZE) with (Z.of_nat (Z.to_nat (n - 1)) * PGSIZE) by lia.
  rewrite Z.div_mul, Nat2Z.id by done.
  assert (n = Z.of_nat (S (Z.to_nat (n - 1)))) as En by lia.
  eapply wp_mono; [apply mappages_loop_spec; try done; rewrite <- ?En; (done || lia)|].
  rewrite <- En. done.
Qed.
End vm_proofs.
