(* ===== verification/Uvm.v ===== *)
(** * User address spaces (vm.c)

    The user half of an address space is a map from page numbers to pages
    and flags.  [uvm] relates it to the page table in memory, with every
    page of the machine in one place: a table, a user page, a free page, or
    a page the running code holds.  The theorems give the effect of the
    operations of vm.c on the user pages, and show that no page is lost. *)

From stdpp Require Import base numbers list option strings gmap.
From S2P Require Import Prelude Kernel Fields Mmu Spinlock Proc Cprintf Cstring Kalloc Vm.

(** User pages: the page and the flags of every mapped page number. *)
Abbreviation umap := (gmap Z (Z * Z)).

(** Page numbers of the user half: KERNBASE is 2^19 pages. *)
Definition user_vpn (v : Z) : Prop := 0 <= v < 2 ^ 19.

Section uvm.
Context `{LinkOk}.

Definition upages (U : umap) : list Z := (fun x => x.2.1) <$> map_to_list U.

Definition owned (pgdir : Z) (T : gmap Z Z) (U : umap) (l X : list Z) : list Z :=
  pt_pages pgdir T ++ upages U ++ l ++ X.

(** [l] are the free pages, [X] the pages held by the running code. *)
Record uvm (s : kernel) (pgdir : Z) (T : gmap Z Z) (U : umap) (l X : list Z) : Prop := {
  u_vm : vm_ok s pgdir T l;
  u_nodup : NoDup (owned pgdir T U l X);
  u_pages : Forall page_ok (owned pgdir T U l X);
  u_some : forall v p f, U !! v = Some (p, f) ->
    user_vpn v /\ 0 <= f < PGSIZE /\ f mod 2 = 1 /\ entry (k_mem s) T v = mkpte p f;
  u_none : forall v, user_vpn v -> U !! v = None -> Z.land (entry (k_mem s) T v) PTE_P = 0;
}.

(** Memory, the free list and the screen may change. *)
Definition uframe (s s' : kernel) : Prop :=
  (exists m f o c p, s' = set_k_mem m (set_k_freelist f (set_k_out o (set_k_crt c (set_k_cursor p s))))) /\
  (cursor_ok s -> cursor_ok s').

(** A step on an address space that keeps the user pages [W]: every page is
    still in one of the lists, pages of other owners and those of [W] keep
    their contents, and the kernel half is unchanged. *)
Record ustep (W : umap) (s : kernel) (pgdir : Z) (T : gmap Z Z) (U : umap) (l X : list Z)
    (s' : kernel) (T' : gmap Z Z) (U' : umap) (l' X' : list Z) : Prop := {
  us_ok : uvm s' pgdir T' U' l' X';
  us_frame : uframe s s';
  us_perm : owned pgdir T' U' l' X' ≡ₚ owned pgdir T U l X;
  us_sub : T ⊆ T';
  us_old : W ⊆ U;
  us_new : W ⊆ U';
  us_keep : forall v x, W !! v = Some x -> same_on (k_mem s) (k_mem s') x.1;
  us_out : forall p, page_ok p -> p ∉ owned pgdir T U l X -> same_on (k_mem s) (k_mem s') p;
  us_kern : forall v, 2 ^ 19 <= v -> entry (k_mem s') T' v = entry (k_mem s) T v;
}.

#[local] Arguments us_ok {_ _ _ _ _ _ _ _ _ _ _ _} _.
#[local] Arguments us_frame {_ _ _ _ _ _ _ _ _ _ _ _} _.
#[local] Arguments us_new {_ _ _ _ _ _ _ _ _ _ _ _} _.
#[local] Arguments us_keep {_ _ _ _ _ _ _ _ _ _ _ _} _.

(** ** Frames *)

Lemma uframe_refl s : uframe s s.
Proof.
  split; [|done]. exists (k_mem s), (k_freelist s), (k_out s), (k_crt s), (k_cursor s). by destruct s.
Qed.

Lemma uframe_trans s1 s2 s3 : uframe s1 s2 -> uframe s2 s3 -> uframe s1 s3.
Proof.
  intros [(m & f & o & c & p & ->) H1] [(m' & f' & o' & c' & p' & ->) H2]. split; [|auto].
  by exists m', f', o', c', p'.
Qed.

Lemma uframe_mframe s s' : mframe s s' -> uframe s s'.
Proof.
  intros (m & f & ->). split; [|done]. exists m, f, (k_out s), (k_crt s), (k_cursor s). by destruct s.
Qed.

Lemma uframe_printed s s' : printed s s' -> uframe s s'.
Proof.
  intros [(o & c & p & ->) Hc]. split; [|done]. exists (k_mem s), (k_freelist s), o, c, p. by destruct s.
Qed.

Lemma uframe_held s s' : uframe s s' -> k_held s' = k_held s.
Proof. by intros [(m & f & o & c & p & ->) _]. Qed.

Lemma uframe_cursor s s' : uframe s s' -> cursor_ok s -> cursor_ok s'.
Proof. by intros [_ Hc]. Qed.

Lemma ustep_refl W s pgdir T U l X :
  uvm s pgdir T U l X -> W ⊆ U -> ustep W s pgdir T U l X s T U l X.
Proof. intros Hu HW. split; try done. apply uframe_refl. Qed.

Lemma ustep_trans W s1 pgdir T1 U1 l1 X1 s2 T2 U2 l2 X2 s3 T3 U3 l3 X3 :
  ustep W s1 pgdir T1 U1 l1 X1 s2 T2 U2 l2 X2 -> ustep W s2 pgdir T2 U2 l2 X2 s3 T3 U3 l3 X3 ->
  ustep W s1 pgdir T1 U1 l1 X1 s3 T3 U3 l3 X3.
Proof.
  intros [A1 A2 A3 A4 A5 A6 A7 A8 A9] [B1 B2 B3 B4 B5 B6 B7 B8 B9]. split; try done.
  - by eapply uframe_trans.
  - by rewrite B3.
  - by etrans.
  - intros v x Hx. eapply same_on_trans; eauto.
  - intros p Hp Hn. eapply same_on_trans; [by apply A8|]. apply B8; [done|]. by rewrite A3.
  - intros v Hv. by rewrite B9, A9.
Qed.

(** Fewer pages to keep. *)
Lemma ustep_weaken W W' s pgdir T U l X s' T' U' l' X' :
  W' ⊆ W -> ustep W s pgdir T U l X s' T' U' l' X' -> ustep W' s pgdir T U l X s' T' U' l' X'.
Proof.
  intros HW [A1 A2 A3 A4 A5 A6 A7 A8 A9]. split; try done; [by etrans..|].
  intros v x Hx. eapply A7. by eapply lookup_weaken.
Qed.

(** ** Pages *)

Lemma upages_elem U v x : U !! v = Some x -> x.1 ∈ upages U.
Proof.
  intros HU. apply list_elem_of_fmap. exists (v, x). split; [done|]. by apply elem_of_map_to_list.
Qed.

Lemma elem_of_upages U p : p ∈ upages U -> exists v f, U !! v = Some (p, f).
Proof.
  intros ([v [q f]] & -> & Hin%elem_of_map_to_list)%list_elem_of_fmap. by exists v, f.
Qed.

Lemma upages_insert U v x : U !! v = None -> upages (<[v:=x]> U) ≡ₚ x.1 :: upages U.
Proof. intros HU. unfold upages. by rewrite map_to_list_insert. Qed.

Lemma upages_delete U v x : U !! v = Some x -> upages U ≡ₚ x.1 :: upages (delete v U).
Proof. intros HU. unfold upages. by rewrite <- (map_to_list_delete U v x HU). Qed.

Lemma owned_table pgdir T U l X p : p ∈ pt_pages pgdir T -> p ∈ owned pgdir T U l X.
Proof. intros Hp. apply elem_of_app. by left. Qed.
Lemma owned_user pgdir T U l X p : p ∈ upages U -> p ∈ owned pgdir T U l X.
Proof. intros Hp. unfold owned. rewrite !elem_of_app. auto. Qed.
Lemma owned_free pgdir T U l X p : p ∈ l -> p ∈ owned pgdir T U l X.
Proof. intros Hp. unfold owned. rewrite !elem_of_app. auto. Qed.
Lemma owned_held pgdir T U l X p : p ∈ X -> p ∈ owned pgdir T U l X.
Proof. intros Hp. unfold owned. rewrite !elem_of_app. auto. Qed.

Lemma uvm_page s pgdir T U l X p : uvm s pgdir T U l X -> p ∈ owned pgdir T U l X -> page_ok p.
Proof. intros Hu Hp. exact (proj1 (Forall_forall _ _) (u_pages _ _ _ _ _ _ Hu) p Hp). Qed.

(** [owned] up to the order of the pages. *)
Ltac perm := unfold owned; solve_Permutation.

Lemma uvm_perm s pgdir T U l X X' : X ≡ₚ X' -> uvm s pgdir T U l X -> uvm s pgdir T U l X'.
Proof.
  intros HX [H1 H2 H3 H4 H5]. assert (owned pgdir T U l X ≡ₚ owned pgdir T U l X') as E.
  { unfold owned. by rewrite HX. }
  split; try done; by rewrite <- E.
Qed.

(** The page at the head of the free list or of the held pages is in no other place. *)
Lemma owned_distinct s pgdir T U l X A p :
  uvm s pgdir T U l X -> owned pgdir T U l X ≡ₚ p :: A -> page_ok p /\ p ∉ A.
Proof.
  intros Hu E. split.
  - eapply uvm_page; [exact Hu|]. rewrite E. by left.
  - pose proof (u_nodup _ _ _ _ _ _ Hu) as Hn. rewrite E in Hn. by apply NoDup_cons in Hn as [? _].
Qed.

Lemma uvm_frame s s' pgdir T U l X :
  uvm s pgdir T U l X -> k_freelist s' = k_freelist s ->
  (forall p, p ∈ pt_pages pgdir T ++ l -> same_on (k_mem s) (k_mem s') p) ->
  uvm s' pgdir T U l X /\ forall v, entry (k_mem s') T v = entry (k_mem s) T v.
Proof.
  intros [H1 H2 H3 H4 H5] Hf Hs. destruct (vm_frame s s' pgdir T l H1 Hf Hs) as [Hv He].
  split; [|done]. split; try done; setoid_rewrite He; done.
Qed.

Lemma owned_hold pgdir T U l X p : owned pgdir T U l (p :: X) ≡ₚ p :: owned pgdir T U l X.
Proof. perm. Qed.
Lemma owned_pop pgdir T U l X p : owned pgdir T U (p :: l) X ≡ₚ p :: owned pgdir T U l X.
Proof. perm. Qed.

(** Writing to a held page. *)
Lemma ustep_held s m pgdir T U l X p :
  uvm s pgdir T U l (p :: X) ->
  (forall q, page_ok q -> q <> p -> same_on (k_mem s) m q) ->
  ustep U s pgdir T U l (p :: X) (set_k_mem m s) T U l (p :: X).
Proof.
  intros Hu Hs. destruct (owned_distinct _ _ _ _ _ _ _ _ Hu (owned_hold _ _ _ _ _ _)) as [Hp Hn].
  assert (forall q, q ∈ owned pgdir T U l X -> same_on (k_mem s) m q) as Hs'.
  { intros q Hq. apply Hs; [|by intros ->]. eapply uvm_page; [exact Hu|]. rewrite owned_hold. by right. }
  destruct (uvm_frame s (set_k_mem m s) _ _ _ _ _ Hu eq_refl) as [Hu' He].
  { intros q [Hq|Hq]%elem_of_app; apply Hs'; [by apply owned_table|by apply owned_free]. }
  split; try done.
  - apply uframe_mframe, mframe_mem.
  - intros v x Hx. by eapply Hs', owned_user, upages_elem.
  - intros q Hq Ho. apply Hs; [done|]. intros ->. apply Ho. rewrite owned_hold. by left.
Qed.

(** Taking a page from the free list, and putting it back. *)
Lemma ustep_pop s pgdir T U l X p :
  uvm s pgdir T U (p :: l) X ->
  ustep U s pgdir T U (p :: l) X (set_k_freelist (load32 (k_mem s) p) s) T U l (p :: X).
Proof.
  intros Hu. assert (owned pgdir T U l (p :: X) ≡ₚ owned pgdir T U (p :: l) X) as E by perm.
  destruct Hu as [[V1 V2 V3 V4 V5] H2 H3 H4 H5]. split; try done.
  - split; kproj; try done; [|by rewrite E..]. split; kproj; try done.
    + by apply kmem_ok_pop.
    + rewrite <- Permutation_middle in V2. by apply NoDup_cons in V2 as [_ ?].
  - apply uframe_mframe, mframe_free.
Qed.

Lemma ustep_push s pgdir T U l X p :
  uvm s pgdir T U l (p :: X) ->
  ustep U s pgdir T U l (p :: X)
    (set_k_freelist p (set_k_mem (freed p (k_freelist s) (k_mem s)) s)) T U (p :: l) X.
Proof.
  intros Hu. assert (owned pgdir T U (p :: l) X ≡ₚ owned pgdir T U l (p :: X)) as E by perm.
  destruct (owned_distinct _ _ _ _ _ _ _ _ Hu (owned_hold _ _ _ _ _ _)) as [Hp Hn].
  set (m := freed p (k_freelist s) (k_mem s)).
  destruct (ustep_held s m pgdir T U l X p Hu) as [[[V1 V2 V3 V4 V5] H2 H3 H4 H5] A2 A3 A4 A5 A6 A7 A8 A9].
  { intros q Hq Hne. by apply same_on_freed. }
  split; try done.
  - split; kproj; [|by rewrite E..|done|done]. split; kproj; try done.
    + eapply kmem_ok_push; [apply Hu|done|]. intros Hl. by apply Hn, owned_free.
    + rewrite <- Permutation_middle. constructor; [|done].
      intros [Ht|Hl]%elem_of_app; apply Hn; [by apply owned_table|by apply owned_free].
  - apply uframe_mframe. eapply mframe_trans; [apply mframe_mem|apply mframe_free].
Qed.

(** Printing. *)
Lemma ustep_printed W s s' pgdir T U l X :
  uvm s pgdir T U l X -> W ⊆ U -> printed s s' -> ustep W s pgdir T U l X s' T U l X.
Proof.
  intros Hu HW Hp. pose proof (uframe_printed _ _ Hp) as Hf. destruct Hp as [(o & c & p & ->) Hc].
  split; try done. by apply (uvm_frame s).
Qed.

(** Page-table steps that change no entry. *)
Lemma vm_step_owned s pgdir T l s' T' l' U X :
  vm_step s pgdir T l s' T' l' -> owned pgdir T' U l' X ≡ₚ owned pgdir T U l X.
Proof.
  intros Hst. transitivity ((pt_pages pgdir T' ++ l') ++ upages U ++ X); [perm|].
  rewrite (vs_perm _ _ _ _ _ _ _ Hst). perm.
Qed.

Lemma user_not_table s pgdir T U l X v x :
  uvm s pgdir T U l X -> U !! v = Some x -> page_ok x.1 /\ x.1 ∉ pt_pages pgdir T ++ l.
Proof.
  intros Hu Hx. split; [by eapply uvm_page, owned_user, upages_elem|].
  pose proof (u_nodup _ _ _ _ _ _ Hu) as Hn.
  assert (owned pgdir T U l X ≡ₚ upages U ++ (pt_pages pgdir T ++ l) ++ X) as E by perm.
  rewrite E in Hn. apply NoDup_app in Hn as (_ & Hn & _). intros Hin.
  apply (Hn x.1); [by eapply upages_elem|]. apply elem_of_app. by left.
Qed.

Lemma ustep_tables s pgdir T l s' T' l' U X :
  uvm s pgdir T U l X -> vm_step s pgdir T l s' T' l' ->
  (forall v, entry (k_mem s') T' v = entry (k_mem s) T v) ->
  ustep U s pgdir T U l X s' T' U l' X.
Proof.
  intros Hu Hst He. pose proof (vm_step_owned _ _ _ _ _ _ _ U X Hst) as E. pose proof Hu as [H1 H2 H3 H4 H5].
  split; try done.
  - split; [by eapply vs_ok|by rewrite E..| |]; setoid_rewrite He; done.
  - eapply uframe_mframe, vs_frame, Hst.
  - by eapply vs_sub.
  - intros v x Hx. destruct (user_not_table _ _ _ _ _ _ _ _ Hu Hx). by eapply vs_out.
  - intros p Hp Hn. eapply vs_out; [done..|]. intros [Ht|Hl]%elem_of_app; apply Hn; [by apply owned_table|by apply owned_free].
Qed.

(** Entering the held page [p] at page number [v]. *)
Lemma ustep_map s pgdir T l s' T' l' U X v p f :
  uvm s pgdir T U l (p :: X) -> vm_step s pgdir T l s' T' l' -> user_vpn v -> U !! v = None ->
  0 <= f < PGSIZE -> f mod 2 = 1 ->
  (forall u, entry (k_mem s') T' u = if u =? v then mkpte p f else entry (k_mem s) T u) ->
  ustep U s pgdir T U l (p :: X) s' T' (<[v:=(p, f)]> U) l' X.
Proof.
  intros Hu Hst Hv HU Hf Hf1 He.
  assert (owned pgdir T' (<[v:=(p, f)]> U) l' X ≡ₚ owned pgdir T U l (p :: X)) as E.
  { rewrite <- (vm_step_owned _ _ _ _ _ _ _ U (p :: X) Hst). unfold owned. rewrite upages_insert by done. perm. }
  pose proof Hu as [H1 H2 H3 H4 H5]. split; try done.
  - split; [by eapply vs_ok|by rewrite E..| |].
    + intros u q g Hq. rewrite He. destruct (Z.eqb_spec u v) as [->|Hne].
      * rewrite lookup_insert_eq in Hq. by simplify_eq.
      * rewrite lookup_insert_ne in Hq by done. by apply H4.
    + intros u Hu' Hn. rewrite He. destruct (Z.eqb_spec u v) as [->|Hne]; [by rewrite lookup_insert_eq in Hn|].
      rewrite lookup_insert_ne in Hn by done. by apply H5.
  - eapply uframe_mframe, vs_frame, Hst.
  - by eapply vs_sub.
  - by apply insert_subseteq.
  - intros u x Hx. destruct (user_not_table _ _ _ _ _ _ _ _ Hu Hx). by eapply vs_out.
  - intros q Hq Hn. eapply vs_out; [done..|]. intros [Ht|Hl]%elem_of_app; apply Hn; [by apply owned_table|by apply owned_free].
  - intros u Hu'. rewrite He, (proj2 (Z.eqb_neq _ _)); [done|]. unfold user_vpn in Hv. lia.
Qed.

(** A mapped page number has a table. *)
Lemma uvm_table s pgdir T U l X v x : uvm s pgdir T U l X -> U !! v = Some x -> is_Some (T !! (v / 1024)).
Proof.
  intros Hu HU. destruct x as [p f]. destruct (u_some _ _ _ _ _ _ Hu _ _ _ HU) as (_ & Hf & Hf1 & He).
  unfold entry in He. destruct (T !! (v / 1024)) as [t|]; [by exists t|]. exfalso.
  assert (page_ok p) as Hp by (eapply uvm_page, owned_user, (upages_elem _ _ _ HU); done).
  destruct (V2P_page p Hp) as (_ & Hr & _). unfold mkpte in He. assert (f = 0) by lia. by subst f.
Qed.

(** Clearing the entry of page number [v]. *)
Lemma ustep_unmap s pgdir T l U X v p f :
  uvm s pgdir T U l X -> U !! v = Some (p, f) ->
  ustep (delete v U) s pgdir T U l X
    (set_k_mem (store32 (k_mem s) (pte_addr T v) 0) s) T (delete v U) l (p :: X).
Proof.
  intros Hu HU. pose proof Hu as [H1 H2 H3 H4 H5]. destruct (H4 v p f HU) as (Hv & Hf & Hf1 & He).
  destruct (uvm_table _ _ _ _ _ _ _ _ Hu HU) as [t Ht].
  destruct (set_entry s pgdir T l v t 0 H1 Ht) as [Hst He']. set (s' := set_k_mem _ s) in *.
  assert (owned pgdir T (delete v U) l (p :: X) ≡ₚ owned pgdir T U l X) as E.
  { unfold owned. rewrite (upages_delete U v (p, f) HU). perm. }
  split; try done.
  - split; [by eapply vs_ok|by rewrite E..| |].
    + intros u q g [Hne Hq]%lookup_delete_Some. rewrite He', (proj2 (Z.eqb_neq _ _)) by done. by apply H4.
    + intros u Hu' Hn. rewrite He'. destruct (Z.eqb_spec u v) as [->|Hne]; [done|].
      rewrite lookup_delete_ne in Hn by done. by apply H5.
  - eapply uframe_mframe, vs_frame, Hst.
  - apply delete_subseteq.
  - intros u x [_ Hx]%lookup_delete_Some. destruct (user_not_table _ _ _ _ _ _ _ _ Hu Hx). by eapply vs_out.
  - intros q Hq Hn. eapply vs_out; [done..|]. intros [Hi|Hl]%elem_of_app; apply Hn; [by apply owned_table|by apply owned_free].
  - intros u Hu'. rewrite He', (proj2 (Z.eqb_neq _ _)); [done|]. unfold user_vpn in Hv. lia.
Qed.

Lemma ustep_ext W s pgdir T U l X s1 s2 T' U' l' X' :
  ustep W s pgdir T U l X s1 T' U' l' X' -> mframe s1 s2 -> k_freelist s2 = k_freelist s1 ->
  (forall a, k_mem s2 a = k_mem s1 a) -> ustep W s pgdir T U l X s2 T' U' l' X'.
Proof.
  intros [A1 A2 A3 A4 A5 A6 A7 A8 A9] Hm Hf Hs.
  destruct (uvm_frame s1 s2 _ _ _ _ _ A1 Hf (fun _ _ a _ => Hs a)) as [Hu He].
  split; try done.
  - eapply uframe_trans; [done|]. by apply uframe_mframe.
  - intros v x Hx. eapply same_on_trans; [by eapply A7|]. intros a _. apply Hs.
  - intros p Hp Hn. eapply same_on_trans; [by apply A8|]. intros a _. apply Hs.
  - intros v Hv. by rewrite He, A9.
Qed.

(** ** Removing user pages *)

(** The user pages without page numbers [v] to [e - 1]. *)
Definition ucut (U : umap) (v e : Z) : umap := filter (fun x => ~ (v <= x.1 < e)) U.

Lemma lookup_ucut U v e u : ucut U v e !! u = if (v <=? u) && (u <? e) then None else U !! u.
Proof.
  unfold ucut. destruct (U !! u) as [x|] eqn:HU.
  - destruct (decide (v <= u < e)) as [Hr|Hr].
    + rewrite map_lookup_filter_None_2; [|right; intros y Hy; simplify_eq; simpl; tauto]. by zcases.
    + rewrite (map_lookup_filter_Some_2 _ _ _ x) by done. by zcases.
  - rewrite map_lookup_filter_None_2 by auto. by destruct (_ && _).
Qed.

Lemma ucut_sub U v e : ucut U v e ⊆ U.
Proof. apply map_filter_subseteq. Qed.

Lemma ucut_empty U v e : e <= v -> ucut U v e = U.
Proof. intros Hv. apply map_eq. intros u. rewrite lookup_ucut. by zcases. Qed.

Lemma ucut_delete U v e : v < e -> ucut (delete v U) (v + 1) e = ucut U v e.
Proof.
  intros Hv. apply map_eq. intros u. rewrite !lookup_ucut. destruct (decide (u = v)) as [->|Hne].
  - rewrite lookup_delete_eq. by zcases.
  - rewrite lookup_delete_ne by done. by zcases.
Qed.

Lemma ucut_skip U v v' e :
  v <= v' -> (forall u, v <= u < v' -> u < e -> U !! u = None) -> ucut U v' e = ucut U v e.
Proof.
  intros Hv Hn. apply map_eq. intros u. rewrite !lookup_ucut.
  destruct (decide (v <= u < v' /\ u < e)) as [[Hu He]|Hu]; [rewrite (Hn u Hu He)|]; by zcases.
Qed.

Lemma mframe_swap s p m0 m1 m2 m3 :
  mframe (set_k_freelist p (set_k_mem m1 (set_k_mem m0 s))) (set_k_mem m2 (set_k_freelist p (set_k_mem m3 s))).
Proof. exists m2, p. by destruct s. Qed.

(** Freeing the page at [v] and clearing its entry. *)
Lemma unmap_page s pgdir T U l X v p f :
  uvm s pgdir T U l X -> U !! v = Some (p, f) ->
  ustep (delete v U) s pgdir T U l X
    (set_k_mem (store32 (freed p (k_freelist s) (k_mem s)) (pte_addr T v) 0)
      (set_k_freelist p (set_k_mem (freed p (k_freelist s) (k_mem s)) s))) T (delete v U) (p :: l) X.
Proof.
  intros Hu HU. destruct (user_not_table _ _ _ _ _ _ _ _ Hu HU) as [Hp Hn]. cbn [fst] in *.
  destruct (uvm_table _ _ _ _ _ _ _ _ Hu HU) as [t Ht].
  assert (t ∈ pt_pages pgdir T) as Hin by by eapply pt_pages_elem.
  assert (page_ok t) as Hto by (eapply uvm_page, owned_table, Hin; done).
  assert (t <> p) as Htp by (intros ->; apply Hn, elem_of_app; by left).
  pose proof (ustep_unmap _ _ _ _ _ _ _ _ _ Hu HU) as H1.
  pose proof (ustep_push _ _ _ _ _ _ _ (us_ok H1)) as H2.
  eapply ustep_ext; [by eapply ustep_trans|..]; kproj; [|done|].
  - apply mframe_swap.
  - intros a. unfold pte_addr. rewrite Ht. pose proof (Z.mod_pos_bound v 1024 ltac:(lia)).
    set (b := t + 4 * (v mod 1024)). pose proof (page_disjoint t p Hto Hp Htp) as Hd.
    destruct (decide (p <= a < p + PGSIZE)) as [Ha|Ha].
    + rewrite store32_other by (unfold b, PGSIZE in *; lia). unfold freed.
      destruct (decide (a < p + 4)); [by apply store32_ext; left; lia|].
      rewrite !store32_other, !memset_spec by (unfold PGSIZE; lia). unfold PGSIZE in *. by zcases.
    + rewrite (freed_other p _ _ a) by done. apply store32_ext. right. by apply freed_other.
Qed.

(** Pages that hold the bytes below [sz]. *)
Definition npages (sz : Z) : Z := (sz + PGSIZE - 1) / PGSIZE.

Lemma next_table v :
  user_vpn v -> u32 (u32 (PGADDR (PDX (v * PGSIZE) + 1) 0 0 - PGSIZE) + PGSIZE) = (v / 1024 + 1) * 1024 * PGSIZE.
Proof.
  unfold user_vpn. intros Hv. rewrite PDX_vpn, Z.div_mul by (unfold PGSIZE; lia).
  assert (0 <= v / 1024 < 512) by (Z.div_mod_to_equations; lia). unfold PGADDR.
  rewrite !Z.lor_0_r, Z.shiftl_mul_pow2 by lia.
  rewrite (u32_small (_ * 2 ^ 22)) by lia. rewrite (u32_small (_ - PGSIZE)), u32_small; unfold PGSIZE; lia.
Qed.

Lemma u32_page_succ v : user_vpn v -> u32 (v * PGSIZE + PGSIZE) = (v + 1) * PGSIZE.
Proof. unfold user_vpn, PGSIZE. intros Hv. rewrite u32_small; lia. Qed.

(** The body of the loop for an entry in a table. *)
Lemma dealloc_entry s pgdir T U l X v t :
  uvm s pgdir T U l X -> L_kmem ∉ k_held s -> user_vpn v -> T !! (v / 1024) = Some t ->
  wp (when (negb (Z.land (load32 (k_mem s) (pte_addr T v)) PTE_P =? 0))
        (let pa := PTE_ADDR (load32 (k_mem s) (pte_addr T v)) in
         if pa =? 0 then panic "kfree" else
         kfree (P2V pa) ;;
         m <- get_mem ;;
         set_mem (store32 m (pte_addr T v) 0))) s
    (fun _ s' => exists l', ustep (delete v U) s pgdir T U l X s' T (delete v U) l' X).
Proof.
  intros Hu Hh Hv HT.
  assert (load32 (k_mem s) (pte_addr T v) = entry (k_mem s) T v) as El by (unfold pte_addr, entry; by rewrite HT).
  rewrite El. destruct (U !! v) as [[p f]|] eqn:HU.
  - destruct (u_some _ _ _ _ _ _ Hu _ _ _ HU) as (_ & Hf & Hf1 & He).
    destruct (user_not_table _ _ _ _ _ _ _ _ Hu HU) as [Hp _]. cbn [fst] in Hp.
    pose proof (page_ok_pos p Hp). destruct (V2P_page p Hp) as (EV & _ & _).
    rewrite He, mkpte_P, Hf1, mkpte_addr by done. cbn [Z.eqb negb when].
    rewrite (proj2 (Z.eqb_neq (V2P p) 0)), P2V_V2P by (done || lia).
    apply wp_bind. eapply wp_run; [by apply kfree_run|]. eapply wp_run; [unfold get_mem; krun; reflexivity|].
    kproj. exists (p :: l). by eapply unmap_page.
  - rewrite (u_none _ _ _ _ _ _ Hu v Hv HU). cbn [Z.eqb negb when]. apply wp_ret. exists l.
    rewrite delete_id by done. by apply ustep_refl.
Qed.

Lemma deallocuvm_loop_spec fuel : forall s v U l pgdir T X oldsz,
  uvm s pgdir T U l X -> L_kmem ∉ k_held s -> 0 <= oldsz <= KERNBASE -> 0 <= v ->
  Z.max 0 (npages oldsz - v) < Z.of_nat fuel -> v <= 2 ^ 20 - 1024 ->
  wp (deallocuvm_loop fuel pgdir (v * PGSIZE) oldsz) s (fun _ s' =>
    exists l', ustep (ucut U v (npages oldsz)) s pgdir T U l X s' T (ucut U v (npages oldsz)) l' X).
Proof.
  induction fuel as [|fuel IH]; intros s v U l pgdir T X oldsz Hu Hh Ho Hv0 Hfuel Hv1.
  { lia. }
  cbn [deallocuvm_loop]. unfold KERNBASE in Ho. destruct (Z.ltb_spec (v * PGSIZE) oldsz) as [Hlt|Hge]; cbn [negb].
  2:{ apply wp_ret. exists l. rewrite ucut_empty; [by apply ustep_refl|].
      unfold npages, PGSIZE in *. Z.div_mod_to_equations. lia. }
  assert (v < npages oldsz) as Hn by (unfold npages, PGSIZE in *; Z.div_mod_to_equations; lia).
  assert (user_vpn v) as Huv by (unfold user_vpn, PGSIZE in *; lia).
  apply wp_bind. eapply wp_run.
  { eapply walk_false; [apply Hu|]. unfold PGSIZE in *. lia. }
  rewrite Z.div_mul by done.
  destruct (T !! (v / 1024)) as [t|] eqn:HT.
  - rewrite (proj2 (Z.eqb_neq _ _)) by (by eapply pte_addr_ne0; [apply Hu|]).
    apply wp_bind, wp_bind. eapply wp_run; [reflexivity|]. apply wp_bind.
    eapply wp_mono; [by eapply dealloc_entry|]. intros _ s1 (l1 & Hst). apply wp_ret.
    rewrite u32_page_succ by done.
    eapply wp_mono; [apply (IH s1 (v + 1) (delete v U) l1 pgdir T X oldsz)|].
    + exact (us_ok Hst).
    + by rewrite (uframe_held _ _ (us_frame Hst)).
    + unfold KERNBASE. lia.
    + lia.
    + lia.
    + unfold user_vpn in Huv. lia.
    + intros ? s2 (l' & Hst2). rewrite ucut_delete in Hst2 by done. exists l'.
      eapply ustep_trans; [|exact Hst2]. eapply ustep_weaken; [|exact Hst].
      rewrite <- ucut_delete by done. apply ucut_sub.
  - assert (pte_addr T v = 0) as -> by (unfold pte_addr; by rewrite HT). cbn [Z.eqb].
    apply wp_bind, wp_ret. rewrite next_table by done.
    assert (forall u, v <= u < (v / 1024 + 1) * 1024 -> U !! u = None) as Hskip.
    { intros u Hr. destruct (U !! u) as [x|] eqn:E; [|done].
      destruct (uvm_table _ _ _ _ _ _ _ _ Hu E) as [t Ht].
      assert (u / 1024 = v / 1024) as E' by (Z.div_mod_to_equations; lia). by rewrite E', HT in Ht. }
    eapply wp_mono; [apply (IH s ((v / 1024 + 1) * 1024) U l pgdir T X oldsz Hu Hh)|];
      [unfold KERNBASE; lia|Z.div_mod_to_equations; lia..| |].
    + unfold user_vpn in Huv. Z.div_mod_to_equations; lia.
    + intros ? s' Hs. rewrite (ucut_skip U v) in Hs; [done|Z.div_mod_to_equations; lia|auto].
Qed.

Lemma PGROUNDUP_npages sz : 0 <= sz <= KERNBASE -> PGROUNDUP sz = npages sz * PGSIZE.
Proof. intros Hs. apply PGROUNDUP_spec; unfold KERNBASE, PGSIZE in *; lia. Qed.

Lemma npages_range sz : 0 <= sz <= KERNBASE -> 0 <= npages sz <= 2 ^ 19.
Proof. unfold npages, KERNBASE, PGSIZE. intros Hs. Z.div_mod_to_equations. lia. Qed.

Lemma npages_mono a b : a <= b -> npages a <= npages b.
Proof. intros Hab. apply Z.div_le_mono; [done|lia]. Qed.

Lemma deallocuvm_spec s pgdir T U l X oldsz newsz :
  uvm s pgdir T U l X -> L_kmem ∉ k_held s -> 0 <= oldsz <= KERNBASE -> 0 <= newsz ->
  wp (deallocuvm pgdir oldsz newsz) s (fun r s' => r = Z.min oldsz newsz /\
    exists l', ustep (ucut U (npages newsz) (npages oldsz)) s pgdir T U l X
                 s' T (ucut U (npages newsz) (npages oldsz)) l' X).
Proof.
  intros Hu Hh Ho Hn. unfold deallocuvm. destruct (Z.leb_spec oldsz newsz) as [Hle|Hlt].
  - apply wp_ret. split; [lia|]. exists l. rewrite ucut_empty by (by apply npages_mono). by apply ustep_refl.
  - pose proof (npages_range oldsz ltac:(lia)). pose proof (npages_range newsz ltac:(lia)).
    apply wp_bind. rewrite PGROUNDUP_npages by lia.
    eapply wp_mono; [apply (deallocuvm_loop_spec _ s _ U l pgdir T X); try done; try lia|].
    + unfold npages, PGSIZE, KERNBASE in *. Z.div_mod_to_equations. lia.
    + intros ? s' Hs. apply wp_ret. split; [lia|exact Hs].
Qed.

(** ** Adding user pages *)

Lemma lor_1_odd perm : 0 <= perm -> Z.lor perm 1 mod 2 = 1.
Proof.
  intros Hp. rewrite <- land_1. apply Z.bits_inj'. intros k Hk.
  rewrite Z.land_spec, Z.lor_spec. by destruct (Z.testbit perm k), (Z.testbit 1 k).
Qed.

Lemma map_page s pgdir T U l X v p perm :
  uvm s pgdir T U l (p :: X) -> L_kmem ∉ k_held s -> user_vpn v -> U !! v = None -> 0 <= perm < PGSIZE ->
  wp (mappages pgdir (v * PGSIZE) PGSIZE (V2P p) perm) s (fun r s' => exists T' l',
    (r = 0 /\ ustep U s pgdir T U l (p :: X) s' T' (<[v:=(p, Z.lor perm 1)]> U) l' X /\
       same_on (k_mem s) (k_mem s') p) \/
    (r = -1 /\ l' = [] /\ ustep U s pgdir T U l (p :: X) s' T' U l' (p :: X))).
Proof.
  intros Hu Hh Hv HU Hp. destruct (owned_distinct _ _ _ _ _ _ _ _ Hu (owned_hold _ _ _ _ _ _)) as [Hpo Hno].
  destruct (V2P_page p Hpo) as (_ & Hr & Ha). pose proof (lor_perm perm Hp) as Hl.
  eapply wp_mono.
  { replace PGSIZE with (1 * PGSIZE) at 2 by done.
    apply (mappages_spec 1 s pgdir T l); unfold user_vpn, PGSIZE, PHYSTOP in *; try lia; try done.
    - apply Hu.
    - intros u Hu'. assert (u = v) as -> by lia. by apply (u_none _ _ _ _ _ _ Hu). }
  intros r s' (T' & l' & k & Hst & Hr' & He). exists T', l'.
  destruct Hr' as [[-> ->]|(-> & Hk & ->)]; [left|right].
  - split; [done|]. split.
    + eapply ustep_map; try done; [apply lor_1_odd; lia|]. intros u. rewrite He. unfold in_range, mkpte.
      destruct (Z.eqb_spec u v) as [->|]; zcases; simpl; try done. lia.
    + eapply vs_out; [done..|]. intros [Ht|Ht]%elem_of_app; apply Hno; [by apply owned_table|by apply owned_free].
  - assert (k = 0) as -> by lia. split; [done|]. split; [done|].
    eapply ustep_tables; try done. intros u. rewrite He. unfold in_range. by zcases.
Qed.

Definition zeroed (m : memory) (p : Z) : Prop := forall a, p <= a < p + PGSIZE -> m a = 0.

(** Page numbers [v] to [e - 1] have new pages, writable, for the user, and
    filled with zeroes; the others are as before. *)
Definition grown (U U' : umap) (v e : Z) (m : memory) : Prop :=
  forall u, if (v <=? u) && (u <? e) then exists p, U' !! u = Some (p, 7) /\ zeroed m p
            else U' !! u = U !! u.

Lemma grown_refl U v e m : e <= v -> grown U U v e m.
Proof. intros Hv u. by zcases. Qed.

Lemma grown_step U U' v e p s pgdir T l X s' T' l' X' :
  v < e -> ustep (<[v:=(p, 7)]> U) s pgdir T (<[v:=(p, 7)]> U) l X s' T' U' l' X' ->
  zeroed (k_mem s) p -> grown (<[v:=(p, 7)]> U) U' (v + 1) e (k_mem s') -> grown U U' v e (k_mem s').
Proof.
  intros Hv Hst Hz Hg u. specialize (Hg u). destruct (decide (u = v)) as [->|Hne].
  - revert Hg. zcases; simpl. intros _. exists p.
    pose proof (us_new Hst) as Hn.
    split; [eapply lookup_weaken; [apply lookup_insert_eq|exact Hn]|].
    intros a Ha. rewrite (us_keep Hst v (p, 7)); [by apply Hz|apply lookup_insert_eq|done].
  - revert Hg. rewrite lookup_insert_ne by done. by zcases.
Qed.

(** What [allocuvm] promises from page [v] on, on success and on failure. *)
Definition alloc_post (pgdir oldsz newsz v : Z) (s : kernel) (T : gmap Z Z) (U : umap) (l X : list Z)
    (r : Z) (s' : kernel) : Prop :=
  (r = newsz /\ exists T' U' l', ustep U s pgdir T U l X s' T' U' l' X /\
     grown U U' v (npages newsz) (k_mem s')) \/
  (r = 0 /\ exists T' l', let W := ucut U (npages oldsz) (npages newsz) in
     ustep W s pgdir T U l X s' T' W l' X).

(** Giving up: the pages added so far are removed again. *)
Lemma alloc_fail msg s pgdir T U l X oldsz newsz :
  uvm s pgdir T U l X -> L_kmem ∉ k_held s -> L_cons ∉ k_held s -> cursor_ok s ->
  0 <= oldsz <= newsz -> newsz <= KERNBASE ->
  wp (cprintf msg [] ;; deallocuvm pgdir newsz oldsz) s (fun _ s' => exists l',
    let W := ucut U (npages oldsz) (npages newsz) in ustep W s pgdir T U l X s' T W l' X).
Proof.
  intros Hu Hh Hc Hcur Ho Hn. apply wp_bind. eapply wp_mono; [by apply cprintf_spec|].
  intros _ s1 [Hp _]. pose proof (ustep_printed _ _ _ _ _ _ _ _ Hu (reflexivity U) Hp) as Hst.
  eapply wp_mono; [apply (deallocuvm_spec s1 pgdir T U l X newsz oldsz)|]; [|..|lia|lia|].
  - by eapply us_ok.
  - by rewrite (uframe_held _ _ (us_frame Hst)).
  - intros r s2 (_ & l' & Hst2). exists l'. cbv zeta. eapply ustep_trans; [|exact Hst2].
    eapply ustep_weaken; [apply ucut_sub|exact Hst].
Qed.

(** A fresh page is taken and cleared. *)
Lemma fresh_page s pgdir T U l X p :
  uvm s pgdir T U (p :: l) X ->
  let s1 := set_k_mem (memset (k_mem s) p 0 PGSIZE) (set_k_freelist (load32 (k_mem s) p) s) in
  ustep U s pgdir T U (p :: l) X s1 T U l (p :: X) /\ zeroed (k_mem s1) p.
Proof.
  intros Hu s1. destruct (owned_distinct _ _ _ _ _ _ _ _ Hu (owned_pop _ _ _ _ _ _)) as [Hp _].
  pose proof (ustep_pop _ _ _ _ _ _ _ Hu) as H1. split.
  - eapply ustep_trans; [exact H1|]. apply (ustep_held _ _ _ _ _ _ _ _ (us_ok H1)).
    kproj. intros q Hq Hne. by apply same_on_memset.
  - intros a Ha. unfold s1. kproj. rewrite memset_spec by (unfold PGSIZE; lia). unfold PGSIZE in *. by zcases.
Qed.

Lemma ustep_held_locks W s pgdir T U l X s' T' U' l' X' lk :
  ustep W s pgdir T U l X s' T' U' l' X' -> lk ∉ k_held s -> lk ∉ k_held s'.
Proof. intros Hst. by rewrite (uframe_held _ _ (us_frame Hst)). Qed.

(** A round of [allocuvm]: the new page is mapped, or held when there is no
    memory for a table. *)
Lemma alloc_page s pgdir T U l X v p :
  uvm s pgdir T U (p :: l) X -> L_kmem ∉ k_held s -> user_vpn v -> U !! v = None ->
  wp (m <- get_mem ;; set_mem (memset m p 0 PGSIZE) ;;
      mappages pgdir (v * PGSIZE) PGSIZE (V2P p) (Z.lor PTE_W PTE_U))
    (set_k_freelist (load32 (k_mem s) p) s) (fun r s' => exists T' l',
    (r = 0 /\ ustep U s pgdir T U (p :: l) X s' T' (<[v:=(p, 7)]> U) l' X /\ zeroed (k_mem s') p) \/
    (r = -1 /\ ustep U s pgdir T U (p :: l) X s' T' U l' (p :: X))).
Proof.
  intros Hu Hh Hv HU. destruct (fresh_page _ _ _ _ _ _ _ Hu) as [Hst1 Hz1].
  apply wp_bind. eapply wp_run; [reflexivity|]. apply wp_bind. eapply wp_run; [reflexivity|]. kproj.
  set (s1 := set_k_mem _ _) in *.
  pose proof (ustep_held_locks _ _ _ _ _ _ _ _ _ _ _ _ L_kmem Hst1 Hh) as Hh1.
  eapply wp_mono; [apply (map_page s1 pgdir T U l X v p 6 (us_ok Hst1) Hh1 Hv HU); unfold PGSIZE; lia|].
  intros r s2 (T' & l' & [(-> & Hst2 & Hs)|(-> & _ & Hst2)]); exists T', l'; [left|right]; (split; [done|]).
  - split; [by eapply ustep_trans|]. intros a Ha. rewrite (Hs a Ha). auto.
  - by eapply ustep_trans.
Qed.

Lemma alloc_post_step pgdir oldsz newsz v s T U l X p s1 T1 l1 r s' :
  ustep U s pgdir T U l X s1 T1 (<[v:=(p, 7)]> U) l1 X -> zeroed (k_mem s1) p ->
  npages oldsz <= v < npages newsz -> U !! v = None ->
  alloc_post pgdir oldsz newsz (v + 1) s1 T1 (<[v:=(p, 7)]> U) l1 X r s' ->
  alloc_post pgdir oldsz newsz v s T U l X r s'.
Proof.
  intros Hst Hz Hv HU [(-> & T2 & U2 & l2 & Hst2 & Hg)|(-> & T2 & l2 & Hst2)]; [left|right]; (split; [done|]).
  - exists T2, U2, l2. split; [|by eapply grown_step; try done; lia].
    eapply ustep_trans; [exact Hst|]. eapply ustep_weaken; [|exact Hst2]. by apply insert_subseteq.
  - exists T2, l2. cbv zeta in *.
    assert (ucut (<[v:=(p, 7)]> U) (npages oldsz) (npages newsz) = ucut U (npages oldsz) (npages newsz)) as E.
    { apply map_eq. intros u. rewrite !lookup_ucut. destruct (decide (u = v)) as [->|]; [by zcases|].
      by rewrite lookup_insert_ne. }
    rewrite E in Hst2. eapply ustep_trans; [|exact Hst2]. eapply ustep_weaken; [apply ucut_sub|exact Hst].
Qed.

Lemma alloc_fail2 s pgdir T U l X p oldsz newsz :
  uvm s pgdir T U l (p :: X) -> L_kmem ∉ k_held s -> L_cons ∉ k_held s -> cursor_ok s ->
  0 <= oldsz <= newsz -> newsz <= KERNBASE ->
  wp (cprintf "allocuvm out of memory (2)
" [] ;; deallocuvm pgdir newsz oldsz ;; kfree p ;; ret 0) s (fun r s' => r = 0 /\ exists l',
    let W := ucut U (npages oldsz) (npages newsz) in ustep W s pgdir T U l (p :: X) s' T W l' X).
Proof.
  intros Hu Hh Hc Hcur Ho Hn.
  destruct (owned_distinct _ _ _ _ _ _ _ _ Hu (owned_hold _ _ _ _ _ _)) as [Hp _].
  eapply wp_assoc, wp_bind, wp_mono; [by apply (alloc_fail _ s pgdir T U l (p :: X))|].
  intros _ s1 [l1 Hst]. cbv zeta in *. apply wp_bind.
  eapply wp_run; [apply kfree_run; [by eapply ustep_held_locks|done]|]. apply wp_ret. split; [done|].
  exists (p :: l1). eapply ustep_trans; [exact Hst|]. apply ustep_push, (us_ok Hst).
Qed.

Lemma allocuvm_loop_spec fuel : forall s v U l pgdir T X oldsz newsz,
  uvm s pgdir T U l X -> L_kmem ∉ k_held s -> L_cons ∉ k_held s -> cursor_ok s ->
  0 <= oldsz <= newsz -> newsz <= KERNBASE -> npages oldsz <= v <= 2 ^ 19 ->
  (forall u, v <= u < npages newsz -> U !! u = None) ->
  Z.max 0 (npages newsz - v) < Z.of_nat fuel ->
  wp (allocuvm_loop fuel pgdir (v * PGSIZE) oldsz newsz) s (alloc_post pgdir oldsz newsz v s T U l X).
Proof.
  induction fuel as [|fuel IH]; intros s v U l pgdir T X oldsz newsz Hu Hh Hc Hcur Ho Hn Hv HU Hfuel; [lia|].
  cbn [allocuvm_loop]. unfold KERNBASE in Hn. destruct (Z.ltb_spec (v * PGSIZE) newsz) as [Hlt|Hge]; cbn [negb].
  2:{ apply wp_ret. left. split; [done|]. exists T, U, l. split; [by apply ustep_refl|].
      apply grown_refl. unfold npages, PGSIZE in *. Z.div_mod_to_equations. lia. }
  assert (v < npages newsz) as Hvn by (unfold npages, PGSIZE in *; Z.div_mod_to_equations; lia).
  assert (user_vpn v) as Huv.
  { unfold user_vpn, PGSIZE in *. pose proof (npages_range oldsz ltac:(unfold KERNBASE; lia)). lia. }
  apply wp_bind. destruct l as [|p l].
  { eapply wp_run; [apply kalloc_empty; [done|apply Hu]|]. cbn [Z.eqb].
    eapply wp_assoc, wp_bind, wp_mono; [by apply (alloc_fail _ s pgdir T U [] X)|].
    intros _ s' [l' Hst]. apply wp_ret. right. split; [done|]. by exists T, l'. }
  eapply wp_run; [by apply (kalloc_run s p l), Hu|].
  destruct (owned_distinct _ _ _ _ _ _ _ _ Hu (owned_pop _ _ _ _ _ _)) as [Hp _].
  pose proof (page_ok_pos p Hp). unfold KERNBASE in *. destruct (Z.eqb_spec p 0); [lia|].
  apply wp_assoc3, wp_bind. eapply wp_mono; [exact (alloc_page s pgdir T U l X v p Hu Hh Huv (HU v ltac:(lia)))|].
  intros r s2 (T' & l' & [(-> & Hst & Hz)|(-> & Hst)]); cbn [Z.ltb Z.compare].
  - rewrite u32_page_succ by done. eapply wp_mono.
    { apply (IH s2 (v + 1) (<[v:=(p, 7)]> U) l' pgdir T' X oldsz newsz (us_ok Hst));
        try (by eapply ustep_held_locks); try (unfold KERNBASE, user_vpn in *; lia).
      - eapply uframe_cursor; [exact (us_frame Hst)|done].
      - intros u Hur. rewrite lookup_insert_ne by lia. apply HU. lia. }
    intros r s'. eapply alloc_post_step; try done; auto with lia.
  - eapply wp_mono; [apply (alloc_fail2 s2 pgdir T' U l' X)|]; try (by eapply ustep_held_locks);
      try (unfold KERNBASE; lia); [exact (us_ok Hst)|by eapply uframe_cursor; [exact (us_frame Hst)|]|].
    intros r s' (-> & l2 & Hst2). right. split; [done|]. exists T', l2. cbv zeta in *.
    eapply ustep_trans; [|exact Hst2]. eapply ustep_weaken; [apply ucut_sub|exact Hst].
Qed.

Lemma allocuvm_spec s pgdir T U l X oldsz newsz :
  uvm s pgdir T U l X -> L_kmem ∉ k_held s -> L_cons ∉ k_held s -> cursor_ok s ->
  0 <= oldsz <= newsz -> newsz < KERNBASE ->
  (forall u, npages oldsz <= u < npages newsz -> U !! u = None) ->
  wp (allocuvm pgdir oldsz newsz) s (alloc_post pgdir oldsz newsz (npages oldsz) s T U l X).
Proof.
  intros Hu Hh Hc Hcur Ho Hn HU. unfold allocuvm.
  destruct (Z.leb_spec KERNBASE newsz); [lia|]. destruct (Z.ltb_spec newsz oldsz); [lia|].
  rewrite PGROUNDUP_npages by lia. pose proof (npages_range oldsz ltac:(lia)).
  apply allocuvm_loop_spec; try done; try lia.
  unfold npages, PGSIZE, KERNBASE in *. Z.div_mod_to_equations. lia.
Qed.

(** ** Freeing an address space *)

(** The directory [pgdir] has the tables [T], all at index [i] or above, and
    no other entry from [i] on. *)
Record dir_inv (s : kernel) (pgdir : Z) (T : gmap Z Z) (l : list Z) (i : Z) : Prop := {
  di_mem : kmem_ok s l;
  di_nodup : NoDup (pt_pages pgdir T ++ l);
  di_pages : Forall page_ok (pt_pages pgdir T);
  di_some : forall j t, T !! j = Some t -> i <= j < 1024 /\ load32 (k_mem s) (pgdir + 4 * j) = mkpte t 7;
  di_none : forall j, i <= j < 1024 -> T !! j = None -> Z.land (load32 (k_mem s) (pgdir + 4 * j)) PTE_P = 0;
}.

Definition free_table (pgdir : Z) (i : nat) : K unit :=
  m <- get_mem ;;
  let pde := load32 m (pgdir + 4 * Z.of_nat i) in
  when (negb (Z.land pde PTE_P =? 0)) (kfree (P2V (PTE_ADDR pde))).

Lemma pt_pages_delete pgdir T i t : T !! i = Some t -> pt_pages pgdir T ≡ₚ t :: pt_pages pgdir (delete i T).
Proof.
  intros HT. unfold pt_pages. rewrite <- (map_to_list_delete T i t HT). cbn [fmap list_fmap snd].
  solve_Permutation.
Qed.

(** Freed so far: the free list has grown by pages of [A], and only they and
    the old free pages may have changed. *)
Record freed_pages (s : kernel) (A : list Z) (s' : kernel) : Prop := {
  fp_frame : uframe s s';
  fp_out : forall p, page_ok p -> p ∉ A -> same_on (k_mem s) (k_mem s') p;
}.

Lemma freed_pages_refl s A : freed_pages s A s.
Proof. split; [apply uframe_refl|done]. Qed.

Lemma freed_pages_trans s1 A s2 B s3 :
  freed_pages s1 A s2 -> freed_pages s2 B s3 -> B ⊆ A -> freed_pages s1 A s3.
Proof.
  intros [H1 H2] [G1 G2] HAB. split; [by eapply uframe_trans|].
  intros p Hp Hn. eapply same_on_trans; [by apply H2|]. apply G2; [done|]. by intros Hb%HAB.
Qed.

Lemma freed_pages_kfree s p A :
  page_ok p -> p ∈ A ->
  freed_pages s A (set_k_freelist p (set_k_mem (freed p (k_freelist s) (k_mem s)) s)).
Proof.
  intros Hp Hin. split.
  - apply uframe_mframe. eapply mframe_trans; [apply mframe_mem|apply mframe_free].
  - intros q Hq Hn. kproj. apply same_on_freed; [done..|]. by intros ->.
Qed.

Lemma free_table_spec s pgdir T l i :
  dir_inv s pgdir T l (Z.of_nat i) -> L_kmem ∉ k_held s -> (i < 1024)%nat ->
  wp (free_table pgdir i) s (fun _ s' => exists T' l', dir_inv s' pgdir T' l' (Z.of_nat (S i)) /\
    pt_pages pgdir T' ++ l' ≡ₚ pt_pages pgdir T ++ l /\ freed_pages s (pt_pages pgdir T ++ l) s').
Proof.
  intros Hd Hh Hi. pose proof Hd as [D1 D2 D3 D4 D5]. unfold free_table. apply wp_bind.
  eapply wp_run; [reflexivity|]. destruct (T !! Z.of_nat i) as [t|] eqn:HT.
  - destruct (D4 _ _ HT) as [_ E]. pose proof (pt_pages_delete pgdir T _ _ HT) as HP.
    assert (page_ok t) as Ht by (rewrite HP in D3; by apply Forall_cons in D3 as [? _]).
    rewrite E, mkpte_P, mkpte_addr, P2V_V2P by (done || unfold PGSIZE; lia). change (7 mod 2) with 1. cbn [Z.eqb negb when].
    eapply wp_run; [by apply kfree_run|]. exists (delete (Z.of_nat i) T), (t :: l).
    assert (pt_pages pgdir (delete (Z.of_nat i) T) ++ t :: l ≡ₚ pt_pages pgdir T ++ l) as HP'.
    { rewrite HP. solve_Permutation. }
    assert (page_ok pgdir) as Hpg by (by apply Forall_cons in D3 as [? _]).
    assert (t ∉ pgdir :: l) as Hn.
    { intros Hin. rewrite HP in D2. cbn [app] in D2. apply NoDup_cons in D2 as [Hn _]. apply Hn.
      apply elem_of_app. apply elem_of_cons in Hin as [->|Hin]; [left; by left|by right]. }
    apply not_elem_of_cons in Hn as [Hn1 Hn2].
    assert (forall j, 0 <= j < 1024 -> load32 (freed t (k_freelist s) (k_mem s)) (pgdir + 4 * j)
              = load32 (k_mem s) (pgdir + 4 * j)) as Hld.
    { intros j Hj. eapply same_on_load32; [by apply (same_on_freed _ pgdir t)|lia|unfold PGSIZE; lia]. }
    split_and!; [split; kproj|done|].
    + by apply kmem_ok_push.
    + by rewrite HP'.
    + rewrite HP in D3. by apply Forall_cons in D3 as [_ ?].
    + intros j u [Hne Hj]%lookup_delete_Some. destruct (D4 j u Hj) as [Hj' Eu]. rewrite Hld by lia. split; [lia|done].
    + intros j Hj Hn. rewrite Hld by lia. apply D5; [lia|]. by rewrite lookup_delete_ne in Hn by lia.
    + apply freed_pages_kfree; [done|]. rewrite HP. by left.
  - rewrite D5 by (done || lia). cbn [Z.eqb negb when]. apply wp_ret. exists T, l.
    split_and!; [split; try done|done|apply freed_pages_refl].
    + intros j u Hj. destruct (D4 j u Hj) as [Hj' Eu]. split; [|done].
      assert (j <> Z.of_nat i) by congruence. lia.
    + intros j Hj. apply D5. lia.
Qed.

Lemma free_tables_spec n : forall s pgdir T l i,
  dir_inv s pgdir T l (Z.of_nat i) -> L_kmem ∉ k_held s -> (i + n = 1024)%nat ->
  wp (foreach (seq i n) (free_table pgdir)) s (fun _ s' => exists l', kmem_ok s' l' /\
    pgdir :: l' ≡ₚ pt_pages pgdir T ++ l /\ freed_pages s (pt_pages pgdir T ++ l) s').
Proof.
  induction n as [|n IH]; intros s pgdir T l i Hd Hh Hn; cbn [seq foreach].
  - apply wp_ret. exists l. pose proof Hd as [D1 D2 D3 D4 D5].
    assert (T = ∅) as ->.
    { apply map_eq. intros j. rewrite lookup_empty. destruct (T !! j) as [t|] eqn:E; [|done].
      destruct (D4 j t E). lia. }
    split_and!; [done| |apply freed_pages_refl]. unfold pt_pages. by rewrite map_to_list_empty.
  - apply wp_bind. eapply wp_mono; [apply free_table_spec; (done || lia)|].
    intros _ s1 (T1 & l1 & Hd1 & HP1 & Hf1).
    assert (L_kmem ∉ k_held s1) as Hh1 by (by rewrite (uframe_held _ _ (fp_frame _ _ _ Hf1))).
    eapply wp_mono; [apply (IH s1 pgdir T1 l1 (S i) Hd1 Hh1); lia|].
    intros _ s2 (l2 & Hk2 & HP2 & Hf2). exists l2. split_and!; [done|by rewrite HP2|].
    eapply freed_pages_trans; [exact Hf1|exact Hf2|]. intros p. by rewrite HP1.
Qed.

Lemma ustep_freed W s pgdir T U l X s' T' U' l' X' :
  ustep W s pgdir T U l X s' T' U' l' X' -> freed_pages s (owned pgdir T U l X) s'.
Proof. intros [A1 A2 A3 A4 A5 A6 A7 A8 A9]. by split. Qed.

Lemma freevm_spec s pgdir T U l X :
  uvm s pgdir T U l X -> L_kmem ∉ k_held s ->
  wp (freevm pgdir) s (fun _ s' => exists l', kmem_ok s' l' /\
    l' ++ X ≡ₚ owned pgdir T U l X /\ freed_pages s (owned pgdir T U l X) s').
Proof.
  intros Hu Hh. assert (page_ok pgdir) as Hp by (eapply uvm_page, owned_table; [done|by left]).
  pose proof (page_ok_pos pgdir Hp). unfold freevm, KERNBASE in *. destruct (Z.eqb_spec pgdir 0); [lia|].
  apply wp_bind. eapply wp_mono; [apply (deallocuvm_spec s pgdir T U l X); unfold KERNBASE; (done || lia)|].
  intros _ s1 (_ & l1 & Hst).
  assert (ucut U (npages 0) (npages 0x80000000) = ∅) as E.
  { apply map_eq. intros u. rewrite lookup_ucut, lookup_empty. destruct (U !! u) as [[p f]|] eqn:E; [|by destruct (_ && _)].
    destruct (u_some _ _ _ _ _ _ Hu _ _ _ E) as [[Hv0 Hv1] _]. unfold npages, PGSIZE.
    change ((2147483648 + 4096 - 1) / 4096) with (2 ^ 19). change ((0 + 4096 - 1) / 4096) with 0. by zcases. }
  unfold KERNBASE in Hst. rewrite E in Hst. pose proof (us_ok Hst) as Hu1. pose proof Hu1 as [V1 V2 V3 V4 V5].
  assert (dir_inv s1 pgdir T l1 (Z.of_nat 0)) as Hd.
  { destruct V1 as [M1 M2 M3 M4 M5]. by split. }
  assert (L_kmem ∉ k_held s1) as Hh1 by by eapply ustep_held_locks.
  apply wp_bind. eapply wp_mono; [apply (free_tables_spec 1024 s1 pgdir T l1 0 Hd Hh1); lia|].
  intros _ s2 (l2 & Hk2 & HP2 & Hf2).
  assert (L_kmem ∉ k_held s2) as Hh2 by (by rewrite (uframe_held _ _ (fp_frame _ _ _ Hf2))).
  assert ((pgdir :: l2) ++ X ≡ₚ owned pgdir T U l X) as HP.
  { rewrite HP2, <- (us_perm _ _ _ _ _ _ _ _ _ _ _ _ Hst). unfold owned, upages. rewrite map_to_list_empty. solve_Permutation. }
  eapply wp_run; [by apply kfree_run|]. exists (pgdir :: l2). split_and!; [|done|].
  - apply kmem_ok_push; [done..|]. pose proof (di_nodup _ _ _ _ _ Hd) as Hn. rewrite <- HP2 in Hn.
    by apply NoDup_cons in Hn as [? _].
  - pose proof (us_perm _ _ _ _ _ _ _ _ _ _ _ _ Hst) as HP1.
    eapply freed_pages_trans; [eapply ustep_freed, Hst| |].
    + eapply (freed_pages_trans s1 (pt_pages pgdir T ++ l1) s2 [pgdir]); [exact Hf2|apply freed_pages_kfree; [done|by left]|].
      intros p ->%list_elem_of_singleton. by left.
    + intros p Hin. rewrite <- HP1. apply elem_of_app in Hin as [Hin|Hin]; [by apply owned_table|by apply owned_free].
Qed.

(** ** The kernel half *)

Abbreviation region := (Z * Z * Z * Z)%type.

Definition region_vpn (r : region) : Z := let '(virt, _, _, _) := r in virt / PGSIZE.
Definition region_len (r : region) : Z := let '(_, pstart, pend, _) := r in u32 (pend - pstart) / PGSIZE.
Definition region_pte (r : region) (u : Z) : Z :=
  let '(virt, pstart, pend, perm) := r in pstart + PGSIZE * (u - virt / PGSIZE) + Z.lor perm 1.
Definition in_region (r : region) (u : Z) : bool := in_range (region_vpn r) (region_len r) u.

(** The entry that a list of regions gives to page number [u]. *)
Fixpoint regions_pte (k : list region) (u : Z) : Z :=
  match k with
  | [] => 0
  | r :: k' => if in_region r u then region_pte r u else regions_pte k' u
  end.

(** A region is in the kernel half and made of whole pages. *)
Definition region_ok (r : region) : Prop :=
  let '(virt, pstart, pend, perm) := r in
  virt mod PGSIZE = 0 /\ pstart mod PGSIZE = 0 /\ u32 (pend - pstart) mod PGSIZE = 0 /\
  KERNBASE <= virt /\ 0 < u32 (pend - pstart) /\ virt + u32 (pend - pstart) <= 2 ^ 32 /\
  0 <= pstart /\ pstart + u32 (pend - pstart) <= 2 ^ 32 /\ 0 <= perm < PGSIZE.

Fixpoint regions_ok (k : list region) : Prop :=
  match k with
  | [] => True
  | r :: k' => region_ok r /\ (forall u, in_region r u = true -> Forall (fun r' => in_region r' u = false) k') /\
               regions_ok k'
  end.

Lemma regions_pte_none k u : existsb (fun r => in_region r u) k = false -> regions_pte k u = 0.
Proof.
  induction k as [|r k IH]; cbn [existsb regions_pte]; [done|]. by intros [-> Hk]%orb_false_iff; auto.
Qed.

(** Mapping pages of the kernel half. *)
Lemma uvm_kernel_step s pgdir T U l X s' T' l' :
  uvm s pgdir T U l X -> vm_step s pgdir T l s' T' l' ->
  (forall v, user_vpn v -> entry (k_mem s') T' v = entry (k_mem s) T v) ->
  uvm s' pgdir T' U l' X /\ owned pgdir T' U l' X ≡ₚ owned pgdir T U l X /\
  freed_pages s (owned pgdir T U l X) s'.
Proof.
  intros Hu Hst He. pose proof (vm_step_owned _ _ _ _ _ _ _ U X Hst) as E. pose proof Hu as [U1 U2 U3 U4 U5].
  split_and!; [split|done|split].
  - by eapply vs_ok.
  - by rewrite E.
  - by rewrite E.
  - intros v p f Hv. destruct (U4 v p f Hv) as (Hr & ? & ? & ?). by rewrite He.
  - intros v Hv HU. rewrite He; auto.
  - eapply uframe_mframe, vs_frame, Hst.
  - intros p Hp Hn. eapply vs_out; [done..|].
    intros [Ht|Hl]%elem_of_app; apply Hn; [by apply owned_table|by apply owned_free].
Qed.

Lemma map_kernel_spec k : forall s pgdir T l X,
  uvm s pgdir T ∅ l X -> L_kmem ∉ k_held s -> regions_ok k ->
  (forall r u, r ∈ k -> in_region r u = true -> Z.land (entry (k_mem s) T u) PTE_P = 0) ->
  wp (map_kernel pgdir k) s (fun r s' =>
    (r = pgdir /\ exists T' l', uvm s' pgdir T' ∅ l' X /\ mframe s s' /\
       owned pgdir T' ∅ l' X ≡ₚ owned pgdir T ∅ l X /\
       (forall p, page_ok p -> p ∉ owned pgdir T ∅ l X -> same_on (k_mem s) (k_mem s') p) /\
       forall u, entry (k_mem s') T' u =
         if existsb (fun r => in_region r u) k then regions_pte k u else entry (k_mem s) T u) \/
    (r = 0 /\ exists l', kmem_ok s' l' /\
       l' ++ X ≡ₚ owned pgdir T ∅ l X /\ freed_pages s (owned pgdir T ∅ l X) s')).
Proof.
  induction k as [|[[[virt pstart] pend] perm] k IH]; intros s pgdir T l X Hu Hh Hk Hfree; cbn [map_kernel].
  { apply wp_ret. left. split; [done|]. exists T, l. split_and!; try done. apply mframe_refl. }
  cbn [regions_ok] in Hk. destruct Hk as ((Hv & Hp & Hn & Hb & Hn0 & Hv1 & Hp0 & Hp1 & Hperm) & Hdis & Hk).
  set (v := virt / PGSIZE) in *. set (n := u32 (pend - pstart) / PGSIZE) in *.
  assert (virt = v * PGSIZE) as Ev by (unfold v, PGSIZE in *; Z.div_mod_to_equations; lia).
  assert (u32 (pend - pstart) = n * PGSIZE) as En by (unfold n, PGSIZE in *; Z.div_mod_to_equations; lia).
  replace (mappages pgdir virt (u32 (pend - pstart)) pstart perm)
    with (mappages pgdir (v * PGSIZE) (n * PGSIZE) pstart perm) by (by rewrite En, Ev at 1).
  apply wp_bind. eapply wp_mono.
  { apply (mappages_spec n s pgdir T l v pstart perm); try done;
      try (unfold PGSIZE, KERNBASE in *; lia); [apply Hu|].
    intros u Hr. apply (Hfree (virt, pstart, pend, perm) u); [by left|].
    unfold in_region, in_range. simpl. fold v n. by zcases. }
  intros r s1 (T1 & l1 & j & Hst & Hr & He).
  assert (0 <= j <= n) as Hj by (destruct Hr as [[_ ->]|[_ ?]]; unfold PGSIZE in *; lia).
  destruct (uvm_kernel_step _ _ _ _ _ _ _ _ _ Hu Hst) as (Hu1 & HP1 & Hf1).
  { intros u [Hu0 Hu1]. rewrite He. unfold in_range. unfold KERNBASE, PGSIZE in *. zcases; simpl; (done || lia). }
  assert (L_kmem ∉ k_held s1) as Hh1 by (by rewrite (uframe_held _ _ (fp_frame _ _ _ Hf1))).
  destruct Hr as [[-> ->]|(-> & _ & _)]; cbn [Z.ltb Z.compare].
  - eapply wp_mono; [apply (IH s1 pgdir T1 l1 X Hu1 Hh1 Hk)|].
    { intros r u Hin Hr. rewrite He. destruct (in_range v n u) eqn:Ei; [|by apply (Hfree r); [by right|]].
      specialize (Hdis u Ei). rewrite Forall_forall in Hdis. by rewrite (Hdis r Hin) in Hr. }
    intros r s2 [(-> & T2 & l2 & Hu2 & Hm2 & HP2 & Ho2 & He2)|(-> & l2 & Hk2 & HP2 & Hf2)]; [left|right]; (split; [done|]).
    + exists T2, l2. split_and!; [done| |by rewrite HP2| |].
      * eapply mframe_trans; [|done]. by eapply vs_frame.
      * intros p Hpo Hno. eapply same_on_trans; [by apply (fp_out _ _ _ Hf1)|]. apply Ho2; [done|]. by rewrite HP1.
      * intros u. rewrite He2, He. cbn [existsb regions_pte].
        change (in_region (virt, pstart, pend, perm) u) with (in_range v n u).
        destruct (in_range v n u) eqn:Ei; cbn [orb]; [|done]. specialize (Hdis u Ei).
        assert (existsb (fun r => in_region r u) k = false) as ->; [|done].
        apply not_true_is_false. intros (r & Hr & Hb')%existsb_exists. rewrite Forall_forall in Hdis.
        apply list_elem_of_In in Hr. by rewrite (Hdis r Hr) in Hb'.
    + exists l2. split_and!; [done|by rewrite HP2|]. eapply freed_pages_trans; [done..|]. intros p. by rewrite HP1.
  - apply wp_bind. eapply wp_mono; [by apply (freevm_spec s1 pgdir T1 ∅ l1 X)|].
    intros _ s2 (l2 & Hk2 & HP2 & Hf2). apply wp_ret. right. split; [done|]. exists l2.
    split_and!; [done|by rewrite HP2|]. eapply freed_pages_trans; [done..|]. intros p. by rewrite HP1.
Qed.

Lemma data_bounds : KERNLINK < l_data /\ l_data <= KERNBASE + 4 * 1024 * 1024 /\ l_data mod PGSIZE = 0.
Proof. pose proof data_text. pose proof data_end. pose proof end_4M. pose proof data_aligned. lia. Qed.

Lemma kmap_lens :
  u32 (EXTMEM - 0) = EXTMEM /\ V2P KERNLINK = EXTMEM /\ V2P l_data = l_data - KERNBASE /\
  u32 (V2P l_data - V2P KERNLINK) = l_data - KERNLINK /\
  u32 (PHYSTOP - V2P l_data) = KERNBASE + PHYSTOP - l_data /\ u32 (0 - DEVSPACE) = 2 ^ 32 - DEVSPACE.
Proof.
  destruct data_bounds as (Hd1 & Hd2 & _). change (V2P KERNLINK) with EXTMEM.
  assert (V2P l_data = l_data - KERNBASE) as -> by (apply u32_small; unfold KERNLINK, EXTMEM, KERNBASE in *; lia).
  split_and!; try done; unfold KERNLINK, EXTMEM, KERNBASE, PHYSTOP in *; rewrite u32_small; lia.
Qed.

Lemma kmap_ok : regions_ok kmap.
Proof.
  destruct data_bounds as (Hd1 & Hd2 & Hd3). destruct kmap_lens as (E1 & E2 & E3 & E4 & E5 & E6).
  unfold kmap. cbn [regions_ok]. unfold region_ok, in_region, region_vpn, region_len, in_range.
  rewrite E1, E4, E5, E6, E2, E3. unfold V2P, KERNLINK, EXTMEM, KERNBASE, PHYSTOP, DEVSPACE, PTE_W, PGSIZE in *.
  split_and!; try lia; try done; try (Z.div_mod_to_equations; lia);
    intros u Hr; repeat constructor; revert Hr; zcases; simpl; try done; Z.div_mod_to_equations; lia.
Qed.

(** A cleared page is an empty page directory. *)
Lemma empty_dir s pgdir l :
  kmem_ok s l -> page_ok pgdir -> pgdir ∉ l -> zeroed (k_mem s) pgdir -> uvm s pgdir ∅ ∅ l [].
Proof.
  intros Hk Hp Hn Hz. pose proof (km_nodup _ _ Hk). pose proof (km_pages _ _ Hk).
  assert (pt_pages pgdir ∅ = [pgdir]) as E by (unfold pt_pages; by rewrite map_to_list_empty).
  assert (owned pgdir ∅ ∅ l [] = pgdir :: l) as Eo.
  { unfold owned, upages. by rewrite E, map_to_list_empty, app_nil_r. }
  split; rewrite ?Eo; [|by constructor|by constructor|by intros v p f|done].
  split; rewrite ?E; [done|by constructor|by apply Forall_singleton|by intros i t|].
  intros i Hi _. unfold load32. set (a := pgdir + 4 * i).
  assert (pgdir <= a /\ a + 4 <= pgdir + PGSIZE) as [? ?] by (unfold a, PGSIZE; lia).
  by rewrite (Hz a), (Hz (a + 1)), (Hz (a + 2)), (Hz (a + 3)) by lia.
Qed.

Definition kernel_half (m : memory) (T : gmap Z Z) : Prop :=
  forall v, 2 ^ 19 <= v -> entry m T v = regions_pte kmap v.

Lemma setupkvm_spec s l :
  kmem_ok s l -> L_kmem ∉ k_held s ->
  wp setupkvm s (fun r s' =>
    (r <> 0 /\ exists T l', uvm s' r T ∅ l' [] /\ kernel_half (k_mem s') T /\ mframe s s' /\
       owned r T ∅ l' [] ≡ₚ l /\ freed_pages s l s') \/
    (r = 0 /\ exists l', kmem_ok s' l' /\ l' ≡ₚ l /\ freed_pages s l s')).
Proof.
  intros Hk Hh. unfold setupkvm. apply wp_bind. destruct l as [|p l].
  { eapply wp_run; [by apply kalloc_empty|]. cbn [Z.eqb]. apply wp_ret. right. split; [done|]. exists [].
    split_and!; [done..|apply freed_pages_refl]. }
  eapply wp_run; [by apply (kalloc_run s p l)|]. pose proof (km_pages _ _ Hk) as [Hp _]%Forall_cons.
  pose proof (km_nodup _ _ Hk) as [Hn _]%NoDup_cons. pose proof (page_ok_pos p Hp).
  destruct (Z.eqb_spec p 0); [unfold KERNBASE in *; lia|].
  apply wp_bind. eapply wp_run; [reflexivity|]. apply wp_bind. eapply wp_run; [reflexivity|].
  change (DEVSPACE <? P2V PHYSTOP) with false. cbv iota. kproj.
  set (s1 := set_k_mem _ _).
  assert (zeroed (k_mem s1) p) as Hz.
  { intros a Ha. unfold s1. kproj. rewrite memset_spec by (unfold PGSIZE; lia). unfold PGSIZE in *. by zcases. }
  assert (kmem_ok s1 l) as Hk1.
  { eapply kmem_ok_frame; [..|exact (kmem_ok_pop _ _ _ Hk)]; [done|]. intros a (q & Hq & Ha). unfold s1. kproj.
    apply (same_on_memset _ q p); try done; [|by intros ->].
    pose proof (km_pages _ _ (kmem_ok_pop _ _ _ Hk)) as Hl. by eapply Forall_forall. }
  pose proof (empty_dir s1 p l Hk1 Hp Hn Hz) as Hu.
  assert (owned p ∅ ∅ l [] ≡ₚ p :: l) as Eo.
  { unfold owned, upages, pt_pages. by rewrite !map_to_list_empty, app_nil_r. }
  assert (mframe s s1) as Hm1 by (eapply mframe_trans; [apply mframe_free|apply mframe_mem]).
  assert (freed_pages s (p :: l) s1) as Hf1.
  { split; [by apply uframe_mframe|]. intros q Hq Hn'. unfold s1. kproj. apply same_on_memset; [done..|].
    intros ->. apply Hn'. by left. }
  eapply wp_mono; [apply (map_kernel_spec kmap s1 p ∅ l [] Hu Hh kmap_ok); done|].
  intros r s2 [(-> & T2 & l2 & Hu2 & Hm2 & HP2 & Ho2 & He2)|(-> & l2 & Hk2 & HP2 & Hf2)]; [left|right]; (split; [done|]).
  - exists T2, l2. split_and!; [done| |exact (mframe_trans _ _ _ Hm1 Hm2)|by rewrite HP2|].
    + intros v Hv. rewrite He2. destruct (existsb _ kmap) eqn:E; [done|]. by rewrite regions_pte_none.
    + eapply freed_pages_trans; [exact Hf1| |]; [split; [by apply uframe_mframe|exact Ho2]|].
      intros q. by rewrite Eo.
  - exists l2. rewrite app_nil_r in HP2. split_and!; [done|by rewrite HP2|].
    eapply freed_pages_trans; [exact Hf1|exact Hf2|]. intros q. by rewrite Eo.
Qed.

(** ** Copying an address space *)

(** An address space whose pages are not touched and not freed. *)
Lemma uvm_keep s pgdir T U l X s' l' :
  uvm s pgdir T U l X -> kmem_ok s' l' ->
  (forall p, p ∈ pt_pages pgdir T ++ upages U -> (p ∉ l') /\ same_on (k_mem s) (k_mem s') p) ->
  uvm s' pgdir T U l' [].
Proof.
  intros Hu Hk Hs. pose proof Hu as [[V1 V2 V3 V4 V5] U2 U3 U4 U5].
  assert (forall p, p ∈ pt_pages pgdir T -> same_on (k_mem s) (k_mem s') p) as Hs'.
  { intros p Hp. apply Hs, elem_of_app. by left. }
  assert (NoDup ((pt_pages pgdir T ++ upages U) ++ l')) as Hnd.
  { apply NoDup_app. split_and!.
    - unfold owned in U2. rewrite app_assoc in U2. by apply NoDup_app in U2 as [? _].
    - intros p Hp. by apply Hs.
    - exact (km_nodup _ _ Hk). }
  assert (forall i, 0 <= i < 1024 -> load32 (k_mem s') (pgdir + 4 * i) = load32 (k_mem s) (pgdir + 4 * i)) as Hld.
  { intros i Hi. eapply same_on_load32; [apply Hs'; by left|lia|unfold PGSIZE; lia]. }
  assert (forall v, entry (k_mem s') T v = entry (k_mem s) T v) as He.
  { intros v. unfold entry. destruct (T !! (v / 1024)) as [t|] eqn:HT; [|done].
    eapply same_on_load32; [apply Hs'; by eapply pt_pages_elem|..];
      pose proof (Z.mod_pos_bound v 1024); unfold PGSIZE; lia. }
  split; [split; try done|..].
  - assert ((pt_pages pgdir T ++ upages U) ++ l' ≡ₚ upages U ++ pt_pages pgdir T ++ l') as E by solve_Permutation.
    rewrite E in Hnd. by apply NoDup_app in Hnd as (_ & _ & ?).
  - intros i t Hi. destruct (V4 i t Hi). by rewrite Hld.
  - intros i Hi Hn. rewrite Hld by done. auto.
  - unfold owned. by rewrite app_nil_r, app_assoc.
  - unfold owned in *. rewrite app_nil_r, app_assoc. rewrite app_assoc in U3.
    apply Forall_app. split; [by apply Forall_app in U3 as [? _]|exact (km_pages _ _ Hk)].
  - setoid_rewrite He. done.
  - setoid_rewrite He. done.
Qed.

Lemma uvm_tables_ok s pgdir T U l X p : uvm s pgdir T U l X -> p ∈ pt_pages pgdir T ++ upages U -> page_ok p.
Proof.
  intros Hu [Hp|Hp]%elem_of_app; eapply uvm_page; try done; [by apply owned_table|by apply owned_user].
Qed.

(** The address space [pgdir] is not touched by a step of another. *)
Lemma uvm_other W s pgdir T U l X d Td Ud Xd s' Td' Ud' l' Xd' :
  uvm s pgdir T U l X -> ustep W s d Td Ud l Xd s' Td' Ud' l' Xd' ->
  (forall p, p ∈ pt_pages pgdir T ++ upages U -> p ∉ owned d Td Ud l Xd) ->
  uvm s' pgdir T U l' [].
Proof.
  intros Hu Hst Hdis. eapply uvm_keep; [done|apply (us_ok Hst)|]. intros p Hp. split.
  - intros Hl. apply (Hdis p Hp). rewrite <- (us_perm _ _ _ _ _ _ _ _ _ _ _ _ Hst). by apply owned_free.
  - eapply us_out; [done|by eapply uvm_tables_ok|auto].
Qed.

Definition same_page (m : memory) (p q : Z) : Prop := forall k, 0 <= k < PGSIZE -> m (q + k) = m (p + k).

Lemma same_page_frame m m' p q : same_on m m' p -> same_on m m' q -> same_page m p q -> same_page m' p q.
Proof. intros Hp Hq Hs k Hk. rewrite Hq, Hp by lia. by apply Hs. Qed.

Lemma lor_odd f : f mod 2 = 1 -> Z.lor f 1 = f.
Proof.
  intros Hf. apply Z.bits_inj'. intros k Hk. rewrite Z.lor_spec. destruct (Z.eq_dec k 0) as [->|].
  - rewrite Zmod_odd in Hf. rewrite Z.bit0_odd. by destruct (Z.odd f).
  - rewrite (Z.bits_above_log2 1 k) by (simpl; lia). apply orb_false_r.
Qed.

(** A round of [copyuvm]. *)
Lemma copy_page s d Td Ud l q p v f :
  uvm s d Td Ud (q :: l) [] -> L_kmem ∉ k_held s -> user_vpn v -> Ud !! v = None ->
  page_ok p -> p ∉ owned d Td Ud (q :: l) [] -> 0 <= f < PGSIZE -> f mod 2 = 1 ->
  wp (m <- get_mem ;; set_mem (memmove m q p PGSIZE) ;; mappages d (v * PGSIZE) PGSIZE (V2P q) f)
    (set_k_freelist (load32 (k_mem s) q) s) (fun r s' => exists Td' l',
    (r = 0 /\ ustep Ud s d Td Ud (q :: l) [] s' Td' (<[v:=(q, f)]> Ud) l' [] /\ same_page (k_mem s') p q) \/
    (r = -1 /\ ustep Ud s d Td Ud (q :: l) [] s' Td' Ud l' [q])).
Proof.
  intros Hu Hh Hv HU Hp Hn Hf Hf1. pose proof (ustep_pop _ _ _ _ _ _ _ Hu) as Hst0.
  destruct (owned_distinct _ _ _ _ _ _ _ _ Hu (owned_pop _ _ _ _ _ _)) as [Hq _].
  apply wp_bind. eapply wp_run; [reflexivity|]. apply wp_bind. eapply wp_run; [reflexivity|]. kproj.
  set (s1 := set_k_mem _ _).
  assert (ustep Ud s d Td Ud (q :: l) [] s1 Td Ud l [q]) as Hst1.
  { eapply ustep_trans; [exact Hst0|]. apply (ustep_held _ _ _ _ _ _ _ _ (us_ok Hst0)). kproj.
    intros x Hx Hne a Ha. rewrite memmove_spec by (unfold PGSIZE; lia).
    destruct (page_disjoint x q Hx Hq Hne); unfold PGSIZE in *; by zcases. }
  assert (same_page (k_mem s1) p q) as Hs1.
  { assert (p <> q) as Hpq by (intros ->; apply Hn, owned_free; by left).
    pose proof (page_disjoint p q Hp Hq Hpq).
    intros k Hk. unfold s1. kproj. rewrite !memmove_spec by (unfold PGSIZE; lia). unfold PGSIZE in *.
    zcases; simpl; (done || f_equal; lia). }
  pose proof (ustep_held_locks _ _ _ _ _ _ _ _ _ _ _ _ L_kmem Hst1 Hh) as Hh1.
  eapply wp_mono; [by apply (map_page s1 d Td Ud l [] v q f (us_ok Hst1) Hh1 Hv HU)|].
  intros r s2 (T' & l' & [(-> & Hst2 & Hs)|(-> & _ & Hst2)]); exists T', l'; [left|right]; (split; [done|]).
  - rewrite lor_odd in Hst2 by done. split; [by eapply ustep_trans|]. eapply same_page_frame; [|exact Hs|exact Hs1].
    apply (us_out _ _ _ _ _ _ _ _ _ _ _ _ Hst2); [done|].
    by rewrite (us_perm _ _ _ _ _ _ _ _ _ _ _ _ Hst1).
  - by eapply ustep_trans.
Qed.

(** Page numbers [v] to [e - 1] of [U'] are copies of the pages of [U], with
    the same flags. *)
Definition copied (U Ud U' : umap) (v e : Z) (m : memory) : Prop :=
  forall u, if (v <=? u) && (u <? e)
    then exists p q f, U !! u = Some (p, f) /\ U' !! u = Some (q, f) /\ same_page m p q
    else U' !! u = Ud !! u.

Definition copy_post (U : umap) (d v e : Z) (s : kernel) (Td : gmap Z Z) (Ud : umap) (l : list Z)
    (r : Z) (s' : kernel) : Prop :=
  (r = d /\ exists Td' Ud' l', ustep Ud s d Td Ud l [] s' Td' Ud' l' [] /\ copied U Ud Ud' v e (k_mem s')) \/
  (r = 0 /\ exists l', kmem_ok s' l' /\ l' ≡ₚ owned d Td Ud l [] /\ freed_pages s (owned d Td Ud l []) s').

Lemma copy_post_step U d v e s Td Ud l s1 Td1 l1 p q f r s' :
  ustep Ud s d Td Ud l [] s1 Td1 (<[v:=(q, f)]> Ud) l1 [] -> Ud !! v = None -> U !! v = Some (p, f) ->
  page_ok p -> p ∉ owned d Td Ud l [] -> same_page (k_mem s1) p q -> v < e ->
  copy_post U d (v + 1) e s1 Td1 (<[v:=(q, f)]> Ud) l1 r s' -> copy_post U d v e s Td Ud l r s'.
Proof.
  intros Hst HUd HU Hp Hn Hs Hv [(-> & T2 & U2 & l2 & Hst2 & Hc)|(-> & l2 & Hk & HP & Hf)]; [left|right]; (split; [done|]).
  - exists T2, U2, l2. split.
    { eapply ustep_trans; [exact Hst|]. eapply ustep_weaken; [|exact Hst2]. by apply insert_subseteq. }
    intros u. specialize (Hc u). destruct (decide (u = v)) as [->|Hne].
    + revert Hc. zcases; simpl. intros _. exists p, q, f. split; [done|].
      pose proof (us_new Hst2) as Hw. split; [eapply lookup_weaken; [apply lookup_insert_eq|exact Hw]|].
      eapply same_page_frame; [|exact (us_keep Hst2 v (q, f) (lookup_insert_eq _ _ _))|done].
      apply (us_out _ _ _ _ _ _ _ _ _ _ _ _ Hst2); [done|]. by rewrite (us_perm _ _ _ _ _ _ _ _ _ _ _ _ Hst).
    + revert Hc. rewrite lookup_insert_ne by done. by zcases.
  - exists l2. pose proof (us_perm _ _ _ _ _ _ _ _ _ _ _ _ Hst) as HP1. split_and!; [done|by rewrite HP|].
    eapply freed_pages_trans; [by eapply ustep_freed|exact Hf|]. intros x. by rewrite HP1.
Qed.

(** Every page below [sz] is mapped, and no other. *)
Definition usize (U : umap) (sz : Z) : Prop := forall v, is_Some (U !! v) <-> 0 <= v < npages sz.

Definition apart (pgdir : Z) (T : gmap Z Z) (U : umap) (A : list Z) : Prop :=
  forall p, p ∈ pt_pages pgdir T ++ upages U -> p ∉ A.

(** The entry of a mapped page, as [copyuvm] reads it. *)
Lemma mapped_entry s pgdir T U l X v p f :
  uvm s pgdir T U l X -> U !! v = Some (p, f) ->
  walkpgdir pgdir (v * PGSIZE) false s = Ret (pte_addr T v) s /\ pte_addr T v <> 0 /\
  load32 (k_mem s) (pte_addr T v) = mkpte p f /\ page_ok p.
Proof.
  intros Hu HU. destruct (u_some _ _ _ _ _ _ Hu _ _ _ HU) as (Hv & _ & _ & He).
  destruct (uvm_table _ _ _ _ _ _ _ _ Hu HU) as [t Ht]. split_and!.
  - rewrite (walk_false s pgdir T l) by (try apply Hu; unfold user_vpn, PGSIZE in *; lia).
    by rewrite Z.div_mul.
  - by eapply pte_addr_ne0; [apply Hu|].
  - rewrite <- He. unfold pte_addr, entry. by rewrite Ht.
  - eapply uvm_page, owned_user, (upages_elem _ _ _ HU). done.
Qed.

Lemma copy_fail s d Td Ud l q :
  uvm s d Td Ud l [q] -> L_kmem ∉ k_held s ->
  wp (kfree q ;; freevm d ;; ret 0) s (fun r s' => r = 0 /\ exists l', kmem_ok s' l' /\
    l' ≡ₚ owned d Td Ud l [q] /\ freed_pages s (owned d Td Ud l [q]) s').
Proof.
  intros Hu Hh. destruct (owned_distinct _ _ _ _ _ _ _ _ Hu (owned_hold _ _ _ _ _ _)) as [Hq _].
  pose proof (ustep_push _ _ _ _ _ _ _ Hu) as Hst. pose proof (us_perm _ _ _ _ _ _ _ _ _ _ _ _ Hst) as HP.
  apply wp_bind. eapply wp_run; [by apply kfree_run|]. apply wp_bind.
  eapply wp_mono; [by apply (freevm_spec _ d Td Ud (q :: l) [] (us_ok Hst))|].
  intros _ s1 (l1 & Hk & HP1 & Hf). rewrite app_nil_r in HP1. apply wp_ret. split; [done|]. exists l1.
  split_and!; [done|by rewrite HP1|]. eapply freed_pages_trans; [by eapply ustep_freed|exact Hf|].
  intros x. by rewrite HP.
Qed.

Lemma copyuvm_loop_spec fuel : forall s d Td Ud l pgdir T U v sz,
  uvm s pgdir T U l [] -> uvm s d Td Ud l [] -> apart pgdir T U (owned d Td Ud l []) ->
  L_kmem ∉ k_held s -> 0 <= sz <= KERNBASE -> 0 <= v -> (forall u, 0 <= u < npages sz -> is_Some (U !! u)) ->
  (forall u, v <= u -> Ud !! u = None) -> Z.max 0 (npages sz - v) < Z.of_nat fuel ->
  wp (copyuvm_loop fuel d pgdir (v * PGSIZE) sz) s (copy_post U d v (npages sz) s Td Ud l).
Proof.
  induction fuel as [|fuel IH]; intros s d Td Ud l pgdir T U v sz Hu Hd Ha Hh Hsz Hv HU HUd Hfuel; [lia|].
  cbn [copyuvm_loop]. destruct (Z.ltb_spec (v * PGSIZE) sz) as [Hlt|Hge]; cbn [negb].
  2:{ apply wp_ret. left. split; [done|]. exists Td, Ud, l. split; [by apply ustep_refl|].
      intros u. unfold npages, PGSIZE in *. zcases; try done. Z.div_mod_to_equations. lia. }
  assert (v < npages sz) as Hvn by (unfold npages, PGSIZE in *; Z.div_mod_to_equations; lia).
  destruct (HU v ltac:(lia)) as [[p f] Hp].
  destruct (u_some _ _ _ _ _ _ Hu _ _ _ Hp) as (Huv & Hf & Hf1 & _).
  destruct (mapped_entry _ _ _ _ _ _ _ _ _ Hu Hp) as (Hw & Hne & He & Hpo).
  assert (p ∉ owned d Td Ud l []) as Hpn by (apply Ha, elem_of_app; right; exact (upages_elem _ _ _ Hp)).
  apply wp_bind. eapply wp_run; [exact Hw|]. rewrite (proj2 (Z.eqb_neq _ _) Hne).
  apply wp_bind. eapply wp_run; [reflexivity|]. rewrite He, mkpte_P, Hf1, mkpte_addr, mkpte_flags by done.
  cbn [Z.eqb]. rewrite P2V_V2P by done. apply wp_bind. destruct l as [|q l].
  { eapply wp_run; [apply kalloc_empty; [done|apply Hu]|]. cbn [Z.eqb]. apply wp_bind.
    eapply wp_mono; [by apply (freevm_spec s d Td Ud [] [])|]. intros _ s1 (l1 & Hk & HP & Hf').
    apply wp_ret. right. split; [done|]. exists l1. by rewrite app_nil_r in HP. }
  eapply wp_run; [by apply (kalloc_run s q l), Hu|].
  destruct (owned_distinct _ _ _ _ _ _ _ _ Hd (owned_pop _ _ _ _ _ _)) as [Hq _].
  pose proof (page_ok_pos q Hq). destruct (Z.eqb_spec q 0); [unfold KERNBASE in *; lia|].
  apply wp_assoc3, wp_bind. eapply wp_mono; [by apply (copy_page s d Td Ud l q p v f); auto with lia|].
  intros r s1 (T1 & l1 & [(-> & Hst & Hs)|(-> & Hst)]); cbn [Z.ltb Z.compare].
  - pose proof (uvm_other _ _ _ _ _ _ _ _ _ _ _ _ _ _ _ _ Hu Hst Ha) as Hu1.
    rewrite u32_page_succ by done. eapply wp_mono.
    { apply (IH s1 d T1 (<[v:=(q, f)]> Ud) l1 pgdir T U (v + 1) sz Hu1 (us_ok Hst));
        try done; try lia; [|by eapply ustep_held_locks|].
      - intros x Hx. rewrite (us_perm _ _ _ _ _ _ _ _ _ _ _ _ Hst). by apply Ha.
      - intros u Hu'. rewrite lookup_insert_ne by lia. apply HUd. lia. }
    intros r s'. eapply copy_post_step; try done. apply HUd. lia.
  - eapply wp_mono; [apply (copy_fail s1 d T1 Ud l1 q (us_ok Hst)); by eapply ustep_held_locks|].
    intros r s' (-> & l2 & Hk & HP & Hf'). right. split; [done|]. exists l2.
    pose proof (us_perm _ _ _ _ _ _ _ _ _ _ _ _ Hst) as HP1. split_and!; [done|by rewrite HP|].
    eapply freed_pages_trans; [by eapply ustep_freed|exact Hf'|]. intros x. by rewrite HP1.
Qed.

(** ** What the processor sees *)

(** The page walk of the processor: the physical address and the flags of a
    linear address, or a fault. *)
Definition mmu (m : memory) (pgdir a : Z) : option (Z * Z) :=
  let pde := load32 m (pgdir + 4 * PDX a) in
  if Z.land pde PTE_P =? 0 then None else
  let pte := load32 m (P2V (PTE_ADDR pde) + 4 * PTX a) in
  if Z.land pte PTE_P =? 0 then None else Some (PTE_ADDR pte + a mod PGSIZE, PTE_FLAGS pte).

(** The byte at a linear address. *)
Definition user_byte (m : memory) (pgdir a : Z) : option Z := (fun x => m (P2V x.1)) <$> mmu m pgdir a.

Lemma mmu_entry s pgdir T l a :
  vm_ok s pgdir T l -> 0 <= a < 2 ^ 32 ->
  mmu (k_mem s) pgdir a =
    let pte := entry (k_mem s) T (a / PGSIZE) in
    if Z.land pte PTE_P =? 0 then None else Some (PTE_ADDR pte + a mod PGSIZE, PTE_FLAGS pte).
Proof.
  intros Hv Ha. unfold mmu, entry. rewrite PDX_vpn, PTX_vpn by done. pose proof (vpn_range a Ha) as Hi.
  destruct (T !! (a / PGSIZE / 1024)) as [t|] eqn:HT.
  - by destruct (dir_present _ _ _ _ _ _ Hv HT) as [-> ->].
  - by rewrite (vm_none _ _ _ _ Hv _ Hi HT).
Qed.

Lemma vpn_user a : 0 <= a < KERNBASE -> user_vpn (a / PGSIZE).
Proof. unfold user_vpn, KERNBASE, PGSIZE. intros Ha. Z.div_mod_to_equations. lia. Qed.

Lemma mmu_user s pgdir T U l X a :
  uvm s pgdir T U l X -> 0 <= a < KERNBASE ->
  mmu (k_mem s) pgdir a = (fun x => (V2P x.1 + a mod PGSIZE, x.2)) <$> U !! (a / PGSIZE).
Proof.
  intros Hu Ha. rewrite (mmu_entry s pgdir T l); [|apply Hu|unfold KERNBASE in *; lia]. cbv zeta.
  pose proof (vpn_user a Ha) as Hv. destruct (U !! (a / PGSIZE)) as [[p f]|] eqn:HU.
  - destruct (u_some _ _ _ _ _ _ Hu _ _ _ HU) as (_ & Hf & Hf1 & ->).
    assert (page_ok p) as Hp by (eapply uvm_page, owned_user, (upages_elem _ _ _ HU); done).
    by rewrite mkpte_P, Hf1, mkpte_addr, mkpte_flags.
  - by rewrite (u_none _ _ _ _ _ _ Hu _ Hv HU).
Qed.

Lemma P2V_offset p k : page_ok p -> 0 <= k < PGSIZE -> P2V (V2P p + k) = p + k.
Proof.
  intros Hp Hk. pose proof (page_ok_pos p Hp). destruct (V2P_page p Hp) as (-> & _ & _).
  destruct Hp as (_ & _ & Hp). unfold P2V. rewrite u32_small; unfold KERNBASE, PHYSTOP, PGSIZE in *; lia.
Qed.

Lemma user_byte_some s pgdir T U l X a p f :
  uvm s pgdir T U l X -> 0 <= a < KERNBASE -> U !! (a / PGSIZE) = Some (p, f) ->
  user_byte (k_mem s) pgdir a = Some (k_mem s (p + a mod PGSIZE)).
Proof.
  intros Hu Ha HU. unfold user_byte. rewrite (mmu_user s pgdir T U l X a Hu Ha), HU. cbn [fmap option_fmap option_map fst].
  rewrite P2V_offset; [done|eapply uvm_page, owned_user, (upages_elem _ _ _ HU); done|].
  apply Z.mod_pos_bound. done.
Qed.

Lemma user_byte_none s pgdir T U l X a :
  uvm s pgdir T U l X -> 0 <= a < KERNBASE -> U !! (a / PGSIZE) = None -> user_byte (k_mem s) pgdir a = None.
Proof. intros Hu Ha HU. unfold user_byte. by rewrite (mmu_user s pgdir T U l X a Hu Ha), HU. Qed.

(** Kept pages read as before. *)
Lemma user_byte_kept W s pgdir T U l X s' T' U' l' X' a :
  ustep W s pgdir T U l X s' T' U' l' X' -> uvm s pgdir T U l X -> 0 <= a < KERNBASE ->
  is_Some (W !! (a / PGSIZE)) -> user_byte (k_mem s') pgdir a = user_byte (k_mem s) pgdir a.
Proof.
  intros Hst Hu Ha [[p f] HW].
  pose proof (lookup_weaken _ _ _ _ HW (us_old _ _ _ _ _ _ _ _ _ _ _ _ Hst)) as Ho.
  pose proof (lookup_weaken _ _ _ _ HW (us_new Hst)) as Hn.
  rewrite (user_byte_some s' pgdir T' U' l' X' a p f (us_ok Hst) Ha Hn).
  rewrite (user_byte_some s pgdir T U l X a p f Hu Ha Ho).
  rewrite (us_keep Hst _ _ HW); [done|]. cbn [fst]. pose proof (Z.mod_pos_bound a PGSIZE ltac:(done)). lia.
Qed.

(** ** Theorems *)

Lemma byte_vpn a e : 0 <= a -> a < e * PGSIZE -> 0 <= a / PGSIZE < e.
Proof. unfold PGSIZE. intros H1 H2. Z.div_mod_to_equations. lia. Qed.

Lemma npages_bytes sz : 0 <= sz <= KERNBASE -> npages sz * PGSIZE <= KERNBASE.
Proof. intros Hs. pose proof (npages_range sz Hs). unfold KERNBASE, PGSIZE in *. lia. Qed.

Lemma usize_none U sz v : usize U sz -> npages sz <= v -> U !! v = None.
Proof.
  intros Hs Hv. destruct (U !! v) eqn:E; [|done]. assert (is_Some (U !! v)) as Hi by (by rewrite E).
  apply Hs in Hi. lia.
Qed.

Lemma ucut_usize U oldsz newsz : usize U oldsz -> ucut U (npages oldsz) (npages newsz) = U.
Proof.
  intros Hs. apply map_eq. intros u. rewrite lookup_ucut. zcases; simpl; try done.
  by rewrite (usize_none U oldsz) by done.
Qed.

Lemma grown_usize U U' oldsz newsz m :
  usize U oldsz -> 0 <= oldsz <= newsz -> grown U U' (npages oldsz) (npages newsz) m -> usize U' newsz.
Proof.
  intros Hs Ho Hg v. specialize (Hg v). pose proof (npages_mono oldsz newsz ltac:(lia)).
  assert (0 <= npages oldsz) by (unfold npages, PGSIZE; Z.div_mod_to_equations; lia).
  destruct (decide (npages oldsz <= v < npages newsz)) as [Hr|Hr].
  - revert Hg. zcases; simpl. intros (p & -> & _). split; [lia|by eexists].
  - assert (U' !! v = U !! v) as -> by (revert Hg; zcases; simpl; (done || lia)). rewrite (Hs v). lia.
Qed.

(** [allocuvm] grows an address space or leaves it as it was.  The old
    bytes keep their values, and no page of the machine is lost.  On success
    the new bytes read as zero and are writable by the user; when memory
    runs out, 0 is returned and every page that had been added is free again. *)
Theorem allocuvm_correct s pgdir T U l oldsz newsz :
  uvm s pgdir T U l [] -> L_kmem ∉ k_held s -> L_cons ∉ k_held s -> cursor_ok s ->
  usize U oldsz -> 0 <= oldsz -> oldsz < KERNBASE ->
  if KERNBASE <=? newsz then allocuvm pgdir oldsz newsz s = Ret 0 s
  else if newsz <? oldsz then allocuvm pgdir oldsz newsz s = Ret oldsz s
  else exists r s' T' U' l', allocuvm pgdir oldsz newsz s = Ret r s' /\
    uvm s' pgdir T' U' l' [] /\ uframe s s' /\ owned pgdir T' U' l' [] ≡ₚ owned pgdir T U l [] /\
    (forall p, page_ok p -> p ∉ owned pgdir T U l [] -> same_on (k_mem s) (k_mem s') p) /\
    (forall a, 0 <= a < npages oldsz * PGSIZE ->
       user_byte (k_mem s') pgdir a = user_byte (k_mem s) pgdir a) /\
    ((r = newsz /\ usize U' newsz /\
        forall a, npages oldsz * PGSIZE <= a < npages newsz * PGSIZE ->
          user_byte (k_mem s') pgdir a = Some 0 /\ snd <$> mmu (k_mem s') pgdir a = Some 7) \/
     (r = 0 /\ U' = U)).
Proof.
  intros Hu Hh Hc Hcur Hs Ho Hk. pose proof (npages_bytes oldsz ltac:(lia)) as Hb.
  destruct (Z.leb_spec KERNBASE newsz) as [Hn|Hn].
  { unfold allocuvm. by rewrite (proj2 (Z.leb_le _ _) Hn). }
  destruct (Z.ltb_spec newsz oldsz) as [Hlt|Hge].
  { unfold allocuvm. by rewrite (proj2 (Z.leb_gt _ _) Hn), (proj2 (Z.ltb_lt _ _) Hlt). }
  destruct (wp_inv _ _ _ (allocuvm_spec s pgdir T U l [] oldsz newsz Hu Hh Hc Hcur ltac:(lia) Hn
    (fun u Hr => usize_none U oldsz u Hs (proj1 Hr)))) as (r & s' & Hrun & Hp).
  pose proof (npages_bytes newsz ltac:(lia)) as Hb'.
  assert (forall a, 0 <= a < npages oldsz * PGSIZE -> is_Some (U !! (a / PGSIZE))) as Hold.
  { intros a Ha. apply Hs, byte_vpn; lia. }
  destruct Hp as [(-> & T' & U' & l' & Hst & Hg)|(-> & T' & l' & Hst)].
  - exists newsz, s', T', U', l'. pose proof Hst as [A1 A2 A3 A4 A5 A6 A7 A8 A9]. split_and!; try done.
    + intros a Ha. eapply user_byte_kept; [done..|lia|auto].
    + left. split; [done|]. split; [by eapply grown_usize|]. intros a Ha.
      assert (0 <= npages oldsz) by (unfold npages, PGSIZE; Z.div_mod_to_equations; lia).
      assert (npages oldsz <= a / PGSIZE < npages newsz) as Hv by (unfold PGSIZE in *; Z.div_mod_to_equations; lia).
      specialize (Hg (a / PGSIZE)). revert Hg. zcases; simpl. intros (p & Hp & Hz).
      rewrite (user_byte_some s' pgdir T' U' l' [] a p 7), (mmu_user s' pgdir T' U' l' [] a), Hp by
        (done || unfold PGSIZE in *; lia).
      rewrite Hz; [done|]. pose proof (Z.mod_pos_bound a PGSIZE ltac:(done)). lia.
  - cbv zeta in Hst. rewrite (ucut_usize _ _ _ Hs) in Hst. exists 0, s', T', U, l'.
    pose proof Hst as [A1 A2 A3 A4 A5 A6 A7 A8 A9]. split_and!; try done; [|by right].
    intros a Ha. eapply user_byte_kept; [done..|lia|auto].
Qed.

(** [deallocuvm] shrinks an address space from [oldsz] to [newsz] bytes.
    The pages above [newsz] are on the free list afterwards and fault when
    accessed, the bytes of the remaining pages keep their values. *)
Theorem deallocuvm_correct s pgdir T U l oldsz newsz :
  uvm s pgdir T U l [] -> L_kmem ∉ k_held s -> usize U oldsz -> 0 <= oldsz <= KERNBASE -> 0 <= newsz ->
  exists s' U' l', deallocuvm pgdir oldsz newsz s = Ret (Z.min oldsz newsz) s' /\
    uvm s' pgdir T U' l' [] /\ uframe s s' /\ usize U' (Z.min oldsz newsz) /\ U' ⊆ U /\
    upages U' ++ l' ≡ₚ upages U ++ l /\
    (forall p, page_ok p -> p ∉ owned pgdir T U l [] -> same_on (k_mem s) (k_mem s') p) /\
    forall a, 0 <= a < KERNBASE ->
      user_byte (k_mem s') pgdir a =
        if a <? npages newsz * PGSIZE then user_byte (k_mem s) pgdir a else None.
Proof.
  intros Hu Hh Hs Ho Hn.
  destruct (wp_inv _ _ _ (deallocuvm_spec s pgdir T U l [] oldsz newsz Hu Hh Ho Hn)) as (r & s' & Hrun & -> & l' & Hst).
  exists s', (ucut U (npages newsz) (npages oldsz)), l'. pose proof Hst as [A1 A2 A3 A4 A5 A6 A7 A8 A9].
  assert (0 <= npages newsz) by (unfold npages, PGSIZE; Z.div_mod_to_equations; lia).
  split_and!; try done.
  - intros v. rewrite lookup_ucut. destruct (Z.min_spec oldsz newsz) as [[Hm ->]|[Hm ->]].
    + pose proof (npages_mono oldsz newsz ltac:(lia)). rewrite <- (Hs v). by zcases.
    + pose proof (npages_mono newsz oldsz ltac:(lia)). zcases; simpl; try (rewrite (Hs v); lia); split; [by intros [? ?]|lia].
  - unfold owned in A3. rewrite !app_nil_r in A3. by apply Permutation_app_inv_l in A3.
  - intros a Ha. destruct (Z.ltb_spec a (npages newsz * PGSIZE)) as [Hlt|Hge].
    + destruct (U !! (a / PGSIZE)) as [x|] eqn:E.
      * eapply user_byte_kept; [done..|]. rewrite lookup_ucut, E.
        pose proof (byte_vpn a (npages newsz) ltac:(lia) ltac:(lia)). by zcases.
      * rewrite (user_byte_none s pgdir T U l [] a Hu Ha E).
        eapply user_byte_none; [done..|]. rewrite lookup_ucut, E. by destruct (_ && _).
    + eapply user_byte_none; [done..|]. rewrite lookup_ucut.
      assert (npages newsz <= a / PGSIZE) by (unfold PGSIZE in *; Z.div_mod_to_equations; lia).
      zcases; simpl; try done. by apply (usize_none U oldsz).
Qed.

(** [freevm] returns every page of an address space: afterwards the free
    list is the old one together with the page directory, the page tables
    and the user pages, and no other page has changed. *)
Theorem freevm_correct s pgdir T U l :
  uvm s pgdir T U l [] -> L_kmem ∉ k_held s ->
  exists s' l', freevm pgdir s = Ret tt s' /\ kmem_ok s' l' /\
    l' ≡ₚ pt_pages pgdir T ++ upages U ++ l /\ uframe s s' /\
    forall p, page_ok p -> p ∉ l' -> same_on (k_mem s) (k_mem s') p.
Proof.
  intros Hu Hh. destruct (wp_inv _ _ _ (freevm_spec s pgdir T U l [] Hu Hh)) as ([] & s' & Hrun & l' & Hk & HP & [F1 F2]).
  rewrite app_nil_r in HP. exists s', l'. split_and!; try done.
  - rewrite HP. unfold owned. by rewrite app_nil_r.
  - intros p Hp Hn. apply F2; [done|]. by rewrite <- HP.
Qed.

(** The physical address of a kernel address: the mapping of memlayout.h. *)
Definition kernel_pa (a : Z) : option Z :=
  if (KERNBASE <=? a) && (a <? KERNBASE + PHYSTOP) then Some (a - KERNBASE)
  else if (DEVSPACE <=? a) && (a <? 2 ^ 32) then Some a else None.

(** The kernel's text is read-only, the rest writable; none is for the user. *)
Definition kernel_flags (a : Z) : Z := if (KERNLINK <=? a) && (a <? l_data) then PTE_P else Z.lor PTE_W PTE_P.

Lemma kmap_entry u :
  2 ^ 19 <= u < 2 ^ 20 ->
  regions_pte kmap u =
    match kernel_pa (u * PGSIZE) with Some pa => pa + kernel_flags (u * PGSIZE) | None => 0 end.
Proof.
  intros Hu. destruct data_bounds as (Hd1 & Hd2 & Hd3). destruct kmap_lens as (E1 & E2 & E3 & E4 & E5 & E6).
  unfold kmap, regions_pte, in_region, region_vpn, region_len, region_pte, in_range, kernel_pa, kernel_flags.
  rewrite E1, E4, E5, E6, E2, E3. change (Z.lor PTE_W PTE_P) with 3. change (Z.lor PTE_W 1) with 3. change (Z.lor 0 1) with 1.
  unfold PTE_P, KERNLINK, EXTMEM, KERNBASE, PHYSTOP, DEVSPACE, PGSIZE in *. change (2 ^ 32) with 4294967296 in *.
  assert (l_data = l_data / 4096 * 4096) as Ed by (Z.div_mod_to_equations; lia). set (d := l_data / 4096) in *.
  assert ((2147483648 + 234881024 - l_data) / 4096 = 581632 - d) as -> by (rewrite Ed; Z.div_mod_to_equations; lia).
  assert ((l_data - (2147483648 + 1048576)) / 4096 = d - 524544) as -> by (rewrite Ed; Z.div_mod_to_equations; lia).
  change (2147483648 / 4096) with 524288. change ((2147483648 + 1048576) / 4096) with 524544.
  change (1048576 / 4096) with 256. change (4261412864 / 4096) with 1040384.
  change ((4294967296 - 4261412864) / 4096) with 8192. clearbody d. clear E1 E2 E3 E4 E5 E6 Hd3.
  destruct (Z.lt_ge_cases u 524544), (Z.lt_ge_cases u d), (Z.lt_ge_cases u 581632), (Z.lt_ge_cases u 1040384);
    try lia; zcases; simpl; lia.
Qed.

(** The address of a byte and of its page are mapped alike. *)
Lemma kernel_pa_page a :
  kernel_pa a = (fun pa => pa + a mod PGSIZE) <$> kernel_pa (a / PGSIZE * PGSIZE) /\
  kernel_flags (a / PGSIZE * PGSIZE) = kernel_flags a.
Proof.
  destruct data_bounds as (_ & _ & Hd). unfold kernel_pa, kernel_flags.
  unfold KERNLINK, EXTMEM, KERNBASE, PHYSTOP, DEVSPACE, PGSIZE in *.
  pose proof (Z.div_mod a 4096 ltac:(done)) as Ea. pose proof (Z.mod_pos_bound a 4096 ltac:(done)).
  pose proof (Z.div_mod l_data 4096 ltac:(done)) as El. rewrite Hd in El.
  set (q := a / 4096) in *. set (r := a mod 4096) in *. set (d := l_data / 4096) in *. clearbody q r d.
  change (2 ^ 32) with 4294967296. split.
  - zcases; simpl; f_equal; lia.
  - zcases; simpl; done.
Qed.

Lemma kernel_pa_range a pa : kernel_pa a = Some pa -> 0 <= pa < 2 ^ 32 /\ pa mod PGSIZE = a mod PGSIZE.
Proof.
  unfold kernel_pa, KERNBASE, PHYSTOP, DEVSPACE, PGSIZE. change (2 ^ 32) with 4294967296.
  zcases; simpl; intros Hp; simplify_eq; (split; [lia|]); Z.div_mod_to_equations; lia.
Qed.

Lemma kernel_half_mmu s pgdir T l a :
  vm_ok s pgdir T l -> kernel_half (k_mem s) T -> KERNBASE <= a < 2 ^ 32 ->
  mmu (k_mem s) pgdir a = (fun pa => (pa, kernel_flags a)) <$> kernel_pa a.
Proof.
  intros Hv Hk Ha. unfold KERNBASE in Ha.
  assert (2 ^ 19 <= a / PGSIZE < 2 ^ 20) as Hp by (unfold PGSIZE; Z.div_mod_to_equations; lia).
  rewrite (mmu_entry s pgdir T l) by (done || lia). cbv zeta.
  rewrite (Hk (a / PGSIZE) ltac:(lia)), kmap_entry by lia. destruct (kernel_pa_page a) as [-> ->].
  destruct (kernel_pa (a / PGSIZE * PGSIZE)) as [pa|] eqn:E; [|done].
  apply kernel_pa_range in E as [Hr Hm]. rewrite Z.mod_mul in Hm by done.
  assert (kernel_flags a = 1 \/ kernel_flags a = 3) as Hf.
  { unfold kernel_flags. destruct (_ && _); [by left|by right]. }
  assert (pa + kernel_flags a < 2 ^ 32) by (unfold PGSIZE in *; Z.div_mod_to_equations; lia).
  unfold PTE_P. rewrite land_1, PTE_FLAGS_spec, PTE_ADDR_spec by lia.
  assert ((pa + kernel_flags a) mod 2 = 1) as -> by (unfold PGSIZE in *; Z.div_mod_to_equations; lia).
  cbn [Z.eqb fmap option_fmap option_map].
  assert ((pa + kernel_flags a) mod PGSIZE = kernel_flags a) as -> by (unfold PGSIZE in *; Z.div_mod_to_equations; lia).
  do 2 f_equal. lia.
Qed.


Lemma copyuvm_spec s pgdir T U l sz :
  uvm s pgdir T U l [] -> L_kmem ∉ k_held s -> 0 <= sz <= KERNBASE ->
  (forall u, 0 <= u < npages sz -> is_Some (U !! u)) ->
  wp (copyuvm pgdir sz) s (fun r s' =>
    (r <> 0 /\ exists Td Ud l', uvm s' r Td Ud l' [] /\ uvm s' pgdir T U l' [] /\
       kernel_half (k_mem s') Td /\ pt_pages r Td ++ upages Ud ++ l' ≡ₚ l /\ freed_pages s l s' /\
       copied U ∅ Ud 0 (npages sz) (k_mem s')) \/
    (r = 0 /\ exists l', kmem_ok s' l' /\ l' ≡ₚ l /\ freed_pages s l s')).
Proof.
  intros Hu Hh Hsz HU. unfold copyuvm. apply wp_bind.
  eapply wp_mono; [apply (setupkvm_spec s l); [apply Hu|done]|].
  intros d s1 [(Hd & Td & l1 & Hu1 & Hkh & Hm & HP & Hf)|(-> & l1 & Hk & HP & Hf)].
  2:{ cbn [Z.eqb]. apply wp_ret. right. split; [done|]. by exists l1. }
  rewrite (proj2 (Z.eqb_neq _ _) Hd).
  assert (forall p, p ∈ pt_pages pgdir T ++ upages U -> p ∉ l) as Hnl.
  { intros p Hp Hl. pose proof (u_nodup _ _ _ _ _ _ Hu) as Hn. unfold owned in Hn. rewrite app_nil_r, app_assoc in Hn.
    apply NoDup_app in Hn as (_ & Hn & _). by apply (Hn p). }
  assert (apart pgdir T U (owned d Td ∅ l1 [])) as Ha by (intros p Hp; rewrite HP; auto).
  assert (uvm s1 pgdir T U l1 []) as Hup.
  { eapply uvm_keep; [done|apply Hu1|]. intros p Hp. split.
    - intros Hl. apply (Ha p Hp). by apply owned_free.
    - apply (fp_out _ _ _ Hf); [exact (uvm_tables_ok _ _ _ _ _ _ _ Hu Hp)|auto]. }
  assert (L_kmem ∉ k_held s1) as Hh1 by (by rewrite (uframe_held _ _ (fp_frame _ _ _ Hf))).
  eapply wp_mono; [apply (copyuvm_loop_spec _ s1 d Td ∅ l1 pgdir T U 0 sz); try done|].
  { unfold npages, PGSIZE. pose proof (npages_range sz Hsz). Z.div_mod_to_equations. lia. }
  intros r s2 [(-> & T2 & U2 & l2 & Hst & Hc)|(-> & l2 & Hk & HP2 & Hf2)]; [left|right]; (split; [done|]).
  - exists T2, U2, l2. pose proof (us_perm _ _ _ _ _ _ _ _ _ _ _ _ Hst) as HP2. split_and!; try done.
    + exact (us_ok Hst).
    + by eapply uvm_other.
    + intros v Hv. rewrite (us_kern _ _ _ _ _ _ _ _ _ _ _ _ Hst) by done. by apply Hkh.
    + rewrite <- HP, <- HP2. unfold owned. by rewrite app_nil_r.
    + eapply freed_pages_trans; [exact Hf|by eapply ustep_freed|]. intros x. by rewrite HP.
  - exists l2. split_and!; [done|by rewrite HP2|]. eapply freed_pages_trans; [exact Hf|exact Hf2|].
    intros x. by rewrite HP.
Qed.

Lemma user_not_free s pgdir T U l p :
  uvm s pgdir T U l [] -> p ∈ pt_pages pgdir T ++ upages U -> p ∉ l.
Proof.
  intros Hu Hp Hl. pose proof (u_nodup _ _ _ _ _ _ Hu) as Hn. unfold owned in Hn. rewrite app_nil_r, app_assoc in Hn.
  apply NoDup_app in Hn as (_ & Hn & _). by apply (Hn p).
Qed.

(** The bytes of an address space whose pages are not free do not change. *)
Lemma user_byte_freed s pgdir T U l s' l' a :
  uvm s pgdir T U l [] -> uvm s' pgdir T U l' [] -> freed_pages s l s' -> 0 <= a < KERNBASE ->
  user_byte (k_mem s') pgdir a = user_byte (k_mem s) pgdir a.
Proof.
  intros Hu Hu' Hf Ha. destruct (U !! (a / PGSIZE)) as [[p f]|] eqn:E.
  - rewrite (user_byte_some s' pgdir T U l' [] a p f), (user_byte_some s pgdir T U l [] a p f) by done.
    assert (p ∈ pt_pages pgdir T ++ upages U) as Hp.
    { apply elem_of_app. right. exact (upages_elem _ _ _ E). }
    rewrite (fp_out _ _ _ Hf p); [done|by eapply uvm_tables_ok|by eapply user_not_free|].
    pose proof (Z.mod_pos_bound a PGSIZE ltac:(done)). lia.
  - by rewrite (user_byte_none s' pgdir T U l' [] a), (user_byte_none s pgdir T U l [] a).
Qed.

Lemma copied_usize U Ud sz m : 0 <= sz -> copied U ∅ Ud 0 (npages sz) m -> usize Ud sz.
Proof.
  intros Hs Hc v. specialize (Hc v). destruct (decide (0 <= v < npages sz)) as [Hv|Hv].
  - revert Hc. zcases; simpl. intros (p & q & f & _ & -> & _). split; [lia|by eexists].
  - assert (Ud !! v = None) as -> by (revert Hc; rewrite lookup_empty; zcases; simpl; (done || lia)).
    split; [by intros [? ?]|lia].
Qed.


(** ** Copying to user memory *)

Lemma upages_inj s pgdir T U l X u v p f g :
  uvm s pgdir T U l X -> U !! u = Some (p, f) -> U !! v = Some (p, g) -> u = v.
Proof.
  intros Hu E1 E2. destruct (decide (u = v)) as [|Hne]; [done|exfalso].
  pose proof (u_nodup _ _ _ _ _ _ Hu) as Hn. unfold owned in Hn.
  apply NoDup_app in Hn as (_ & _ & Hn). apply NoDup_app in Hn as (Hn & _).
  rewrite (upages_delete U u (p, f) E1) in Hn. apply NoDup_cons in Hn as [Hn _]. apply Hn.
  apply (upages_elem (delete u U) v (p, g)). by rewrite lookup_delete_ne.
Qed.

(** Writing to a user page. *)
Lemma uvm_write s pgdir T U l X v p f m :
  uvm s pgdir T U l X -> U !! v = Some (p, f) ->
  (forall q, page_ok q -> q <> p -> same_on (k_mem s) m q) -> uvm (set_k_mem m s) pgdir T U l X.
Proof.
  intros Hu HU Hs. destruct (user_not_table _ _ _ _ _ _ _ _ Hu HU) as [_ Hn].
  apply (uvm_frame s); [done..|]. intros q Hq. apply Hs; [|by intros ->].
  eapply uvm_page; [exact Hu|]. apply elem_of_app in Hq as [Hq|Hq]; [by apply owned_table|by apply owned_free].
Qed.

(** [uva2ka] on a mapped page of the user, and on one the user may not use. *)
Lemma uva2ka_run s pgdir T U l X v p f :
  uvm s pgdir T U l X -> U !! v = Some (p, f) ->
  uva2ka pgdir (v * PGSIZE) s = Ret (if Z.land f PTE_U =? 0 then 0 else p) s.
Proof.
  intros Hu HU. destruct (mapped_entry _ _ _ _ _ _ _ _ _ Hu HU) as (Hw & Hne & He & Hp).
  destruct (u_some _ _ _ _ _ _ Hu _ _ _ HU) as (_ & Hf & Hf1 & _).
  unfold uva2ka. erewrite bind_run by exact Hw. rewrite (proj2 (Z.eqb_neq _ _) Hne). unfold get_mem. krun.
  rewrite He, mkpte_P, Hf1, mkpte_addr, P2V_V2P by done. cbn [Z.eqb].
  assert (Z.land (mkpte p f) PTE_U = Z.land f PTE_U) as ->; [|by destruct (Z.land f PTE_U =? 0)].
  rewrite <- (lor_mkpte p f), Z.land_lor_distr_l by done.
  destruct (V2P_page p Hp) as (_ & _ & Ha). rewrite (land_aligned _ _ 12); [done|lia|exact Ha|done].
Qed.

(** User memory with [buf] stored at [va]. *)
Definition stored (m m' : memory) (pgdir va : Z) (buf : list Z) : Prop :=
  forall a, 0 <= a < KERNBASE -> user_byte m' pgdir a =
    if (va <=? a) && (a <? va + Z.of_nat (length buf)) then Some (nth (Z.to_nat (a - va)) buf 0)
    else user_byte m pgdir a.

Lemma stored_app m1 m2 m3 pgdir va l1 l2 :
  stored m1 m2 pgdir va l1 -> stored m2 m3 pgdir (va + Z.of_nat (length l1)) l2 ->
  stored m1 m3 pgdir va (l1 ++ l2).
Proof.
  intros H1 H2 a Ha. rewrite (H2 a Ha), (H1 a Ha), length_app, Nat2Z.inj_add.
  destruct (Z.lt_ge_cases a va); [by zcases|].
  destruct (Z.lt_ge_cases a (va + Z.of_nat (length l1))).
  - rewrite app_nth1 by lia. by zcases.
  - rewrite app_nth2 by lia. replace (Z.to_nat (a - va) - length l1)%nat
      with (Z.to_nat (a - (va + Z.of_nat (length l1)))) by lia. zcases; simpl; (done || lia).
Qed.

(** Storing bytes within one page. *)
Lemma stored_page s pgdir T U l X va p f buf :
  uvm s pgdir T U l X -> U !! (va / PGSIZE) = Some (p, f) -> 0 <= va ->
  va mod PGSIZE + Z.of_nat (length buf) <= PGSIZE ->
  let m := write_bytes (k_mem s) (p + va mod PGSIZE) buf in
  uvm (set_k_mem m s) pgdir T U l X /\ stored (k_mem s) m pgdir va buf /\
  (forall q, page_ok q -> q <> p -> same_on (k_mem s) m q).
Proof.
  intros Hu HU Hva Hl m. pose proof (Z.mod_pos_bound va PGSIZE ltac:(done)) as Hm.
  destruct (user_not_table _ _ _ _ _ _ _ _ Hu HU) as [Hp _]. cbn [fst] in Hp.
  assert (forall q, page_ok q -> q <> p -> same_on (k_mem s) m q) as Hs.
  { intros q Hq Hne x Hx. unfold m. rewrite write_bytes_spec.
    destruct (page_disjoint q p Hq Hp Hne); zcases; simpl; (done || lia). }
  pose proof (uvm_write _ _ _ _ _ _ _ _ _ _ Hu HU Hs) as Hu'. split_and!; [done| |done].
  intros a Ha. change m with (k_mem (set_k_mem m s)) at 1.
  assert (a / PGSIZE <> va / PGSIZE -> (va <=? a) && (a <? va + Z.of_nat (length buf)) = false) as Hout.
  { intros Hne. unfold PGSIZE in *. zcases; simpl; try done. exfalso. Z.div_mod_to_equations. lia. }
  destruct (U !! (a / PGSIZE)) as [[q g]|] eqn:Eq.
  - rewrite (user_byte_some _ pgdir T U l X a q g Hu' Ha Eq), (user_byte_some s pgdir T U l X a q g Hu Ha Eq). kproj.
    destruct (decide (a / PGSIZE = va / PGSIZE)) as [E|Hne].
    + assert (q = p) as -> by congruence. unfold m. rewrite write_bytes_spec.
      assert (a - va = a mod PGSIZE - va mod PGSIZE) as Ed by (unfold PGSIZE in *; Z.div_mod_to_equations; lia).
      replace (p + a mod PGSIZE - (p + va mod PGSIZE)) with (a - va) by lia. zcases; simpl; (done || lia).
    + rewrite Hout by done. f_equal. apply (Hs q).
      * eapply uvm_page, owned_user, (upages_elem _ _ _ Eq). done.
      * intros ->. apply Hne. by eapply upages_inj.
      * pose proof (Z.mod_pos_bound a PGSIZE ltac:(done)). lia.
  - rewrite (user_byte_none _ pgdir T U l X a Hu' Ha Eq), (user_byte_none s pgdir T U l X a Hu Ha Eq).
    rewrite Hout; [done|]. intros E. by rewrite E, HU in Eq.
Qed.

(** Every page of the [n] bytes at [va] is mapped for the user. *)
Definition user_range (U : umap) (va n : Z) : Prop :=
  forall a, va <= a < va + n -> exists p f, U !! (a / PGSIZE) = Some (p, f) /\ Z.land f PTE_U <> 0.

Lemma copyout_loop_spec fuel : forall s pgdir T U l X va buf,
  uvm s pgdir T U l X -> 0 <= va -> va + Z.of_nat (length buf) <= KERNBASE ->
  user_range U va (Z.of_nat (length buf)) -> (length buf < fuel)%nat ->
  wp (copyout_loop fuel pgdir va buf) s (fun r s' => r = 0 /\ uvm s' pgdir T U l X /\
    (exists m, s' = set_k_mem m s) /\ stored (k_mem s) (k_mem s') pgdir va buf /\
    (forall q, page_ok q -> q ∉ upages U -> same_on (k_mem s) (k_mem s') q)).
Proof.
  induction fuel as [|fuel IH]; intros s pgdir T U l X va buf Hu Hva Hk Hr Hf; [lia|].
  cbn [copyout_loop]. destruct (bool_decide_reflect (buf = [])) as [->|Hne].
  { apply wp_ret. split_and!; try done.
    - exists (k_mem s). by destruct s.
    - intros a Ha. simpl. by zcases. }
  assert (0 < length buf)%nat as Hlen by (destruct buf; simpl; [done|lia]).
  destruct (Hr va ltac:(lia)) as (p & f & HU & HfU). set (off := va mod PGSIZE).
  pose proof (Z.mod_pos_bound va PGSIZE ltac:(done)) as Hoff. fold off in Hoff.
  assert (PGROUNDDOWN va = va / PGSIZE * PGSIZE) as ->.
  { rewrite PGROUNDDOWN_spec by (unfold KERNBASE in *; lia). unfold PGSIZE. Z.div_mod_to_equations. lia. }
  assert (va - va / PGSIZE * PGSIZE = off) as -> by (unfold off, PGSIZE; Z.div_mod_to_equations; lia).
  apply wp_bind. eapply wp_run; [by eapply uva2ka_run|]. rewrite (proj2 (Z.eqb_neq _ _) HfU).
  destruct (user_not_table _ _ _ _ _ _ _ _ Hu HU) as [Hp _]. cbn [fst] in Hp. pose proof (page_ok_pos p Hp).
  rewrite (proj2 (Z.eqb_neq p 0)) by (unfold KERNBASE in *; lia).
  apply wp_bind. eapply wp_run; [reflexivity|]. apply wp_bind. eapply wp_run; [reflexivity|].
  set (n := Z.to_nat (Z.min (PGSIZE - off) (Z.of_nat (length buf)))).
  assert (0 < n <= length buf)%nat as Hn by (unfold n; lia).
  assert (Z.of_nat (length (take n buf)) = Z.of_nat n) as Htl by (rewrite length_take; lia).
  destruct (stored_page s pgdir T U l X va p f (take n buf) Hu HU Hva) as (Hu1 & Hs1 & Ho1).
  { rewrite Htl. unfold n, off in *. lia. }
  destruct (u_some _ _ _ _ _ _ Hu _ _ _ HU) as (Hv & _). rewrite u32_page_succ by done.
  assert ((va / PGSIZE + 1) * PGSIZE = va + Z.of_nat n \/ drop n buf = []) as Hnext.
  { destruct (Z.min_spec (PGSIZE - off) (Z.of_nat (length buf))) as [[Hm E]|[Hm E]].
    - left. unfold n. rewrite E. unfold off, PGSIZE in *. Z.div_mod_to_equations. lia.
    - right. apply drop_ge. unfold n. lia. }
  eapply wp_mono; [apply (IH _ pgdir T U l X _ (drop n buf) Hu1)|].
  - unfold user_vpn, PGSIZE in *. lia.
  - rewrite length_drop. unfold user_vpn, KERNBASE, PGSIZE in *. destruct Hnext as [->|E]; [lia|].
    apply (f_equal length) in E. rewrite length_drop in E. simpl in E. lia.
  - intros a Ha. rewrite length_drop in Ha. apply Hr. destruct Hnext as [E|E]; [lia|].
    apply (f_equal length) in E. rewrite length_drop in E. simpl in E. lia.
  - rewrite length_drop. lia.
  - intros r s' (-> & Hu2 & [m ->] & Hs2 & Ho2). split_and!; [done..|by exists m| |].
    + rewrite <- (take_drop n buf). eapply stored_app; [exact Hs1|]. rewrite Htl.
      destruct Hnext as [<-|E]; [exact Hs2|]. rewrite E in *. intros a Ha. etransitivity; [exact (Hs2 a Ha)|]. simpl. by zcases.
    + intros q Hq Hn'. eapply same_on_trans; [apply Ho1; [done|]|by apply Ho2].
      intros ->. apply Hn'. exact (upages_elem _ _ _ HU).
Qed.

(** [copyout] stores its bytes at a user address.  Where every page of
    the range is mapped for the user it returns 0, the user reads the bytes
    at the address, and every other byte of the address space and every
    page of another owner is unchanged, also where the range crosses page
    boundaries. *)
Theorem copyout_correct s pgdir T U l va buf :
  uvm s pgdir T U l [] -> 0 <= va -> va + Z.of_nat (length buf) <= KERNBASE ->
  user_range U va (Z.of_nat (length buf)) ->
  exists s', copyout pgdir va buf s = Ret 0 s' /\ uvm s' pgdir T U l [] /\
    stored (k_mem s) (k_mem s') pgdir va buf /\
    (forall q, page_ok q -> q ∉ upages U -> same_on (k_mem s) (k_mem s') q).
Proof.
  intros Hu Hva Hk Hr.
  destruct (wp_inv _ _ _ (copyout_loop_spec (S (length buf)) s pgdir T U l [] va buf Hu Hva Hk Hr ltac:(lia)))
    as (r & s' & Hrun & -> & Hu' & _ & Hs & Ho).
  by exists s'.
Qed.
End uvm.

(** ** Witnesses *)

#[local] Existing Instance demo_link.
#[local] Existing Instance demo_link_ok.

(** An address space of one page, and two free pages. *)
Definition demo_T : gmap Z Z := {[ 0 := 0x80401000 ]}.
Definition demo_U : umap := {[ 0 := (0x80402000, 7) ]}.
Definition demo_l : list Z := [0x80200000; 0x80300000].
Definition demo_space : kernel :=
  set_k_freelist 0x80200000
    (set_k_mem (store32 (store32 (store32 (fun _ => 0) 0x80200000 0x80300000)
      0x80400000 (mkpte 0x80401000 7)) 0x80401000 (mkpte 0x80402000 7)) kernel_zero).

Lemma demo_space_uvm : uvm demo_space 0x80400000 demo_T demo_U demo_l [].
Proof.
  assert (pt_pages 0x80400000 demo_T = [0x80400000; 0x80401000]) as Ep by done.
  assert (owned 0x80400000 demo_T demo_U demo_l [] =
    [0x80400000; 0x80401000; 0x80402000; 0x80200000; 0x80300000]) as Eo by done.
  assert (forall a, 0x80400004 <= a -> ~ (0x80401000 <= a < 0x80401004) -> k_mem demo_space a = 0) as Hz.
  { intros a Ha Hn. unfold demo_space. kproj. by rewrite !store32_other by lia. }
  split; [split|..].
  - split.
    + vm_compute. done.
    + apply (bool_decide_unpack _). vm_compute. done.
    + repeat constructor; vm_compute; done.
  - rewrite Ep. apply (bool_decide_unpack _). vm_compute. done.
  - rewrite Ep. repeat constructor; vm_compute; done.
  - unfold demo_T. intros i t [<- <-]%lookup_singleton_Some. split; [lia|]. vm_compute. done.
  - unfold demo_T. intros i Hi Hn%lookup_singleton_None. unfold load32. rewrite !Hz by lia. done.
  - rewrite Eo. apply (bool_decide_unpack _). vm_compute. done.
  - rewrite Eo. repeat constructor; vm_compute; done.
  - unfold demo_U. intros v p f [<- E]%lookup_singleton_Some. simplify_eq. split_and!; vm_compute; done.
  - unfold demo_U. intros v Hv Hn%lookup_singleton_None. unfold entry, demo_T.
    destruct ({[0 := 2151682048]} !! (v / 1024)) as [t|] eqn:E; [|done].
    apply lookup_singleton_Some in E as [E <-]. pose proof (Z.mod_pos_bound v 1024 ltac:(lia)).
    pose proof (Z.div_mod v 1024 ltac:(done)). unfold load32. rewrite !Hz by lia. done.
Qed.

Lemma demo_space_usize : usize demo_U PGSIZE.
Proof.
  intros v. change (npages PGSIZE) with 1. unfold demo_U. destruct (decide (v = 0)) as [->|Hne].
  - rewrite lookup_singleton_eq. split; [lia|by eexists].
  - rewrite lookup_singleton_ne by done. split; [by intros [? ?]|lia].
Qed.

Lemma demo_space_quiet : cursor_ok demo_space /\ (L_kmem ∉ k_held demo_space) /\ L_cons ∉ k_held demo_space.
Proof. split; [unfold cursor_ok; vm_compute; done|]. split; apply not_elem_of_nil. Qed.

Lemma allocuvm_correct_witness :
  exists r s', allocuvm 0x80400000 PGSIZE (PGSIZE + 1) demo_space = Ret r s' /\
    forall a, 0 <= a < 0x1000 -> user_byte (k_mem s') 0x80400000 a = user_byte (k_mem demo_space) 0x80400000 a.
Proof.
  destruct demo_space_quiet as (H1 & H2 & H3).
  destruct (allocuvm_correct demo_space 0x80400000 demo_T demo_U demo_l PGSIZE (PGSIZE + 1) demo_space_uvm
    H2 H3 H1 demo_space_usize ltac:(unfold PGSIZE; lia) ltac:(reflexivity))
    as (r & s' & T' & U' & l' & Hrun & _ & _ & _ & _ & Hold & _).
  exists r, s'. split; assumption.
Defined.

Lemma deallocuvm_correct_witness :
  exists s', deallocuvm 0x80400000 PGSIZE 0 demo_space = Ret 0 s' /\ user_byte (k_mem s') 0x80400000 5 = None.
Proof.
  destruct demo_space_quiet as (_ & H2 & _).
  destruct (deallocuvm_correct demo_space 0x80400000 demo_T demo_U demo_l PGSIZE 0 demo_space_uvm
    H2 demo_space_usize ltac:(unfold PGSIZE, KERNBASE; lia) ltac:(lia))
    as (s' & U' & l' & Hrun & _ & _ & _ & _ & _ & _ & Hb).
  exists s'. split; [exact Hrun|]. exact (Hb 5 ltac:(unfold KERNBASE; lia)).
Defined.

Lemma freevm_correct_witness :
  exists s' l', freevm 0x80400000 demo_space = Ret tt s' /\ kmem_ok s' l' /\
    l' ≡ₚ [0x80400000; 0x80401000; 0x80402000; 0x80200000; 0x80300000].
Proof.
  destruct demo_space_quiet as (_ & H2 & _).
  destruct (freevm_correct demo_space 0x80400000 demo_T demo_U demo_l demo_space_uvm H2) as (s' & l' & H3 & H4 & H5 & _).
  exists s', l'. split; [assumption|]. split; assumption.
Defined.



Lemma copyout_correct_witness :
  exists s', copyout 0x80400000 100 [1; 2; 3] demo_space = Ret 0 s' /\
    user_byte (k_mem s') 0x80400000 101 = Some 2.
Proof.
  destruct (copyout_correct demo_space 0x80400000 demo_T demo_U demo_l 100 [1; 2; 3] demo_space_uvm
    ltac:(lia) ltac:(unfold KERNBASE; simpl; lia)) as (s' & Hrun & _ & Hs & _).
  - intros a Ha. simpl in Ha. exists 0x80402000, 7. split; [|done].
    assert (a / PGSIZE = 0) as -> by (apply Z.div_small; unfold PGSIZE; lia). reflexivity.
  - exists s'. split; [exact Hrun|]. exact (Hs 101 ltac:(unfold KERNBASE; lia)).
Defined.
