(* ===== verification/Sched.v ===== *)
(** * The scheduler (proc.c)

    [scheduler_pass] is one round of the endless loop of [scheduler], for the
    strategy that SCHEDFLAG selects.  The cases of the [switch] statement have
    no [break], so that a strategy also executes the cases after its own.
    [play] runs a round against an environment that says in what state each
    process gives the processor back; the other processors run processes and
    change the table while one runs here. *)

From stdpp Require Import base numbers list option strings gmap.
From S2P Require Import Prelude Kernel Fields Mmu Spinlock Proc Cprintf Cstring Kalloc Vm.

(** ** The code *)

(** The accounting at the start of a round. *)
Definition account (ticks : Z) (p : proc) : proc :=
  set_p_last_check ticks
    (if is_state RUNNING p then set_p_rtime (u32 (p_rtime p + (ticks - p_last_check p))) p else p).

(** Give the processor to process [i] until it comes back. *)
Definition run_proc (i : nat) : K unit :=
  modify (set_k_cur (Some i)) ;;
  switchuvm i ;;
  upd_proc i (set_p_state RUNNING) ;;
  swtch (Some i) ;;
  switchkvm ;;
  modify (set_k_cur None).

(** Case 1: the oldest process.  [min_ctime] is an [int] compared with the
    unsigned [p->ctime]. *)
Fixpoint fcfs_scan (l : list proc) (i : nat) (min_ctime : Z) (to_run : option nat) : option nat :=
  match l with
  | [] => to_run
  | p :: l' =>
      if negb (is_state RUNNABLE p) then fcfs_scan l' (S i) min_ctime to_run
      else if p_ctime p <? u32 min_ctime then fcfs_scan l' (S i) (i32 (p_ctime p)) (Some i)
      else fcfs_scan l' (S i) min_ctime to_run
  end.

Definition fcfs_case : K unit :=
  ticks <- gets k_ticks ;;
  t <- gets k_proc ;;
  match fcfs_scan t 0 (i32 (ticks + 1000)) None with
  | Some i => run_proc i
  | None => ret tt
  end.

(** Case 2: every process of the best priority. *)
Fixpoint pbs_scan (l : list proc) (priority_chosen : Z) : Z :=
  match l with
  | [] => priority_chosen
  | p :: l' =>
      if negb (is_state RUNNABLE p) then pbs_scan l' priority_chosen
      else pbs_scan l' (if p_priority p <? priority_chosen then p_priority p else priority_chosen)
  end.

Definition pbs_case : K unit :=
  t <- gets k_proc ;;
  let priority_chosen := pbs_scan t 101 in
  when (negb (priority_chosen =? 101))
    (foreach (seq 0 NPROC) (fun i =>
      p <- get_proc i ;;
      when (is_state RUNNABLE p && (p_priority p =? priority_chosen)) (run_proc i))).

(** Case 4: every runnable process in turn. *)
Definition rr_case : K unit :=
  foreach (seq 0 NPROC) (fun i => p <- get_proc i ;; when (is_state RUNNABLE p) (run_proc i)).

Definition sched_strat (flag : Z) : Z :=
  if flag =? 70 then 1 else if flag =? 80 then 2 else if flag =? 77 then 3 else if flag =? 82 then 4 else -1.

(** A [case] is reached from its own label and from those above it; case 3
    is empty. *)
Definition scheduler_pass (strat : Z) : K unit :=
  acquire L_ptable ;;
  modify (fun s => set_k_proc (account (k_ticks s) <$> k_proc s) s) ;;
  when (strat =? 1) fcfs_case ;;
  when ((1 <=? strat) && (strat <=? 2)) pbs_case ;;
  when ((1 <=? strat) && (strat <=? 4)) rr_case ;;
  release L_ptable.

(** [n] rounds of the loop that never ends. *)
Fixpoint scheduler_loop (n : nat) (strat : Z) : K unit :=
  match n with
  | O => out_of_fuel
  | S n' => scheduler_pass strat ;; scheduler_loop n' strat
  end.

Definition scheduler (n : nat) (flag : Z) : K unit :=
  modify (set_k_cur None) ;; scheduler_loop n (sched_strat flag).

(** ** Running against an environment *)

(** [env i s] is the state in which process [i], switched to in [s], comes
    back to the scheduler.  [play] gives the processes switched to, in
    order, and the result. *)
Fixpoint play {A} (env : nat -> kernel -> kernel) (r : res kernel A) : list nat * option (A * kernel) :=
  match r with
  | Ret a s => ([], Some (a, s))
  | Swtch (Some i) s k => let '(tr, o) := play env (k (env i s)) in (i :: tr, o)
  | _ => ([], None)
  end.

Definition state_of (s : kernel) (i : nat) : procstate := p_state (k_proc s !!! i).

(** What holds whenever the scheduler has the processor: what is runnable has a
    stack and a page table.  Processes may be running on other processors. *)
Record sched_ready (s : kernel) : Prop := {
  sr_len : length (k_proc s) = NPROC;
  sr_ready : forall i, (i < NPROC)%nat -> state_of s i = RUNNABLE ->
    p_kstack (k_proc s !!! i) <> 0 /\ p_pgdir (k_proc s !!! i) <> 0;
}.

(** The state in which process [i] gets the processor: it is the current
    process and marked as running, its page table is loaded, and only
    ptable.lock is held. *)
Record dispatched (i : nat) (s : kernel) : Prop := {
  dp_len : length (k_proc s) = NPROC;
  dp_cur : k_cur s = Some i;
  dp_held : k_held s = [L_ptable];
  dp_run : state_of s i = RUNNING;
  dp_cr3 : k_cr3 s = V2P (p_pgdir (k_proc s !!! i));
  dp_ready : forall j, (j < NPROC)%nat -> state_of s j = RUNNABLE ->
    p_kstack (k_proc s !!! j) <> 0 /\ p_pgdir (k_proc s !!! j) <> 0;
}.

(** What holds when process [i] gives the processor back: ptable.lock is taken
    again ([sched] checks it), and a process that was runnable still is, unless
    another processor took it: [gone] are the processes that other processors
    take while the round lasts. *)
Record returned (gone : nat -> Prop) (i : nat) (s s' : kernel) : Prop := {
  rt_ready : sched_ready s';
  rt_held : k_held s' = [L_ptable];
  rt_keep : forall j, (j < NPROC)%nat -> j <> i -> ~ gone j -> state_of s j = RUNNABLE -> state_of s' j = RUNNABLE;
}.

Definition env_ok (gone : nat -> Prop) (env : nat -> kernel -> kernel) : Prop :=
  forall i s, (i < NPROC)%nat -> dispatched i s -> returned gone i s (env i s).

(** ** Lemmas *)

Lemma play_bind {A B} env (r : res kernel A) (f : A -> K B) tr a s :
  play env r = (tr, Some (a, s)) ->
  play env (res_bind r f) = (tr ++ (play env (f a s)).1, (play env (f a s)).2).
Proof.
  revert tr. induction r as [a' s'|m|t s' k IH|]; intros tr; cbn [play res_bind]; try done.
  - intros [= <- <- <-]. by destruct (play env (f a' s')).
  - destruct t as [i|]; [|done]. destruct (play env (k (env i s'))) as [tr1 o] eqn:E. intros [= <- ->].
    by rewrite (IH _ _ E).
Qed.

Section play.
Context (env : nat -> kernel -> kernel).

(** [plays c s P]: [c] comes to its end from [s], having switched to the
    processes [tr], in a state that satisfies [P]. *)
Definition plays (c : K unit) (s : kernel) (P : list nat -> kernel -> Prop) : Prop :=
  exists tr s', play env (c s) = (tr, Some (tt, s')) /\ P tr s'.

Lemma plays_ret s P : P [] s -> plays (ret tt) s P.
Proof. intros HP. by exists [], s. Qed.

Lemma plays_bind c d s P :
  plays c s (fun tr s' => plays d s' (fun tr' => P (tr ++ tr'))) -> plays (c ;; d) s P.
Proof.
  intros (tr & s1 & E1 & tr' & s2 & E2 & HP). exists (tr ++ tr'), s2. split; [|done].
  unfold bind. by rewrite (play_bind _ _ _ _ _ _ E1), E2.
Qed.

Lemma plays_mono c s (P P' : list nat -> kernel -> Prop) :
  plays c s P -> (forall tr s', P tr s' -> P' tr s') -> plays c s P'.
Proof. intros (tr & s' & E & HP) Hm. exists tr, s'. auto. Qed.

Lemma plays_gets {A} (f : kernel -> A) (d : A -> K unit) s P : plays (d (f s)) s P -> plays (a <- gets f ;; d a) s P.
Proof. done. Qed.

Lemma plays_run c s s' (P : list nat -> kernel -> Prop) : c s = Ret tt s' -> P [] s' -> plays c s P.
Proof. intros E HP. exists [], s'. by rewrite E. Qed.

(** A loop whose body keeps [I], given what has been visited and the
    processes switched to so far. *)
Lemma plays_foreach {X} (body : X -> K unit) (I : list X -> list nat -> kernel -> Prop) (l : list X) :
  (forall x pre s tr, x ∈ l -> I pre tr s -> plays (body x) s (fun tr' s' => I (pre ++ [x]) (tr ++ tr') s')) ->
  forall pre tr s, I pre tr s -> plays (foreach l body) s (fun tr' s' => I (pre ++ l) (tr ++ tr') s').
Proof.
  induction l as [|x l IH]; intros Hb pre tr s HI; cbn [foreach].
  - apply plays_ret. by rewrite !app_nil_r.
  - apply plays_bind. eapply plays_mono; [apply Hb; [by left|exact HI]|]. intros tr1 s1 HI1.
    eapply plays_mono; [apply (IH (fun y p s2 tr2 Hy => Hb y p s2 tr2 (proj2 (elem_of_cons _ _ _) (or_intror Hy))) _ _ _ HI1)|].
    intros tr2 s2. cbv beta. by rewrite <- !app_assoc.
Qed.
End play.

Lemma state_alter s i j f :
  (i < length (k_proc s))%nat ->
  p_state (alter f i (k_proc s) !!! j) = if decide (j = i) then p_state (f (k_proc s !!! i)) else p_state (k_proc s !!! j).
Proof.
  intros Hi. destruct (decide (j = i)) as [->|Hne].
  - by rewrite list_lookup_total_alter_eq.
  - by rewrite list_lookup_total_alter_ne.
Qed.

(** The scheduler holds ptable.lock and no process is current. *)
Definition sched_inv (s : kernel) : Prop := sched_ready s /\ k_held s = [L_ptable].

Lemma run_proc_plays `{Link} gone env i s :
  env_ok gone env -> sched_inv s -> (i < NPROC)%nat -> state_of s i = RUNNABLE ->
  plays env (run_proc i) s (fun tr s' => tr = [i] /\ sched_inv s' /\ k_cur s' = None /\
    (forall j, (j < NPROC)%nat -> j <> i -> ~ gone j -> state_of s j = RUNNABLE -> state_of s' j = RUNNABLE) /\
    exists s1, dispatched i s1 /\ k_proc s' = k_proc (env i s1) /\
      k_proc s1 = alter (set_p_state RUNNING) i (k_proc s)).
Proof.
  intros He [[Hl Hrd] Hh] Hi Hr. destruct (Hrd i Hi Hr) as [Hks Hpg].
  set (s1 := set_k_proc (alter (set_p_state RUNNING) i (k_proc s))
    (set_k_cr3 (V2P (p_pgdir (k_proc s !!! i))) (set_k_cur (Some i) s))).
  assert (dispatched i s1) as Hd.
  { split; unfold s1; kproj; try done.
    - by rewrite length_alter.
    - unfold state_of. kproj. rewrite state_alter by (by rewrite Hl). by rewrite decide_True.
    - by rewrite list_lookup_total_alter_eq by (by rewrite Hl).
    - intros j Hj. unfold state_of. kproj. destruct (decide (j = i)) as [->|Hne].
      + by rewrite list_lookup_total_alter_eq by (by rewrite Hl).
      + rewrite list_lookup_total_alter_ne by done. by apply Hrd. }
  destruct (He i s1 Hi Hd) as [Hrd' Hh' Hk'].
  exists [i], (set_k_cur None (set_k_cr3 (V2P (k_kpgdir (env i s1))) (env i s1))). split.
  - unfold run_proc, switchuvm, get_proc, upd_proc, switchkvm. krun. kproj.
    rewrite (proj2 (Z.eqb_neq _ _) Hks), (proj2 (Z.eqb_neq _ _) Hpg). cbn [res_bind]. kproj. done.
  - split_and!; try done.
    + split; [|done]. destruct Hrd' as [R1 R2]. by split.
    + intros j Hj Hne Hg Hjr. apply Hk'; [done..|]. unfold state_of, s1. kproj. by rewrite list_lookup_total_alter_ne.
    + by exists s1.
Qed.

(** *** The choice of a process *)

Lemma fcfs_scan_spec l : forall i0 min to_run i,
  fcfs_scan l i0 min to_run = Some i -> Forall (fun p => 0 <= p_ctime p < 2 ^ 32) l -> 0 <= u32 min ->
  (to_run = Some i /\ (forall p, p ∈ l -> p_state p = RUNNABLE -> u32 min <= p_ctime p)) \/
  (exists p, (i0 <= i)%nat /\ l !! (i - i0)%nat = Some p /\ p_state p = RUNNABLE /\ p_ctime p < u32 min /\
     forall q, q ∈ l -> p_state q = RUNNABLE -> p_ctime p <= p_ctime q).
Proof.
  induction l as [|p l IH]; intros i0 min to_run i E Hl Hm; cbn [fcfs_scan] in E.
  { left. split; [done|]. by intros p Hp%not_elem_of_nil. }
  apply Forall_cons in Hl as [Hp Hl].
  assert (u32 (i32 (p_ctime p)) = p_ctime p) as Eu.
  { unfold u32, i32. rewrite Zminus_mod, Z.mod_mod, <- Zminus_mod by lia.
    replace (p_ctime p + 2 ^ 31 - 2 ^ 31) with (p_ctime p) by lia. by apply Z.mod_small. }
  unfold is_state in E. destruct (decide (p_state p = RUNNABLE)) as [Hr|Hr].
  - rewrite bool_decide_eq_true_2 in E by done. cbn [negb] in E.
    destruct (Z.ltb_spec (p_ctime p) (u32 min)) as [Hlt|Hge].
    + destruct (IH _ _ _ _ E Hl) as [[[= <-] Hall]|(q & Hi & Hq & Hqr & Hqc & Hall)]; [rewrite Eu; lia|right|right].
      * exists p. rewrite Nat.sub_diag. split_and!; try done.
        intros q [->|Hq]%elem_of_cons Hqr; [lia|]. rewrite Eu in Hall. by apply Hall.
      * exists q. rewrite Eu in Hqc. replace (i - i0)%nat with (S (i - S i0)) by lia.
        split_and!; try done; [lia|lia|]. intros r [->|Hr']%elem_of_cons Hrr; [lia|auto].
    + destruct (IH _ _ _ _ E Hl Hm) as [[-> Hall]|(q & Hi & Hq & Hqr & Hqc & Hall)]; [left|right].
      * split; [done|]. intros q [->|Hq]%elem_of_cons Hqr; [lia|auto].
      * exists q. replace (i - i0)%nat with (S (i - S i0)) by lia.
        split_and!; try done; [lia|]. intros r [->|Hr']%elem_of_cons Hrr; [lia|auto].
  - rewrite bool_decide_eq_false_2 in E by done. cbn [negb] in E.
    destruct (IH _ _ _ _ E Hl Hm) as [[-> Hall]|(q & Hi & Hq & Hqr & Hqc & Hall)]; [left|right].
    + split; [done|]. intros q [->|Hq]%elem_of_cons Hqr; [done|auto].
    + exists q. replace (i - i0)%nat with (S (i - S i0)) by lia.
      split_and!; try done; [lia|]. intros r [->|Hr']%elem_of_cons Hrr; [done|auto].
Qed.

Lemma fcfs_scan_none l : forall i0 min to_run,
  fcfs_scan l i0 min to_run = None -> to_run = None /\
  forall p, p ∈ l -> p_state p = RUNNABLE -> u32 min <= p_ctime p.
Proof.
  induction l as [|p l IH]; intros i0 min to_run E; cbn [fcfs_scan] in E.
  { split; [done|]. by intros p Hp%not_elem_of_nil. }
  unfold is_state in E. destruct (decide (p_state p = RUNNABLE)) as [Hr|Hr].
  - rewrite bool_decide_eq_true_2 in E by done. cbn [negb] in E.
    destruct (Z.ltb_spec (p_ctime p) (u32 min)) as [Hlt|Hge].
    + by apply IH in E as [? _].
    + apply IH in E as [-> Hall]. split; [done|]. intros q [->|Hq]%elem_of_cons Hqr; [lia|auto].
  - rewrite bool_decide_eq_false_2 in E by done. cbn [negb] in E.
    apply IH in E as [-> Hall]. split; [done|]. intros q [->|Hq]%elem_of_cons Hqr; [done|auto].
Qed.

Lemma pbs_scan_spec l c :
  pbs_scan l c <= c /\ (forall p, p ∈ l -> p_state p = RUNNABLE -> pbs_scan l c <= p_priority p) /\
  (pbs_scan l c = c \/ exists p, p ∈ l /\ p_state p = RUNNABLE /\ p_priority p = pbs_scan l c).
Proof.
  revert c. induction l as [|p l IH]; intros c; cbn [pbs_scan].
  { split_and!; [lia| |by left]. by intros p Hp%not_elem_of_nil. }
  unfold is_state. destruct (decide (p_state p = RUNNABLE)) as [Hr|Hr].
  - rewrite bool_decide_eq_true_2 by done. cbn [negb]. set (c' := if _ <? c then _ else c).
    destruct (IH c') as (H1 & H2 & H3). assert (c' <= c /\ c' <= p_priority p) as [? ?] by (unfold c'; zcases).
    split_and!; [lia| |].
    + intros q [->|Hq]%elem_of_cons Hqr; [lia|auto].
    + destruct H3 as [H3|(q & Hq & Hqr & Hqp)].
      * rewrite H3. unfold c'. destruct (Z.ltb_spec (p_priority p) c); [right|by left]. exists p. split; [by left|done].
      * right. exists q. split; [by right|done].
  - rewrite bool_decide_eq_false_2 by done. cbn [negb]. destruct (IH c) as (H1 & H2 & H3).
    split_and!; [done| |].
    + intros q [->|Hq]%elem_of_cons Hqr; [done|auto].
    + destruct H3 as [H3|(q & Hq & Hqr & Hqp)]; [by left|right]. exists q. split; [by right|done].
Qed.

(** *** A round *)

Section round.
Context `{Link} (gone : nat -> Prop) (env : nat -> kernel -> kernel) (Henv : env_ok gone env).

(** A property of the process table that running a process preserves. *)
Context (P : list proc -> Prop)
  (HP : forall i s l, (i < NPROC)%nat -> P l -> dispatched i s -> k_proc s = alter (set_p_state RUNNING) i l -> P (k_proc (env i s))).

(** Every process of [Q] has had the processor or is still runnable. *)
Definition keeps (Q : nat -> Prop) (tr : list nat) (s : kernel) : Prop :=
  sched_inv s /\ P (k_proc s) /\ forall j, (j < NPROC)%nat -> ~ gone j -> Q j -> j ∈ tr \/ state_of s j = RUNNABLE.

Lemma run_keeps Q tr s i :
  keeps Q tr s -> (i < NPROC)%nat -> state_of s i = RUNNABLE ->
  plays env (run_proc i) s (fun tr' s' => keeps Q (tr ++ tr') s' /\ tr' = [i]).
Proof.
  intros (Hs & Hpk & Hq) Hi Hr. eapply plays_mono; [by apply run_proc_plays|].
  intros tr' s' (-> & Hs' & _ & Hk & s1 & Hd & Ep & Es1). split; [|done]. split; [done|].
  split; [rewrite Ep; by eapply HP|]. intros j Hj Hg HQ.
  rewrite elem_of_app, list_elem_of_singleton. destruct (decide (j = i)) as [->|Hne]; [auto|].
  destruct (Hq j Hj Hg HQ); auto.
Qed.

Lemma in_table s i p : sched_inv s -> k_proc s !! i = Some p -> (i < NPROC)%nat /\ p_state p = state_of s i.
Proof.
  intros [[Hl _] _] Hi. split; [rewrite <- Hl; by eapply lookup_lt_Some|].
  unfold state_of. by rewrite (list_lookup_total_correct _ _ _ Hi).
Qed.

Lemma table_elem s i : sched_inv s -> (i < NPROC)%nat -> k_proc s !!! i ∈ k_proc s.
Proof. intros [[Hl _] _] Hi. apply list_elem_of_lookup_total_2. by rewrite Hl. Qed.

(** The oldest runnable process, as the first case chooses it. *)
Definition oldest (s : kernel) (i : nat) : Prop :=
  (i < NPROC)%nat /\ state_of s i = RUNNABLE /\
  forall j, (j < NPROC)%nat -> state_of s j = RUNNABLE -> p_ctime (k_proc s !!! i) <= p_ctime (k_proc s !!! j).

(** Creation times are 32-bit values in the past, and the clock is not about to overflow. *)
Definition clock_ok (s : kernel) : Prop :=
  0 <= k_ticks s < 2 ^ 31 - 1000 /\
  forall j, (j < NPROC)%nat -> 0 <= p_ctime (k_proc s !!! j) <= k_ticks s.

Lemma clock_ctimes s : sched_inv s -> clock_ok s -> Forall (fun p => 0 <= p_ctime p < 2 ^ 32) (k_proc s).
Proof.
  intros [[Hl _] _] [Ht Hc]. apply Forall_lookup. intros i p Hp.
  rewrite <- (list_lookup_total_correct _ _ _ Hp).
  specialize (Hc i ltac:(rewrite <- Hl; by eapply lookup_lt_Some)). lia.
Qed.

Lemma fcfs_keeps Q s :
  keeps Q [] s -> clock_ok s ->
  plays env fcfs_case s (fun tr s' => keeps Q tr s' /\
    ((tr = [] /\ s' = s /\ forall j, (j < NPROC)%nat -> state_of s j <> RUNNABLE) \/
     exists i, tr = [i] /\ oldest s i)).
Proof.
  intros Hk Hc. pose proof Hk as [Hs _]. pose proof (clock_ctimes s Hs Hc) as Hct. destruct Hc as [Ht Hc].
  unfold fcfs_case. apply plays_gets, plays_gets.
  assert (u32 (i32 (k_ticks s + 1000)) = k_ticks s + 1000) as Em by (rewrite i32_small, u32_small by lia; done).
  destruct (fcfs_scan (k_proc s) 0 (i32 (k_ticks s + 1000)) None) as [i|] eqn:E.
  - apply fcfs_scan_spec in E as [[? _]|(p & _ & Hp & Hr & _ & Hall)]; [done| |done|rewrite Em; lia].
    rewrite Nat.sub_0_r in Hp. destruct (in_table s i p Hs Hp) as [Hi Est]. rewrite Est in Hr.
    eapply plays_mono; [by apply (run_keeps Q [])|]. intros tr' s' [Hk' ->]. split; [done|]. right. exists i.
    split; [done|]. split_and!; try done. intros j Hj Hjr. rewrite (list_lookup_total_correct _ _ _ Hp).
    apply Hall; [by apply table_elem|done].
  - apply fcfs_scan_none in E as [_ Hall]. apply plays_ret. split; [done|]. left. split_and!; try done.
    intros j Hj Hr. specialize (Hall _ (table_elem s j Hs Hj) Hr). rewrite Em in Hall. specialize (Hc j Hj). lia.
Qed.

(** A runnable process of the best priority. *)
Definition foremost (s : kernel) (i : nat) : Prop :=
  (i < NPROC)%nat /\ state_of s i = RUNNABLE /\
  forall j, (j < NPROC)%nat -> state_of s j = RUNNABLE -> p_priority (k_proc s !!! i) <= p_priority (k_proc s !!! j).

Definition pbs_match (c : Z) (s : kernel) (i : nat) : Prop :=
  state_of s i = RUNNABLE /\ p_priority (k_proc s !!! i) = c.

#[local] Instance pbs_match_dec c s i : Decision (pbs_match c s i).
Proof. unfold pbs_match. apply _. Defined.

Lemma pbs_loop_keeps Q tr0 s c :
  keeps Q tr0 s ->
  plays env (foreach (seq 0 NPROC) (fun i => p <- get_proc i ;;
      when (is_state RUNNABLE p && (p_priority p =? c)) (run_proc i))) s
    (fun tr s' => keeps Q (tr0 ++ tr) s' /\
      ((tr = [] /\ forall j, (j < NPROC)%nat -> ~ pbs_match c s j) \/
       exists i tr', tr = i :: tr' /\ (i < NPROC)%nat /\ pbs_match c s i)).
Proof.
  intros Hk. set (J := fun (pre tr : list nat) (s' : kernel) => keeps Q (tr0 ++ tr) s' /\
    ((tr = [] /\ s' = s /\ forall j, j ∈ pre -> ~ pbs_match c s j) \/
     exists i tr', tr = i :: tr' /\ (i < NPROC)%nat /\ pbs_match c s i)).
  eapply plays_mono; [apply (plays_foreach env _ J (seq 0 NPROC)) with (pre := []) (tr := [])|].
  - intros i pre s1 tr Hi [Hk1 Hd]. apply elem_of_seq in Hi as [_ Hi]. apply plays_gets. unfold when, is_state.
    destruct (decide (pbs_match c s1 i)) as [[Hr Hp]|Hn].
    + rewrite bool_decide_eq_true_2, Hp, Z.eqb_refl by done. cbn [andb].
      eapply plays_mono; [by apply (run_keeps Q (tr0 ++ tr))|]. intros tr' s2 [Hk2 ->]. rewrite <- app_assoc in Hk2.
      split; [done|]. right. destruct Hd as [(-> & -> & _)|(i' & tr'' & -> & Hi' & Hm)].
      * by exists i, [].
      * by exists i', (tr'' ++ [i]).
    + assert (bool_decide (p_state (k_proc s1 !!! i) = RUNNABLE) && (p_priority (k_proc s1 !!! i) =? c) = false) as ->.
      { apply not_true_is_false. intros [Hr%bool_decide_eq_true Hp%Z.eqb_eq]%andb_prop. by apply Hn. }
      apply plays_ret. rewrite app_nil_r. split; [done|].
      destruct Hd as [(-> & -> & Hno)|Hd]; [left|by right]. split_and!; try done.
      intros j [Hj|Hj%list_elem_of_singleton]%elem_of_app; [auto|by subst j].
  - split; [by rewrite app_nil_r|]. left. split_and!; try done. by intros j Hj%not_elem_of_nil.
  - intros tr s' HJ. unfold J in HJ. cbn [app] in HJ. destruct HJ as [Hk' Hd].
    split; [done|]. destruct Hd as [(-> & _ & Hno)|Hd]; [left|by right].
    split; [done|]. intros j Hj. apply Hno. apply elem_of_seq. lia.
Qed.

(** Priorities are between 0 and 100. *)
Definition priority_ok (s : kernel) : Prop :=
  forall j, (j < NPROC)%nat -> p_priority (k_proc s !!! j) <= 100.

Lemma pbs_keeps Q tr0 s :
  keeps Q tr0 s ->
  plays env pbs_case s (fun tr s' => keeps Q (tr0 ++ tr) s' /\
    (priority_ok s -> (exists j, (j < NPROC)%nat /\ state_of s j = RUNNABLE) ->
     exists i tr', tr = i :: tr' /\ foremost s i)).
Proof.
  intros Hk. pose proof Hk as [Hs _]. unfold pbs_case. apply plays_gets. cbv zeta.
  destruct (pbs_scan_spec (k_proc s) 101) as (Hc1 & Hall & Hex). set (c := pbs_scan (k_proc s) 101) in *.
  assert (forall j, (j < NPROC)%nat -> state_of s j = RUNNABLE -> c <= p_priority (k_proc s !!! j)) as Hmin.
  { intros j Hj Hr. apply Hall; [by apply table_elem|done]. }
  unfold when. destruct (Z.eqb_spec c 101) as [E|E]; cbn [negb].
  { apply plays_ret. rewrite app_nil_r. split; [done|]. intros Hp (j & Hj & Hr).
    specialize (Hmin j Hj Hr). specialize (Hp j Hj). lia. }
  eapply plays_mono; [by apply pbs_loop_keeps|]. intros tr s' [Hk' Hd]. split; [done|]. intros _ _.
  destruct Hex as [?|(p & Hp & Hr & Epr)]; [done|].
  apply list_elem_of_lookup_1 in Hp as [j Hj]. destruct (in_table s j p Hs Hj) as [Hjn Est].
  destruct Hd as [[_ Hno]|(i & tr' & -> & Hi & Hri & Hpi)].
  - exfalso. apply (Hno j Hjn). split; [by rewrite <- Est|]. by rewrite (list_lookup_total_correct _ _ _ Hj).
  - exists i, tr'. split; [done|]. split_and!; try done. intros k Hkn Hkr. rewrite Hpi. auto.
Qed.

Lemma rr_keeps Q tr0 s :
  keeps Q tr0 s ->
  plays env rr_case s (fun tr s' => sched_inv s' /\ P (k_proc s') /\ tr `sublist_of` seq 0 NPROC /\
    forall j, (j < NPROC)%nat -> ~ gone j -> Q j -> j ∈ tr0 ++ tr).
Proof.
  intros Hk. set (J := fun (pre tr : list nat) (s' : kernel) => keeps Q (tr0 ++ tr) s' /\ tr `sublist_of` pre /\
    forall j, j ∈ pre -> (j < NPROC)%nat -> ~ gone j -> Q j -> j ∈ tr0 ++ tr).
  eapply plays_mono; [apply (plays_foreach env _ J (seq 0 NPROC)) with (pre := []) (tr := [])|].
  - intros i pre s1 tr Hi (Hk1 & Hsub & Hd). apply elem_of_seq in Hi as [_ Hi]. apply plays_gets. unfold when, is_state.
    destruct (decide (state_of s1 i = RUNNABLE)) as [Hr|Hn].
    + rewrite bool_decide_eq_true_2 by done.
      eapply plays_mono; [by apply (run_keeps Q (tr0 ++ tr))|]. intros tr' s2 [Hk2 ->]. rewrite <- app_assoc in Hk2.
      split; [done|]. split; [by apply sublist_app|]. intros j Hj Hjn Hg HQ. rewrite app_assoc, elem_of_app, list_elem_of_singleton.
      apply elem_of_app in Hj as [Hj|Hj%list_elem_of_singleton]; auto.
    + rewrite bool_decide_eq_false_2 by done. apply plays_ret. rewrite app_nil_r. split; [done|]. split; [by apply sublist_inserts_r|].
      intros j [Hj|Hj%list_elem_of_singleton]%elem_of_app Hjn Hg HQ; [auto|]. subst j.
      destruct Hk1 as (_ & _ & Hq). by destruct (Hq i Hi Hg HQ).
  - split; [by rewrite app_nil_r|]. split; [done|]. by intros j Hj%not_elem_of_nil.
  - intros tr s' HJ. unfold J in HJ. cbn [app] in HJ. destruct HJ as [(Hs' & Hp' & _) [Hsub Hd]]. split_and!; [done..|].
    intros j Hj. apply Hd; [|done]. apply elem_of_seq. lia.
Qed.

(** *** The accounting *)

Lemma account_state t p : p_state (account t p) = p_state p.
Proof. unfold account. by destruct (is_state RUNNING p). Qed.

(** The table at the start of a round. *)
Definition accounted (s : kernel) : kernel :=
  set_k_proc (account (k_ticks s) <$> k_proc s) (set_k_held [L_ptable] s).

Lemma accounted_proc s i : (i < length (k_proc s))%nat ->
  k_proc (accounted s) !!! i = account (k_ticks s) (k_proc s !!! i).
Proof. apply list_lookup_total_fmap. Qed.

Lemma accounted_same s i :
  length (k_proc s) = NPROC -> (i < NPROC)%nat ->
  state_of (accounted s) i = state_of s i /\
  p_ctime (k_proc (accounted s) !!! i) = p_ctime (k_proc s !!! i) /\
  p_priority (k_proc (accounted s) !!! i) = p_priority (k_proc s !!! i) /\
  p_kstack (k_proc (accounted s) !!! i) = p_kstack (k_proc s !!! i) /\
  p_pgdir (k_proc (accounted s) !!! i) = p_pgdir (k_proc s !!! i).
Proof.
  intros Hl Hi. unfold state_of. rewrite accounted_proc by (by rewrite Hl). unfold account.
  by destruct (is_state RUNNING (k_proc s !!! i)).
Qed.

Lemma accounted_ready s : sched_ready s -> sched_inv (accounted s).
Proof.
  intros [Hl Hr]. split; [|done]. split.
  - unfold accounted. kproj. by rewrite length_fmap.
  - intros i Hi. destruct (accounted_same s i Hl Hi) as (-> & _ & _ & -> & ->). auto.
Qed.

Lemma round_plays strat s :
  sched_ready s -> k_held s = [] -> (strat = 1 -> clock_ok s) -> P (k_proc (accounted s)) -> 1 <= strat <= 4 ->
  plays env (scheduler_pass strat) s (fun tr s' => sched_ready s' /\ k_held s' = [] /\ P (k_proc s') /\
    (forall j, (j < NPROC)%nat -> ~ gone j -> state_of s j = RUNNABLE -> j ∈ tr) /\
    (3 <= strat -> tr `sublist_of` seq 0 NPROC) /\
    ((exists j, (j < NPROC)%nat /\ state_of s j = RUNNABLE) ->
       (strat = 1 -> exists i tr', tr = i :: tr' /\ oldest (accounted s) i) /\
       (strat = 2 -> priority_ok s -> exists i tr', tr = i :: tr' /\ foremost (accounted s) i))).
Proof.
  intros Hs Hh Hc Hp Hst. pose proof (accounted_ready s Hs) as Hs1. pose proof (sr_len _ Hs) as Hl.
  pose proof (fun j => accounted_same s j Hl) as Hsame. set (s1 := accounted s) in *. set (Q := fun j => state_of s j = RUNNABLE).
  assert (keeps Q [] s1) as Hk1.
  { split; [done|]. split; [done|]. intros j Hj _ HQ. right. by destruct (Hsame j Hj) as (-> & _). }
  assert (strat = 1 -> clock_ok s1) as Hc1.
  { intros E. destruct (Hc E) as [Ht Hcs]. split; [done|]. intros j Hj. destruct (Hsame j Hj) as (_ & -> & _). by apply Hcs. }
  unfold scheduler_pass. apply plays_bind. eapply plays_run; [apply acquire_run; rewrite Hh; apply not_elem_of_nil|].
  rewrite Hh. apply plays_bind. eapply plays_run; [reflexivity|]. change (set_k_proc _ _) with s1.
  assert (plays env (when (strat =? 1) fcfs_case) s1 (fun tr s2 => keeps Q tr s2 /\
    (strat <> 1 -> tr = [] /\ s2 = s1) /\
    (strat = 1 -> (exists j, (j < NPROC)%nat /\ state_of s1 j = RUNNABLE) -> exists i, tr = [i] /\ oldest s1 i))) as H1.
  { unfold when. destruct (Z.eqb_spec strat 1) as [->|Hne]; [|by apply plays_ret].
    eapply plays_mono; [by apply fcfs_keeps; [|apply Hc1]|]. intros tr s2 [Hk2 Hd]. split_and!; try done.
    intros _ (j & Hj & Hr). destruct Hd as [(_ & _ & Hno)|Hd]; [by apply Hno in Hr|done]. }
  apply plays_bind. eapply plays_mono; [exact H1|]. intros tr1 s2 (Hk2 & Hsk & Hf).
  assert (plays env (when ((1 <=? strat) && (strat <=? 2)) pbs_case) s2 (fun tr s3 => keeps Q (tr1 ++ tr) s3 /\ (3 <= strat -> tr = []) /\
    (strat = 2 -> priority_ok s2 -> (exists j, (j < NPROC)%nat /\ state_of s2 j = RUNNABLE) ->
       exists i tr', tr = i :: tr' /\ foremost s2 i))) as H2.
  { unfold when. destruct ((1 <=? strat) && (strat <=? 2)) eqn:E.
    - eapply plays_mono; [by apply (pbs_keeps Q tr1)|]. intros tr s3 [Hk3 Hd]. split_and!; [done|lia|done].
    - apply plays_ret. rewrite app_nil_r. split_and!; [done..|]. intros ->. done. }
  apply plays_bind. eapply plays_mono; [exact H2|]. intros tr2 s3 (Hk3 & Hsk2 & Hf2).
  rewrite (proj2 (andb_true_iff _ _)) by (split; lia). cbn [when].
  apply plays_bind. eapply plays_mono; [by apply (rr_keeps Q (tr1 ++ tr2))|]. intros tr3 s4 (Hs4 & Hp4 & Hsub & Hall).
  destruct Hs4 as [[L1 L2] Hh4]. eapply plays_run; [apply (release_head _ []); [apply not_elem_of_nil|done]|].
  rewrite !app_nil_r. cbn [app]. split_and!; try done.
  - intros j Hj Hg Hr. specialize (Hall j Hj Hg Hr). by rewrite <- app_assoc in Hall.
  - intros H3. rewrite (Hsk2 H3). by rewrite (proj1 (Hsk ltac:(lia))).
  - intros (j & Hj & Hr). assert (exists j, (j < NPROC)%nat /\ state_of s1 j = RUNNABLE) as Hex.
    { exists j. split; [done|]. by destruct (Hsame j Hj) as (-> & _). }
    split; intros ->.
    + destruct (Hf eq_refl Hex) as (i & -> & Ho). by exists i, (tr2 ++ tr3).
    + intros Hpr. destruct (Hsk ltac:(done)) as [-> ->]. destruct (Hf2 eq_refl) as (i & tr' & -> & Ho); [|done|].
      * intros k Hkn. destruct (Hsame k Hkn) as (_ & _ & -> & _). by apply Hpr.
      * by exists i, (tr' ++ tr3).
Qed.
End round.

(** ** Theorems *)

(** C34: Round robin.  When SCHEDFLAG begins with R (82), as it does by default, a round of the
    scheduler comes to its end, it switches to processes in the order of the table and to
    each at most once, and every process that is runnable at its start gets the
    processor, unless another processor takes it meanwhile; whatever the
    processes do before they give the processor back, and whatever runs on the
    other processors. *)
Theorem scheduler_round_robin `{Link} gone env s :
  env_ok gone env -> sched_ready s -> k_held s = [] ->
  exists tr s', play env (scheduler_pass (sched_strat 82) s) = (tr, Some (tt, s')) /\
    sched_ready s' /\ k_held s' = [] /\ tr `sublist_of` seq 0 NPROC /\
    forall j, (j < NPROC)%nat -> state_of s j = RUNNABLE -> ~ gone j -> j ∈ tr.
Proof.
  intros He Hs Hh.
  destruct (round_plays gone env He (fun _ => True) ltac:(done) 4 s Hs Hh ltac:(lia) I ltac:(lia))
    as (tr & s' & Hrun & Hs' & Hh' & _ & Hall & Hsub & _).
  exists tr, s'. split_and!; try done; [apply Hsub; lia|auto].
Qed.

(** Under FCFS and PBS, and under MLFQ, whose case is empty, for want of a
    [break] every process that is runnable at the start of a round gets the
    processor in it, not only the oldest or those of the best priority. *)
Theorem scheduler_falls_through `{Link} gone env strat s :
  env_ok gone env -> sched_ready s -> k_held s = [] -> clock_ok s -> 1 <= strat <= 3 ->
  exists tr s', play env (scheduler_pass strat s) = (tr, Some (tt, s')) /\
    forall j, (j < NPROC)%nat -> state_of s j = RUNNABLE -> ~ gone j -> j ∈ tr.
Proof.
  intros He Hs Hh Hc Hst.
  destruct (round_plays gone env He (fun _ => True) ltac:(done) strat s Hs Hh ltac:(done) I ltac:(lia))
    as (tr & s' & Hrun & _ & _ & _ & Hall & _).
  exists tr, s'. split; [done|auto].
Qed.

(** C35: The policies.  Under FCFS the first process that a round switches to
    is a runnable one with the smallest creation time, under PBS one with
    the smallest priority number. *)
Theorem scheduler_policy `{Link} gone env strat s :
  env_ok gone env -> sched_ready s -> k_held s = [] -> clock_ok s -> priority_ok s ->
  (exists j, (j < NPROC)%nat /\ state_of s j = RUNNABLE) -> strat = 1 \/ strat = 2 ->
  exists i tr o, play env (scheduler_pass strat s) = (i :: tr, o) /\
    (i < NPROC)%nat /\ state_of s i = RUNNABLE /\
    forall j, (j < NPROC)%nat -> state_of s j = RUNNABLE ->
      if strat =? 1 then p_ctime (k_proc s !!! i) <= p_ctime (k_proc s !!! j)
      else p_priority (k_proc s !!! i) <= p_priority (k_proc s !!! j).
Proof.
  intros He Hs Hh Hc Hp Hex Hst. pose proof (fun j => accounted_same s j (sr_len _ Hs)) as Hsame.
  destruct (round_plays gone env He (fun _ => True) ltac:(done) strat s Hs Hh ltac:(done) I ltac:(lia))
    as (tr & s' & Hrun & _ & _ & _ & _ & _ & Hpol). specialize (Hpol Hex) as [H1 H2].
  destruct Hst as [-> | ->]; [destruct (H1 eq_refl) as (i & tr' & -> & Hi & Hr & Ho)
    |destruct (H2 eq_refl Hp) as (i & tr' & -> & Hi & Hr & Ho)];
  exists i, tr', (Some (tt, s')); destruct (Hsame i Hi) as (Ei & Ec & Ep & _); rewrite Ei in Hr;
  (split_and!; [done..|]); intros j Hj Hjr; destruct (Hsame j Hj) as (Ej & Ecj & Epj & _); cbn [Z.eqb Pos.eqb].
  - rewrite <- Ec, <- Ecj. apply Ho; [done|]. by rewrite Ej.
  - rewrite <- Ep, <- Epj. apply Ho; [done|]. by rewrite Ej.
Qed.

(** Run time is never credited on one processor.  [rtime] is increased
    only for processes that are RUNNING when a round starts, and there is none
    if no other processor runs one: whatever the processes do, as
    long as they do not change [rtime] themselves, no round changes it. *)
Theorem rtime_never_credited `{Link} gone env strat s :
  env_ok gone env -> sched_ready s -> k_held s = [] -> clock_ok s -> 1 <= strat <= 4 ->
  (forall j, (j < NPROC)%nat -> state_of s j <> RUNNING) ->
  (forall i s1 j, (i < NPROC)%nat -> dispatched i s1 -> p_rtime (k_proc (env i s1) !!! j) = p_rtime (k_proc s1 !!! j)) ->
  exists tr s', play env (scheduler_pass strat s) = (tr, Some (tt, s')) /\
    forall j, (j < NPROC)%nat -> p_rtime (k_proc s' !!! j) = p_rtime (k_proc s !!! j).
Proof.
  intros He Hs Hh Hc Hst Hid Hr. pose proof Hs as [Hl _].
  destruct (round_plays gone env He (fun l => length l = NPROC /\
    forall j, (j < NPROC)%nat -> p_rtime (l !!! j) = p_rtime (k_proc s !!! j))) with (strat := strat) (s := s)
    as (tr & s' & Hrun & _ & _ & [_ HP] & _); try done.
  - intros i s1 l Hi [Hll Hlr] Hd El. split; [apply (He i s1 Hi Hd)|].
    intros j Hj. rewrite (Hr i), El by done. destruct (decide (j = i)) as [->|Hne].
    + rewrite list_lookup_total_alter_eq by (by rewrite Hll). by apply Hlr.
    + rewrite list_lookup_total_alter_ne by done. by apply Hlr.
  - split; [unfold accounted; kproj; by rewrite length_fmap|]. intros j Hj.
    rewrite accounted_proc by (by rewrite Hl). unfold account, is_state.
    by rewrite bool_decide_eq_false_2 by (by apply Hid).
  - by exists tr, s'.
Qed.

(** ** Witnesses *)

(** Every process sleeps as soon as it runs. *)
Definition sleepy (i : nat) (s : kernel) : kernel :=
  set_k_proc (alter (set_p_state SLEEPING) i (k_proc s)) s.

(** Meanwhile another processor takes process 2. *)
Definition sleepy2 (i : nat) (s : kernel) : kernel :=
  set_k_proc (alter (set_p_state RUNNING) 2%nat (k_proc (sleepy i s))) s.

Lemma sleepy_ok : env_ok (fun _ => False) sleepy.
Proof.
  intros i s Hi [D1 D2 D3 D4 D5 D6]. split; [split|done|]; unfold state_of, sleepy; kproj.
  - by rewrite length_alter.
  - intros j Hj. destruct (decide (j = i)) as [->|Hne].
    + by rewrite list_lookup_total_alter_eq by (by rewrite D1).
    + rewrite list_lookup_total_alter_ne by done. by apply D6.
  - intros j Hj Hne _. by rewrite list_lookup_total_alter_ne.
Qed.

Lemma sleepy2_ok : env_ok (fun j => j = 2%nat) sleepy2.
Proof.
  intros i s Hi Hd. destruct (sleepy_ok i s Hi Hd) as [[R1 R2] _ R3]. pose proof (dp_held _ _ Hd) as Hh.
  split; [split|done|]; unfold state_of, sleepy2 in *; kproj.
  - by rewrite length_alter.
  - intros j Hj. destruct (decide (j = 2%nat)) as [->|Hne].
    + by rewrite list_lookup_total_alter_eq by (by rewrite R1).
    + rewrite list_lookup_total_alter_ne by done. by apply R2.
  - intros j Hj Hne Hg Hr. rewrite list_lookup_total_alter_ne by done. apply R3; tauto.
Qed.

(** Three runnable processes: process 1 is the oldest, process 2 the most urgent. *)
Definition demo_ready : kernel :=
  set_k_ticks 9 (set_k_proc
    (<[3%nat := mkproc 0 1 1 RUNNABLE 3 None 0 0 None 0 [] None [] 7 0 0 0 60]> (<[1%nat := mkproc 0 1 1 RUNNABLE 1 None 0 0 None 0 [] None [] 3 0 0 0 60]>
      (<[2%nat := mkproc 0 1 1 RUNNABLE 2 None 0 0 None 0 [] None [] 5 0 0 0 50]>
        (replicate NPROC proc_zero)))) kernel_zero).

Lemma demo_ready_cases (Q : proc -> Prop) :
  Q proc_zero -> Q (k_proc demo_ready !!! 1%nat) -> Q (k_proc demo_ready !!! 2%nat) -> Q (k_proc demo_ready !!! 3%nat) ->
  forall j, (j < NPROC)%nat -> Q (k_proc demo_ready !!! j).
Proof.
  intros H0 H1 H2 H3 j Hj. destruct (decide (j = 1%nat)) as [->|Hj1]; [done|].
  destruct (decide (j = 2%nat)) as [->|Hj2]; [done|]. destruct (decide (j = 3%nat)) as [->|Hj3]; [done|]. unfold demo_ready. kproj.
  rewrite !list_lookup_total_insert_ne, lookup_total_replicate_2 by done. done.
Qed.

Lemma demo_ready_ok : sched_ready demo_ready /\ clock_ok demo_ready /\ priority_ok demo_ready.
Proof.
  split_and!; [split|split|]; try done.
  - apply (demo_ready_cases (fun p => p_state p = RUNNABLE -> p_kstack p <> 0 /\ p_pgdir p <> 0)); done.
  - apply (demo_ready_cases (fun p => 0 <= p_ctime p <= 9)); done.
  - unfold priority_ok. apply (demo_ready_cases (fun p => p_priority p <= 100)); done.
Qed.

#[local] Existing Instance demo_link.

(** Process 2 is taken by the other processor. *)
Lemma scheduler_round_robin_witness :
  exists tr s', play sleepy2 (scheduler_pass (sched_strat 82) demo_ready) = (tr, Some (tt, s')) /\
    tr `sublist_of` seq 0 NPROC /\ 1%nat ∈ tr /\ 3%nat ∈ tr.
Proof.
  destruct demo_ready_ok as (H1 & _ & _).
  destruct (scheduler_round_robin (fun j => j = 2%nat) sleepy2 demo_ready sleepy2_ok H1 eq_refl)
    as (tr & s' & H3 & _ & _ & H4 & H5).
  exists tr, s'. split; [exact H3|]. split; [exact H4|].
  split; (apply H5; [vm_compute; lia|reflexivity|intros E; discriminate E]).
Defined.

Lemma scheduler_falls_through_witness :
  exists tr s', play sleepy (scheduler_pass 1 demo_ready) = (tr, Some (tt, s')) /\ 2%nat ∈ tr.
Proof.
  destruct demo_ready_ok as (H1 & H2 & _).
  destruct (scheduler_falls_through (fun _ => False) sleepy 1 demo_ready sleepy_ok H1 eq_refl H2 ltac:(lia)) as (tr & s' & H3 & H4).
  exists tr, s'. split; [exact H3|]. apply H4; [vm_compute; lia|reflexivity|tauto].
Defined.

Lemma scheduler_policy_witness :
  exists i tr o, play sleepy (scheduler_pass 2 demo_ready) = (i :: tr, o) /\ state_of demo_ready i = RUNNABLE.
Proof.
  destruct demo_ready_ok as (H1 & H2 & H3).
  destruct (scheduler_policy (fun _ => False) sleepy 2 demo_ready sleepy_ok H1 eq_refl H2 H3) as (i & tr & o & H4 & _ & H5 & _).
  - exists 1%nat. split; [vm_compute; lia|reflexivity].
  - right. reflexivity.
  - exists i, tr, o. split; assumption.
Defined.

Lemma rtime_never_credited_witness :
  exists tr s', play sleepy (scheduler_pass 4 demo_ready) = (tr, Some (tt, s')) /\ p_rtime (k_proc s' !!! 1%nat) = 0.
Proof.
  destruct demo_ready_ok as (H1 & H2 & _).
  destruct (rtime_never_credited (fun _ => False) sleepy 4 demo_ready sleepy_ok H1 eq_refl H2 ltac:(lia)) as (tr & s' & H3 & H4).
  - apply (demo_ready_cases (fun p => p_state p <> RUNNING)); done.
  - intros i s1 j Hi Hd. unfold sleepy. cbn [k_proc set_k_proc]. destruct (decide (j = i)) as [->|Hne].
    + rewrite list_lookup_total_alter_eq by (by rewrite (dp_len _ _ Hd)). reflexivity.
    + rewrite list_lookup_total_alter_ne by done. reflexivity.
  - exists tr, s'. split; [exact H3|]. rewrite (H4 1%nat) by (vm_compute; lia). reflexivity.
Defined.

