(* ===== verification/Pipe.v ===== *)
(** * Pipes (pipe.c)

    A pipe is a ring buffer in a page of its own, with counters that only
    grow, modulo 2^32.  Its abstract state is the queue of the bytes written
    and not yet read.  [pipewrite] and [piperead] sleep while they wait; what
    they do to the pipe between two sleeps is a sequence of pushes and pops,
    and any interleaving of those delivers the bytes in the order in which
    they were written.  [pipealloc] is in File.v. *)

From stdpp Require Import base numbers list option strings gmap.
From S2P Require Import Prelude Kernel Fields Mmu Spinlock Proc Cprintf Cstring Sleeplock Kalloc.

(** ** The code *)

Definition get_pipe (p : Z) : K pipe := gets (fun s => k_pipes s !!! p).
Definition upd_pipe (p : Z) (f : pipe -> pipe) : K unit :=
  modify (fun s => set_k_pipes (alter f p (k_pipes s)) s).

(** [myproc()->killed] *)
Definition mykilled : K bool := i <- curproc ;; p <- get_proc i ;; ret (negb (p_killed p =? 0)).

(** [p->data[p->nwrite++ % PIPESIZE] = c] *)
Definition push (c : Z) (p : pipe) : pipe :=
  set_pi_nwrite (u32 (pi_nwrite p + 1))
    (set_pi_data (<[Z.to_nat (pi_nwrite p mod PIPESIZE) := c]> (pi_data p)) p).
(** [p->data[p->nread++ % PIPESIZE]] *)
Definition front (p : pipe) : Z := pi_data p !!! Z.to_nat (pi_nread p mod PIPESIZE).
Definition pop (p : pipe) : pipe := set_pi_nread (u32 (pi_nread p + 1)) p.

Section pipe_code.
Context `{Link} `{Fuel}.

(** The page goes back to the allocator with the last end. *)
Definition pipeclose (p : Z) (writable : bool) : K unit :=
  acquire (L_pipe p) ;;
  (if writable then upd_pipe p (set_pi_writeopen false) ;; wakeup (Ch_nread p)
   else upd_pipe p (set_pi_readopen false) ;; wakeup (Ch_nwrite p)) ;;
  pi <- get_pipe p ;;
  if negb (pi_readopen pi) && negb (pi_writeopen pi) then
    release (L_pipe p) ;;
    modify (fun s => set_k_pipes (delete p (k_pipes s)) s) ;;
    kfree p
  else release (L_pipe p).

(** The inner loop of [pipewrite]: false when the call must return -1. *)
Fixpoint write_wait (n : nat) (p : Z) : K bool :=
  pi <- get_pipe p ;;
  if negb (pi_nwrite pi =? u32 (pi_nread pi + PIPESIZE)) then ret true else
  if negb (pi_readopen pi) then ret false else
  killed <- mykilled ;;
  if killed then ret false else
  wakeup (Ch_nread p) ;;
  sleep (Ch_nwrite p) (L_pipe p) ;;
  match n with O => out_of_fuel | S n' => write_wait n' p end.

Fixpoint write_loop (p : Z) (l : list Z) : K bool :=
  match l with
  | [] => ret true
  | c :: l' =>
      ok <- write_wait fuel p ;;
      if negb ok then ret false else
      upd_pipe p (push c) ;;
      write_loop p l'
  end.

(** [addr] are the bytes to write; a system call has checked their number. *)
Definition pipewrite (p : Z) (addr : list Z) : K Z :=
  acquire (L_pipe p) ;;
  ok <- write_loop p addr ;;
  if ok then
    wakeup (Ch_nread p) ;;
    release (L_pipe p) ;;
    ret (Z.of_nat (length addr))
  else
    release (L_pipe p) ;;
    ret (-1).

(** The first loop of [piperead]: false when the call must return -1. *)
Fixpoint read_wait (n : nat) (p : Z) : K bool :=
  pi <- get_pipe p ;;
  if negb ((pi_nread pi =? pi_nwrite pi) && pi_writeopen pi) then ret true else
  killed <- mykilled ;;
  if killed then ret false else
  sleep (Ch_nread p) (L_pipe p) ;;
  match n with O => out_of_fuel | S n' => read_wait n' p end.

Fixpoint read_loop (n : nat) (p : Z) : K (list Z) :=
  match n with
  | O => ret []
  | S n' =>
      pi <- get_pipe p ;;
      if pi_nread pi =? pi_nwrite pi then ret [] else
      upd_pipe p pop ;;
      l <- read_loop n' p ;;
      ret (front pi :: l)
  end.

(** The result and the bytes stored at the caller's buffer. *)
Definition piperead (p n : Z) : K (Z * list Z) :=
  acquire (L_pipe p) ;;
  ok <- read_wait fuel p ;;
  if ok then
    l <- read_loop (Z.to_nat n) p ;;
    wakeup (Ch_nwrite p) ;;
    release (L_pipe p) ;;
    ret (Z.of_nat (length l), l)
  else
    release (L_pipe p) ;;
    ret (-1, []).

End pipe_code.

(** ** The queue in the buffer *)

Ltac pproj := cbn [pi_nwrite pi_nread pi_data pi_readopen pi_writeopen
  set_pi_nwrite set_pi_nread set_pi_data set_pi_readopen set_pi_writeopen].

Record pipe_ok (p : pipe) : Prop := {
  po_data : length (pi_data p) = 512%nat;
  po_nread : 0 <= pi_nread p < 2 ^ 32;
  po_nwrite : 0 <= pi_nwrite p < 2 ^ 32;
  po_fill : u32 (pi_nwrite p - pi_nread p) <= PIPESIZE;
}.

Definition fill (p : pipe) : Z := u32 (pi_nwrite p - pi_nread p).
Definition slot (p : pipe) (k : nat) : Z := pi_data p !!! Z.to_nat ((pi_nread p + Z.of_nat k) mod PIPESIZE).
Definition contents (p : pipe) : list Z := slot p <$> seq 0 (Z.to_nat (fill p)).

Lemma length_contents p : length (contents p) = Z.to_nat (fill p).
Proof. unfold contents. by rewrite length_fmap, length_seq. Qed.

(** The tests of the code on the counters. *)
Lemma full_test p : pipe_ok p -> (pi_nwrite p =? u32 (pi_nread p + PIPESIZE)) = (fill p =? PIPESIZE).
Proof.
  intros [_ Hr Hw _]. unfold fill, u32, PIPESIZE. destruct (Z.eqb_spec ((pi_nwrite p - pi_nread p) mod 2 ^ 32) 512) as [E|E].
  - apply Z.eqb_eq. Z.div_mod_to_equations. lia.
  - apply Z.eqb_neq. intros E'. apply E. rewrite E'. Z.div_mod_to_equations. lia.
Qed.

Lemma empty_test p : pipe_ok p -> (pi_nread p =? pi_nwrite p) = (fill p =? 0).
Proof.
  intros [_ Hr Hw _]. unfold fill, u32. destruct (Z.eqb_spec (pi_nread p) (pi_nwrite p)) as [->|E].
  - by rewrite Z.sub_diag.
  - symmetry. apply Z.eqb_neq. intros E'. apply E. Z.div_mod_to_equations. lia.
Qed.

Lemma fill_push c p : pipe_ok p -> fill p < PIPESIZE -> fill (push c p) = fill p + 1.
Proof.
  intros [_ Hr Hw _] Hf. unfold fill, push, u32, PIPESIZE in *. pproj. Z.div_mod_to_equations. lia.
Qed.

Lemma fill_pop p : pipe_ok p -> 0 < fill p -> fill (pop p) = fill p - 1.
Proof.
  intros [_ Hr Hw _] Hf. unfold fill, pop, u32, PIPESIZE in *. pproj. Z.div_mod_to_equations. lia.
Qed.

(** The counters wrap at a multiple of the buffer size. *)
Lemma u32_mod_512 z : u32 z mod PIPESIZE = z mod PIPESIZE.
Proof. unfold u32, PIPESIZE. Z.div_mod_to_equations. lia. Qed.

Lemma push_ok c p : pipe_ok p -> fill p < PIPESIZE -> pipe_ok (push c p).
Proof.
  intros Hp Hf. pose proof (fill_push c p Hp Hf) as E. destruct Hp as [H1 H2 H3 H4]. split.
  - unfold push. pproj. by rewrite length_insert.
  - done.
  - unfold push. pproj. apply u32_range.
  - change (fill (push c p) <= PIPESIZE). lia.
Qed.

Lemma pop_ok p : pipe_ok p -> 0 < fill p -> pipe_ok (pop p).
Proof.
  intros Hp Hf. pose proof (fill_pop p Hp Hf) as E. destruct Hp as [H1 H2 H3 H4]. split; try done.
  - unfold pop. pproj. apply u32_range.
  - change (fill (pop p) <= PIPESIZE). unfold fill in *. lia.
Qed.

Lemma contents_push c p : pipe_ok p -> fill p < PIPESIZE -> contents (push c p) = contents p ++ [c].
Proof.
  intros Hp Hf. unfold contents. rewrite (fill_push c p Hp Hf).
  assert (0 <= fill p) as H0 by apply u32_range. replace (Z.to_nat (fill p + 1)) with (Z.to_nat (fill p) + 1)%nat by lia.
  rewrite seq_app, fmap_app. cbn [seq fmap list_fmap Nat.add]. f_equal.
  - apply list_fmap_ext. intros i k Hk. apply lookup_seq in Hk as [-> Hk]. unfold slot, push. pproj.
    rewrite list_lookup_total_insert_ne; [done|]. intros E.
    destruct Hp as [_ Hr Hw _]. unfold fill, u32, PIPESIZE in *. Z.div_mod_to_equations. lia.
  - unfold slot, push. pproj. rewrite Z2Nat.id by done.
    assert ((pi_nread p + fill p) mod PIPESIZE = pi_nwrite p mod PIPESIZE) as ->.
    { destruct Hp as [_ Hr Hw _]. unfold fill, u32, PIPESIZE in *. Z.div_mod_to_equations. lia. }
    rewrite list_lookup_total_insert_eq; [done|]. rewrite (po_data _ Hp).
    pose proof (Z.mod_pos_bound (pi_nwrite p) PIPESIZE ltac:(done)). unfold PIPESIZE in *. lia.
Qed.

Lemma contents_pop p : pipe_ok p -> 0 < fill p -> contents p = front p :: contents (pop p).
Proof.
  intros Hp Hf. unfold contents. rewrite (fill_pop p Hp Hf).
  replace (Z.to_nat (fill p)) with (S (Z.to_nat (fill p - 1))) by lia. cbn [seq fmap list_fmap]. f_equal.
  - unfold slot, front. by rewrite Z.add_0_r.
  - rewrite <- fmap_S_seq, <- list_fmap_compose. apply list_fmap_ext. intros i k _. unfold slot, pop, compose. pproj.
    do 2 f_equal. rewrite <- (Zplus_mod_idemp_l (u32 _)), u32_mod_512, Zplus_mod_idemp_l. f_equal. lia.
Qed.

(** ** The abstract pipe *)

Inductive pevent := Push (c : Z) | Pop (c : Z).

(** A queue of at most 512 bytes: they are appended at its end and taken from
    its front. *)
Inductive qstep : list Z -> pevent -> list Z -> Prop :=
| qstep_push q c : (length q < 512)%nat -> qstep q (Push c) (q ++ [c])
| qstep_pop q c : qstep (c :: q) (Pop c) q.

(** A step of the ring buffer is a step of the queue in it. *)
Record pstep (p : pipe) (e : pevent) (p' : pipe) : Prop := {
  ps_queue : qstep (contents p) e (contents p');
  ps_ok : pipe_ok p -> pipe_ok p';
  ps_readopen : pi_readopen p' = pi_readopen p;
  ps_writeopen : pi_writeopen p' = pi_writeopen p;
}.

Lemma pstep_push p c : pipe_ok p -> fill p < PIPESIZE -> pstep p (Push c) (push c p).
Proof.
  intros Hp Hf. split; [|intros _; by apply push_ok|done..]. rewrite contents_push by done. constructor.
  rewrite length_contents. pose proof (u32_range (pi_nwrite p - pi_nread p)). unfold fill, PIPESIZE in *. lia.
Qed.

Lemma pstep_pop p : pipe_ok p -> 0 < fill p -> pstep p (Pop (front p)) (pop p).
Proof.
  intros Hp Hf. split; [|intros _; by apply pop_ok|done..]. rewrite (contents_pop p) by done. constructor.
Qed.

Inductive psteps : pipe -> list pevent -> pipe -> Prop :=
| psteps_nil p : psteps p [] p
| psteps_cons p e p1 es p2 : pstep p e p1 -> psteps p1 es p2 -> psteps p (e :: es) p2.

Lemma psteps_one p e p' : pstep p e p' -> psteps p [e] p'.
Proof. intros H. econstructor; [done|constructor]. Qed.

Fixpoint pushed (es : list pevent) : list Z :=
  match es with [] => [] | Push c :: es' => c :: pushed es' | Pop _ :: es' => pushed es' end.
Fixpoint popped (es : list pevent) : list Z :=
  match es with [] => [] | Push _ :: es' => popped es' | Pop c :: es' => c :: popped es' end.

Lemma psteps_app p es p1 es' p2 : psteps p es p1 -> psteps p1 es' p2 -> psteps p (es ++ es') p2.
Proof. induction 1; simpl; [done|]. intros H2. econstructor; eauto. Qed.

Lemma psteps_ok p es p' : psteps p es p' -> pipe_ok p -> pipe_ok p'.
Proof. induction 1 as [|p e p1 es p2 Hs _ IH]; [done|]. intros Hp. by apply IH, (ps_ok _ _ _ Hs). Qed.

(** The queue discipline. *)
Lemma psteps_queue p es p' : psteps p es p' -> contents p ++ pushed es = popped es ++ contents p'.
Proof.
  induction 1 as [|p e p1 es p2 Hs _ IH]; cbn [pushed popped].
  { by rewrite app_nil_r. }
  destruct Hs as [Hq _ _ _]. inversion Hq as [q c Hl E1 E2 E3|q c E1 E2 E3]; subst.
  - rewrite <- E3, <- app_assoc in IH. done.
  - cbn [app]. by rewrite IH.
Qed.

(** ** What the code does to the pipe *)

(** The states in which the scheduler resumes a process. *)
Definition resumed (s s' : kernel) : Prop :=
  k_held s' = [L_ptable] /\ k_cur s' = k_cur s /\ length (k_proc s') = length (k_proc s).

(** [prg b pp r p tr Q]: the result [r] of code that started with the pipe
    [pp] in state [p], having caused the events [tr] before.  Between two
    points where the processor is given away the code takes steps of the
    abstract pipe; while it is away others may take any steps.  At the end [Q]
    holds of all the events the code caused.  The code may give up only after
    it has slept [b] times. *)
Fixpoint prg {A} (b : nat) (pp : Z) (r : res kernel A) (p : pipe) (tr : list pevent)
    (Q : list pevent -> A -> kernel -> Prop) : Prop :=
  match r with
  | Ret a s => exists es p', k_pipes s !! pp = Some p' /\ psteps p es p' /\ Q (tr ++ es) a s
  | Swtch _ s k => exists es p', k_pipes s !! pp = Some p' /\ psteps p es p' /\
      forall s' p'', resumed s s' -> k_pipes s' !! pp = Some p'' -> pipe_ok p'' ->
        prg (pred b) pp (k s') p'' (tr ++ es) Q
  | Panic _ => False
  | OutOfFuel => b = 0%nat
  end.

Lemma prg_budget {A} b b' pp (r : res kernel A) p tr Q :
  (b' <= b)%nat -> prg b pp r p tr Q -> prg b' pp r p tr Q.
Proof.
  revert b b' p tr. induction r as [a s|m|t s k IH|]; intros b b' p tr Hb; cbn [prg]; try done.
  - intros (es & p' & H1 & H2 & H3). exists es, p'. split_and!; [done..|]. intros s' p'' Hr Hl Hok.
    apply (IH s' (pred b)); [lia|auto].
  - lia.
Qed.

Lemma prg_shift {A} b pp (r : res kernel A) p es p' tr Q :
  psteps p es p' -> prg b pp r p' (tr ++ es) Q -> prg b pp r p tr Q.
Proof.
  intros Hs. destruct r as [a s|m|t s k|]; cbn [prg]; try done.
  - intros (es' & p'' & H1 & H2 & H3). exists (es ++ es'), p''.
    split_and!; [done|by eapply psteps_app|by rewrite app_assoc].
  - intros (es' & p'' & H1 & H2 & H3). exists (es ++ es'), p''.
    split_and!; [done|by eapply psteps_app|by rewrite app_assoc].
Qed.

Lemma prg_bind {A B} b pp (r : res kernel A) (f : A -> K B) p tr Q :
  pipe_ok p ->
  prg b pp r p tr (fun tr' a s => forall p', k_pipes s !! pp = Some p' -> pipe_ok p' -> prg b pp (f a s) p' tr' Q) ->
  prg b pp (res_bind r f) p tr Q.
Proof.
  set (Q' := fun tr' a s => forall p', _). intros Hp Hr.
  assert (forall b' p tr, (b' <= b)%nat -> pipe_ok p -> prg b' pp r p tr Q' -> prg b' pp (res_bind r f) p tr Q) as HH.
  { clear p tr Hp Hr. induction r as [a s|m|t s k IH|]; intros b' p tr Hb Hp; cbn [prg res_bind]; try done.
    - intros (es & p' & H1 & H2 & H3). eapply prg_shift; [exact H2|]. apply (prg_budget b); [done|].
      apply H3; [done|by eapply psteps_ok].
    - intros (es & p' & H1 & H2 & H3). exists es, p'. split_and!; [done..|]. intros s' p'' Hr Hl Hok.
      apply IH; [lia|auto..]. }
  by apply HH.
Qed.

Lemma prg_ret {A} b pp (a : A) s p tr (Q : list pevent -> A -> kernel -> Prop) :
  k_pipes s !! pp = Some p -> Q tr a s -> prg b pp (Ret a s) p tr Q.
Proof. intros Hl HQ. exists [], p. split_and!; [done|constructor|by rewrite app_nil_r]. Qed.

Lemma prg_mono {A} b pp (r : res kernel A) p tr (Q Q' : list pevent -> A -> kernel -> Prop) :
  prg b pp r p tr Q -> (forall tr a s, Q tr a s -> Q' tr a s) -> prg b pp r p tr Q'.
Proof.
  intros Hr HQ. revert b p tr Hr. induction r as [a s|m|t s k IH|]; intros b p tr; cbn [prg]; try done.
  - intros (es & p' & H1 & H2 & H3). exists es, p'. auto.
  - intros (es & p' & H1 & H2 & H3). exists es, p'. split_and!; [done..|]. intros s' p'' Hr Hl Hok. auto.
Qed.

(** The process [i] is running in the code of the pipe, holding its lock. *)
Record in_pipe (i : nat) (pp : Z) (s : kernel) : Prop := {
  ip_cur : k_cur s = Some i;
  ip_len : (i < length (k_proc s))%nat;
  ip_held : k_held s = [L_pipe pp];
}.

Section pipe_proofs.
Context `{Link} `{Fuel}.

Lemma get_pipe_run pp s p : k_pipes s !! pp = Some p -> get_pipe pp s = Ret p s.
Proof. intros Hl. unfold get_pipe, gets. by rewrite (lookup_total_correct _ _ _ Hl). Qed.

Lemma mykilled_run i s : k_cur s = Some i -> mykilled s = Ret (negb (p_killed (k_proc s !!! i) =? 0)) s.
Proof. intros Hc. unfold mykilled, get_proc. krun. by rewrite (curproc_run i). Qed.

(** Waking and sleeping do not touch the pipe. *)
Lemma sleep_prg {A} b pp i ch s p tr (f : unit -> K A) (Q : list pevent -> A -> kernel -> Prop) :
  in_pipe i pp s -> k_pipes s !! pp = Some p ->
  (forall s' p', in_pipe i pp s' -> k_pipes s' !! pp = Some p' -> pipe_ok p' -> prg (pred b) pp (f tt s') p' tr Q) ->
  prg b pp (bind (sleep ch (L_pipe pp)) f s) p tr Q.
Proof.
  intros [Hc Hi Hh] Hl Hk. destruct (sleep_run i ch (L_pipe pp) s Hc Hi Hh) as (k & Hrun & Hres).
  unfold bind. rewrite Hrun. cbn [res_bind prg]. exists [], p. split_and!; [done|constructor|].
  intros s' p'' (Hh' & Hc' & Hl') Hp' Hok. rewrite Hres by done. cbn [res_bind]. rewrite app_nil_r.
  apply Hk; [|done..]. unfold awoken, asleep in *. split; kproj; try done.
  - by rewrite Hc'.
  - rewrite length_alter, Hl'. kproj. by rewrite length_alter.
Qed.

Lemma in_pipe_wakeup ch i pp s :
  in_pipe i pp s -> wakeup ch s = Ret tt (set_k_proc (wake (Some ch) <$> k_proc s) s) /\
  in_pipe i pp (set_k_proc (wake (Some ch) <$> k_proc s) s).
Proof.
  intros [Hc Hi Hh]. split.
  - apply wakeup_run. rewrite Hh. by intros ?%list_elem_of_singleton.
  - split; kproj; try done. by rewrite length_fmap.
Qed.

(** Why a call gives up: the other end is closed or the process was killed. *)
Definition broken (open : pipe -> bool) (i : nat) (pp : Z) (s : kernel) : Prop :=
  (exists p, k_pipes s !! pp = Some p /\ open p = false) \/ p_killed (k_proc s !!! i) <> 0.

Lemma write_wait_prg n b i pp s p tr :
  (b <= S n)%nat -> in_pipe i pp s -> k_pipes s !! pp = Some p -> pipe_ok p ->
  prg b pp (write_wait n pp s) p tr (fun tr' ok s' => tr' = tr /\ in_pipe i pp s' /\
    if ok then forall p', k_pipes s' !! pp = Some p' -> fill p' < PIPESIZE
    else broken pi_readopen i pp s').
Proof.
  revert b s p. induction n as [|n IH]; intros b s p Hb Hi Hl Hok; cbn [write_wait].
  all: unfold bind at 1; rewrite (get_pipe_run _ _ _ Hl); cbn [res_bind].
  all: rewrite full_test by done; destruct (Z.eqb_spec (fill p) PIPESIZE) as [Hf|Hf]; cbn [negb].
  2, 4: (apply prg_ret; [done|]; split_and!; try done; intros p' Hp'; simplify_eq;
    pose proof (po_fill _ Hok); unfold fill in *; lia).
  all: destruct (pi_readopen p) eqn:Eo; cbn [negb]; [|apply prg_ret; [done|]; split_and!; try done; left; by exists p].
  all: unfold bind at 1; rewrite (mykilled_run i) by apply Hi; cbn [res_bind].
  all: destruct (Z.eqb_spec (p_killed (k_proc s !!! i)) 0) as [Ek|Ek]; cbn [negb];
    [|apply prg_ret; [done|]; split_and!; try done; by right].
  all: destruct (in_pipe_wakeup (Ch_nread pp) i pp s Hi) as [Hw Hi1].
  all: unfold bind at 1; rewrite Hw; cbn [res_bind].
  all: apply (sleep_prg b pp i _ _ p tr); [done..|]; intros s2 p2 Hi2 Hl2 Hok2.
  - unfold out_of_fuel. cbn [prg]. lia.
  - apply IH; (done || lia).
Qed.

Lemma write_loop_prg l : forall b i pp s p tr,
  (b <= S fuel)%nat -> in_pipe i pp s -> k_pipes s !! pp = Some p -> pipe_ok p ->
  prg b pp (write_loop pp l s) p tr (fun tr' ok s' => in_pipe i pp s' /\
    if ok then tr' = tr ++ (Push <$> l)
    else broken pi_readopen i pp s' /\ exists k, (k < length l)%nat /\ tr' = tr ++ (Push <$> take k l)).
Proof.
  induction l as [|c l IH]; intros b i pp s p tr Hb Hi Hl Hok; cbn [write_loop].
  { apply prg_ret; [done|]. split; [done|]. by rewrite app_nil_r. }
  apply prg_bind; [done|]. eapply prg_mono; [by apply (write_wait_prg fuel b i pp s p tr)|].
  intros tr1 ok s1 (-> & Hi1 & Hroom) p1 Hl1 Hok1. destruct ok; cbn [negb].
  - specialize (Hroom p1 Hl1). unfold bind at 1, upd_pipe, modify. cbn [res_bind].
    eapply (prg_shift _ _ _ _ [Push c] (push c p1)).
    { by apply psteps_one, pstep_push. }
    eapply prg_mono; [apply (IH b i pp _ (push c p1) (tr ++ [Push c]) Hb)|].
    + destruct Hi1. by split.
    + kproj. by rewrite lookup_alter_eq, Hl1.
    + by apply push_ok.
    + intros tr2 ok2 s2 [Hi2 Hr]. split; [done|]. destruct ok2.
      * rewrite Hr. by rewrite <- app_assoc.
      * destruct Hr as (Hbr & k & Hk & ->). split; [done|]. exists (S k). split; [simpl; lia|]. by rewrite <- app_assoc.
  - apply prg_ret; [done|]. split; [done|]. split; [done|]. exists 0%nat. split; [simpl; lia|]. by rewrite app_nil_r.
Qed.

Lemma read_wait_prg n b i pp s p tr :
  (b <= S n)%nat -> in_pipe i pp s -> k_pipes s !! pp = Some p -> pipe_ok p ->
  prg b pp (read_wait n pp s) p tr (fun tr' ok s' => tr' = tr /\ in_pipe i pp s' /\
    if ok then forall p', k_pipes s' !! pp = Some p' -> 0 < fill p' \/ pi_writeopen p' = false
    else p_killed (k_proc s' !!! i) <> 0).
Proof.
  revert b s p. induction n as [|n IH]; intros b s p Hb Hi Hl Hok; cbn [read_wait].
  all: unfold bind at 1; rewrite (get_pipe_run _ _ _ Hl); cbn [res_bind].
  all: rewrite empty_test by done; destruct ((fill p =? 0) && pi_writeopen p) eqn:E; cbn [negb].
  2, 4: (apply prg_ret; [done|]; split_and!; try done; intros p' Hp'; simplify_eq;
    destruct (pi_writeopen p); [left|by right];
    rewrite andb_true_r in E; pose proof (u32_range (pi_nwrite p - pi_nread p)); unfold fill in *; lia).
  all: unfold bind at 1; rewrite (mykilled_run i) by apply Hi; cbn [res_bind].
  all: destruct (Z.eqb_spec (p_killed (k_proc s !!! i)) 0) as [Ek|Ek]; cbn [negb]; [|by apply prg_ret].
  all: apply (sleep_prg b pp i _ _ p tr); [done..|]; intros s2 p2 Hi2 Hl2 Hok2.
  - unfold out_of_fuel. cbn [prg]. lia.
  - apply IH; (done || lia).
Qed.

Lemma read_loop_prg n : forall b i pp s p tr,
  in_pipe i pp s -> k_pipes s !! pp = Some p -> pipe_ok p ->
  prg b pp (read_loop n pp s) p tr (fun tr' l s' => in_pipe i pp s' /\ tr' = tr ++ (Pop <$> l) /\
    length l = Nat.min n (Z.to_nat (fill p)) /\
    forall p', k_pipes s' !! pp = Some p' -> pi_writeopen p' = pi_writeopen p /\ ((length l < n)%nat -> contents p' = [])).
Proof.
  induction n as [|n IH]; intros b i pp s p tr Hi Hl Hok; cbn [read_loop].
  { apply prg_ret; [done|]. split_and!; [done|by rewrite app_nil_r|done|]. intros p' Hp'. simplify_eq. split; [done|]. simpl. lia. }
  unfold bind at 1. rewrite (get_pipe_run _ _ _ Hl). cbn [res_bind]. rewrite empty_test by done.
  pose proof (u32_range (pi_nwrite p - pi_nread p)) as Hr. change (u32 _) with (fill p) in Hr.
  destruct (Z.eqb_spec (fill p) 0) as [Hf|Hf].
  { apply prg_ret; [done|]. split_and!; [done|by rewrite app_nil_r| |].
    - rewrite Hf. simpl. lia.
    - intros p' Hp'. simplify_eq. split; [done|]. intros _. apply nil_length_inv. by rewrite length_contents, Hf. }
  unfold bind at 1, upd_pipe, modify. cbn [res_bind].
  eapply (prg_shift _ _ _ _ [Pop (front p)] (pop p)).
  { apply psteps_one, pstep_pop; [done|lia]. }
  apply prg_bind; [apply pop_ok; [done|lia]|].
  eapply prg_mono; [apply (IH b i pp _ (pop p) (tr ++ [Pop (front p)]))|].
  - destruct Hi. by split.
  - kproj. by rewrite lookup_alter_eq, Hl.
  - apply pop_ok; [done|lia].
  - intros tr2 l s2 (Hi2 & -> & Hlen & Hwo) p2 Hl2 Hok2. apply prg_ret; [done|].
    split_and!; [done|by rewrite <- app_assoc| |].
    + rewrite fill_pop in Hlen by (done || lia). cbn [length]. lia.
    + intros p' Hp'. destruct (Hwo p' Hp') as [Ho Hs]. split; [exact Ho|]. cbn [length]. intros Hn. apply Hs. lia.
Qed.

(** A call starts and ends without locks. *)
Definition calls (i : nat) (s : kernel) : Prop :=
  k_cur s = Some i /\ (i < length (k_proc s))%nat /\ k_held s = [].

Lemma pipe_enter i pp s : calls i s ->
  acquire (L_pipe pp) s = Ret tt (set_k_held [L_pipe pp] s) /\ in_pipe i pp (set_k_held [L_pipe pp] s).
Proof.
  intros (Hc & Hi & Hh). split; [|by split]. rewrite acquire_run by (rewrite Hh; apply not_elem_of_nil). by rewrite Hh.
Qed.

Lemma pipe_leave i pp s : in_pipe i pp s ->
  release (L_pipe pp) s = Ret tt (set_k_held [] s) /\ calls i (set_k_held [] s).
Proof.
  intros [Hc Hi Hh]. split; [|by split_and!]. apply release_head; [apply not_elem_of_nil|done].
Qed.

(** Wake up, release the lock and return. *)
Lemma finish_prg {A} b i pp ch s p tr (a : A) (Q : list pevent -> A -> kernel -> Prop) :
  in_pipe i pp s -> k_pipes s !! pp = Some p ->
  (forall s', calls i s' -> k_pipes s' = k_pipes s -> Q tr a s') ->
  prg b pp (bind (wakeup ch) (fun _ => bind (release (L_pipe pp)) (fun _ => ret a)) s) p tr Q.
Proof.
  intros Hi Hl HQ. destruct (in_pipe_wakeup ch i pp s Hi) as [Hw Hi1]. unfold bind at 1. rewrite Hw. cbn [res_bind].
  destruct (pipe_leave i pp _ Hi1) as [Hr Hi2]. unfold bind. rewrite Hr. cbn [res_bind]. apply prg_ret; [done|auto].
Qed.

(** C36: [pipewrite] appends its bytes to the queue in the pipe, which never
    holds more than 512, one after the other and in order, however often it has
    to sleep and whatever happens to the pipe meanwhile.  It returns their number when all are written.  It returns -1
    only when the read end is closed or the process was killed, having written
    a proper prefix of them.  It leaves no lock behind and does not panic. *)
Theorem pipewrite_correct i pp s p l :
  calls i s -> k_pipes s !! pp = Some p -> pipe_ok p ->
  prg (S fuel) pp (pipewrite pp l s) p [] (fun tr r s' => calls i s' /\
    ((r = Z.of_nat (length l) /\ tr = Push <$> l) \/
     (r = -1 /\ broken pi_readopen i pp s' /\ exists k, (k < length l)%nat /\ tr = Push <$> take k l))).
Proof.
  intros Hc Hl Hok. destruct (pipe_enter i pp s Hc) as [Ha Hi]. unfold pipewrite. unfold bind at 1. rewrite Ha. cbn [res_bind].
  apply prg_bind; [done|]. eapply prg_mono; [by apply (write_loop_prg l _ i pp _ p [])|].
  intros tr ok s1 [Hi1 Hr] p1 Hl1 Hok1. destruct ok.
  - apply (finish_prg _ i); [done..|]. intros s' Hc' _. split; [done|]. by left.
  - destruct (pipe_leave i pp s1 Hi1) as [Hrel Hc']. unfold bind. rewrite Hrel. cbn [res_bind].
    apply prg_ret; [done|]. split; [done|]. by right.
Qed.

(** C37: [piperead] takes bytes from the front of the queue in the pipe, in
    their order and at most [n], and fewer than [n] only when it leaves the
    queue empty.  It returns no byte only when [n] is not positive or the write
    end is closed, and -1, with the pipe untouched, only to a process that was
    killed.  It leaves no lock behind and does not panic. *)
Theorem piperead_correct i pp s p n :
  calls i s -> k_pipes s !! pp = Some p -> pipe_ok p ->
  prg (S fuel) pp (piperead pp n s) p [] (fun tr r s' => calls i s' /\
    ((r.1 = Z.of_nat (length r.2) /\ (length r.2 <= Z.to_nat n)%nat /\ tr = Pop <$> r.2 /\
      ((length r.2 < Z.to_nat n)%nat -> exists p', k_pipes s' !! pp = Some p' /\ contents p' = []) /\
      (r.2 = [] -> 0 < n -> exists p', k_pipes s' !! pp = Some p' /\ pi_writeopen p' = false)) \/
     (r = (-1, []) /\ tr = [] /\ p_killed (k_proc s' !!! i) <> 0))).
Proof.
  intros Hc Hl Hok. destruct (pipe_enter i pp s Hc) as [Ha Hi]. unfold piperead. unfold bind at 1. rewrite Ha. cbn [res_bind].
  apply prg_bind; [done|]. eapply prg_mono; [by apply (read_wait_prg fuel _ i pp _ p [])|].
  intros tr ok s1 (-> & Hi1 & Hw) p1 Hl1 Hok1. destruct ok.
  - apply prg_bind; [done|]. eapply prg_mono; [by apply (read_loop_prg _ _ i pp s1 p1 [])|].
    intros tr l s2 (Hi2 & -> & Hlen & Hwo) p2 Hl2 Hok2. apply (finish_prg _ i); [done..|]. intros s' Hc' Epi.
    split; [done|]. left. cbn [fst snd]. destruct (Hwo p2 Hl2) as [Ewo Hs]. rewrite Epi. split_and!; [done|lia|done|by exists p2; auto|].
    intros -> Hn. exists p2. split; [done|]. rewrite Ewo. simpl in Hlen.
    destruct (Hw p1 Hl1) as [Hf|]; [lia|done].
  - destruct (pipe_leave i pp s1 Hi1) as [Hrel Hc']. unfold bind. rewrite Hrel. cbn [res_bind].
    apply prg_ret; [done|]. split; [done|]. by right.
Qed.

(** A pipe delivers every byte once and in order.  Whatever way pushes
    and pops interleave, and also where the counters wrap around at 2^32, the
    bytes taken out of a pipe that was empty, followed by those still in it,
    are the bytes put in; and it never holds more than 512. *)
Theorem pipe_fifo p es p' :
  pipe_ok p -> fill p = 0 -> psteps p es p' ->
  pushed es = popped es ++ contents p' /\ (length (contents p') <= 512)%nat.
Proof.
  intros Hp Hf Hs. pose proof (psteps_queue p es p' Hs) as E. pose proof (psteps_ok p es p' Hs Hp) as Hp'.
  assert (contents p = []) as E0 by (apply nil_length_inv; rewrite length_contents, Hf; done).
  rewrite E0 in E. split; [done|]. rewrite length_contents. pose proof (po_fill _ Hp'). unfold fill, PIPESIZE in *. lia.
Qed.

(** *** Without waiting *)

Lemma set_pipes_id s : set_k_pipes (k_pipes s) s = s.
Proof. by destruct s. Qed.

Lemma write_loop_run l : forall s pp p,
  k_pipes s !! pp = Some p -> pipe_ok p -> fill p + Z.of_nat (length l) <= PIPESIZE ->
  exists p', write_loop pp l s = Ret true (set_k_pipes (<[pp:=p']> (k_pipes s)) s) /\
    pipe_ok p' /\ contents p' = contents p ++ l /\ pi_writeopen p' = pi_writeopen p.
Proof.
  induction l as [|c l IH]; intros s pp p Hl Hok Hf; cbn [write_loop].
  { exists p. rewrite insert_id, set_pipes_id by done. by rewrite app_nil_r. }
  cbn [length] in Hf.
  assert (write_wait fuel pp s = Ret true s) as Hw.
  { unfold fuel. destruct H0 as [|n]; cbn [write_wait]; unfold bind at 1;
      rewrite (get_pipe_run _ _ _ Hl); cbn [res_bind];
      rewrite full_test by done; destruct (Z.eqb_spec (fill p) PIPESIZE); try lia; done. }
  unfold bind at 1. rewrite Hw. cbn [res_bind negb]. unfold bind at 1, upd_pipe, modify. cbn [res_bind].
  destruct (IH (set_k_pipes (alter (push c) pp (k_pipes s)) s) pp (push c p)) as (p' & Hrun & Hok' & Hc' & Ho').
  - kproj. by rewrite lookup_alter_eq, Hl.
  - apply push_ok; [done|lia].
  - rewrite fill_push by (done || lia). lia.
  - exists p'. rewrite Hrun. kproj. rewrite insert_alter_eq. split_and!; [keq|done| |by rewrite Ho'].
    rewrite Hc', contents_push by (done || lia). by rewrite <- app_assoc.
Qed.

Lemma read_loop_run n : forall s pp p,
  k_pipes s !! pp = Some p -> pipe_ok p ->
  exists p', read_loop n pp s = Ret (take n (contents p)) (set_k_pipes (<[pp:=p']> (k_pipes s)) s) /\
    pipe_ok p' /\ contents p' = drop n (contents p).
Proof.
  induction n as [|n IH]; intros s pp p Hl Hok; cbn [read_loop].
  { exists p. by rewrite insert_id, set_pipes_id, take_0, drop_0. }
  unfold bind at 1. rewrite (get_pipe_run _ _ _ Hl). cbn [res_bind]. rewrite empty_test by done.
  pose proof (u32_range (pi_nwrite p - pi_nread p)) as Hr. change (u32 _) with (fill p) in Hr.
  destruct (Z.eqb_spec (fill p) 0) as [Hf|Hf].
  { exists p. rewrite insert_id, set_pipes_id by done.
    assert (contents p = []) as -> by (apply nil_length_inv; rewrite length_contents, Hf; done). done. }
  unfold bind at 1, upd_pipe, modify. cbn [res_bind].
  destruct (IH (set_k_pipes (alter pop pp (k_pipes s)) s) pp (pop p)) as (p' & Hrun & Hok' & Hc').
  - kproj. by rewrite lookup_alter_eq, Hl.
  - apply pop_ok; [done|lia].
  - exists p'. unfold bind. rewrite Hrun. cbn [res_bind]. kproj. rewrite insert_alter_eq.
    rewrite (contents_pop p Hok) by lia. split_and!; [keq|done|done].
Qed.

Lemma pipewrite_run i pp s p l :
  calls i s -> k_pipes s !! pp = Some p -> pipe_ok p -> fill p + Z.of_nat (length l) <= PIPESIZE ->
  exists p' s', pipewrite pp l s = Ret (Z.of_nat (length l)) s' /\ calls i s' /\
    k_pipes s' !! pp = Some p' /\ pipe_ok p' /\ contents p' = contents p ++ l.
Proof.
  intros Hc Hl Hok Hf. destruct (pipe_enter i pp s Hc) as [Ha Hi].
  destruct (write_loop_run l (set_k_held [L_pipe pp] s) pp p Hl Hok Hf) as (p' & Hw & Hok' & Hc' & _).
  unfold pipewrite, bind. rewrite Ha. cbn [res_bind]. rewrite Hw. cbn [res_bind].
  set (s1 := set_k_pipes _ _). assert (in_pipe i pp s1) as Hi1 by (destruct Hi; by split).
  destruct (in_pipe_wakeup (Ch_nread pp) i pp s1 Hi1) as [Hw1 Hi2]. rewrite Hw1. cbn [res_bind].
  destruct (pipe_leave i pp _ Hi2) as [Hr Hc2]. rewrite Hr. cbn [res_bind].
  eexists p', _. split; [reflexivity|]. split_and!; try done. unfold s1. kproj. apply lookup_insert_eq.
Qed.

Lemma piperead_run i pp s p n :
  calls i s -> k_pipes s !! pp = Some p -> pipe_ok p -> 0 < fill p \/ pi_writeopen p = false ->
  exists p' s', piperead pp n s =
      Ret (Z.of_nat (length (take (Z.to_nat n) (contents p))), take (Z.to_nat n) (contents p)) s' /\
    calls i s' /\ k_pipes s' !! pp = Some p' /\ pipe_ok p' /\ contents p' = drop (Z.to_nat n) (contents p).
Proof.
  intros Hc Hl Hok Hf. destruct (pipe_enter i pp s Hc) as [Ha Hi].
  assert (read_wait fuel pp (set_k_held [L_pipe pp] s) = Ret true (set_k_held [L_pipe pp] s)) as Hw.
  { unfold fuel. destruct H0 as [|m]; cbn [read_wait]; unfold bind at 1; rewrite (get_pipe_run pp _ p) by done;
      cbn [res_bind]; rewrite empty_test by done;
      destruct (Z.eqb_spec (fill p) 0); try done; destruct Hf as [?| ->]; (lia || done). }
  destruct (read_loop_run (Z.to_nat n) (set_k_held [L_pipe pp] s) pp p Hl Hok) as (p' & Hr & Hok' & Hc').
  unfold piperead, bind. rewrite Ha. cbn [res_bind]. rewrite Hw. cbn [res_bind]. rewrite Hr. cbn [res_bind].
  set (s1 := set_k_pipes _ _). assert (in_pipe i pp s1) as Hi1 by (destruct Hi; by split).
  destruct (in_pipe_wakeup (Ch_nwrite pp) i pp s1 Hi1) as [Hw1 Hi2]. rewrite Hw1. cbn [res_bind].
  destruct (pipe_leave i pp _ Hi2) as [Hrl Hc2]. rewrite Hrl. cbn [res_bind].
  eexists p', _. split; [reflexivity|]. split_and!; try done. unfold s1. kproj. apply lookup_insert_eq.
Qed.

(** What is written into a pipe that has room comes back out.  Writing
    and reading it neither sleep nor lose or reorder a byte, and the pipe is
    empty again. *)
Theorem pipe_roundtrip i pp s p l n :
  calls i s -> k_pipes s !! pp = Some p -> pipe_ok p -> contents p = [] ->
  (0 < length l <= 512)%nat -> Z.of_nat (length l) <= n ->
  exists p' s', (pipewrite pp l ;; piperead pp n) s = Ret (Z.of_nat (length l), l) s' /\ calls i s' /\
    k_pipes s' !! pp = Some p' /\ pipe_ok p' /\ contents p' = [].
Proof.
  intros Hc Hl Hok Hemp Hlen Hn. pose proof (u32_range (pi_nwrite p - pi_nread p)) as Hr. change (u32 _) with (fill p) in Hr.
  assert (fill p = 0) as Hf by (apply (f_equal length) in Hemp; rewrite length_contents in Hemp; simpl in Hemp; lia).
  destruct (pipewrite_run i pp s p l Hc Hl Hok) as (p1 & s1 & Hw & Hc1 & Hl1 & Hok1 & Ec1); [unfold PIPESIZE; lia|].
  rewrite Hemp in Ec1. cbn [app] in Ec1.
  assert (0 < fill p1) as Hf1.
  { apply (f_equal length) in Ec1. rewrite length_contents in Ec1. lia. }
  destruct (piperead_run i pp s1 p1 n Hc1 Hl1 Hok1 (or_introl Hf1)) as (p2 & s2 & Hrd & Hc2 & Hl2 & Hok2 & Ec2).
  exists p2, s2. unfold bind. rewrite Hw. cbn [res_bind]. rewrite Hrd, Ec1, take_ge by lia. split_and!; try done.
  rewrite Ec2, Ec1. apply drop_ge. lia.
Qed.
End pipe_proofs.

(** ** Witnesses *)

(** An empty pipe whose counters are about to wrap, and process 3 running. *)
Definition demo_pipe : pipe := mkpipe (replicate 512 0) (2 ^ 32 - 2) (2 ^ 32 - 2) true true.
Definition demo_pipes : kernel := set_k_pipes {[ 0x80400000 := demo_pipe ]} demo_procs.
#[local] Instance demo_fuel : Fuel := 10%nat.

Lemma demo_pipe_ok : pipe_ok demo_pipe.
Proof. split; vm_compute; done || (split; congruence) || congruence. Qed.

Lemma demo_pipes_ok : calls 3 demo_pipes /\ k_pipes demo_pipes !! 0x80400000 = Some demo_pipe.
Proof. split; [|reflexivity]. split; [reflexivity|]. split; [vm_compute; lia|reflexivity]. Qed.

Lemma pipewrite_correct_witness :
  prg 11 0x80400000 (pipewrite 0x80400000 [7; 8; 9] demo_pipes) demo_pipe [] (fun tr r s' =>
    r = 3 -> tr = [Push 7; Push 8; Push 9]).
Proof.
  destruct demo_pipes_ok as [H1 H2].
  eapply prg_mono; [exact (pipewrite_correct 3 0x80400000 demo_pipes demo_pipe [7; 8; 9] H1 H2 demo_pipe_ok)|].
  intros tr r s' [_ [[_ ->]|[-> _]]] Hr; [reflexivity|discriminate].
Defined.

Lemma piperead_correct_witness :
  prg 11 0x80400000 (piperead 0x80400000 5 demo_pipes) demo_pipe [] (fun tr r s' => tr = Pop <$> r.2).
Proof.
  destruct demo_pipes_ok as [H1 H2].
  eapply prg_mono; [exact (piperead_correct 3 0x80400000 demo_pipes demo_pipe 5 H1 H2 demo_pipe_ok)|].
  intros tr r s' [_ [(_ & _ & -> & _)|(-> & -> & _)]]; reflexivity.
Defined.

Lemma pipe_fifo_witness :
  pushed [Push 7; Push 8; Push 9] = contents (push 9 (push 8 (push 7 demo_pipe))).
Proof.
  apply (pipe_fifo demo_pipe [Push 7; Push 8; Push 9]).
  - exact demo_pipe_ok.
  - reflexivity.
  - repeat (eapply psteps_cons; [apply pstep_push;
      [repeat (eapply push_ok; [|vm_compute; reflexivity]); exact demo_pipe_ok|vm_compute; reflexivity]|]).
    apply psteps_nil.
Defined.

Lemma pipe_roundtrip_witness :
  exists s', (pipewrite 0x80400000 [7; 8; 9] ;; piperead 0x80400000 3) demo_pipes = Ret (3, [7; 8; 9]) s'.
Proof.
  destruct demo_pipes_ok as [H1 H2].
  destruct (pipe_roundtrip 3 0x80400000 demo_pipes demo_pipe [7; 8; 9] 3 H1 H2 demo_pipe_ok)
    as (p' & s' & H3 & _).
  - vm_compute. reflexivity.
  - simpl. lia.
  - simpl. lia.
  - exists s'. exact H3.
Defined.
