(* ===== verification/Inode.v ===== *)
(** * Blocks and inodes (fs.c, first half)

    The block allocator and the inode cache.  An inode is an entry of the
    table [icache.inode], addressed by its index; its copy on disk is a
    [struct dinode] inside a block.  All accesses to the disk go through the
    buffer cache and the log. *)

From stdpp Require Import base numbers list option strings gmap.
From S2P Require Import Prelude Kernel Fields Spinlock Proc Cprintf Cstring Bytes Sleeplock Dll Bio Log Txn.

(** ** Layout *)

(** Inodes per block; a [struct dinode] has 64 bytes. *)
Definition IPB : Z := BSIZE / 64.
(** Bitmap bits per block. *)
Definition BPB : Z := BSIZE * 8.
Definition IBLOCK (i : Z) (sb : superblock) : Z := u32 (i / IPB + sb_inodestart sb).
Definition BBLOCK (b : Z) (sb : superblock) : Z := u32 (b / BPB + sb_bmapstart sb).

(** The bit of block [bi] of a bitmap block. *)
Definition bit_byte (bi : nat) : nat := (bi / 8)%nat.
Definition bit_mask (bi : nat) : Z := Z.shiftl 1 (Z.of_nat (bi mod 8)).
Definition bit_test (d : block) (bi : nat) : bool := negb (Z.land (d !!! bit_byte bi) (bit_mask bi) =? 0).
(** [bp->data[bi/8] |= m] and [bp->data[bi/8] &= ~m] *)
Definition bit_set (d : block) (bi : nat) : block :=
  <[bit_byte bi := u8 (Z.lor (d !!! bit_byte bi) (bit_mask bi))]> d.
Definition bit_clear (d : block) (bi : nat) : block :=
  <[bit_byte bi := u8 (Z.land (d !!! bit_byte bi) (Z.lnot (bit_mask bi)))]> d.

(** The [struct dinode] at byte [off] of a block. *)
Definition get_dinode (d : block) (off : nat) : dinode :=
  mkdinode (i16 (get16 d off)) (i16 (get16 d (off + 2))) (i16 (get16 d (off + 4))) (i16 (get16 d (off + 6)))
    (le_decode (slice d (off + 8) 4))
    ((fun k => le_decode (slice d (off + 12 + 4 * k) 4)) <$> seq 0 13).
Definition dinode_bytes (di : dinode) : list Z :=
  le_encode 2 (u16 (di_type di)) ++ le_encode 2 (u16 (di_major di)) ++ le_encode 2 (u16 (di_minor di)) ++
  le_encode 2 (u16 (di_nlink di)) ++ le_encode 4 (di_size di) ++ mjoin (le_encode 4 <$> di_addrs di).
Definition put_dinode (d : block) (off : nat) (di : dinode) : block := splice d off (dinode_bytes di).
(** [inum % IPB] inodes into the block. *)
Definition dinode_off (inum : Z) : nat := Z.to_nat (inum mod IPB * 64).

(** What [iupdate] stores and [ilock] loads. *)
Definition dinode_of (ip : inode) : dinode :=
  mkdinode (i_type ip) (i_major ip) (i_minor ip) (i_nlink ip) (i_size ip) (i_addrs ip).
Definition load_dinode (di : dinode) (ip : inode) : inode :=
  mkinode (i_dev ip) (i_inum ip) (i_ref ip) (i_lock ip) (i_valid ip)
    (di_type di) (di_major di) (di_minor di) (di_nlink di) (di_size di) (di_addrs di).

Definition get_inode (ip : nat) : K inode := gets (fun s => k_inodes s !!! ip).
Definition upd_inode (ip : nat) (f : inode -> inode) : K unit :=
  modify (fun s => set_k_inodes (alter f ip (k_inodes s)) s).
Definition get_sb : K superblock := gets k_sb.

Section inode_code.
Context `{Fuel}.

(** ** Blocks *)

Definition bzero (dev bno : Z) : K unit :=
  i <- bread dev bno ;;
  upd_buf i (set_b_data zero_block) ;;
  log_write i ;;
  brelse i.

(** The first clear bit among the first [n]. *)
Definition find_free (d : block) (n : nat) : option nat :=
  fst <$> list_find (fun bi => bit_test d bi = false) (seq 0 n).

Fixpoint balloc_loop (n : nat) (dev b : Z) : K Z :=
  match n with
  | O => out_of_fuel
  | S n' =>
      sb <- get_sb ;;
      if negb (b <? sb_size sb) then panic "balloc: out of blocks" else
      i <- bread dev (BBLOCK b sb) ;;
      bp <- get_buf i ;;
      match find_free (b_data bp) (Z.to_nat (Z.min BPB (sb_size sb - b))) with
      | Some bi =>
          upd_buf i (set_b_data (bit_set (b_data bp) bi)) ;;
          log_write i ;;
          brelse i ;;
          bzero dev (b + Z.of_nat bi) ;;
          ret (b + Z.of_nat bi)
      | None =>
          brelse i ;;
          balloc_loop n' dev (b + BPB)
      end
  end.

(** One round per block of the bitmap, and one to find that there are no more. *)
Definition balloc (dev : Z) : K Z :=
  sb <- get_sb ;;
  balloc_loop (Z.to_nat (sb_size sb / BPB) + 2) dev 0.

Definition bfree (dev b : Z) : K unit :=
  sb <- get_sb ;;
  i <- bread dev (BBLOCK b sb) ;;
  bp <- get_buf i ;;
  let bi := Z.to_nat (b mod BPB) in
  if negb (bit_test (b_data bp) bi) then panic "freeing free block" else
  upd_buf i (set_b_data (bit_clear (b_data bp) bi)) ;;
  log_write i ;;
  brelse i.

(** ** Inodes *)

Definition sb_message : string :=
  "sb: size %d nblocks %d ninodes %d nlog %d logstart %d inodestart %d bmap start %d
".

Definition iinit (dev : Z) : K unit :=
  foreach (seq 0 NINODE) (fun i => initsleeplock (SL_inode i)) ;;
  sb <- readsb dev ;;
  modify (set_k_sb sb) ;;
  cprintf sb_message
    [FInt (sb_size sb); FInt (sb_nblocks sb); FInt (sb_ninodes sb); FInt (sb_nlog sb);
     FInt (sb_logstart sb); FInt (sb_inodestart sb); FInt (sb_bmapstart sb)].

(** The scan of [iget]: the entry for the inode, and the first free entry. *)
Fixpoint iget_scan (l : list inode) (i : nat) (dev inum : Z) (empty : option nat) : option nat * option nat :=
  match l with
  | [] => (None, empty)
  | ip :: l' =>
      if (0 <? i_ref ip) && (i_dev ip =? dev) && (i_inum ip =? inum) then (Some i, empty)
      else iget_scan l' (S i) dev inum
             (match empty with None => if i_ref ip =? 0 then Some i else None | _ => empty end)
  end.

Definition iget (dev inum : Z) : K nat :=
  acquire L_icache ;;
  t <- gets k_inodes ;;
  match iget_scan t 0 dev inum None with
  | (Some i, _) =>
      upd_inode i (fun ip => set_i_ref (i32 (i_ref ip + 1)) ip) ;;
      release L_icache ;;
      ret i
  | (None, None) => panic "iget: no inodes"
  | (None, Some i) =>
      upd_inode i (fun ip => set_i_valid false (set_i_ref 1 (set_i_inum inum (set_i_dev dev ip)))) ;;
      release L_icache ;;
      ret i
  end.

Definition idup (ip : nat) : K nat :=
  acquire L_icache ;;
  upd_inode ip (fun ip => set_i_ref (i32 (i_ref ip + 1)) ip) ;;
  release L_icache ;;
  ret ip.

Fixpoint ialloc_loop (n : nat) (dev type inum : Z) : K nat :=
  match n with
  | O => out_of_fuel
  | S n' =>
      sb <- get_sb ;;
      if negb (inum <? sb_ninodes sb) then panic "ialloc: no inodes" else
      i <- bread dev (IBLOCK inum sb) ;;
      bp <- get_buf i ;;
      if di_type (get_dinode (b_data bp) (dinode_off inum)) =? 0 then
        upd_buf i (set_b_data (put_dinode (b_data bp) (dinode_off inum) (mkdinode type 0 0 0 0 (replicate 13 0)))) ;;
        log_write i ;;
        brelse i ;;
        iget dev inum
      else
        brelse i ;;
        ialloc_loop n' dev type (inum + 1)
  end.

Definition ialloc (dev type : Z) : K nat :=
  sb <- get_sb ;;
  ialloc_loop (Z.to_nat (sb_ninodes sb) + 1) dev type 1.

Definition iupdate (ip : nat) : K unit :=
  n <- get_inode ip ;;
  sb <- get_sb ;;
  i <- bread (i_dev n) (IBLOCK (i_inum n) sb) ;;
  bp <- get_buf i ;;
  n <- get_inode ip ;;
  upd_buf i (set_b_data (put_dinode (b_data bp) (dinode_off (i_inum n)) (dinode_of n))) ;;
  log_write i ;;
  brelse i.

Definition ilock (ip : nat) : K unit :=
  n <- get_inode ip ;;
  if i_ref n <? 1 then panic "ilock" else
  acquiresleep (SL_inode ip) ;;
  n <- get_inode ip ;;
  when (negb (i_valid n))
    (sb <- get_sb ;;
     i <- bread (i_dev n) (IBLOCK (i_inum n) sb) ;;
     bp <- get_buf i ;;
     upd_inode ip (load_dinode (get_dinode (b_data bp) (dinode_off (i_inum n)))) ;;
     brelse i ;;
     upd_inode ip (set_i_valid true) ;;
     n <- get_inode ip ;;
     when (i_type n =? 0) (panic "ilock: no type")).

Definition iunlock (ip : nat) : K unit :=
  h <- holdingsleep (SL_inode ip) ;;
  n <- get_inode ip ;;
  if negb h || (i_ref n <? 1) then panic "iunlock" else
  releasesleep (SL_inode ip).

Definition itrunc (ip : nat) : K unit :=
  foreach (seq 0 (Z.to_nat NDIRECT)) (fun k =>
    n <- get_inode ip ;;
    when (negb (i_addrs n !!! k =? 0))
      (bfree (i_dev n) (i_addrs n !!! k) ;;
       upd_inode ip (fun n => set_i_addrs (<[k := 0]> (i_addrs n)) n))) ;;
  n <- get_inode ip ;;
  let ind := i_addrs n !!! Z.to_nat NDIRECT in
  when (negb (ind =? 0))
    (i <- bread (i_dev n) ind ;;
     foreach (seq 0 (Z.to_nat NINDIRECT)) (fun j =>
       bp <- get_buf i ;;
       when (negb (get32 (b_data bp) j =? 0)) (bfree (i_dev n) (get32 (b_data bp) j))) ;;
     brelse i ;;
     bfree (i_dev n) ind ;;
     upd_inode ip (fun n => set_i_addrs (<[Z.to_nat NDIRECT := 0]> (i_addrs n)) n)) ;;
  upd_inode ip (set_i_size 0) ;;
  iupdate ip.

Definition iput (ip : nat) : K unit :=
  acquiresleep (SL_inode ip) ;;
  n <- get_inode ip ;;
  when (i_valid n && (i_nlink n =? 0))
    (acquire L_icache ;;
     n <- get_inode ip ;;
     let r := i_ref n in
     release L_icache ;;
     when (r =? 1)
       (itrunc ip ;;
        upd_inode ip (set_i_type 0) ;;
        iupdate ip ;;
        upd_inode ip (set_i_valid false))) ;;
  releasesleep (SL_inode ip) ;;
  acquire L_icache ;;
  upd_inode ip (fun n => set_i_ref (i32 (i_ref n - 1)) n) ;;
  release L_icache.

Definition iunlockput (ip : nat) : K unit :=
  iunlock ip ;; iput ip.

End inode_code.

(** ** Bits of the bitmap *)

Lemma land_bit a k : 0 <= k -> negb (Z.land a (Z.shiftl 1 k) =? 0) = Z.testbit a k.
Proof.
  intros Hk. rewrite Z.shiftl_1_l. destruct (Z.testbit a k) eqn:E.
  - destruct (Z.eqb_spec (Z.land a (2 ^ k)) 0) as [H0|]; [|done].
    assert (Z.testbit (Z.land a (2 ^ k)) k = true) as Ht by by rewrite Z.land_spec, E, Z.pow2_bits_true.
    by rewrite H0, Z.testbit_0_l in Ht.
  - destruct (Z.eqb_spec (Z.land a (2 ^ k)) 0) as [|H0]; [done|]. exfalso. apply H0.
    apply Z.bits_inj'. intros j Hj. rewrite Z.land_spec, Z.testbit_0_l, Z.pow2_bits_eqb by done.
    destruct (Z.eqb_spec k j) as [<-|]; [by rewrite E|by rewrite andb_false_r].
Qed.

Lemma testbit_u8 a k : 0 <= k < 8 -> Z.testbit (u8 a) k = Z.testbit a k.
Proof. intros Hk. unfold u8. apply Z.mod_pow2_bits_low. lia. Qed.

Lemma bit_test_bit d bi : bit_test d bi = Z.testbit (d !!! bit_byte bi) (Z.of_nat (bi mod 8)).
Proof. unfold bit_test, bit_mask. apply land_bit. lia. Qed.

Lemma same_bit bi bj : bit_byte bi = bit_byte bj -> (bi mod 8 = bj mod 8)%nat -> bi = bj.
Proof. unfold bit_byte. intros H1 H2. pose proof (Nat.div_mod_eq bi 8). pose proof (Nat.div_mod_eq bj 8). lia. Qed.

Lemma bit_update d bi bj f :
  (bit_byte bi < length d)%nat ->
  Z.testbit (<[bit_byte bi := u8 (f (d !!! bit_byte bi))]> d !!! bit_byte bj) (Z.of_nat (bj mod 8)) =
    if decide (bit_byte bj = bit_byte bi) then Z.testbit (f (d !!! bit_byte bj)) (Z.of_nat (bj mod 8))
    else Z.testbit (d !!! bit_byte bj) (Z.of_nat (bj mod 8)).
Proof.
  intros Hl. pose proof (Nat.mod_upper_bound bj 8 ltac:(lia)). case_decide as E.
  - rewrite E, list_lookup_total_insert_eq by done. apply testbit_u8. lia.
  - by rewrite list_lookup_total_insert_ne by congruence.
Qed.

Lemma bit_test_set d bi bj :
  (bit_byte bi < length d)%nat -> bit_test (bit_set d bi) bj = bool_decide (bj = bi) || bit_test d bj.
Proof.
  intros Hl. rewrite !bit_test_bit. unfold bit_set, bit_mask.
  rewrite (bit_update d bi bj (fun x => Z.lor x _)) by done.
  case_decide as E; case_bool_decide as Eb; try done.
  - subst. rewrite Z.lor_spec, Z.shiftl_1_l, Z.pow2_bits_true by lia. by rewrite orb_true_r.
  - rewrite Z.lor_spec, Z.shiftl_1_l, Z.pow2_bits_false, orb_false_r; [done|].
    intros Ej%Nat2Z.inj. apply Eb. by apply same_bit.
  - by subst.
Qed.

Lemma bit_test_clear d bi bj :
  (bit_byte bi < length d)%nat -> bit_test (bit_clear d bi) bj = negb (bool_decide (bj = bi)) && bit_test d bj.
Proof.
  intros Hl. rewrite !bit_test_bit. unfold bit_clear, bit_mask.
  rewrite (bit_update d bi bj (fun x => Z.land x _)) by done.
  case_decide as E; case_bool_decide as Eb; simpl; try done.
  - subst. rewrite Z.land_spec, Z.lnot_spec, Z.shiftl_1_l, Z.pow2_bits_true by lia. by rewrite andb_false_r.
  - rewrite Z.land_spec, Z.lnot_spec, Z.shiftl_1_l by lia. rewrite Z.pow2_bits_false, andb_true_r; [done|].
    intros Ej%Nat2Z.inj. apply Eb. by apply same_bit.
  - by subst.
Qed.

Lemma insert_byte_ok d i x : block_ok d -> block_ok (<[i := u8 x]> d).
Proof. intros [Hl Hb]. split; [by rewrite length_insert|]. apply Forall_insert; [done|apply u8_range]. Qed.

Lemma bit_set_ok d bi : block_ok d -> block_ok (bit_set d bi).
Proof. apply insert_byte_ok. Qed.
Lemma bit_clear_ok d bi : block_ok d -> block_ok (bit_clear d bi).
Proof. apply insert_byte_ok. Qed.

Lemma bit_byte_lt d bi : block_ok d -> (bi < 4096)%nat -> (bit_byte bi < length d)%nat.
Proof. intros [-> _] Hb. unfold bit_byte. apply Nat.Div0.div_lt_upper_bound. lia. Qed.

Lemma find_free_Some d n bi :
  find_free d n = Some bi ->
  (bi < n)%nat /\ bit_test d bi = false /\ forall j, (j < bi)%nat -> bit_test d j = true.
Proof.
  unfold find_free. intros ([j x] & E & ->)%fmap_Some. simpl.
  apply list_find_Some in E as (Hj & Hx & Hmin). apply lookup_seq in Hj as [-> Hj]. simpl in *.
  split_and!; [done|done|]. intros k Hk.
  destruct (bit_test d k) eqn:Ek; [done|]. exfalso. eapply Hmin; [|exact Hk|exact Ek].
  apply lookup_seq. split; [done|lia].
Qed.

Lemma find_free_None d n j : find_free d n = None -> (j < n)%nat -> bit_test d j = true.
Proof.
  unfold find_free. intros E%fmap_None Hj. rewrite list_find_None in E.
  rewrite Forall_forall in E. specialize (E j ltac:(apply elem_of_seq; lia)).
  by destruct (bit_test d j).
Qed.

(** ** Allocation of blocks *)

(** The first block after the bitmap. *)
Definition data_start (sb : superblock) : Z := sb_bmapstart sb + sb_size sb / BPB + 1.
Definition used (V : Z -> block) (sb : superblock) (b : Z) : bool :=
  bit_test (V (BBLOCK b sb)) (Z.to_nat (b mod BPB)).

(** The layout that mkfs makes: the log, the inodes, the bitmap, the data. *)
Record fs_geo (s : kernel) : Prop := {
  fg_log : log_start (k_log s) + log_size (k_log s) <= sb_inodestart (k_sb s);
  fg_ninodes : 0 <= sb_ninodes (k_sb s);
  fg_inodes : sb_inodestart (k_sb s) + sb_ninodes (k_sb s) / IPB + 1 <= sb_bmapstart (k_sb s);
  fg_data : data_start (k_sb s) <= sb_size (k_sb s);
  fg_size : sb_size (k_sb s) <= k_disksize s;
  fg_start : 0 <= log_start (k_log s);
  fg_logsize : 1 <= log_size (k_log s) <= LOGSIZE;
  fg_disksize : k_disksize s <= 2 ^ 31;
}.

Lemma fs_geo_frame s s' : fframe s s' -> fs_geo s -> fs_geo s'.
Proof.
  intros Hf [? ? ? ? ? ? ? ?]. split; rewrite ?(ff_sb Hf), ?(ff_log_start Hf), ?(ff_log_size Hf), ?(ff_disksize Hf); done.
Qed.

(** The blocks before the data are never free. *)
Definition bitmap_ok (V : Z -> block) (sb : superblock) : Prop :=
  forall b, 0 <= b < sb_size sb -> used V sb b = false -> data_start sb <= b.

Section balloc_proofs.
Context `{Fuel}.
Implicit Types (s : kernel) (V : Z -> block) (bl : list Z) (L : gmap nat Z).

Lemma BBLOCK_spec s b :
  fs_geo s -> 0 <= b < sb_size (k_sb s) ->
  BBLOCK b (k_sb s) = sb_bmapstart (k_sb s) + b / BPB /\
  sb_bmapstart (k_sb s) <= BBLOCK b (k_sb s) < data_start (k_sb s) /\
  0 <= sb_bmapstart (k_sb s).
Proof.
  intros Hg Hb. pose proof (fg_log _ Hg). pose proof (fg_inodes _ Hg). pose proof (fg_data _ Hg).
  pose proof (fg_size _ Hg). pose proof (fg_start _ Hg). pose proof (fg_logsize _ Hg). pose proof (fg_disksize _ Hg).
  pose proof (Z.div_pos (sb_ninodes (k_sb s)) IPB (fg_ninodes _ Hg) ltac:(done)).
  unfold data_start in *. unfold BBLOCK.
  assert (0 <= b / BPB <= sb_size (k_sb s) / BPB) by (split; [apply Z.div_pos; [lia|done]|apply Z.div_le_mono; [done|lia]]).
  rewrite u32_small by lia. lia.
Qed.

Lemma geo_order s :
  fs_geo s ->
  0 <= sb_inodestart (k_sb s) < sb_bmapstart (k_sb s) /\ sb_bmapstart (k_sb s) < data_start (k_sb s) /\
  data_start (k_sb s) <= sb_size (k_sb s) <= k_disksize s.
Proof.
  intros [? ? ? ? ? ? ? ?]. pose proof (Z.div_pos (sb_ninodes (k_sb s)) IPB). change IPB with 8 in *.
  unfold data_start in *. change BPB with 4096 in *. Z.div_mod_to_equations. lia.
Qed.

(** Blocks from the bitmap on are outside the log. *)
Lemma geo_home s n :
  fs_geo s -> sb_inodestart (k_sb s) <= n < sb_size (k_sb s) -> home (k_log s) (k_disksize s) n.
Proof.
  intros Hg Hn. pose proof (fg_log _ Hg). pose proof (fg_size _ Hg). pose proof (fg_start _ Hg).
  pose proof (fg_logsize _ Hg). unfold home. lia.
Qed.

Lemma bzero_spec s V bl L n :
  tx s V bl L -> home (k_log s) (k_disksize s) n -> (forall j, L !! j <> Some n) ->
  1 <= log_outstanding (k_log s) -> Z.of_nat (length bl) < log_size (k_log s) - 1 ->
  (size L + length bl < NBUF)%nat ->
  wp (bzero 1 n) s (fun _ s' => tx s' (bset V n zero_block) (absorb n bl) L /\ fframe s s' /\
    k_inodes s' = k_inodes s).
Proof.
  intros Hok Hn HL Ho Hlt Hroom. unfold bzero. apply wp_bind.
  eapply wp_mono; [apply (tx_bread s V bl L n Hok); [apply Hn|done|done]|].
  intros i s1 (Hi & Hok1 & _ & Hf1 & Ei1).
  apply (tx_store _ _ _ _ i n _ _ _ Hok1); [apply lookup_insert_eq|apply zero_block_ok|by apply (ff_home Hf1)| | |].
  - by rewrite (ff_outstanding Hf1).
  - by rewrite (ff_log_size Hf1).
  - intros s2 Hok2 Hs2 Hf2 Ei2.
    eapply wp_mono; [apply (tx_brelse _ _ _ _ i n Hok2); [apply lookup_insert_eq|done]|].
    intros _ s3 (Hok3 & Hf3 & Ei3). rewrite delete_insert_id in Hok3 by done.
    split_and!; [done|by rewrite Hf1, Hf2|congruence].
Qed.

(** What allocating a block needs: room in the log and in the cache, and no
    block held but the caller's own. *)
Record can_alloc s V bl L : Prop := {
  ca_tx : tx s V bl L;
  ca_geo : fs_geo s;
  ca_bitmap : bitmap_ok V (k_sb s);
  ca_open : 1 <= log_outstanding (k_log s);
  ca_log : Z.of_nat (length bl) + 2 < log_size (k_log s);
  ca_room : (size L <= 1)%nat;
  ca_locked : forall j n, L !! j = Some n -> data_start (k_sb s) <= n /\ used V (k_sb s) n = true;
}.

Lemma can_alloc_frame s s' V bl L : can_alloc s V bl L -> fframe s s' -> tx s' V bl L -> can_alloc s' V bl L.
Proof.
  intros [] Hf Hok. split; rewrite ?(ff_sb Hf), ?(ff_outstanding Hf), ?(ff_log_size Hf); try done.
  by eapply fs_geo_frame.
Qed.

(** The blocks after block [b] has been allocated. *)
Definition ballocated V sb b : Z -> block :=
  bset (bset V (BBLOCK b sb) (bit_set (V (BBLOCK b sb)) (Z.to_nat (b mod BPB)))) b zero_block.

Lemma in_bitmap_block s b bi :
  fs_geo s -> b mod BPB = 0 -> 0 <= b -> (bi < 4096)%nat -> b + Z.of_nat bi < sb_size (k_sb s) ->
  BBLOCK (b + Z.of_nat bi) (k_sb s) = BBLOCK b (k_sb s) /\ Z.to_nat ((b + Z.of_nat bi) mod BPB) = bi.
Proof.
  intros Hg Hm Hb Hbi Hlt. destruct (BBLOCK_spec s b Hg ltac:(lia)) as [-> _].
  destruct (BBLOCK_spec s (b + Z.of_nat bi) Hg ltac:(lia)) as [-> _].
  change BPB with 4096 in *. assert ((b + Z.of_nat bi) / 4096 = b / 4096) as -> by (Z.div_mod_to_equations; lia).
  split; [done|]. Z.div_mod_to_equations; lia.
Qed.

(** The scan has reached block [b]; [r] is the first free block from there. *)
Definition alloc_post s V bl L b : Z -> kernel -> Prop := fun r s' =>
  (b <= r < sb_size (k_sb s) /\ used V (k_sb s) r = false /\ (forall c, b <= c < r -> used V (k_sb s) c = true)) /\
  tx s' (ballocated V (k_sb s) r) (absorb r (absorb (BBLOCK r (k_sb s)) bl)) L /\
  fframe s s' /\ k_inodes s' = k_inodes s.

(** The free bit found: mark it, and clear the block. *)
Lemma balloc_take s V bl L i b bi :
  can_alloc s V bl L -> b mod BPB = 0 -> 0 <= b -> (bi < 4096)%nat -> b + Z.of_nat bi < sb_size (k_sb s) ->
  used V (k_sb s) (b + Z.of_nat bi) = false -> L !! i = None ->
  (forall c, b <= c < b + Z.of_nat bi -> used V (k_sb s) c = true) ->
  let n := BBLOCK b (k_sb s) in
  forall s1, tx s1 V bl (<[i:=n]> L) -> fframe s s1 -> k_inodes s1 = k_inodes s ->
  wp (upd_buf i (set_b_data (bit_set (V n) bi)) ;; log_write i ;; brelse i ;;
      bzero 1 (b + Z.of_nat bi) ;; ret (b + Z.of_nat bi)) s1 (alloc_post s V bl L b).
Proof.
  intros [Hok Hg Hbm Ho Hlog Hroom HL] Hm Hb Hbi Hlt Hu Hi Hmin n s1 Hok1 Hf1 Ei1. set (r := b + Z.of_nat bi) in *.
  destruct (in_bitmap_block s b bi Hg Hm Hb Hbi Hlt) as [En Ebi]. fold r n in En, Ebi.
  destruct (BBLOCK_spec s r Hg ltac:(lia)) as (_ & Hn & H0). rewrite En in Hn.
  pose proof (Hbm r ltac:(lia) Hu) as Hr. pose proof (geo_order _ Hg).
  apply (tx_store _ _ _ _ i n _ _ _ Hok1); [apply lookup_insert_eq|apply bit_set_ok; by eapply tx_block| | | |].
  { apply (ff_home Hf1), geo_home; [done|lia]. }
  { by rewrite (ff_outstanding Hf1). }
  { rewrite (ff_log_size Hf1). lia. }
  intros s2 Hok2 Hs2 Hf2 Ei2. apply wp_bind.
  eapply wp_mono; [apply (tx_brelse _ _ _ _ i n Hok2); [apply lookup_insert_eq|done]|].
  intros _ s3 (Hok3 & Hf3 & Ei3). rewrite delete_insert_id in Hok3 by done.
  assert (fframe s s3) as Hf by by rewrite Hf1, Hf2. pose proof (length_absorb n bl). apply wp_bind. eapply wp_mono.
  { apply (bzero_spec s3 _ _ L r Hok3).
    - apply (ff_home Hf), geo_home; [done|lia].
    - intros j Ej. destruct (HL j r Ej). congruence.
    - by rewrite (ff_outstanding Hf).
    - rewrite (ff_log_size Hf). lia.
    - pose proof (fg_logsize _ Hg). unfold NBUF, LOGSIZE, MAXOPBLOCKS in *. lia. }
  intros _ s4 (Hok4 & Hf4 & Ei4). apply wp_ret. unfold alloc_post, ballocated. rewrite En, Ebi.
  split_and!; [lia|lia|done|done|done|by rewrite Hf|congruence].
Qed.

Lemma balloc_loop_spec n s V bl L b :
  can_alloc s V bl L -> b mod BPB = 0 -> 0 <= b ->
  (exists c, b <= c < sb_size (k_sb s) /\ used V (k_sb s) c = false) ->
  sb_size (k_sb s) - b <= Z.of_nat n * BPB ->
  wp (balloc_loop n 1 b) s (alloc_post s V bl L b).
Proof.
  revert s b. induction n as [|n IH]; intros s b Hca Hm Hb (c & Hc & Hu) Hn.
  { lia. }
  pose proof Hca as [Hok Hg Hbm Ho Hlog Hroom HL]. cbn [balloc_loop]. apply wp_bind. eapply wp_run; [reflexivity|].
  destruct (Z.ltb_spec b (sb_size (k_sb s))) as [Hlt|]; [|lia]. cbn [negb].
  set (nb := BBLOCK b (k_sb s)). destruct (BBLOCK_spec s b Hg ltac:(lia)) as (_ & Hnb & H0). fold nb in Hnb.
  pose proof (fg_data _ Hg). pose proof (fg_size _ Hg). pose proof (fg_logsize _ Hg) as Hls.
  apply wp_bind. eapply wp_mono.
  { apply (tx_bread s V bl L nb Hok); [lia|intros j Ej; destruct (HL j nb Ej); lia|].
    unfold NBUF, LOGSIZE, MAXOPBLOCKS in *. lia. }
  intros i s1 (Hi & Hok1 & Hs1 & Hf1 & Ei1). apply wp_bind. eapply wp_run; [reflexivity|].
  rewrite (tx_data _ _ _ _ i nb Hok1) by apply lookup_insert_eq.
  destruct (find_free _ _) as [bi|] eqn:Ef.
  - apply find_free_Some in Ef as (Hbi & Hbit & Hmin). change BPB with 4096 in *.
    apply (balloc_take s V bl L i b bi Hca); try done; [lia|lia|..].
    + destruct (in_bitmap_block s b bi Hg Hm Hb) as [E1 E2]; [lia|lia|]. unfold used. by rewrite E1, E2.
    + intros c' Hc'. replace c' with (b + Z.of_nat (Z.to_nat (c' - b))) by lia.
      destruct (in_bitmap_block s b (Z.to_nat (c' - b)) Hg Hm Hb) as [E1 E2]; [lia|lia|].
      unfold used. rewrite E1, E2. apply Hmin. lia.
  - assert (forall c', b <= c' < b + BPB -> c' < sb_size (k_sb s) -> used V (k_sb s) c' = true) as Hall.
    { intros c' Hc' Hl. change BPB with 4096 in *. replace c' with (b + Z.of_nat (Z.to_nat (c' - b))) by lia.
      destruct (in_bitmap_block s b (Z.to_nat (c' - b)) Hg Hm Hb) as [E1 E2]; [lia|lia|].
      unfold used. rewrite E1, E2. eapply find_free_None; [exact Ef|lia]. }
    assert (b + BPB <= c). { destruct (Z.le_gt_cases (b + BPB) c); [done|]. rewrite Hall in Hu by lia. done. }
    apply wp_bind. eapply wp_mono; [apply (tx_brelse _ _ _ _ i nb Hok1); [apply lookup_insert_eq|done]|].
    intros _ s2 (Hok2 & Hf2 & Ei2). rewrite delete_insert_id in Hok2 by done.
    assert (fframe s s2) as Hf by by rewrite Hf1. pose proof (ff_sb Hf) as Esb.
    eapply wp_mono.
    { apply (IH s2 (b + BPB)); [by eapply can_alloc_frame| | | |].
      - change BPB with 4096 in *. Z.div_mod_to_equations; lia.
      - change BPB with 4096. lia.
      - rewrite Esb. exists c. split; [lia|done].
      - rewrite Esb. lia. }
    intros r s3 ((Hr & Hur & Hmin) & Hok3 & Hf3 & Ei3). rewrite Esb in *. unfold alloc_post.
    change BPB with 4096 in *. split_and!; [lia|lia|done| |done|by rewrite Hf|congruence].
    intros c' Hc'. destruct (Z.lt_ge_cases c' (b + 4096)); [apply Hall; lia|apply Hmin; lia].
Qed.

Lemma used_ballocated s V bl L b c :
  can_alloc s V bl L -> 0 <= b < sb_size (k_sb s) -> used V (k_sb s) b = false -> 0 <= c < sb_size (k_sb s) ->
  used (ballocated V (k_sb s) b) (k_sb s) c = bool_decide (c = b) || used V (k_sb s) c.
Proof.
  intros Hca Hb Hu Hc. pose proof (ca_geo _ _ _ _ Hca) as Hg. pose proof (ca_bitmap _ _ _ _ Hca b Hb Hu).
  destruct (BBLOCK_spec s b Hg Hb) as (Eb & ? & ?). destruct (BBLOCK_spec s c Hg Hc) as (Ec & ? & ?).
  unfold used, ballocated. rewrite (bset_ne _ b) by lia.
  assert (forall x, (Z.to_nat (x mod BPB) < 4096)%nat) as Hm.
  { intros x. change BPB with 4096. pose proof (Z.mod_pos_bound x 4096). lia. }
  destruct (decide (BBLOCK c (k_sb s) = BBLOCK b (k_sb s))) as [E|E].
  - rewrite E, bset_eq, bit_test_set; [|apply bit_byte_lt; [eapply tx_block, Hca|apply Hm]].
    f_equal. apply bool_decide_ext. change BPB with 4096 in *. split; [|by intros ->].
    intros Eq. rewrite Eb, Ec in E. Z.div_mod_to_equations; lia.
  - rewrite bset_ne by done. rewrite bool_decide_eq_false_2; [done|]. by intros ->.
Qed.

Lemma ballocated_other s V bl L b n :
  can_alloc s V bl L -> 0 <= b < sb_size (k_sb s) -> n <> b ->
  n < sb_bmapstart (k_sb s) \/ data_start (k_sb s) <= n -> ballocated V (k_sb s) b n = V n.
Proof.
  intros Hca Hb Hne Hn. destruct (BBLOCK_spec s b (ca_geo _ _ _ _ Hca) Hb) as (_ & ? & _).
  unfold ballocated. rewrite !bset_ne by lia. done.
Qed.

Lemma ballocated_new V sb b : ballocated V sb b b = zero_block.
Proof. apply bset_eq. Qed.

Lemma ballocated_bitmap s V bl L b :
  can_alloc s V bl L -> 0 <= b < sb_size (k_sb s) -> used V (k_sb s) b = false ->
  bitmap_ok (ballocated V (k_sb s) b) (k_sb s).
Proof.
  intros Hca Hb Hu c Hc Huc. rewrite (used_ballocated _ _ _ _ _ _ Hca Hb Hu Hc) in Huc.
  apply orb_false_iff in Huc as [_ Huc]. exact (ca_bitmap _ _ _ _ Hca c Hc Huc).
Qed.

(** The number of free blocks. *)
Definition nfree V sb : nat := length (filter (fun b => used V sb b = false) (seqZ 0 (sb_size sb))).

Lemma nfree_pos V sb : (0 < nfree V sb)%nat -> exists b, 0 <= b < sb_size sb /\ used V sb b = false.
Proof.
  unfold nfree. intros Hn. destruct (filter _ _) as [|b l] eqn:E; [simpl in Hn; lia|].
  assert (b ∈ filter (fun b => used V sb b = false) (seqZ 0 (sb_size sb))) as Hb by (rewrite E; left).
  apply list_elem_of_filter in Hb as [Hu Hb%elem_of_seqZ]. exists b. split; [lia|done].
Qed.

Lemma nfree_ballocated s V bl L b :
  can_alloc s V bl L -> 0 <= b < sb_size (k_sb s) -> used V (k_sb s) b = false ->
  nfree V (k_sb s) = S (nfree (ballocated V (k_sb s) b) (k_sb s)).
Proof.
  intros Hca Hb Hu. unfold nfree. set (l := seqZ 0 (sb_size (k_sb s))).
  assert (filter (fun c => used (ballocated V (k_sb s) b) (k_sb s) c = false) l =
          filter (fun c => c <> b) (filter (fun c => used V (k_sb s) c = false) l)) as ->.
  { rewrite list_filter_filter. apply filter_ext_in. intros c Hc%elem_of_seqZ.
    rewrite (used_ballocated _ _ _ _ _ _ Hca Hb Hu) by lia. rewrite orb_false_iff, bool_decide_eq_false. done. }
  apply length_filter_ne.
  - apply NoDup_filter, NoDup_seqZ.
  - apply list_elem_of_filter. split; [done|]. apply elem_of_seqZ. lia.
Qed.

Lemma balloc_spec s V bl L :
  can_alloc s V bl L -> (0 < nfree V (k_sb s))%nat ->
  wp (balloc 1) s (alloc_post s V bl L 0).
Proof.
  intros Hca Hn. unfold balloc. apply wp_bind. eapply wp_run; [reflexivity|].
  apply balloc_loop_spec; [done|done|done|by apply nfree_pos|].
  change BPB with 4096. rewrite Nat2Z.inj_add.
  pose proof (fg_data _ (ca_geo _ _ _ _ Hca)). pose proof (nfree_pos _ _ Hn) as (b & ? & _).
  Z.div_mod_to_equations; lia.
Qed.

Lemma bfree_spec s V bl L b :
  tx s V bl L -> fs_geo s -> 0 <= b < sb_size (k_sb s) -> used V (k_sb s) b = true ->
  1 <= log_outstanding (k_log s) -> Z.of_nat (length bl) < log_size (k_log s) - 1 ->
  (forall j n, L !! j = Some n -> data_start (k_sb s) <= n) -> (size L + length bl < NBUF)%nat ->
  wp (bfree 1 b) s (fun _ s' =>
    let n := BBLOCK b (k_sb s) in
    tx s' (bset V n (bit_clear (V n) (Z.to_nat (b mod BPB)))) (absorb n bl) L /\
    fframe s s' /\ k_inodes s' = k_inodes s).
Proof.
  intros Hok Hg Hb Hu Ho Hlog HL Hroom. unfold bfree. set (n := BBLOCK b (k_sb s)).
  destruct (BBLOCK_spec s b Hg Hb) as (_ & Hn & H0). fold n in Hn. pose proof (geo_order _ Hg).
  apply wp_bind. eapply wp_run; [reflexivity|]. apply wp_bind.
  eapply wp_mono; [apply (tx_bread s V bl L n Hok); [lia|intros j Ej; specialize (HL j n Ej); lia|done]|].
  intros i s1 (Hi & Hok1 & _ & Hf1 & Ei1). apply wp_bind. eapply wp_run; [reflexivity|].
  rewrite (tx_data _ _ _ _ i n Hok1) by apply lookup_insert_eq. unfold used in Hu. fold n in Hu. rewrite Hu. cbn [negb].
  apply (tx_store _ _ _ _ i n _ _ _ Hok1); [apply lookup_insert_eq|apply bit_clear_ok; by eapply tx_block| | | |].
  { apply (ff_home Hf1), geo_home; [done|lia]. }
  { by rewrite (ff_outstanding Hf1). }
  { rewrite (ff_log_size Hf1). lia. }
  intros s2 Hok2 Hs2 Hf2 Ei2.
  eapply wp_mono; [apply (tx_brelse _ _ _ _ i n Hok2); [apply lookup_insert_eq|done]|].
  intros _ s3 (Hok3 & Hf3 & Ei3). rewrite delete_insert_id in Hok3 by done.
  split_and!; [done|by rewrite Hf1, Hf2|congruence].
Qed.

Lemma used_freed s V bl L b c :
  tx s V bl L -> fs_geo s -> 0 <= b < sb_size (k_sb s) -> 0 <= c < sb_size (k_sb s) ->
  let n := BBLOCK b (k_sb s) in
  used (bset V n (bit_clear (V n) (Z.to_nat (b mod BPB)))) (k_sb s) c = negb (bool_decide (c = b)) && used V (k_sb s) c.
Proof.
  intros Hok Hg Hb Hc n. destruct (BBLOCK_spec s b Hg Hb) as (Eb & _). destruct (BBLOCK_spec s c Hg Hc) as (Ec & _).
  unfold used. destruct (decide (BBLOCK c (k_sb s) = n)) as [E|E].
  - rewrite E, bset_eq, bit_test_clear.
    + f_equal. f_equal. apply bool_decide_ext. change BPB with 4096 in *. split; [|by intros ->].
      intros Eq. unfold n in E. rewrite Eb, Ec in E. Z.div_mod_to_equations; lia.
    + apply bit_byte_lt; [by eapply tx_block|]. change BPB with 4096. pose proof (Z.mod_pos_bound b 4096). lia.
  - rewrite bset_ne by done. rewrite bool_decide_eq_false_2; [done|]. by intros ->.
Qed.

End balloc_proofs.

(** ** The inode on disk *)

(** The fields have the ranges of their types. *)
Record dinode_wf (di : dinode) : Prop := {
  dw_type : - 2 ^ 15 <= di_type di < 2 ^ 15;
  dw_major : - 2 ^ 15 <= di_major di < 2 ^ 15;
  dw_minor : - 2 ^ 15 <= di_minor di < 2 ^ 15;
  dw_nlink : - 2 ^ 15 <= di_nlink di < 2 ^ 15;
  dw_size : 0 <= di_size di < 2 ^ 32;
  dw_addrs : Forall (fun a => 0 <= a < 2 ^ 32) (di_addrs di);
  dw_len : length (di_addrs di) = 13%nat;
}.

Lemma i16_u16 x : - 2 ^ 15 <= x < 2 ^ 15 -> i16 (u16 x) = x.
Proof. unfold i16, u16. intros Hx. Z.div_mod_to_equations; lia. Qed.

Lemma length_dinode_bytes di : length (di_addrs di) = 13%nat -> length (dinode_bytes di) = 64%nat.
Proof. intros Hl. unfold dinode_bytes. rewrite !length_app, !length_le_encode, length_words, Hl. done. Qed.

Lemma dinode_bytes_ok di : Forall is_byte (dinode_bytes di).
Proof.
  unfold dinode_bytes. repeat (apply Forall_app; split; [apply le_encode_bytes|]). apply words_bytes.
Qed.

Lemma get_dinode_splice d off l :
  (off + length l <= length d)%nat -> length l = 64%nat -> get_dinode (splice d off l) off = get_dinode l 0.
Proof.
  intros Hd Hl.
  assert (forall k m, (k + m <= 64)%nat -> slice (splice d off l) (off + k) m = slice l k m) as E
    by (intros; apply slice_splice_in; lia).
  pose proof (E 0%nat 2%nat ltac:(lia)) as E0. rewrite Nat.add_0_r in E0.
  unfold get_dinode, get16. rewrite E0, !E by lia. f_equal. apply list_fmap_ext. intros i x [-> Hk]%lookup_seq.
  simpl in Hk. by rewrite <- Nat.add_assoc, E by lia.
Qed.

(** An inode survives its encoding. *)
Lemma get_dinode_bytes di : dinode_wf di -> get_dinode (dinode_bytes di) 0 = di.
Proof.
  destruct di as [t ma mi nl sz ad]. intros [Ht Hma Hmi Hnl Hsz Had Hlen]. simpl in *.
  unfold get_dinode, dinode_bytes, get16. cbn [di_type di_major di_minor di_nlink di_size di_addrs].
  assert (forall x, 0 <= u16 x < 256 ^ Z.of_nat 2) as Hu by (intros; apply Z.mod_pos_bound; done).
  assert (forall x, length (le_encode 2 x) = 2%nat) as H2 by (intros; apply length_le_encode).
  assert (forall x, length (le_encode 4 x) = 4%nat) as H4 by (intros; apply length_le_encode).
  f_equal.
  - by rewrite slice_app_l, le_decode_encode, i16_u16.
  - rewrite slice_app_r, H2 by (rewrite H2; done). by rewrite slice_app_l, le_decode_encode, i16_u16.
  - do 2 (rewrite slice_app_r, H2 by (rewrite H2; lia)). by rewrite slice_app_l, le_decode_encode, i16_u16.
  - do 3 (rewrite slice_app_r, H2 by (rewrite H2; lia)). by rewrite slice_app_l, le_decode_encode, i16_u16.
  - do 4 (rewrite slice_app_r, H2 by (rewrite H2; lia)). by rewrite slice_app_l, le_decode_encode.
  - apply list_eq. intros k. destruct (decide (k < 13)%nat) as [Hk|Hk].
    + rewrite list_lookup_fmap, (proj2 (lookup_seq 0 13 k k)) by lia. cbn [fmap option_fmap option_map].
      do 4 (rewrite slice_app_r, H2 by (rewrite H2; lia)). rewrite slice_app_r, H4 by (rewrite H4; lia).
      replace (0 + 12 + 4 * k - 2 - 2 - 2 - 2 - 4)%nat with (4 * k)%nat by lia.
      destruct (lookup_lt_is_Some_2 ad k ltac:(lia)) as [a Ha].
      rewrite slice_words, (list_lookup_total_correct _ _ _ Ha), le_decode_encode, Ha by
        (lia || exact (Forall_lookup_1 _ _ _ _ Had Ha)). done.
    + rewrite !lookup_ge_None_2; [done|lia|rewrite length_fmap, length_seq; lia].
Qed.

Lemma get_put_dinode d off di :
  (off + 64 <= length d)%nat -> dinode_wf di -> get_dinode (put_dinode d off di) off = di.
Proof.
  intros Hd Hw. pose proof (length_dinode_bytes di (dw_len _ Hw)) as Hl. unfold put_dinode.
  rewrite get_dinode_splice by lia. by apply get_dinode_bytes.
Qed.

(** The other inodes of the block. *)
Lemma get_put_dinode_ne d off off' di :
  (off + 64 <= length d)%nat -> length (di_addrs di) = 13%nat -> (off + 64 <= off' \/ off' + 64 <= off)%nat ->
  get_dinode (put_dinode d off di) off' = get_dinode d off'.
Proof.
  intros Hd Hl Hne. pose proof (length_dinode_bytes di Hl) as Hb.
  assert (forall k m, (k + m <= 64)%nat -> slice (put_dinode d off di) (off' + k) m = slice d (off' + k) m) as E
    by (intros; apply slice_splice_ne; rewrite Hb; lia).
  pose proof (E 0%nat 2%nat ltac:(lia)) as E0. rewrite Nat.add_0_r in E0.
  unfold get_dinode, get16. rewrite E0, !E by lia. f_equal. apply list_fmap_ext. intros i x [-> Hk]%lookup_seq.
  simpl in Hk. by rewrite <- Nat.add_assoc, E by lia.
Qed.

Lemma put_dinode_ok d off di :
  block_ok d -> (off + 64 <= 512)%nat -> length (di_addrs di) = 13%nat -> block_ok (put_dinode d off di).
Proof.
  intros [Hl Hb] Ho Hd. pose proof (length_dinode_bytes di Hd). split.
  - unfold put_dinode. rewrite length_splice; lia.
  - apply splice_bytes; [done|apply dinode_bytes_ok].
Qed.

(** ** The inode cache *)

Definition disk_inode (V : Z -> block) (sb : superblock) (inum : Z) : dinode :=
  get_dinode (V (IBLOCK inum sb)) (dinode_off inum).

(** The in-memory copy agrees with the disk. *)
Definition coherent (V : Z -> block) (sb : superblock) (n : inode) : Prop :=
  i_valid n = true -> dinode_of n = disk_inode V sb (i_inum n).

(** The inode that [ilock] leaves to process [pid]. *)
Definition loaded (pid : Z) (di : dinode) (n : inode) : inode :=
  set_i_lock (mksleeplock 1 pid) (set_i_valid true (load_dinode di n)).

Section icache_proofs.
Context `{Fuel}.
Implicit Types (s : kernel) (V : Z -> block) (bl : list Z) (L : gmap nat Z).

Lemma IBLOCK_spec s inum :
  fs_geo s -> 0 <= inum < sb_ninodes (k_sb s) ->
  IBLOCK inum (k_sb s) = sb_inodestart (k_sb s) + inum / IPB /\
  sb_inodestart (k_sb s) <= IBLOCK inum (k_sb s) < sb_bmapstart (k_sb s).
Proof.
  intros Hg Hi. pose proof (geo_order _ Hg). pose proof (fg_inodes _ Hg). pose proof (fg_disksize _ Hg).
  assert (0 <= inum / IPB <= sb_ninodes (k_sb s) / IPB)
    by (split; [apply Z.div_pos; [lia|done]|apply Z.div_le_mono; [done|lia]]).
  unfold IBLOCK. rewrite u32_small by lia. lia.
Qed.

Lemma inode_home s inum :
  fs_geo s -> 0 <= inum < sb_ninodes (k_sb s) -> home (k_log s) (k_disksize s) (IBLOCK inum (k_sb s)).
Proof.
  intros Hg Hi. destruct (IBLOCK_spec s inum Hg Hi) as [_ ?]. pose proof (geo_order _ Hg).
  apply geo_home; [done|]. lia.
Qed.

Lemma dinode_off_fits inum : (dinode_off inum + 64 <= 512)%nat.
Proof. unfold dinode_off. change IPB with 8. pose proof (Z.mod_pos_bound inum 8 ltac:(done)). lia. Qed.

Lemma iupdate_spec s V bl L ip n :
  tx s V bl L -> fs_geo s -> k_inodes s !!! ip = n -> i_dev n = 1 -> 0 <= i_inum n < sb_ninodes (k_sb s) ->
  length (i_addrs n) = 13%nat ->
  1 <= log_outstanding (k_log s) -> Z.of_nat (length bl) < log_size (k_log s) - 1 ->
  (forall j, L !! j <> Some (IBLOCK (i_inum n) (k_sb s))) -> (size L + length bl < NBUF)%nat ->
  wp (iupdate ip) s (fun _ s' =>
    let ib := IBLOCK (i_inum n) (k_sb s) in
    tx s' (bset V ib (put_dinode (V ib) (dinode_off (i_inum n)) (dinode_of n))) (absorb ib bl) L /\
    fframe s s' /\ k_inodes s' = k_inodes s).
Proof.
  intros Hok Hg En Hd Hi Hlen Ho Hlog HL Hroom. unfold iupdate. set (ib := IBLOCK (i_inum n) (k_sb s)).
  pose proof (inode_home s _ Hg Hi) as Hh. fold ib in Hh.
  apply wp_bind. eapply wp_run; [reflexivity|]. rewrite En, Hd. apply wp_bind. eapply wp_run; [reflexivity|].
  apply wp_bind. eapply wp_mono; [apply (tx_bread s V bl L ib Hok); [apply Hh|done|done]|].
  intros i s1 (Hi1 & Hok1 & _ & Hf1 & Ei1). apply wp_bind. eapply wp_run; [reflexivity|].
  rewrite (tx_data _ _ _ _ i ib Hok1) by apply lookup_insert_eq.
  apply wp_bind. eapply wp_run; [reflexivity|]. rewrite Ei1, En.
  apply (tx_store _ _ _ _ i ib _ _ _ Hok1); [apply lookup_insert_eq| |by apply (ff_home Hf1)| | |].
  { apply put_dinode_ok; [by eapply tx_block|apply dinode_off_fits|done]. }
  { by rewrite (ff_outstanding Hf1). }
  { rewrite (ff_log_size Hf1). lia. }
  intros s2 Hok2 Hs2 Hf2 Ei2.
  eapply wp_mono; [apply (tx_brelse _ _ _ _ i ib Hok2); [apply lookup_insert_eq|done]|].
  intros _ s3 (Hok3 & Hf3 & Ei3). rewrite delete_insert_id in Hok3 by done.
  split_and!; [done|by rewrite Hf1, Hf2|congruence].
Qed.

Lemma get_inode_run ip s : get_inode ip s = Ret (k_inodes s !!! ip) s.
Proof. done. Qed.

(** Taking and giving back the lock of an inode. *)
Lemma ilock_acquire ip s :
  quiet s -> sl_locked (i_lock (k_inodes s !!! ip)) = 0 ->
  acquiresleep (SL_inode ip) s =
    Ret tt (set_k_inodes (alter (set_i_lock (mksleeplock 1 (cur_pid s))) ip (k_inodes s)) s).
Proof. intros Hq Hl. by rewrite acquiresleep_quiet. Qed.

Lemma tx_wake s V bl L ch :
  tx s V bl L -> tx (set_k_proc (wake ch <$> k_proc s) s) V bl L /\ fframe s (set_k_proc (wake ch <$> k_proc s) s).
Proof.
  intros Hok. pose proof (tx_quiet _ _ _ _ Hok) as [? ?].
  assert (fframe s (set_k_proc (wake ch <$> k_proc s) s)) as Hf.
  { split; kproj; [by destruct s|apply wakes_wake|]. unfold reheaded. by destruct (k_log s). }
  split; [|done]. eapply tx_frame; try done. apply (ff_pid Hf).
Qed.

Lemma irelease_spec ip s V bl L :
  tx s V bl L ->
  wp (releasesleep (SL_inode ip)) s (fun _ s' => tx s' V bl L /\ fframe s s' /\
    k_inodes s' = alter (set_i_lock (mksleeplock 0 0)) ip (k_inodes s)).
Proof.
  intros Hok. pose proof (tx_quiet _ _ _ _ Hok) as Hq. eapply wp_run; [by apply releasesleep_quiet|].
  unfold sl_released. cbn [set_sl]. set (s1 := set_k_inodes _ s).
  destruct (tx_wake s1 V bl L (Some (Ch_sleep (SL_inode ip))) (tx_inodes _ _ _ _ _ Hok)) as [Hok2 Hf2].
  split_and!; [exact Hok2| |done]. etrans; [apply fframe_inodes|exact Hf2].
Qed.

Lemma ilock_spec s V bl L ip n :
  tx s V bl L -> fs_geo s -> k_inodes s !! ip = Some n -> 1 <= i_ref n -> sl_locked (i_lock n) = 0 ->
  i_dev n = 1 -> 0 <= i_inum n < sb_ninodes (k_sb s) -> coherent V (k_sb s) n ->
  (i_valid n = false -> di_type (disk_inode V (k_sb s) (i_inum n)) <> 0) ->
  (forall j, L !! j <> Some (IBLOCK (i_inum n) (k_sb s))) -> (size L + length bl < NBUF)%nat ->
  wp (ilock ip) s (fun _ s' => tx s' V bl L /\ fframe s s' /\
    k_inodes s' = <[ip := loaded (cur_pid s) (disk_inode V (k_sb s) (i_inum n)) n]> (k_inodes s)).
Proof.
  intros Hok Hg En Href Hl Hd Hi Hco Hty HL Hroom. unfold ilock. pose proof (list_lookup_total_correct _ _ _ En) as Et.
  apply wp_bind. eapply wp_run; [reflexivity|]. rewrite Et. destruct (Z.ltb_spec (i_ref n) 1); [lia|].
  apply wp_bind. eapply wp_run; [apply ilock_acquire; [by eapply tx_quiet|by rewrite Et]|].
  rewrite (alter_is_insert _ _ _ _ En). set (n1 := set_i_lock _ n). set (s1 := set_k_inodes _ s).
  apply wp_bind. eapply wp_run; [reflexivity|]. cbn [k_inodes s1 set_k_inodes].
  pose proof (lookup_lt_Some _ _ _ En) as Hlt. rewrite list_lookup_total_insert_eq by done.
  assert (fframe s s1) as Hf1 by apply fframe_inodes. pose proof (tx_inodes (<[ip:=n1]> (k_inodes s)) _ _ _ _ Hok) as Hok1.
  change (i_valid n1) with (i_valid n). destruct (i_valid n) eqn:Ev; cbn [negb when].
  { apply wp_ret. split_and!; [done|done|]. cbn [s1 set_k_inodes k_inodes]. f_equal.
    rewrite <- (Hco Ev). unfold loaded, load_dinode, dinode_of, n1. destruct n. simpl in *. by subst. }
  set (di := disk_inode V (k_sb s) (i_inum n)) in *. set (ib := IBLOCK (i_inum n) (k_sb s)) in *.
  pose proof (inode_home s _ Hg Hi) as Hh. fold ib in Hh.
  apply wp_bind. eapply wp_run; [reflexivity|]. change (i_dev n1) with (i_dev n). rewrite Hd.
  change (i_inum n1) with (i_inum n). change (k_sb s1) with (k_sb s). fold ib.
  apply wp_bind. eapply wp_mono; [apply (tx_bread s1 V bl L ib Hok1); [apply Hh|done|done]|].
  intros i s2 (Hi2 & Hok2 & Hs2 & Hf2 & Ei2). apply wp_bind. eapply wp_run; [reflexivity|].
  rewrite (tx_data _ _ _ _ i ib Hok2) by apply lookup_insert_eq. fold di.
  apply wp_bind. eapply wp_run; [reflexivity|]. rewrite Ei2. cbn [s1 set_k_inodes k_inodes].
  rewrite alter_of_insert. apply wp_bind.
  eapply wp_mono; [apply (tx_brelse _ _ _ _ i ib (tx_inodes _ _ _ _ _ Hok2)); [apply lookup_insert_eq|done]|].
  intros _ s3 (Hok3 & Hf3 & Ei3). rewrite delete_insert_id in Hok3 by done. kproj_in Ei3.
  apply wp_bind. eapply wp_run; [reflexivity|]. rewrite Ei3, alter_of_insert.
  apply wp_bind. eapply wp_run; [reflexivity|]. kproj. rewrite list_lookup_total_insert_eq by done.
  change (i_type (set_i_valid true (load_dinode di n1))) with (di_type di).
  rewrite (proj2 (Z.eqb_neq _ _)) by auto. cbn [when]. apply wp_ret. split_and!.
  - by apply tx_inodes.
  - etrans; [exact Hf1|]. etrans; [exact Hf2|]. etrans; [apply fframe_inodes|]. etrans; [exact Hf3|apply fframe_inodes].
  - done.
Qed.

Lemma iunlock_spec s V bl L ip n :
  tx s V bl L -> k_inodes s !! ip = Some n -> 1 <= i_ref n -> i_lock n = mksleeplock 1 (cur_pid s) ->
  wp (iunlock ip) s (fun _ s' => tx s' V bl L /\ fframe s s' /\
    k_inodes s' = <[ip := set_i_lock (mksleeplock 0 0) n]> (k_inodes s)).
Proof.
  intros Hok En Href Hl. unfold iunlock. pose proof (list_lookup_total_correct _ _ _ En) as Et.
  apply wp_bind. eapply wp_run; [apply holdingsleep_mine; [by eapply tx_quiet|by cbn [get_sl]; rewrite Et]|].
  apply wp_bind. eapply wp_run; [reflexivity|]. rewrite Et. destruct (Z.ltb_spec (i_ref n) 1); [lia|]. cbn [negb orb].
  eapply wp_mono; [by apply irelease_spec|]. intros _ s' (? & ? & ->). by rewrite (alter_is_insert _ _ _ _ En).
Qed.

(** Dropping a reference that is not the last one to an unlinked inode. *)
Lemma iput_spec s V bl L ip n :
  tx s V bl L -> k_inodes s !! ip = Some n -> 1 <= i_ref n < 2 ^ 31 -> sl_locked (i_lock n) = 0 ->
  (i_valid n = true -> i_nlink n = 0 -> i_ref n <> 1) ->
  wp (iput ip) s (fun _ s' => tx s' V bl L /\ fframe s s' /\
    k_inodes s' = <[ip := set_i_ref (i_ref n - 1) (set_i_lock (mksleeplock 0 0) n)]> (k_inodes s)).
Proof.
  intros Hok En Href Hl Hlast. unfold iput. pose proof (list_lookup_total_correct _ _ _ En) as Et.
  pose proof (lookup_lt_Some _ _ _ En) as Hlt. pose proof (tx_quiet _ _ _ _ Hok) as Hq.
  apply wp_bind. eapply wp_run; [apply ilock_acquire; [done|by rewrite Et]|].
  rewrite (alter_is_insert _ _ _ _ En). set (n1 := set_i_lock _ n). set (s1 := set_k_inodes _ s).
  assert (fframe s s1) as Hf1 by apply fframe_inodes. pose proof (tx_inodes (<[ip:=n1]> (k_inodes s)) _ _ _ _ Hok) as Hok1.
  pose proof (ff_quiet Hf1 Hq) as Hq1.
  assert (k_inodes s1 !!! ip = n1) as En1 by (unfold s1; kproj; by apply list_lookup_total_insert_eq).
  apply wp_bind. eapply wp_run; [apply get_inode_run|]. rewrite En1. apply wp_bind.
  assert (wp (when (i_valid n1 && (i_nlink n1 =? 0))
    (acquire L_icache ;; n <- get_inode ip ;; (let r := i_ref n in release L_icache ;;
     when (r =? 1) (itrunc ip ;; upd_inode ip (set_i_type 0) ;; iupdate ip ;; upd_inode ip (set_i_valid false))))) s1
    (fun _ s' => s' = s1)) as Hw.
  { change (i_valid n1) with (i_valid n). change (i_nlink n1) with (i_nlink n).
    destruct (i_valid n) eqn:Ev; [|by apply wp_ret]. destruct (Z.eqb_spec (i_nlink n) 0); [|by apply wp_ret].
    cbn [andb when]. apply wp_bind. eapply wp_run; [by apply acquire_run, quiet_not_held|].
    apply wp_bind. eapply wp_run; [apply get_inode_run|]. kproj. rewrite En1. apply wp_bind.
    eapply wp_run; [by apply (release_head _ (k_held s1)); [by apply quiet_not_held|]|].
    change (i_ref n1) with (i_ref n). rewrite (proj2 (Z.eqb_neq _ _)) by auto. cbn [when]. apply wp_ret.
    by destruct s. }
  eapply wp_mono; [exact Hw|]. intros _ ? ->. apply wp_bind. eapply wp_mono; [by apply irelease_spec|].
  intros _ s2 (Hok2 & Hf2 & Ei2). pose proof (tx_quiet _ _ _ _ Hok2) as Hq2.
  apply wp_bind. eapply wp_run; [by apply acquire_run, quiet_not_held|]. apply wp_bind. eapply wp_run; [reflexivity|].
  eapply wp_run; [by apply (release_head _ (k_held s2)); [by apply quiet_not_held|]|]. kproj.
  assert (k_inodes s2 = <[ip := set_i_lock (mksleeplock 0 0) n]> (k_inodes s)) as Ei.
  { rewrite Ei2. unfold s1. kproj. by rewrite alter_of_insert. }
  rewrite Ei, alter_of_insert. cbn [i_ref set_i_lock]. rewrite i32_small by lia.
  match goal with |- tx ?x _ _ _ /\ _ => assert (x = set_k_inodes (<[ip:=set_i_ref (i_ref n - 1) (set_i_lock (mksleeplock 0 0) n)]> (k_inodes s)) s2) as -> by by destruct s2 end.
  split_and!; [by apply tx_inodes| |done]. etrans; [exact Hf1|]. etrans; [exact Hf2|apply fframe_inodes].
Qed.

(** The table: an inode has at most one entry in use. *)
Record icache_ok (t : list inode) : Prop := {
  ic_ref : forall i n, t !! i = Some n -> 0 <= i_ref n < 2 ^ 31;
  ic_unique : forall i j n m, t !! i = Some n -> t !! j = Some m -> 0 < i_ref n -> 0 < i_ref m ->
    i_dev n = i_dev m -> i_inum n = i_inum m -> i = j;
}.

(** Entry [n] is in use for inode [inum] of [dev]. *)
Definition entry_for (dev inum : Z) (n : inode) : Prop := 0 < i_ref n /\ i_dev n = dev /\ i_inum n = inum.

#[global] Instance entry_for_dec dev inum n : Decision (entry_for dev inum n).
Proof. unfold entry_for. apply _. Defined.

Lemma entry_test dev inum n :
  (0 <? i_ref n) && (i_dev n =? dev) && (i_inum n =? inum) = true <-> entry_for dev inum n.
Proof. unfold entry_for. rewrite !andb_true_iff, Z.ltb_lt, !Z.eqb_eq. tauto. Qed.

Lemma iget_scan_spec t k dev inum e r e' :
  iget_scan t k dev inum e = (r, e') ->
  match r with
  | Some i => exists n, (k <= i)%nat /\ t !! (i - k)%nat = Some n /\ entry_for dev inum n
  | None => Forall (fun n => ~ entry_for dev inum n) t /\
      match e with
      | Some _ => e' = e
      | None => match e' with
                | Some i => exists n, (k <= i)%nat /\ t !! (i - k)%nat = Some n /\ i_ref n = 0
                | None => Forall (fun n => i_ref n <> 0) t
                end
      end
  end.
Proof.
  revert k e. induction t as [|n t IH]; intros k e E; simpl in E.
  { injection E as <- <-. split; [constructor|]. destruct e; [done|constructor]. }
  destruct (_ && _) eqn:Et.
  - injection E as <- <-. exists n. rewrite Nat.sub_diag. split_and!; [lia|done|by apply entry_test].
  - apply IH in E. assert (~ entry_for dev inum n) as Hn by by rewrite <- entry_test, Et.
    destruct r as [i|].
    + destruct E as (m & Hk & Hm & He). exists m. split_and!; [lia| |done].
      replace (i - k)%nat with (S (i - S k)) by lia. done.
    + destruct E as [Hall He]. split; [by constructor|]. destruct e as [j|]; [done|].
      destruct (Z.eqb_spec (i_ref n) 0) as [H0|H0].
      * subst e'. exists n. rewrite Nat.sub_diag. split_and!; [lia|done|done].
      * destruct e' as [i|]; [|by constructor]. destruct He as (m & Hk & Hm & He). exists m. split_and!; [lia| |done].
        replace (i - k)%nat with (S (i - S k)) by lia. done.
Qed.

(** The entry [iget] makes. *)
Definition fresh_entry (dev inum : Z) (n : inode) : inode :=
  set_i_valid false (set_i_ref 1 (set_i_inum inum (set_i_dev dev n))).

(** What the inode table is after a reference to [inum] has been taken. *)
Definition igot (dev inum : Z) (t : list inode) (i : nat) (t' : list inode) : Prop :=
  exists n, t !! i = Some n /\
    ((entry_for dev inum n /\ t' = <[i := set_i_ref (i_ref n + 1) n]> t) \/
     (Forall (fun n => ~ entry_for dev inum n) t /\ i_ref n = 0 /\ t' = <[i := fresh_entry dev inum n]> t)).

Lemma iget_run s dev inum :
  L_icache ∉ k_held s ->
  iget dev inum s =
    match iget_scan (k_inodes s) 0 dev inum None with
    | (Some i, _) => Ret i (set_k_inodes (alter (fun n => set_i_ref (i32 (i_ref n + 1)) n) i (k_inodes s)) s)
    | (None, Some i) => Ret i (set_k_inodes (alter (fresh_entry dev inum) i (k_inodes s)) s)
    | (None, None) => Panic "iget: no inodes"
    end.
Proof.
  intros Hh. unfold iget, upd_inode. krun. rewrite acquire_run by done. cbn [res_bind]. kproj.
  destruct (iget_scan _ _ _ _ _) as [[i|] [j|]]; cbn [res_bind]; try done;
    (rewrite (release_head _ (k_held s)) by done); cbn [res_bind]; kproj; f_equal; by destruct s.
Qed.

Lemma iget_spec s dev inum :
  L_icache ∉ k_held s -> icache_ok (k_inodes s) -> Forall (fun n => i_ref n < 2 ^ 31 - 1) (k_inodes s) ->
  Exists (fun n => entry_for dev inum n \/ i_ref n = 0) (k_inodes s) ->
  exists i t, iget dev inum s = Ret i (set_k_inodes t s) /\ igot dev inum (k_inodes s) i t /\ icache_ok t.
Proof.
  intros Hh [Hr Hu] Hmax Hex. rewrite iget_run by done.
  destruct (iget_scan (k_inodes s) 0 dev inum None) as [r e] eqn:E. apply iget_scan_spec in E. destruct r as [i|].
  - destruct E as (n & _ & Hn & He). rewrite Nat.sub_0_r in Hn. eexists i, _. split; [done|].
    pose proof (Forall_lookup_1 _ _ _ _ Hmax Hn) as Hlt. pose proof (Hr i n Hn).
    rewrite (alter_is_insert _ _ _ _ Hn), i32_small by (simpl in Hlt; lia). split; [by exists n; auto|].
    split.
    + intros j m. rewrite list_lookup_insert_Some. intros [(-> & <- & _)|[_ Hj]]; [simpl; simpl in Hlt; lia|by eapply Hr].
    + intros j1 j2 n1 n2. rewrite !list_lookup_insert_Some. destruct He.
      intros [(<- & <- & _)|[Hne1 Hj1]] [(<- & <- & _)|[Hne2 Hj2]]; simpl; try done; intros; eapply Hu; try done; lia.
  - destruct E as [Hno E]. destruct e as [i|].
    + destruct E as (n & _ & Hn & H0). rewrite Nat.sub_0_r in Hn. eexists i, _. split; [done|].
      rewrite (alter_is_insert _ _ _ _ Hn). split; [by exists n; auto|]. rewrite Forall_lookup in Hno.
      split.
      * intros j m. rewrite list_lookup_insert_Some. intros [(-> & <- & _)|[_ Hj]]; [simpl; lia|by eapply Hr].
      * intros j1 j2 n1 n2. rewrite !list_lookup_insert_Some.
        intros [(<- & <- & _)|[Hne1 Hj1]] [(<- & <- & _)|[Hne2 Hj2]]; simpl; intros; try done.
        -- exfalso. by eapply (Hno j2 n2).
        -- exfalso. by eapply (Hno j1 n1).
        -- by eapply Hu.
    + exfalso. apply Exists_exists in Hex as (n & Hn & [He|He]).
      * by apply (proj1 (Forall_forall _ _) Hno n).
      * by apply (proj1 (Forall_forall _ _) E n).
Qed.

(** ** Theorems *)

(** [balloc] returns the first block that the bitmap says is free.  The
    block is a data block, it reads as zeros and is marked used, and nothing
    else changes: no other bit of the bitmap and no other block. *)
Theorem balloc_correct s V bl L :
  can_alloc s V bl L -> (0 < nfree V (k_sb s))%nat ->
  exists b s' V' bl', balloc 1 s = Ret b s' /\ tx s' V' bl' L /\ fframe s s' /\ k_inodes s' = k_inodes s /\
    data_start (k_sb s) <= b < sb_size (k_sb s) /\
    used V (k_sb s) b = false /\ (forall c, 0 <= c < b -> used V (k_sb s) c = true) /\
    V' b = zero_block /\
    (forall c, 0 <= c < sb_size (k_sb s) -> used V' (k_sb s) c = bool_decide (c = b) || used V (k_sb s) c) /\
    (forall n, n <> b -> n < sb_bmapstart (k_sb s) \/ data_start (k_sb s) <= n -> V' n = V n) /\
    nfree V (k_sb s) = S (nfree V' (k_sb s)).
Proof.
  intros Hca Hn. destruct (wp_inv _ _ _ (balloc_spec s V bl L Hca Hn)) as (b & s' & Hrun & (Hb & Hu & Hmin) & Hok & Hf & Ei).
  exists b, s'. eexists _, _. split; [done|]. split; [exact Hok|].
  pose proof (ca_bitmap _ _ _ _ Hca b ltac:(lia) Hu).
  split_and!; try done; [lia|apply ballocated_new| | |].
  - intros c Hc. by apply (used_ballocated s V bl L).
  - intros n Hne Hn'. apply (ballocated_other s V bl L); [done|lia|done|done].
  - apply (nfree_ballocated s V bl L); [done|lia|done].
Qed.

(** [bfree] clears the bit of the block and nothing else; a block that
    is free already is a panic. *)
Theorem bfree_correct s V bl b :
  tx s V bl ∅ -> fs_geo s -> 0 <= b < sb_size (k_sb s) ->
  1 <= log_outstanding (k_log s) -> Z.of_nat (length bl) < log_size (k_log s) - 1 ->
  if used V (k_sb s) b then
    exists s' V' bl', bfree 1 b s = Ret tt s' /\ tx s' V' bl' ∅ /\ fframe s s' /\ k_inodes s' = k_inodes s /\
      (forall c, 0 <= c < sb_size (k_sb s) -> used V' (k_sb s) c = negb (bool_decide (c = b)) && used V (k_sb s) c) /\
      (forall n, n < sb_bmapstart (k_sb s) \/ data_start (k_sb s) <= n -> V' n = V n)
  else bfree 1 b s = Panic "freeing free block".
Proof.
  intros Hok Hg Hb Ho Hlog. pose proof (fg_logsize _ Hg) as Hls. unfold LOGSIZE, MAXOPBLOCKS in Hls.
  destruct (BBLOCK_spec s b Hg Hb) as (_ & Hn & _). destruct (used V (k_sb s) b) eqn:Hu.
  - assert (size (∅ : gmap nat Z) + length bl < NBUF)%nat as Hroom by (rewrite map_size_empty; unfold NBUF; lia).
    destruct (wp_inv _ _ _ (bfree_spec s V bl ∅ b Hok Hg Hb Hu Ho Hlog ltac:(done) Hroom))
      as ([] & s' & Hrun & Hok' & Hf & Ei).
    exists s'. eexists _, _. split; [done|]. split; [exact Hok'|]. split_and!; try done.
    + intros c Hc. by apply (used_freed s V bl ∅).
    + intros n Hn'. apply bset_ne. lia.
  - unfold bfree. rewrite (bind_run _ _ s (k_sb s) s) by done. pose proof (geo_order _ Hg).
    destruct (wp_inv _ _ _ (tx_bread s V bl ∅ (BBLOCK b (k_sb s)) Hok ltac:(lia) ltac:(done)
      ltac:(rewrite map_size_empty; unfold NBUF; lia))) as (i & s1 & Hrun & _ & Hok1 & _).
    rewrite (bind_run _ _ _ _ _ Hrun). unfold get_buf. krun. rewrite (tx_data _ _ _ _ i _ Hok1) by apply lookup_insert_eq.
    unfold used in Hu. by rewrite Hu.
Qed.

(** Two inodes occupy different bytes of the disk. *)
Lemma disk_inode_ne s V inum m di :
  fs_geo s -> 0 <= inum < sb_ninodes (k_sb s) -> 0 <= m < sb_ninodes (k_sb s) -> m <> inum ->
  block_ok (V (IBLOCK inum (k_sb s))) -> length (di_addrs di) = 13%nat ->
  let ib := IBLOCK inum (k_sb s) in
  disk_inode (bset V ib (put_dinode (V ib) (dinode_off inum) di)) (k_sb s) m = disk_inode V (k_sb s) m.
Proof.
  intros Hg Hi Hm Hne [Hb _] Hd ib. unfold disk_inode.
  destruct (decide (IBLOCK m (k_sb s) = ib)) as [E|E]; [|by rewrite bset_ne].
  rewrite E, bset_eq. apply get_put_dinode_ne; [|done|].
  - unfold ib. rewrite Hb. apply dinode_off_fits.
  - unfold ib in E. rewrite (proj1 (IBLOCK_spec s m Hg Hm)), (proj1 (IBLOCK_spec s inum Hg Hi)) in E.
    unfold dinode_off. change IPB with 8 in *. Z.div_mod_to_equations; lia.
Qed.

Lemma disk_inode_eq V sb inum di :
  block_ok (V (IBLOCK inum sb)) -> dinode_wf di ->
  let ib := IBLOCK inum sb in
  disk_inode (bset V ib (put_dinode (V ib) (dinode_off inum) di)) sb inum = di.
Proof.
  intros [Hb _] Hw ib. unfold disk_inode. fold ib. rewrite bset_eq. apply get_put_dinode; [|done].
  unfold ib. rewrite Hb. apply dinode_off_fits.
Qed.

(** what [iupdate] writes for an inode is what [ilock] later reads for
    it, through whatever entry of the cache; the other inodes and all other
    blocks keep their contents. *)
Theorem inode_roundtrip s V bl ip n :
  tx s V bl ∅ -> fs_geo s -> k_inodes s !! ip = Some n -> i_dev n = 1 -> 0 <= i_inum n < sb_ninodes (k_sb s) ->
  dinode_wf (dinode_of n) -> i_type n <> 0 ->
  1 <= log_outstanding (k_log s) -> Z.of_nat (length bl) < log_size (k_log s) - 1 ->
  exists s' V' bl', iupdate ip s = Ret tt s' /\ tx s' V' bl' ∅ /\ k_inodes s' = k_inodes s /\
    (forall m, 0 <= m < sb_ninodes (k_sb s) -> m <> i_inum n ->
      disk_inode V' (k_sb s) m = disk_inode V (k_sb s) m) /\
    (forall b, b <> IBLOCK (i_inum n) (k_sb s) -> V' b = V b) /\
    forall t jp n2, t !! jp = Some n2 -> 1 <= i_ref n2 -> sl_locked (i_lock n2) = 0 -> i_valid n2 = false ->
      i_dev n2 = 1 -> i_inum n2 = i_inum n ->
      exists s2 n3, ilock jp (set_k_inodes t s') = Ret tt s2 /\ k_inodes s2 = <[jp := n3]> t /\
        dinode_of n3 = dinode_of n /\ i_valid n3 = true /\ tx s2 V' bl' ∅.
Proof.
  intros Hok Hg En Hd Hi Hw Hty Ho Hlog. pose proof (fg_logsize _ Hg) as Hls. unfold LOGSIZE, MAXOPBLOCKS in Hls.
  set (ib := IBLOCK (i_inum n) (k_sb s)). pose proof (tx_block s V bl ∅ ib Hok) as Hblk.
  destruct (wp_inv _ _ _ (iupdate_spec s V bl ∅ ip n Hok Hg (list_lookup_total_correct _ _ _ En) Hd Hi (dw_len _ Hw)
    Ho Hlog ltac:(done) ltac:(rewrite map_size_empty; unfold NBUF; lia))) as ([] & s' & Hrun & Hok' & Hf & Ei).
  cbv zeta in Hok'. fold ib in Hok'. set (V' := bset V ib _) in *.
  assert (disk_inode V' (k_sb s) (i_inum n) = dinode_of n) as Ed by by apply disk_inode_eq.
  exists s', V', (absorb ib bl). split_and!; try done.
  - intros m Hm Hne. apply disk_inode_ne; try done. apply (dw_len _ Hw).
  - intros b Hb. by apply bset_ne.
  - intros t jp n2 Hn2 Href Hl Hv Hd2 Hi2. pose proof (length_absorb ib bl).
    pose proof (tx_inodes t _ _ _ _ Hok') as Hok2. pose proof (fs_geo_frame _ _ (fframe_inodes t s') (fs_geo_frame _ _ Hf Hg)) as Hg2.
    assert (k_sb (set_k_inodes t s') = k_sb s) as Esb by (kproj; apply (ff_sb Hf)).
    pose proof (ilock_spec (set_k_inodes t s') V' (absorb ib bl) ∅ jp n2 Hok2 Hg2 Hn2 Href Hl Hd2) as Hsp.
    rewrite Esb, Hi2, Ed in Hsp. destruct (wp_inv _ _ _ (Hsp Hi ltac:(unfold coherent; by rewrite Hv) ltac:(done) ltac:(done)
      ltac:(rewrite map_size_empty; unfold NBUF; lia))) as ([] & s2 & Hrun2 & Hok3 & _ & Ei3).
    eexists s2, _. split_and!; [exact Hrun2|exact Ei3| |done|done]. by destruct n.
Qed.

(** [iget] keeps at most one entry per inode.  It takes a reference on
    the entry in use for the inode if there is one, else makes one in a free
    slot, to be read on first use; with neither it panics. *)
Theorem iget_correct s dev inum :
  L_icache ∉ k_held s -> icache_ok (k_inodes s) -> Forall (fun n => i_ref n < 2 ^ 31 - 1) (k_inodes s) ->
  (exists i t, iget dev inum s = Ret i (set_k_inodes t s) /\ igot dev inum (k_inodes s) i t /\ icache_ok t) \/
  (iget dev inum s = Panic "iget: no inodes" /\ Forall (fun n => 0 < i_ref n /\ ~ entry_for dev inum n) (k_inodes s)).
Proof.
  intros Hh Hok Hmax.
  destruct (decide (Exists (fun n => entry_for dev inum n \/ i_ref n = 0) (k_inodes s))) as [He|He].
  { left. by apply iget_spec. }
  right. apply not_Exists_Forall in He; [|intros; apply _]. split.
  - rewrite iget_run by done. destruct (iget_scan (k_inodes s) 0 dev inum None) as [r e] eqn:E.
    apply iget_scan_spec in E. rewrite Forall_lookup in He. destruct r as [i|].
    + destruct E as (n & _ & Hn & Hx). exfalso. apply (He _ _ Hn). auto.
    + destruct E as [_ E]. destruct e as [i|]; [|done]. destruct E as (n & _ & Hn & Hx).
      exfalso. apply (He _ _ Hn). auto.
  - apply Forall_lookup. intros i n Hn. pose proof (ic_ref _ Hok i n Hn).
    pose proof (Forall_lookup_1 _ _ _ _ He Hn) as Hne. simpl in Hne. split; [lia|tauto].
Qed.

End icache_proofs.

(** ** Witnesses *)

#[local] Instance demo_fuel : Fuel := 0%nat.

(** A small file system in the layout of mkfs: the root directory (inode 1,
    block 59) with one file "f" (inode 2, blocks 60 and 61) of 700 bytes. *)
Definition demo_sb : superblock := mksuperblock 1000 941 200 30 2 32 58.
Definition demo_root : dinode := mkdinode 1 0 0 1 48 (59 :: replicate 12 0).
Definition demo_file : dinode := mkdinode 2 0 0 1 700 (60 :: 61 :: replicate 11 0).
Definition demo_dirent (inum : Z) (name : list Z) : list Z :=
  le_encode 2 inum ++ name ++ replicate (14 - length name) 0.

Definition demo_inodes : block := put_dinode (put_dinode zero_block 64 demo_root) 128 demo_file.
Definition demo_bitmap : block := replicate 7 255 ++ [63] ++ replicate 504 0.
Definition demo_dir : block :=
  demo_dirent 1 (chars ".") ++ demo_dirent 1 (chars "..") ++ demo_dirent 2 (chars "f") ++ replicate 464 0.

Definition demo_disk (n : Z) : block :=
  if n =? 32 then demo_inodes else if n =? 58 then demo_bitmap else if n =? 59 then demo_dir
  else if n =? 60 then replicate 512 65 else if n =? 61 then replicate 512 66 else zero_block.

(** Process 0 is in a transaction and has opened "f" and locked it. *)
Definition demo_inode : inode := loaded 0 demo_file (set_i_ref 1 (set_i_inum 2 (set_i_dev 1 inode_zero))).
Definition demo_fs : kernel :=
  set_k_inodes (<[0%nat := demo_inode]> (replicate NINODE inode_zero))
    (set_k_log (mklog 2 30 1 false 1 0 (replicate 30 0)) (set_k_sb demo_sb (set_k_disk demo_disk demo_boot))).

Definition is_blockb (b : block) : bool := Nat.eqb (length b) 512 && forallb (fun x => (0 <=? x) && (x <? 256)) b.
Lemma is_blockb_ok b : is_blockb b = true -> block_ok b.
Proof.
  unfold is_blockb. rewrite andb_true_iff, Nat.eqb_eq, forallb_forall. intros [Hl Hb]. split; [done|].
  apply Forall_forall. intros x Hx%list_elem_of_In%Hb. unfold is_byte. lia.
Qed.

Lemma demo_disk_ok n : block_ok (demo_disk n).
Proof. unfold demo_disk. repeat case_match; apply is_blockb_ok; by vm_compute. Qed.

Lemma demo_fs_tx : tx demo_fs demo_disk [] ∅.
Proof.
  split.
  - split; vm_compute; (done || lia).
  - split; try done. constructor.
  - refine (demo_bufs_ok demo_fs _ eq_refl demo_disk_ok). by split.
  - by vm_compute.
Qed.

Lemma demo_fs_geo : fs_geo demo_fs.
Proof. split; vm_compute; (done || lia). Qed.

Lemma demo_bitmap_ok : bitmap_ok demo_disk demo_sb.
Proof.
  intros b Hb Hu. destruct (Z.le_gt_cases (data_start demo_sb) b) as [|Hlt]; [done|]. exfalso.
  assert (forallb (used demo_disk demo_sb) (seqZ 0 59) = true) as Hall by by vm_compute.
  rewrite forallb_forall in Hall. specialize (Hall b). rewrite Hall in Hu; [done|].
  apply list_elem_of_In, elem_of_seqZ. change (data_start demo_sb) with 59 in Hlt. lia.
Qed.

Lemma demo_can_alloc : can_alloc demo_fs demo_disk [] ∅.
Proof.
  split; [apply demo_fs_tx|apply demo_fs_geo|apply demo_bitmap_ok|by vm_compute|by vm_compute|vm_compute; lia|].
  intros j n Hj. by rewrite lookup_empty in Hj.
Qed.

Lemma demo_nfree : nfree demo_disk demo_sb = 938%nat.
Proof. by vm_compute. Qed.

Lemma balloc_correct_witness : exists s', balloc 1 demo_fs = Ret 62 s'.
Proof.
  destruct (balloc_correct demo_fs demo_disk [] ∅ demo_can_alloc) as (b & s' & V' & bl' & Hrun & _ & _ & _ & Hd & Hu & Hmin & _).
  - change (k_sb demo_fs) with demo_sb. rewrite demo_nfree. lia.
  - exists s'. rewrite Hrun. f_equal. change (k_sb demo_fs) with demo_sb in *. change (data_start demo_sb) with 59 in Hd.
    assert (forallb (used demo_disk demo_sb) (seqZ 59 3) = true) as Hall by by vm_compute.
    rewrite forallb_forall in Hall. destruct (Z.lt_trichotomy b 62) as [Hb|[Hb|Hb]]; [exfalso|done|exfalso].
    + rewrite Hall in Hu; [done|]. apply list_elem_of_In, elem_of_seqZ. lia.
    + specialize (Hmin 62 ltac:(lia)). by vm_compute in Hmin.
Defined.

Lemma bfree_correct_witness : exists s', bfree 1 60 demo_fs = Ret tt s'.
Proof.
  pose proof (bfree_correct demo_fs demo_disk [] 60 demo_fs_tx demo_fs_geo ltac:(by vm_compute) ltac:(by vm_compute)
    ltac:(by vm_compute)) as Hb.
  assert (used demo_disk (k_sb demo_fs) 60 = true) as Hu by by vm_compute. rewrite Hu in Hb.
  destruct Hb as (s' & V' & bl' & Hrun & _). by exists s'.
Defined.

Lemma inode_roundtrip_witness : exists s', iupdate 0 demo_fs = Ret tt s'.
Proof.
  assert (dinode_wf (dinode_of demo_inode)) as Hw.
  { split; simpl; try lia. repeat (constructor; [lia|]). constructor. }
  destruct (inode_roundtrip demo_fs demo_disk [] 0 demo_inode demo_fs_tx demo_fs_geo eq_refl eq_refl) as (s' & V' & bl' & Hrun & _);
    [by vm_compute|exact Hw|done|by vm_compute|by vm_compute|]. by exists s'.
Defined.

Lemma iget_correct_witness : exists i t, iget 1 2 demo_fs = Ret i (set_k_inodes t demo_fs) /\ icache_ok t.
Proof.
  destruct (iget_correct demo_fs 1 2) as [(i & t & H1 & _ & H2)|[_ H2]].
  - apply not_elem_of_nil.
  - split.
    + intros [|i] n Hn; [by injection Hn as <-; vm_compute|]. apply lookup_replicate in Hn as [-> _]. by vm_compute.
    + intros [|i] [|j] n m Hn Hm; try done; intros H1 H2.
      * apply lookup_replicate in Hm as [-> _]. by vm_compute in H2.
      * apply lookup_replicate in Hn as [-> _]. by vm_compute in H1.
      * apply lookup_replicate in Hn as [-> _]. by vm_compute in H1.
  - apply Forall_insert; [apply Forall_replicate|]; by vm_compute.
  - exists i, t. exact (conj H1 H2).
  - apply Forall_cons in H2 as [[_ Hne] _]. exfalso. apply Hne. by vm_compute.
Defined.
