(* ===== verification/Console.v ===== *)
(** * Console input (console.c, kbd.c, uart.c) and the process listing (proc.c)

    The typed characters arrive through interrupts, are edited in the ring
    [input] and are handed to the readers line by line.  What a device has
    to deliver when it interrupts is a list of bytes; [getc] takes the next one
    of them, if there is one. *)

From stdpp Require Import base numbers list option strings gmap.
From S2P Require Import Prelude Kernel Fields Spinlock Proc Cprintf Cstring Bytes Sleeplock Dll Bio Log Inode.

(** ** The process listing *)

(** The loop of [getcallerpcs]: [n] more return addresses, starting at the
    frame [ebp]; the rest of the array is set to 0. *)
Fixpoint callerpcs (m : memory) (ebp : Z) (n : nat) : list Z :=
  match n with
  | O => []
  | S n' =>
      if (ebp =? 0) || (ebp <? KERNBASE) || (ebp =? 0xffffffff) then replicate n 0
      else load32 m (u32 (ebp + 4)) :: callerpcs m (load32 m ebp) n'
  end.

Definition getcallerpcs (m : memory) (v : Z) : list Z := callerpcs m (u32 (v - 8)) 10.

Definition state_name (st : procstate) : string :=
  match st with
  | UNUSED => "unused" | EMBRYO => "embryo" | SLEEPING => "sleep "
  | RUNNABLE => "runble" | RUNNING => "run   " | ZOMBIE => "zombie"
  end.

Definition procdump : K unit :=
  foreach (seq 0 NPROC) (fun i =>
    p <- get_proc i ;;
    when (negb (is_state UNUSED p))
      (cprintf "%d %s %s" [FInt (p_pid p); FStr (chars (state_name (p_state p))); FStr (until_nul (p_name p))] ;;
       p <- get_proc i ;;
       when (is_state SLEEPING p)
         (m <- gets k_mem ;;
          let pc := getcallerpcs m (u32 (load32 m (p_context p + 12) + 8)) in
          foreach (until_nul pc) (fun a => cprintf " %p" [FInt a])) ;;
       cprintf "
" [])).

(** ** panic *)

(** What [panic] prints before it stops the processor, [v] being the address
    of its argument. *)
Definition panic_message (lapicid v : Z) (msg : string) : K unit :=
  modify (set_k_cons_locking false) ;;
  cprintf "lapicid %d: panic: " [FInt lapicid] ;;
  cprintf msg [] ;;
  cprintf "
" [] ;;
  m <- gets k_mem ;;
  foreach (getcallerpcs m v) (fun pc => cprintf " %p" [FInt pc]).

Lemma printed_locking s s' : printed s s' -> k_cons_locking s' = k_cons_locking s /\ k_uart s' = k_uart s /\ k_mem s' = k_mem s.
Proof. intros [(o & c & p & ->) _]. done. Qed.

(** One more piece of text after the text [t]. *)
Lemma cprintf_after fmt args s0 s t :
  k_cons_locking s0 = false -> printed s0 s -> k_out s = (if k_uart s0 then k_out s0 ++ concat (uart_bytes <$> t) else k_out s0) ->
  wp (cprintf fmt args) s (fun _ s' => printed s0 s' /\
    k_out s' = if k_uart s0 then k_out s0 ++ concat (uart_bytes <$> (t ++ format (chars fmt) args)) else k_out s0).
Proof.
  intros Hl Hp Ho. destruct (printed_locking _ _ Hp) as (E1 & E2 & _).
  eapply wp_mono; [apply cprintf_unlocked; [apply Hp|congruence]|]. intros _ s' [Hp' Ho']. split; [by eapply printed_trans|].
  rewrite Ho', E2, Ho. destruct (k_uart s0); [|done]. by rewrite fmap_app, concat_app, app_assoc.
Qed.

Lemma print_pcs pcs s0 : k_cons_locking s0 = false -> forall s t,
  printed s0 s -> k_out s = (if k_uart s0 then k_out s0 ++ concat (uart_bytes <$> t) else k_out s0) ->
  wp (foreach pcs (fun pc => cprintf " %p" [FInt pc])) s (fun _ s' => k_out s' =
    if k_uart s0 then k_out s0 ++ concat (uart_bytes <$> (t ++ concat ((fun pc => format (chars " %p") [FInt pc]) <$> pcs))) else k_out s0).
Proof.
  intros Hl. induction pcs as [|pc pcs IH]; intros s t Hp Ho; cbn [foreach].
  - apply wp_ret. cbn [fmap list_fmap concat]. by rewrite app_nil_r.
  - apply wp_bind. eapply wp_mono; [eapply (cprintf_after _ _ s0 s); [done|exact Hp|exact Ho]|]. intros _ s1 [P1 O1].
    eapply wp_mono; [apply (IH s1 _ P1 O1)|]. cbn beta. intros _ s2 ->. cbn [fmap list_fmap concat]. by rewrite <-app_assoc.
Qed.

(** The message, then the return addresses, whether or not the console's lock
    is held. *)
Lemma panic_message_spec lapicid v msg s :
  cursor_ok s ->
  wp (panic_message lapicid v msg) s (fun _ s' => k_out s' = if k_uart s then
    k_out s ++ concat (uart_bytes <$> (format (chars "lapicid %d: panic: ") [FInt lapicid] ++ format (chars msg) [] ++ [10] ++
      concat ((fun pc => format (chars " %p") [FInt pc]) <$> getcallerpcs (k_mem s) v))) else k_out s).
Proof.
  intros Hs. unfold panic_message. apply wp_bind. eapply wp_run; [reflexivity|]. set (s0 := set_k_cons_locking false s).
  assert (printed s0 s0) as H0 by (split; [apply screen_refl|done]).
  apply wp_bind. eapply wp_mono; [apply (cprintf_after _ _ s0 s0 []); [done|done|by destruct (k_uart s0); rewrite ?app_nil_r]|].
  intros _ s1 [P1 O1]. apply wp_bind. eapply wp_mono; [eapply (cprintf_after _ _ s0 s1); [done|exact P1|exact O1]|]. intros _ s2 [P2 O2].
  apply wp_bind. eapply wp_mono; [eapply (cprintf_after _ _ s0 s2); [done|exact P2|exact O2]|]. intros _ s3 [P3 O3].
  apply wp_bind. eapply wp_run; [reflexivity|]. destruct (printed_locking _ _ P3) as (_ & _ & Em).
  eapply wp_mono; [apply (print_pcs _ s0 eq_refl s3 _ P3 O3)|]. cbn beta. intros _ s4 ->. rewrite Em. cbn [app]. by rewrite <-!app_assoc.
Qed.

(** ** The devices *)

Definition SHIFT : Z := 1.
Definition CTL : Z := 2.
Definition ALT : Z := 4.
Definition CAPSLOCK : Z := 8.
Definition NUMLOCK : Z := 16.
Definition SCROLLLOCK : Z := 32.
Definition E0ESC : Z := 64.

Definition shiftcode (d : Z) : Z :=
  if (d =? 0x1D) || (d =? 0x9D) then CTL
  else if (d =? 0x2A) || (d =? 0x36) then SHIFT
  else if (d =? 0x38) || (d =? 0xB8) then ALT else 0.

Definition togglecode (d : Z) : Z :=
  if d =? 0x3A then CAPSLOCK else if d =? 0x45 then NUMLOCK else if d =? 0x46 then SCROLLLOCK else 0.

(** A key map: the entries from 0 on, the entries of the keypad, and the keys
    the three maps share. *)
Definition keymap (l : list Z) (enter div d : Z) : Z :=
  if d <? 0x80 then nth (Z.to_nat d) l 0
  else if d =? 0x9C then enter else if d =? 0xB5 then div
  else if d =? 0xC8 then 0xE2 else if d =? 0xD0 then 0xE3
  else if d =? 0xC9 then 0xE6 else if d =? 0xD1 then 0xE7
  else if d =? 0xCB then 0xE4 else if d =? 0xCD then 0xE5
  else if d =? 0x97 then 0xE0 else if d =? 0xCF then 0xE1
  else if d =? 0xD2 then 0xE8 else if d =? 0xD3 then 0xE9 else 0.

(** The keypad, entries 0x37 to 0x53. *)
Definition keypad : list Z :=
  chars "*" ++ [0] ++ chars " " ++ replicate 13 0 ++ chars "789-456+1230.".

Definition normalmap : Z -> Z :=
  keymap ([0; 0x1B] ++ chars "1234567890-=" ++ [8; 9] ++ chars "qwertyuiop[]" ++ [10; 0] ++ chars "asdfghjkl;'`"
          ++ [0; 92] ++ chars "zxcvbnm,./" ++ [0] ++ keypad) 10 47.

Definition shiftmap : Z -> Z :=
  keymap ([0; 0x1B] ++ chars "!@#$%^&*()_+" ++ [8; 9] ++ chars "QWERTYUIOP{}" ++ [10; 0] ++ chars "ASDFGHJKL:"
          ++ [34] ++ chars "~" ++ [0] ++ chars "|ZXCVBNM<>?" ++ [0] ++ keypad) 10 47.

(** [C(x)], as an unsigned char *)
Definition ctl (x : Z) : Z := u8 (x - 64).
Definition ctlmap : Z -> Z :=
  keymap (replicate 16 0 ++ (ctl <$> chars "QWERTYUIOP") ++ [0; 0; 13; 0] ++ (ctl <$> chars "ASDFGHJKL")
          ++ replicate 4 0 ++ [ctl 92] ++ (ctl <$> chars "ZXCVBNM") ++ [0; 0; ctl 47; 0; 0]) 13 (ctl 47).

Definition charcode (k : Z) : Z -> Z :=
  if k =? 0 then normalmap else if k =? 1 then shiftmap else ctlmap.

(** What [kbdgetc] makes of a scan code: the character and the new [shift]. *)
Definition kbd_key (shift data : Z) : Z * Z :=
  if data =? 0xE0 then (0, Z.lor shift E0ESC)
  else if negb (Z.land data 0x80 =? 0) then
    let data := if negb (Z.land shift E0ESC =? 0) then data else Z.land data 0x7F in
    (0, Z.land shift (u32 (Z.lnot (Z.lor (shiftcode data) E0ESC))))
  else
    let esc := negb (Z.land shift E0ESC =? 0) in
    let data := if esc then Z.lor data 0x80 else data in
    let shift := if esc then Z.land shift (u32 (Z.lnot E0ESC)) else shift in
    let shift := Z.lxor (Z.lor shift (shiftcode data)) (togglecode data) in
    let c := charcode (Z.land shift (Z.lor CTL SHIFT)) data in
    let c := if negb (Z.land shift CAPSLOCK =? 0) then
               if (97 <=? c) && (c <=? 122) then c - 32
               else if (65 <=? c) && (c <=? 90) then c + 32 else c
             else c in
    (c, shift).

Definition kbdgetc (data : option Z) : K Z :=
  match data with
  | None => ret (-1)
  | Some data =>
      shift <- gets k_shift ;;
      modify (set_k_shift (snd (kbd_key shift data))) ;;
      ret (fst (kbd_key shift data))
  end.

Definition uartgetc (data : option Z) : K Z :=
  uart <- gets k_uart ;;
  if negb uart then ret (-1) else
  match data with None => ret (-1) | Some c => ret c end.

(** ** The console *)

Definition CONSOLE : nat := 1.

Definition upd_input (f : input -> input) : K unit := modify (fun s => set_k_input (f (k_input s)) s).
Definition in_char (n : input) (i : Z) : Z := in_buf n !!! Z.to_nat (u32 i mod INPUT_BUF).
Definition put_char (c : Z) (n : input) : input :=
  set_in_e (u32 (in_e n + 1)) (set_in_buf (<[Z.to_nat (in_e n mod INPUT_BUF) := u8 c]> (in_buf n)) n).
Definition un_char (n : input) : input := set_in_e (u32 (in_e n - 1)) n.

Definition kill_stop (n : input) : bool := (in_e n =? in_w n) || (in_char n (in_e n - 1) =? 10).

(** Control-U: [in_e] goes back one by one, at most once around. *)
Fixpoint kill_line (fuel : nat) : K unit :=
  match fuel with
  | O => out_of_fuel
  | S fuel' =>
      n <- gets k_input ;;
      if kill_stop n then ret tt else
      upd_input un_char ;;
      consputc BACKSPACE ;;
      kill_line fuel'
  end.

(** The body of the loop of [consoleintr]; the result is [doprocdump]. *)
Definition console_char (c : Z) (dump : bool) : K bool :=
  n <- gets k_input ;;
  if c =? 16 then ret true
  else if c =? 21 then
    kill_line (Z.to_nat (u32 (in_e n - in_w n)) + 1) ;; ret dump
  else if (c =? 8) || (c =? 127) then
    when (negb (in_e n =? in_w n)) (upd_input un_char ;; consputc BACKSPACE) ;;
    ret dump
  else
    when (negb (c =? 0) && (u32 (in_e n - in_r n) <? INPUT_BUF))
      (let c := if c =? 13 then 10 else c in
       upd_input (put_char c) ;;
       consputc c ;;
       n <- gets k_input ;;
       when ((c =? 10) || (c =? 4) || (in_e n =? u32 (in_r n + INPUT_BUF)))
         (upd_input (fun n => set_in_w (in_e n) n) ;;
          wakeup Ch_input)) ;;
    ret dump.

(** [data] is what the device has to deliver; after the last byte [getc]
    answers -1. *)
Fixpoint console_loop (getc : option Z -> K Z) (data : list Z) (dump : bool) : K bool :=
  c <- getc (head data) ;;
  if c <? 0 then ret dump else
  dump <- console_char c dump ;;
  match data with
  | [] => out_of_fuel
  | _ :: data' => console_loop getc data' dump
  end.

Definition consoleintr (getc : option Z -> K Z) (data : list Z) : K unit :=
  acquire L_cons ;;
  dump <- console_loop getc data false ;;
  release L_cons ;;
  when dump procdump.

Definition kbdintr (data : list Z) : K unit := consoleintr kbdgetc data.
Definition uartintr (data : list Z) : K unit := consoleintr uartgetc data.

Section console_code.
Context `{Fuel}.

(** Waiting for input; the result tells whether the process was killed. *)
Fixpoint input_wait (fuel : nat) : K bool :=
  match fuel with
  | O => out_of_fuel
  | S fuel' =>
      n <- gets k_input ;;
      if negb (in_r n =? in_w n) then ret false else
      i <- curproc ;;
      p <- get_proc i ;;
      if negb (p_killed p =? 0) then ret true else
      sleep Ch_input L_cons ;;
      input_wait fuel'
  end.

(** The loop of [consoleread]: [n] characters still wanted, [acc] stored so
    far; the result tells whether the process has been killed. *)
Fixpoint console_take (n : nat) (acc : list Z) : K (bool * list Z) :=
  match n with
  | O => ret (false, acc)
  | S n' =>
      dead <- input_wait fuel ;;
      if dead then ret (true, acc) else
      i <- gets k_input ;;
      let c := in_char i (in_r i) in
      upd_input (fun i => set_in_r (u32 (in_r i + 1)) i) ;;
      if c =? 4 then
        when (negb (Nat.eqb (length acc) 0)) (upd_input (fun i => set_in_r (u32 (in_r i - 1)) i)) ;;
        ret (false, acc)
      else if c =? 10 then ret (false, acc ++ [c])
      else console_take n' (acc ++ [c])
  end.

(** The result, and the characters stored at [dst]. *)
Definition consoleread (ip : nat) (n : Z) : K (Z * list Z) :=
  iunlock ip ;;
  acquire L_cons ;;
  r <- console_take (Z.to_nat n) [] ;;
  release L_cons ;;
  ilock ip ;;
  ret (if fst r then -1 else Z.of_nat (length (snd r)), snd r).

Definition consolewrite (ip : nat) (buf : list Z) (n : Z) : K Z :=
  iunlock ip ;;
  acquire L_cons ;;
  foreach (take (Z.to_nat n) buf) (fun c => consputc (Z.land c 0xff)) ;;
  release L_cons ;;
  ilock ip ;;
  ret n.

Definition consoleinit : K unit :=
  modify (fun s => set_k_devsw (<[CONSOLE := true]> (k_devsw s)) s) ;;
  modify (set_k_cons_locking true).

End console_code.
