(* ===== verification/Fs.v ===== *)
(** * File contents, directories and paths (fs.c, second half)

    The content of an inode as a sequence of bytes, the directory as a file of
    16-byte entries, and path names.  A path is the list of the characters of
    a NUL-terminated string.  An operation that stores bytes at an address of
    its caller returns the bytes; one that reads from an address takes them. *)

From stdpp Require Import base numbers list option strings gmap.
From S2P Require Import Prelude Kernel Fields Spinlock Proc Cprintf Cstring Bytes Sleeplock Dll Bio Log Txn Inode Console.

Section fs_code.
Context `{Fuel}.

(** ** The content of an inode *)

(** The part of [bmap] that uses the indirect block [ind]. *)
Definition bmap_entry (dev ind bn : Z) : K Z :=
  i <- bread dev ind ;;
  bp <- get_buf i ;;
  let addr := get32 (b_data bp) (Z.to_nat bn) in
  addr <- (if negb (addr =? 0) then ret addr else
           addr <- balloc dev ;;
           bp <- get_buf i ;;
           upd_buf i (set_b_data (set32 (b_data bp) (Z.to_nat bn) addr)) ;;
           log_write i ;;
           ret addr) ;;
  brelse i ;;
  ret addr.

Definition bmap (ip : nat) (bn : Z) : K Z :=
  n <- get_inode ip ;;
  if bn <? NDIRECT then
    let addr := i_addrs n !!! Z.to_nat bn in
    if negb (addr =? 0) then ret addr else
    addr <- balloc (i_dev n) ;;
    upd_inode ip (fun n => set_i_addrs (<[Z.to_nat bn := addr]> (i_addrs n)) n) ;;
    ret addr
  else
  let bn := bn - NDIRECT in
  if bn <? NINDIRECT then
    let ind := i_addrs n !!! Z.to_nat NDIRECT in
    ind <- (if negb (ind =? 0) then ret ind else
            ind <- balloc (i_dev n) ;;
            upd_inode ip (fun n => set_i_addrs (<[Z.to_nat NDIRECT := ind]> (i_addrs n)) n) ;;
            ret ind) ;;
    bmap_entry (i_dev n) ind bn
  else panic "bmap: out of range".

(** struct stat: type, dev, ino, nlink, size *)
Record stat := mkstat { st_type : Z; st_dev : Z; st_ino : Z; st_nlink : Z; st_size : Z }.

Definition stati (ip : nat) : K stat :=
  n <- get_inode ip ;;
  ret (mkstat (i_type n) (i32 (i_dev n)) (i_inum n) (i_nlink n) (i_size n)).

(** Is there a function in [devsw[major]]? *)
Definition has_dev (major : Z) : K bool :=
  if (major <? 0) || (NDEV <=? major) then ret false
  else gets (fun s => k_devsw s !!! Z.to_nat major).

(** The blocks [n] bytes lie in, wherever they start. *)
Definition io_rounds (n : Z) : nat := Z.to_nat ((n + 2 * BSIZE - 2) / BSIZE).

(** The loop of [readi]: [n] more bytes, from [off] on. *)
Fixpoint readi_loop (k : nat) (ip : nat) (off n : Z) : K (list Z) :=
  if negb (0 <? n) then ret [] else
  match k with
  | O => out_of_fuel
  | S k' =>
      ino <- get_inode ip ;;
      addr <- bmap ip (off / BSIZE) ;;
      i <- bread (i_dev ino) addr ;;
      bp <- get_buf i ;;
      let m := Z.min n (BSIZE - off mod BSIZE) in
      let l := slice (b_data bp) (Z.to_nat (off mod BSIZE)) (Z.to_nat m) in
      brelse i ;;
      l' <- readi_loop k' ip (off + m) (n - m) ;;
      ret (l ++ l')
  end.

(** The result and the bytes stored at [dst]. *)
Definition readi (ip : nat) (off n : Z) : K (Z * list Z) :=
  ino <- get_inode ip ;;
  if i_type ino =? T_DEV then
    dev <- has_dev (i_major ino) ;;
    if negb dev then ret (-1, []) else
    consoleread ip (i32 n)
  else
  if (i_size ino <? off) || (u32 (off + n) <? off) then ret (-1, []) else
  let n := if i_size ino <? off + n then i_size ino - off else n in
  l <- readi_loop (io_rounds n) ip off n ;;
  ret (i32 n, l).

(** The loop of [writei]; the result is the final [off]. *)
Fixpoint writei_loop (k : nat) (ip : nat) (src : list Z) (off n : Z) : K Z :=
  if negb (0 <? n) then ret off else
  match k with
  | O => out_of_fuel
  | S k' =>
      ino <- get_inode ip ;;
      addr <- bmap ip (off / BSIZE) ;;
      i <- bread (i_dev ino) addr ;;
      bp <- get_buf i ;;
      let m := Z.min n (BSIZE - off mod BSIZE) in
      upd_buf i (set_b_data (splice (b_data bp) (Z.to_nat (off mod BSIZE)) (take (Z.to_nat m) src))) ;;
      log_write i ;;
      brelse i ;;
      writei_loop k' ip (drop (Z.to_nat m) src) (off + m) (n - m)
  end.

(** [src] are the [n] bytes at the source address. *)
Definition writei (ip : nat) (src : list Z) (off n : Z) : K Z :=
  ino <- get_inode ip ;;
  if i_type ino =? T_DEV then
    dev <- has_dev (i_major ino) ;;
    if negb dev then ret (-1) else
    consolewrite ip src (i32 n)
  else
  if (i_size ino <? off) || (u32 (off + n) <? off) then ret (-1) else
  if MAXFILE * BSIZE <? off + n then ret (-1) else
  off <- writei_loop (io_rounds n) ip src off n ;;
  ino <- get_inode ip ;;
  when ((0 <? n) && (i_size ino <? off))
    (upd_inode ip (set_i_size off) ;;
     iupdate ip) ;;
  ret (i32 n).

(** ** Directories *)

(** struct dirent *)
Record dirent := mkdirent { de_inum : Z; de_name : list Z }.
Definition get_dirent (l : list Z) : dirent := mkdirent (get16 l 0) (slice l 2 14).
Definition dirent_bytes (de : dirent) : list Z := le_encode 2 (de_inum de) ++ de_name de.
Definition sizeof_de : Z := 16.

Definition namecmp (s t : list Z) : Z := strncmp (arr s) (arr t) (Z.to_nat DIRSIZ).

(** [readi(dp, (char* )&de, off, sizeof(de))] must read a whole entry. *)
Definition read_dirent (msg : string) (dp : nat) (off : Z) : K dirent :=
  r <- readi dp off sizeof_de ;;
  if negb (fst r =? sizeof_de) then panic msg else ret (get_dirent (snd r)).

Fixpoint dirlookup_loop (k : nat) (dp : nat) (name : list Z) (off : Z) : K (option (nat * Z)) :=
  n <- get_inode dp ;;
  if negb (off <? i_size n) then ret None else
  match k with
  | O => out_of_fuel
  | S k' =>
      de <- read_dirent "dirlookup read" dp off ;;
      if de_inum de =? 0 then dirlookup_loop k' dp name (u32 (off + sizeof_de)) else
      if namecmp name (de_name de) =? 0 then
        n <- get_inode dp ;;
        ip <- iget (i_dev n) (de_inum de) ;;
        ret (Some (ip, off))
      else dirlookup_loop k' dp name (u32 (off + sizeof_de))
  end.

(** The inode, and the offset stored at [*poff]. *)
Definition dirlookup (dp : nat) (name : list Z) : K (option (nat * Z)) :=
  n <- get_inode dp ;;
  if negb (i_type n =? T_DIR) then panic "dirlookup not DIR" else
  dirlookup_loop (Z.to_nat (i_size n / sizeof_de) + 1) dp name 0.

(** The first free entry of the directory, or its end. *)
Fixpoint free_dirent (k : nat) (dp : nat) (off : Z) : K Z :=
  n <- get_inode dp ;;
  if negb (off <? i_size n) then ret off else
  match k with
  | O => out_of_fuel
  | S k' =>
      de <- read_dirent "dirlink read" dp off ;;
      if de_inum de =? 0 then ret off else free_dirent k' dp (off + sizeof_de)
  end.

Definition dirlink (dp : nat) (name : list Z) (inum : Z) : K Z :=
  r <- dirlookup dp name ;;
  match r with
  | Some (ip, _) => iput ip ;; ret (-1)
  | None =>
      n <- get_inode dp ;;
      off <- free_dirent (Z.to_nat (i_size n / sizeof_de) + 1) dp 0 ;;
      r <- writei dp (dirent_bytes (mkdirent (u16 inum) (strncpy (arr name) (Z.to_nat DIRSIZ)))) off sizeof_de ;;
      if negb (r =? sizeof_de) then panic "dirlink" else ret 0
  end.

(** ** Paths *)

Definition slash : Z := 47.

Fixpoint skip_slashes (path : list Z) : list Z :=
  match path with
  | c :: path' => if c =? slash then skip_slashes path' else path
  | [] => []
  end.

(** The characters up to the next slash, and the rest. *)
Fixpoint path_elem (path : list Z) : list Z * list Z :=
  match path with
  | [] => ([], [])
  | c :: path' =>
      if c =? slash then ([], path) else let (s, r) := path_elem path' in (c :: s, r)
  end.

(** The rest of the path and the new contents of the array [name]. *)
Definition skipelem (path name : list Z) : option (list Z * list Z) :=
  match skip_slashes path with
  | [] => None
  | path =>
      let (s, r) := path_elem path in
      let name := if DIRSIZ <=? Z.of_nat (length s) then overlay (take (Z.to_nat DIRSIZ) s) name
                  else overlay (s ++ [0]) name in
      Some (skip_slashes r, name)
  end.

(** The loop of [namex]; each round takes at least one character of [path]. *)
Fixpoint namex_loop (k : nat) (ip : nat) (path : list Z) (nameiparent : bool) (name : list Z)
  : K (option nat * list Z) :=
  match skipelem path name with
  | None =>
      if nameiparent then iput ip ;; ret (None, name) else ret (Some ip, name)
  | Some (path, name) =>
      match k with
      | O => out_of_fuel
      | S k' =>
          ilock ip ;;
          n <- get_inode ip ;;
          if negb (i_type n =? T_DIR) then iunlockput ip ;; ret (None, name) else
          if nameiparent && Nat.eqb (length path) 0 then iunlock ip ;; ret (Some ip, name) else
          next <- dirlookup ip name ;;
          match next with
          | None => iunlockput ip ;; ret (None, name)
          | Some (next, _) => iunlockput ip ;; namex_loop k' next path nameiparent name
          end
      end
  end.

(** The inode, and the contents of the array [name]. *)
Definition namex (path : list Z) (nameiparent : bool) (name : list Z) : K (option nat * list Z) :=
  ip <- (match head path with
         | Some 47 => iget ROOTDEV ROOTINO
         | _ => i <- curproc ;;
                p <- get_proc i ;;
                match p_cwd p with Some d => idup d | None => null_deref end
         end) ;;
  namex_loop (length path) ip path nameiparent name.

(** The local array [name] of [namei] is not initialised; any contents do. *)
Definition namei (path : list Z) : K (option nat) :=
  r <- namex path false (replicate (Z.to_nat DIRSIZ) 0) ;;
  ret (fst r).

Definition nameiparent (path name : list Z) : K (option nat * list Z) := namex path true name.

End fs_code.

(** ** The blocks of a file *)

(** The address of block [k] of a file with the addresses [a]; 0 when there
    is none. *)
Definition baddr (V : Z -> block) (a : list Z) (k : nat) : Z :=
  if (k <? 12)%nat then a !!! k
  else if a !!! 12%nat =? 0 then 0 else get32 (V (a !!! 12%nat)) (k - 12).

(** A block in use for data. *)
Definition data_ok (V : Z -> block) (sb : superblock) (b : Z) : Prop :=
  data_start sb <= b < sb_size sb /\ used V sb b = true.

(** The blocks of a file of [sz] bytes are data blocks, no two are the same,
    and there is one for each byte. *)
Record file_ok (V : Z -> block) (sb : superblock) (a : list Z) (sz : Z) : Prop := {
  fo_len : length a = 13%nat;
  fo_size : 0 <= sz <= MAXFILE * BSIZE;
  fo_mapped : forall k, (k < 140)%nat -> Z.of_nat k * BSIZE < sz -> baddr V a k <> 0;
  fo_data : forall k, (k < 140)%nat -> baddr V a k <> 0 -> data_ok V sb (baddr V a k);
  fo_ind : a !!! 12%nat <> 0 -> data_ok V sb (a !!! 12%nat);
  fo_inj : forall j k, (j < 140)%nat -> (k < 140)%nat -> baddr V a j <> 0 -> baddr V a j = baddr V a k -> j = k;
  fo_ne : forall k, (k < 140)%nat -> baddr V a k <> 0 -> baddr V a k <> a !!! 12%nat;
}.

(** [V'] is [V] after the allocation of block [r]. *)
Record alloced (sb : superblock) (V : Z -> block) (r : Z) (V' : Z -> block) : Prop := {
  al_range : data_start sb <= r < sb_size sb;
  al_free : used V sb r = false;
  al_zero : V' r = zero_block;
  al_used : forall c, 0 <= c < sb_size sb -> used V' sb c = bool_decide (c = r) || used V sb c;
  al_other : forall n, n <> r -> n < sb_bmapstart sb \/ data_start sb <= n -> V' n = V n;
  al_bitmap : bitmap_ok V' sb;
  al_nfree : nfree V sb = S (nfree V' sb);
}.

Section file_blocks.
Context (sb : superblock) (Hsb : 0 < data_start sb).
Implicit Types (V : Z -> block) (a : list Z).

Lemma data_not_free V r b V' : alloced sb V r V' -> data_ok V sb b -> b <> r.
Proof. intros Ha [_ Hu] ->. rewrite (al_free _ _ _ _ Ha) in Hu. done. Qed.

Lemma data_kept V r b V' : alloced sb V r V' -> data_ok V sb b -> data_ok V' sb b /\ V' b = V b.
Proof.
  intros Ha Hb. pose proof (data_not_free _ _ _ _ Ha Hb) as Hne. destruct Hb as [Hr Hu]. split; [split; [done|]|].
  - rewrite (al_used _ _ _ _ Ha) by lia. by rewrite Hu, orb_true_r.
  - apply (al_other _ _ _ _ Ha); [done|lia].
Qed.

Lemma data_new V r V' : alloced sb V r V' -> data_ok V' sb r.
Proof.
  intros Ha. pose proof (al_range _ _ _ _ Ha). split; [done|]. rewrite (al_used _ _ _ _ Ha) by lia.
  by rewrite bool_decide_eq_true_2.
Qed.

(** Allocating a block does not change the files. *)
Lemma baddr_kept V r V' a k :
  alloced sb V r V' -> (a !!! 12%nat <> 0 -> data_ok V sb (a !!! 12%nat)) -> baddr V' a k = baddr V a k.
Proof.
  intros Ha Hi. unfold baddr. destruct (k <? 12)%nat; [done|]. destruct (Z.eqb_spec (a !!! 12%nat) 0); [done|].
  by rewrite (proj2 (data_kept _ _ _ _ Ha (Hi n))).
Qed.

Lemma file_kept V r V' a sz : alloced sb V r V' -> file_ok V sb a sz -> file_ok V' sb a sz.
Proof.
  intros Ha Hf. assert (forall k, baddr V' a k = baddr V a k) as E by (intros; eapply baddr_kept; [done|apply Hf]).
  split; try apply Hf.
  - intros k. rewrite E. apply Hf.
  - intros k. rewrite E. intros Hk Hb. by apply (data_kept _ _ _ _ Ha), Hf.
  - intros Hi. by apply (data_kept _ _ _ _ Ha), Hf.
  - intros j k. rewrite !E. apply Hf.
  - intros k. rewrite E. apply Hf.
Qed.

(** No block of a file is the free block. *)
Lemma file_not_free V r V' a sz k :
  alloced sb V r V' -> file_ok V sb a sz -> (k < 140)%nat -> baddr V a k <> r.
Proof.
  intros Ha Hf Hk E. pose proof (al_range _ _ _ _ Ha). assert (baddr V a k <> 0) as H0 by lia.
  apply (data_not_free _ _ _ _ Ha (fo_data _ _ _ _ Hf k Hk H0) E).
Qed.

(** A file with one block more. *)
Lemma file_add V V' a a' sz bn r :
  file_ok V sb a sz -> length a' = 13%nat -> a' !!! 12%nat = a !!! 12%nat -> (bn < 140)%nat ->
  (forall k, (k < 140)%nat -> baddr V' a' k = if decide (k = bn) then r else baddr V a k) ->
  (forall b, data_ok V sb b -> data_ok V' sb b) -> data_ok V' sb r ->
  (forall k, (k < 140)%nat -> baddr V a k <> r) -> a !!! 12%nat <> r ->
  file_ok V' sb a' sz.
Proof.
  intros Hf Hl E12 Hbn E Hd Hr Hnew Hnew12. assert (r <> 0) by (destruct Hr as [? _]; lia).
  split; [done|apply Hf|..].
  - intros k Hk Hs. rewrite E by done. case_decide; [done|]. by apply Hf.
  - intros k Hk. rewrite E by done. case_decide; [done|]. intros. by apply Hd, Hf.
  - rewrite E12. intros. by apply Hd, Hf.
  - intros j k Hj Hk. rewrite !E by done. repeat case_decide; subst; try done.
    + intros _ Er. by destruct (Hnew k Hk).
    + intros _ Er. by destruct (Hnew j Hj).
    + by apply Hf.
  - intros k Hk. rewrite E, E12 by done. case_decide; [by intros _ ?|]. by apply Hf.
Qed.

Lemma baddr_zero k : get32 zero_block k = 0.
Proof.
  unfold get32, slice, zero_block. rewrite drop_replicate, take_replicate.
  generalize (4 `min` (512 - 4 * k))%nat. induction n as [|n IH]; [done|]. simpl. by rewrite IH.
Qed.

Lemma file_add_direct V V' a sz bn r :
  file_ok V sb a sz -> alloced sb V r V' -> (bn < 12)%nat ->
  file_ok V' sb (<[bn := r]> a) sz /\
  forall k, (k < 140)%nat -> baddr V' (<[bn := r]> a) k = if decide (k = bn) then r else baddr V a k.
Proof.
  intros Hf Ha Hbn. pose proof (fo_len _ _ _ _ Hf) as Hl.
  assert (forall k, (k < 140)%nat -> baddr V' (<[bn := r]> a) k = if decide (k = bn) then r else baddr V a k) as E.
  { intros k Hk. rewrite <- (baddr_kept V r V' a k Ha (fo_ind _ _ _ _ Hf)). unfold baddr.
    rewrite (list_lookup_total_insert_ne _ bn 12) by lia. destruct (Nat.ltb_spec k 12).
    - case_decide as Ek; [subst; apply list_lookup_total_insert_eq; lia|by apply list_lookup_total_insert_ne].
    - by rewrite decide_False by lia. }
  split; [|done]. eapply file_add; [exact Hf|by rewrite length_insert| | |exact E|..].
  - by apply list_lookup_total_insert_ne; lia.
  - lia.
  - intros b Hb. by apply (data_kept _ _ _ _ Ha).
  - by eapply data_new.
  - intros k Hk. by eapply file_not_free.
  - intros Er. pose proof (al_range _ _ _ _ Ha). eapply (data_not_free V r r V' Ha); [|done].
    rewrite <- Er. apply Hf. lia.
Qed.

(** A new indirect block, still empty. *)
Lemma file_add_indirect V V' a sz r :
  file_ok V sb a sz -> alloced sb V r V' -> a !!! 12%nat = 0 ->
  file_ok V' sb (<[12%nat := r]> a) sz /\
  forall k, (k < 140)%nat -> baddr V' (<[12%nat := r]> a) k = baddr V a k.
Proof.
  intros Hf Ha H12. pose proof (fo_len _ _ _ _ Hf) as Hl. pose proof (al_range _ _ _ _ Ha) as Hr.
  assert ((<[12%nat := r]> a) !!! 12%nat = r) as E12 by (apply list_lookup_total_insert_eq; lia).
  assert (forall k, (k < 140)%nat -> baddr V' (<[12%nat := r]> a) k = baddr V a k) as E.
  { intros k Hk. unfold baddr. rewrite E12, H12. destruct (Nat.ltb_spec k 12).
    - apply list_lookup_total_insert_ne. lia.
    - rewrite (proj2 (Z.eqb_neq r 0)) by lia. by rewrite (al_zero _ _ _ _ Ha), baddr_zero. }
  split; [|done]. pose proof (file_kept _ _ _ _ _ Ha Hf) as Hf'.
  assert (forall k, baddr V' a k = baddr V a k) as E' by (intros; eapply baddr_kept; [done|apply Hf]).
  split; [by rewrite length_insert|apply Hf|..].
  - intros k Hk. rewrite E by done. by apply Hf.
  - intros k Hk. rewrite E, <- E' by done. by apply Hf'.
  - rewrite E12. intros _. by eapply data_new.
  - intros j k Hj Hk. rewrite !E by done. by apply Hf.
  - intros k Hk. rewrite E, E12 by done. intros _. by eapply file_not_free.
Qed.

(** Changing a data block does not change the bitmap. *)
Lemma used_data V b d c : data_start sb <= b -> 0 <= c < sb_size sb ->
  BBLOCK c sb < data_start sb -> used (bset V b d) sb c = used V sb c.
Proof. intros Hb Hc Hlt. unfold used. rewrite bset_ne; [done|]. lia. Qed.

End file_blocks.

Section fs_proofs.
Context `{Fuel}.
Implicit Types (s : kernel) (V : Z -> block) (bl : list Z) (L : gmap nat Z) (a : list Z).

Lemma data_pos s : fs_geo s -> 0 < data_start (k_sb s).
Proof. intros Hg. pose proof (geo_order _ Hg). lia. Qed.

Lemma used_bset s V b d c :
  fs_geo s -> data_start (k_sb s) <= b -> 0 <= c < sb_size (k_sb s) ->
  used (bset V b d) (k_sb s) c = used V (k_sb s) c.
Proof.
  intros Hg Hb Hc. destruct (BBLOCK_spec s c Hg Hc) as (_ & ? & _). apply used_data; lia.
Qed.

Lemma data_bset s V b d c :
  fs_geo s -> data_start (k_sb s) <= b -> data_ok V (k_sb s) c -> data_ok (bset V b d) (k_sb s) c.
Proof.
  intros Hg Hb [Hc Hu]. split; [done|]. rewrite used_bset; [done|done|done|]. pose proof (data_pos _ Hg). lia.
Qed.

Lemma nfree_bset s V b d :
  fs_geo s -> data_start (k_sb s) <= b -> nfree (bset V b d) (k_sb s) = nfree V (k_sb s).
Proof.
  intros Hg Hb. unfold nfree. f_equal. apply filter_ext_in. intros c Hc%elem_of_seqZ.
  by rewrite used_bset by (done || lia).
Qed.

Lemma bitmap_bset s V b d :
  fs_geo s -> data_start (k_sb s) <= b -> bitmap_ok V (k_sb s) -> bitmap_ok (bset V b d) (k_sb s).
Proof. intros Hg Hb Hbm c Hc. rewrite used_bset by done. by apply Hbm. Qed.

(** A new entry in the indirect block. *)
Lemma file_add_entry s V V1 a sz bn r :
  fs_geo s -> file_ok V (k_sb s) a sz -> alloced (k_sb s) V r V1 -> (12 <= bn < 140)%nat -> a !!! 12%nat <> 0 ->
  block_ok (V (a !!! 12%nat)) ->
  let V' := bset V1 (a !!! 12%nat) (set32 (V1 (a !!! 12%nat)) (bn - 12) r) in
  file_ok V' (k_sb s) a sz /\
  forall k, (k < 140)%nat -> baddr V' a k = if decide (k = bn) then r else baddr V a k.
Proof.
  intros Hg Hf Ha Hbn H12 [Hlen _] V'. set (i := a !!! 12%nat) in *. pose proof (data_pos _ Hg) as Hpos.
  pose proof (fo_ind _ _ _ _ Hf H12) as Hi. fold i in Hi.
  pose proof (proj2 (data_kept _ Hpos _ _ _ _ Ha Hi)) as Ei. pose proof (al_range _ _ _ _ Ha) as Hr.
  pose proof (fg_size _ Hg). pose proof (fg_disksize _ Hg).
  assert (forall k, (k < 140)%nat -> baddr V' a k = if decide (k = bn) then r else baddr V a k) as E.
  { intros k Hk. unfold baddr. fold i. rewrite (proj2 (Z.eqb_neq i 0)) by done. destruct (Nat.ltb_spec k 12).
    { by rewrite decide_False by lia. }
    unfold V'. rewrite bset_eq, Ei. case_decide as Ek.
    - subst. apply get32_set32_eq; lia.
    - apply get32_set32_ne; lia. }
  split; [|done]. apply (file_add _ Hpos V V' a a sz bn r); [exact Hf|apply Hf|done|lia|exact E|..].
  - intros b Hb. apply data_bset; [done|apply Hi|]. by apply (data_kept _ Hpos _ _ _ _ Ha).
  - apply data_bset; [done|apply Hi|]. by eapply (data_new _ Hpos).
  - intros k Hk. by eapply (file_not_free _ Hpos).
  - intros Er. by eapply (data_not_free _ V r i V1 Ha Hi).
Qed.

(** What an operation on a file does to the rest of the disk: blocks in use
    stay in use, and only those of [X] change. *)
Record fstep (sb : superblock) (X : Z -> Prop) V V' : Prop := {
  fs_used : forall c, 0 <= c < sb_size sb -> used V sb c = true -> used V' sb c = true;
  fs_keep : forall b, ~ X b -> b < sb_bmapstart sb \/ data_ok V sb b -> V' b = V b;
}.

Lemma fstep_refl sb X V : fstep sb X V V.
Proof. done. Qed.

Lemma fstep_data s X V V' b : fs_geo s -> fstep (k_sb s) X V V' -> data_ok V (k_sb s) b -> data_ok V' (k_sb s) b.
Proof.
  intros Hg Hs [Hb Hu]. split; [done|]. pose proof (data_pos _ Hg). apply (fs_used _ _ _ _ Hs); [lia|done].
Qed.

Lemma fstep_trans s (X Y : Z -> Prop) V1 V2 V3 :
  fs_geo s -> fstep (k_sb s) X V1 V2 -> fstep (k_sb s) Y V2 V3 -> fstep (k_sb s) (fun b => X b \/ Y b) V1 V3.
Proof.
  intros Hg H1 H2. split.
  - intros c Hc Hu. by apply (fs_used _ _ _ _ H2), (fs_used _ _ _ _ H1).
  - intros b HX Hb. rewrite (fs_keep _ _ _ _ H2), (fs_keep _ _ _ _ H1); [done|tauto|done|tauto|].
    destruct Hb as [|Hb]; [by left|right; by eapply fstep_data].
Qed.

Lemma fstep_weaken sb (X Y : Z -> Prop) V V' : (forall b, X b -> Y b) -> fstep sb X V V' -> fstep sb Y V V'.
Proof. intros HXY [Hu Hk]. split; [done|]. intros b Hb. apply Hk. auto. Qed.

Lemma fstep_alloced s X V r V' : fs_geo s -> alloced (k_sb s) V r V' -> fstep (k_sb s) X V V'.
Proof.
  intros Hg Ha. pose proof (geo_order _ Hg). pose proof (al_range _ _ _ _ Ha). split.
  - intros c Hc Hu. by rewrite (al_used _ _ _ _ Ha), Hu, orb_true_r by done.
  - intros b _ [Hb|Hb].
    + apply (al_other _ _ _ _ Ha); [lia|by left].
    + by apply (data_kept _ (data_pos _ Hg) _ _ _ _ Ha).
Qed.

Lemma fstep_bset s V b d :
  fs_geo s -> data_start (k_sb s) <= b -> fstep (k_sb s) (fun c => c = b) V (bset V b d).
Proof.
  intros Hg Hb. split.
  - intros c Hc. by rewrite used_bset.
  - intros c Hc _. by apply bset_ne.
Qed.

Lemma balloc_alloced s V bl L :
  can_alloc s V bl L -> (0 < nfree V (k_sb s))%nat ->
  wp (balloc 1) s (fun r s' => exists V' bl', alloced (k_sb s) V r V' /\ tx s' V' bl' L /\
    (length bl' <= length bl + 2)%nat /\ fframe s s' /\ k_inodes s' = k_inodes s).
Proof.
  intros Hca Hn. eapply wp_mono; [by apply balloc_spec|].
  intros r s' ((Hr & Hu & _) & Hok & Hf & Ei). eexists _, _. split; [|split; [exact Hok|split_and!; [|done|done]]].
  - pose proof (ca_bitmap _ _ _ _ Hca r Hr Hu). split; [lia|done|apply ballocated_new|..].
    + intros c Hc. by eapply used_ballocated.
    + intros n Hne Hn'. by eapply ballocated_other.
    + by eapply ballocated_bitmap.
    + by eapply nfree_ballocated.
  - pose proof (length_absorb r (absorb (BBLOCK r (k_sb s)) bl)). pose proof (length_absorb (BBLOCK r (k_sb s)) bl). lia.
Qed.

(** ** bmap *)

(** The block is there: nothing changes. *)
Lemma bmap_hit s V bl ip n bn sz :
  tx s V bl ∅ -> fs_geo s -> (length bl < NBUF)%nat -> k_inodes s !!! ip = n -> i_dev n = 1 ->
  file_ok V (k_sb s) (i_addrs n) sz -> 0 <= bn < 140 -> baddr V (i_addrs n) (Z.to_nat bn) <> 0 ->
  wp (bmap ip bn) s (fun r s' => r = baddr V (i_addrs n) (Z.to_nat bn) /\ tx s' V bl ∅ /\ fframe s s' /\
    k_inodes s' = k_inodes s).
Proof.
  intros Hok Hg Hroom En Hd Hf Hbn Hb. unfold bmap. apply wp_bind. eapply wp_run; [reflexivity|]. rewrite En, Hd.
  unfold baddr in *. destruct (Z.ltb_spec bn NDIRECT) as [Hlt|Hge]; unfold NDIRECT in *.
  - rewrite (proj2 (Nat.ltb_lt _ _)) in * by lia. rewrite (proj2 (Z.eqb_neq _ _) Hb). cbn [negb]. by apply wp_ret.
  - rewrite (proj2 (Nat.ltb_ge _ _)) in * by lia. change (Z.to_nat 12) with 12%nat.
    change NINDIRECT with 128. destruct (Z.ltb_spec (bn - 12) 128); [|lia].
    destruct (Z.eqb_spec (i_addrs n !!! 12%nat) 0) as [|H12]; [done|]. cbn [negb]. apply wp_bind, wp_ret. unfold bmap_entry.
    pose proof (fo_ind _ _ _ _ Hf H12) as [Hi _]. pose proof (fg_size _ Hg). set (i := i_addrs n !!! 12%nat) in *.
    apply wp_bind. eapply wp_mono; [apply (tx_bread s V bl ∅ i Hok); [lia|done|by rewrite map_size_empty]|].
    intros j s1 (Hj & Hok1 & Hs1 & Hf1 & Ei1). apply wp_bind. eapply wp_run; [reflexivity|].
    rewrite (tx_data _ _ _ _ j i Hok1) by apply lookup_insert_eq.
    replace (Z.to_nat (bn - 12)) with (Z.to_nat bn - 12)%nat by lia.
    rewrite (proj2 (Z.eqb_neq _ _) Hb). cbn [negb]. apply wp_bind, wp_ret, wp_bind.
    eapply wp_mono; [apply (tx_brelse _ _ _ _ j i Hok1); [apply lookup_insert_eq|done]|].
    intros _ s2 (Hok2 & Hf2 & Ei2). rewrite delete_insert_id in Hok2 by done. apply wp_ret.
    split_and!; [done|done|by rewrite Hf1|congruence].
Qed.

(** The blocks of a file. *)
Definition own V a (b : Z) : Prop :=
  b <> 0 /\ (b = a !!! 12%nat \/ exists k, (k < 140)%nat /\ b = baddr V a k).

Lemma own_data V sb a sz b : file_ok V sb a sz -> own V a b -> data_ok V sb b.
Proof. intros Hf [H0 [->|(k & Hk & ->)]]; by apply Hf. Qed.

(** The file after block [bn] has been mapped to block [r]. *)
Record bmapped sb V a sz (bn : nat) (r : Z) V' a' : Prop := {
  bm_file : file_ok V' sb a' sz;
  bm_addr : baddr V' a' bn = r;
  bm_ne : r <> 0;
  bm_others : forall k, (k < 140)%nat -> k <> bn -> baddr V' a' k = baddr V a k;
  bm_old : baddr V a bn <> 0 -> r = baddr V a bn;
  bm_new : baddr V a bn = 0 -> V' r = zero_block;
  bm_same : baddr V a bn <> 0 -> a' = a;
  bm_ind : a !!! 12%nat <> 0 -> a' !!! 12%nat = a !!! 12%nat;
  bm_step : fstep sb (fun b => b <> 0 /\ b = a' !!! 12%nat) V V';
  bm_bitmap : bitmap_ok V' sb;
  bm_nfree : (nfree V sb <= nfree V' sb + 2)%nat;
  bm_fresh : forall b, own V' a' b -> own V a b \/ used V sb b = false;
}.

Lemma bmapped_hit sb V a sz bn :
  file_ok V sb a sz -> baddr V a bn <> 0 -> bitmap_ok V sb -> bmapped sb V a sz bn (baddr V a bn) V a.
Proof. intros Hf Hb Hbm. split; try done; [lia|]. by left. Qed.

Lemma fresh_block V a V' a' sb bn r :
  (forall k, (k < 140)%nat -> baddr V' a' k = if decide (k = bn) then r else baddr V a k) ->
  a' !!! 12%nat = a !!! 12%nat -> used V sb r = false ->
  forall b, own V' a' b -> own V a b \/ used V sb b = false.
Proof.
  intros E E12 Hr b [H0 [Hb|(k & Hk & Hb)]].
  - left. split; [done|]. left. by rewrite Hb.
  - rewrite E in Hb by done. case_decide; [right; by subst|]. left. split; [done|]. right. by exists k.
Qed.

Lemma bmapped_direct s V a sz bn r V' :
  fs_geo s -> file_ok V (k_sb s) a sz -> (bn < 12)%nat -> baddr V a bn = 0 -> alloced (k_sb s) V r V' ->
  bmapped (k_sb s) V a sz bn r V' (<[bn := r]> a).
Proof.
  intros Hg Hf Hbn H0 Ha. pose proof (data_pos _ Hg) as Hpos. pose proof (al_range _ _ _ _ Ha).
  destruct (file_add_direct _ Hpos V V' a sz bn r Hf Ha Hbn) as [Hf' E].
  split; [done| |lia|..]; try done.
  - rewrite E by lia. by rewrite decide_True.
  - intros k Hk Hne. rewrite E by done. by rewrite decide_False.
  - intros _. apply (al_zero _ _ _ _ Ha).
  - intros _. apply list_lookup_total_insert_ne. lia.
  - by eapply fstep_alloced.
  - apply (al_bitmap _ _ _ _ Ha).
  - rewrite (al_nfree _ _ _ _ Ha). lia.
  - eapply fresh_block; [exact E|apply list_lookup_total_insert_ne; lia|apply Ha].
Qed.

Lemma bmapped_entry s V a sz bn r V1 :
  fs_geo s -> file_ok V (k_sb s) a sz -> (12 <= bn < 140)%nat -> a !!! 12%nat <> 0 -> baddr V a bn = 0 ->
  alloced (k_sb s) V r V1 -> block_ok (V (a !!! 12%nat)) ->
  bmapped (k_sb s) V a sz bn r (bset V1 (a !!! 12%nat) (set32 (V1 (a !!! 12%nat)) (bn - 12) r)) a.
Proof.
  intros Hg Hf Hbn H12 H0 Ha Hb. pose proof (data_pos _ Hg) as Hpos. pose proof (al_range _ _ _ _ Ha).
  destruct (file_add_entry s V V1 a sz bn r Hg Hf Ha Hbn H12 Hb) as [Hf' E].
  pose proof (fo_ind _ _ _ _ Hf H12) as Hi.
  split; [done| |lia|..]; try done.
  - rewrite E by lia. by rewrite decide_True.
  - intros k Hk Hne. rewrite E by done. by rewrite decide_False.
  - intros _. rewrite bset_ne; [apply (al_zero _ _ _ _ Ha)|]. intros Er.
    by apply (data_not_free _ V r _ V1 Ha Hi).
  - eapply fstep_weaken; [|eapply (fstep_trans s); [done|by eapply (fstep_alloced s (fun _ => False))|by apply fstep_bset; [done|apply Hi]]].
    simpl. intros b [[]| ->]. done.
  - apply bitmap_bset; [done|apply Hi|apply (al_bitmap _ _ _ _ Ha)].
  - rewrite nfree_bset by (done || apply Hi). rewrite (al_nfree _ _ _ _ Ha). lia.
  - eapply fresh_block; [exact E|done|apply Ha].
Qed.

(** First the indirect block itself, then the entry. *)
Lemma bmapped_indirect s V a sz bn r V1 i V' :
  fs_geo s -> file_ok V (k_sb s) a sz -> (12 <= bn < 140)%nat -> a !!! 12%nat = 0 ->
  alloced (k_sb s) V i V1 -> bmapped (k_sb s) V1 (<[12%nat := i]> a) sz bn r V' (<[12%nat := i]> a) ->
  (nfree V1 (k_sb s) <= nfree V' (k_sb s) + 1)%nat ->
  bmapped (k_sb s) V a sz bn r V' (<[12%nat := i]> a).
Proof.
  intros Hg Hf Hbn H12 Ha Hm Hn. pose proof (data_pos _ Hg) as Hpos.
  destruct (file_add_indirect _ Hpos V V1 a sz i Hf Ha H12) as [Hf' E].
  assert (baddr V a bn = 0) as H0.
  { unfold baddr. rewrite (proj2 (Nat.ltb_ge _ _)) by lia. by rewrite H12. }
  split; try done; try apply Hm.
  - intros k Hk Hne. rewrite (bm_others _ _ _ _ _ _ _ _ Hm) by done. by apply E.
  - intros _. apply (bm_new _ _ _ _ _ _ _ _ Hm). rewrite E by lia. done.
  - eapply fstep_weaken; [|eapply (fstep_trans s); [done|by eapply (fstep_alloced s (fun _ => False))|apply Hm]].
    simpl. tauto.
  - rewrite (al_nfree _ _ _ _ Ha). lia.
  - intros b Hb. pose proof (own_data _ _ _ _ _ (bm_file _ _ _ _ _ _ _ _ Hm) Hb) as [Hr _].
    destruct (bm_fresh _ _ _ _ _ _ _ _ Hm b Hb) as [[Hb0 [Hi|(k & Hk & Hi)]]|Hu].
    + right. rewrite list_lookup_total_insert_eq in Hi by (rewrite (fo_len _ _ _ _ Hf); lia). subst. apply Ha.
    + left. split; [done|]. right. exists k. by rewrite <- E.
    + right. rewrite (al_used _ _ _ _ Ha) in Hu by lia. by apply orb_false_iff in Hu as [_ ?].
Qed.

Lemma bmap_entry_spec s V bl a sz bn :
  can_alloc s V bl ∅ -> Z.of_nat (length bl) + 3 < log_size (k_log s) -> (0 < nfree V (k_sb s))%nat ->
  file_ok V (k_sb s) a sz -> 0 <= bn < 128 -> a !!! 12%nat <> 0 -> baddr V a (Z.to_nat bn + 12) = 0 ->
  wp (bmap_entry 1 (a !!! 12%nat) bn) s (fun r s' => exists V' bl',
    bmapped (k_sb s) V a sz (Z.to_nat bn + 12) r V' a /\ (nfree V (k_sb s) <= nfree V' (k_sb s) + 1)%nat /\
    tx s' V' bl' ∅ /\ (length bl' <= length bl + 3)%nat /\ fframe s s' /\ k_inodes s' = k_inodes s).
Proof.
  intros Hca Hlog Hn Hf Hbn H12 H0. pose proof Hca as [Hok Hg Hbm Ho _ Hroom HL]. unfold bmap_entry.
  set (i := a !!! 12%nat) in *. pose proof (fo_ind _ _ _ _ Hf H12) as Hi. fold i in Hi.
  pose proof (geo_order _ Hg). pose proof (fg_logsize _ Hg) as Hls. unfold LOGSIZE, MAXOPBLOCKS in Hls.
  assert (i < k_disksize s) as Hsz by (destruct Hi as [? _]; lia). apply wp_bind.
  eapply wp_mono; [apply (tx_bread s V bl ∅ i Hok Hsz); [done|rewrite map_size_empty; unfold NBUF; lia]|].
  intros j s1 (Hj & Hok1 & Hs1 & Hf1 & Ei1). apply wp_bind. eapply wp_run; [reflexivity|].
  rewrite (tx_data _ _ _ _ j i Hok1) by apply lookup_insert_eq.
  assert (get32 (V i) (Z.to_nat bn) = 0) as E0.
  { unfold baddr in H0. fold i in H0. rewrite (proj2 (Nat.ltb_ge _ _)), (proj2 (Z.eqb_neq i 0)) in H0 by (done || lia).
    by rewrite Nat.add_sub in H0. }
  rewrite E0. cbn [Z.eqb negb]. apply wp_bind, wp_bind.
  assert (can_alloc s1 V bl (<[j:=i]> ∅)) as Hca1.
  { split; rewrite ?(ff_sb Hf1), ?(ff_outstanding Hf1), ?(ff_log_size Hf1); try done; [by eapply fs_geo_frame|lia| |].
    - rewrite map_size_insert_None, map_size_empty by done. lia.
    - intros x y Hx. rewrite insert_empty, lookup_singleton_Some in Hx. destruct Hx as [_ <-]. split; apply Hi. }
  eapply wp_mono; [apply (balloc_alloced s1 V bl _ Hca1); by rewrite (ff_sb Hf1)|]. rewrite (ff_sb Hf1).
  intros r s2 (V1 & bl1 & Ha & Hok2 & Hl2 & Hf2 & Ei2). apply wp_bind. eapply wp_run; [reflexivity|].
  rewrite (tx_data _ _ _ _ j i Hok2) by apply lookup_insert_eq. assert (fframe s s2) as Hf02 by by rewrite Hf1.
  pose proof (tx_block _ _ _ _ i Hok2) as Hb1.
  apply (tx_store _ _ _ _ j i _ _ _ Hok2); [apply lookup_insert_eq|by apply set32_ok; [lia|]| | | |].
  { apply (ff_home Hf02), geo_home; [done|]. destruct Hi as [? _]. lia. }
  { by rewrite (ff_outstanding Hf02). }
  { rewrite (ff_log_size Hf02). lia. }
  intros s3 Hok3 Hs3 Hf3 Ei3. apply wp_ret, wp_bind.
  eapply wp_mono; [apply (tx_brelse _ _ _ _ j i Hok3); [apply lookup_insert_eq|done]|].
  intros _ s4 (Hok4 & Hf4 & Ei4). rewrite delete_insert_id in Hok4 by done. apply wp_ret.
  exists (bset V1 i (set32 (V1 i) (Z.to_nat bn + 12 - 12) r)), (absorb i bl1).
  pose proof (length_absorb i bl1). split_and!; [|..|lia|by rewrite Hf02, Hf3|congruence].
  - apply bmapped_entry; try done; [lia|]. by eapply tx_block.
  - rewrite nfree_bset by (done || apply Hi). rewrite (al_nfree _ _ _ _ Ha). lia.
  - by rewrite Nat.add_sub.
Qed.

Lemma bmap_spec s V bl ip n bn sz :
  can_alloc s V bl ∅ -> Z.of_nat (length bl) + 5 < log_size (k_log s) -> (2 <= nfree V (k_sb s))%nat ->
  k_inodes s !! ip = Some n -> i_dev n = 1 -> file_ok V (k_sb s) (i_addrs n) sz -> 0 <= bn < 140 ->
  wp (bmap ip bn) s (fun r s' => exists V' bl' a',
    bmapped (k_sb s) V (i_addrs n) sz (Z.to_nat bn) r V' a' /\
    tx s' V' bl' ∅ /\ (length bl' <= length bl + 5)%nat /\ fframe s s' /\
    k_inodes s' = <[ip := set_i_addrs a' n]> (k_inodes s)).
Proof.
  intros Hca Hlog Hn En Hd Hf Hbn. pose proof Hca as [Hok Hg Hbm Ho _ Hroom HL].
  pose proof (list_lookup_total_correct _ _ _ En) as Et. set (a := i_addrs n) in *.
  assert (<[ip := set_i_addrs a n]> (k_inodes s) = k_inodes s) as Eid.
  { apply list_insert_id. rewrite En. f_equal. by destruct n. }
  pose proof (fg_logsize _ Hg) as Hls. unfold LOGSIZE, MAXOPBLOCKS in Hls.
  destruct (decide (baddr V a (Z.to_nat bn) = 0)) as [H0|H0]; last first.
  { eapply wp_mono; [apply (bmap_hit s V bl ip n bn sz Hok Hg); try done; unfold NBUF; lia|].
    intros r s' (-> & Hok' & Hf' & Ei'). exists V, bl, a. split_and!; [by apply bmapped_hit|done|lia|done|].
    by rewrite Eid. }
  unfold bmap. apply wp_bind. eapply wp_run; [reflexivity|]. rewrite Et, Hd. fold a.
  destruct (Z.ltb_spec bn NDIRECT) as [Hlt|Hge]; unfold NDIRECT in *.
  - assert (a !!! Z.to_nat bn = 0) as E0.
    { unfold baddr in H0. by rewrite (proj2 (Nat.ltb_lt _ _)) in H0 by lia. }
    rewrite E0. cbn [Z.eqb negb]. apply wp_bind. eapply wp_mono; [apply (balloc_alloced s V bl ∅ Hca); lia|].
    intros r s1 (V1 & bl1 & Ha & Hok1 & Hl1 & Hf1 & Ei1). apply wp_bind. eapply wp_run; [reflexivity|]. apply wp_ret.
    exists V1, bl1, (<[Z.to_nat bn := r]> a). split_and!; [apply bmapped_direct; try done; lia|by apply tx_inodes|lia| |].
    + etrans; [exact Hf1|apply fframe_inodes].
    + kproj. rewrite Ei1. by rewrite (alter_is_insert _ _ _ _ En).
  - change NINDIRECT with 128. destruct (Z.ltb_spec (bn - 12) 128); [|lia]. change (Z.to_nat 12) with 12%nat.
    assert (Z.to_nat bn = (Z.to_nat (bn - 12) + 12)%nat) as Ebn by lia. rewrite Ebn in *.
    destruct (Z.eqb_spec (a !!! 12%nat) 0) as [H12|H12]; cbn [negb].
    + apply wp_bind, wp_bind. eapply wp_mono; [apply (balloc_alloced s V bl ∅ Hca); lia|].
      intros i s1 (V1 & bl1 & Ha & Hok1 & Hl1 & Hf1 & Ei1). apply wp_bind. eapply wp_run; [reflexivity|]. apply wp_ret.
      destruct (file_add_indirect _ (data_pos _ Hg) V V1 a sz i Hf Ha H12) as [Hf' E].
      rewrite Ei1, (alter_is_insert _ _ _ _ En). fold a. set (s2 := set_k_inodes _ s1).
      assert (fframe s s2) as Hf2 by (etrans; [exact Hf1|apply fframe_inodes]).
      assert (can_alloc s2 V1 bl1 ∅) as Hca2.
      { split; rewrite ?(ff_sb Hf2), ?(ff_outstanding Hf2), ?(ff_log_size Hf2); try done;
          [by apply tx_inodes|by eapply fs_geo_frame|apply (al_bitmap _ _ _ _ Ha)|lia]. }
      pose proof (fo_len _ _ _ _ Hf). assert ((<[12%nat := i]> a) !!! 12%nat = i) as E12 by (apply list_lookup_total_insert_eq; lia).
      pose proof (al_range _ _ _ _ Ha). pose proof (data_pos _ Hg). pose proof (al_nfree _ _ _ _ Ha).
      pose proof (bmap_entry_spec s2 V1 bl1 (<[12%nat := i]> a) sz (bn - 12) Hca2) as Hent.
      rewrite E12, (ff_sb Hf2), (ff_log_size Hf2) in Hent.
      eapply wp_mono; [apply Hent; [lia|lia|done|lia|lia|by rewrite E by lia]|].
      intros r s3 (V' & bl' & Hm & Hn3 & Hok3 & Hl3 & Hf3 & Ei3).
      exists V', bl', (<[12%nat := i]> a). split_and!; [|done|lia|by rewrite Hf2|by rewrite Ei3].
      by eapply bmapped_indirect; [..|lia|done|exact Ha| |].
    + apply wp_bind, wp_ret. eapply wp_mono; [apply (bmap_entry_spec s V bl a sz (bn - 12) Hca); (done || lia)|].
      intros r s1 (V' & bl' & Hm & Hn1 & Hok1 & Hl1 & Hf1 & Ei1). exists V', bl', a.
      split_and!; [done|done|lia|done|]. by rewrite Eid.
Qed.

(** ** Reading *)

(** The bytes of a file. *)
Definition fbyte V a (j : Z) : Z := V (baddr V a (Z.to_nat (j / BSIZE))) !!! Z.to_nat (j mod BSIZE).
Definition contents V a (sz : Z) : list Z := fbyte V a <$> seqZ 0 sz.

Lemma lookup_contents V a sz j :
  (Z.of_nat j < sz) -> contents V a sz !! j = Some (fbyte V a (Z.of_nat j)).
Proof. intros Hj. unfold contents. by rewrite list_lookup_fmap, lookup_seqZ_lt by lia. Qed.

Lemma length_file V a sz : length (contents V a sz) = Z.to_nat sz.
Proof. unfold contents. by rewrite length_fmap, length_seqZ. Qed.

Lemma slice_contents V a sz off n :
  0 <= off -> 0 <= n -> off + n <= sz ->
  slice (contents V a sz) (Z.to_nat off) (Z.to_nat n) = fbyte V a <$> seqZ off n.
Proof.
  intros Ho Hn Hs. apply list_eq. intros j. destruct (decide (j < Z.to_nat n)%nat) as [Hj|Hj].
  - rewrite lookup_slice, lookup_contents, list_lookup_fmap, lookup_seqZ_lt by lia. simpl. do 2 f_equal. lia.
  - rewrite !lookup_ge_None_2; [done| |]; rewrite ?length_fmap, ?length_seqZ; [lia|].
    unfold slice. rewrite length_take, length_drop, length_file. lia.
Qed.

(** The part of one block. *)
Lemma fbyte_slice V a off m :
  0 <= off -> 0 <= m -> off mod BSIZE + m <= BSIZE -> block_ok (V (baddr V a (Z.to_nat (off / BSIZE)))) ->
  slice (V (baddr V a (Z.to_nat (off / BSIZE)))) (Z.to_nat (off mod BSIZE)) (Z.to_nat m) = fbyte V a <$> seqZ off m.
Proof.
  intros Ho Hm Hs [Hb _]. set (d := V _) in *. pose proof (Z.mod_pos_bound off BSIZE ltac:(done)). unfold BSIZE in *.
  apply list_eq. intros j. destruct (decide (j < Z.to_nat m)%nat) as [Hj|Hj].
  - rewrite lookup_slice, list_lookup_fmap, lookup_seqZ_lt by lia. simpl. unfold fbyte, BSIZE.
    assert ((off + Z.of_nat j) / 512 = off / 512) as -> by (Z.div_mod_to_equations; lia).
    assert ((off + Z.of_nat j) mod 512 = off mod 512 + Z.of_nat j) as -> by (Z.div_mod_to_equations; lia).
    fold d. rewrite list_lookup_lookup_total_lt by lia. do 2 f_equal. lia.
  - rewrite !lookup_ge_None_2; [done| |]; rewrite ?length_fmap, ?length_seqZ, ?length_slice; lia.
Qed.

Lemma readi_loop_spec k s V bl ip n off len sz :
  tx s V bl ∅ -> fs_geo s -> (length bl < NBUF)%nat -> k_inodes s !!! ip = n -> i_dev n = 1 ->
  file_ok V (k_sb s) (i_addrs n) sz -> 0 <= off -> 0 <= len -> off + len <= sz ->
  (0 < len -> off mod BSIZE + len <= BSIZE * Z.of_nat k) ->
  wp (readi_loop k ip off len) s (fun l s' => l = fbyte V (i_addrs n) <$> seqZ off len /\ tx s' V bl ∅ /\
    fframe s s' /\ k_inodes s' = k_inodes s).
Proof.
  revert s off len. induction k as [|k IH]; intros s off len Hok Hg Hroom En Hd Hf Ho Hl Hs Hk.
  all: cbn [readi_loop]; destruct (Z.ltb_spec 0 len) as [Hpos|Hpos]; cbn [negb];
    [|assert (len = 0) as -> by lia; by apply wp_ret].
  { specialize (Hk Hpos). pose proof (Z.mod_pos_bound off BSIZE). unfold BSIZE in *. lia. }
  specialize (Hk Hpos). pose proof (fo_size _ _ _ _ Hf) as Hsz. change (MAXFILE * BSIZE) with 71680 in Hsz.
  apply wp_bind. eapply wp_run; [reflexivity|]. rewrite En, Hd. unfold BSIZE in *.
  assert (0 <= off / 512 < 140) as Hbn by (Z.div_mod_to_equations; lia).
  assert (baddr V (i_addrs n) (Z.to_nat (off / 512)) <> 0) as H0.
  { apply (fo_mapped _ _ _ _ Hf); [lia|]. unfold BSIZE. Z.div_mod_to_equations; lia. }
  apply wp_bind. eapply wp_mono; [apply (bmap_hit s V bl ip n _ sz Hok Hg Hroom En Hd Hf Hbn H0)|].
  intros r s1 (-> & Hok1 & Hf1 & Ei1). set (b := baddr V (i_addrs n) (Z.to_nat (off / 512))) in *.
  pose proof (fo_data _ _ _ _ Hf (Z.to_nat (off / 512)) ltac:(lia) H0) as [Hb _]. fold b in Hb. pose proof (fg_size _ Hg).
  apply wp_bind. eapply wp_mono; [apply (tx_bread s1 V bl ∅ b Hok1); [rewrite (ff_disksize Hf1); lia|done|by rewrite map_size_empty]|].
  intros i s2 (Hi & Hok2 & Hs2 & Hf2 & Ei2). apply wp_bind. eapply wp_run; [reflexivity|].
  rewrite (tx_data _ _ _ _ i b Hok2) by apply lookup_insert_eq. set (m := Z.min len (512 - off mod 512)).
  pose proof (Z.mod_pos_bound off 512 ltac:(done)).
  apply wp_bind. eapply wp_mono; [apply (tx_brelse _ _ _ _ i b Hok2); [apply lookup_insert_eq|done]|].
  intros _ s3 (Hok3 & Hf3 & Ei3). rewrite delete_insert_id in Hok3 by done. apply wp_bind.
  assert (fframe s s3) as Hf03 by by rewrite Hf1, Hf2. eapply wp_mono.
  { apply (IH s3); rewrite ?(ff_sb Hf03); try done; [by eapply fs_geo_frame|congruence|lia|lia|lia|].
    intros Hrest. assert (m = 512 - off mod 512) as Em by lia. rewrite Em.
    replace ((off + (512 - off mod 512)) mod 512) with 0 by (Z.div_mod_to_equations; lia). lia. }
  intros l s4 (-> & Hok4 & Hf4 & Ei4). apply wp_ret. split_and!; [|done|by rewrite Hf03|congruence].
  replace (seqZ off len) with (seqZ off m ++ seqZ (off + m) (len - m))
    by (rewrite <- seqZ_app by lia; f_equal; lia).
  rewrite fmap_app. f_equal. apply (fbyte_slice V (i_addrs n) off m); [lia|lia|unfold BSIZE; lia|by eapply tx_block].
Qed.

Lemma readi_spec s V bl ip n off len :
  tx s V bl ∅ -> fs_geo s -> (length bl < NBUF)%nat -> k_inodes s !!! ip = n -> i_dev n = 1 -> i_type n <> T_DEV ->
  file_ok V (k_sb s) (i_addrs n) (i_size n) -> 0 <= off < 2 ^ 32 -> 0 <= len < 2 ^ 32 ->
  wp (readi ip off len) s (fun r s' =>
    r = (if (i_size n <? off) || (2 ^ 32 <=? off + len) then (-1, [])
         else let m := Z.min len (i_size n - off) in
              (m, slice (contents V (i_addrs n) (i_size n)) (Z.to_nat off) (Z.to_nat m))) /\
    tx s' V bl ∅ /\ fframe s s' /\ k_inodes s' = k_inodes s).
Proof.
  intros Hok Hg Hroom En Hd Ht Hf Ho Hl. unfold readi. apply wp_bind. eapply wp_run; [reflexivity|]. rewrite En.
  rewrite (proj2 (Z.eqb_neq _ _) Ht). pose proof (fo_size _ _ _ _ Hf) as Hsz. change (MAXFILE * BSIZE) with 71680 in Hsz.
  assert ((u32 (off + len) <? off) = (2 ^ 32 <=? off + len)) as ->.
  { unfold u32. destruct (Z.leb_spec (2 ^ 32) (off + len)).
    - apply Z.ltb_lt. Z.div_mod_to_equations; lia.
    - apply Z.ltb_ge. rewrite Z.mod_small by lia. lia. }
  destruct ((i_size n <? off) || (2 ^ 32 <=? off + len)) eqn:Ec; [by apply wp_ret|].
  apply orb_false_iff in Ec as [Ec1%Z.ltb_ge Ec2%Z.leb_gt].
  assert ((if i_size n <? off + len then i_size n - off else len) = Z.min len (i_size n - off)) as ->.
  { destruct (Z.ltb_spec (i_size n) (off + len)); lia. }
  set (m := Z.min len (i_size n - off)). apply wp_bind. eapply wp_mono.
  { apply (readi_loop_spec (io_rounds m) s V bl ip n off m (i_size n)); try done; [lia..|].
    intros Hm. unfold io_rounds. change BSIZE with 512. pose proof (Z.mod_pos_bound off 512).
    Z.div_mod_to_equations; lia. }
  intros l s' (-> & Hok' & Hf' & Ei'). apply wp_ret. split_and!; try done. cbv zeta.
  rewrite slice_contents by lia. by rewrite i32_small by lia.
Qed.

(** ** Writing *)

(** The file and the disk after the bytes [src] have been written at [off]. *)
Record wrote_file sb V a hi (off : Z) (src : list Z) V' a' hi' : Prop := {
  wf_file : file_ok V' sb a' hi';
  wf_bytes : forall j, 0 <= j < hi' ->
    fbyte V' a' j = if decide (off <= j < off + Z.of_nat (length src)) then src !!! Z.to_nat (j - off) else fbyte V a j;
  wf_own : forall b, own V a b -> own V' a' b;
  wf_step : fstep sb (own V' a') V V';
  wf_same : hi' = hi -> a' = a;
  wf_fresh : forall b, own V' a' b -> own V a b \/ used V sb b = false;
}.

Lemma wrote_file_nil sb V a hi off : file_ok V sb a hi -> wrote_file sb V a hi off [] V a hi.
Proof. intros Hf. split; try done; [|by left]. intros j Hj. rewrite decide_False; [done|]. simpl. lia. Qed.

Lemma wrote_app s V a hi off l1 V1 a1 hi1 l2 V2 a2 hi2 :
  fs_geo s -> hi <= hi1 -> hi1 <= hi2 -> hi1 = Z.max hi (off + Z.of_nat (length l1)) ->
  hi2 = Z.max hi1 (off + Z.of_nat (length l1) + Z.of_nat (length l2)) ->
  wrote_file (k_sb s) V a hi off l1 V1 a1 hi1 ->
  wrote_file (k_sb s) V1 a1 hi1 (off + Z.of_nat (length l1)) l2 V2 a2 hi2 ->
  wrote_file (k_sb s) V a hi off (l1 ++ l2) V2 a2 hi2.
Proof.
  intros Hg Hh1 Hh2 Eh1 Eh2 [Hf1 Hb1 Ho1 Hs1 Hm1 Hn1] [Hf2 Hb2 Ho2 Hs2 Hm2 Hn2]. split; [done|..].
  - intros j Hj. rewrite Hb2 by done. rewrite length_app.
    destruct (decide (off + Z.of_nat (length l1) <= j < off + Z.of_nat (length l1) + Z.of_nat (length l2))).
    + rewrite decide_True by lia. rewrite lookup_total_app_r by lia. f_equal. lia.
    + rewrite Hb1 by lia. destruct (decide (off <= j < off + Z.of_nat (length l1))).
      * rewrite decide_True by lia. by rewrite lookup_total_app_l by lia.
      * by rewrite decide_False by lia.
  - auto.
  - eapply fstep_weaken; [|by eapply (fstep_trans s)]. intros b [Hb|Hb]; auto.
  - intros E. rewrite Hm2, Hm1; [done|lia|lia].
  - intros b Hb. pose proof (own_data _ _ _ _ _ Hf2 Hb) as [Hr _]. pose proof (data_pos _ Hg).
    destruct (Hn2 b Hb) as [|Hu]; [auto|]. right. destruct (used V (k_sb s) b) eqn:Hv; [|done].
    rewrite (fs_used _ _ _ _ Hs1) in Hu by (done || lia). done.
Qed.

(** Overwriting a data block of the file that is not its indirect block. *)
Lemma baddr_bset V a b d k : b <> a !!! 12%nat -> baddr (bset V b d) a k = baddr V a k.
Proof. intros Hb. unfold baddr. destruct (k <? 12)%nat; [done|]. destruct (_ =? 0); [done|]. by rewrite bset_ne. Qed.

Lemma file_bset s V a sz b d :
  fs_geo s -> file_ok V (k_sb s) a sz -> b <> a !!! 12%nat -> data_start (k_sb s) <= b ->
  file_ok (bset V b d) (k_sb s) a sz.
Proof.
  intros Hg Hf Hb Hd. assert (forall k, baddr (bset V b d) a k = baddr V a k) as E by (intros; by apply baddr_bset).
  split; try apply Hf.
  - intros k. rewrite E. apply Hf.
  - intros k. rewrite E. intros. apply data_bset; [done|done|]. by apply Hf.
  - intros. apply data_bset; [done|done|]. by apply Hf.
  - intros j k. rewrite !E. apply Hf.
  - intros k. rewrite E. apply Hf.
Qed.

Lemma own_mapped V a k : (k < 140)%nat -> baddr V a k <> 0 -> own V a (baddr V a k).
Proof. intros Hk H0. split; [done|]. right. by exists k. Qed.

Section write_round.
Context (s : kernel) V a (hi off : Z) (l : list Z) (r : Z) V1 a1.
Context (Hg : fs_geo s) (Hf : file_ok V (k_sb s) a hi) (Hoff : 0 <= off <= hi).
Context (Hfit : off mod 512 + Z.of_nat (length l) <= 512) (Hpos : 0 < Z.of_nat (length l)).
Context (Hmax : off + Z.of_nat (length l) <= 71680).
Context (Hm : bmapped (k_sb s) V a hi (Z.to_nat (off / 512)) r V1 a1) (Hblk : block_ok (V1 r)).

Let bn := Z.to_nat (off / 512).
Let d := splice (V1 r) (Z.to_nat (off mod 512)) l.
Let V2 := bset V1 r d.

Lemma round_bn : (bn < 140)%nat.
Proof. unfold bn. Z.div_mod_to_equations; lia. Qed.

Lemma round_r : data_ok V1 (k_sb s) r /\ r <> a1 !!! 12%nat.
Proof.
  pose proof (bm_file _ _ _ _ _ _ _ _ Hm) as Hf1. pose proof (bm_addr _ _ _ _ _ _ _ _ Hm) as E.
  pose proof (bm_ne _ _ _ _ _ _ _ _ Hm). pose proof round_bn. rewrite <- E. fold bn in E |- *.
  split; [apply Hf1; [done|congruence]|apply Hf1; [done|congruence]].
Qed.

Lemma round_baddr k : baddr V2 a1 k = baddr V1 a1 k.
Proof. apply baddr_bset, round_r. Qed.

(** The old blocks have their old contents. *)
Lemma round_kept k : (k < 140)%nat -> k <> bn -> baddr V a k <> 0 -> V2 (baddr V a k) = V (baddr V a k).
Proof.
  intros Hk Hne H0. pose proof (bm_file _ _ _ _ _ _ _ _ Hm) as Hf1.
  pose proof (bm_others _ _ _ _ _ _ _ _ Hm k Hk Hne) as E. unfold V2. rewrite bset_ne.
  - apply (fs_keep _ _ _ _ (bm_step _ _ _ _ _ _ _ _ Hm)); [|right; by apply Hf].
    intros [_ E2]. revert E2. rewrite <- E. apply Hf1; congruence.
  - intros Er. apply Hne. pose proof round_bn. apply (fo_inj _ _ _ _ Hf1); [done|done|congruence|].
    rewrite E, Er. symmetry. apply (bm_addr _ _ _ _ _ _ _ _ Hm).
Qed.

Lemma round_old : baddr V a bn <> 0 -> V1 r = V r /\ r = baddr V a bn.
Proof.
  intros H0. pose proof (bm_old _ _ _ _ _ _ _ _ Hm H0) as Er. split; [|done].
  apply (fs_keep _ _ _ _ (bm_step _ _ _ _ _ _ _ _ Hm)); [intros [_ E]; by apply round_r|].
  right. rewrite Er. apply Hf; [apply round_bn|done].
Qed.

Lemma round_file : file_ok V2 (k_sb s) a1 (Z.max hi (off + Z.of_nat (length l))).
Proof.
  destruct round_r as [Hr Hne]. pose proof (bm_file _ _ _ _ _ _ _ _ Hm) as Hf1.
  pose proof (file_bset s V1 a1 hi r d Hg Hf1 Hne (proj1 (proj1 Hr))) as Hf2. fold V2 in Hf2.
  pose proof (fo_size _ _ _ _ Hf). change (MAXFILE * BSIZE) with 71680 in *.
  split; try apply Hf2.
  - change (MAXFILE * BSIZE) with 71680. lia.
  - intros k Hk Hlt. destruct (Z.lt_ge_cases (Z.of_nat k * BSIZE) hi) as [|Hge]; [by apply Hf2|].
    assert (k = bn) as ->. { unfold bn, BSIZE in *. Z.div_mod_to_equations; lia. }
    rewrite round_baddr. unfold bn. rewrite (bm_addr _ _ _ _ _ _ _ _ Hm). apply (bm_ne _ _ _ _ _ _ _ _ Hm).
Qed.

Lemma round_bytes j :
  0 <= j < Z.max hi (off + Z.of_nat (length l)) ->
  fbyte V2 a1 j =
    if decide (off <= j < off + Z.of_nat (length l)) then l !!! Z.to_nat (j - off) else fbyte V a j.
Proof.
  intros Hj. pose proof (fo_size _ _ _ _ Hf). change (MAXFILE * BSIZE) with 71680 in *. unfold fbyte. rewrite round_baddr.
  assert (Z.to_nat (j / BSIZE) < 140)%nat as Hk by (unfold BSIZE; Z.div_mod_to_equations; lia).
  destruct (decide (Z.to_nat (j / BSIZE) = bn)) as [E|E].
  - assert (j / 512 = off / 512) as Ej by (unfold bn, BSIZE in E; Z.div_mod_to_equations; lia).
    rewrite E. unfold bn. rewrite (bm_addr _ _ _ _ _ _ _ _ Hm). unfold V2. rewrite bset_eq. unfold d, BSIZE.
    destruct Hblk as [Hlen _]. pose proof (Z.mod_pos_bound off 512 ltac:(done)). pose proof (Z.mod_pos_bound j 512 ltac:(done)).
    assert (j mod 512 - off mod 512 = j - off) as Em by (Z.div_mod_to_equations; lia).
    rewrite (list_lookup_total_alt (splice _ _ _)), lookup_splice by lia. destruct (decide (off <= j < off + Z.of_nat (length l))) as [Hin|Hin].
    + rewrite decide_True by lia. rewrite <- list_lookup_total_alt. f_equal. lia.
    + rewrite decide_False by lia. rewrite <- list_lookup_total_alt. fold bn.
      assert (baddr V a bn <> 0) as Hold.
      { apply (fo_mapped _ _ _ _ Hf); [apply round_bn|]. unfold bn, BSIZE. Z.div_mod_to_equations; lia. }
      destruct (round_old Hold) as [-> Er]. by rewrite Er.
  - assert (~ off <= j < off + Z.of_nat (length l)) as Hout.
    { intros Hin. apply E. unfold bn, BSIZE. Z.div_mod_to_equations; lia. }
    rewrite decide_False by done. rewrite (bm_others _ _ _ _ _ _ _ _ Hm) by done. rewrite round_kept; [done|done|done|].
    apply (fo_mapped _ _ _ _ Hf); [done|]. unfold BSIZE. Z.div_mod_to_equations; lia.
Qed.

Lemma round_own b : own V a b -> own V2 a1 b.
Proof.
  intros [H0 Hb]. split; [done|]. destruct Hb as [Hb|(k & Hk & Hb)].
  - left. rewrite (bm_ind _ _ _ _ _ _ _ _ Hm); [done|congruence].
  - right. exists k. split; [done|]. rewrite round_baddr. destruct (decide (k = bn)) as [->|Hne].
    + unfold bn. rewrite (bm_addr _ _ _ _ _ _ _ _ Hm). fold bn. rewrite Hb. symmetry. apply round_old. congruence.
    + by rewrite (bm_others _ _ _ _ _ _ _ _ Hm).
Qed.

Lemma round_step : fstep (k_sb s) (own V2 a1) V V2.
Proof.
  destruct round_r as [Hr _]. eapply fstep_weaken;
    [|eapply (fstep_trans s); [done|apply (bm_step _ _ _ _ _ _ _ _ Hm)|apply (fstep_bset s); [done|apply Hr]]].
  simpl. pose proof (bm_ne _ _ _ _ _ _ _ _ Hm) as Hne. intros b [[Hb0 Hb]|Hb].
  - split; [done|by left].
  - subst. split; [done|]. right. exists bn. split; [apply round_bn|]. rewrite round_baddr. symmetry. apply Hm.
Qed.

Lemma wrote_round : wrote_file (k_sb s) V a hi off l V2 a1 (Z.max hi (off + Z.of_nat (length l))).
Proof.
  split; [apply round_file|apply round_bytes|apply round_own|apply round_step| |].
  2: { intros b [H0 Hb]. apply (bm_fresh _ _ _ _ _ _ _ _ Hm). split; [done|]. destruct Hb as [|(k & Hk & Hb)]; [by left|].
       right. exists k. by rewrite <- round_baddr. }
  intros E. apply (bm_same _ _ _ _ _ _ _ _ Hm). apply (fo_mapped _ _ _ _ Hf); [apply round_bn|].
  unfold BSIZE. Z.div_mod_to_equations; lia.
Qed.

End write_round.

(** Blocks a call may still log: six for each round of the loop. *)
Definition write_room s bl (k : nat) : Prop := Z.of_nat (length bl) + 6 * Z.of_nat k < log_size (k_log s).

(** Bytes a round of the loop writes: to the end of the source or of the block. *)
Definition write_chunk (off : Z) (src : list Z) : nat :=
  Z.to_nat (Z.min (Z.of_nat (length src)) (BSIZE - off mod BSIZE)).

(** One round: the first bytes of the source are in the file, at the cost of
    six logged blocks and two free ones at most. *)
Lemma writei_round k s V bl ip n off src hi Q :
  tx s V bl ∅ -> fs_geo s -> bitmap_ok V (k_sb s) -> 1 <= log_outstanding (k_log s) ->
  k_inodes s !! ip = Some n -> i_dev n = 1 -> file_ok V (k_sb s) (i_addrs n) hi ->
  Forall is_byte src -> 0 <= off <= hi -> off + Z.of_nat (length src) <= MAXFILE * BSIZE ->
  0 < Z.of_nat (length src) -> Z.of_nat (length bl) + 6 < log_size (k_log s) -> (2 <= nfree V (k_sb s))%nat ->
  let l := take (write_chunk off src) src in
  let rest := drop (write_chunk off src) src in
  (forall s' V' bl' a', tx s' V' bl' ∅ -> (length bl' <= length bl + 6)%nat -> fframe s s' ->
    k_inodes s' = <[ip := set_i_addrs a' n]> (k_inodes s) -> bitmap_ok V' (k_sb s) ->
    (nfree V (k_sb s) <= nfree V' (k_sb s) + 2)%nat ->
    wrote_file (k_sb s) V (i_addrs n) hi off l V' a' (Z.max hi (off + Z.of_nat (length l))) ->
    wp (writei_loop k ip rest (off + Z.of_nat (length l)) (Z.of_nat (length rest))) s' Q) ->
  wp (writei_loop (S k) ip src off (Z.of_nat (length src))) s Q.
Proof.
  intros Hok Hg Hbm Hop En Hd Hf Hsrc Ho Hmax Hpos Hroom Hfree l rest Hk. cbn [writei_loop].
  destruct (Z.ltb_spec 0 (Z.of_nat (length src))); [cbn [negb]|lia]. change (MAXFILE * BSIZE) with 71680 in Hmax.
  pose proof (list_lookup_total_correct _ _ _ En) as Et. pose proof (fg_logsize _ Hg) as Hls. unfold LOGSIZE, MAXOPBLOCKS in Hls.
  apply wp_bind. eapply wp_run; [reflexivity|]. rewrite Et, Hd. fold (write_chunk off src) l rest.
  pose proof (Z.mod_pos_bound off BSIZE ltac:(done)). pose proof (geo_order _ Hg).
  set (m := Z.min (Z.of_nat (length src)) (BSIZE - off mod BSIZE)) in *.
  assert (Z.of_nat (length l) = m) as El by (unfold l, write_chunk; fold m; rewrite length_take; lia).
  assert (Z.of_nat (length rest) = Z.of_nat (length src) - m) as Er by (unfold rest, write_chunk; fold m; rewrite length_drop; lia).
  rewrite <- Er, <- El. unfold BSIZE in *. assert (0 <= off / 512 < 140) as Hbn by (Z.div_mod_to_equations; lia).
  assert (can_alloc s V bl ∅) as Hca by (split; try done; [lia|rewrite map_size_empty; lia]).
  apply wp_bind. eapply wp_mono; [apply (bmap_spec s V bl ip n (off / 512) hi Hca); (done || lia)|].
  intros r s1 (V1 & bl1 & a1 & Hm & Hok1 & Hl1 & Hf1 & Ei1).
  destruct (round_r s V (i_addrs n) hi off src r V1 a1) as [Hr _]; [lia..|done|].
  assert (r < k_disksize s1) as Hrd by (rewrite (ff_disksize Hf1); destruct Hr as [? _]; lia).
  apply wp_bind. eapply wp_mono; [apply (tx_bread s1 V1 bl1 ∅ r Hok1 Hrd); [done|rewrite map_size_empty; unfold NBUF; lia]|].
  intros i s2 (Hi & Hok2 & _ & Hf2 & Ei2). assert (fframe s s2) as Hf02 by by rewrite Hf1.
  apply wp_bind. eapply wp_run; [reflexivity|]. rewrite (tx_data _ _ _ _ i r Hok2) by apply lookup_insert_eq.
  pose proof (tx_block _ _ _ _ r Hok2) as Hblk.
  apply (tx_store _ _ _ _ i r _ _ _ Hok2); [apply lookup_insert_eq| | | | |].
  { destruct Hblk as [Hb1 Hb2]. split; [rewrite length_splice; lia|apply splice_bytes; [done|by apply Forall_take]]. }
  { apply (ff_home Hf02), geo_home; [done|]. destruct Hr as [? _]. lia. }
  { by rewrite (ff_outstanding Hf02). }
  { rewrite (ff_log_size Hf02). lia. }
  intros s3 Hok3 Hs3 Hf3 Ei3. apply wp_bind.
  eapply wp_mono; [apply (tx_brelse _ _ _ _ i r Hok3); [apply lookup_insert_eq|done]|].
  intros _ s4 (Hok4 & Hf4 & Ei4). rewrite delete_insert_id in Hok4 by done. pose proof (length_absorb r bl1).
  apply (Hk s4 _ (absorb r bl1) a1 Hok4); [lia|by rewrite Hf02, Hf3|by rewrite Ei4, Ei3, Ei2, Ei1|..].
  - apply bitmap_bset; [done|apply Hr|apply Hm].
  - rewrite nfree_bset by (done || apply Hr). pose proof (bm_nfree _ _ _ _ _ _ _ _ Hm). lia.
  - by apply (wrote_round s V (i_addrs n) hi off l r V1 a1 Hg Hf Ho ltac:(lia) ltac:(lia) ltac:(lia) Hm).
Qed.

Lemma writei_loop_spec k s V bl ip n off src hi :
  tx s V bl ∅ -> fs_geo s -> bitmap_ok V (k_sb s) -> 1 <= log_outstanding (k_log s) ->
  k_inodes s !! ip = Some n -> i_dev n = 1 -> file_ok V (k_sb s) (i_addrs n) hi ->
  Forall is_byte src -> 0 <= off <= hi -> off + Z.of_nat (length src) <= MAXFILE * BSIZE ->
  (0 < Z.of_nat (length src) -> off mod BSIZE + Z.of_nat (length src) <= BSIZE * Z.of_nat k) ->
  write_room s bl k -> (2 * k <= nfree V (k_sb s))%nat ->
  wp (writei_loop k ip src off (Z.of_nat (length src))) s (fun off' s' => exists V' bl' a',
    off' = off + Z.of_nat (length src) /\
    wrote_file (k_sb s) V (i_addrs n) hi off src V' a' (Z.max hi off') /\ bitmap_ok V' (k_sb s) /\
    tx s' V' bl' ∅ /\ (length bl' <= length bl + 6 * k)%nat /\ fframe s s' /\
    k_inodes s' = <[ip := set_i_addrs a' n]> (k_inodes s)).
Proof.
  revert s V bl n off src hi. induction k as [|k IH]; intros s V bl n off src hi Hok Hg Hbm Hop En Hd Hf Hsrc Ho Hmax Hk Hroom Hfree.
  all: destruct (Z.ltb_spec 0 (Z.of_nat (length src))) as [Hpos|Hpos];
    [|assert (src = []) as -> by (apply nil_length_inv; lia); cbn [writei_loop]; apply wp_ret; exists V, bl, (i_addrs n);
      cbn [length Z.of_nat]; rewrite Z.add_0_r, Z.max_l by lia; split_and!; try done; [by apply wrote_file_nil|lia|];
      symmetry; apply list_insert_id; rewrite En; f_equal; by destruct n].
  all: specialize (Hk Hpos); pose proof (Z.mod_pos_bound off BSIZE ltac:(done)).
  { unfold BSIZE in *. lia. }
  change (MAXFILE * BSIZE) with 71680 in Hmax. unfold write_room in Hroom.
  apply (writei_round k s V bl ip n off src hi); try (done || lia).
  set (l := take _ src). set (rest := drop _ src). intros s4 V2 bl2 a1 Hok4 Hl4 Hf04 Ei4 Hbm4 Hfr4 Hw.
  assert (src = l ++ rest) as Esrc by (symmetry; apply take_drop). pose proof (f_equal length Esrc) as Elen.
  rewrite length_app in Elen. assert (Z.of_nat (length l) = Z.min (Z.of_nat (length src)) (BSIZE - off mod BSIZE)) as El
    by (unfold l, write_chunk; rewrite length_take; lia).
  unfold BSIZE in *. eapply wp_mono.
  { apply (IH s4 V2 bl2 (set_i_addrs a1 n) (off + Z.of_nat (length l)) rest (Z.max hi (off + Z.of_nat (length l))));
      rewrite ?(ff_sb Hf04), ?(ff_outstanding Hf04); try (done || lia).
    - by eapply fs_geo_frame.
    - rewrite Ei4. apply list_lookup_insert_eq. by eapply lookup_lt_Some.
    - apply Hw.
    - by apply Forall_drop.
    - change (MAXFILE * 512) with 71680. lia.
    - intros Hrest. replace ((off + Z.of_nat (length l)) mod 512) with 0 by (Z.div_mod_to_equations; lia). lia.
    - unfold write_room. rewrite (ff_log_size Hf04). lia. }
  intros off' s5 (V' & bl' & a' & -> & Hw' & Hbm' & Hok5 & Hl5 & Hf5 & Ei5). rewrite (ff_sb Hf04) in *.
  exists V', bl', a'. split_and!; [lia| |done|done|lia|by rewrite Hf04|by rewrite Ei5, Ei4, list_insert_insert_eq].
  rewrite Esrc. refine (wrote_app s V (i_addrs n) hi off l V2 a1 _ rest V' a' _ Hg _ _ eq_refl _ Hw _); [lia|lia|lia|].
  replace (Z.max hi (off + Z.of_nat (length l) + Z.of_nat (length rest))) with
    (Z.max (Z.max hi (off + Z.of_nat (length l))) (off + Z.of_nat (length l) + Z.of_nat (length rest))) by lia.
  exact Hw'.
Qed.

(** A file depends on its own blocks only. *)
Section same_blocks.
Context (sb : superblock) V V' a sz (Hf : file_ok V sb a sz).
Context (HK : forall b, own V a b -> data_ok V' sb b /\ V' b = V b).

Lemma own_ind : a !!! 12%nat <> 0 -> own V a (a !!! 12%nat).
Proof. intros H0. split; [done|by left]. Qed.

Lemma same_baddr k : baddr V' a k = baddr V a k.
Proof.
  unfold baddr. destruct (k <? 12)%nat; [done|]. destruct (Z.eqb_spec (a !!! 12%nat) 0) as [|H12]; [done|].
  by rewrite (proj2 (HK _ (own_ind H12))).
Qed.

Lemma same_file : file_ok V' sb a sz.
Proof.
  split; try apply Hf.
  - intros k. rewrite same_baddr. apply Hf.
  - intros k Hk. rewrite same_baddr. intros. by apply HK, own_mapped.
  - intros. by apply HK, own_ind.
  - intros j k. rewrite !same_baddr. apply Hf.
  - intros k. rewrite same_baddr. apply Hf.
Qed.

Lemma same_fbyte j : 0 <= j < sz -> fbyte V' a j = fbyte V a j.
Proof.
  intros Hj. unfold fbyte. rewrite same_baddr. pose proof (fo_size _ _ _ _ Hf). change (MAXFILE * BSIZE) with 71680 in *.
  assert (Z.to_nat (j / BSIZE) < 140)%nat as Hk by (unfold BSIZE; Z.div_mod_to_equations; lia).
  rewrite (proj2 (HK (baddr V a (Z.to_nat (j / BSIZE))) ltac:(apply own_mapped; [done|]; apply (fo_mapped _ _ _ _ Hf); [done|];
    unfold BSIZE; Z.div_mod_to_equations; lia))). done.
Qed.

Lemma same_contents : contents V' a sz = contents V a sz.
Proof. apply list_fmap_ext. intros k j [-> Hj]%lookup_seqZ. apply same_fbyte. lia. Qed.

Lemma same_own b : own V' a b <-> own V a b.
Proof. unfold own. by setoid_rewrite same_baddr. Qed.

End same_blocks.

(** In particular not on the blocks before the bitmap. *)
Section metadata.
Context (s : kernel) V V' (Hg : fs_geo s) (HV : forall b, sb_bmapstart (k_sb s) <= b -> V' b = V b).

Lemma meta_used c : 0 <= c < sb_size (k_sb s) -> used V' (k_sb s) c = used V (k_sb s) c.
Proof. intros Hc. destruct (BBLOCK_spec s c Hg Hc) as (_ & ? & _). unfold used. by rewrite HV by lia. Qed.

Lemma meta_bitmap : bitmap_ok V (k_sb s) -> bitmap_ok V' (k_sb s).
Proof. intros Hb c Hc. rewrite meta_used by done. by apply Hb. Qed.

Lemma meta_kept a sz b : file_ok V (k_sb s) a sz -> own V a b -> data_ok V' (k_sb s) b /\ V' b = V b.
Proof.
  intros Hf Ho. destruct (own_data _ _ _ _ _ Hf Ho) as [Hb Hu]. pose proof (geo_order _ Hg). split; [split; [done|]|].
  - rewrite meta_used; [done|lia].
  - apply HV. lia.
Qed.

End metadata.

(** A file whose blocks are not those of the file written to. *)
Lemma other_file s V V' a a' ib a2 sz2 :
  fs_geo s -> file_ok V (k_sb s) a2 sz2 -> (forall b, own V a2 b -> ~ own V a b) ->
  (forall b, own V' a' b -> own V a b \/ used V (k_sb s) b = false) -> ib < sb_bmapstart (k_sb s) ->
  fstep (k_sb s) (fun b => own V' a' b \/ b = ib) V V' ->
  forall b, own V a2 b -> data_ok V' (k_sb s) b /\ V' b = V b.
Proof.
  intros Hg Hf2 Hdis Hfr Hib Hst b Hb. pose proof (own_data _ _ _ _ _ Hf2 Hb) as Hd. split.
  - by eapply fstep_data.
  - apply (fs_keep _ _ _ _ Hst); [|by right]. pose proof (geo_order _ Hg). destruct Hd as [Hr Hu]. intros [Ho|Hi].
    + destruct (Hfr b Ho) as [Ho2|Hn]; [by apply (Hdis b)|congruence].
    + subst. lia.
Qed.

(** The bytes written, as lists. *)
Lemma wrote_contents sb V a sz off src V' a' :
  wrote_file sb V a sz off src V' a' (Z.max sz (off + Z.of_nat (length src))) -> 0 <= off <= sz ->
  contents V' a' (Z.max sz (off + Z.of_nat (length src))) = splice (contents V a sz) (Z.to_nat off) src.
Proof.
  intros Hw Ho. apply list_eq. intros j. unfold splice.
  destruct (Z.lt_ge_cases (Z.of_nat j) (Z.max sz (off + Z.of_nat (length src)))) as [Hj|Hj].
  - rewrite lookup_contents, (wf_bytes _ _ _ _ _ _ _ _ _ Hw) by lia. case_decide as Hin.
    + rewrite lookup_app_r by (rewrite length_take, length_file; lia).
      rewrite lookup_app_l by (rewrite length_take, length_file; lia).
      rewrite length_take, length_file, list_lookup_lookup_total_lt by lia. do 2 f_equal. lia.
    + destruct (Z.lt_ge_cases (Z.of_nat j) off).
      * rewrite lookup_app_l by (rewrite length_take, length_file; lia).
        rewrite lookup_take_lt by lia. by rewrite lookup_contents by lia.
      * rewrite lookup_app_r by (rewrite length_take, length_file; lia).
        rewrite lookup_app_r by (rewrite length_take, length_file; lia).
        rewrite lookup_drop, lookup_contents; [|rewrite length_take, length_file; lia].
        do 2 f_equal. rewrite length_take, length_file. lia.
  - rewrite !lookup_ge_None_2; [done| |rewrite length_file; lia].
    rewrite !length_app, length_take, length_drop, length_file. lia.
Qed.

(** What [writei] needs: an inode that is loaded and agrees with the disk, and
    room for the blocks the call may log or allocate. *)
Record can_write s V bl (ip : nat) (n : inode) (len : Z) : Prop := {
  cw_tx : tx s V bl ∅;
  cw_geo : fs_geo s;
  cw_bitmap : bitmap_ok V (k_sb s);
  cw_open : 1 <= log_outstanding (k_log s);
  cw_inode : k_inodes s !! ip = Some n;
  cw_dev : i_dev n = 1;
  cw_inum : 0 <= i_inum n < sb_ninodes (k_sb s);
  cw_wf : dinode_wf (dinode_of n);
  cw_coherent : coherent V (k_sb s) n;
  cw_file : file_ok V (k_sb s) (i_addrs n) (i_size n);
  cw_room : Z.of_nat (length bl) + 6 * Z.of_nat (io_rounds len) + 1 < log_size (k_log s);
  cw_free : (2 * io_rounds len <= nfree V (k_sb s))%nat;
}.

(** The file, its inode and the rest of the disk after [src] has been written
    at [off]. *)
Definition write_post s V bl (ip : nat) (n : inode) (off : Z) (src : list Z) s' : Prop :=
  exists V' bl' a',
    let n' := set_i_size (Z.max (i_size n) (off + Z.of_nat (length src))) (set_i_addrs a' n) in
    tx s' V' bl' ∅ /\ (length bl' <= length bl + 6 * io_rounds (Z.of_nat (length src)) + 1)%nat /\ fframe s s' /\
    k_inodes s' = <[ip := n']> (k_inodes s) /\
    file_ok V' (k_sb s) a' (i_size n') /\
    contents V' a' (i_size n') = splice (contents V (i_addrs n) (i_size n)) (Z.to_nat off) src /\
    dinode_wf (dinode_of n') /\ coherent V' (k_sb s) n' /\ bitmap_ok V' (k_sb s) /\
    fstep (k_sb s) (fun b => own V' a' b \/ b = IBLOCK (i_inum n) (k_sb s)) V V' /\
    (forall b, own V' a' b -> own V (i_addrs n) b \/ used V (k_sb s) b = false) /\
    forall m, 0 <= m < sb_ninodes (k_sb s) -> m <> i_inum n -> disk_inode V' (k_sb s) m = disk_inode V (k_sb s) m.

(** The addresses of a file fit in their type. *)
Lemma file_addrs s V a sz : fs_geo s -> file_ok V (k_sb s) a sz -> Forall (fun x => 0 <= x < 2 ^ 32) a.
Proof.
  intros Hg Hf. pose proof (geo_order _ Hg). pose proof (fg_disksize _ Hg). apply Forall_lookup. intros k x Hx.
  pose proof (lookup_lt_Some _ _ _ Hx) as Hk. rewrite (fo_len _ _ _ _ Hf) in Hk.
  apply list_lookup_total_correct in Hx as <-. destruct (decide (k = 12%nat)) as [->|Hne].
  - destruct (decide (a !!! 12%nat = 0)) as [->|Hz]; [lia|]. destruct (fo_ind _ _ _ _ Hf Hz) as [? _]. lia.
  - assert (baddr V a k = a !!! k) as E by (unfold baddr; by rewrite (proj2 (Nat.ltb_lt _ _)) by lia).
    destruct (decide (a !!! k = 0)) as [->|Hz]; [lia|]. rewrite <- E in *.
    destruct (fo_data _ _ _ _ Hf k ltac:(lia) Hz) as [? _]. lia.
Qed.

(** The blocks of inodes are not blocks of files. *)
Lemma inode_not_own s V a sz inum :
  fs_geo s -> file_ok V (k_sb s) a sz -> 0 <= inum < sb_ninodes (k_sb s) -> ~ own V a (IBLOCK inum (k_sb s)).
Proof.
  intros Hg Hf Hi Ho. destruct (own_data _ _ _ _ _ Hf Ho) as [? _]. destruct (IBLOCK_spec s inum Hg Hi) as [_ ?].
  pose proof (geo_order _ Hg). lia.
Qed.

Lemma disk_inode_kept s V V' a' sz m :
  fs_geo s -> fstep (k_sb s) (own V' a') V V' -> file_ok V' (k_sb s) a' sz -> 0 <= m < sb_ninodes (k_sb s) ->
  V' (IBLOCK m (k_sb s)) = V (IBLOCK m (k_sb s)).
Proof.
  intros Hg Hs Hf Hm. apply (fs_keep _ _ _ _ Hs); [by eapply inode_not_own|].
  left. destruct (IBLOCK_spec s m Hg Hm) as [_ ?]. lia.
Qed.

(** No block is allocated and the inode is not written when the file does not
    grow. *)
Lemma write_inside s V bl ip n off src s' V' bl' a' :
  can_write s V bl ip n (Z.of_nat (length src)) -> 0 <= off -> off + Z.of_nat (length src) <= i_size n ->
  wrote_file (k_sb s) V (i_addrs n) (i_size n) off src V' a' (Z.max (i_size n) (off + Z.of_nat (length src))) ->
  bitmap_ok V' (k_sb s) -> tx s' V' bl' ∅ -> fframe s s' ->
  (length bl' <= length bl + 6 * io_rounds (Z.of_nat (length src)))%nat ->
  k_inodes s' = <[ip := set_i_addrs a' n]> (k_inodes s) -> write_post s V bl ip n off src s'.
Proof.
  intros [] Ho Hin Hw Hbm Hok Hf Hl Ei. pose proof (wf_same _ _ _ _ _ _ _ _ _ Hw ltac:(lia)) as ->.
  exists V', bl', (i_addrs n).
  assert (set_i_size (Z.max (i_size n) (off + Z.of_nat (length src))) (set_i_addrs (i_addrs n) n) = n) as En.
  { rewrite Z.max_l by lia. by destruct n. }
  assert (set_i_addrs (i_addrs n) n = n) as En2 by by destruct n. cbv zeta. rewrite En. rewrite En2 in Ei.
  pose proof (wf_step _ _ _ _ _ _ _ _ _ Hw) as Hst. pose proof (wf_file _ _ _ _ _ _ _ _ _ Hw) as Hfile.
  assert (forall m, 0 <= m < sb_ninodes (k_sb s) -> disk_inode V' (k_sb s) m = disk_inode V (k_sb s) m) as Hdi.
  { intros m Hm. unfold disk_inode. by rewrite (disk_inode_kept s V V' (i_addrs n) _ m cw_geo0 Hst Hfile Hm). }
  pose proof (wrote_contents _ _ _ _ _ _ _ _ Hw ltac:(lia)) as Hc. rewrite Z.max_l in Hc, Hfile by lia.
  split_and!; try done.
  - lia.
  - intros Hv. rewrite Hdi by done. by apply cw_coherent0.
  - eapply fstep_weaken; [|done]. auto.
  - apply (wf_fresh _ _ _ _ _ _ _ _ _ Hw).
  - auto.
Qed.

(** The inode is written when the file has grown. *)
Lemma write_grown s V bl ip n off src s' V' bl' a' :
  can_write s V bl ip n (Z.of_nat (length src)) -> 0 <= off <= i_size n -> i_size n < off + Z.of_nat (length src) ->
  off + Z.of_nat (length src) <= MAXFILE * BSIZE ->
  wrote_file (k_sb s) V (i_addrs n) (i_size n) off src V' a' (Z.max (i_size n) (off + Z.of_nat (length src))) ->
  bitmap_ok V' (k_sb s) -> tx s' V' bl' ∅ -> fframe s s' ->
  (length bl' <= length bl + 6 * io_rounds (Z.of_nat (length src)))%nat ->
  k_inodes s' = <[ip := set_i_addrs a' n]> (k_inodes s) ->
  wp (upd_inode ip (set_i_size (off + Z.of_nat (length src))) ;; iupdate ip) s'
    (fun _ s2 => write_post s V bl ip n off src s2).
Proof.
  intros [Hok0 Hg Hbm0 Hop En Hd Hi Hw0 Hco Hf0 Hroom Hfree] Ho Hout Hmax Hw Hbm Hok Hf Hl Ei.
  change (MAXFILE * BSIZE) with 71680 in Hmax. pose proof (fg_logsize _ Hg) as Hls. unfold LOGSIZE, MAXOPBLOCKS in Hls.
  assert (Z.max (i_size n) (off + Z.of_nat (length src)) = off + Z.of_nat (length src)) as Emax by lia.
  pose proof (wf_file _ _ _ _ _ _ _ _ _ Hw) as Hfile. pose proof (wf_step _ _ _ _ _ _ _ _ _ Hw) as Hst.
  pose proof (lookup_lt_Some _ _ _ En) as Hip.
  apply wp_bind. eapply wp_run; [reflexivity|]. rewrite Ei, alter_of_insert.
  set (n' := set_i_size (off + Z.of_nat (length src)) (set_i_addrs a' n)). set (s1 := set_k_inodes _ s').
  assert (fframe s s1) as Hf1 by (etrans; [exact Hf|apply fframe_inodes]).
  assert (dinode_wf (dinode_of n')) as Hwf.
  { destruct Hw0. split; try done; simpl; [lia| |apply Hfile]. by eapply (file_addrs s). }
  set (ib := IBLOCK (i_inum n) (k_sb s)) in *.
  pose proof (iupdate_spec s1 V' bl' ∅ ip n' (tx_inodes _ _ _ _ _ Hok) (fs_geo_frame _ _ Hf1 Hg)) as Hup.
  rewrite (ff_sb Hf1), (ff_outstanding Hf1), (ff_log_size Hf1) in Hup. change (i_inum n') with (i_inum n) in Hup.
  fold ib in Hup. eapply wp_mono.
  { apply Hup; [by apply list_lookup_total_insert_eq|done|done|apply Hwf|done|lia|done|rewrite map_size_empty; unfold NBUF; lia]. }
  intros _ s2 (Hok2 & Hf2 & Ei2). clear Hup. set (V2 := bset V' ib _) in *.
  destruct (IBLOCK_spec s (i_inum n) Hg Hi) as [_ Hib]. fold ib in Hib.
  assert (forall b, sb_bmapstart (k_sb s) <= b -> V2 b = V' b) as HV by (intros b Hb; apply bset_ne; lia).
  assert (forall b, own V' a' b -> data_ok V2 (k_sb s) b /\ V2 b = V' b) as HK by (intros b; by eapply meta_kept).
  pose proof (tx_block _ _ _ _ ib Hok) as Hblk. pose proof (length_absorb ib bl') as Hab.
  exists V2, (absorb ib bl'), a'. cbv zeta. rewrite Emax in *. fold n'. split_and!.
  - exact Hok2.
  - lia.
  - by rewrite Hf1.
  - exact Ei2.
  - by eapply same_file.
  - rewrite <- (wrote_contents _ _ _ _ _ _ _ _ ltac:(rewrite Emax; exact Hw) ltac:(lia)), Emax. by eapply same_contents.
  - done.
  - intros _. symmetry. by apply disk_inode_eq.
  - by eapply meta_bitmap.
  - eapply fstep_weaken; [|eapply (fstep_trans s _ (fun b => b = ib)); [done|exact Hst|]].
    + intros b [Hb|Hb]; [left; by apply (same_own (k_sb s) V' V2 a' HK)|by right].
    + split; [intros c Hc; by rewrite (meta_used s V' V2 Hg HV)|intros b Hb _; by apply bset_ne].
  - intros b Hb. apply (wf_fresh _ _ _ _ _ _ _ _ _ Hw). revert Hb. by apply (same_own (k_sb s) V' V2 a' HK).
  - intros m Hm Hne. etrans; [apply (disk_inode_ne s V' (i_inum n) m); try done; apply Hwf|].
    unfold disk_inode. by rewrite (disk_inode_kept s V V' a' _ m Hg Hst Hfile Hm).
Qed.

Lemma writei_spec s V bl ip n off src :
  can_write s V bl ip n (Z.of_nat (length src)) -> i_type n <> T_DEV -> Forall is_byte src ->
  0 <= off < 2 ^ 32 -> Z.of_nat (length src) < 2 ^ 31 ->
  if (i_size n <? off) || (MAXFILE * BSIZE <? off + Z.of_nat (length src)) then
    writei ip src off (Z.of_nat (length src)) s = Ret (-1) s
  else
    wp (writei ip src off (Z.of_nat (length src))) s (fun r s' =>
      r = Z.of_nat (length src) /\ write_post s V bl ip n off src s').
Proof.
  intros Hcw Ht Hsrc Ho Hlen. pose proof Hcw as [Hok Hg Hbm Hop En Hd Hi Hw0 Hco Hf Hroom Hfree].
  set (len := Z.of_nat (length src)) in *. pose proof (fo_size _ _ _ _ Hf) as Hsz. change (MAXFILE * BSIZE) with 71680 in *.
  assert (writei ip src off len s =
    (if (i_size n <? off) || (u32 (off + len) <? off) then ret (-1) else
     if 71680 <? off + len then ret (-1) else
     off <- writei_loop (io_rounds len) ip src off len ;;
     ino <- get_inode ip ;;
     when ((0 <? len) && (i_size ino <? off)) (upd_inode ip (set_i_size off) ;; iupdate ip) ;;
     ret (i32 len)) s) as Ew.
  { unfold writei at 1. rewrite (bind_run _ _ s n s) by by rewrite get_inode_run, (list_lookup_total_correct _ _ _ En).
    by rewrite (proj2 (Z.eqb_neq _ _) Ht). }
  destruct (Z.ltb_spec (i_size n) off); [by rewrite Ew|]. cbn [orb] in *. destruct (Z.ltb_spec 71680 (off + len)).
  { rewrite Ew. by destruct (u32 (off + len) <? off). }
  unfold wp. rewrite Ew, u32_small by lia. rewrite (proj2 (Z.ltb_ge (off + len) off)) by lia.
  apply wp_bind. eapply wp_mono.
  { apply (writei_loop_spec (io_rounds len) s V bl ip n off src (i_size n)); try done.
    - lia.
    - intros _. unfold io_rounds. change BSIZE with 512. pose proof (Z.mod_pos_bound off 512).
      Z.div_mod_to_equations; lia.
    - unfold write_room. lia. }
  intros off' s1 (V1 & bl1 & a1 & -> & Hw & Hbm1 & Hok1 & Hl1 & Hf1 & Ei1).
  apply wp_bind. eapply wp_run; [apply get_inode_run|]. rewrite Ei1, list_lookup_total_insert_eq by by eapply lookup_lt_Some.
  cbn [i_size set_i_addrs]. fold len in Hw |- *. apply wp_bind.
  assert ((0 <? len) && (i_size n <? off + len) = (i_size n <? off + len)) as ->.
  { destruct (Z.ltb_spec 0 len); [done|]. symmetry. apply Z.ltb_ge. lia. }
  rewrite i32_small by lia. destruct (Z.ltb_spec (i_size n) (off + len)); cbn [when].
  - eapply wp_mono; [eapply write_grown; try done; lia|]. intros u s2 Hp. by apply wp_ret.
  - apply wp_ret, wp_ret. split; [done|]. eapply write_inside; try done; lia.
Qed.

(** ** Theorems on the content of files *)

(** [readi] returns the bytes of the file from [off] on, as many as asked
    for or as there are, and -1 for an offset beyond the end or a range that
    wraps around; it changes no block. *)
Theorem readi_correct s V bl ip n off len :
  tx s V bl ∅ -> fs_geo s -> (length bl < NBUF)%nat -> k_inodes s !!! ip = n -> i_dev n = 1 -> i_type n <> T_DEV ->
  file_ok V (k_sb s) (i_addrs n) (i_size n) -> 0 <= off < 2 ^ 32 -> 0 <= len < 2 ^ 32 ->
  exists s',
    readi ip off len s =
      Ret (if (i_size n <? off) || (2 ^ 32 <=? off + len) then (-1, [])
           else let m := Z.min len (i_size n - off) in
                (m, slice (contents V (i_addrs n) (i_size n)) (Z.to_nat off) (Z.to_nat m))) s' /\
    tx s' V bl ∅ /\ fframe s s' /\ k_inodes s' = k_inodes s.
Proof.
  intros. edestruct (wp_inv _ _ _ (readi_spec s V bl ip n off len ltac:(eassumption) ltac:(eassumption) ltac:(eassumption)
    ltac:(eassumption) ltac:(eassumption) ltac:(eassumption) ltac:(eassumption) ltac:(eassumption) ltac:(eassumption)))
    as (r & s' & Hrun & -> & Hok & Hf & Ei). by exists s'.
Qed.

(** C5: In a transaction whose log has room for the blocks, and with enough free
    blocks on the disk, [writei] replaces the bytes of the file from [off] on by
    those of [src], extending the file if they reach beyond its end, up to the
    maximal size of a file; the inode agrees with its copy on disk, the other inodes
    are unchanged, and so is every file that shares no block with this one.
    An offset beyond the end of the file and a file that would become too
    large are refused without any change. *)
Theorem writei_correct s V bl ip n off src :
  can_write s V bl ip n (Z.of_nat (length src)) -> i_type n <> T_DEV -> Forall is_byte src ->
  0 <= off < 2 ^ 32 -> Z.of_nat (length src) < 2 ^ 31 ->
  if (i_size n <? off) || (MAXFILE * BSIZE <? off + Z.of_nat (length src)) then
    writei ip src off (Z.of_nat (length src)) s = Ret (-1) s
  else
    exists s' V' bl' n', writei ip src off (Z.of_nat (length src)) s = Ret (Z.of_nat (length src)) s' /\
      tx s' V' bl' ∅ /\ fframe s s' /\ k_inodes s' = <[ip := n']> (k_inodes s) /\
      i_size n' = Z.max (i_size n) (off + Z.of_nat (length src)) /\
      file_ok V' (k_sb s) (i_addrs n') (i_size n') /\
      contents V' (i_addrs n') (i_size n') = splice (contents V (i_addrs n) (i_size n)) (Z.to_nat off) src /\
      coherent V' (k_sb s) n' /\
      (forall m, 0 <= m < sb_ninodes (k_sb s) -> m <> i_inum n ->
        disk_inode V' (k_sb s) m = disk_inode V (k_sb s) m) /\
      forall a2 sz2, file_ok V (k_sb s) a2 sz2 -> (forall b, own V a2 b -> ~ own V (i_addrs n) b) ->
        file_ok V' (k_sb s) a2 sz2 /\ contents V' a2 sz2 = contents V a2 sz2.
Proof.
  intros Hcw Ht Hsrc Ho Hlen. pose proof (writei_spec s V bl ip n off src Hcw Ht Hsrc Ho Hlen) as Hw.
  destruct (_ || _); [done|].
  destruct (wp_inv _ _ _ Hw) as (r & s' & Hrun & -> & V' & bl' & a' & Hok & _ & Hf & Ei & Hfile & Hc & Hwf & Hco & Hbm & Hst & Hfr & Hdi).
  exists s', V', bl'. eexists. split; [exact Hrun|]. split; [done|]. split; [done|]. split; [exact Ei|].
  split_and!; try done. intros a2 sz2 Hf2 Hdis. pose proof (cw_geo _ _ _ _ _ _ Hcw) as Hg.
  destruct (IBLOCK_spec s (i_inum n) Hg (cw_inum _ _ _ _ _ _ Hcw)) as [_ Hib].
  assert (forall b, own V a2 b -> data_ok V' (k_sb s) b /\ V' b = V b) as HK.
  { eapply (other_file s V V' (i_addrs n) a'); try done. lia. }
  split; [by eapply same_file|by eapply same_contents].
Qed.

(** what [writei] has written is what [readi] returns. *)
Theorem file_roundtrip s V bl ip n off src :
  can_write s V bl ip n (Z.of_nat (length src)) -> i_type n <> T_DEV -> Forall is_byte src ->
  0 <= off <= i_size n -> off + Z.of_nat (length src) <= MAXFILE * BSIZE ->
  exists s1 s2, writei ip src off (Z.of_nat (length src)) s = Ret (Z.of_nat (length src)) s1 /\
    readi ip off (Z.of_nat (length src)) s1 = Ret (Z.of_nat (length src), src) s2.
Proof.
  intros Hcw Ht Hsrc Ho Hmax. pose proof Hcw as [Hok0 Hg _ _ En Hd _ _ _ Hf0 Hroom _].
  pose proof (fo_size _ _ _ _ Hf0). pose proof (fg_logsize _ Hg) as Hls. change (MAXFILE * BSIZE) with 71680 in *.
  pose proof (writei_spec s V bl ip n off src Hcw Ht Hsrc ltac:(lia) ltac:(lia)) as Hw.
  rewrite (proj2 (Z.ltb_ge _ _)) in Hw by lia. change (MAXFILE * BSIZE) with 71680 in *. rewrite (proj2 (Z.ltb_ge _ _)) in Hw by lia.
  destruct (wp_inv _ _ _ Hw) as (r & s1 & Hrun & -> & V' & bl' & a' & Hok & Hl & Hf & Ei & Hfile & Hc & _).
  set (n' := set_i_size _ _) in *. pose proof (lookup_lt_Some _ _ _ En) as Hip.
  assert (k_inodes s1 !!! ip = n') as En' by by rewrite Ei, list_lookup_total_insert_eq.
  assert (length bl' < NBUF)%nat as Hroom'.
  { unfold LOGSIZE, MAXOPBLOCKS, NBUF in *. lia. }
  destruct (wp_inv _ _ _ (readi_spec s1 V' bl' ip n' off (Z.of_nat (length src)) Hok (fs_geo_frame _ _ Hf Hg) Hroom' En' Hd Ht
    ltac:(rewrite (ff_sb Hf); exact Hfile) ltac:(lia) ltac:(lia))) as (r & s2 & Hrun2 & -> & _).
  exists s1, s2. split; [done|]. rewrite Hrun2. f_equal. change (i_size n') with (Z.max (i_size n) (off + Z.of_nat (length src))) in *.
  rewrite (proj2 (Z.ltb_ge _ _)), (proj2 (Z.leb_gt _ _)) by lia. cbn [orb]. cbv zeta.
  rewrite Z.min_l by lia. f_equal. change (i_addrs n') with a'. rewrite Hc, Nat2Z.id. apply slice_splice_gen.
  rewrite length_file. lia.
Qed.

(** ** Directories *)

(** The name in an array of DIRSIZ characters. *)
Definition fname (l : list Z) : list Z := until_nul (take (Z.to_nat DIRSIZ) l).

Lemma strncmp_names n (s t : list Z) :
  Forall is_byte s -> Forall is_byte t ->
  strncmp (arr s) (arr t) n = 0 <-> until_nul (take n s) = until_nul (take n t).
Proof.
  revert s t. induction n as [|n IH]; intros s t Hs Ht; [done|].
  assert (forall l, Forall is_byte l -> until_nul (take (S n) l) =
    if arr l 0%nat =? 0 then [] else arr l 0%nat :: until_nul (take n (tail l))) as Hun by by intros [|c l].
  assert (forall l, Forall is_byte l -> is_byte (arr l 0%nat) /\ Forall is_byte (tail l)) as Hby.
  { intros [|c l] Hl; [split; [done|constructor]|]. by inversion Hl. }
  assert (forall l i, tl_str (arr l) i = arr (tail l) i) as Htl by (by intros [|c l] [|i]).
  assert (forall m p q p' q', (forall i, p i = p' i) -> (forall i, q i = q' i) -> strncmp p q m = strncmp p' q' m) as Hext.
  { induction m as [|m IHm]; intros p q p' q' Hp Hq; [done|]. cbn [strncmp]. rewrite Hp, Hq.
    rewrite (IHm (tl_str p) (tl_str q) (tl_str p') (tl_str q')); [done|intros; apply Hp|intros; apply Hq]. }
  rewrite !Hun by done. destruct (Hby s Hs) as [H1 H2], (Hby t Ht) as [H3 H4]. cbn [strncmp].
  rewrite (Hext n _ _ (arr (tail s)) (arr (tail t)) (Htl s) (Htl t)). unfold is_byte in *.
  rewrite !u8_small by lia. specialize (IH (tail s) (tail t) H2 H4).
  destruct (Z.eqb_spec (arr s 0%nat) 0), (Z.eqb_spec (arr t 0%nat) 0), (Z.eqb_spec (arr s 0%nat) (arr t 0%nat));
    cbn [negb andb]; try lia; split; intros E; try (done || lia); try congruence.
  - f_equal; [done|by apply IH].
  - apply IH. by injection E.
Qed.

Lemma namecmp_spec (s t : list Z) :
  Forall is_byte s -> Forall is_byte t -> namecmp s t = 0 <-> fname s = fname t.
Proof. apply strncmp_names. Qed.

Lemma fbyte_is_byte s V bl L a j : tx s V bl L -> is_byte (fbyte V a j).
Proof.
  intros Hok. destruct (tx_block s V bl L (baddr V a (Z.to_nat (j / BSIZE))) Hok) as [Hl Hb].
  pose proof (Z.mod_pos_bound j BSIZE ltac:(done)). unfold fbyte.
  apply (Forall_lookup_total_1 _ _ _ Hb). rewrite Hl. unfold BSIZE in *. lia.
Qed.

Lemma contents_bytes s V bl L a sz : tx s V bl L -> Forall is_byte (contents V a sz).
Proof. intros Hok. apply Forall_fmap, Forall_forall. intros j _. by eapply fbyte_is_byte. Qed.

(** The entries of a directory of [sz] bytes. *)
Definition dirents V a (sz : Z) : list dirent :=
  (fun k => get_dirent (slice (contents V a sz) (16 * k) 16)) <$> seq 0 (Z.to_nat (sz / 16)).

(** An entry in use with the given name. *)
Definition de_match (name : list Z) (de : dirent) : Prop := de_inum de <> 0 /\ fname name = fname (de_name de).
#[global] Instance de_match_dec name de : Decision (de_match name de).
Proof. unfold de_match. apply _. Defined.

(** [dp] is a directory that can be searched. *)
Record dir_ok s V bl (dp : nat) (n : inode) : Prop := {
  dk_tx : tx s V bl ∅;
  dk_geo : fs_geo s;
  dk_room : (length bl < NBUF)%nat;
  dk_inode : k_inodes s !! dp = Some n;
  dk_dev : i_dev n = 1;
  dk_type : i_type n = T_DIR;
  dk_file : file_ok V (k_sb s) (i_addrs n) (i_size n);
  dk_size : i_size n mod 16 = 0;
}.

Lemma dir_ok_frame s s' V bl dp n :
  dir_ok s V bl dp n -> tx s' V bl ∅ -> fframe s s' -> k_inodes s' = k_inodes s -> dir_ok s' V bl dp n.
Proof.
  intros [] Hok Hf Ei. split; rewrite ?Ei, ?(ff_sb Hf); try done. by eapply fs_geo_frame.
Qed.

Lemma read_dirent_spec msg s V bl dp n k :
  dir_ok s V bl dp n -> 16 * Z.of_nat k < i_size n ->
  wp (read_dirent msg dp (16 * Z.of_nat k)) s (fun de s' =>
    dirents V (i_addrs n) (i_size n) !! k = Some de /\ Forall is_byte (de_name de) /\
    tx s' V bl ∅ /\ fframe s s' /\ k_inodes s' = k_inodes s).
Proof.
  intros [Hok Hg Hroom En Hd Ht Hf Hm] Hk. pose proof (fo_size _ _ _ _ Hf) as Hsz. change (MAXFILE * BSIZE) with 71680 in Hsz.
  assert (16 * Z.of_nat k + 16 <= i_size n) as Hfit by (Z.div_mod_to_equations; lia).
  unfold read_dirent. apply wp_bind. eapply wp_mono.
  { apply (readi_spec s V bl dp n (16 * Z.of_nat k) sizeof_de); try done; [by apply list_lookup_total_correct|by rewrite Ht|lia]. }
  intros r s' (-> & Hok' & Hf' & Ei'). unfold sizeof_de.
  rewrite (proj2 (Z.ltb_ge _ _)), (proj2 (Z.leb_gt _ _)) by lia. cbn [orb]. cbv zeta. rewrite Z.min_l by lia.
  cbn [fst snd Z.eqb Pos.eqb negb]. apply wp_ret. split_and!; try done.
  - unfold dirents. rewrite list_lookup_fmap, (proj2 (lookup_seq _ _ _ k)) by (split; [done|Z.div_mod_to_equations; lia]).
    simpl. do 3 f_equal. lia.
  - apply slice_bytes, slice_bytes. by eapply contents_bytes.
Qed.

(** Looking up a name does not change the directory, and takes a reference on
    the inode of the first entry with that name. *)
Definition lookup_post s V bl (n : inode) (name : list Z) (k : nat) (r : option (nat * Z)) s' : Prop :=
  tx s' V bl ∅ /\ fframe s s' /\
  match list_find (de_match name) (drop k (dirents V (i_addrs n) (i_size n))) with
  | None => r = None /\ k_inodes s' = k_inodes s
  | Some (j, de) => exists ip, r = Some (ip, 16 * Z.of_nat (k + j)) /\
      igot 1 (de_inum de) (k_inodes s) ip (k_inodes s') /\ icache_ok (k_inodes s')
  end.

Lemma dirlookup_loop_spec f s V bl dp n name k :
  dir_ok s V bl dp n -> Forall is_byte name -> icache_ok (k_inodes s) ->
  Forall (fun m => i_ref m < 2 ^ 31 - 1) (k_inodes s) -> Exists (fun m => i_ref m = 0) (k_inodes s) ->
  (k <= Z.to_nat (i_size n / 16))%nat -> (Z.to_nat (i_size n / 16) <= k + f)%nat ->
  wp (dirlookup_loop f dp name (16 * Z.of_nat k)) s (lookup_post s V bl n name k).
Proof.
  revert s k. induction f as [|f IH]; intros s k Hdk Hname Hic Hmax Hex Hk Hf.
  all: pose proof Hdk as [Hok Hg Hroom En Hd Ht Hfile Hm]; pose proof (fo_size _ _ _ _ Hfile) as Hsz;
    change (MAXFILE * BSIZE) with 71680 in Hsz; cbn [dirlookup_loop]; apply wp_bind;
    eapply wp_run; [apply get_inode_run|]; rewrite (list_lookup_total_correct _ _ _ En);
    destruct (Z.ltb_spec (16 * Z.of_nat k) (i_size n)) as [Hlt|Hge]; cbn [negb].
  2, 4: apply wp_ret; split_and!; [done|done|]; rewrite drop_ge by
    (unfold dirents; rewrite length_fmap, length_seq; Z.div_mod_to_equations; lia); done.
  { exfalso. Z.div_mod_to_equations; lia. }
  apply wp_bind. eapply wp_mono; [by apply read_dirent_spec|]. intros de s1 (Hde & Hby & Hok1 & Hf1 & Ei1).
  pose proof (dir_ok_frame _ _ _ _ _ _ Hdk Hok1 Hf1 Ei1) as Hdk1.
  assert (u32 (16 * Z.of_nat k + sizeof_de) = 16 * Z.of_nat (S k)) as ->.
  { unfold sizeof_de. rewrite u32_small by lia. lia. }
  assert (~ de_match name de -> wp (dirlookup_loop f dp name (16 * Z.of_nat (S k))) s1 (lookup_post s V bl n name k)) as Hnext.
  { intros Hno. eapply wp_mono; [apply (IH s1 (S k)); rewrite ?Ei1; try done; Z.div_mod_to_equations; lia|].
    intros r s2 (Hok2 & Hf2 & Hr). split_and!; [done|by rewrite Hf1|]. rewrite Ei1 in Hr.
    rewrite (drop_S _ de k) by done. cbn [list_find]. rewrite decide_False by done.
    destruct (list_find _ (drop (S k) _)) as [[j de']|]; cbn [fmap option_fmap option_map prod_map fst snd]; [|done].
    destruct Hr as (ip & -> & Hig & Hic'). exists ip. split_and!; [|done|done]. do 3 f_equal. lia. }
  destruct (Z.eqb_spec (de_inum de) 0) as [H0|H0]; [apply Hnext; by intros [? _]|].
  destruct (Z.eqb_spec (namecmp name (de_name de)) 0) as [Hn|Hn]; rewrite namecmp_spec in Hn by done;
    [|apply Hnext; by intros [_ ?]].
  apply wp_bind. eapply wp_run; [apply get_inode_run|]. rewrite Ei1, (list_lookup_total_correct _ _ _ En), Hd.
  destruct (iget_spec s1 1 (de_inum de)) as (ip & t & Hrun & Hig & Hic').
  { apply quiet_not_held. by eapply tx_quiet. }
  { by rewrite Ei1. }
  { by rewrite Ei1. }
  { rewrite Ei1. eapply Exists_impl; [exact Hex|]. auto. }
  apply wp_bind. eapply wp_run; [exact Hrun|]. apply wp_ret. split_and!; [by apply tx_inodes|etrans; [exact Hf1|apply fframe_inodes]|].
  rewrite (drop_S _ de k) by done. cbn [list_find]. rewrite decide_True by done. exists ip.
  rewrite Ei1 in Hig. split_and!; [do 3 f_equal; lia|done|done].
Qed.

Lemma dirlookup_spec s V bl dp n name :
  dir_ok s V bl dp n -> Forall is_byte name -> icache_ok (k_inodes s) ->
  Forall (fun m => i_ref m < 2 ^ 31 - 1) (k_inodes s) -> Exists (fun m => i_ref m = 0) (k_inodes s) ->
  wp (dirlookup dp name) s (lookup_post s V bl n name 0).
Proof.
  intros Hdk Hname Hic Hmax Hex. unfold dirlookup. apply wp_bind. eapply wp_run; [apply get_inode_run|].
  rewrite (list_lookup_total_correct _ _ _ (dk_inode _ _ _ _ _ Hdk)), (dk_type _ _ _ _ _ Hdk). cbn [Z.eqb T_DIR Pos.eqb negb].
  apply (dirlookup_loop_spec _ s V bl dp n name 0 Hdk Hname Hic Hmax Hex); unfold sizeof_de; lia.
Qed.

(** C17: [dirlookup] finds the first entry in use whose name agrees with
    [name] up to DIRSIZ characters, takes a reference on its inode and gives
    its offset; it finds nothing when there is none.  No block changes. *)
Theorem dirlookup_correct s V bl dp n name :
  dir_ok s V bl dp n -> Forall is_byte name -> icache_ok (k_inodes s) ->
  Forall (fun m => i_ref m < 2 ^ 31 - 1) (k_inodes s) -> Exists (fun m => i_ref m = 0) (k_inodes s) ->
  exists r s', dirlookup dp name s = Ret r s' /\ tx s' V bl ∅ /\ fframe s s' /\
    match list_find (de_match name) (dirents V (i_addrs n) (i_size n)) with
    | None => r = None /\ k_inodes s' = k_inodes s
    | Some (j, de) => exists ip, r = Some (ip, 16 * Z.of_nat j) /\
        igot 1 (de_inum de) (k_inodes s) ip (k_inodes s') /\ icache_ok (k_inodes s')
    end.
Proof.
  intros Hdk Hname Hic Hmax Hex. apply wp_inv.
  eapply wp_mono; [by apply dirlookup_spec|]. intros r s' (Hok & Hf & Hr). by split_and!.
Qed.

End fs_proofs.

(** ** The theorems on a small disk *)

#[local] Instance demo_fuel : Fuel := 0%nat.

(** [file_ok], decided. *)
Definition data_okb (V : Z -> block) (sb : superblock) (b : Z) : bool :=
  (data_start sb <=? b) && (b <? sb_size sb) && used V sb b.
Definition file_okb (V : Z -> block) (sb : superblock) (a : list Z) (sz : Z) : bool :=
  let ks := seq 0 140 in
  Nat.eqb (length a) 13 && (0 <=? sz) && (sz <=? MAXFILE * BSIZE) &&
  forallb (fun k => (sz <=? Z.of_nat k * BSIZE) || negb (baddr V a k =? 0)) ks &&
  forallb (fun k => (baddr V a k =? 0) || data_okb V sb (baddr V a k) && negb (baddr V a k =? a !!! 12%nat)) ks &&
  ((a !!! 12%nat =? 0) || data_okb V sb (a !!! 12%nat)) &&
  forallb (fun j => forallb (fun k => (baddr V a j =? 0) || negb (baddr V a j =? baddr V a k) || Nat.eqb j k) ks) ks.

Lemma data_okb_ok V sb b : data_okb V sb b = true -> data_ok V sb b.
Proof. unfold data_okb, data_ok. rewrite !andb_true_iff, Z.leb_le, Z.ltb_lt. tauto. Qed.

Lemma file_okb_ok V sb a sz : file_okb V sb a sz = true -> file_ok V sb a sz.
Proof.
  unfold file_okb. cbv zeta. rewrite !andb_true_iff, Nat.eqb_eq, !Z.leb_le, !forallb_forall.
  intros ((((((Hl & H1) & H2) & Hm) & Hd) & Hi) & Hj).
  assert (forall k, (k < 140)%nat -> In k (seq 0 140)) as Hin by (intros; apply in_seq; lia).
  split; [done|done| | | | |].
  - intros k Hk Hs. specialize (Hm k (Hin k Hk)). apply orb_true_iff in Hm as [Hm|Hm]; lia.
  - intros k Hk Hs. specialize (Hd k (Hin k Hk)). apply orb_true_iff in Hd as [Hd|[Hd _]%andb_true_iff]; [lia|by apply data_okb_ok].
  - intros Hs. apply orb_true_iff in Hi as [Hi|Hi]; [lia|by apply data_okb_ok].
  - intros j k Hj' Hk Hs E. specialize (Hj j (Hin j Hj')). rewrite forallb_forall in Hj. specialize (Hj k (Hin k Hk)).
    rewrite !orb_true_iff, Nat.eqb_eq in Hj. destruct Hj as [[Hj|Hj]|Hj]; [lia|lia|done].
  - intros k Hk Hs. specialize (Hd k (Hin k Hk)). apply orb_true_iff in Hd as [Hd|[_ Hd]%andb_true_iff]; lia.
Qed.

Lemma demo_file_ok : file_ok demo_disk demo_sb (i_addrs demo_inode) (i_size demo_inode).
Proof. apply file_okb_ok. by vm_compute. Qed.

Lemma demo_can_write : can_write demo_fs demo_disk [] 0 demo_inode 3.
Proof.
  split; [exact demo_fs_tx|exact demo_fs_geo|exact demo_bitmap_ok|by vm_compute|done|done|by vm_compute| | |exact demo_file_ok| |].
  - split; simpl; try lia. repeat (constructor; [lia|]). constructor.
  - intros _. by vm_compute.
  - by vm_compute.
  - change (k_sb demo_fs) with demo_sb. rewrite demo_nfree. vm_compute. lia.
Qed.

(** Reading across the boundary of the two blocks, and past the end. *)
Lemma readi_correct_witness :
  exists s1, readi 0 510 4 demo_fs = Ret (4, [65; 65; 66; 66]) s1.
Proof.
  destruct (readi_correct demo_fs demo_disk [] 0 demo_inode 510 4 demo_fs_tx demo_fs_geo ltac:(vm_compute; lia) eq_refl eq_refl
    ltac:(done) demo_file_ok ltac:(lia) ltac:(lia)) as (s1 & Hrun & _).
  exists s1. rewrite Hrun. by vm_compute.
Defined.

(** The three bytes go to both blocks. *)
Lemma writei_correct_witness :
  exists s1 V' bl', writei 0 [1; 2; 3] 511 3 demo_fs = Ret 3 s1 /\ tx s1 V' bl' ∅.
Proof.
  pose proof (writei_correct demo_fs demo_disk [] 0 demo_inode 511 [1; 2; 3] demo_can_write ltac:(done)
    ltac:(repeat (constructor; [by vm_compute|]); constructor) ltac:(lia) ltac:(by vm_compute)) as Hw.
  assert ((i_size demo_inode <? 511) || (MAXFILE * BSIZE <? 511 + Z.of_nat (length [1; 2; 3])) = false) as E by by vm_compute.
  rewrite E in Hw. destruct Hw as (s1 & V' & bl' & n' & Hrun & Hok & _). exists s1, V', bl'. exact (conj Hrun Hok).
Defined.

Lemma file_roundtrip_witness :
  exists s1 s2, writei 0 [1; 2; 3] 700 3 demo_fs = Ret 3 s1 /\ readi 0 700 3 s1 = Ret (3, [1; 2; 3]) s2.
Proof.
  exact (file_roundtrip demo_fs demo_disk [] 0 demo_inode 700 [1; 2; 3] demo_can_write ltac:(done)
    ltac:(repeat (constructor; [by vm_compute|]); constructor) ltac:(by vm_compute) ltac:(by vm_compute)).
Defined.

(** The root directory is open and locked too. *)
Definition demo_rootdir : inode := loaded 0 demo_root (set_i_ref 1 (set_i_inum 1 (set_i_dev 1 inode_zero))).
Definition demo_open : kernel := set_k_inodes (<[1%nat := demo_rootdir]> (k_inodes demo_fs)) demo_fs.

Lemma demo_dir_ok : dir_ok demo_open demo_disk [] 1 demo_rootdir.
Proof.
  split; [exact (tx_inodes _ _ _ _ _ demo_fs_tx)|split; vm_compute; (done || lia)|vm_compute; lia|done|done|done| |done].
  apply file_okb_ok. by vm_compute.
Qed.

(** [icache_ok], decided. *)
Definition icache_okb (t : list inode) : bool :=
  let ks := seq 0 (length t) in
  forallb (fun n => (0 <=? i_ref n) && (i_ref n <? 2 ^ 31)) t &&
  forallb (fun i => forallb (fun j => negb (0 <? i_ref (t !!! i)) || negb (0 <? i_ref (t !!! j)) ||
    negb (i_dev (t !!! i) =? i_dev (t !!! j)) || negb (i_inum (t !!! i) =? i_inum (t !!! j)) || Nat.eqb i j) ks) ks.

Lemma icache_okb_ok t : icache_okb t = true -> icache_ok t.
Proof.
  unfold icache_okb. cbv zeta. rewrite andb_true_iff, !forallb_forall. intros [Hr Hu]. split.
  - intros i n Hn. apply list_elem_of_lookup_2, list_elem_of_In, Hr in Hn. lia.
  - intros i j n m Hn Hm H1 H2 Hd Hi.
    assert (forall k x, t !! k = Some x -> In k (seq 0 (length t))) as Hin
      by (intros k x Hk%lookup_lt_Some; apply in_seq; lia).
    specialize (Hu i (Hin _ _ Hn)). rewrite forallb_forall in Hu. specialize (Hu j (Hin _ _ Hm)).
    rewrite (list_lookup_total_correct _ _ _ Hn), (list_lookup_total_correct _ _ _ Hm), !orb_true_iff, Nat.eqb_eq in Hu. lia.
Qed.

Lemma forallb_Forall {A} (f : A -> bool) (P : A -> Prop) (l : list A) :
  (forall x, f x = true -> P x) -> forallb f l = true -> Forall P l.
Proof. intros Hf. rewrite forallb_forall, Forall_forall. intros Hl x Hx%list_elem_of_In. auto. Qed.

Lemma demo_open_icache : icache_ok (k_inodes demo_open).
Proof. apply icache_okb_ok. by vm_compute. Qed.

Lemma demo_open_slot0 : k_inodes demo_open !! 0%nat = Some demo_inode.
Proof. by vm_compute. Qed.

(** "f" is the third entry; the inode is open already, in slot 0. *)
Lemma dirlookup_correct_witness : exists s', dirlookup 1 (chars "f") demo_open = Ret (Some (0%nat, 32)) s'.
Proof.
  destruct (dirlookup_correct demo_open demo_disk [] 1 demo_rootdir (chars "f") demo_dir_ok) as (r & s' & Hrun & _ & _ & Hr).
  - repeat (constructor; [by vm_compute|]). constructor.
  - exact demo_open_icache.
  - apply (forallb_Forall (fun m => i_ref m <? 2 ^ 31 - 1)); [lia|by vm_compute].
  - apply Exists_exists. exists inode_zero. split; [|done]. apply (list_elem_of_lookup_2 _ 2). by vm_compute.
  - exists s'. rewrite Hrun. clear Hrun. f_equal. change 32 with (16 * Z.of_nat 2).
    assert (list_find (de_match (chars "f")) (dirents demo_disk (i_addrs demo_rootdir) (i_size demo_rootdir)) =
      Some (2%nat, mkdirent 2 (chars "f" ++ replicate 13 0))) as E by by vm_compute.
    rewrite E in Hr. clear E. destruct Hr as (ip & -> & (n & Hn & [[(H1 & H2 & H3) _]|[Hno _]]) & _).
    + do 2 f_equal. exact (ic_unique _ demo_open_icache ip 0 n demo_inode Hn demo_open_slot0 H1 ltac:(by vm_compute) H2 H3).
    + exfalso. rewrite Forall_lookup in Hno. exact (Hno 0%nat demo_inode demo_open_slot0 ltac:(by vm_compute)).
Defined.
