(* ===== verification/Path.v ===== *)
(** * Path names (fs.c: skipelem, namex)

    The abstract walk along the directories on
    the disk, and the proof that [namex] performs it and leaves no reference
    behind but the one it returns. *)

From stdpp Require Import base numbers list option strings gmap.
From S2P Require Import Prelude Kernel Fields Spinlock Proc Cprintf Cstring Bytes Sleeplock Dll Bio Log Txn Inode Console Fs.

(** ** Paths *)

(** The elements of a path: what is between its slashes. *)
Fixpoint elems_from (cur path : list Z) : list (list Z) :=
  match path with
  | [] => if decide (cur = []) then [] else [cur]
  | c :: path' =>
      if c =? slash then (if decide (cur = []) then elems_from [] path' else cur :: elems_from [] path')
      else elems_from (cur ++ [c]) path'
  end.
Definition elems (path : list Z) : list (list Z) := elems_from [] path.

Lemma elems_skip path : elems (skip_slashes path) = elems path.
Proof.
  unfold elems. induction path as [|c path IH]; [done|]. cbn [skip_slashes elems_from].
  destruct (c =? slash) eqn:E; [by rewrite decide_True|]. cbn [elems_from]. by rewrite E.
Qed.

Lemma skip_head path : head (skip_slashes path) <> Some slash.
Proof.
  induction path as [|c path IH]; [done|]. cbn [skip_slashes]. destruct (Z.eqb_spec c slash); [done|]. simpl. congruence.
Qed.

Lemma path_elem_spec path e r :
  path_elem path = (e, r) -> path = (e ++ r) /\ (slash ∉ e) /\ (r = [] \/ head r = Some slash).
Proof.
  revert e r. induction path as [|c path IH]; intros e r E; cbn [path_elem] in E.
  - injection E as <- <-. split_and!; [done|apply not_elem_of_nil|by left].
  - destruct (Z.eqb_spec c slash) as [->|Hc].
    + injection E as <- <-. split_and!; [done|apply not_elem_of_nil|by right].
    + destruct (path_elem path) as [e1 r1]. injection E as <- <-. destruct (IH e1 r1 eq_refl) as (-> & Hs & Hr).
      split_and!; [done| |done]. rewrite elem_of_cons. intros [|]; congruence.
Qed.

Lemma elems_app cur e r : slash ∉ e -> elems_from cur (e ++ r) = elems_from (cur ++ e) r.
Proof.
  revert cur. induction e as [|c e IH]; intros cur Hs; [by rewrite app_nil_r|].
  apply not_elem_of_cons in Hs as [Hc Hs]. cbn [app elems_from]. rewrite (proj2 (Z.eqb_neq c slash)) by congruence.
  rewrite IH by done. by rewrite <- app_assoc.
Qed.

Lemma elems_elem e r : e <> [] -> slash ∉ e -> r = [] \/ head r = Some slash -> elems (e ++ r) = e :: elems (skip_slashes r).
Proof.
  intros He Hs Hr. unfold elems at 1. rewrite elems_app by done. cbn [app]. rewrite elems_skip.
  destruct Hr as [->|Hr]; [cbn [elems_from]; by rewrite decide_False|].
  destruct r as [|c r]; [done|]. injection Hr as ->. unfold elems. cbn [elems_from]. rewrite Z.eqb_refl.
  by rewrite decide_False, decide_True.
Qed.

Lemma until_nul_nonzero l l' : 0 ∉ l -> until_nul (l ++ 0 :: l') = l.
Proof.
  induction l as [|c l IH]; intros H0; [done|]. apply not_elem_of_cons in H0 as [Hc H0]. cbn [app until_nul].
  rewrite (proj2 (Z.eqb_neq c 0)) by congruence. by rewrite IH.
Qed.

Lemma until_nul_all l : 0 ∉ l -> until_nul l = l.
Proof.
  induction l as [|c l IH]; intros H0; [done|]. apply not_elem_of_cons in H0 as [Hc H0]. cbn [until_nul].
  rewrite (proj2 (Z.eqb_neq c 0)) by congruence. by rewrite IH.
Qed.

Lemma skip_sub path : (forall c, c ∈ skip_slashes path -> c ∈ path) /\ (length (skip_slashes path) <= length path)%nat.
Proof.
  induction path as [|c path [IH1 IH2]]; [done|]. cbn [skip_slashes]. destruct (c =? slash); [|done].
  split; [intros x Hx; right; by apply IH1|simpl; lia].
Qed.

(** The array after an element has been copied to it. *)
Lemma name_of_elem (e name : list Z) :
  0 ∉ e -> length name = Z.to_nat DIRSIZ -> Forall is_byte e -> Forall is_byte name ->
  let name' := if DIRSIZ <=? Z.of_nat (length e) then overlay (take (Z.to_nat DIRSIZ) e) name else overlay (e ++ [0]) name in
  fname name' = fname e /\ length name' = Z.to_nat DIRSIZ /\ Forall is_byte name'.
Proof.
  intros Hz Hname He Hb. cbv zeta. unfold fname, overlay, DIRSIZ in *. change (Z.to_nat 14) with 14%nat in *.
  destruct (Z.leb_spec 14 (Z.of_nat (length e))); split_and!.
  - rewrite take_app_le by (rewrite length_take; lia). by rewrite take_take, Nat.min_id.
  - rewrite length_app, length_drop, length_take. lia.
  - apply Forall_app_2; [by apply Forall_take|by apply Forall_drop].
  - rewrite <- app_assoc. cbn [app]. rewrite take_app_ge by lia. destruct (14 - length e)%nat eqn:E14; [lia|].
    cbn [take firstn]. rewrite until_nul_nonzero by done. by rewrite take_ge, until_nul_all by (done || lia).
  - rewrite !length_app, length_drop. rewrite ?length_app. cbn [length]. lia.
  - apply Forall_app_2; [apply Forall_app_2; [done|]|by apply Forall_drop]. by repeat constructor.
Qed.

(** [skipelem] splits the first element off a path, whatever number of
    slashes surround it, and stores its first DIRSIZ characters in [name]; it
    finds none exactly when the path has no element. *)
Lemma skipelem_spec path name :
  0 ∉ path -> Forall is_byte path -> length name = Z.to_nat DIRSIZ -> Forall is_byte name ->
  match skipelem path name with
  | None => elems path = []
  | Some (rest, name') => exists e, elems path = e :: elems rest /\ fname name' = fname e /\
      length name' = Z.to_nat DIRSIZ /\ Forall is_byte name' /\ head rest <> Some slash /\
      (length rest < length path)%nat /\ (0 ∉ rest) /\ Forall is_byte rest
  end.
Proof.
  intros H0 Hbp Hname Hbn. unfold skipelem. rewrite <- (elems_skip path).
  destruct (skip_slashes path) as [|c0 p0] eqn:Ep; [done|]. rewrite <- Ep. destruct (skip_sub path) as [Hin Hle].
  pose proof (skip_head path) as Hh. destruct (path_elem (skip_slashes path)) as [e r] eqn:Ee.
  apply path_elem_spec in Ee as (Epath & Hs & Hr). assert (e <> []) as He.
  { intros ->. simpl in Epath. destruct Hr as [->|Hr]; [by rewrite Ep in Epath|]. by rewrite Epath in Hh. }
  destruct (skip_sub r) as [Hrin Hrle]. rewrite Forall_forall in Hbp.
  assert (forall c, c ∈ e -> c ∈ path) as Hein by (intros c Hc; apply Hin; rewrite Epath; apply elem_of_app; by left).
  assert (forall c, c ∈ skip_slashes r -> c ∈ path) as Hrest
    by (intros c Hc%Hrin; apply Hin; rewrite Epath; apply elem_of_app; by right).
  destruct (name_of_elem e name) as (Hf & Hl & Hb); [auto|done|apply Forall_forall; auto|done|].
  exists e. split_and!; try done.
  - rewrite Epath. by apply elems_elem.
  - apply skip_head.
  - rewrite Epath, length_app in Hle. destruct e; [done|]. simpl in Hle. lia.
  - auto.
  - apply Forall_forall. auto.
Qed.

Lemma elems_from_nonempty cur path : cur <> [] -> elems_from cur path <> [].
Proof.
  revert cur. induction path as [|c path IH]; intros cur Hc; cbn [elems_from].
  - by rewrite decide_False.
  - destruct (c =? slash); [by rewrite decide_False|]. apply IH. by destruct cur.
Qed.

Lemma elems_nil path : head path <> Some slash -> elems path = [] -> path = [].
Proof.
  destruct path as [|c path]; [done|]. intros Hh He. exfalso. unfold elems in He. cbn [elems_from] in He.
  destruct (Z.eqb_spec c slash) as [->|]; [done|]. by apply elems_from_nonempty in He.
Qed.

(** ** The walk along the directories on the disk *)

Definition dir_entries (V : Z -> block) (di : dinode) : list dirent := dirents V (di_addrs di) (di_size di).

(** From directory [inum] along the elements [es]. *)
Fixpoint walk (V : Z -> block) (sb : superblock) (inum : Z) (es : list (list Z)) : option Z :=
  match es with
  | [] => Some inum
  | e :: es =>
      let di := disk_inode V sb inum in
      if di_type di =? T_DIR then
        match list_find (de_match e) (dir_entries V di) with
        | Some (_, de) => walk V sb (de_inum de) es
        | None => None
        end
      else None
  end.

(** What a path names: for [nameiparent] the directory of its last element. *)
Definition path_target (V : Z -> block) (sb : superblock) (parent : bool) (inum : Z) (es : list (list Z)) : option Z :=
  if parent then
    match es with
    | [] => None
    | _ => d ← walk V sb inum (removelast es);
           if di_type (disk_inode V sb d) =? T_DIR then Some d else None
    end
  else walk V sb inum es.

(** An inode in use, with a link to it. *)
Definition live (V : Z -> block) (sb : superblock) (inum : Z) : Prop :=
  0 <= inum < sb_ninodes sb /\ di_type (disk_inode V sb inum) <> 0 /\ di_nlink (disk_inode V sb inum) <> 0.

(** The directories on the disk are well formed and name inodes in use. *)
Record tree_ok (V : Z -> block) (sb : superblock) : Prop := {
  tk_root : live V sb ROOTINO;
  tk_dir : forall inum, live V sb inum -> let di := disk_inode V sb inum in di_type di = T_DIR ->
    file_ok V sb (di_addrs di) (di_size di) /\ di_size di mod 16 = 0 /\
    forall de, de ∈ dir_entries V di -> de_inum de <> 0 -> live V sb (de_inum de);
}.

(** ** References to inodes *)

(** The references to inode [x] of device 1. *)
Definition refs (t : list inode) (x : Z) : Z :=
  match list_find (entry_for 1 x) t with Some (_, n) => i_ref n | None => 0 end.

Definition entry_at (t : list inode) (i : nat) (x : Z) : Prop := exists n, t !! i = Some n /\ entry_for 1 x n.

Lemma refs_entry t x i n : icache_ok t -> t !! i = Some n -> entry_for 1 x n -> refs t x = i_ref n.
Proof.
  intros [_ Hu] Hn He. unfold refs. destruct (list_find (entry_for 1 x) t) as [[j m]|] eqn:E.
  - apply list_find_Some in E as (Hm & Hem & _). destruct He as (? & ? & ?), Hem as (? & ? & ?).
    assert (i = j) as -> by (eapply Hu; try done; congruence). by simplify_eq.
  - apply list_find_None in E. exfalso. by eapply (Forall_lookup_1 _ _ _ _ E).
Qed.

Lemma refs_none t x : Forall (fun n => ~ entry_for 1 x n) t -> refs t x = 0.
Proof. intros Hno. unfold refs. by rewrite (proj2 (list_find_None _ _) Hno). Qed.

Lemma refs_cases t x :
  icache_ok t -> (exists i n, t !! i = Some n /\ entry_for 1 x n /\ refs t x = i_ref n) \/
                 (Forall (fun n => ~ entry_for 1 x n) t /\ refs t x = 0).
Proof.
  intros Hic. destruct (list_find (entry_for 1 x) t) as [[j m]|] eqn:E.
  - left. apply list_find_Some in E as (Hm & Hem & _). exists j, m. split_and!; [done|done|by eapply refs_entry].
  - right. apply list_find_None in E. split; [done|by apply refs_none].
Qed.

Lemma refs_nonneg t x : icache_ok t -> 0 <= refs t x.
Proof. intros Hic. destruct (refs_cases t x Hic) as [(i & n & _ & [? _] & ->)|[_ ->]]; lia. Qed.

Lemma refs_pos t x : icache_ok t -> 0 < refs t x -> exists i, entry_at t i x.
Proof. intros Hic Hx. destruct (refs_cases t x Hic) as [(i & n & Hn & He & _)|[_ E]]; [by exists i, n|lia]. Qed.

(** The entry of inode [x], or a free one, comes to hold [r] references. *)
Lemma refs_update t i n m x :
  icache_ok t -> icache_ok (<[i := m]> t) -> t !! i = Some n -> i_dev m = 1 -> i_inum m = x ->
  entry_for 1 x n \/ (i_ref n = 0 /\ Forall (fun n => ~ entry_for 1 x n) t) ->
  forall y, refs (<[i := m]> t) y = if decide (y = x) then i_ref m else refs t y.
Proof.
  intros Hic Hic' Hn Hd Hi Hcase y. pose proof (lookup_lt_Some _ _ _ Hn) as Hlt.
  assert (<[i:=m]> t !! i = Some m) as Hm by by apply list_lookup_insert_eq.
  destruct (decide (y = x)) as [->|Hne].
  - pose proof (ic_ref _ Hic' _ _ Hm). destruct (decide (i_ref m = 0)) as [H0|H0].
    + rewrite H0. apply refs_none. apply Forall_lookup. intros j k [(-> & -> & _)|[Hij Hj]]%list_lookup_insert_Some.
      * unfold entry_for. lia.
      * intros He. destruct Hcase as [Hc|[_ Hno]]; [|by eapply (Forall_lookup_1 _ _ _ _ Hno)].
        destruct He as (? & ? & ?), Hc as (? & ? & ?). apply Hij. eapply (ic_unique _ Hic); try done; congruence.
    + eapply refs_entry; [done|exact Hm|]. split_and!; [lia|done|done].
  - assert (~ entry_for 1 y n) as Hny by (destruct Hcase as [(_ & _ & ?)|[? _]]; intros (? & ? & ?); [congruence|lia]).
    assert (~ entry_for 1 y m) as Hmy by (intros (_ & _ & ?); congruence).
    destruct (refs_cases t y Hic) as [(j & k & Hk & He & ->)|[Hno ->]].
    + eapply refs_entry; [done| |exact He]. rewrite list_lookup_insert_ne; [exact Hk|]. intros ->. by simplify_eq.
    + apply refs_none, Forall_lookup. intros j k [(-> & -> & _)|[_ Hj]]%list_lookup_insert_Some; [done|].
      by eapply (Forall_lookup_1 _ _ _ _ Hno).
Qed.

(** ** The inode table of one process at work *)

(** Every entry in use agrees with the disk; only [lk] is locked, by [pid]. *)
Record itable (V : Z -> block) (sb : superblock) (pid : Z) (lk : option nat) (t : list inode) : Prop := {
  it_ok : icache_ok t;
  it_entry : forall i n, t !! i = Some n -> 0 < i_ref n -> i_dev n = 1 /\ live V sb (i_inum n) /\ coherent V sb n;
  it_free : forall i n, t !! i = Some n -> lk <> Some i -> sl_locked (i_lock n) = 0;
  it_mine : forall i n, t !! i = Some n -> lk = Some i -> 0 < i_ref n /\ i_lock n = mksleeplock 1 pid /\ i_valid n = true;
}.

Section itable_proofs.
Context (V : Z -> block) (sb : superblock) (pid : Z).
Implicit Types (t : list inode) (n m : inode).

(** An entry in use changes its lock and its references. *)
Lemma itable_update lk lk' t i n m :
  itable V sb pid lk t -> t !! i = Some n -> 0 < i_ref n -> lk = None \/ lk = Some i ->
  i_dev m = i_dev n -> i_inum m = i_inum n -> 0 <= i_ref m < 2 ^ 31 -> coherent V sb m ->
  (lk' = None /\ sl_locked (i_lock m) = 0) \/
    (lk' = Some i /\ 0 < i_ref m /\ i_lock m = mksleeplock 1 pid /\ i_valid m = true) ->
  itable V sb pid lk' (<[i := m]> t) /\
  forall y, refs (<[i := m]> t) y = if decide (y = i_inum n) then i_ref m else refs t y.
Proof.
  intros Ht Hn Hpos Hlk Hd Hi Hr Hco Hlk'. destruct (it_entry _ _ _ _ _ Ht _ _ Hn Hpos) as (Hdev & Hlive & _).
  assert (icache_ok (<[i := m]> t)) as Hic.
  { destruct (it_ok _ _ _ _ _ Ht) as [Hr0 Hu]. split.
    - intros j k [(<- & <- & _)|[_ Hj]]%list_lookup_insert_Some; [done|by eapply Hr0].
    - intros j1 j2 k1 k2 [(<- & <- & _)|[? ?]]%list_lookup_insert_Some [(<- & <- & _)|[? ?]]%list_lookup_insert_Some;
        rewrite ?Hd, ?Hi; intros; try done; by eapply Hu. }
  split; [split|].
  - done.
  - intros j k [(<- & <- & _)|[_ Hj]]%list_lookup_insert_Some ?; [by rewrite Hd, Hi|by eapply it_entry].
  - intros j k [(<- & <- & _)|[Hne Hj]]%list_lookup_insert_Some Hl; [by destruct Hlk' as [[_ ?]|[? _]]|].
    eapply it_free; [exact Ht|exact Hj|]. destruct Hlk; congruence.
  - intros j k [(<- & <- & _)|[Hne Hj]]%list_lookup_insert_Some Hl; [destruct Hlk' as [[? _]|[_ Hx]]; [congruence|exact Hx]|].
    destruct Hlk' as [[? _]|[? _]]; congruence.
  - apply (refs_update _ _ n); try done; [by eapply it_ok|by rewrite Hd|]. left. by split_and!.
Qed.

Lemma itable_igot lk t x i t' :
  itable V sb pid lk t -> igot 1 x t i t' -> icache_ok t' -> live V sb x ->
  itable V sb pid lk t' /\ entry_at t' i x /\ length t' = length t /\
  (forall j y, entry_at t j y -> entry_at t' j y) /\
  forall y, refs t' y = refs t y + if decide (y = x) then 1 else 0.
Proof.
  intros Ht (n & Hn & Hcase) Hic Hlive. pose proof (it_ok _ _ _ _ _ Ht) as Hic0. pose proof (ic_ref _ Hic0 _ _ Hn) as Hr0.
  set (m := if decide (entry_for 1 x n) then set_i_ref (i_ref n + 1) n else fresh_entry 1 x n).
  assert (t' = <[i := m]> t) as ->.
  { unfold m. destruct Hcase as [[He ->]|(Hno & _ & ->)]; [by rewrite decide_True|].
    rewrite decide_False; [done|]. by eapply (Forall_lookup_1 _ _ _ _ Hno). }
  assert (i_lock m = i_lock n /\ i_dev m = 1 /\ i_inum m = x /\ 0 < i_ref m /\ coherent V sb m) as (Hl & Hd & Hi & Hp & Hco).
  { unfold m. destruct (decide _) as [He|Hne]; [|split_and!; try done].
    destruct He as (Hp & Hd & Hi). split_and!; [done|done|done|simpl; lia|]. exact (proj2 (proj2 (it_entry _ _ _ _ _ Ht _ _ Hn Hp))). }
  assert (lk = Some i -> i_valid m = true) as Hmine.
  { intros Hlk. destruct (it_mine _ _ _ _ _ Ht _ _ Hn Hlk) as (Hp' & _ & Hv). unfold m.
    rewrite decide_True; [done|]. destruct Hcase as [[? _]|(_ & ? & _)]; [done|lia]. }
  pose proof (lookup_lt_Some _ _ _ Hn) as Hlt. assert (<[i:=m]> t !! i = Some m) as Hm by by apply list_lookup_insert_eq.
  split_and!; [split| | | |].
  - done.
  - intros j k [(<- & <- & _)|[_ Hj]]%list_lookup_insert_Some ?; [by rewrite Hd, Hi|by eapply it_entry].
  - intros j k [(<- & <- & _)|[_ Hj]]%list_lookup_insert_Some Hk; rewrite ?Hl; by eapply it_free.
  - intros j k [(<- & <- & _)|[_ Hj]]%list_lookup_insert_Some Hk; [|by eapply it_mine].
    rewrite Hl. split_and!; [done|by eapply it_mine|by apply Hmine].
  - by exists m.
  - by rewrite length_insert.
  - intros j y (k & Hk & He). destruct (decide (i = j)) as [->|Hne]; [|exists k; by rewrite list_lookup_insert_ne].
    exists m. split; [done|]. simplify_eq. destruct He as (? & ? & <-), Hcase as [[(_ & _ & <-) _]|(_ & ? & _)]; [|lia]. by split_and!.
  - intros y. rewrite (refs_update t i n m x) by (try done; destruct Hcase as [[? _]|(? & ? & _)]; auto).
    destruct (decide (y = x)) as [->|]; [|lia]. unfold m. destruct Hcase as [[He _]|(Hno & H0 & _)].
    + rewrite decide_True by done. by rewrite (refs_entry t x i n).
    + rewrite decide_False by (by eapply (Forall_lookup_1 _ _ _ _ Hno)). by rewrite refs_none.
Qed.

End itable_proofs.

(** ** Room in the table *)

(** Table [t] has the references of [t0] and one more, to [oc]. *)
Definition refs_plus (t0 t : list inode) (oc : option Z) : Prop :=
  length t = length t0 /\ forall y, refs t y = refs t0 y + if decide (oc = Some y) then 1 else 0.

(** [namex] holds two references at a time: the directory and the entry. *)
Record roomy (t0 : list inode) : Prop := {
  rm_ok : icache_ok t0;
  rm_dev : Forall (fun n => 0 < i_ref n -> i_dev n = 1) t0;
  rm_max : Forall (fun n => i_ref n < 2 ^ 31 - 3) t0;
  rm_free : (2 <= length (filter (fun n => i_ref n = 0%Z) t0))%nat;
}.

Lemma refs_plus_max V sb pid lk t0 t oc :
  roomy t0 -> itable V sb pid lk t -> refs_plus t0 t oc -> Forall (fun n => i_ref n < 2 ^ 31 - 1) t.
Proof.
  intros Hroom Ht [_ Hh]. pose proof (it_ok _ _ _ _ _ Ht) as Hic. apply Forall_lookup. intros i n Hn.
  destruct (Z.le_gt_cases (i_ref n) 0); [lia|]. destruct (it_entry _ _ _ _ _ Ht _ _ Hn) as (Hd & _); [lia|].
  pose proof (Hh (i_inum n)) as E. rewrite (refs_entry t _ i n) in E; [|done|done|by split_and!; [lia|..]].
  assert (refs t0 (i_inum n) < 2 ^ 31 - 3) as Hlt; [|case_decide; lia].
  destruct (refs_cases t0 (i_inum n) (rm_ok _ Hroom)) as [(j & m & Hm & _ & ->)|[_ ->]]; [|lia].
  exact (Forall_lookup_1 _ _ _ _ (rm_max _ Hroom) Hm).
Qed.

Lemma length_filter_complement {A} (P : A -> Prop) `{forall x, Decision (P x)} (l : list A) :
  (length (filter P l) + length (filter (fun x => ~ P x) l) = length l)%nat.
Proof. rewrite <- length_app. apply Permutation_length, filter_app_complement. Qed.

Lemma refs_plus_room V sb pid lk t0 t c :
  roomy t0 -> itable V sb pid lk t -> refs_plus t0 t (Some c) -> Exists (fun n => i_ref n = 0) t.
Proof.
  intros Hroom Ht [Hlen Hh]. pose proof (it_ok _ _ _ _ _ Ht) as Hic.
  destruct (decide (Exists (fun n => i_ref n = 0) t)) as [|Hno]; [done|exfalso].
  apply Forall_Exists_neg in Hno. rewrite Forall_lookup in Hno.
  assert (forall i n, t !! i = Some n -> 0 < i_ref n /\ i_dev n = 1) as Hused.
  { intros i n Hn. pose proof (ic_ref _ Hic _ _ Hn). pose proof (Hno _ _ Hn).
    assert (0 < i_ref n) by lia. split; [done|]. by eapply it_entry. }
  set (u := filter (fun n => ~ i_ref n = 0) t0).
  assert (i_inum <$> t ⊆+ c :: (i_inum <$> u)) as Hsub.
  { apply NoDup_submseteq.
    - apply NoDup_alt. intros i j x Hi Hj. rewrite !list_lookup_fmap in Hi, Hj.
      destruct (t !! i) as [n|] eqn:Hn, (t !! j) as [m|] eqn:Hm; simplify_eq/=.
      destruct (Hused _ _ Hn), (Hused _ _ Hm). eapply (ic_unique _ Hic); try done; congruence.
    - intros x (n & -> & [i Hn]%list_elem_of_lookup_1)%list_elem_of_fmap. destruct (Hused _ _ Hn) as [Hp Hd].
      specialize (Hh (i_inum n)). rewrite (refs_entry t _ i n) in Hh by (try done; by split_and!).
      destruct (decide (c = i_inum n)) as [->|Hne]; [by left|right]. rewrite decide_False in Hh by congruence.
      destruct (refs_cases t0 (i_inum n) (rm_ok _ Hroom)) as [(j & m & Hm & He & _)|[_ E]]; [|lia].
      apply list_elem_of_fmap. exists m. split; [by destruct He as (_ & _ & ?)|]. apply list_elem_of_filter.
      split; [destruct He; lia|by eapply list_elem_of_lookup_2]. }
  apply submseteq_length in Hsub. rewrite length_cons, !length_fmap in Hsub.
  pose proof (length_filter_complement (fun n => i_ref n = 0) t0) as Hc. pose proof (rm_free _ Hroom). unfold u in Hsub. lia.
Qed.

(** ** [namex] *)

Section namex_proofs.
Context `{Fuel}.
Implicit Types (s : kernel) (V : Z -> block) (bl : list Z).

(** The entry is locked, and the in-memory inode is the one on the disk. *)
Lemma locked_inode V sb pid ip t n :
  itable V sb pid (Some ip) t -> t !! ip = Some n -> live V sb (i_inum n) /\ dinode_of n = disk_inode V sb (i_inum n).
Proof.
  intros Ht Hn. destruct (it_mine _ _ _ _ _ Ht _ _ Hn eq_refl) as (Hp & _ & Hv).
  destruct (it_entry _ _ _ _ _ Ht _ _ Hn Hp) as (_ & Hl & Hco). split; [done|by apply Hco].
Qed.

Lemma lock_spec s V bl ip x :
  tx s V bl ∅ -> fs_geo s -> (length bl < NBUF)%nat -> itable V (k_sb s) (cur_pid s) None (k_inodes s) ->
  entry_at (k_inodes s) ip x ->
  wp (ilock ip) s (fun _ s' => tx s' V bl ∅ /\ fframe s s' /\ itable V (k_sb s) (cur_pid s) (Some ip) (k_inodes s') /\
    entry_at (k_inodes s') ip x /\ length (k_inodes s') = length (k_inodes s) /\
    forall y, refs (k_inodes s') y = refs (k_inodes s) y).
Proof.
  intros Hok Hg Hroom Ht (n & Hn & He). pose proof He as (Hp & Hd & Hi).
  destruct (it_entry _ _ _ _ _ Ht _ _ Hn Hp) as (_ & Hlive & Hco). pose proof Hlive as (Hrange & Htype & _).
  eapply wp_mono; [apply (ilock_spec s V bl ∅ ip n); try done|].
  - lia.
  - by eapply it_free.
  - intros _ s' (Hok' & Hf & Ei). set (m := loaded _ _ n) in Ei. pose proof (lookup_lt_Some _ _ _ Hn) as Hlt.
    destruct (itable_update V (k_sb s) (cur_pid s) None (Some ip) (k_inodes s) ip n m) as [Ht' Hr']; try done; auto.
    + exact (ic_ref _ (it_ok _ _ _ _ _ Ht) _ _ Hn).
    + rewrite <- Ei in Ht', Hr'. split_and!; [done|done|done| | |].
      * exists m. rewrite Ei. split; [by apply list_lookup_insert_eq|]. by split_and!.
      * by rewrite Ei, length_insert.
      * intros y. rewrite Hr'. destruct (decide (y = i_inum n)) as [->|]; [|done].
        symmetry. apply (refs_entry _ _ ip n); [by eapply it_ok|done|by split_and!].
Qed.

Lemma unlock_spec s V bl ip x :
  tx s V bl ∅ -> itable V (k_sb s) (cur_pid s) (Some ip) (k_inodes s) -> entry_at (k_inodes s) ip x ->
  wp (iunlock ip) s (fun _ s' => tx s' V bl ∅ /\ fframe s s' /\ itable V (k_sb s) (cur_pid s) None (k_inodes s') /\
    (forall j y, entry_at (k_inodes s) j y -> entry_at (k_inodes s') j y) /\
    length (k_inodes s') = length (k_inodes s) /\
    forall y, refs (k_inodes s') y = refs (k_inodes s) y).
Proof.
  intros Hok Ht (n & Hn & He). pose proof He as (Hp & Hd & Hi). pose proof (lookup_lt_Some _ _ _ Hn) as Hlt.
  destruct (it_mine _ _ _ _ _ Ht _ _ Hn eq_refl) as (_ & Hl & _).
  destruct (it_entry _ _ _ _ _ Ht _ _ Hn Hp) as (_ & Hlive & Hco).
  eapply wp_mono; [apply (iunlock_spec s V bl ∅ ip n); try done; lia|].
  intros _ s' (Hok' & Hf & Ei). set (m := set_i_lock _ n) in Ei.
  destruct (itable_update V (k_sb s) (cur_pid s) (Some ip) None (k_inodes s) ip n m) as [Ht' Hr']; try done; auto.
  - exact (ic_ref _ (it_ok _ _ _ _ _ Ht) _ _ Hn).
  - rewrite <- Ei in Ht', Hr'. split_and!; [done|done|done| | |].
    + intros j y (k & Hk & Hky). destruct (decide (ip = j)) as [->|Hne]; [|exists k; by rewrite Ei, list_lookup_insert_ne].
      simplify_eq. exists m. rewrite Ei. split; [by apply list_lookup_insert_eq|exact Hky].
    + by rewrite Ei, length_insert.
    + intros y. rewrite Hr'. destruct (decide (y = i_inum n)) as [->|]; [|done].
      symmetry. apply (refs_entry _ _ ip n); [by eapply it_ok|done|by split_and!].
Qed.

Lemma put_spec s V bl ip x :
  tx s V bl ∅ -> itable V (k_sb s) (cur_pid s) None (k_inodes s) -> entry_at (k_inodes s) ip x ->
  wp (iput ip) s (fun _ s' => tx s' V bl ∅ /\ fframe s s' /\ itable V (k_sb s) (cur_pid s) None (k_inodes s') /\
    (forall j y, entry_at (k_inodes s) j y -> 0 < refs (k_inodes s') y -> entry_at (k_inodes s') j y) /\
    length (k_inodes s') = length (k_inodes s) /\
    forall y, refs (k_inodes s') y = refs (k_inodes s) y - if decide (y = x) then 1 else 0).
Proof.
  intros Hok Ht (n & Hn & He). pose proof He as (Hp & Hd & Hi). pose proof (lookup_lt_Some _ _ _ Hn) as Hlt.
  pose proof (it_ok _ _ _ _ _ Ht) as Hic. pose proof (ic_ref _ Hic _ _ Hn) as Hr.
  destruct (it_entry _ _ _ _ _ Ht _ _ Hn Hp) as (_ & (_ & _ & Hlink) & Hco).
  eapply wp_mono; [apply (iput_spec s V bl ∅ ip n); try done; [lia|by eapply it_free|]|].
  { intros Hv H0. exfalso. apply Hlink. rewrite <- (Hco Hv). exact H0. }
  intros _ s' (Hok' & Hf & Ei). set (m := set_i_ref _ _) in Ei.
  destruct (itable_update V (k_sb s) (cur_pid s) None None (k_inodes s) ip n m) as [Ht' Hr']; try done; auto.
  { unfold m. simpl. lia. }
  rewrite <- Ei in Ht', Hr'. rewrite Hi in Hr'. split_and!; [done|done|done| | |].
  - intros j y (k & Hk & Hky) Hy. destruct (decide (ip = j)) as [->|Hne].
    + simplify_eq. exists m. rewrite Ei. split; [by apply list_lookup_insert_eq|]. destruct Hky as (_ & _ & <-).
      rewrite Hr', decide_True in Hy by done. by split_and!.
    + exists k. by rewrite Ei, list_lookup_insert_ne.
  - by rewrite Ei, length_insert.
  - intros y. rewrite Hr'. destruct (decide (y = x)) as [->|]; [|lia]. by rewrite (refs_entry _ x ip n) by done.
Qed.

Lemma find_same_name name e l : fname name = fname e -> list_find (de_match name) l = list_find (de_match e) l.
Proof. intros E. apply list_find_ext. intros de. unfold de_match. by rewrite E. Qed.

Lemma search_spec s V bl ip x name e :
  tx s V bl ∅ -> fs_geo s -> (length bl < NBUF)%nat -> tree_ok V (k_sb s) ->
  itable V (k_sb s) (cur_pid s) (Some ip) (k_inodes s) -> entry_at (k_inodes s) ip x ->
  di_type (disk_inode V (k_sb s) x) = T_DIR -> Forall is_byte name -> fname name = fname e ->
  Forall (fun m => i_ref m < 2 ^ 31 - 1) (k_inodes s) -> Exists (fun m => i_ref m = 0) (k_inodes s) ->
  wp (dirlookup ip name) s (fun r s' => tx s' V bl ∅ /\ fframe s s' /\
    itable V (k_sb s) (cur_pid s) (Some ip) (k_inodes s') /\ entry_at (k_inodes s') ip x /\
    length (k_inodes s') = length (k_inodes s) /\
    match list_find (de_match e) (dir_entries V (disk_inode V (k_sb s) x)) with
    | None => r = None /\ forall y, refs (k_inodes s') y = refs (k_inodes s) y
    | Some (_, de) => live V (k_sb s) (de_inum de) /\
        (exists next off, r = Some (next, off) /\ entry_at (k_inodes s') next (de_inum de)) /\
        forall y, refs (k_inodes s') y = refs (k_inodes s) y + if decide (y = de_inum de) then 1 else 0
    end).
Proof.
  intros Hok Hg Hroom Htree Ht Hat Htype Hname Hfn Hmax Hex. destruct (Hat) as (n & Hn & (Hp & Hd & Hi)).
  destruct (locked_inode _ _ _ _ _ _ Ht Hn) as [Hlive Edi]. rewrite Hi in Hlive, Edi.
  destruct (tk_dir _ _ Htree x Hlive Htype) as (Hfile & Hsize & Hents). rewrite <- Edi in Hfile, Hsize, Hents.
  eapply wp_mono; [apply (dirlookup_spec s V bl ip n name); [|done|by eapply it_ok|done|done]|].
  { split; try done. by rewrite <- Htype, <- Edi. }
  intros r s' (Hok' & Hf & Hr). rewrite drop_0, (find_same_name _ e) in Hr by done. rewrite <- Edi.
  change (dir_entries V (dinode_of n)) with (dirents V (i_addrs n) (i_size n)) in *.
  destruct (list_find (de_match e) (dirents V (i_addrs n) (i_size n))) as [[j de]|] eqn:E.
  - apply list_find_Some in E as (Hj & [Hin0 _] & _). apply list_elem_of_lookup_2, Hents in Hj; [|done].
    destruct Hr as (next & -> & Hgot & Hic). destruct (itable_igot _ _ _ _ _ _ _ _ Ht Hgot Hic Hj) as (Ht' & Hnx & Hlen & Hkeep & Hrefs).
    split_and!; try done; [by apply Hkeep|]. by eexists _, _.
  - destruct Hr as [-> Ei]. rewrite Ei. by split_and!.
Qed.

(** What [namex] leaves: the reference it returns and no other. *)
Definition namex_post s V bl (t0 : list inode) (parent : bool) (x : Z) (es : list (list Z)) (r : option nat * list Z) s' : Prop :=
  let target := path_target V (k_sb s) parent x es in
  tx s' V bl ∅ /\ fframe s s' /\ itable V (k_sb s) (cur_pid s) None (k_inodes s') /\ refs_plus t0 (k_inodes s') target /\
  match target with
  | None => fst r = None
  | Some y => exists ip, fst r = Some ip /\ entry_at (k_inodes s') ip y
  end /\
  (parent = true -> target <> None -> exists e, last es = Some e /\ fname (snd r) = fname e).

(** Along the first of several elements. *)
Lemma path_target_step V sb parent x e es :
  parent = false \/ es <> [] ->
  path_target V sb parent x (e :: es) =
    if di_type (disk_inode V sb x) =? T_DIR then
      match list_find (de_match e) (dir_entries V (disk_inode V sb x)) with
      | Some (_, de) => path_target V sb parent (de_inum de) es
      | None => None
      end
    else None.
Proof.
  intros Hc. unfold path_target. destruct parent; [|done]. destruct es as [|e' es]; [by destruct Hc|].
  change (removelast (e :: e' :: es)) with (e :: removelast (e' :: es)). cbn [walk].
  destruct (_ =? _); [|done]. destruct (list_find _ _) as [[j de]|]; done.
Qed.

Lemma path_target_last V sb x e :
  path_target V sb true x [e] = if di_type (disk_inode V sb x) =? T_DIR then Some x else None.
Proof. done. Qed.

Lemma path_target_nodir V sb parent x e es :
  di_type (disk_inode V sb x) <> T_DIR -> path_target V sb parent x (e :: es) = None.
Proof.
  intros Hn%Z.eqb_neq. destruct parent, es as [|e' es]; rewrite ?path_target_last, ?path_target_step by auto; by rewrite Hn.
Qed.

(** Unlocking and dropping the reference to [x]. *)
Lemma drop_spec s V bl t0 ip x oc :
  tx s V bl ∅ -> itable V (k_sb s) (cur_pid s) (Some ip) (k_inodes s) -> entry_at (k_inodes s) ip x ->
  icache_ok t0 -> length (k_inodes s) = length t0 ->
  (forall y, refs (k_inodes s) y = refs t0 y + (if decide (oc = Some y) then 1 else 0) + if decide (y = x) then 1 else 0) ->
  wp (iunlockput ip) s (fun _ s' => tx s' V bl ∅ /\ fframe s s' /\ itable V (k_sb s) (cur_pid s) None (k_inodes s') /\
    refs_plus t0 (k_inodes s') oc /\
    forall j y, oc = Some y -> entry_at (k_inodes s) j y -> entry_at (k_inodes s') j y).
Proof.
  intros Hok Ht Hat Hic Hlen Hrefs. unfold iunlockput. apply wp_bind. eapply wp_mono; [by apply (unlock_spec s V bl ip x)|].
  intros _ s1 (Hok1 & Hf1 & Ht1 & Hk1 & Hlen1 & Hr1). eapply wp_mono.
  { apply (put_spec s1 V bl ip x); [done| |by apply Hk1]. by rewrite (ff_sb Hf1), (ff_pid Hf1). }
  intros _ s2 (Hok2 & Hf2 & Ht2 & Hk2 & Hlen2 & Hr2). rewrite (ff_sb Hf1), (ff_pid Hf1) in Ht2.
  assert (forall y, refs (k_inodes s2) y = refs t0 y + if decide (oc = Some y) then 1 else 0) as Hr.
  { intros y. rewrite Hr2, Hr1, Hrefs. lia. }
  split_and!; [done|by etrans|done|by split; [congruence|]|].
  intros j y -> Hj. apply Hk2; [by apply Hk1|]. rewrite Hr, decide_True by done.
  pose proof (refs_nonneg t0 y Hic). lia.
Qed.

(** The precondition of the loop: a reference to [x] is held at [ip]. *)
Record at_inode s V bl (t0 : list inode) (ip : nat) (x : Z) : Prop := {
  an_tx : tx s V bl ∅;
  an_geo : fs_geo s;
  an_bufs : (length bl < NBUF)%nat;
  an_tree : tree_ok V (k_sb s);
  an_table : itable V (k_sb s) (cur_pid s) None (k_inodes s);
  an_room : roomy t0;
  an_entry : entry_at (k_inodes s) ip x;
  an_refs : refs_plus t0 (k_inodes s) (Some x);
}.

Lemma namex_post_frame s s1 V bl t0 parent x es r s' target :
  fframe s s1 -> target = path_target V (k_sb s) parent x es ->
  tx s' V bl ∅ -> fframe s1 s' -> itable V (k_sb s1) (cur_pid s1) None (k_inodes s') -> refs_plus t0 (k_inodes s') target ->
  match target with None => fst r = None | Some y => exists ip, fst r = Some ip /\ entry_at (k_inodes s') ip y end ->
  (parent = true -> target <> None -> exists e, last es = Some e /\ fname (snd r) = fname e) ->
  namex_post s V bl t0 parent x es r s'.
Proof.
  intros Hf -> ? ? Ht ? ? ?. rewrite (ff_sb Hf), (ff_pid Hf) in Ht. unfold namex_post. split_and!; try done. by etrans.
Qed.

(** The exit with a null pointer. *)
Lemma namex_fail s s1 V bl t0 ip parent x es name :
  tx s1 V bl ∅ -> fframe s s1 -> itable V (k_sb s1) (cur_pid s1) (Some ip) (k_inodes s1) -> entry_at (k_inodes s1) ip x ->
  icache_ok t0 -> refs_plus t0 (k_inodes s1) (Some x) -> path_target V (k_sb s) parent x es = None ->
  wp (iunlockput ip ;; ret (None, name)) s1 (namex_post s V bl t0 parent x es).
Proof.
  intros Hok Hf Ht Hat Hic [Hlen Hr] Htar. apply wp_bind. eapply wp_mono; [apply (drop_spec s1 V bl t0 ip x None); try done|].
  { intros y. rewrite Hr. repeat case_decide; simplify_eq; lia. }
  intros _ s2 (Hok2 & Hf2 & Ht2 & Hh2 & _). apply wp_ret. by eapply (namex_post_frame s s1).
Qed.

(** The directory [x] is locked: the search for its entry [e], and what
    follows from there. *)
Lemma namex_descend s s1 V bl t0 ip parent x e es name (next : nat -> K (option nat * list Z)) :
  tx s1 V bl ∅ -> fframe s s1 -> fs_geo s1 -> (length bl < NBUF)%nat -> tree_ok V (k_sb s1) -> roomy t0 ->
  itable V (k_sb s1) (cur_pid s1) (Some ip) (k_inodes s1) -> entry_at (k_inodes s1) ip x ->
  refs_plus t0 (k_inodes s1) (Some x) -> di_type (disk_inode V (k_sb s1) x) = T_DIR ->
  Forall is_byte name -> fname name = fname e -> parent = false \/ es <> [] ->
  (forall s2 i y, at_inode s2 V bl t0 i y -> wp (next i) s2 (namex_post s2 V bl t0 parent y es)) ->
  wp (r <- dirlookup ip name ;;
      match r with
      | None => iunlockput ip ;; ret (None, name)
      | Some (i, _) => iunlockput ip ;; next i
      end) s1 (namex_post s V bl t0 parent x (e :: es)).
Proof.
  intros Hok Hf Hg Hroom Htree Hrm Ht Hat Hh Htype Hb Hfn Hgo Hnext. pose proof (rm_ok _ Hrm) as Hic.
  assert (path_target V (k_sb s) parent x (e :: es) =
    match list_find (de_match e) (dir_entries V (disk_inode V (k_sb s1) x)) with
    | Some (_, de) => path_target V (k_sb s) parent (de_inum de) es | None => None end) as Htar.
  { by rewrite path_target_step, <- (ff_sb Hf), Htype by done. }
  apply wp_bind. eapply wp_mono; [apply (search_spec s1 V bl ip x name e); try done|].
  { by eapply refs_plus_max. }
  { by eapply refs_plus_room. }
  intros r s2 (Hok2 & Hf2 & Ht2 & Hat2 & Hlen2 & Hr). rewrite <- (ff_sb Hf2), <- (ff_pid Hf2) in Ht2. destruct Hh as [Hlen Hrefs].
  assert (fframe s s2) as Hf02 by by etrans.
  destruct (list_find _ _) as [[j de]|].
  2: { destruct Hr as [-> Hr]. apply (namex_fail s s2); try done. split; [congruence|]. intros y. by rewrite Hr. }
  destruct Hr as (Hlive & (i & off & -> & Hi) & Hr). apply wp_bind.
  eapply wp_mono; [apply (drop_spec s2 V bl t0 ip x (Some (de_inum de))); try done; [congruence|]|].
  { intros y. rewrite Hr, Hrefs. repeat case_decide; simplify_eq; lia. }
  intros _ s3 (Hok3 & Hf3 & Ht3 & Hh3 & Hk3). rewrite <- (ff_sb Hf3), <- (ff_pid Hf3) in Ht3.
  assert (fframe s s3) as Hf03 by by etrans. assert (fframe s1 s3) as Hf13 by by etrans.
  eapply wp_mono; [apply (Hnext s3 i (de_inum de))|].
  - split; try done; [by eapply fs_geo_frame|by rewrite (ff_sb Hf13)|by apply Hk3].
  - intros r s4 (Hok4 & Hf4 & Ht4 & Hh4 & Hr4 & Hn4). rewrite (ff_sb Hf03) in *.
    apply (namex_post_frame s s3 _ _ _ _ _ _ _ _ _ Hf03 (eq_sym Htar)); try done. { by rewrite (ff_sb Hf03). }
    intros Hp Hne. destruct (Hn4 Hp Hne) as (e' & He' & Hfn'). exists e'. split; [|done]. by destruct es.
Qed.

Lemma namex_loop_spec k s V bl t0 ip x path parent name :
  at_inode s V bl t0 ip x -> 0 ∉ path -> Forall is_byte path -> length name = Z.to_nat DIRSIZ -> Forall is_byte name ->
  (length path <= k)%nat ->
  wp (namex_loop k ip path parent name) s (namex_post s V bl t0 parent x (elems path)).
Proof.
  revert s ip x path name. induction k as [|k IH]; intros s ip x path name Han H0 Hbp Hname Hbn Hk.
  all: pose proof Han as [Hok Hg Hroom Htree Ht Hrm Hat Hh]; cbn [namex_loop];
    pose proof (skipelem_spec path name H0 Hbp Hname Hbn) as Hsk; destruct (skipelem path name) as [[rest name']|].
  2, 4: rewrite Hsk; destruct parent; cbn [path_target walk];
    [apply wp_bind; eapply wp_mono; [by apply (put_spec s V bl ip x)|];
     intros _ s1 (Hok1 & Hf1 & Ht1 & _ & Hlen1 & Hr1); apply wp_ret; split_and!; try done;
     destruct Hh as [Hl Hr]; split; [congruence|]; intros y; rewrite Hr1, Hr;
     repeat case_decide; simplify_eq; lia
    |apply wp_ret; split_and!; try done; by exists ip].
  - destruct Hsk as (e & _ & _ & _ & _ & _ & Hlt & _). lia.
  - destruct Hsk as (e & Ee & Hfn & Hl' & Hb' & Hhd & Hlt & H0' & Hbr). rewrite Ee.
    assert (elems rest = [] -> rest = []) as Hnil by by apply elems_nil.
    apply wp_bind. eapply wp_mono; [by apply lock_spec|]. intros _ s1 (Hok1 & Hf1 & Ht1 & Hat1 & Hlen1 & Hr1).
    rewrite <- (ff_sb Hf1), <- (ff_pid Hf1) in Ht1. pose proof (fs_geo_frame _ _ Hf1 Hg) as Hg1.
    assert (refs_plus t0 (k_inodes s1) (Some x)) as Hh1.
    { destruct Hh as [Hl Hr]. split; [congruence|]. intros y. by rewrite Hr1. }
    apply wp_bind. eapply wp_run; [apply get_inode_run|]. destruct (Hat1) as (n & Hn & (Hp & Hd & Hi)).
    destruct (locked_inode _ _ _ _ _ _ Ht1 Hn) as [_ Edi]. rewrite (list_lookup_total_correct _ _ _ Hn).
    change (i_type n) with (di_type (dinode_of n)). rewrite Edi, Hi, (ff_sb Hf1).
    destruct (Z.eqb_spec (di_type (disk_inode V (k_sb s) x)) T_DIR) as [Htype|Htype]; cbn [negb].
    2: { apply (namex_fail s s1); try done; [apply Hrm|by apply path_target_nodir]. }
    destruct (parent && (length rest =? 0)%nat) eqn:Elast.
    + apply andb_true_iff in Elast as [-> Elast%Nat.eqb_eq]. destruct rest; [|done].
      apply wp_bind. eapply wp_mono; [by apply (unlock_spec s1 V bl ip x)|].
      intros _ s2 (Hok2 & Hf2 & Ht2 & Hk2 & Hlen2 & Hr2). apply wp_ret.
      apply (namex_post_frame s s1 _ _ _ _ _ _ _ _ (Some x)); try done.
      * cbn [elems elems_from decide]. by rewrite path_target_last, Htype.
      * destruct Hh1 as [Hl Hr]. split; [congruence|]. intros y. by rewrite Hr2.
      * exists ip. split; [done|by apply Hk2].
      * intros _ _. by exists e.
    + assert (parent = false \/ elems rest <> []) as Hgo.
      { destruct parent; [right|by left]. intros ->%Hnil. done. }
      apply (namex_descend s s1); try done; [by rewrite (ff_sb Hf1)|by rewrite (ff_sb Hf1)|].
      intros s2 i y Han2. apply IH; try done. lia.
Qed.

(** The inode a path starts from: the root, or the current directory. *)
Definition path_start s (path : list Z) (x : Z) : Prop :=
  if decide (head path = Some slash) then x = ROOTINO
  else exists i d n, k_cur s = Some i /\ p_cwd (k_proc s !!! i) = Some d /\ k_inodes s !! d = Some n /\ entry_for 1 x n.

Lemma idup_spec s V bl pid d x :
  tx s V bl ∅ -> itable V (k_sb s) pid None (k_inodes s) -> entry_at (k_inodes s) d x ->
  Forall (fun n => i_ref n < 2 ^ 31 - 1) (k_inodes s) ->
  exists t, idup d s = Ret d (set_k_inodes t s) /\ itable V (k_sb s) pid None t /\ entry_at t d x /\
    refs_plus (k_inodes s) t (Some x).
Proof.
  intros Hok Ht (n & Hn & He) Hmax. pose proof He as (Hp & Hd & Hi). pose proof (lookup_lt_Some _ _ _ Hn) as Hlt.
  pose proof (Forall_lookup_1 _ _ _ _ Hmax Hn) as Hm. cbv beta in Hm. pose proof (it_ok _ _ _ _ _ Ht) as Hic.
  set (m := set_i_ref (i_ref n + 1) n). exists (<[d := m]> (k_inodes s)). split.
  { unfold idup, upd_inode. krun. pose proof (quiet_not_held _ L_icache (tx_quiet _ _ _ _ Hok)) as Hh.
    rewrite acquire_run by done. cbn [res_bind]. kproj. rewrite (release_head _ (k_held s)) by done. cbn [res_bind]. kproj.
    rewrite (alter_is_insert _ _ _ _ Hn), i32_small by lia. done. }
  destruct (itable_update V (k_sb s) pid None None (k_inodes s) d n m) as [Ht' Hr']; try done; auto.
  { unfold m. simpl. lia. }
  { exact (proj2 (proj2 (it_entry _ _ _ _ _ Ht _ _ Hn Hp))). }
  { left. split; [done|]. exact (it_free _ _ _ _ _ Ht _ _ Hn ltac:(done)). }
  split_and!; [done| |].
  - exists m. split; [by apply list_lookup_insert_eq|]. split_and!; [unfold m; simpl; lia|done|done].
  - split; [by rewrite length_insert|]. intros y. rewrite Hr', Hi. pose proof (refs_entry _ x d n Hic Hn He) as E.
    repeat case_decide; simplify_eq; [|lia]. unfold m. simpl. lia.
Qed.

Lemma start_spec s V bl path x :
  tx s V bl ∅ -> tree_ok V (k_sb s) -> itable V (k_sb s) (cur_pid s) None (k_inodes s) -> roomy (k_inodes s) ->
  path_start s path x ->
  exists ip t, (match head path with
         | Some 47 => iget ROOTDEV ROOTINO
         | _ => i <- curproc ;;
                p <- get_proc i ;;
                match p_cwd p with Some d => idup d | None => null_deref end
         end) s = Ret ip (set_k_inodes t s) /\
    itable V (k_sb s) (cur_pid s) None t /\ entry_at t ip x /\ refs_plus (k_inodes s) t (Some x).
Proof.
  intros Hok Htree Ht Hrm Hst. pose proof (quiet_not_held _ L_icache (tx_quiet _ _ _ _ Hok)) as Hh.
  assert (Forall (fun n => i_ref n < 2 ^ 31 - 1) (k_inodes s)) as Hmax.
  { eapply Forall_impl; [apply (rm_max _ Hrm)|]. cbv beta. lia. }
  unfold path_start in Hst. destruct (decide _) as [Hroot|Hrel].
  - rewrite Hroot, Hst. destruct (iget_spec s 1 ROOTINO Hh (rm_ok _ Hrm) Hmax) as (i & t & Hrun & Hgot & Hic).
    { pose proof (rm_free _ Hrm) as Hf. destruct (filter _ (k_inodes s)) as [|n l] eqn:E; [simpl in Hf; lia|].
      assert (n ∈ filter (fun n => i_ref n = 0) (k_inodes s)) as [H0 Hn]%list_elem_of_filter by (rewrite E; by left).
      apply Exists_exists. exists n. auto. }
    destruct (itable_igot _ _ _ _ _ _ _ _ Ht Hgot Hic (tk_root _ _ Htree)) as (Ht' & Hat & Hlen & _ & Hrefs).
    exists i, t. split_and!; [exact Hrun|done|done|]. split; [done|]. intros y. rewrite Hrefs.
    repeat case_decide; congruence.
  - destruct Hst as (i & d & n & Hcur & Hcwd & Hn & He).
    destruct (idup_spec s V bl (cur_pid s) d x Hok Ht ltac:(by exists n) Hmax) as (t & Hrun & Ht').
    exists d, t. split; [|exact Ht']. rewrite <- Hrun.
    assert ((i <- curproc ;; p <- get_proc i ;; match p_cwd p with Some d => idup d | None => null_deref end) s = idup d s) as E.
    { unfold bind. rewrite (curproc_run i) by done. unfold get_proc, gets. cbn [res_bind]. by rewrite Hcwd. }
    rewrite <- E. destruct path as [|c path]; [done|]. cbn [head] in *. by repeat (case_match; try done).
Qed.

(** C3: [namex] resolves a path to the inode that the walk along the
    directories on the disk reaches from its starting point; for
    [nameiparent], to the directory of the last element, whose name it leaves
    in [name].  It changes no block, and of all the references it takes on
    the way only the one it returns remains. *)
Theorem namex_correct s V bl path parent name x :
  tx s V bl ∅ -> fs_geo s -> (length bl < NBUF)%nat -> tree_ok V (k_sb s) ->
  itable V (k_sb s) (cur_pid s) None (k_inodes s) -> roomy (k_inodes s) ->
  0 ∉ path -> Forall is_byte path -> length name = Z.to_nat DIRSIZ -> Forall is_byte name -> path_start s path x ->
  let target := path_target V (k_sb s) parent x (elems path) in
  exists oi name' s', namex path parent name s = Ret (oi, name') s' /\ tx s' V bl ∅ /\ fframe s s' /\
    itable V (k_sb s) (cur_pid s) None (k_inodes s') /\
    (forall y, refs (k_inodes s') y = refs (k_inodes s) y + if decide (target = Some y) then 1 else 0) /\
    match target with
    | None => oi = None
    | Some y => exists ip, oi = Some ip /\ entry_at (k_inodes s') ip y
    end /\
    (parent = true -> target <> None -> exists e, last (elems path) = Some e /\ fname name' = fname e).
Proof.
  intros Hok Hg Hroom Htree Ht Hrm H0 Hbp Hname Hbn Hst target.
  destruct (start_spec s V bl path x Hok Htree Ht Hrm Hst) as (ip & t & Hrun & Ht1 & Hat & Hr).
  assert (exists r s', namex path parent name s = Ret r s' /\ namex_post s V bl (k_inodes s) parent x (elems path) r s')
    as ([oi name'] & s' & Hrun' & Hok' & Hf & Ht' & [_ Hrefs] & Hres & Hn).
  { apply wp_inv. unfold namex. apply wp_bind. eapply wp_run; [exact Hrun|].
    eapply wp_mono; [apply (namex_loop_spec _ _ V bl (k_inodes s) ip x); try done|].
    - split; try done; [by apply tx_inodes|]. by split; destruct Hg.
    - intros r s' (Hok' & Hf & Ht' & Hr' & Hres & Hn).
      exact (conj Hok' (conj (transitivity (fframe_inodes t s) Hf) (conj Ht' (conj Hr' (conj Hres Hn))))). }
  exists oi, name', s'. by split_and!.
Qed.

End namex_proofs.

(** ** The theorem on a small disk *)

#[local] Instance demo_fuel : Fuel := 0%nat.

(** [tree_ok], decided. *)
Definition liveb (V : Z -> block) (sb : superblock) (i : Z) : bool :=
  (0 <=? i) && (i <? sb_ninodes sb) && negb (di_type (disk_inode V sb i) =? 0) && negb (di_nlink (disk_inode V sb i) =? 0).
Definition tree_okb (V : Z -> block) (sb : superblock) : bool :=
  liveb V sb ROOTINO &&
  forallb (fun i => let di := disk_inode V sb i in
    if liveb V sb i && (di_type di =? T_DIR) then
      file_okb V sb (di_addrs di) (di_size di) && (di_size di mod 16 =? 0) &&
      forallb (fun de => (de_inum de =? 0) || liveb V sb (de_inum de)) (dir_entries V di)
    else true) (seqZ 0 (sb_ninodes sb)).

Lemma liveb_ok V sb i : liveb V sb i = true <-> live V sb i.
Proof. unfold liveb, live. rewrite !andb_true_iff, !negb_true_iff, Z.leb_le, Z.ltb_lt, !Z.eqb_neq. tauto. Qed.

Lemma tree_okb_ok V sb : tree_okb V sb = true -> tree_ok V sb.
Proof.
  unfold tree_okb. rewrite andb_true_iff, liveb_ok, forallb_forall. intros [Hroot Hall]. split; [done|].
  intros i Hlive di Ht. specialize (Hall i). cbv zeta in Hall. fold di in Hall.
  rewrite (proj2 (liveb_ok V sb i) Hlive), (proj2 (Z.eqb_eq _ _) Ht) in Hall. cbn [andb] in Hall.
  rewrite !andb_true_iff, forallb_forall in Hall. destruct Hall as [[Hf Hs] He].
  { apply list_elem_of_In, elem_of_seqZ. destruct Hlive. lia. }
  split_and!; [by apply file_okb_ok|by apply Z.eqb_eq|]. intros de Hde Hne.
  apply list_elem_of_In, He, orb_true_iff in Hde as [?|?]; [lia|]. by apply liveb_ok.
Qed.

(** No inode is in use yet. *)
Definition demo_idle : kernel := set_k_inodes (replicate NINODE inode_zero) demo_fs.

Lemma demo_idle_lookup i n : k_inodes demo_idle !! i = Some n -> n = inode_zero.
Proof. unfold demo_idle. kproj. intros Hn. by apply lookup_replicate in Hn as [-> _]. Qed.

(** "//f" names inode 2, to which there is one reference afterwards. *)
Lemma namex_correct_witness :
  exists ip name' s', namex (chars "//f") false (replicate 14 0) demo_idle = Ret (Some ip, name') s' /\ refs (k_inodes s') 2 = 1.
Proof.
  destruct (namex_correct demo_idle demo_disk [] (chars "//f") false (replicate 14 0) 1) as (oi & name' & s' & Hrun & _ & _ & _ & Hr & Hres & _).
  - exact (tx_inodes _ _ _ _ _ demo_fs_tx).
  - split; vm_compute; (done || lia).
  - vm_compute. lia.
  - apply tree_okb_ok. by vm_compute.
  - split.
    + apply icache_okb_ok. by vm_compute.
    + intros i n ->%demo_idle_lookup. done.
    + intros i n ->%demo_idle_lookup. done.
    + done.
  - split; [apply icache_okb_ok; by vm_compute| | |vm_compute; lia].
    + apply Forall_lookup. intros i n ->%demo_idle_lookup. done.
    + apply Forall_lookup. intros i n ->%demo_idle_lookup. done.
  - apply (bool_decide_eq_false (0 ∈ chars "//f")). by vm_compute.
  - repeat (constructor; [by vm_compute|]). constructor.
  - done.
  - repeat (constructor; [by vm_compute|]). constructor.
  - done.
  - assert (path_target demo_disk (k_sb demo_idle) false 1 (elems (chars "//f")) = Some 2) as E by by vm_compute.
    rewrite E in Hres. destruct Hres as (ip & -> & _). exists ip, name', s'. split; [exact Hrun|]. rewrite Hr, E. by vm_compute.
Defined.
