(* ===== verification/Line.v ===== *)
(** * The console's line discipline (console.c)

    The circular input buffer as two queues of characters: the lines that are
    complete, for [consoleread] to take, and the line being edited, which
    backspace and control-U still change. *)

From stdpp Require Import base numbers list option strings gmap.
From S2P Require Import Prelude Kernel Fields Spinlock Proc Cprintf Cstring Bytes Sleeplock Dll Bio Log Txn Inode Console Fs Path.

(** ** The abstract line discipline *)

(** Complete lines and the line being edited. *)
Definition tty : Type := list Z * list Z.

Definition ends_line (c : Z) : bool := (c =? 10) || (c =? 4).

(** A key that is not for editing; carriage return is newline. *)
Definition line_char (c : Z) (t : tty) : tty :=
  let c := if c =? 13 then 10 else c in
  let cur := t.2 ++ [c] in
  if ends_line c || (length (t.1 ++ cur) =? 128)%nat then (t.1 ++ cur, []) else (t.1, cur).

Definition accepts (c : Z) (t : tty) : bool := negb (c =? 0) && (length (t.1 ++ t.2) <? 128)%nat.

Definition line_step (t : tty) (c : Z) : tty :=
  if c =? 16 then t
  else if c =? 21 then (t.1, [])
  else if (c =? 8) || (c =? 127) then (t.1, removelast t.2)
  else if accepts c t then line_char c t else t.

(** What is echoed to the serial port. *)
Definition line_echo (t : tty) (c : Z) : list Z :=
  if c =? 16 then []
  else if c =? 21 then mjoin (replicate (length t.2) [8; 32; 8])
  else if (c =? 8) || (c =? 127) then (if decide (t.2 = []) then [] else [8; 32; 8])
  else if accepts c t then [if c =? 13 then 10 else c] else [].

Fixpoint echoes (t : tty) (l : list Z) : list Z :=
  match l with [] => [] | c :: l => line_echo t c ++ echoes (line_step t c) l end.

(** A read of [n] characters: up to the end of a line; control-D ends it too,
    and stays for the next read unless nothing has been taken. *)
Fixpoint line_read (n : nat) (first : bool) (d : list Z) : list Z * list Z :=
  match n, d with
  | S n', c :: d' =>
      if c =? 4 then ([], if first then d' else d)
      else if c =? 10 then ([c], d')
      else let (l, r) := line_read n' false d' in (c :: l, r)
  | _, _ => ([], d)
  end.

(** A read of [n] characters does not have to wait. *)
Definition line_ready (n : nat) (d : list Z) : Prop := (n <= length d)%nat \/ Exists (fun c => ends_line c = true) d.

(** ** The circular buffer *)

Record holds_tty (n : input) (t : tty) : Prop := {
  ht_buf : length (in_buf n) = 128%nat;
  ht_r : 0 <= in_r n < 2 ^ 32;
  ht_w : in_w n = u32 (in_r n + Z.of_nat (length t.1));
  ht_e : in_e n = u32 (in_r n + Z.of_nat (length (t.1 ++ t.2)));
  ht_room : (length (t.1 ++ t.2) <= 128)%nat;
  ht_chars : forall k c, (t.1 ++ t.2) !! k = Some c -> in_char n (in_r n + Z.of_nat k) = c;
}.

Lemma ring_index i k : u32 (i + k) mod INPUT_BUF = (i + k) mod INPUT_BUF.
Proof. unfold u32, INPUT_BUF. Z.div_mod_to_equations. lia. Qed.

Lemma ring_distance i k : 0 <= k <= 128 -> u32 (u32 (i + k) - i) = k.
Proof. intros Hk. unfold u32. Z.div_mod_to_equations. lia. Qed.

Lemma ring_eq i j k : 0 <= j <= 128 -> 0 <= k <= 128 -> (u32 (i + j) =? u32 (i + k)) = (j =? k).
Proof.
  intros Hj Hk. destruct (Z.eqb_spec j k) as [->|Hne]; [apply Z.eqb_refl|]. apply Z.eqb_neq. intros E. apply Hne.
  rewrite <- (ring_distance i j), <- (ring_distance i k), E by done. done.
Qed.

(** The tests of the code. *)
Lemma editing_test n t : holds_tty n t -> (in_e n =? in_w n) = bool_decide (t.2 = []).
Proof.
  intros [_ _ -> -> Hroom _]. rewrite length_app in *. rewrite ring_eq by lia.
  destruct t as [d [|c cur]]; simpl in *; [apply Z.eqb_eq; lia|apply Z.eqb_neq; lia].
Qed.

Lemma empty_input_test n t : holds_tty n t -> (in_r n =? in_w n) = bool_decide (t.1 = []).
Proof.
  intros [_ Hr -> _ Hroom _]. rewrite length_app in Hroom. pose proof (ring_eq (in_r n) 0 (Z.of_nat (length t.1)) ltac:(lia) ltac:(lia)) as E.
  rewrite Z.add_0_r, (u32_small (in_r n)) in E by lia. rewrite E. by destruct (t.1).
Qed.

Lemma room_test n t : holds_tty n t -> (u32 (in_e n - in_r n) <? INPUT_BUF) = (length (t.1 ++ t.2) <? 128)%nat.
Proof.
  intros [_ _ _ -> Hroom _]. rewrite ring_distance by lia. unfold INPUT_BUF.
  destruct (Nat.ltb_spec (length (t.1 ++ t.2)) 128); [apply Z.ltb_lt|apply Z.ltb_ge]; lia.
Qed.

Lemma full_input_test n t :
  holds_tty n t -> (in_e n =? u32 (in_r n + INPUT_BUF)) = (length (t.1 ++ t.2) =? 128)%nat.
Proof.
  intros [_ _ _ -> Hroom _]. unfold INPUT_BUF. rewrite ring_eq by lia.
  destruct (Nat.eqb_spec (length (t.1 ++ t.2)) 128); [apply Z.eqb_eq|apply Z.eqb_neq]; lia.
Qed.

(** The last character of the buffer, where [in_e] points past. *)
Lemma last_char n t c : holds_tty n t -> last (t.1 ++ t.2) = Some c -> in_char n (in_e n - 1) = c.
Proof.
  intros [_ _ _ He _ Hch] Hl. rewrite last_lookup in Hl. pose proof (lookup_lt_Some _ _ _ Hl) as Hlt.
  rewrite <- (Hch _ _ Hl), He. unfold in_char. do 2 f_equal.
  unfold u32, INPUT_BUF. replace (Z.of_nat (Init.Nat.pred (length (t.1 ++ t.2)))) with (Z.of_nat (length (t.1 ++ t.2)) - 1) by lia.
  Z.div_mod_to_equations. lia.
Qed.

Lemma holds_un_char n t : holds_tty n t -> t.2 <> [] -> holds_tty (un_char n) (t.1, removelast t.2).
Proof.
  intros [Hb Hr Hw He Hroom Hch] Hne. destruct t as [d cur]. cbn [fst snd] in *.
  destruct (exists_last Hne) as (cur' & c & ->). rewrite removelast_last. rewrite app_assoc in *.
  rewrite length_app in Hroom, He. cbn [length] in *.
  split; cbn [fst snd]; unfold un_char; try done.
  - cbn [in_e set_in_e in_r]. rewrite He. unfold u32. Z.div_mod_to_equations. lia.
  - lia.
  - intros k c' Hk. apply (Hch k). by apply lookup_app_l_Some.
Qed.

Lemma holds_put_char n t c :
  holds_tty n t -> (length (t.1 ++ t.2) < 128)%nat -> is_byte c -> holds_tty (put_char c n) (t.1, t.2 ++ [c]).
Proof.
  intros [Hb Hr Hw He Hroom Hch] Hlt Hc. destruct t as [d cur]. cbn [fst snd] in *.
  split; cbn [fst snd]; unfold put_char; rewrite ?app_assoc; try done.
  - cbn. by rewrite length_insert.
  - cbn [in_e set_in_e in_r set_in_buf]. rewrite He, (length_app _ [c]). cbn [length]. unfold u32. Z.div_mod_to_equations. lia.
  - rewrite (length_app _ [c]). cbn [length]. lia.
  - intros k c' Hk. unfold in_char. cbn [in_buf in_r set_in_e set_in_buf]. rewrite ring_index.
    rewrite He, ring_index. pose proof (lookup_lt_Some _ _ _ Hk) as Hkl. rewrite length_app in Hkl. cbn [length] in Hkl.
    apply lookup_app_Some in Hk as [Hk|[Hge Hk]].
    + pose proof (lookup_lt_Some _ _ _ Hk). rewrite list_lookup_total_insert_ne.
      * specialize (Hch _ _ Hk). unfold in_char in Hch. by rewrite ring_index in Hch.
      * unfold INPUT_BUF in *. Z.div_mod_to_equations. lia.
    + apply list_lookup_singleton_Some in Hk as [Hk <-]. replace k with (length (d ++ cur)) by lia.
      rewrite list_lookup_total_insert_eq; [by apply u8_small|]. rewrite Hb. unfold INPUT_BUF. Z.div_mod_to_equations. lia.
Qed.

Lemma holds_commit n t : holds_tty n t -> holds_tty (set_in_w (in_e n) n) (t.1 ++ t.2, []).
Proof. intros [Hb Hr Hw He Hroom Hch]. split; cbn [fst snd]; rewrite ?app_nil_r; done. Qed.

Lemma holds_pop n c d cur :
  holds_tty n (c :: d, cur) -> in_char n (in_r n) = c /\ holds_tty (set_in_r (u32 (in_r n + 1)) n) (d, cur).
Proof.
  intros [Hb Hr Hw He Hroom Hch]. cbn [fst snd length app] in *. split.
  { rewrite <- (Hch 0%nat c eq_refl). by rewrite Z.add_0_r. }
  split; cbn [fst snd in_buf in_r in_w in_e set_in_r]; try done.
  - apply u32_range.
  - rewrite Hw. unfold u32. Z.div_mod_to_equations. lia.
  - rewrite He. unfold u32. Z.div_mod_to_equations. lia.
  - lia.
  - intros k c' Hk. rewrite <- (Hch (S k) c' Hk). unfold in_char. cbn [in_buf set_in_r]. do 2 f_equal.
    rewrite !ring_index. unfold u32, INPUT_BUF. Z.div_mod_to_equations. lia.
Qed.

Lemma kill_stop_test n d cur : holds_tty n (d, cur) -> 10 ∉ cur -> kill_stop n = bool_decide (cur = []).
Proof.
  intros Hh Hl. unfold kill_stop. rewrite (editing_test _ _ Hh). cbn [snd]. destruct cur as [|c0 cur0] eqn:Ec; [done|].
  rewrite <- Ec in *. rewrite (bool_decide_eq_false_2 (cur = [])) by congruence. cbn [orb].
  destruct (last cur) as [c|] eqn:El; [|by apply last_None in El; subst].
  rewrite (last_char n (d, cur) c Hh); [|cbn [fst snd]; by rewrite last_app, El].
  apply Z.eqb_neq. intros ->. apply Hl. by apply last_Some_elem_of.
Qed.

(** ** The interrupt handler *)

(** The input, the screen, the serial port and the process table change. *)
Definition typed (s s' : kernel) : Prop := exists i p, screen (set_k_proc p (set_k_input i s)) s'.

Lemma typed_refl s : typed s s.
Proof. exists (k_input s), (k_proc s). replace (set_k_proc _ _) with s by by destruct s. apply screen_refl. Qed.

Lemma typed_trans s1 s2 s3 : typed s1 s2 -> typed s2 s3 -> typed s1 s3.
Proof.
  intros (i & p & (o & c & q & ->)) (i' & p' & (o' & c' & q' & ->)). exists i', p', o', c', q'. by destruct s1.
Qed.

Lemma typed_input s i : typed s (set_k_input i s).
Proof. exists i, (k_proc s). replace (set_k_proc _ _) with (set_k_input i s) by by destruct s. apply screen_refl. Qed.

Lemma typed_proc s p : typed s (set_k_proc p s).
Proof. exists (k_input s), p. replace (set_k_input _ s) with s by by destruct s. apply screen_refl. Qed.

Lemma typed_screen s s' : screen s s' -> typed s s'.
Proof. intros H. exists (k_input s), (k_proc s). by replace (set_k_proc _ _) with s by by destruct s. Qed.

Lemma typed_held s s' : typed s s' -> k_held s' = k_held s.
Proof. by intros (i & p & (o & c & q & ->)). Qed.
Lemma typed_uart s s' : typed s s' -> k_uart s' = k_uart s.
Proof. by intros (i & p & (o & c & q & ->)). Qed.
Lemma screen_input s s' : screen s s' -> k_input s' = k_input s /\ k_proc s' = k_proc s.
Proof. by intros (o & c & q & ->). Qed.

(** The state [s] with the input [t]. *)
Record tty_ok (s : kernel) (t : tty) : Prop := {
  to_input : holds_tty (k_input s) t;
  to_line : 10 ∉ t.2;
  to_cursor : cursor_ok s;
  to_uart : k_uart s = true;
}.

(** Echoing a character after the input has changed. *)
Lemma echo_spec (f : input -> input) c s t t' :
  tty_ok s t -> holds_tty (f (k_input s)) t' ->
  wp (upd_input f ;; consputc c) s (fun _ s' => typed s s' /\ cursor_ok s' /\ k_uart s' = true /\
    k_input s' = f (k_input s) /\ k_proc s' = k_proc s /\ k_out s' = k_out s ++ uart_bytes c).
Proof.
  intros [_ _ Hc Hu] Hh. apply wp_bind. eapply wp_run; [reflexivity|]. eapply wp_mono; [by apply consputc_spec|].
  intros _ s' [[Hs Hc'] Ho]. destruct (screen_input _ _ Hs) as [Hi Hp]. change (k_out s' = if k_uart s then k_out s ++ uart_bytes c else k_out s) in Ho. rewrite Hu in Ho.
  assert (typed s s') as Hty by (eapply typed_trans; [apply typed_input|by apply typed_screen]).
  split_and!; try done. by rewrite (typed_uart _ _ Hty).
Qed.

Lemma kill_line_spec f s d cur :
  tty_ok s (d, cur) -> (length cur < f)%nat ->
  wp (kill_line f) s (fun _ s' => typed s s' /\ tty_ok s' (d, []) /\ k_proc s' = k_proc s /\
    k_out s' = k_out s ++ mjoin (replicate (length cur) [8; 32; 8])).
Proof.
  revert s cur. induction f as [|f IH]; intros s cur Hok Hf; [lia|]. cbn [kill_line].
  pose proof Hok as [Hh Hl Hc Hu]. cbn [fst snd] in *.
  apply wp_bind. eapply wp_run; [reflexivity|]. rewrite (kill_stop_test _ _ _ Hh Hl). destruct (decide (cur = [])) as [->|Hne].
  { rewrite bool_decide_eq_true_2 by done. apply wp_ret. split_and!; [apply typed_refl|done|done|by rewrite app_nil_r]. }
  rewrite bool_decide_eq_false_2 by done. apply wp_assoc. apply wp_bind.
  eapply wp_mono; [apply (echo_spec un_char BACKSPACE s (d, cur) (d, removelast cur)); [done|by apply (holds_un_char _ (d, cur))]|].
  intros _ s1 (Hty & Hc1 & Hu1 & Hi1 & Hp1 & Ho1). destruct (exists_last Hne) as (cur' & c & ->).
  rewrite length_app in *. cbn [length] in *.
  eapply wp_mono; [apply (IH s1 cur'); [|lia]|].
  - split; cbn [fst snd]; try done; [rewrite Hi1; apply (holds_un_char _ (d, cur' ++ [c])) in Hh; [|done]; cbn in Hh; by rewrite removelast_last in Hh|].
    intros Hx. apply Hl, elem_of_app. by left.
  - intros _ s2 (Hty2 & Hok2 & Hp2 & Ho2). split_and!; [by eapply typed_trans|done|congruence|].
    rewrite Ho2, Ho1, <- app_assoc. f_equal. by rewrite Nat.add_1_r.
Qed.

(** What handling the keys leaves: the new queues, the echo, and the readers
    awake when a line has been completed. *)
Record keys_post (s s' : kernel) (t t' : tty) (echo : list Z) : Prop := {
  kp_typed : typed s s';
  kp_ok : tty_ok s' t';
  kp_out : k_out s' = k_out s ++ echo;
  kp_proc : k_proc s' = if decide (t'.1 = t.1) then k_proc s else wake (Some Ch_input) <$> k_proc s;
}.

Lemma wake_wake ch p : wake ch (wake ch p) = wake ch p.
Proof.
  rewrite (wake_spec ch p). destruct (is_state SLEEPING p && _) eqn:E; [|by rewrite wake_spec, E]. by rewrite wake_spec.
Qed.

Lemma line_step_grows t c : t.1 `prefix_of` (line_step t c).1.
Proof.
  unfold line_step, line_char. repeat case_match; try done; cbn [fst]; by apply prefix_app_r.
Qed.

Lemma keys_post_trans s s1 s2 t t1 t2 e1 e2 :
  t.1 `prefix_of` t1.1 -> t1.1 `prefix_of` t2.1 ->
  keys_post s s1 t t1 e1 -> keys_post s1 s2 t1 t2 e2 -> keys_post s s2 t t2 (e1 ++ e2).
Proof.
  intros Hg1 Hg2 [Hty1 Hok1 Ho1 Hp1] [Hty2 Hok2 Ho2 Hp2]. split; [by eapply typed_trans|done|by rewrite Ho2, Ho1, app_assoc|].
  rewrite Hp2, Hp1. destruct (decide (t2.1 = t.1)) as [E|E].
  - assert (t1.1 = t.1) as E1. { apply (anti_symm prefix); [by rewrite <- E|done]. }
    by rewrite !decide_True by congruence.
  - repeat case_decide; try done; [congruence|]. rewrite <- list_fmap_compose. apply list_fmap_ext. intros _ p _. apply wake_wake.
Qed.

Lemma put_char_spec c s t :
  tty_ok s t -> is_byte c -> accepts c t = true -> L_ptable ∉ k_held s ->
  wp (let c := if c =? 13 then 10 else c in
      upd_input (put_char c) ;;
      consputc c ;;
      n <- gets k_input ;;
      when ((c =? 10) || (c =? 4) || (in_e n =? u32 (in_r n + INPUT_BUF)))
        (upd_input (fun n => set_in_w (in_e n) n) ;; wakeup Ch_input)) s
    (fun _ s' => keys_post s s' t (line_char c t) [if c =? 13 then 10 else c]).
Proof.
  intros Hok Hc [Hc0 Hlt%Nat.ltb_lt]%andb_true_iff Hlk. cbv zeta. unfold line_char. set (c' := if c =? 13 then 10 else c).
  assert (is_byte c') as Hc'. { unfold c', is_byte. by destruct (c =? 13). }
  assert (c' <> 0) as Hn0. { unfold c'. destruct (Z.eqb_spec c 13); [done|]. intros ->. done. }
  pose proof Hok as [Hh Hl Hcur Hu]. pose proof (holds_put_char _ _ _ Hh Hlt Hc') as Hh1.
  apply wp_assoc, wp_bind. eapply wp_mono; [by apply (echo_spec (put_char c') c' s t _ Hok Hh1)|].
  intros _ s1 (Hty & Hc1 & Hu1 & Hi1 & Hp1 & Ho1). rewrite <- Hi1 in Hh1. apply wp_bind. eapply wp_run; [reflexivity|].
  assert (uart_bytes c' = [c']) as Hub.
  { unfold uart_bytes, BACKSPACE. unfold is_byte in Hc'. rewrite (proj2 (Z.eqb_neq c' 256)) by lia. by rewrite u8_small. }
  rewrite Hub in Ho1. rewrite (full_input_test _ _ Hh1). cbn [fst snd].
  change ((c' =? 10) || (c' =? 4)) with (ends_line c'). destruct (ends_line c' || _) eqn:Eend.
  - cbn [when]. apply wp_bind. eapply wp_run; [reflexivity|]. eapply wp_run.
    { apply wakeup_run. kproj. by rewrite (typed_held _ _ Hty). }
    split; kproj; cbn [fst]; try done.
    + eapply typed_trans; [exact Hty|]. eapply typed_trans; [apply typed_input|apply typed_proc].
    + split; kproj; [by apply (holds_commit _ (t.1, t.2 ++ [c']))|apply not_elem_of_nil|done|done].
    + rewrite decide_False, Hp1; [done|]. intros E%(f_equal length). rewrite !length_app in E. simpl in E. lia.
  - cbn [when]. apply wp_ret. apply orb_false_iff in Eend as [E1 _]. split; cbn [fst]; try done; [|by rewrite decide_True].
    split; cbn [snd]; try done. intros [?|Hx%list_elem_of_singleton]%elem_of_app; [done|]. by rewrite <- Hx in E1.
Qed.

Lemma console_char_spec c dump s t :
  tty_ok s t -> is_byte c -> L_ptable ∉ k_held s ->
  wp (console_char c dump) s (fun r s' => r = (c =? 16) || dump /\ keys_post s s' t (line_step t c) (line_echo t c)).
Proof.
  intros Hok Hc Hlk. pose proof Hok as [Hh Hl Hcur Hu]. unfold console_char, line_step, line_echo.
  assert (keys_post s s t t []) as Hsame by (split; [apply typed_refl|done|by rewrite app_nil_r|by rewrite decide_True]).
  apply wp_bind. eapply wp_run; [reflexivity|]. destruct (c =? 16); [by apply wp_ret|]. destruct (c =? 21).
  { apply wp_bind. destruct t as [d cur]. eapply wp_mono; [apply (kill_line_spec _ s d cur Hok)|].
    - destruct Hh as [_ _ -> -> Hroom _]. cbn [fst snd] in *. rewrite length_app in *. unfold u32. Z.div_mod_to_equations. lia.
    - intros _ s' (Hty & Hok' & Hp & Ho). apply wp_ret. split; [done|]. split; cbn [fst]; try done. by rewrite decide_True. }
  destruct ((c =? 8) || (c =? 127)).
  { rewrite (editing_test _ _ Hh). apply wp_bind. destruct (decide (t.2 = [])) as [E|Hne].
    - rewrite E. cbn [negb when removelast]. apply wp_ret, wp_ret. split; [done|]. destruct t as [d cur]. cbn [fst snd] in *. by subst cur.
    - rewrite bool_decide_eq_false_2 by done. cbn [negb when].
      eapply wp_mono; [apply (echo_spec un_char BACKSPACE s t _ Hok (holds_un_char _ _ Hh Hne))|].
      intros _ s1 (Hty & Hc1 & Hu1 & Hi1 & Hp1 & Ho1). apply wp_ret. split; [done|]. split; cbn [fst]; try done; [|by rewrite decide_True].
      split; cbn [snd]; try done; [rewrite Hi1; by apply holds_un_char|].
      intros Hx. apply Hl. destruct (exists_last Hne) as (l & y & E). rewrite E, removelast_last in *. apply elem_of_app. by left. }
  rewrite (room_test _ _ Hh). change (negb (c =? 0) && _) with (accepts c t). apply wp_bind. destruct (accepts c t) eqn:Ea.
  - cbn [when]. eapply wp_mono; [by apply put_char_spec|]. intros [] s' Hp. by apply wp_ret.
  - cbn [when]. apply wp_ret. by apply wp_ret.
Qed.

Lemma console_loop_spec data dump s t :
  tty_ok s t -> Forall is_byte data -> L_ptable ∉ k_held s ->
  wp (console_loop uartgetc data dump) s (fun r s' =>
    r = bool_decide (16 ∈ data) || dump /\ keys_post s s' t (foldl line_step t data) (echoes t data)).
Proof.
  revert dump s t. induction data as [|c data IH]; intros dump s t Hok Hb Hlk; cbn [console_loop head foldl echoes];
    unfold uartgetc at 1; apply wp_bind, wp_bind; (eapply wp_run; [reflexivity|]); rewrite (to_uart _ _ Hok); cbn [negb].
  { apply wp_ret, wp_ret. split; [done|]. split; [apply typed_refl|done|by rewrite app_nil_r|by rewrite decide_True]. }
  apply Forall_cons in Hb as [Hc Hb]. apply wp_ret. rewrite (proj2 (Z.ltb_ge c 0)) by apply Hc.
  apply wp_bind. eapply wp_mono; [by apply (console_char_spec c dump s t)|]. intros r s1 [-> Hp].
  eapply wp_mono; [apply (IH _ s1 (line_step t c)); [apply Hp|done|by rewrite (typed_held _ _ (kp_typed _ _ _ _ _ Hp))]|].
  intros r s2 [-> Hp2]. split.
  - rewrite orb_assoc. f_equal. apply eq_true_iff_eq. rewrite orb_true_iff, !bool_decide_eq_true, elem_of_cons, Z.eqb_eq. naive_solver.
  - eapply keys_post_trans; [apply line_step_grows| |done|done].
    clear. generalize (line_step t c). induction data as [|c' data IH]; intros t'; [done|]. cbn [foldl].
    etrans; [apply line_step_grows|apply IH].
Qed.

Lemma tty_ok_held s t h : tty_ok s t -> tty_ok (set_k_held h s) t.
Proof. by intros []. Qed.

Lemma typed_locked s s' h : typed (set_k_held h s) s' -> typed s (set_k_held (k_held s) s').
Proof. intros (i & p & (o & c & q & ->)). exists i, p, o, c, q. by destruct s. Qed.

Lemma uartintr_spec s t data :
  tty_ok s t -> Forall is_byte data -> 16 ∉ data -> L_cons ∉ k_held s -> L_ptable ∉ k_held s ->
  exists s', uartintr data s = Ret tt s' /\ keys_post s s' t (foldl line_step t data) (echoes t data).
Proof.
  intros Hok Hb Hp Hlc Hlp.
  destruct (wp_inv (uartintr data) s (fun _ s' => keys_post s s' t (foldl line_step t data) (echoes t data)))
    as ([] & s' & Hrun & Hpost); [|by exists s']. unfold uartintr, consoleintr. apply wp_bind. eapply wp_run; [by apply acquire_run|].
  set (s0 := set_k_held _ s).
  apply wp_bind. eapply wp_mono; [apply (console_loop_spec data false s0 t (tty_ok_held _ _ _ Hok) Hb)|].
  { unfold s0. kproj. apply not_elem_of_cons. done. }
  intros r s1 [-> [Hty Hok1 Ho Hpr]]. rewrite bool_decide_eq_false_2 by done. cbn [orb when].
  apply wp_bind. eapply wp_run; [apply (release_head _ (k_held s)); [done|by rewrite (typed_held _ _ Hty)]|]. apply wp_ret.
  split; [by eapply typed_locked|by apply tty_ok_held|exact Ho|exact Hpr].
Qed.

(** C38: The serial-port interrupt implements the line discipline: the
    characters typed go through the editing rules one by one, are echoed, and
    when they complete a line every reader of the console is made RUNNABLE. *)
Theorem uartintr_correct s t data :
  tty_ok s t -> Forall is_byte data -> 16 ∉ data -> L_cons ∉ k_held s -> L_ptable ∉ k_held s ->
  exists s', uartintr data s = Ret tt s' /\ keys_post s s' t (foldl line_step t data) (echoes t data).
Proof. apply uartintr_spec. Qed.

(** ** Reading *)

Section read.
Context `{Fuel}.
Implicit Types (s : kernel).

Lemma input_wait_ready f s t : (0 < f)%nat -> holds_tty (k_input s) t -> t.1 <> [] -> input_wait f s = Ret false s.
Proof.
  intros Hf Hh Hne. destruct f as [|f]; [lia|]. cbn [input_wait]. krun. rewrite (empty_input_test _ _ Hh).
  by rewrite bool_decide_eq_false_2.
Qed.

Lemma console_take_spec n acc s d cur :
  (0 < fuel)%nat -> holds_tty (k_input s) (d, cur) -> line_ready n d ->
  let '(l, r) := line_read n (bool_decide (acc = [])) d in
  exists i, console_take n acc s = Ret (false, acc ++ l) (set_k_input i s) /\ holds_tty i (r, cur).
Proof.
  intros Hf. revert acc s d. induction n as [|n IH]; intros acc s d Hh Hr; cbn [line_read console_take].
  { exists (k_input s). rewrite app_nil_r. split; [by destruct s|done]. }
  destruct d as [|c d]; [destruct Hr as [Hr|Hr]; [simpl in Hr; lia|by apply Exists_nil in Hr]|].
  destruct (holds_pop _ _ _ _ Hh) as [Hc Hh']. unfold bind at 1. rewrite (input_wait_ready fuel s (c :: d, cur)) by done.
  krun. rewrite Hc. destruct (Z.eqb_spec c 4) as [->|H4].
  - destruct acc as [|a acc]; cbn [length Nat.eqb negb when]; krun; eexists; rewrite app_nil_r; (split; [reflexivity|]); [done|].
    rewrite bool_decide_eq_false_2 by done. kproj. cbn [in_r set_in_r].
    replace (u32 (u32 (in_r (k_input s) + 1) - 1)) with (in_r (k_input s)).
    + by destruct (k_input s).
    + destruct (ht_r _ _ Hh). unfold u32. Z.div_mod_to_equations. lia.
  - destruct (Z.eqb_spec c 10) as [->|H10]; [by eexists|].
    set (s1 := set_k_input (set_in_r (u32 (in_r (k_input s) + 1)) (k_input s)) s). specialize (IH (acc ++ [c]) s1 d Hh').
    rewrite bool_decide_eq_false_2 in IH by (by destruct acc). destruct (line_read n false d) as [l r].
    destruct IH as (i & Hrun & Hi).
    { destruct Hr as [Hr|Hr]; [left; simpl in Hr; lia|right]. apply Exists_cons in Hr as [Hr|Hr]; [|done].
      apply orb_true_iff in Hr as [Hr|Hr]; lia. }
    exists i. split; [|done]. rewrite <- app_assoc in Hrun. exact Hrun.
Qed.

(** The reader has the console's inode [x] open and locked. *)
Record reading s (V : Z -> block) (bl : list Z) (ip : nat) (x : Z) : Prop := {
  rd_tx : tx s V bl ∅;
  rd_geo : fs_geo s;
  rd_bufs : (length bl < NBUF)%nat;
  rd_table : itable V (k_sb s) (cur_pid s) (Some ip) (k_inodes s);
  rd_entry : entry_at (k_inodes s) ip x;
}.

Lemma typed_reading s s' V bl ip x : typed s s' -> wakes (k_proc s) (k_proc s') -> reading s V bl ip x -> reading s' V bl ip x.
Proof.
  intros (i & p & (o & c & q & ->)) Hw [Hok Hg Hb Ht He]. pose proof (tx_quiet _ _ _ _ Hok) as [Hh Hc].
  assert (cur_pid (set_k_out o (set_k_crt c (set_k_cursor q (set_k_proc p (set_k_input i s))))) = cur_pid s) as Hp.
  { unfold cur_pid. kproj. destruct (k_cur s); [|done]. by apply wakes_pid. }
  split; kproj; [|by destruct Hg|done| |done].
  - by apply (tx_frame s).
  - rewrite Hp. exact Ht.
Qed.

Lemma fframe_input s s' : fframe s s' -> k_input s' = k_input s.
Proof. intros [E _ _]. by rewrite E. Qed.

Lemma consoleread_spec s V bl ip x n d cur :
  (0 < fuel)%nat -> reading s V bl ip x -> holds_tty (k_input s) (d, cur) -> line_ready (Z.to_nat n) d ->
  let '(l, r) := line_read (Z.to_nat n) true d in
  wp (consoleread ip n) s (fun a s' => a = (Z.of_nat (length l), l) /\ holds_tty (k_input s') (r, cur) /\ reading s' V bl ip x).
Proof.
  intros Hf [Hok Hg Hb Ht He] Hh Hr. pose proof (console_take_spec (Z.to_nat n) []) as Htake.
  destruct (line_read (Z.to_nat n) true d) as [l r] eqn:El. unfold consoleread.
  apply wp_bind. eapply wp_mono; [by apply (unlock_spec s V bl ip x)|]. intros _ s1 (Hok1 & Hf1 & Ht1 & Hk1 & _ & _).
  pose proof (tx_quiet _ _ _ _ Hok1) as Hq1. apply wp_bind. eapply wp_run; [by apply acquire_run, quiet_not_held|].
  set (s2 := set_k_held _ s1). specialize (Htake s2 d cur Hf).
  change (bool_decide ([] = [])) with true in Htake. rewrite El in Htake. destruct Htake as (i & Hrun & Hi); [|done|].
  { change (k_input s2) with (k_input s1). by rewrite (fframe_input _ _ Hf1). }
  apply wp_bind. eapply wp_run; [exact Hrun|]. apply wp_bind.
  eapply wp_run; [by apply (release_head _ (k_held s1)); [by apply quiet_not_held|]|].
  set (s3 := set_k_held _ _). assert (s3 = set_k_input i s1) as E3. { unfold s3, s2. by destruct s1. } rewrite E3. clear s3 E3.
  rewrite <- (ff_sb Hf1), <- (ff_pid Hf1) in Ht1.
  apply wp_bind. eapply wp_mono; [apply (lock_spec _ V bl ip x); [apply (tx_frame s1); [done|by destruct Hq1|done..]| |done|exact Ht1|by apply Hk1]|].
  { pose proof (fs_geo_frame _ _ Hf1 Hg) as []. by split. }
  intros _ s4 (Hok4 & Hf4 & Ht4 & He4 & _ & _). apply wp_ret. split_and!; [done|by rewrite (fframe_input _ _ Hf4)|].
  rewrite <- (ff_sb Hf4), <- (ff_pid Hf4) in Ht4. split; try done. apply (fs_geo_frame _ _ Hf4). pose proof (fs_geo_frame _ _ Hf1 Hg) as []. by split.
Qed.

(** What is typed is what is read: after the keys [data] a read of [n]
    characters returns the edited text, up to the end of a line, and leaves
    the rest for the next read. *)
Theorem console_roundtrip s t data V bl ip x n :
  (0 < fuel)%nat -> tty_ok s t -> Forall is_byte data -> 16 ∉ data -> reading s V bl ip x ->
  let t' := foldl line_step t data in
  line_ready (Z.to_nat n) t'.1 ->
  let '(l, r) := line_read (Z.to_nat n) true t'.1 in
  exists s1 s2, uartintr data s = Ret tt s1 /\ consoleread ip n s1 = Ret (Z.of_nat (length l), l) s2 /\
    holds_tty (k_input s2) (r, t'.2) /\ reading s2 V bl ip x.
Proof.
  intros Hf Hok Hb Hp Hrd t' Hready. pose proof (tx_quiet _ _ _ _ (rd_tx _ _ _ _ _ Hrd)) as Hq.
  destruct (uartintr_spec s t data Hok Hb Hp (quiet_not_held _ _ Hq) (quiet_not_held _ _ Hq)) as (s1 & Hrun & [Hty Hok1 _ Hpr]).
  assert (reading s1 V bl ip x) as Hrd1.
  { eapply typed_reading; [done| |done]. rewrite Hpr. case_decide; [done|apply wakes_wake]. }
  pose proof (consoleread_spec s1 V bl ip x n t'.1 t'.2 Hf Hrd1) as Hread.
  rewrite <- surjective_pairing in Hread. specialize (Hread (to_input _ _ Hok1) Hready).
  destruct (line_read (Z.to_nat n) true t'.1) as [l r]. apply wp_inv in Hread as (a & s2 & Hrun2 & -> & Hh2 & Hrd2).
  by exists s1, s2.
Qed.

End read.

(** ** The theorems on a small machine *)

#[local] Instance demo_fuel : Fuel := 1%nat.

(** A serial port, and nothing typed yet; inode 2 is open and locked. *)
Definition demo_tty : kernel := set_k_uart true demo_fs.

Lemma demo_tty_ok : tty_ok demo_tty ([], []).
Proof.
  split; [|apply not_elem_of_nil|split; by vm_compute|reflexivity].
  split; [reflexivity|split; by vm_compute|reflexivity|reflexivity|vm_compute; lia|].
  intros k c Hk. by destruct k.
Qed.

Lemma demo_slots i n : k_inodes demo_tty !! i = Some n -> (i = 0%nat /\ n = demo_inode) \/ (i <> 0%nat /\ n = inode_zero).
Proof.
  change (k_inodes demo_tty) with (demo_inode :: replicate 49 inode_zero). destruct i as [|i]; intros Hn.
  - left. split; [done|]. by injection Hn as <-.
  - right. split; [done|]. by apply lookup_replicate in Hn as [-> _].
Qed.

Lemma demo_tty_reading : reading demo_tty demo_disk [] 0 2.
Proof.
  split.
  - apply (tx_frame demo_fs); [exact demo_fs_tx|by split|done..].
  - destruct demo_fs_geo. by split.
  - vm_compute. lia.
  - split.
    + apply icache_okb_ok. by vm_compute.
    + intros i n [[-> ->]|[_ ->]]%demo_slots Hr; [|done]. split_and!; [done|apply liveb_ok; by vm_compute|intros _; by vm_compute].
    + intros i n [[-> ->]|[_ ->]]%demo_slots Hne; [by destruct Hne|done].
    + intros i n [[-> ->]|[? ->]]%demo_slots Hl; [by vm_compute|]. by injection Hl.
  - exists demo_inode. split; [by vm_compute|by vm_compute].
Qed.

(** "ab", backspace, "c", return: the line is "ac". *)
Definition demo_keys : list Z := [97; 98; 8; 99; 13; 120].

Lemma demo_keys_ok : Forall is_byte demo_keys /\ 16 ∉ demo_keys.
Proof.
  split; [repeat (constructor; [by vm_compute|]); constructor|]. by apply (bool_decide_eq_false (16 ∈ demo_keys)).
Qed.

Lemma uartintr_correct_witness :
  exists s', uartintr demo_keys demo_tty = Ret tt s' /\ holds_tty (k_input s') ([97; 99; 10], [120]).
Proof.
  destruct demo_keys_ok as [Hb Hp]. destruct (uartintr_correct demo_tty ([], []) demo_keys demo_tty_ok Hb Hp) as (s' & Hrun & Hpost).
  - apply not_elem_of_nil.
  - apply not_elem_of_nil.
  - exists s'. split; [exact Hrun|]. exact (to_input _ _ (kp_ok _ _ _ _ _ Hpost)).
Defined.

Lemma console_roundtrip_witness :
  exists s1 s2, uartintr demo_keys demo_tty = Ret tt s1 /\ consoleread 0 80 s1 = Ret (3, [97; 99; 10]) s2.
Proof.
  destruct demo_keys_ok as [Hb Hp].
  destruct (@console_roundtrip demo_fuel demo_tty ([], []) demo_keys demo_disk [] 0 2 80 Nat.lt_0_1 demo_tty_ok Hb Hp demo_tty_reading)
    as (s1 & s2 & Hrun & Hread & _).
  - right. apply Exists_exists. exists 10. split; [|done]. by apply (bool_decide_eq_true (10 ∈ [97; 99; 10])).
  - exists s1, s2. exact (conj Hrun Hread).
Defined.
