(* ===== verification/File.v ===== *)
(** * Open files (file.c, and pipealloc of pipe.c)

    The table of open files.  A [struct file*] is the index of an entry; the
    entries are counted references, shared by the descriptors of all
    processes. *)

From stdpp Require Import base numbers list option strings gmap.
From S2P Require Import Prelude Kernel Fields Mmu Spinlock Proc Cprintf Cstring Bytes Sleeplock Dll Bio Log Kalloc Pipe.
From S2P Require Import Inode Console Fs.

Definition get_file (f : nat) : K file := gets (fun s => k_files s !!! f).
Definition upd_file (f : nat) (g : file -> file) : K unit :=
  modify (fun s => set_k_files (alter g f (k_files s)) s).

(** Using [f->ip] when it is null faults. *)
Definition deref {A} (p : option A) : K A :=
  match p with Some a => ret a | None => null_deref end.

Section file_code.
Context `{Link} `{Fuel}.

Definition filealloc : K (option nat) :=
  acquire L_ftable ;;
  t <- gets k_files ;;
  match list_find (fun f => f_ref f = 0) t with
  | Some (i, _) =>
      upd_file i (set_f_ref 1) ;;
      release L_ftable ;;
      ret (Some i)
  | None => release L_ftable ;; ret None
  end.

Definition filedup (f : nat) : K nat :=
  acquire L_ftable ;;
  t <- get_file f ;;
  if f_ref t <? 1 then panic "filedup" else
  upd_file f (fun t => set_f_ref (i32 (f_ref t + 1)) t) ;;
  release L_ftable ;;
  ret f.

Definition fileclose (f : nat) : K unit :=
  acquire L_ftable ;;
  t <- get_file f ;;
  if f_ref t <? 1 then panic "fileclose" else
  upd_file f (fun t => set_f_ref (f_ref t - 1) t) ;;
  ff <- get_file f ;;
  if 0 <? f_ref ff then release L_ftable else
  upd_file f (fun t => set_f_type FD_NONE (set_f_ref 0 t)) ;;
  release L_ftable ;;
  match f_type ff with
  | FD_PIPE => pipeclose (f_pipe ff) (f_writable ff)
  | FD_INODE =>
      begin_op ;;
      ip <- deref (f_ip ff) ;;
      iput ip ;;
      end_op
  | FD_NONE => ret tt
  end.

(** The structure stored at [st], if any. *)
Definition filestat (f : nat) : K (option stat) :=
  t <- get_file f ;;
  if bool_decide (f_type t = FD_INODE) then
    ip <- deref (f_ip t) ;;
    ilock ip ;;
    st <- stati ip ;;
    iunlock ip ;;
    ret (Some st)
  else ret None.

(** The result and the bytes stored at [addr]. *)
Definition fileread (f : nat) (n : Z) : K (Z * list Z) :=
  t <- get_file f ;;
  if negb (f_readable t) then ret (-1, []) else
  match f_type t with
  | FD_PIPE => piperead (f_pipe t) n
  | FD_INODE =>
      ip <- deref (f_ip t) ;;
      ilock ip ;;
      t <- get_file f ;;
      r <- readi ip (f_off t) n ;;
      when (0 <? fst r) (upd_file f (fun t => set_f_off (u32 (f_off t + fst r)) t)) ;;
      iunlock ip ;;
      ret r
  | FD_NONE => panic "fileread"
  end.

(** The bytes one transaction of [filewrite] writes at most. *)
Definition max_write : Z := ((MAXOPBLOCKS - 1 - 1 - 2) / 2) * 512.

(** The loop of [filewrite] over the [n - i] bytes still to write; the result
    is whether all of them were written. *)
Fixpoint filewrite_loop (k : nat) (f ip : nat) (addr : list Z) (n : Z) : K bool :=
  if negb (0 <? n) then ret (n =? 0) else
  match k with
  | O => out_of_fuel
  | S k' =>
      let n1 := if max_write <? n then max_write else n in
      begin_op ;;
      ilock ip ;;
      t <- get_file f ;;
      r <- writei ip (take (Z.to_nat n1) addr) (f_off t) n1 ;;
      when (0 <? r) (upd_file f (fun t => set_f_off (u32 (f_off t + r)) t)) ;;
      iunlock ip ;;
      end_op ;;
      if r <? 0 then ret false else
      if negb (r =? n1) then panic "short filewrite" else
      filewrite_loop k' f ip (drop (Z.to_nat n1) addr) (n - n1)
  end.

(** [addr] are the [n] bytes to write. *)
Definition filewrite (f : nat) (addr : list Z) (n : Z) : K Z :=
  t <- get_file f ;;
  if negb (f_writable t) then ret (-1) else
  match f_type t with
  | FD_PIPE => pipewrite (f_pipe t) addr
  | FD_INODE =>
      ip <- deref (f_ip t) ;;
      ok <- filewrite_loop (Z.to_nat (n / max_write) + 1) f ip addr n ;;
      ret (if ok then n else -1)
  | FD_NONE => panic "filewrite"
  end.

(** ** pipealloc *)

(** A [struct pipe] in a page: the bytes after the spin-lock are the data. *)
Definition new_pipe (m : memory) (p : Z) : pipe := mkpipe (read_bytes m (p + 52) 512) 0 0 true true.

Definition pipe_file (p : Z) (writable : bool) (t : file) : file :=
  set_f_pipe p (set_f_writable writable (set_f_readable (negb writable) (set_f_type FD_PIPE t))).

(** The two files, or none. *)
Definition pipealloc : K (option (nat * nat)) :=
  f0 <- filealloc ;;
  match f0 with
  | None => ret None
  | Some f0 =>
      f1 <- filealloc ;;
      match f1 with
      | None => fileclose f0 ;; ret None
      | Some f1 =>
          p <- kalloc ;;
          if p =? 0 then fileclose f0 ;; fileclose f1 ;; ret None else
          modify (fun s => set_k_pipes (<[p := new_pipe (k_mem s) p]> (k_pipes s)) s) ;;
          upd_file f0 (pipe_file p false) ;;
          upd_file f1 (pipe_file p true) ;;
          ret (Some (f0, f1))
      end
  end.

End file_code.
