(* ===== verification/Durable.v ===== *)
(** * Writes to files are atomic and durable (file.c on fs.c and log.c)

    A [filewrite] of at most three blocks is one transaction: the file system
    lemmas say what the blocks of the cache are when it ends, the log lemmas
    what a crash leaves of them on the disk. *)

From stdpp Require Import base numbers list option strings gmap.
From S2P Require Import Prelude Kernel Fields Spinlock Proc Cstring Bytes Sleeplock Dll Bio Log Txn Kalloc Pipe Inode Fs File.

(** The file with inode [inum], as it is on the blocks [V]. *)
Definition disk_file (V : Z -> block) (sb : superblock) (inum : Z) : list Z :=
  let di := disk_inode V sb inum in Fs.contents V (di_addrs di) (di_size di).

(** It only depends on the blocks outside the log. *)
Section home_blocks.
Context (s : kernel) (V V' : Z -> block) (Hg : fs_geo s).
Context (Hhome : forall b, home (k_log s) (k_disksize s) b -> V' b = V b).

Lemma home_used b : 0 <= b < sb_size (k_sb s) -> used V' (k_sb s) b = used V (k_sb s) b.
Proof.
  intros Hb. destruct (BBLOCK_spec s b Hg Hb) as (_ & ? & ?). pose proof (geo_order _ Hg). unfold used.
  rewrite Hhome; [done|]. apply geo_home; [done|]. lia.
Qed.

Lemma home_inode inum : 0 <= inum < sb_ninodes (k_sb s) -> disk_inode V' (k_sb s) inum = disk_inode V (k_sb s) inum.
Proof. intros Hi. unfold disk_inode. by rewrite Hhome by by apply inode_home. Qed.

Lemma home_contents a sz : file_ok V (k_sb s) a sz -> Fs.contents V' a sz = Fs.contents V a sz.
Proof.
  intros Hf. apply (same_contents (k_sb s) V V' a sz Hf). intros b Hb.
  pose proof (own_data _ _ _ _ _ Hf Hb) as [Hr Hu]. pose proof (geo_order _ Hg). split.
  - split; [done|]. rewrite home_used; [done|]. lia.
  - apply Hhome, geo_home; [done|]. lia.
Qed.

End home_blocks.

Section durable.
Context `{Link} `{Fuel}.
Implicit Types (s : kernel).

(** File [f], open for writing, is the inode in entry [ip] of the inode table;
    no transaction is under way, and there is room for one of [len] bytes. *)
Record open_file s (f ip : nat) (t : file) (n : inode) (len : Z) : Prop := {
  of_idle : log_idle s;
  of_geo : fs_geo s;
  of_bitmap : bitmap_ok (k_disk s) (k_sb s);
  of_file : k_files s !! f = Some t;
  of_type : f_type t = FD_INODE /\ f_ip t = Some ip /\ f_writable t = true;
  of_inode : k_inodes s !! ip = Some n;
  of_ref : 1 <= i_ref n /\ sl_locked (i_lock n) = 0;
  of_inum : i_dev n = 1 /\ 0 <= i_inum n < sb_ninodes (k_sb s);
  of_coherent : coherent (k_disk s) (k_sb s) n;
  of_regular : let di := disk_inode (k_disk s) (k_sb s) (i_inum n) in
    di_type di <> 0 /\ di_type di <> T_DEV /\ dinode_wf di /\ file_ok (k_disk s) (k_sb s) (di_addrs di) (di_size di);
  of_room : 6 * Z.of_nat (io_rounds len) + 1 < log_size (k_log s);
  of_free : (2 * io_rounds len <= nfree (k_disk s) (k_sb s))%nat;
}.

Lemma ff_writes s s' : fframe s s' -> k_writes s' = k_writes s.
Proof. intros [E _ _]. by rewrite E. Qed.

(** In the transaction that started in [s] nothing has reached the disk. *)
Record in_op s s1 : Prop := {
  io_op : log_outstanding (k_log s1) = 1 /\ log_committing (k_log s1) = false;
  io_disk : k_disk s1 = k_disk s /\ k_disksize s1 = k_disksize s /\ k_writes s1 = k_writes s;
  io_log : log_start (k_log s1) = log_start (k_log s) /\ log_size (k_log s1) = log_size (k_log s);
  io_sb : k_sb s1 = k_sb s;
}.

Lemma in_op_frame s s1 s2 : in_op s s1 -> fframe s1 s2 -> in_op s s2.
Proof.
  intros [[? ?] [? [? ?]] [? ?] ?] Hf. pose proof (ff_writes _ _ Hf).
  split; rewrite ?(ff_outstanding Hf), ?(ff_committing Hf), ?(ff_disk Hf), ?(ff_disksize Hf), ?(ff_log_start Hf), ?(ff_log_size Hf), ?(ff_sb Hf);
    split_and?; congruence.
Qed.

(** The inode [inum], locked by the writer. *)
Definition mine s (di : dinode) (n0 n : inode) : Prop :=
  dinode_of n = di /\ i_inum n = i_inum n0 /\ i_ref n = i_ref n0 /\ i_valid n = true /\ i_lock n = mksleeplock 1 (cur_pid s).

Lemma open_tx_spec s f ip t n len :
  open_file s f ip t n len ->
  wp (begin_op ;; ilock ip) s (fun _ s2 => in_op s s2 /\ k_files s2 = k_files s /\
    exists n2, mine s2 (disk_inode (k_disk s) (k_sb s) (i_inum n)) n n2 /\ can_write s2 (k_disk s) [] ip n2 len).
Proof.
  intros [[Hok Hout Hcom] Hg Hbm Hft _ Hn [Href Hlk] [Hdev Hinum] Hco (Hty & Hdv & Hwf & Hfo) Hroom Hfree].
  set (V := k_disk s) in *. set (di := disk_inode V (k_sb s) (i_inum n)) in *.
  destruct (begin_op_spec s V [] ∅ Hok Hcom) as [Hrun Hok1].
  { rewrite (ls_n _ _ _ (lk_lists _ _ _ _ Hok)), Hout. by vm_compute. }
  apply wp_bind. eapply wp_run; [exact Hrun|]. set (s1 := set_k_log _ s) in *.
  assert (in_op s s1) as Hop1. { split; try done. split; [simpl; lia|done]. }
  assert (fs_geo s1) as Hg1 by by destruct Hg.
  eapply wp_mono; [apply (ilock_spec s1 V [] ∅ ip n); try done|]; [vm_compute; lia|].
  intros _ s2 (Hok2 & Hf2 & Ei2). pose proof (in_op_frame _ _ _ Hop1 Hf2) as Hop2.
  change (k_inodes s2 = <[ip := loaded (cur_pid s1) di n]> (k_inodes s)) in Ei2. set (n2 := loaded _ di n) in Ei2.
  assert (dinode_of n2 = di) as Edi by (unfold n2, loaded; by destruct di).
  split_and!; [done|exact (ff_files Hf2)|]. exists n2. split.
  { split_and!; [done|done|done|done|]. unfold n2, loaded. by rewrite (ff_pid Hf2). }
  pose proof (lookup_lt_Some _ _ _ Hn). rewrite <- Edi in Hwf, Hfo.
  split; rewrite ?(io_sb _ _ Hop2), ?(proj1 (io_op _ _ Hop2)), ?(ff_log_size Hf2); try done.
  - by eapply fs_geo_frame.
  - rewrite Ei2. by apply list_lookup_insert_eq.
Qed.

(** The transaction up to [end_op]. *)
Lemma write_tx_spec s f ip t n addr :
  let len := Z.of_nat (length addr) in
  let old := disk_file (k_disk s) (k_sb s) (i_inum n) in
  open_file s f ip t n len -> Forall is_byte addr -> 0 < len -> 0 <= f_off t ->
  f_off t <= di_size (disk_inode (k_disk s) (k_sb s) (i_inum n)) -> f_off t + len <= MAXFILE * BSIZE ->
  wp ((begin_op ;; ilock ip) ;; u <- get_file f ;; r <- writei ip addr (f_off u) len ;;
      when (0 <? r) (upd_file f (fun u => set_f_off (u32 (f_off u + r)) u)) ;;
      iunlock ip ;; ret r) s
    (fun r s1 => r = len /\ in_op s s1 /\ k_files s1 = <[f := set_f_off (f_off t + len) t]> (k_files s) /\
      exists V bl, tx s1 V bl ∅ /\ disk_file V (k_sb s) (i_inum n) = splice old (Z.to_nat (f_off t)) addr /\
        let di := disk_inode V (k_sb s) (i_inum n) in file_ok V (k_sb s) (di_addrs di) (di_size di)).
Proof.
  intros len old Hof Hb Hlen Hoff Hsz Hmax. pose proof (of_file _ _ _ _ _ _ Hof) as Hft.
  pose proof (of_regular _ _ _ _ _ _ Hof) as (_ & Hdv & _). pose proof (of_ref _ _ _ _ _ _ Hof) as [Href _].
  apply wp_bind. eapply wp_mono; [by apply (open_tx_spec s f ip t n len)|].
  intros _ s2 (Hop2 & Efi2 & n2 & (Edi & Ein & Erf & Eval & Elk) & Hcw). unfold old, disk_file. rewrite <- Edi in *. clear old.
  apply wp_bind. eapply wp_run; [reflexivity|]. rewrite Efi2, (list_lookup_total_correct _ _ _ Hft).
  pose proof (writei_spec s2 (k_disk s) [] ip n2 (f_off t) addr Hcw) as Hw. fold len in Hw.
  change (i_size n2) with (di_size (dinode_of n2)) in Hw. change (MAXFILE * BSIZE) with 71680 in *.
  destruct (Z.ltb_spec (di_size (dinode_of n2)) (f_off t)); [lia|]. destruct (Z.ltb_spec 71680 (f_off t + len)); [lia|]. cbn [orb] in Hw.
  apply wp_bind. eapply wp_mono; [apply Hw; [done|done|lia|lia]|].
  intros r s3 (-> & V' & bl' & a' & Hok3 & _ & Hf3 & Ei3 & Hfo3 & Hc3 & _ & Hco3 & _). set (n3 := set_i_size _ _) in *.
  rewrite (proj2 (Z.ltb_lt 0 len)) by done. cbn [when]. apply wp_bind. eapply wp_run; [reflexivity|]. set (s4 := set_k_files _ s3).
  pose proof (tx_quiet _ _ _ _ Hok3) as Hq3.
  assert (tx s4 V' bl' ∅) as Hok4 by (apply (tx_frame s3); [done|by destruct Hq3|done..]).
  assert (k_inodes s4 !! ip = Some n3) as En4.
  { change (k_inodes s4) with (k_inodes s3). rewrite Ei3. apply list_lookup_insert_eq. eapply lookup_lt_Some, (cw_inode _ _ _ _ _ _ Hcw). }
  apply wp_bind. eapply wp_mono; [apply (iunlock_spec s4 V' bl' ∅ ip n3); [done|done|simpl; lia|]|].
  { change (cur_pid s4) with (cur_pid s3). by rewrite (ff_pid Hf3). }
  intros _ s5 (Hok5 & Hf5 & _). apply wp_ret. pose proof (in_op_frame _ _ _ Hop2 Hf3) as Hop3.
  assert (in_op s s4) as Hop4 by by destruct Hop3. rewrite (io_sb _ _ Hop2) in *.
  assert (disk_inode V' (k_sb s) (i_inum n) = dinode_of n3) as Edi3 by (rewrite <- Ein; symmetry; by apply Hco3).
  split_and!; [done|by eapply in_op_frame| |].
  - rewrite (ff_files Hf5). unfold s4. kproj. rewrite (ff_files Hf3), Efi2, (alter_is_insert _ _ _ _ Hft). by rewrite u32_small by lia.
  - exists V', bl'. rewrite Edi3. split_and!; [done|exact Hc3|exact Hfo3].
Qed.

(** The body of the loop of [filewrite], cut before [end_op]. *)
Lemma write_tx_then {A} (f ip : nat) addr len (k : Z -> K A) s (Q : A -> kernel -> Prop) :
  wp ((begin_op ;; ilock ip) ;; u <- get_file f ;; r <- writei ip addr (f_off u) len ;;
      when (0 <? r) (upd_file f (fun u => set_f_off (u32 (f_off u + r)) u)) ;;
      iunlock ip ;; ret r) s (fun r s1 => wp (k r) s1 Q) ->
  wp (begin_op ;; ilock ip ;; u <- get_file f ;; r <- writei ip addr (f_off u) len ;;
      when (0 <? r) (upd_file f (fun u => set_f_off (u32 (f_off u + r)) u)) ;;
      iunlock ip ;; k r) s Q.
Proof.
  unfold wp, bind, ret. destruct (begin_op s) as [? s1| | |]; cbn [res_bind]; try done.
  destruct (ilock ip s1) as [? s2| | |]; cbn [res_bind]; try done.
  destruct (get_file f s2) as [u s3| | |]; cbn [res_bind]; try done.
  destruct (writei ip addr (f_off u) len s3) as [r s4| | |]; cbn [res_bind]; try done.
  destruct (when _ _ s4) as [? s5| | |]; cbn [res_bind]; try done.
  by destruct (iunlock ip s5) as [? s6| | |]; cbn [res_bind].
Qed.

Lemma filewrite_run s f ip t addr s1 s' :
  let len := Z.of_nat (length addr) in
  k_files s !! f = Some t -> f_type t = FD_INODE /\ f_ip t = Some ip /\ f_writable t = true -> 0 < len <= max_write ->
  ((begin_op ;; ilock ip) ;; u <- get_file f ;; r <- writei ip addr (f_off u) len ;;
      when (0 <? r) (upd_file f (fun u => set_f_off (u32 (f_off u + r)) u)) ;;
      iunlock ip ;; ret r) s = Ret len s1 ->
  end_op s1 = Ret tt s' -> filewrite f addr len s = Ret len s'.
Proof.
  intros len Hf (Hty & Hip & Hwr) Hlen Hrun Hend.
  destruct (wp_inv (filewrite f addr len) s (fun r x => r = len /\ x = s')) as (? & ? & -> & -> & ->); [|done].
  unfold filewrite. apply wp_bind. eapply wp_run; [reflexivity|]. rewrite (list_lookup_total_correct _ _ _ Hf), Hwr, Hty. cbn [negb].
  unfold deref. rewrite Hip. apply wp_bind, wp_ret, wp_bind. rewrite Nat.add_1_r. cbn [filewrite_loop].
  rewrite (proj2 (Z.ltb_lt 0 len)) by lia. cbn [negb]. rewrite (proj2 (Z.ltb_ge max_write len)) by lia.
  rewrite take_ge by lia. apply write_tx_then. eapply wp_run; [exact Hrun|]. apply wp_bind. eapply wp_run; [exact Hend|].
  rewrite (proj2 (Z.ltb_ge len 0)), Z.eqb_refl by lia. cbn [negb].
  destruct (Z.to_nat _); cbn [filewrite_loop]; rewrite Z.sub_diag; cbn [Z.ltb Z.compare negb]; apply wp_ret; by apply wp_ret.
Qed.

Lemma dwrites_files W s : k_files (dwrites W s) = k_files s.
Proof. revert s. induction W as [|w W IH]; intros s; [done|]. exact (IH (disk_write w.1 w.2 s)). Qed.

Lemma logged_files W s s' : logged W s s' -> k_files s' = k_files s.
Proof. intros [E _]. apply (f_equal k_files) in E. kproj_in E. by rewrite E, dwrites_files. Qed.

(** C1: A [filewrite] of at most three blocks to a file is atomic and
    durable.  When it returns, the bytes are in the file on the disk, at the
    offset of the open file, which moves past them.  If the machine stops
    after any number of the disk writes it issues, then after recovery the
    file holds either the old contents or the new ones. *)
Theorem filewrite_atomic s f ip t n addr :
  let len := Z.of_nat (length addr) in
  let inum := i_inum n in
  let old := disk_file (k_disk s) (k_sb s) inum in
  let new := splice old (Z.to_nat (f_off t)) addr in
  open_file s f ip t n len -> Forall is_byte addr -> 0 < len <= max_write -> 0 <= f_off t ->
  f_off t <= di_size (disk_inode (k_disk s) (k_sb s) inum) -> f_off t + len <= MAXFILE * BSIZE ->
  exists s' W, filewrite f addr len s = Ret len s' /\ log_idle s' /\ k_writes s' = k_writes s ++ W /\
    k_files s' = <[f := set_f_off (f_off t + len) t]> (k_files s) /\ disk_file (k_disk s') (k_sb s) inum = new /\
    forall W1 r, W1 `prefix_of` W -> rebooted s (bsets (k_disk s) W1) r ->
      exists r', recover_from_log r = Ret tt r' /\
        (disk_file (k_disk r') (k_sb s) inum = old \/ disk_file (k_disk r') (k_sb s) inum = new).
Proof.
  intros len inum old new Hof Hb Hlen Hoff Hsz Hmax. pose proof (of_type _ _ _ _ _ _ Hof) as (Hty & Hip & Hwr).
  pose proof (of_geo _ _ _ _ _ _ Hof) as Hg. pose proof (of_inum _ _ _ _ _ _ Hof) as [_ Hinum].
  pose proof (of_regular _ _ _ _ _ _ Hof) as (_ & _ & _ & Hfo).
  destruct (wp_inv _ _ _ (write_tx_spec s f ip t n addr Hof Hb ltac:(lia) Hoff Hsz Hmax))
    as (r & s1 & Hrun & -> & Hop & Efi & V & bl & Hok & Hnew & Hfo'). fold len inum old new in Hrun, Efi, Hnew, Hfo'.
  destruct Hop as [[Ho Hc] (Ed & Eds & Ew) (Els & Elz) Esb].
  destruct (wp_inv _ _ _ (end_op_spec s1 V bl Hok Ho Hc)) as ([] & s' & Hrun' & Hok' & Hlg & El').
  assert (forall b, home (k_log s) (k_disksize s) b <-> home (k_log s1) (k_disksize s1) b) as Hh.
  { intros b. unfold home. by rewrite Eds, Els, Elz. }
  assert (forall V0, (forall b, home (k_log s) (k_disksize s) b -> V0 b = V b) -> disk_file V0 (k_sb s) inum = new) as Hext.
  { intros V0 HV. rewrite <- Hnew. unfold disk_file. rewrite (home_inode s V V0 Hg HV) by done. by apply (home_contents s). }
  exists s', (tx_writes V (k_log s1) bl). split_and!.
  - exact (filewrite_run s f ip t addr s1 s' (of_file _ _ _ _ _ _ Hof) (of_type _ _ _ _ _ _ Hof) Hlen Hrun Hrun').
  - split; [by eapply log_ok_view|by rewrite El'|by rewrite El'].
  - by rewrite (logged_writes _ _ _ Hlg), Ew.
  - by rewrite (logged_files _ _ _ Hlg).
  - apply Hext. intros b Hb'%Hh. rewrite (logged_disk _ _ _ Hlg). by apply (tx_home Hok).
  - intros W1 r Hp Hr. assert (rebooted s1 (bsets (k_disk s1) W1) r) as Hr1.
    { destruct Hr. split; congruence. }
    destruct (tx_crash Hok W1 r Hp Hr1) as (r' & Hrec & _ & [Hb'|Hb']); exists r'; (split; [done|]); [left|right].
    + unfold old, disk_file. assert (forall b, home (k_log s) (k_disksize s) b -> k_disk r' b = k_disk s b) as HV.
      { intros b Hx%Hh. by rewrite Hb', Ed. }
      rewrite (home_inode s _ _ Hg HV) by done. by apply (home_contents s).
    + apply Hext. intros b Hx%Hh. by apply Hb'.
Qed.

End durable.

(** ** The theorem on a small disk *)

#[local] Instance demo_fuel : Fuel := 1%nat.
#[local] Existing Instance demo_link.

(** File 3 is open for appending to "f", inode 2, in entry 0 of the table. *)
Definition demo_handle : file := mkfile FD_INODE 1 true true 0 (Some 0%nat) 700.
Definition demo_entry : inode := set_i_ref 1 (set_i_inum 2 (set_i_dev 1 inode_zero)).
Definition demo_writer : kernel :=
  set_k_files (<[3%nat := demo_handle]> (replicate NFILE file_zero))
    (set_k_inodes (<[0%nat := demo_entry]> (replicate NINODE inode_zero))
      (set_k_log (mklog 2 30 0 false 1 0 (replicate 30 0)) demo_fs)).

Lemma demo_writer_idle : log_idle demo_writer.
Proof.
  split; [split|done|done].
  - split; vm_compute; (done || lia).
  - split; try done. constructor.
  - refine (demo_bufs_ok demo_writer _ eq_refl demo_disk_ok). by split.
  - by vm_compute.
Qed.

Lemma demo_writer_open : open_file demo_writer 3 0 demo_handle demo_entry 3.
Proof.
  split; [exact demo_writer_idle| |exact demo_bitmap_ok|reflexivity|split; [reflexivity|split; reflexivity]|reflexivity
    | | |intros Hv; discriminate Hv| | |].
  - split; vm_compute; (done || lia).
  - split; by vm_compute.
  - split; [done|]. split; by vm_compute.
  - split_and!; [by vm_compute|by vm_compute| |apply file_okb_ok; by vm_compute].
    assert (disk_inode (k_disk demo_writer) (k_sb demo_writer) (i_inum demo_entry) = demo_file) as -> by by vm_compute.
    split; simpl; try lia. repeat (constructor; [lia|]). constructor.
  - by vm_compute.
  - change (2 * io_rounds 3 <= nfree demo_disk demo_sb)%nat. rewrite demo_nfree. vm_compute. lia.
Qed.

Lemma filewrite_atomic_witness :
  exists s', filewrite 3 [1; 2; 3] 3 demo_writer = Ret 3 s' /\
    drop 699 (disk_file (k_disk s') demo_sb 2) = [66; 1; 2; 3].
Proof.
  destruct (filewrite_atomic demo_writer 3 0 demo_handle demo_entry [1; 2; 3] demo_writer_open) as (s' & W & Hrun & _ & _ & _ & Hnew & _).
  - repeat (constructor; [by vm_compute|]). constructor.
  - split; by vm_compute.
  - by vm_compute.
  - by vm_compute.
  - by vm_compute.
  - exists s'. split; [exact Hrun|]. change (k_sb demo_writer) with demo_sb in Hnew. change (i_inum demo_entry) with 2 in Hnew.
    rewrite Hnew. by vm_compute.
Defined.
