(* ===== verification/Life.v ===== *)
(** * The life of a process (proc.c: allocproc, userinit, growproc, fork, exit, wait, waitx, forkret)

    A process is created with a kernel stack, whose top is laid out so that
    the first switch to it continues in [forkret] and [trapret], and its
    resources are returned by its parent.  The trap frame and the context of
    a process are in [k_mem], in its kernel stack. *)

From stdpp Require Import base numbers list option strings gmap.
From S2P Require Import Prelude Kernel Fields Mmu Spinlock Proc Cprintf Cstring Bytes Sleeplock Dll Bio Log Kalloc Vm.
From S2P Require Import Uvm Pipe Inode Console Fs File.

(** ** The trap frame and the context *)

Definition sizeof_tf : Z := 76.
Definition tf_eax : Z := 28.
Definition tf_es : Z := 40.
Definition tf_ds : Z := 44.
Definition tf_trapno : Z := 48.
Definition tf_err : Z := 52.
Definition tf_eip : Z := 56.
Definition tf_cs : Z := 60.
Definition tf_eflags : Z := 64.
Definition tf_esp : Z := 68.
Definition tf_ss : Z := 72.
Definition sizeof_context : Z := 20.
Definition context_eip : Z := 16.

(** The selectors of user segments and the interrupt flag. *)
Definition SEG_UCODE : Z := 3.
Definition SEG_UDATA : Z := 4.
Definition DPL_USER : Z := 3.
Definition FL_IF : Z := 0x200.

(** [p->x = v] for a field of a structure in memory. *)
Definition poke32 (a w : Z) : K unit := m <- get_mem ;; set_mem (store32 m a w).
Definition poke16 (a w : Z) : K unit := m <- get_mem ;; set_mem (store16 m a w).

Section life_code.
Context `{Link} `{Fuel}.

(** ** Creation *)

(** The fields [allocproc] sets under the lock. *)
Definition embryo (pid ticks : Z) (p : proc) : proc :=
  set_p_priority 60 (set_p_last_check ticks (set_p_rtime 0 (set_p_ctime ticks
    (set_p_pid pid (set_p_state EMBRYO p))))).

Definition allocproc : K (option nat) :=
  acquire L_ptable ;;
  t <- gets k_proc ;;
  match find_proc (is_state UNUSED) t with
  | None => release L_ptable ;; ret None
  | Some i =>
      pid <- gets k_nextpid ;;
      modify (set_k_nextpid (i32 (pid + 1))) ;;
      ticks <- gets k_ticks ;;
      upd_proc i (embryo pid ticks) ;;
      release L_ptable ;;
      kstack <- kalloc ;;
      upd_proc i (set_p_kstack kstack) ;;
      if kstack =? 0 then
        upd_proc i (set_p_state UNUSED) ;;
        ret None
      else
        let tf := kstack + KSTACKSIZE - sizeof_tf in
        upd_proc i (set_p_tf tf) ;;
        poke32 (tf - 4) l_trapret ;;
        let context := tf - 4 - sizeof_context in
        upd_proc i (set_p_context context) ;;
        m <- get_mem ;;
        set_mem (memset m context 0 sizeof_context) ;;
        poke32 (context + context_eip) l_forkret ;;
        ret (Some i)
  end.

(** [initcode] are the bytes of the linked-in program. *)
Definition userinit (initcode : list Z) : K unit :=
  p <- allocproc ;;
  modify (set_k_initproc p) ;;
  pgdir <- setupkvm ;;
  i <- deref p ;;
  upd_proc i (set_p_pgdir pgdir) ;;
  if pgdir =? 0 then panic "userinit: out of memory?" else
  inituvm pgdir initcode ;;
  upd_proc i (set_p_sz PGSIZE) ;;
  pr <- get_proc i ;;
  let tf := p_tf pr in
  m <- get_mem ;;
  set_mem (memset m tf 0 sizeof_tf) ;;
  poke16 (tf + tf_cs) (Z.lor (Z.shiftl SEG_UCODE 3) DPL_USER) ;;
  poke16 (tf + tf_ds) (Z.lor (Z.shiftl SEG_UDATA 3) DPL_USER) ;;
  poke16 (tf + tf_es) (Z.lor (Z.shiftl SEG_UDATA 3) DPL_USER) ;;
  poke16 (tf + tf_ss) (Z.lor (Z.shiftl SEG_UDATA 3) DPL_USER) ;;
  poke32 (tf + tf_eflags) FL_IF ;;
  poke32 (tf + tf_esp) PGSIZE ;;
  poke32 (tf + tf_eip) 0 ;;
  upd_proc i (fun p => set_p_name (overlay (safestrcpy (arr (chars "initcode")) 16) (p_name p)) p) ;;
  cwd <- namei [slash] ;;
  upd_proc i (set_p_cwd cwd) ;;
  acquire L_ptable ;;
  upd_proc i (set_p_state RUNNABLE) ;;
  release L_ptable.

Definition growproc (n : Z) : K Z :=
  i <- curproc ;;
  p <- get_proc i ;;
  let sz := p_sz p in
  r <- (if 0 <? n then
          sz' <- allocuvm (p_pgdir p) sz (u32 (sz + n)) ;;
          ret (if sz' =? 0 then None else Some sz')
        else if n <? 0 then
          sz' <- deallocuvm (p_pgdir p) sz (u32 (sz + n)) ;;
          ret (if sz' =? 0 then None else Some sz')
        else ret (Some sz)) ;;
  match r with
  | None => ret (-1)
  | Some sz =>
      upd_proc i (set_p_sz sz) ;;
      switchuvm i ;;
      ret 0
  end.

(** [np->ofile[i] = filedup(curproc->ofile[i])] for the open descriptors. *)
Definition dup_files (cur np : nat) : K unit :=
  foreach (seq 0 NOFILE) (fun fd =>
    p <- get_proc cur ;;
    match p_ofile p !!! fd with
    | None => ret tt
    | Some f =>
        f <- filedup f ;;
        upd_proc np (fun q => set_p_ofile (<[fd := Some f]> (p_ofile q)) q)
    end).

Definition fork : K Z :=
  cur <- curproc ;;
  np <- allocproc ;;
  match np with
  | None => ret (-1)
  | Some np =>
      p <- get_proc cur ;;
      pgdir <- copyuvm (p_pgdir p) (p_sz p) ;;
      upd_proc np (set_p_pgdir pgdir) ;;
      if pgdir =? 0 then
        q <- get_proc np ;;
        kfree (p_kstack q) ;;
        upd_proc np (fun q => set_p_state UNUSED (set_p_kstack 0 q)) ;;
        ret (-1)
      else
        upd_proc np (fun q => set_p_parent (Some cur) (set_p_sz (p_sz p) q)) ;;
        q <- get_proc np ;;
        m <- get_mem ;;
        set_mem (write_bytes m (p_tf q) (read_bytes m (p_tf p) (Z.to_nat sizeof_tf))) ;;
        poke32 (p_tf q + tf_eax) 0 ;;
        dup_files cur np ;;
        p <- get_proc cur ;;
        cwd <- deref (p_cwd p) ;;
        cwd <- idup cwd ;;
        upd_proc np (set_p_cwd (Some cwd)) ;;
        upd_proc np (fun q => set_p_name (overlay (safestrcpy (arr (p_name p)) 16) (p_name q)) q) ;;
        q <- get_proc np ;;
        let pid := p_pid q in
        acquire L_ptable ;;
        upd_proc np (set_p_state RUNNABLE) ;;
        release L_ptable ;;
        ret pid
  end.

(** ** Exit and wait *)

Definition close_files (cur : nat) : K unit :=
  foreach (seq 0 NOFILE) (fun fd =>
    p <- get_proc cur ;;
    match p_ofile p !!! fd with
    | None => ret tt
    | Some f =>
        fileclose f ;;
        upd_proc cur (fun p => set_p_ofile (<[fd := None]> (p_ofile p)) p)
    end).

(** The loop of [exit] over the table. *)
Definition pass_children (cur : nat) : K unit :=
  initproc <- gets k_initproc ;;
  foreach (seq 0 NPROC) (fun j =>
    p <- get_proc j ;;
    when (bool_decide (p_parent p = Some cur))
      (upd_proc j (set_p_parent initproc) ;;
       when (is_state ZOMBIE p) (wakeup1 (Ch_proc <$> initproc)))).

Definition exit {A} : K A :=
  cur <- curproc ;;
  initproc <- gets k_initproc ;;
  if bool_decide (initproc = Some cur) then panic "init exiting" else
  close_files cur ;;
  begin_op ;;
  p <- get_proc cur ;;
  cwd <- deref (p_cwd p) ;;
  iput cwd ;;
  end_op ;;
  upd_proc cur (set_p_cwd None) ;;
  acquire L_ptable ;;
  p <- get_proc cur ;;
  wakeup1 (Ch_proc <$> p_parent p) ;;
  pass_children cur ;;
  ticks <- gets k_ticks ;;
  upd_proc cur (fun p => set_p_etime ticks (set_p_state ZOMBIE p)) ;;
  sched ;;
  panic "zombie exit".

(** A child [wait] is looking for. *)
Definition child (cur : nat) (p : proc) : bool := bool_decide (p_parent p = Some cur).
Definition zombie_child (cur : nat) (p : proc) : bool := child cur p && is_state ZOMBIE p.

Definition unused (ticks : Z) (p : proc) : proc :=
  set_p_etime ticks (set_p_state UNUSED (set_p_killed 0
    (set_p_name (<[0%nat := 0]> (p_name p)) (set_p_parent None (set_p_pid 0 p))))).

(** What [wait] and [waitx] do with the zombie they find. *)
Definition reap (i : nat) : K Z :=
  p <- get_proc i ;;
  kfree (p_kstack p) ;;
  upd_proc i (set_p_kstack 0) ;;
  freevm (p_pgdir p) ;;
  ticks <- gets k_ticks ;;
  upd_proc i (unused ticks) ;;
  release L_ptable ;;
  ret (p_pid p).

(** The loop of [wait] and [waitx]: the slot of the child and its pid. *)
Fixpoint wait_loop (n : nat) (cur : nat) : K (option (nat * Z)) :=
  t <- gets k_proc ;;
  match find_proc (zombie_child cur) t with
  | Some i => pid <- reap i ;; ret (Some (i, pid))
  | None =>
      p <- get_proc cur ;;
      if negb (existsb (child cur) t) || negb (p_killed p =? 0) then
        release L_ptable ;; ret None
      else
        sleep (Ch_proc cur) L_ptable ;;
        match n with O => out_of_fuel | S n' => wait_loop n' cur end
  end.

Definition wait : K Z :=
  cur <- curproc ;;
  acquire L_ptable ;;
  r <- wait_loop fuel cur ;;
  ret (match r with Some (_, pid) => pid | None => -1 end).

(** The result, and the values stored at [wtime] and [rtime]. *)
Definition waitx : K (Z * Z * Z) :=
  cur <- curproc ;;
  acquire L_ptable ;;
  r <- wait_loop fuel cur ;;
  match r with
  | Some (i, pid) =>
      p <- get_proc i ;;
      ticks <- gets k_ticks ;;
      ret (pid, u32 (ticks - p_ctime p - p_rtime p), p_rtime p)
  | None => ret (-1, u32 (-1), u32 (-1))
  end.

Definition forkret : K unit :=
  release L_ptable ;;
  first <- gets k_first ;;
  when first
    (modify (set_k_first false) ;;
     iinit ROOTDEV ;;
     initlog ROOTDEV).

End life_code.

(** ** The proofs *)

Section life_proofs.
Context `{LinkOk} `{Fuel}.
Implicit Types (s : kernel).

(** What a child had when it was reaped, and what is left. *)
Definition reaped s (i : nat) (p : proc) (T : gmap Z Z) (U : umap) (l : list Z) s' : Prop :=
  exists l', kmem_ok s' l' /\ l' ≡ₚ p_kstack p :: pt_pages (p_pgdir p) T ++ upages U ++ l /\
    k_proc s' = <[i := unused (k_ticks s) (set_p_kstack 0 p)]> (k_proc s) /\
    (forall q, page_ok q -> q ∉ l' -> same_on (k_mem s) (k_mem s') q) /\
    exists s1, uframe s s1 /\ s' = set_k_held (tail (k_held s)) (set_k_proc (k_proc s') s1).

Lemma uvm_proc s ps pgdir T U l X : uvm s pgdir T U l X -> uvm (set_k_proc ps s) pgdir T U l X.
Proof. intros Hu. by eapply uvm_frame. Qed.

Lemma uframe_proc s s1 : uframe s s1 -> k_proc s1 = k_proc s /\ k_ticks s1 = k_ticks s.
Proof. by intros [(m & f & o & c & p & ->) _]. Qed.

Lemma uframe_set_proc s ps s1 : uframe (set_k_proc ps s) s1 -> uframe s (set_k_proc (k_proc s) s1) /\ k_proc s1 = ps.
Proof.
  intros [(m & f & o & c & p & ->) Hc]. split; [|reflexivity].
  split; [exists m, f, o, c, p; by destruct s|]. unfold cursor_ok in *. kproj. kproj_in Hc. exact Hc.
Qed.

Lemma reap_spec s i p T U l h :
  k_proc s !! i = Some p -> uvm s (p_pgdir p) T U l [p_kstack p] -> L_kmem ∉ k_held s ->
  k_held s = L_ptable :: h -> L_ptable ∉ h ->
  wp (reap i) s (fun r s' => r = p_pid p /\ reaped s i p T U l s').
Proof.
  intros Hp Hu Hk Hh Hnh. pose proof (list_lookup_total_correct _ _ _ Hp) as Et. unfold reap, upd_proc, get_proc.
  destruct (owned_distinct _ _ _ _ _ _ _ _ Hu (owned_hold _ _ _ _ _ _)) as [Hks Hnew].
  apply wp_bind. eapply wp_run; [reflexivity|]. rewrite Et. apply wp_bind. eapply wp_run; [by apply kfree_run|].
  pose proof (ustep_push s (p_pgdir p) T U l [] (p_kstack p) Hu) as [Hu1 Hf1 _ _ _ _ _ _ _].
  set (s1 := set_k_freelist _ _) in *. apply wp_bind. eapply wp_run; [reflexivity|].
  set (ps := alter _ i (k_proc s1)). apply wp_bind. eapply wp_mono; [apply (freevm_spec _ (p_pgdir p) T U (p_kstack p :: l) [])|].
  { by apply uvm_proc. }
  { exact Hk. }
  intros _ s2 (l' & Hk2 & HP & [F1 F2]). rewrite app_nil_r in HP. destruct (uframe_set_proc _ _ _ F1) as [F1' Ep2].
  apply wp_bind. eapply wp_run; [reflexivity|]. apply wp_bind. eapply wp_run; [reflexivity|].
  apply wp_bind. eapply wp_run; [apply (release_head _ h); [done|]; kproj; by rewrite (uframe_held _ _ F1)|].
  apply wp_ret. split; [done|]. exists l'. split_and!.
  - destruct Hk2; by split.
  - rewrite HP. unfold owned. rewrite app_nil_r. solve_Permutation.
  - kproj. rewrite Ep2. destruct (uframe_proc _ _ F1) as [_ ->]. unfold ps. change (k_proc s1) with (k_proc s).
    rewrite (alter_is_insert _ _ _ _ Hp), alter_of_insert. done.
  - intros q Hq Hn. kproj. eapply same_on_trans; [|apply F2; [done|by rewrite <- HP]].
    unfold s1. kproj. apply same_on_freed; [done|done|]. intros ->. apply Hn. rewrite HP. unfold owned. set_solver.
  - exists (set_k_proc (k_proc s) s2). split; [exact (uframe_trans _ _ _ Hf1 F1')|]. kproj.
    by rewrite Hh.
Qed.

Lemma wait_loop_reap f s cur i p T U l h :
  find_proc (zombie_child cur) (k_proc s) = Some i -> k_proc s !! i = Some p ->
  uvm s (p_pgdir p) T U l [p_kstack p] -> L_kmem ∉ k_held s -> k_held s = L_ptable :: h -> L_ptable ∉ h ->
  wp (wait_loop f cur) s (fun r s' => r = Some (i, p_pid p) /\ reaped s i p T U l s').
Proof.
  intros Hf Hp Hu Hk Hh Hnh. destruct f as [|f]; cbn [wait_loop]; apply wp_bind; (eapply wp_run; [reflexivity|]); rewrite Hf;
    apply wp_bind; (eapply wp_mono; [by apply (reap_spec s i p T U l h)|]); intros r s' [-> Hr]; by apply wp_ret.
Qed.

(** *** What wait promises *)

(** A child of process [cur] that has exited. *)
Definition zombie_of (cur : nat) (p : proc) : Prop := p_parent p = Some cur /\ p_state p = ZOMBIE.

(** [q] is the slot of [p] after it was given back at time [now]: [allocproc]
    can take it, no [kill] or [wait] finds it, and it has no stack. *)
Record slot_freed (now : Z) (p q : proc) : Prop := {
  sf_state : p_state q = UNUSED;
  sf_pid : p_pid q = 0;
  sf_parent : p_parent q = None;
  sf_killed : p_killed q = 0;
  sf_kstack : p_kstack q = 0;
  sf_name : p_name p <> [] -> head (p_name q) = Some 0;
  sf_etime : p_etime q = now;
}.

Lemma unused_freed now p : slot_freed now p (unused now (set_p_kstack 0 p)).
Proof. split; try done. by destruct p as [? ? ? ? ? ? ? ? ? ? ? ? [|]]. Qed.

Lemma zombie_child_iff cur p : zombie_child cur p = true <-> zombie_of cur p.
Proof. unfold zombie_child, zombie_of, child, is_state. by rewrite andb_true_iff, !bool_decide_eq_true. Qed.

Lemma find_first f l i :
  (i < length l)%nat -> f (l !!! i) = true -> (forall j, (j < i)%nat -> f (l !!! j) = false) -> find_proc f l = Some i.
Proof.
  intros Hi Hf Hb. unfold find_proc. rewrite fmap_Some. exists (i, l !!! i). split; [|done].
  apply list_find_Some. split_and!; [by apply list_lookup_lookup_total_lt|done|].
  intros j y Hj Hlt Hy. specialize (Hb j Hlt). rewrite (list_lookup_total_correct _ _ _ Hj) in Hb. congruence.
Qed.

(** The first child that has exited. *)
Definition first_zombie (cur : nat) (l : list proc) (i : nat) (p : proc) : Prop :=
  l !! i = Some p /\ zombie_of cur p /\ forall j q, (j < i)%nat -> l !! j = Some q -> ~ zombie_of cur q.

Lemma first_zombie_find cur l i p : first_zombie cur l i p -> find_proc (zombie_child cur) l = Some i.
Proof.
  intros (Hp & Hz & Hb). pose proof (lookup_lt_Some _ _ _ Hp). apply find_first; [done| |].
  - rewrite (list_lookup_total_correct _ _ _ Hp). by apply zombie_child_iff.
  - intros j Hj. destruct (lookup_lt_is_Some_2 l j) as [q Hq]; [lia|]. rewrite (list_lookup_total_correct _ _ _ Hq).
    apply not_true_is_false. rewrite zombie_child_iff. by eapply Hb.
Qed.

Lemma no_zombie_find cur l : (forall j q, l !! j = Some q -> ~ zombie_of cur q) -> find_proc (zombie_child cur) l = None.
Proof.
  intros Hz. unfold find_proc. rewrite fmap_None, list_find_None, Forall_lookup. intros j q Hq.
  rewrite zombie_child_iff. by eapply Hz.
Qed.

Lemma existsb_child cur l : existsb (child cur) l = true <-> exists j q, l !! j = Some q /\ p_parent q = Some cur.
Proof.
  rewrite existsb_exists. split.
  - intros (q & Hq & Hc). apply list_elem_of_In, list_elem_of_lookup in Hq as [j Hj]. exists j, q. split; [done|].
    by apply bool_decide_eq_true in Hc.
  - intros (j & q & Hj & Hc). exists q. split; [apply list_elem_of_In; by eapply list_elem_of_lookup_2|].
    by apply bool_decide_eq_true.
Qed.

(** Both calls are the loop between [acquire] and a return. *)
Lemma wait_enter s cur : k_cur s = Some cur -> L_ptable ∉ k_held s ->
  let s0 := set_k_held (L_ptable :: k_held s) s in
  wait s = res_bind (wait_loop fuel cur s0) (fun r => ret (match r with Some (_, pid) => pid | None => -1 end)) /\
  waitx s = res_bind (wait_loop fuel cur s0) (fun r =>
    match r with
    | Some (i, pid) => p <- get_proc i ;; ticks <- gets k_ticks ;; ret (pid, u32 (ticks - p_ctime p - p_rtime p), p_rtime p)
    | None => ret (-1, u32 (-1), u32 (-1))
    end).
Proof.
  intros Hc Hh. unfold wait, waitx, bind. rewrite (curproc_run cur) by done. cbn [res_bind].
  rewrite acquire_run by done. done.
Qed.

Lemma wait_loop_fail f s cur h :
  k_held s = L_ptable :: h -> L_ptable ∉ h -> (forall j q, k_proc s !! j = Some q -> ~ zombie_of cur q) ->
  (forall j q, k_proc s !! j = Some q -> p_parent q <> Some cur) \/ p_killed (k_proc s !!! cur) <> 0 ->
  wait_loop f cur s = Ret None (set_k_held h s).
Proof.
  intros Hh Hnh Hz Hwhy. assert (negb (existsb (child cur) (k_proc s)) || negb (p_killed (k_proc s !!! cur) =? 0) = true) as E.
  { apply orb_true_iff. destruct Hwhy as [Hn|Hk]; [left|right; by apply negb_true_iff, Z.eqb_neq].
    apply negb_true_iff, not_true_is_false. intros (j & q & Hj & Hc)%existsb_child. by eapply Hn. }
  destruct f; cbn [wait_loop]; unfold get_proc; krun; rewrite (no_zombie_find _ _ Hz); rewrite E;
    by rewrite (release_head _ h).
Qed.

Lemma wait_loop_sleeps f s cur :
  k_cur s = Some cur -> (cur < length (k_proc s))%nat -> k_held s = [L_ptable] ->
  (forall j q, k_proc s !! j = Some q -> ~ zombie_of cur q) ->
  (exists j q, k_proc s !! j = Some q /\ p_parent q = Some cur) -> p_killed (k_proc s !!! cur) = 0 ->
  exists k, wait_loop f cur s = Swtch None (asleep cur (Ch_proc cur) s) k.
Proof.
  intros Hc Hi Hh Hz Hkid Hk. destruct (sleep_run cur (Ch_proc cur) L_ptable s Hc Hi Hh) as (k & Hs & _).
  destruct f; cbn [wait_loop]; unfold get_proc; krun; rewrite (no_zombie_find _ _ Hz);
    rewrite (proj2 (existsb_child _ _) Hkid), Hk; cbn [negb orb Z.eqb]; rewrite Hs; by eexists.
Qed.

(** C33: [wait] and [waitx] reap the first zombie among the caller's
    children: they return its pid, its slot is free for the next process (in
    state UNUSED, without pid, parent, kernel stack or a pending kill), every
    other slot is as it was, and its kernel stack, its memory and its page
    tables are all back on the free list.  [waitx] also gives the time the
    child ran, and the rest of the time from its creation to this call.
    Without a zombie they fail, with nothing changed, if the caller has no
    children or was killed; otherwise they give the processor away, asleep on
    the channel on which an exiting child wakes its parent. *)
Theorem wait_correct s cur :
  k_cur s = Some cur -> L_ptable ∉ k_held s -> L_kmem ∉ k_held s ->
  (forall i p T U l, first_zombie cur (k_proc s) i p -> uvm s (p_pgdir p) T U l [p_kstack p] ->
    exists s' l' q, wait s = Ret (p_pid p) s' /\
      waitx s = Ret (p_pid p, u32 (k_ticks s - p_ctime p - p_rtime p), p_rtime p) s' /\
      kmem_ok s' l' /\ l' ≡ₚ p_kstack p :: pt_pages (p_pgdir p) T ++ upages U ++ l /\
      k_proc s' = <[i := q]> (k_proc s) /\ slot_freed (k_ticks s) p q /\ k_held s' = k_held s /\
      forall a, page_ok a -> a ∉ l' -> same_on (k_mem s) (k_mem s') a) /\
  ((forall j q, k_proc s !! j = Some q -> ~ zombie_of cur q) ->
   ((forall j q, k_proc s !! j = Some q -> p_parent q <> Some cur) \/ p_killed (k_proc s !!! cur) <> 0 ->
     wait s = Ret (-1) s /\ waitx s = Ret (-1, u32 (-1), u32 (-1)) s) /\
   ((exists j q, k_proc s !! j = Some q /\ p_parent q = Some cur) -> p_killed (k_proc s !!! cur) = 0 ->
    k_held s = [] -> (cur < length (k_proc s))%nat ->
     exists s1 k kx, wait s = Swtch None s1 k /\ waitx s = Swtch None s1 kx /\ k_held s1 = [L_ptable] /\
       p_state (k_proc s1 !!! cur) = SLEEPING /\ p_chan (k_proc s1 !!! cur) = Some (Ch_proc cur) /\
       forall j, j <> cur -> k_proc s1 !!! j = k_proc s !!! j)).
Proof.
  intros Hc Hnp Hnk. destruct (wait_enter s cur Hc Hnp) as [Ew Ex]. set (s0 := set_k_held (L_ptable :: k_held s) s) in *.
  split; [|intros Hz; split].
  - intros i p T U l Hz Hu. pose proof (proj1 Hz) as Hp.
    destruct (wp_inv _ _ _ (wait_loop_reap fuel s0 cur i p T U l (k_held s) (first_zombie_find _ _ _ _ Hz) Hp
      ltac:(by eapply uvm_frame) ltac:(unfold s0; kproj; by apply not_elem_of_cons) eq_refl Hnp))
      as (r & s' & Hrun & -> & l' & Hk & HP & Eps & Hsame & s1 & Hf1 & E).
    assert (k_ticks s' = k_ticks s) as Et by (rewrite E; kproj; by destruct (uframe_proc _ _ Hf1) as [_ ->]).
    exists s', l', (unused (k_ticks s) (set_p_kstack 0 p)). split_and!; try done.
    + by rewrite Ew, Hrun.
    + rewrite Ex, Hrun. cbn [res_bind]. unfold get_proc. krun. rewrite Eps, Et. change (k_proc s0) with (k_proc s).
      by rewrite list_lookup_total_insert_eq by (by eapply lookup_lt_Some).
    + apply unused_freed.
    + by rewrite E.
  - intros Hwhy. rewrite Ew, Ex, (wait_loop_fail fuel s0 cur (k_held s)) by done. cbn [res_bind].
    unfold s0. split; keq.
  - intros Hkid Hkl Hh Hi. rewrite Ew, Ex. destruct (wait_loop_sleeps fuel s0 cur) as (k & ->); try done.
    { unfold s0. kproj. by rewrite Hh. }
    eexists _, _, _. split_and!; [reflexivity|reflexivity|done|..]; unfold asleep; kproj;
      change (k_proc s0) with (k_proc s).
    1,2: by rewrite list_lookup_total_alter_eq.
    intros j Hj. by rewrite list_lookup_total_alter_ne.
Qed.

(** Shrinking a process to nothing frees all its memory and yet fails:
    [growproc] takes the new size 0 for an error, so the process keeps its
    old size although none of its pages is mapped. *)
Theorem growproc_to_zero s cur T U l :
  k_cur s = Some cur -> L_kmem ∉ k_held s ->
  let p := k_proc s !!! cur in
  uvm s (p_pgdir p) T U l [] -> usize U (p_sz p) -> 0 < p_sz p <= KERNBASE ->
  exists s', growproc (- p_sz p) s = Ret (-1) s' /\ k_proc s' = k_proc s /\
    forall a, 0 <= a < KERNBASE -> user_byte (k_mem s') (p_pgdir p) a = None.
Proof.
  intros Hc Hnk p Hu Hs Hsz.
  destruct (wp_inv _ _ _ (deallocuvm_spec s (p_pgdir p) T U l [] (p_sz p) 0 Hu Hnk ltac:(lia) ltac:(lia)))
    as (r & s' & Hrun & -> & l' & [Hu' Hf _ _ _ _ _ _ _]).
  exists s'. split_and!.
  - unfold growproc, bind. rewrite (curproc_run cur) by done. cbn [res_bind]. unfold get_proc, gets. cbn [res_bind]. fold p.
    destruct (Z.ltb_spec 0 (- p_sz p)); [lia|]. destruct (Z.ltb_spec (- p_sz p) 0); [|lia].
    rewrite Z.add_opp_diag_r. change (u32 0) with 0. rewrite Hrun. cbn [res_bind ret]. rewrite Z.min_r by lia. done.
  - by destruct (uframe_proc _ _ Hf).
  - intros a Ha. eapply user_byte_none; [exact Hu'|done|]. rewrite lookup_ucut.
    assert (0 <= a / PGSIZE) by (unfold PGSIZE; Z.div_mod_to_equations; lia). change (npages 0) with 0.
    destruct (Z.leb_spec 0 (a / PGSIZE)); [|lia]. destruct (Z.ltb_spec (a / PGSIZE) (npages (p_sz p))); [done|].
    cbn [andb]. apply (usize_none U (p_sz p)); [done|lia].
Qed.

Lemma find_proc_insert f l i q : find_proc f l = Some i -> f q = true -> find_proc f (<[i := q]> l) = Some i.
Proof.
  unfold find_proc. rewrite !fmap_Some. intros ([j p] & Hf & ->) Hq. exists (j, q). split; [|done].
  apply list_find_Some in Hf as (Hl & Hp & Hb). apply list_find_Some. cbn [fst].
  split_and!; [apply list_lookup_insert_eq; by eapply lookup_lt_Some|done|].
  intros k y Hk Hlt. rewrite list_lookup_insert_ne in Hk by lia. by eapply Hb.
Qed.

(** What [allocproc] leaves in the kernel stack [v]: the context of a call that
    returns to [forkret], and below the trap frame the return address of
    [forkret]. *)
Definition new_stack (v : Z) (m : memory) : memory :=
  let tf := v + KSTACKSIZE - sizeof_tf in
  let context := tf - 4 - sizeof_context in
  store32 (memset (store32 m (tf - 4) l_trapret) context 0 sizeof_context) (context + context_eip) l_forkret.

(** The slot of the new process. *)
Lemma allocproc_spec s i p v l :
  L_ptable ∉ k_held s -> L_kmem ∉ k_held s -> kmem_ok s (v :: l) ->
  find_proc (is_state UNUSED) (k_proc s) = Some i -> k_proc s !! i = Some p ->
  wp allocproc s (fun r s' => r = Some i /\
    k_proc s' = <[i := set_p_context (v + KSTACKSIZE - sizeof_tf - 4 - sizeof_context)
      (set_p_tf (v + KSTACKSIZE - sizeof_tf) (set_p_kstack v (embryo (k_nextpid s) (k_ticks s) p)))]> (k_proc s) /\
    k_mem s' = new_stack v (k_mem s)).
Proof.
  intros Hnp Hnk Hk Hfu Hp. unfold allocproc, upd_proc, poke32, get_mem, set_mem.
  apply wp_bind. eapply wp_run; [by apply acquire_run|]. apply wp_bind. eapply wp_run; [reflexivity|]. kproj. rewrite Hfu.
  do 4 (apply wp_bind; eapply wp_run; [reflexivity|]). kproj. apply wp_bind.
  eapply wp_run; [by apply (release_head _ (k_held s))|]. apply wp_bind.
  eapply wp_run; [apply (kalloc_run _ v l); [exact Hnk|destruct Hk; by split]|].
  apply wp_bind. eapply wp_run; [reflexivity|].
  assert (v <> 0) as Hv. { destruct Hk as [_ _ [Hpv _]%Forall_cons]. apply page_ok_pos in Hpv. unfold KERNBASE in Hpv. lia. }
  rewrite (proj2 (Z.eqb_neq v 0) Hv). cbv zeta.
  repeat (apply wp_bind; eapply wp_run; [reflexivity|]). apply wp_ret. split; [done|]. kproj.
  by rewrite (alter_is_insert _ _ _ _ Hp), !alter_of_insert.
Qed.

(** [kill(0)] succeeds, on a slot that is not in use, and the process
    that is created there next has already been killed: [allocproc] does not
    reset [killed]. *)
Theorem kill_zero s i v l :
  L_ptable ∉ k_held s -> L_kmem ∉ k_held s -> kmem_ok s (v :: l) ->
  find_proc (fun p => p_pid p =? 0) (k_proc s) = Some i -> find_proc (is_state UNUSED) (k_proc s) = Some i ->
  exists s1 s2, kill 0 s = Ret 0 s1 /\ allocproc s1 = Ret (Some i) s2 /\
    p_state (k_proc s2 !!! i) = EMBRYO /\ p_killed (k_proc s2 !!! i) = 1.
Proof.
  intros Hnp Hnk Hk Hf0 Hfu. destruct (find_proc_Some _ _ _ Hfu) as (Hi & Hun & Hbef).
  destruct (lookup_lt_is_Some_2 _ _ Hi) as [p Hp]. rewrite (list_lookup_total_correct _ _ _ Hp) in Hun.
  set (s1 := set_k_proc (alter killed_entry i (k_proc s)) s). exists s1.
  assert (killed_entry p = set_p_killed 1 p) as Ek.
  { unfold is_state in Hun. apply bool_decide_eq_true in Hun. unfold killed_entry, is_state. cbn [p_state set_p_killed]. by rewrite Hun. }
  assert (k_proc s1 = <[i := set_p_killed 1 p]> (k_proc s)) as E1.
  { unfold s1. kproj. by rewrite (alter_is_insert _ _ _ _ Hp), Ek. }
  assert (find_proc (is_state UNUSED) (k_proc s1) = Some i) as Hf1 by (rewrite E1; by apply find_proc_insert).
  destruct (wp_inv _ _ _ (allocproc_spec s1 i (set_p_killed 1 p) v l Hnp Hnk ltac:(by destruct Hk; split) Hf1
    ltac:(rewrite E1; by apply list_lookup_insert_eq))) as (r & s2 & Hrun & -> & E2 & _).
  exists s2. rewrite E2, list_lookup_total_insert_eq by (by rewrite E1, length_insert).
  split_and!; [by apply kill_run|done|done|done].
Qed.

End life_proofs.

(** ** The theorems on a small machine *)

#[local] Instance demo_fuel : Fuel := 1%nat.
#[local] Existing Instance demo_link.
#[local] Existing Instance demo_link_ok.

(** Process 0 is running, with the address space of [demo_space]; process 1
    is its child, with pid 7, a zombie with the same address space. *)
Definition demo_parent : proc :=
  set_p_pid 1 (set_p_state RUNNING (set_p_sz PGSIZE (set_p_pgdir 0x80400000 proc_zero))).
Definition demo_child : proc :=
  set_p_pid 7 (set_p_state ZOMBIE (set_p_parent (Some 0%nat) (set_p_ctime 10 (set_p_pgdir 0x80400000 (set_p_kstack 0x80500000 proc_zero))))).
Definition demo_family : kernel :=
  set_k_cur (Some 0%nat) (set_k_ticks 25 (set_k_proc [demo_parent; demo_child; proc_zero] demo_space)).

Lemma demo_family_uvm X :
  bool_decide (NoDup (owned 0x80400000 demo_T demo_U demo_l X)) = true -> Forall page_ok X ->
  uvm demo_family 0x80400000 demo_T demo_U demo_l X.
Proof.
  intros Hn HX. destruct (uvm_frame demo_space demo_family _ _ _ _ _ demo_space_uvm) as [[H1 _ H3 H4 H5] _]; [done|done|].
  split; [exact H1|exact (bool_decide_eq_true_1 _ Hn)| |exact H4|exact H5].
  unfold owned in *. rewrite !Forall_app in *. naive_solver.
Qed.

Lemma wait_correct_witness : exists s', wait demo_family = Ret 7 s' /\ waitx demo_family = Ret (7, 15, 0) s'.
Proof.
  destruct (wait_correct demo_family 0) as [H _].
  - reflexivity.
  - apply not_elem_of_nil.
  - apply not_elem_of_nil.
  - destruct (H 1%nat demo_child demo_T demo_U demo_l) as (s' & l' & q & H1 & H2 & _).
    + split; [reflexivity|]. split; [split; reflexivity|]. intros [|j] q Hj Hq; [|lia]. injection Hq as <-. by intros [? _].
    + apply demo_family_uvm; [by vm_compute|]. repeat constructor; by vm_compute.
    + exists s'. exact (conj H1 H2).
Defined.

Lemma growproc_to_zero_witness : exists s', growproc (- PGSIZE) demo_family = Ret (-1) s'.
Proof.
  destruct (growproc_to_zero demo_family 0 demo_T demo_U demo_l) as (s' & H1 & _).
  - reflexivity.
  - apply not_elem_of_nil.
  - apply demo_family_uvm; [by vm_compute|constructor].
  - exact demo_space_usize.
  - split; by vm_compute.
  - exists s'. exact H1.
Defined.

Lemma kill_zero_witness : exists s1 s2, kill 0 demo_family = Ret 0 s1 /\ allocproc s1 = Ret (Some 2%nat) s2.
Proof.
  destruct (kill_zero demo_family 2 0x80200000 [0x80300000]) as (s1 & s2 & H1 & H2 & _).
  - apply not_elem_of_nil.
  - apply not_elem_of_nil.
  - destruct (demo_family_uvm [] ltac:(by vm_compute) ltac:(constructor)) as [[Hk _ _ _ _] _ _ _ _]. exact Hk.
  - by vm_compute.
  - by vm_compute.
  - exists s1, s2. exact (conj H1 H2).
Defined.
