(* ===== verification/Exec.v ===== *)
(** * Running a program (exec.c, and loaduvm of vm.c)

    [exec] builds a new address space from an ELF file and only then replaces
    the one of the process.  [path] and the strings of [argv] are the
    characters before their NUL. *)

From stdpp Require Import base numbers list option strings gmap.
From S2P Require Import Prelude Kernel Fields Mmu Spinlock Proc Cprintf Cstring Bytes Sleeplock Dll Bio Log Kalloc Vm.
From S2P Require Import Pipe Inode Console Fs File Life.

Definition ELF_MAGIC : Z := 0x464C457F.
Definition ELF_PROG_LOAD : Z := 1.
Definition sizeof_elf : Z := 52.
Definition sizeof_ph : Z := 32.

(** The fields of the headers that [exec] uses. *)
Record elfhdr := mkelfhdr { e_magic : Z; e_entry : Z; e_phoff : Z; e_phnum : Z }.
Definition get_elfhdr (l : list Z) : elfhdr := mkelfhdr (get32 l 0) (get32 l 6) (get32 l 7) (get16 l 44).

Record proghdr := mkproghdr { ph_type : Z; ph_off : Z; ph_vaddr : Z; ph_filesz : Z; ph_memsz : Z }.
Definition get_proghdr (l : list Z) : proghdr :=
  mkproghdr (get32 l 0) (get32 l 1) (get32 l 2) (get32 l 4) (get32 l 5).

Section exec_code.
Context `{Link} `{Fuel}.

(** One page of the segment per round, from byte [i] of it on. *)
Fixpoint loaduvm_loop (k : nat) (pgdir addr : Z) (ip : nat) (offset sz i : Z) : K Z :=
  if negb (i <? sz) then ret 0 else
  match k with
  | O => out_of_fuel
  | S k' =>
      pte <- walkpgdir pgdir (u32 (addr + i)) false ;;
      if pte =? 0 then panic "loaduvm: address should exist" else
      m <- get_mem ;;
      let pa := PTE_ADDR (load32 m pte) in
      let n := if sz - i <? PGSIZE then sz - i else PGSIZE in
      r <- readi ip (u32 (offset + i)) n ;;
      m <- get_mem ;;
      set_mem (write_bytes m (P2V pa) (snd r)) ;;
      if negb (fst r =? n) then ret (-1) else
      loaduvm_loop k' pgdir addr ip offset sz (u32 (i + PGSIZE))
  end.

Definition loaduvm (pgdir addr : Z) (ip : nat) (offset sz : Z) : K Z :=
  if negb (addr mod PGSIZE =? 0) then panic "loaduvm: addr must be page aligned" else
  loaduvm_loop (Z.to_nat (sz / PGSIZE) + 1) pgdir addr ip offset sz 0.

(** [readi] of a header: the whole structure or nothing. *)
Definition read_hdr (ip : nat) (off size : Z) : K (option (list Z)) :=
  r <- readi ip off size ;;
  ret (if fst r =? size then Some (snd r) else None).

(** The loop over the program headers, [n] more from offset [off]; [None] is
    the jump to [bad]. *)
Fixpoint load_segments (n : nat) (ip : nat) (pgdir off sz : Z) : K (option Z) :=
  match n with
  | O => ret (Some sz)
  | S n' =>
      h <- read_hdr ip off sizeof_ph ;;
      match get_proghdr <$> h with
      | None => ret None
      | Some ph =>
          if negb (ph_type ph =? ELF_PROG_LOAD) then load_segments n' ip pgdir (u32 (off + sizeof_ph)) sz else
          if ph_memsz ph <? ph_filesz ph then ret None else
          if u32 (ph_vaddr ph + ph_memsz ph) <? ph_vaddr ph then ret None else
          sz <- allocuvm pgdir sz (u32 (ph_vaddr ph + ph_memsz ph)) ;;
          if sz =? 0 then ret None else
          if negb (ph_vaddr ph mod PGSIZE =? 0) then ret None else
          r <- loaduvm pgdir (ph_vaddr ph) ip (ph_off ph) (ph_filesz ph) ;;
          if r <? 0 then ret None else
          load_segments n' ip pgdir (u32 (off + sizeof_ph)) sz
      end
  end.

(** Pushing the argument strings: the stack pointer and the addresses of the
    strings, in order. *)
Fixpoint push_args (argv : list (list Z)) (argc : Z) (pgdir sp : Z) (ustack : list Z) : K (option (Z * list Z)) :=
  match argv with
  | [] => ret (Some (sp, ustack))
  | a :: argv' =>
      if MAXARG <=? argc then ret None else
      let sp := Z.land (u32 (sp - (Z.of_nat (length a) + 1))) (u32 (Z.lnot 3)) in
      r <- copyout pgdir sp (a ++ [0]) ;;
      if r <? 0 then ret None else
      push_args argv' (argc + 1) pgdir sp (ustack ++ [sp])
  end.

(** The characters after the last slash. *)
Fixpoint last_elem (s last : list Z) : list Z :=
  match s with
  | [] => last
  | c :: s' => last_elem s' (if c =? slash then s' else last)
  end.

(** The label [bad]: [ip] is the inode still locked. *)
Definition exec_bad (pgdir : Z) (ip : option nat) : K Z :=
  when (negb (pgdir =? 0)) (freevm pgdir) ;;
  match ip with
  | Some ip => iunlockput ip ;; end_op
  | None => ret tt
  end ;;
  ret (-1).

(** From the point where the file has been read: the stack, and the switch to
    the new image. *)
Definition exec_image (cur : nat) (path : list Z) (argv : list (list Z)) (entry pgdir sz : Z) : K Z :=
  let sz := PGROUNDUP sz in
  sz <- allocuvm pgdir sz (u32 (sz + 2 * PGSIZE)) ;;
  if sz =? 0 then exec_bad pgdir None else
  clearpteu pgdir (sz - 2 * PGSIZE) ;;
  r <- push_args argv 0 pgdir sz [] ;;
  match r with
  | None => exec_bad pgdir None
  | Some (sp, args) =>
      let argc := Z.of_nat (length args) in
      let ustack := [0xffffffff; argc; u32 (sp - (argc + 1) * 4)] ++ args ++ [0] in
      let sp := u32 (sp - (3 + argc + 1) * 4) in
      r <- copyout pgdir sp (mjoin (le_encode 4 <$> ustack)) ;;
      if r <? 0 then exec_bad pgdir None else
      upd_proc cur (fun p => set_p_name (overlay (safestrcpy (arr (last_elem path path)) 16) (p_name p)) p) ;;
      p <- get_proc cur ;;
      let oldpgdir := p_pgdir p in
      upd_proc cur (fun p => set_p_sz sz (set_p_pgdir pgdir p)) ;;
      poke32 (p_tf p + tf_eip) entry ;;
      poke32 (p_tf p + tf_esp) sp ;;
      switchuvm cur ;;
      freevm oldpgdir ;;
      ret 0
  end.

Definition exec (path : list Z) (argv : list (list Z)) : K Z :=
  cur <- curproc ;;
  begin_op ;;
  ip <- namei path ;;
  match ip with
  | None =>
      end_op ;;
      cprintf "exec: fail
" [] ;;
      ret (-1)
  | Some ip =>
      ilock ip ;;
      h <- read_hdr ip 0 sizeof_elf ;;
      match get_elfhdr <$> h with
      | None => exec_bad 0 (Some ip)
      | Some elf =>
          if negb (e_magic elf =? ELF_MAGIC) then exec_bad 0 (Some ip) else
          pgdir <- setupkvm ;;
          if pgdir =? 0 then exec_bad 0 (Some ip) else
          r <- load_segments (Z.to_nat (e_phnum elf)) ip pgdir (e_phoff elf) 0 ;;
          match r with
          | None => exec_bad pgdir (Some ip)
          | Some sz =>
              iunlockput ip ;;
              end_op ;;
              exec_image cur path argv (e_entry elf) pgdir sz
          end
      end
  end.

End exec_code.
