(* ===== verification/Syscall.v ===== *)
(** * System calls and traps (syscall.c, sysproc.c, sysfile.c, trap.c)

    The arguments of a system call are on the user stack; the kernel reads
    and writes user memory through the page table in use, after checking
    the addresses against the size of the process. *)

From stdpp Require Import base numbers list option strings gmap.
From S2P Require Import Prelude Kernel Fields Mmu Spinlock Proc Cprintf Cstring Bytes Sleeplock Dll Bio Log Kalloc Vm.
From S2P Require Import Uvm Pipe Inode Console Fs File Life Exec.

(** ** User memory *)

(** A fault in the kernel ends in a panic.  Writing needs a writable page. *)
Definition uload (a : Z) : K Z :=
  m <- get_mem ;;
  cr3 <- gets k_cr3 ;;
  match user_byte m (P2V cr3) a with Some b => ret b | None => null_deref end.

Definition ustore (a b : Z) : K unit :=
  m <- get_mem ;;
  cr3 <- gets k_cr3 ;;
  match mmu m (P2V cr3) a with
  | Some (pa, flags) => if Z.land flags PTE_W =? 0 then null_deref else set_mem (upd m (P2V pa) b)
  | None => null_deref
  end.

Fixpoint uload_bytes (a : Z) (n : nat) : K (list Z) :=
  match n with
  | O => ret []
  | S n' => b <- uload a ;; l <- uload_bytes (a + 1) n' ;; ret (b :: l)
  end.

Fixpoint ustore_bytes (a : Z) (l : list Z) : K unit :=
  match l with
  | [] => ret tt
  | b :: l' => ustore a b ;; ustore_bytes (a + 1) l'
  end.

Section syscall_code.
Context `{Link} `{Fuel}.

(** ** Arguments (syscall.c)

    [None] is the result -1. *)

Definition fetchint (addr : Z) : K (option Z) :=
  i <- curproc ;;
  p <- get_proc i ;;
  if (p_sz p <=? addr) || (p_sz p <? u32 (addr + 4)) then ret None else
  l <- uload_bytes addr 4 ;;
  ret (Some (i32 (le_decode l))).

(** The characters from [s] to the first NUL, looking at [n] of them. *)
Fixpoint scan_str (n : nat) (s : Z) : K (option (list Z)) :=
  match n with
  | O => ret None
  | S n' =>
      c <- uload s ;;
      if c =? 0 then ret (Some []) else
      r <- scan_str n' (s + 1) ;;
      ret (cons c <$> r)
  end.

(** The string at [addr]. *)
Definition fetchstr (addr : Z) : K (option (list Z)) :=
  i <- curproc ;;
  p <- get_proc i ;;
  if p_sz p <=? addr then ret None else
  scan_str (Z.to_nat (p_sz p - addr)) addr.

Definition argint (n : Z) : K (option Z) :=
  i <- curproc ;;
  p <- get_proc i ;;
  m <- get_mem ;;
  fetchint (u32 (load32 m (p_tf p + tf_esp) + 4 + 4 * n)).

Definition argptr (n size : Z) : K (option Z) :=
  i <- curproc ;;
  a <- argint n ;;
  match a with
  | None => ret None
  | Some a =>
      p <- get_proc i ;;
      if (size <? 0) || (p_sz p <=? u32 a) || (p_sz p <? u32 (u32 a + size)) then ret None
      else ret (Some (u32 a))
  end.

Definition argstr (n : Z) : K (option (list Z)) :=
  a <- argint n ;;
  match a with
  | None => ret None
  | Some a => fetchstr (u32 a)
  end.

(** [if(c < 0) return -1] for a call that gives an option. *)
Definition or_fail {A} (c : K (option A)) (f : A -> K Z) : K Z :=
  r <- c ;;
  match r with None => ret (-1) | Some a => f a end.

(** ** Process calls (sysproc.c) *)

Definition sys_fork : K Z := fork.
Definition sys_exit : K Z := exit.
Definition sys_wait : K Z := wait.
Definition sys_setpriority : K Z := or_fail (argint 0) setpriority.

Definition sys_waitx : K Z :=
  or_fail (argptr 0 4) (fun wtime =>
  or_fail (argptr 1 4) (fun rtime =>
    r <- waitx ;;
    let '(pid, w, t) := r in
    ustore_bytes rtime (le_encode 4 t) ;;
    ustore_bytes wtime (le_encode 4 w) ;;
    ret pid)).

Definition sys_kill : K Z := or_fail (argint 0) kill.
Definition sys_getpid : K Z := mypid.

Definition sys_sbrk : K Z :=
  or_fail (argint 0) (fun n =>
    i <- curproc ;;
    p <- get_proc i ;;
    r <- growproc n ;;
    ret (if r <? 0 then -1 else i32 (p_sz p))).

(** The loop of [sys_sleep]; [n] is compared as an unsigned number. *)
Fixpoint sleep_loop (k : nat) (ticks0 n : Z) : K Z :=
  ticks <- gets k_ticks ;;
  if negb (u32 (ticks - ticks0) <? u32 n) then release L_ticks ;; ret 0 else
  killed <- mykilled ;;
  if killed then release L_ticks ;; ret (-1) else
  sleep Ch_ticks L_ticks ;;
  match k with O => out_of_fuel | S k' => sleep_loop k' ticks0 n end.

Definition sys_sleep : K Z :=
  or_fail (argint 0) (fun n =>
    acquire L_ticks ;;
    ticks0 <- gets k_ticks ;;
    sleep_loop fuel ticks0 n).

Definition sys_uptime : K Z :=
  acquire L_ticks ;;
  xticks <- gets k_ticks ;;
  release L_ticks ;;
  ret (i32 xticks).

(** ** File calls (sysfile.c) *)

(** The descriptor and the file. *)
Definition argfd (n : Z) : K (option (Z * nat)) :=
  fd <- argint n ;;
  match fd with
  | None => ret None
  | Some fd =>
      if (fd <? 0) || (Z.of_nat NOFILE <=? fd) then ret None else
      i <- curproc ;;
      p <- get_proc i ;;
      ret ((fun f => (fd, f)) <$> p_ofile p !!! Z.to_nat fd)
  end.

Definition set_fd (i : nat) (fd : nat) (f : option nat) : K unit :=
  upd_proc i (fun p => set_p_ofile (<[fd := f]> (p_ofile p)) p).

Definition fdalloc (f : nat) : K (option Z) :=
  i <- curproc ;;
  p <- get_proc i ;;
  match list_find (fun o => o = None) (p_ofile p) with
  | Some (fd, _) => set_fd i fd (Some f) ;; ret (Some (Z.of_nat fd))
  | None => ret None
  end.

Definition sys_dup : K Z :=
  or_fail (argfd 0) (fun '(_, f) =>
  or_fail (fdalloc f) (fun fd => filedup f ;; ret fd)).

Definition sys_read : K Z :=
  or_fail (argfd 0) (fun '(_, f) =>
  or_fail (argint 2) (fun n =>
  or_fail (argptr 1 n) (fun p =>
    r <- fileread f n ;;
    ustore_bytes p (snd r) ;;
    ret (fst r)))).

Definition sys_write : K Z :=
  or_fail (argfd 0) (fun '(_, f) =>
  or_fail (argint 2) (fun n =>
  or_fail (argptr 1 n) (fun p =>
    l <- uload_bytes p (Z.to_nat n) ;;
    filewrite f l n))).

Definition sys_close : K Z :=
  or_fail (argfd 0) (fun '(fd, f) =>
    i <- curproc ;;
    set_fd i (Z.to_nat fd) None ;;
    fileclose f ;;
    ret 0).

Definition sizeof_stat : Z := 20.

Definition sys_fstat : K Z :=
  or_fail (argfd 0) (fun '(_, f) =>
  or_fail (argptr 1 sizeof_stat) (fun a =>
  or_fail (filestat f) (fun st =>
    ustore_bytes (a + 4) (le_encode 4 (u32 (st_dev st))) ;;
    ustore_bytes (a + 8) (le_encode 4 (st_ino st)) ;;
    ustore_bytes a (le_encode 2 (u16 (st_type st))) ;;
    ustore_bytes (a + 12) (le_encode 2 (u16 (st_nlink st))) ;;
    ustore_bytes (a + 16) (le_encode 4 (st_size st)) ;;
    ret 0))).

(** A local array of DIRSIZ characters, whose contents are not used before
    they are set. *)
Definition name_buf : list Z := replicate (Z.to_nat DIRSIZ) 0.

Definition upd_nlink (d : Z) (ip : nat) : K unit :=
  upd_inode ip (fun n => set_i_nlink (i16 (i_nlink n + d)) n).

(** The label [bad] of [sys_link]. *)
Definition link_bad (ip : nat) : K Z :=
  ilock ip ;;
  upd_nlink (-1) ip ;;
  iupdate ip ;;
  iunlockput ip ;;
  end_op ;;
  ret (-1).

Definition sys_link : K Z :=
  or_fail (argstr 0) (fun old =>
  or_fail (argstr 1) (fun new =>
    begin_op ;;
    ip <- namei old ;;
    match ip with
    | None => end_op ;; ret (-1)
    | Some ip =>
        ilock ip ;;
        n <- get_inode ip ;;
        if i_type n =? T_DIR then iunlockput ip ;; end_op ;; ret (-1) else
        upd_nlink 1 ip ;;
        iupdate ip ;;
        iunlock ip ;;
        r <- nameiparent new name_buf ;;
        match r with
        | (None, _) => link_bad ip
        | (Some dp, name) =>
            ilock dp ;;
            d <- get_inode dp ;;
            n <- get_inode ip ;;
            r <- (if negb (i_dev d =? i_dev n) then ret (-1) else dirlink dp name (i_inum n)) ;;
            iunlockput dp ;;
            if r <? 0 then link_bad ip else
            iput ip ;;
            end_op ;;
            ret 0
        end
    end)).

Fixpoint isdirempty_loop (k : nat) (dp : nat) (off : Z) : K bool :=
  n <- get_inode dp ;;
  if negb (off <? i_size n) then ret true else
  match k with
  | O => out_of_fuel
  | S k' =>
      de <- read_dirent "isdirempty: readi" dp off ;;
      if negb (de_inum de =? 0) then ret false else isdirempty_loop k' dp (off + sizeof_de)
  end.

Definition isdirempty (dp : nat) : K bool :=
  n <- get_inode dp ;;
  isdirempty_loop (Z.to_nat (i_size n / sizeof_de) + 1) dp (2 * sizeof_de).

(** The label [bad] of [sys_unlink]. *)
Definition unlink_bad (dp : nat) : K Z := iunlockput dp ;; end_op ;; ret (-1).

Definition sys_unlink : K Z :=
  or_fail (argstr 0) (fun path =>
    begin_op ;;
    r <- nameiparent path name_buf ;;
    match r with
    | (None, _) => end_op ;; ret (-1)
    | (Some dp, name) =>
        ilock dp ;;
        if (namecmp name (chars ".") =? 0) || (namecmp name (chars "..") =? 0) then unlink_bad dp else
        r <- dirlookup dp name ;;
        match r with
        | None => unlink_bad dp
        | Some (ip, off) =>
            ilock ip ;;
            n <- get_inode ip ;;
            if i_nlink n <? 1 then panic "unlink: nlink < 1" else
            empty <- (if i_type n =? T_DIR then isdirempty ip else ret true) ;;
            if negb empty then iunlockput ip ;; unlink_bad dp else
            r <- writei dp (replicate 16 0) off sizeof_de ;;
            if negb (r =? sizeof_de) then panic "unlink: writei" else
            n <- get_inode ip ;;
            when (i_type n =? T_DIR) (upd_nlink (-1) dp ;; iupdate dp) ;;
            iunlockput dp ;;
            upd_nlink (-1) ip ;;
            iupdate ip ;;
            iunlockput ip ;;
            end_op ;;
            ret 0
        end
    end).

(** The inode is returned locked. *)
Definition create (path : list Z) (type major minor : Z) : K (option nat) :=
  r <- nameiparent path name_buf ;;
  match r with
  | (None, _) => ret None
  | (Some dp, name) =>
      ilock dp ;;
      r <- dirlookup dp name ;;
      match r with
      | Some (ip, _) =>
          iunlockput dp ;;
          ilock ip ;;
          n <- get_inode ip ;;
          if (type =? T_FILE) && (i_type n =? T_FILE) then ret (Some ip) else
          iunlockput ip ;;
          ret None
      | None =>
          d <- get_inode dp ;;
          ip <- ialloc (i_dev d) type ;;
          ilock ip ;;
          upd_inode ip (fun n => set_i_nlink 1 (set_i_minor minor (set_i_major major n))) ;;
          iupdate ip ;;
          when (type =? T_DIR)
            (upd_nlink 1 dp ;;
             iupdate dp ;;
             n <- get_inode ip ;;
             r <- dirlink ip (chars ".") (i_inum n) ;;
             if r <? 0 then panic "create dots" else
             d <- get_inode dp ;;
             r <- dirlink ip (chars "..") (i_inum d) ;;
             if r <? 0 then panic "create dots" else ret tt) ;;
          n <- get_inode ip ;;
          r <- dirlink dp name (i_inum n) ;;
          if r <? 0 then panic "create: dirlink" else
          iunlockput dp ;;
          ret (Some ip)
      end
  end.

Definition O_RDONLY : Z := 0.
Definition O_WRONLY : Z := 1.
Definition O_RDWR : Z := 2.
Definition O_CREATE : Z := 0x200.

(** The inode to open, locked; [None] when the call fails. *)
Definition open_inode (path : list Z) (omode : Z) : K (option nat) :=
  if negb (Z.land omode O_CREATE =? 0) then create path T_FILE 0 0
  else
    ip <- namei path ;;
    match ip with
    | None => ret None
    | Some ip =>
        ilock ip ;;
        n <- get_inode ip ;;
        if (i_type n =? T_DIR) && negb (omode =? O_RDONLY) then iunlockput ip ;; ret None
        else ret (Some ip)
    end.

Definition sys_open : K Z :=
  or_fail (argstr 0) (fun path =>
  or_fail (argint 1) (fun omode =>
    begin_op ;;
    ip <- open_inode path omode ;;
    match ip with
    | None => end_op ;; ret (-1)
    | Some ip =>
        f <- filealloc ;;
        fd <- match f with None => ret None | Some f => fdalloc f end ;;
        match f, fd with
        | Some f, Some fd =>
            iunlock ip ;;
            end_op ;;
            upd_file f (fun t =>
              set_f_writable (negb (Z.land omode O_WRONLY =? 0) || negb (Z.land omode O_RDWR =? 0))
                (set_f_readable (Z.land omode O_WRONLY =? 0)
                  (set_f_off 0 (set_f_ip (Some ip) (set_f_type FD_INODE t))))) ;;
            ret fd
        | _, _ =>
            match f with Some f => fileclose f | None => ret tt end ;;
            iunlockput ip ;;
            end_op ;;
            ret (-1)
        end
    end)).

(** [begin_op(); ... end_op()] around the creation of [sys_mkdir] and [sys_mknod]. *)
Definition create_op (c : K (option nat)) : K Z :=
  begin_op ;;
  ip <- c ;;
  match ip with
  | None => end_op ;; ret (-1)
  | Some ip => iunlockput ip ;; end_op ;; ret 0
  end.

Definition opt_bind {A B} (c : K (option A)) (f : A -> K (option B)) : K (option B) :=
  r <- c ;;
  match r with None => ret None | Some a => f a end.

Definition sys_mkdir : K Z := create_op (opt_bind (argstr 0) (fun path => create path T_DIR 0 0)).

Definition sys_mknod : K Z :=
  create_op (opt_bind (argstr 0) (fun path => opt_bind (argint 1) (fun major => opt_bind (argint 2) (fun minor =>
    create path T_DEV (i16 major) (i16 minor))))).

Definition sys_chdir : K Z :=
  cur <- curproc ;;
  begin_op ;;
  ip <- opt_bind (argstr 0) namei ;;
  match ip with
  | None => end_op ;; ret (-1)
  | Some ip =>
      ilock ip ;;
      n <- get_inode ip ;;
      if negb (i_type n =? T_DIR) then iunlockput ip ;; end_op ;; ret (-1) else
      iunlock ip ;;
      p <- get_proc cur ;;
      cwd <- deref (p_cwd p) ;;
      iput cwd ;;
      end_op ;;
      upd_proc cur (set_p_cwd (Some ip)) ;;
      ret 0
  end.

(** The loop of [sys_exec]: at most [k] more strings, from the vector at
    [uargv]. *)
Fixpoint fetch_args (k : nat) (uargv : Z) : K (option (list (list Z))) :=
  match k with
  | O => ret None
  | S k' =>
      opt_bind (fetchint uargv) (fun uarg =>
        if uarg =? 0 then ret (Some []) else
        opt_bind (fetchstr (u32 uarg)) (fun a =>
        opt_bind (fetch_args k' (u32 (uargv + 4))) (fun l => ret (Some (a :: l)))))
  end.

Definition sys_exec : K Z :=
  or_fail (argstr 0) (fun path =>
  or_fail (argint 1) (fun uargv =>
  or_fail (fetch_args (Z.to_nat MAXARG) (u32 uargv)) (fun argv => exec path argv))).

Definition sys_pipe : K Z :=
  or_fail (argptr 0 8) (fun fd =>
  or_fail pipealloc (fun '(rf, wf) =>
    i <- curproc ;;
    fd0 <- fdalloc rf ;;
    fd1 <- match fd0 with None => ret None | Some _ => fdalloc wf end ;;
    match fd0, fd1 with
    | Some fd0, Some fd1 =>
        ustore_bytes fd (le_encode 4 fd0) ;;
        ustore_bytes (fd + 4) (le_encode 4 fd1) ;;
        ret 0
    | _, _ =>
        match fd0 with Some fd0 => set_fd i (Z.to_nat fd0) None | None => ret tt end ;;
        fileclose rf ;;
        fileclose wf ;;
        ret (-1)
    end)).

(** ** Dispatch (syscall.c) *)

(** [syscalls[]]; there is no entry for SYS_setpriority. *)
Definition syscalls (num : Z) : option (K Z) :=
  match num with
  | 1 => Some sys_fork | 2 => Some sys_exit | 3 => Some sys_wait | 4 => Some sys_pipe
  | 5 => Some sys_read | 6 => Some sys_kill | 7 => Some sys_exec | 8 => Some sys_fstat
  | 9 => Some sys_chdir | 10 => Some sys_dup | 11 => Some sys_getpid | 12 => Some sys_sbrk
  | 13 => Some sys_sleep | 14 => Some sys_uptime | 15 => Some sys_open | 16 => Some sys_write
  | 17 => Some sys_mknod | 18 => Some sys_unlink | 19 => Some sys_link | 20 => Some sys_mkdir
  | 21 => Some sys_close | 22 => Some sys_waitx | _ => None
  end.

Definition SYS_setpriority : Z := 23.

Definition syscall : K unit :=
  i <- curproc ;;
  p <- get_proc i ;;
  m <- get_mem ;;
  let num := i32 (load32 m (p_tf p + tf_eax)) in
  match syscalls num with
  | Some f =>
      r <- f ;;
      p <- get_proc i ;;
      poke32 (p_tf p + tf_eax) (u32 r)
  | None =>
      cprintf "%d %s: unknown sys call %d
" [FInt (p_pid p); FStr (until_nul (p_name p)); FInt num] ;;
      poke32 (p_tf p + tf_eax) (u32 (-1))
  end.

(** ** Traps (trap.c) *)

(** What the hardware provides when a trap is taken: the number of the
    processor, the register cr2, and the bytes waiting in the keyboard
    controller and in the serial port. *)
Record hardware := mkhardware { hw_cpu : Z; hw_cr2 : Z; hw_kbd : list Z; hw_com1 : list Z }.

Definition exit_if_killed : K unit := killed <- mykilled ;; when killed exit.

(** [myproc() && f(myproc())] *)
Definition current (f : proc -> bool) : K bool :=
  p <- myproc ;;
  match p with
  | None => ret false
  | Some i => pr <- get_proc i ;; ret (f pr)
  end.

Definition user_trap (cs : Z) (p : proc) : bool := negb (p_killed p =? 0) && (Z.land cs 3 =? DPL_USER).

(** The device interrupts and the faults; acknowledging the interrupt to the
    local APIC has no effect on the state.  With the disk in memory
    [ideintr] does nothing. *)
Definition trap_dispatch (hw : hardware) (tf trapno cs : Z) : K unit :=
  m <- get_mem ;;
  if trapno =? T_IRQ0 + IRQ_TIMER then
    when (hw_cpu hw =? 0)
      (acquire L_ticks ;;
       modify (fun s => set_k_ticks (u32 (k_ticks s + 1)) s) ;;
       wakeup Ch_ticks ;;
       release L_ticks)
  else if (trapno =? T_IRQ0 + IRQ_IDE) || (trapno =? T_IRQ0 + IRQ_IDE + 1) then ret tt
  else if trapno =? T_IRQ0 + IRQ_KBD then kbdintr (hw_kbd hw)
  else if trapno =? T_IRQ0 + IRQ_COM1 then uartintr (hw_com1 hw)
  else if (trapno =? T_IRQ0 + 7) || (trapno =? T_IRQ0 + IRQ_SPURIOUS) then
    cprintf "cpu%d: spurious interrupt at %x:%x
" [FInt (hw_cpu hw); FInt cs; FInt (load32 m (tf + tf_eip))]
  else
    p <- myproc ;;
    match p with
    | Some i =>
        if Z.land cs 3 =? 0 then
          cprintf "unexpected trap %d from cpu %d eip %x (cr2=0x%x)
" [FInt trapno; FInt (hw_cpu hw); FInt (load32 m (tf + tf_eip)); FInt (hw_cr2 hw)] ;;
          panic "trap"
        else
          p <- get_proc i ;;
          cprintf "pid %d %s: trap %d err %d on cpu %d eip 0x%x addr 0x%x--kill proc
" [FInt (p_pid p); FStr (until_nul (p_name p)); FInt trapno; FInt (load32 m (tf + tf_err)); FInt (hw_cpu hw);
             FInt (load32 m (tf + tf_eip)); FInt (hw_cr2 hw)] ;;
          upd_proc i (set_p_killed 1)
    | None =>
        cprintf "unexpected trap %d from cpu %d eip %x (cr2=0x%x)
" [FInt trapno; FInt (hw_cpu hw); FInt (load32 m (tf + tf_eip)); FInt (hw_cr2 hw)] ;;
        panic "trap"
    end.

(** [flag] is SCHEDFLAG[0]; with 'F' (70) the clock does not preempt. *)
Definition trap (flag : Z) (hw : hardware) (tf : Z) : K unit :=
  m <- get_mem ;;
  let trapno := load32 m (tf + tf_trapno) in
  let cs := load16 m (tf + tf_cs) in
  if trapno =? T_SYSCALL then
    exit_if_killed ;;
    i <- curproc ;;
    upd_proc i (set_p_tf tf) ;;
    syscall ;;
    exit_if_killed
  else
    trap_dispatch hw tf trapno cs ;;
    dead <- current (user_trap cs) ;;
    when dead exit ;;
    tick <- current (fun p => is_state RUNNING p && (trapno =? T_IRQ0 + IRQ_TIMER) && negb (flag =? 70)) ;;
    when tick yield ;;
    dead <- current (user_trap cs) ;;
    when dead exit.

End syscall_code.

(** ** The proofs *)

Section syscall_proofs.
Context `{LinkOk} `{Fuel}.
Implicit Types (s : kernel).

(** Process [i] runs in its own address space: all of it is mapped. *)
Record user_space s (i : nat) (T : gmap Z Z) (U : umap) (l : list Z) : Prop := {
  sp_cur : k_cur s = Some i;
  sp_uvm : uvm s (p_pgdir (k_proc s !!! i)) T U l [];
  sp_sz : 0 <= p_sz (k_proc s !!! i) <= KERNBASE;
  sp_mapped : usize U (p_sz (k_proc s !!! i));
  sp_cr3 : P2V (k_cr3 s) = p_pgdir (k_proc s !!! i);
}.

(** The byte at user address [a]. *)
Definition ubyte s (i : nat) (a : Z) : option Z := user_byte (k_mem s) (p_pgdir (k_proc s !!! i)) a.

Lemma space_mapped s i T U l a :
  user_space s i T U l -> 0 <= a < p_sz (k_proc s !!! i) -> is_Some (ubyte s i a).
Proof.
  intros [_ Hu Hsz Hm _] Ha. destruct (proj2 (Hm (a / PGSIZE))) as [[p f] Hp].
  { unfold npages, PGSIZE. Z.div_mod_to_equations. lia. }
  unfold ubyte. rewrite (user_byte_some s _ T U l [] a p f); [by eexists|done|lia|done].
Qed.

Lemma uload_run s i T U l a b : user_space s i T U l -> ubyte s i a = Some b -> uload a s = Ret b s.
Proof. intros Hsp Hb. unfold uload, get_mem. krun. rewrite (sp_cr3 _ _ _ _ _ Hsp). unfold ubyte in Hb. by rewrite Hb. Qed.

Lemma uload_bytes_run s i T U l a n :
  user_space s i T U l -> 0 <= a -> a + Z.of_nat n <= p_sz (k_proc s !!! i) -> exists bs, uload_bytes a n s = Ret bs s.
Proof.
  intros Hsp. revert a. induction n as [|n IH]; intros a Ha Hn; [by eexists|]. cbn [uload_bytes].
  destruct (space_mapped s i T U l a Hsp ltac:(lia)) as [b Hb]. destruct (IH (a + 1) ltac:(lia) ltac:(lia)) as [bs Hbs].
  exists (b :: bs). unfold bind. rewrite (uload_run s i T U l a b) by done. cbn [res_bind]. by rewrite Hbs.
Qed.

Lemma fetchint_run s i T U l addr :
  user_space s i T U l -> 0 <= addr < 2 ^ 32 -> exists r, fetchint addr s = Ret r s.
Proof.
  intros Hsp Ha. pose proof (sp_sz _ _ _ _ _ Hsp) as Hsz. unfold KERNBASE in Hsz.
  unfold fetchint. unfold bind at 1 2. rewrite (curproc_run i) by apply Hsp. cbn [res_bind]. unfold get_proc, gets. cbn [res_bind].
  destruct (Z.leb_spec (p_sz (k_proc s !!! i)) addr); [by eexists|].
  destruct (Z.ltb_spec (p_sz (k_proc s !!! i)) (u32 (addr + 4))) as [|Hle]; [by eexists|]. cbn [orb].
  rewrite u32_small in Hle by lia. destruct (uload_bytes_run s i T U l addr 4 Hsp ltac:(lia) ltac:(lia)) as [bs Hbs].
  unfold bind. rewrite Hbs. by eexists.
Qed.

Lemma argint_run s i T U l n : user_space s i T U l -> exists r, argint n s = Ret r s.
Proof.
  intros Hsp. unfold argint. unfold bind at 1 2 3. rewrite (curproc_run i) by apply Hsp. cbn [res_bind].
  unfold get_proc, get_mem, gets. cbn [res_bind]. eapply fetchint_run; [done|apply u32_range].
Qed.

Lemma scan_str_run s i T U l n a :
  user_space s i T U l -> 0 <= a -> a + Z.of_nat n <= p_sz (k_proc s !!! i) ->
  exists r, scan_str n a s = Ret r s /\ forall str, r = Some str -> (length str < n)%nat /\
    (forall k c, str !! k = Some c -> c <> 0 /\ ubyte s i (a + Z.of_nat k) = Some c) /\
    ubyte s i (a + Z.of_nat (length str)) = Some 0.
Proof.
  intros Hsp. revert a. induction n as [|n IH]; intros a Ha Hn; cbn [scan_str]; [by eexists|].
  destruct (space_mapped s i T U l a Hsp ltac:(lia)) as [b Hb]. unfold bind at 1.
  rewrite (uload_run s i T U l a b) by done. cbn [res_bind]. destruct (Z.eqb_spec b 0) as [->|Hb0].
  { eexists. split; [done|]. intros str [= <-]. cbn [length]. rewrite Z.add_0_r. split_and!; [lia|done|done]. }
  destruct (IH (a + 1) ltac:(lia) ltac:(lia)) as (r & Hr & Hs). unfold bind. rewrite Hr. cbn [res_bind].
  eexists. split; [done|]. intros str Hstr. destruct r as [str'|]; [|done]. injection Hstr as <-.
  destruct (Hs str' eq_refl) as (Hl & Hc & Hz). cbn [length]. split_and!; [lia| |].
  - intros [|k] c Hk; [injection Hk as <-; by rewrite Z.add_0_r|]. replace (a + Z.of_nat (S k)) with (a + 1 + Z.of_nat k) by lia. by apply Hc.
  - rewrite <- Hz. f_equal. lia.
Qed.

(** C32: Whatever is on the user stack, fetching a pointer or a string
    argument does not fault, and what it accepts lies in the caller's memory:
    a block of [size] bytes all of which are mapped, below the size of the
    process even when the address is close to 2^32; or a string with its
    terminating NUL. *)
Theorem syscall_args_safe s i T U l n size :
  user_space s i T U l -> size < 2 ^ 31 ->
  (exists r, argptr n size s = Ret r s /\ forall a, r = Some a ->
     0 <= a /\ 0 <= size /\ a + size <= p_sz (k_proc s !!! i) /\ forall b, a <= b < a + size -> is_Some (ubyte s i b)) /\
  (exists r, argstr n s = Ret r s /\ forall str, r = Some str -> exists a, 0 <= a /\
     a + Z.of_nat (length str) < p_sz (k_proc s !!! i) /\
     (forall k c, str !! k = Some c -> c <> 0 /\ ubyte s i (a + Z.of_nat k) = Some c) /\
     ubyte s i (a + Z.of_nat (length str)) = Some 0).
Proof.
  intros Hsp Hsize. pose proof (sp_sz _ _ _ _ _ Hsp) as Hsz. unfold KERNBASE in Hsz.
  destruct (argint_run s i T U l n Hsp) as [[w|] Hw].
  2: { split; (exists None; split; [|done]); unfold argptr, argstr, bind; rewrite ?(curproc_run i) by apply Hsp; cbn [res_bind]; by rewrite Hw. }
  pose proof (u32_range w) as Hu. split.
  - unfold argptr. unfold bind at 1 2. rewrite (curproc_run i) by apply Hsp. cbn [res_bind]. rewrite Hw. cbn [res_bind].
    unfold bind, get_proc, gets. cbn [res_bind]. destruct (Z.ltb_spec size 0); [by eexists|].
    destruct (Z.leb_spec (p_sz (k_proc s !!! i)) (u32 w)); [by eexists|].
    destruct (Z.ltb_spec (p_sz (k_proc s !!! i)) (u32 (u32 w + size))) as [|Hle]; [by eexists|]. cbn [orb].
    rewrite (u32_small (u32 w + size)) in Hle by lia. eexists. split; [done|]. intros a [= <-].
    split_and!; try lia. intros b Hb. eapply space_mapped; [done|lia].
  - unfold argstr, bind. rewrite Hw. cbn [res_bind]. unfold fetchstr, bind. rewrite (curproc_run i) by apply Hsp. cbn [res_bind].
    unfold get_proc, gets. cbn [res_bind]. destruct (Z.leb_spec (p_sz (k_proc s !!! i)) (u32 w)); [by eexists|].
    destruct (scan_str_run s i T U l (Z.to_nat (p_sz (k_proc s !!! i) - u32 w)) (u32 w) Hsp ltac:(lia) ltac:(lia)) as (r & Hr & Hs).
    exists r. split; [done|]. intros str Hstr. destruct (Hs str Hstr) as (Hl & Hc & Hz). exists (u32 w). split_and!; [lia|lia|done|done].
Qed.

(** The system call setpriority cannot be made: its number, 23, has no
    entry in the table, so the kernel reports an unknown call, returns -1 and
    changes no priority. *)
Theorem setpriority_unreachable s i :
  k_cur s = Some i -> cursor_ok s -> L_cons ∉ k_held s ->
  load32 (k_mem s) (p_tf (k_proc s !!! i) + tf_eax) = SYS_setpriority ->
  exists s', syscall s = Ret tt s' /\ k_proc s' = k_proc s /\
    load32 (k_mem s') (p_tf (k_proc s !!! i) + tf_eax) = 2 ^ 32 - 1.
Proof.
  intros Hc Hcur Hh Hnum. destruct (wp_inv syscall s (fun _ s' => k_proc s' = k_proc s /\
    load32 (k_mem s') (p_tf (k_proc s !!! i) + tf_eax) = 2 ^ 32 - 1)) as ([] & s' & Hrun & Hp); [|by exists s'].
  unfold syscall. apply wp_bind. eapply wp_run; [by apply curproc_run|].
  apply wp_bind. eapply wp_run; [reflexivity|]. apply wp_bind. eapply wp_run; [reflexivity|]. cbv zeta.
  rewrite Hnum. change (syscalls (i32 SYS_setpriority)) with (@None (K Z)). cbv iota.
  apply wp_bind. eapply wp_mono; [by apply cprintf_spec|]. intros _ s1 [[(o & c & q & ->) _] _].
  unfold poke32, get_mem, set_mem. apply wp_bind. eapply wp_run; [reflexivity|]. eapply wp_run; [reflexivity|]. kproj.
  split; [done|]. rewrite load32_store32_eq; by vm_compute.
Qed.

End syscall_proofs.

(** ** The theorems on a small machine *)

#[local] Instance demo_fuel : Fuel := 1%nat.
#[local] Existing Instance demo_link.
#[local] Existing Instance demo_link_ok.

(** Process 0 of [demo_family] in the kernel; its stack pointer is 0, its first
    argument the address 16 of the string "ok". *)
Definition demo_call : kernel :=
  set_k_cr3 0x400000 (set_k_mem (store32 (store32 (k_mem demo_family) 0x80402004 16) 0x80402010 0x6b6f) demo_family).

Lemma demo_call_space : user_space demo_call 0 demo_T demo_U demo_l.
Proof.
  split; [reflexivity| |split; by vm_compute|exact demo_space_usize|by vm_compute].
  assert (uvm demo_family 0x80400000 demo_T demo_U demo_l []) as Hu by (apply demo_family_uvm; [by vm_compute|constructor]).
  apply (uvm_frame demo_family demo_call _ _ _ _ _ Hu); [reflexivity|].
  intros p Hp. assert (p ∈ [0x80400000; 0x80401000; 0x80200000; 0x80300000]) as Hp' by exact Hp.
  intros a Ha. unfold demo_call. kproj. unfold PGSIZE in Ha. rewrite !elem_of_cons, elem_of_nil in Hp'. rewrite !store32_other; [done|lia|lia].
Qed.

Lemma syscall_args_safe_witness :
  exists r, argstr 0 demo_call = Ret r demo_call /\ r = Some (chars "ok").
Proof.
  destruct (syscall_args_safe demo_call 0 demo_T demo_U demo_l 0 0 demo_call_space ltac:(lia)) as [_ (r & Hr & _)].
  exists r. split; [exact Hr|]. assert (exists r', argstr 0 demo_call = Ret r' demo_call /\ r' = Some (chars "ok")) as (r' & Hr' & <-).
  { eexists. split; [vm_compute; reflexivity|reflexivity]. }
  congruence.
Defined.

Lemma setpriority_unreachable_witness :
  exists s', syscall (set_k_mem (store32 (k_mem demo_family) 28 23) demo_family) = Ret tt s'.
Proof.
  destruct (setpriority_unreachable (set_k_mem (store32 (k_mem demo_family) 28 23) demo_family) 0) as (s' & H1 & _).
  - reflexivity.
  - split; by vm_compute.
  - apply not_elem_of_nil.
  - by vm_compute.
  - exists s'. exact H1.
Defined.
