(* ===== verification/Entry.v ===== *)
(** * The way into the kernel and back (mmu.h, vm.c: seginit, switchuvm; trap.c:
      tvinit, idtinit; trapasm.S, vectors.pl, swtch.S, usys.S, initcode.S)

    The processor is modelled as far as this code uses it: the general and the
    segment registers, the descriptor tables with the fields the processor
    decodes, the entry through a gate of the interrupt table with the change of
    stack, [iret], and the instructions of the assembly files, which are lists
    of instructions.  Memory is that of the kernel's half of the address space.
    The addresses the linker assigns ([vectors]) and the upper halves of words
    into which the processor pushes a segment register are parameters. *)

From stdpp Require Import base numbers list option strings relations.
From S2P Require Import Prelude Kernel Fields Mmu Cstring Kalloc Proc Life.

(** ** Descriptors *)

(** A structure of bit fields, from the low bits up: width and value. *)
Fixpoint pack (fields : list (Z * Z)) : Z :=
  match fields with
  | [] => 0
  | (w, v) :: fields' => v mod 2 ^ w + 2 ^ w * pack fields'
  end.

(** Bits [off], ..., [off + w - 1]. *)
Definition field (off w x : Z) : Z := x / 2 ^ off mod 2 ^ w.

Record segdesc := MkSeg {
  lim_15_0 : Z; base_15_0 : Z; base_23_16 : Z; sg_type : Z; sg_s : Z; sg_dpl : Z; sg_p : Z;
  lim_19_16 : Z; sg_avl : Z; sg_rsv1 : Z; sg_db : Z; sg_g : Z; base_31_24 : Z;
}.

Definition seg_word (d : segdesc) : Z :=
  pack [(16, lim_15_0 d); (16, base_15_0 d); (8, base_23_16 d); (4, sg_type d); (1, sg_s d); (2, sg_dpl d);
        (1, sg_p d); (4, lim_19_16 d); (1, sg_avl d); (1, sg_rsv1 d); (1, sg_db d); (1, sg_g d); (8, base_31_24 d)].

Definition SEG (type base lim dpl : Z) : segdesc :=
  MkSeg (Z.land (Z.shiftr lim 12) 0xffff) (Z.land (u32 base) 0xffff) (Z.land (Z.shiftr (u32 base) 16) 0xff)
    type 1 dpl 1 (Z.shiftr (u32 lim) 28) 0 0 1 1 (Z.shiftr (u32 base) 24).

Definition SEG16 (type base lim dpl : Z) : segdesc :=
  MkSeg (Z.land lim 0xffff) (Z.land (u32 base) 0xffff) (Z.land (Z.shiftr (u32 base) 16) 0xff)
    type 1 dpl 1 (Z.shiftr (u32 lim) 16) 0 0 1 0 (Z.shiftr (u32 base) 24).

Definition set_sg_s (v : Z) (d : segdesc) : segdesc :=
  MkSeg (lim_15_0 d) (base_15_0 d) (base_23_16 d) (sg_type d) v (sg_dpl d) (sg_p d) (lim_19_16 d) (sg_avl d)
    (sg_rsv1 d) (sg_db d) (sg_g d) (base_31_24 d).

Record gatedesc := MkGate {
  off_15_0 : Z; g_cs : Z; g_args : Z; g_rsv1 : Z; g_type : Z; g_s : Z; g_dpl : Z; g_p : Z; off_31_16 : Z;
}.

Definition gate_word (g : gatedesc) : Z :=
  pack [(16, off_15_0 g); (16, g_cs g); (5, g_args g); (3, g_rsv1 g); (4, g_type g); (1, g_s g); (2, g_dpl g);
        (1, g_p g); (16, off_31_16 g)].

Definition STA_X : Z := 0x8.
Definition STA_W : Z := 0x2.
Definition STA_R : Z := 0x2.
Definition STS_T32A : Z := 0x9.
Definition STS_IG32 : Z := 0xE.
Definition STS_TG32 : Z := 0xF.
Definition SEG_KCODE : Z := 1.
Definition SEG_KDATA : Z := 2.
Definition SEG_TSS : Z := 5.
Definition NSEGS : nat := 6.
Definition sizeof_taskstate : Z := 104.

Definition SETGATE (istrap : bool) (sel off d : Z) : gatedesc :=
  MkGate (Z.land (u32 off) 0xffff) sel 0 0 (if istrap then STS_TG32 else STS_IG32) 0 d 1 (Z.shiftr (u32 off) 16).

(** ** The tables of a processor *)

(** The fields of the task state segment the kernel sets. *)
Record taskstate := MkTs { ts_esp0 : Z; ts_ss0 : Z; ts_iomb : Z }.

(** [c->gdt] and [c->ts], [idt], and the registers that point to them. *)
Record tables := MkTables {
  gdt : list Z;
  ts : taskstate;
  idt : list Z;
  gdtr : Z;
  idtr : Z;
  tr : Z;
}.

Section tables.
(** The entry points, in vectors.S; the address of [c->ts]. *)
Context (vectors : nat -> Z) (ts_addr : Z).

Definition set_gdt (i : Z) (d : segdesc) (t : tables) : tables :=
  MkTables (<[Z.to_nat i := seg_word d]> (gdt t)) (ts t) (idt t) (gdtr t) (idtr t) (tr t).
Definition set_idt (i : nat) (g : gatedesc) (t : tables) : tables :=
  MkTables (gdt t) (ts t) (<[i := gate_word g]> (idt t)) (gdtr t) (idtr t) (tr t).
(** The limits that [lgdt] and [lidt] load, and [ltr]. *)
Definition lgdt (size : Z) (t : tables) : tables := MkTables (gdt t) (ts t) (idt t) (u16 (size - 1)) (idtr t) (tr t).
Definition lidt (size : Z) (t : tables) : tables := MkTables (gdt t) (ts t) (idt t) (gdtr t) (u16 (size - 1)) (tr t).
Definition ltr (sel : Z) (t : tables) : tables := MkTables (gdt t) (ts t) (idt t) (gdtr t) (idtr t) sel.

Definition seginit (t : tables) : tables :=
  let t := set_gdt SEG_KCODE (SEG (Z.lor STA_X STA_R) 0 0xffffffff 0) t in
  let t := set_gdt SEG_KDATA (SEG STA_W 0 0xffffffff 0) t in
  let t := set_gdt SEG_UCODE (SEG (Z.lor STA_X STA_R) 0 0xffffffff DPL_USER) t in
  let t := set_gdt SEG_UDATA (SEG STA_W 0 0xffffffff DPL_USER) t in
  lgdt (8 * Z.of_nat NSEGS) t.

Definition tvinit (t : tables) : tables :=
  let t := foldl (fun t i => set_idt i (SETGATE false (Z.shiftl SEG_KCODE 3) (vectors i) 0) t) t (seq 0 256) in
  set_idt 64 (SETGATE true (Z.shiftl SEG_KCODE 3) (vectors 64%nat) DPL_USER) t.

Definition idtinit (t : tables) : tables := lidt (8 * 256) t.

(** What [switchuvm] does to the tables of the processor, for a process with
    the kernel stack [kstack]. *)
Definition switch_tss (kstack : Z) (t : tables) : tables :=
  let t := set_gdt SEG_TSS (SEG16 STS_T32A ts_addr (sizeof_taskstate - 1) 0) t in
  let t := set_gdt SEG_TSS (set_sg_s 0 (SEG16 STS_T32A ts_addr (sizeof_taskstate - 1) 0)) t in
  let t := MkTables (gdt t) (MkTs (u32 (kstack + KSTACKSIZE)) (Z.shiftl SEG_KDATA 3) 0xFFFF) (idt t) (gdtr t) (idtr t) (tr t) in
  ltr (Z.shiftl SEG_TSS 3) t.

End tables.

(** ** The processor *)

Inductive reg := EAX | ECX | EDX | EBX | ESP | EBP | ESI | EDI.
Inductive sreg := DS | ES | FS | GS.

Record regs := MkRegs {
  eax : Z; ecx : Z; edx : Z; ebx : Z; esp : Z; ebp : Z; esi : Z; edi : Z;
  ds : Z; es : Z; fs : Z; gs : Z; cs : Z; ss : Z; eip : Z; eflags : Z;
}.

Definition get (r : reg) (x : regs) : Z :=
  match r with
  | EAX => eax x | ECX => ecx x | EDX => edx x | EBX => ebx x | ESP => esp x | EBP => ebp x | ESI => esi x | EDI => edi x
  end.
Definition set (r : reg) (v : Z) (x : regs) : regs :=
  let '(MkRegs a c d b p q s t ds es fs gs cs ss ip fl) := x in
  match r with
  | EAX => MkRegs v c d b p q s t ds es fs gs cs ss ip fl
  | ECX => MkRegs a v d b p q s t ds es fs gs cs ss ip fl
  | EDX => MkRegs a c v b p q s t ds es fs gs cs ss ip fl
  | EBX => MkRegs a c d v p q s t ds es fs gs cs ss ip fl
  | ESP => MkRegs a c d b v q s t ds es fs gs cs ss ip fl
  | EBP => MkRegs a c d b p v s t ds es fs gs cs ss ip fl
  | ESI => MkRegs a c d b p q v t ds es fs gs cs ss ip fl
  | EDI => MkRegs a c d b p q s v ds es fs gs cs ss ip fl
  end.
Definition get_seg (r : sreg) (x : regs) : Z := match r with DS => ds x | ES => es x | FS => fs x | GS => gs x end.
Definition set_seg (r : sreg) (v : Z) (x : regs) : regs :=
  let '(MkRegs a c d b p q s t ds es fs gs cs ss ip fl) := x in
  match r with
  | DS => MkRegs a c d b p q s t v es fs gs cs ss ip fl
  | ES => MkRegs a c d b p q s t ds v fs gs cs ss ip fl
  | FS => MkRegs a c d b p q s t ds es v gs cs ss ip fl
  | GS => MkRegs a c d b p q s t ds es fs v cs ss ip fl
  end.
(** The registers a transfer of control changes. *)
Definition set_ctl (cs' ss' ip' fl' : Z) (x : regs) : regs :=
  let '(MkRegs a c d b p q s t ds es fs gs _ _ _ _) := x in MkRegs a c d b p q s t ds es fs gs cs' ss' ip' fl'.

Record mach := MkMach { rg : regs; ram : memory }.

(** The current privilege level is in the low bits of the code selector. *)
Definition cpl (x : regs) : Z := cs x mod 4.

Definition push (v : Z) (m : mach) : mach :=
  let sp := u32 (esp (rg m) - 4) in MkMach (set ESP sp (rg m)) (store32 (ram m) sp v).
Definition pop (m : mach) : Z * mach :=
  (load32 (ram m) (esp (rg m)), MkMach (set ESP (u32 (esp (rg m) + 4)) (rg m)) (ram m)).

Inductive instr :=
  | PushImm (v : Z)                 (* pushl $v *)
  | PushR (r : reg)                 (* pushl %r *)
  | PushS (s : sreg)                (* pushl %s *)
  | Pushal
  | MovwAx (v : Z)                  (* movw $v, %ax *)
  | MovwSeg (s : sreg)              (* movw %ax, %s *)
  | MovImm (v : Z) (r : reg)        (* movl $v, %r *)
  | MovR (a b : reg)                (* movl %a, %b *)
  | Load (n : Z) (a b : reg)        (* movl n(%a), %b *)
  | Store (a b : reg)               (* movl %a, (%b) *)
  | AddEsp (n : Z)                  (* addl $n, %esp *)
  | PopR (r : reg)                  (* popl %r *)
  | PopS (s : sreg)                 (* popl %s *)
  | Popal
  | RetI                            (* ret *)
  | Iret.

(** [popal] leaves the stack pointer of the frame alone. *)
Definition popal (m : mach) : mach :=
  let '(v_edi, m) := pop m in let '(v_esi, m) := pop m in let '(v_ebp, m) := pop m in let '(_, m) := pop m in
  let '(v_ebx, m) := pop m in let '(v_edx, m) := pop m in let '(v_ecx, m) := pop m in let '(v_eax, m) := pop m in
  MkMach (set EDI v_edi (set ESI v_esi (set EBP v_ebp (set EBX v_ebx (set EDX v_edx (set ECX v_ecx (set EAX v_eax (rg m)))))))) (ram m).

Definition pushal (m : mach) : mach :=
  let sp := esp (rg m) in
  push (edi (rg m)) (push (esi (rg m)) (push (ebp (rg m)) (push sp
    (push (ebx (rg m)) (push (edx (rg m)) (push (ecx (rg m)) (push (eax (rg m)) m))))))).

(** Return from an interrupt: to a less privileged level the stack is popped
    too. *)
Definition iret (m : mach) : mach :=
  let '(ip, m) := pop m in let '(sel, m) := pop m in let '(fl, m) := pop m in
  let sel := u16 sel in
  if cpl (rg m) <? sel mod 4 then
    let '(sp, m) := pop m in let '(st, m) := pop m in
    MkMach (set ESP sp (set_ctl sel (u16 st) ip fl (rg m))) (ram m)
  else MkMach (set_ctl sel (ss (rg m)) ip fl (rg m)) (ram m).

Section processor.
(** What the processor leaves in the upper half of a word into which it pushes
    a selector. *)
Context (junk : Z -> Z).

Definition push_sel (v : Z) (m : mach) : mach := push (u16 v + 2 ^ 16 * u16 (junk (esp (rg m)))) m.

Definition exec (i : instr) (m : mach) : mach :=
  match i with
  | PushImm v => push v m
  | PushR r => push (get r (rg m)) m
  | PushS s => push_sel (get_seg s (rg m)) m
  | Pushal => pushal m
  | MovwAx v => MkMach (set EAX (eax (rg m) - eax (rg m) mod 2 ^ 16 + u16 v) (rg m)) (ram m)
  | MovwSeg s => MkMach (set_seg s (u16 (eax (rg m))) (rg m)) (ram m)
  | MovImm v r => MkMach (set r (u32 v) (rg m)) (ram m)
  | MovR a b => MkMach (set b (get a (rg m)) (rg m)) (ram m)
  | Load n a b => MkMach (set b (load32 (ram m) (u32 (get a (rg m) + n))) (rg m)) (ram m)
  | Store a b => MkMach (rg m) (store32 (ram m) (get b (rg m)) (get a (rg m)))
  | AddEsp n => MkMach (set ESP (u32 (esp (rg m) + n)) (rg m)) (ram m)
  | PopR r => let '(v, m) := pop m in MkMach (set r v (rg m)) (ram m)
  | PopS s => let '(v, m) := pop m in MkMach (set_seg s (u16 v) (rg m)) (ram m)
  | Popal => popal m
  | RetI => let '(v, m) := pop m in MkMach (set_ctl (cs (rg m)) (ss (rg m)) v (eflags (rg m)) (rg m)) (ram m)
  | Iret => iret m
  end.

Definition run (code : list instr) (m : mach) : mach := foldl (fun m i => exec i m) m code.

(** How an interrupt comes about: by the instruction [int], or from a device
    or a fault, the latter with an error code for some vectors. *)
Inductive cause := Software | Device | Fault (err : Z).

Definition desc_dpl (x : Z) : Z := field 45 2 x.
Definition desc_base (x : Z) : Z := field 16 16 x + 2 ^ 16 * field 32 8 x + 2 ^ 24 * field 56 8 x.
Definition desc_limit (x : Z) : Z :=
  let l := field 0 16 x + 2 ^ 16 * field 48 4 x in if field 55 1 x =? 1 then l * 4096 + 4095 else l.

(** Entry through gate [n].  The processor refuses an [int] of a program less
    privileged than the gate (with a fault of its own), and an absent gate or
    a vector outside of the table.  When the level changes it takes the stack
    from the task state segment. *)
Definition interrupt (ts_addr : Z) (t : tables) (n : Z) (c : cause) (m : mach) : option mach :=
  let g := idt t !!! Z.to_nat n in
  let sel := field 16 16 g in
  let code := gdt t !!! Z.to_nat (sel / 8) in
  let level := desc_dpl code in
  if idtr t <? 8 * n + 7 then None
  else if (match c with Software => true | _ => false end) && (desc_dpl g <? cpl (rg m)) then None
  else if (field 47 1 g =? 0) || (field 47 1 code =? 0) || (gdtr t <? sel + 7) || (cpl (rg m) <? level) then None
  else
    let x := rg m in
    let tss := gdt t !!! Z.to_nat (tr t / 8) in
    let stack :=
      if level <? cpl x then
        if (desc_base tss =? ts_addr) && (field 40 4 tss =? STS_T32A) && (field 44 1 tss =? 0) && (field 47 1 tss =? 1) then
          let m := MkMach (set ESP (ts_esp0 (ts t)) x) (ram m) in
          Some (ts_ss0 (ts t), push (esp x) (push_sel (ss x) m))
        else None
      else Some (ss x, m) in
    match stack with
    | None => None
    | Some (ss', m) =>
        let m := push (eip x) (push_sel (cs x) (push (eflags x) m)) in
        let m := match c with Fault err => push err m | _ => m end in
        let fl := if field 40 4 g =? STS_IG32 then Z.land (eflags x) (Z.lnot FL_IF) else eflags x in
        Some (MkMach (set_ctl (sel - sel mod 4 + level) ss' (field 0 16 g + 2 ^ 16 * field 48 16 g) fl (rg m)) (ram m))
    end.

End processor.

(** ** The assembly code *)

(** The vectors for which the processor pushes an error code. *)
Definition has_err (i : Z) : bool := (i =? 8) || ((10 <=? i) && (i <=? 14)) || (i =? 17).

(** vectors.pl: the code at [vector$i], up to the jump to [alltraps]. *)
Definition vector (i : Z) : list instr := (if has_err i then [] else [PushImm 0]) ++ [PushImm i].

(** [alltraps], up to the call of [trap], and what follows the call. *)
Definition alltraps : list instr :=
  [PushS DS; PushS ES; PushS FS; PushS GS; Pushal;
   MovwAx (Z.shiftl SEG_KDATA 3); MovwSeg DS; MovwSeg ES; PushR ESP].
Definition after_trap : list instr := [AddEsp 4].

Definition trapret : list instr := [Popal; PopS GS; PopS FS; PopS ES; PopS DS; AddEsp 8; Iret].

Definition swtch_code : list instr :=
  [Load 4 ESP EAX; Load 8 ESP EDX;
   PushR EBP; PushR EBX; PushR ESI; PushR EDI;
   Store ESP EAX; MovR EDX ESP;
   PopR EDI; PopR ESI; PopR EBX; PopR EBP; RetI].

(** usys.S: a stub, up to the instruction [int]; a [ret] follows it. *)
Definition usys (num : Z) : list instr := [MovImm num EAX].

(** initcode.S, up to its first [int]: the arguments of [exec] and its number.
    [init] and [argv] are the addresses of the labels. *)
Definition initcode_start (init argv : Z) : list instr := [PushImm argv; PushImm init; PushImm 0; MovImm 7 EAX].

(** ** Stacks *)

(** Memory after the words [vs] have been pushed from [a] on. *)
Fixpoint stack_mem (m : memory) (a : Z) (vs : list Z) : memory :=
  match vs with
  | [] => m
  | v :: vs' => stack_mem (store32 m (a - 4) v) (a - 4) vs'
  end.

Lemma stack_mem_app m a l1 l2 :
  stack_mem m a (l1 ++ l2) = stack_mem (stack_mem m a l1) (a - 4 * Z.of_nat (length l1)) l2.
Proof.
  revert m a. induction l1 as [|v l1 IH]; intros m a; cbn [stack_mem app length].
  - f_equal. lia.
  - rewrite IH. f_equal. lia.
Qed.

Lemma stack_mem_other m a vs x :
  x < a - 4 * Z.of_nat (length vs) \/ a <= x -> stack_mem m a vs x = m x.
Proof.
  revert m a. induction vs as [|v vs IH]; intros m a Hx; cbn [stack_mem length] in *; [done|].
  rewrite IH by lia. apply store32_other. lia.
Qed.

Lemma stack_load m a vs i v :
  vs !! i = Some v -> load32 (stack_mem m a vs) (a - 4 * (Z.of_nat i + 1)) = u32 v.
Proof.
  revert m a i. induction vs as [|w vs IH]; intros m a [|i] Hi; [done|done| |].
  - injection Hi as ->. cbn [stack_mem]. replace (a - 4 * (Z.of_nat 0 + 1)) with (a - 4) by lia.
    unfold load32. rewrite !stack_mem_other by lia. apply load32_store32_eq.
  - cbn [stack_mem]. replace (a - 4 * (Z.of_nat (S i) + 1)) with (a - 4 - 4 * (Z.of_nat i + 1)) by lia. by apply IH.
Qed.

Lemma push_at v x m a : esp x = a -> 4 <= a < 2 ^ 32 -> push v (MkMach x m) = MkMach (set ESP (a - 4) x) (store32 m (a - 4) v).
Proof. intros <- Ha. unfold push. cbn [rg ram]. by rewrite u32_small by lia. Qed.

Lemma pop_at x m a : esp x = a -> 0 <= a < 2 ^ 32 - 4 -> pop (MkMach x m) = (load32 m a, MkMach (set ESP (a + 4) x) m).
Proof. intros <- Ha. unfold pop. cbn [rg ram]. by rewrite u32_small by lia. Qed.

Lemma esp_set v x : esp (set ESP v x) = v.
Proof. by destruct x. Qed.
Lemma set_set v w x : set ESP v (set ESP w x) = set ESP v x.
Proof. by destruct x. Qed.

(** A run of pushes and a run of pops. *)
Lemma push_many vs x m a :
  esp x = a -> 4 * Z.of_nat (length vs) <= a < 2 ^ 32 ->
  foldl (fun m v => push v m) (MkMach x m) vs = MkMach (set ESP (a - 4 * Z.of_nat (length vs)) x) (stack_mem m a vs).
Proof.
  revert x m a. induction vs as [|v vs IH]; intros x m a Hx Ha; cbn [foldl stack_mem length] in *.
  - f_equal. rewrite Z.sub_0_r. subst. by destruct x.
  - rewrite (push_at v x m a Hx) by lia. rewrite (IH _ _ (a - 4)) by (rewrite ?esp_set; lia). rewrite set_set. do 2 f_equal. lia.
Qed.

(** ** What the processor decodes *)

Lemma widths_pos (l : list (Z * Z)) : Forall (fun f => 0 <= f.1) l -> 0 <= foldr Z.add 0 (fst <$> l).
Proof. induction 1 as [|f l Hf _ IH]; [done|]. rewrite fmap_cons. cbn [foldr]. lia. Qed.

Lemma field_pack fields i off w v :
  fields !! i = Some (w, v) -> Forall (fun f => 0 <= f.1) fields -> off = foldr Z.add 0 (fst <$> take i fields) ->
  field off w (pack fields) = v mod 2 ^ w.
Proof.
  revert i off. induction fields as [|[w0 v0] fields IH]; intros i off Hi Hw ->; [done|].
  apply Forall_cons_iff in Hw as [Hw0 Hw]. cbn [fst] in Hw0. assert (0 < 2 ^ w0) by (apply Z.pow_pos_nonneg; lia).
  pose proof (Z.mod_pos_bound v0 (2 ^ w0) ltac:(lia)). cbn [pack]. destruct i as [|i].
  - injection Hi as -> ->. unfold field. cbn [take fmap list_fmap foldr]. change (2 ^ 0) with 1. rewrite Z.div_1_r.
    rewrite (Z.mul_comm (2 ^ w)), Z.mod_add by lia. by rewrite Z.mod_mod by lia.
  - cbn [take fmap list_fmap foldr fst]. set (o := foldr Z.add 0 (fst <$> take i fields)).
    assert (0 <= o) as Ho by by apply widths_pos, Forall_take.
    rewrite <- (IH i o Hi Hw eq_refl). unfold field. rewrite Z.pow_add_r by lia. rewrite <- Z.div_div by lia.
    do 2 f_equal. rewrite (Z.mul_comm (2 ^ w0)), Z.div_add by lia. rewrite (Z.div_small (v0 mod 2 ^ w0)) by lia. lia.
Qed.

(** An address split into three parts, and into two. *)
Lemma split_base b : 0 <= b < 2 ^ 32 ->
  Z.land b 0xffff mod 2 ^ 16 + 2 ^ 16 * (Z.land (Z.shiftr b 16) 0xff mod 2 ^ 8) + 2 ^ 24 * (Z.shiftr b 24 mod 2 ^ 8) = b.
Proof.
  intros Hb. rewrite !Z.shiftr_div_pow2 by lia. change 0xffff with (Z.ones 16). change 0xff with (Z.ones 8).
  rewrite !Z.land_ones by lia. change (2 ^ 32) with 4294967296 in Hb. change (2 ^ 16) with 65536. change (2 ^ 8) with 256.
  change (2 ^ 24) with 16777216. Z.div_mod_to_equations; lia.
Qed.

Lemma split_offset b : 0 <= b < 2 ^ 32 -> Z.land b 0xffff mod 2 ^ 16 + 2 ^ 16 * (Z.shiftr b 16 mod 2 ^ 16) = b.
Proof.
  intros Hb. rewrite !Z.shiftr_div_pow2 by lia. change 0xffff with (Z.ones 16). rewrite !Z.land_ones by lia.
  change (2 ^ 32) with 4294967296 in Hb. change (2 ^ 16) with 65536. Z.div_mod_to_equations; lia.
Qed.

(** The limit in pages: the low twelve bits are lost and read as ones. *)
Lemma split_limit l : 0 <= l < 2 ^ 32 ->
  (Z.land (Z.shiftr l 12) 0xffff mod 2 ^ 16 + 2 ^ 16 * (Z.shiftr l 28 mod 2 ^ 4)) * 4096 + 4095 = l - l mod 4096 + 4095.
Proof.
  intros Hl. rewrite !Z.shiftr_div_pow2 by lia. change 0xffff with (Z.ones 16). rewrite !Z.land_ones by lia.
  change (2 ^ 32) with 4294967296 in Hl. change (2 ^ 16) with 65536. change (2 ^ 12) with 4096. change (2 ^ 28) with 268435456.
  change (2 ^ 4) with 16. Z.div_mod_to_equations; lia.
Qed.

Ltac pack_field i := apply (field_pack _ i); [reflexivity|repeat constructor; done|reflexivity].

(** What the processor reads from a descriptor that [SEG] or [SETGATE] made. *)
Lemma seg_decoded type base lim dpl :
  0 <= base < 2 ^ 32 -> 0 <= lim < 2 ^ 32 -> 0 <= dpl < 4 ->
  let x := seg_word (SEG type base lim dpl) in
  desc_base x = base /\ desc_limit x = lim - lim mod 4096 + 4095 /\ desc_dpl x = dpl /\
  field 40 4 x = type mod 16 /\ field 44 1 x = 1 /\ field 47 1 x = 1.
Proof.
  intros Hb Hl Hd x. unfold desc_base, desc_limit, desc_dpl.
  assert (field 0 16 x = Z.land (Z.shiftr lim 12) 0xffff mod 2 ^ 16) as -> by pack_field 0%nat.
  assert (field 16 16 x = Z.land (u32 base) 0xffff mod 2 ^ 16) as -> by pack_field 1%nat.
  assert (field 32 8 x = Z.land (Z.shiftr (u32 base) 16) 0xff mod 2 ^ 8) as -> by pack_field 2%nat.
  assert (field 40 4 x = type mod 2 ^ 4) as -> by pack_field 3%nat.
  assert (field 44 1 x = 1 mod 2 ^ 1) as -> by pack_field 4%nat.
  assert (field 45 2 x = dpl mod 2 ^ 2) as -> by pack_field 5%nat.
  assert (field 47 1 x = 1 mod 2 ^ 1) as -> by pack_field 6%nat.
  assert (field 48 4 x = Z.shiftr (u32 lim) 28 mod 2 ^ 4) as -> by pack_field 7%nat.
  assert (field 55 1 x = 1 mod 2 ^ 1) as -> by pack_field 11%nat.
  assert (field 56 8 x = Z.shiftr (u32 base) 24 mod 2 ^ 8) as -> by pack_field 12%nat.
  rewrite !(u32_small base), !(u32_small lim) by done. split_and!; [by apply split_base|by apply split_limit| |done..].
  apply Z.mod_small. lia.
Qed.

Lemma gate_decoded istrap sel off d :
  0 <= sel < 2 ^ 16 -> 0 <= d < 4 ->
  let x := gate_word (SETGATE istrap sel off d) in
  field 0 16 x + 2 ^ 16 * field 48 16 x = u32 off /\ field 16 16 x = sel /\
  field 40 4 x = (if istrap then STS_TG32 else STS_IG32) /\ desc_dpl x = d /\ field 47 1 x = 1.
Proof.
  intros Hs Hd x. unfold desc_dpl.
  assert (field 0 16 x = Z.land (u32 off) 0xffff mod 2 ^ 16) as -> by pack_field 0%nat.
  assert (field 16 16 x = sel mod 2 ^ 16) as -> by pack_field 1%nat.
  assert (field 40 4 x = (if istrap then STS_TG32 else STS_IG32) mod 2 ^ 4) as -> by pack_field 4%nat.
  assert (field 45 2 x = d mod 2 ^ 2) as -> by pack_field 6%nat.
  assert (field 47 1 x = 1 mod 2 ^ 1) as -> by pack_field 7%nat.
  assert (field 48 16 x = Z.shiftr (u32 off) 16 mod 2 ^ 16) as -> by pack_field 8%nat.
  split_and!; [apply split_offset, u32_range|by apply Z.mod_small|by destruct istrap|apply Z.mod_small; lia|done].
Qed.

(** ** The tables the kernel sets up *)

(** ** Running the code *)

Lemma stack_word m a vs i v b :
  b = a - 4 * (Z.of_nat i + 1) -> vs !! i = Some v -> load32 (stack_mem m a vs) b = u32 v.
Proof. intros -> . apply stack_load. Qed.

Lemma push_esp v x m :
  4 <= esp x < 2 ^ 32 -> push v (MkMach x m) = MkMach (set ESP (esp x - 4) x) (store32 m (esp x - 4) v).
Proof. by apply push_at. Qed.
Lemma pop_esp x m :
  0 <= esp x < 2 ^ 32 - 4 -> pop (MkMach x m) = (load32 m (esp x), MkMach (set ESP (esp x + 4) x) m).
Proof. by apply pop_at. Qed.

Lemma run_cons junk i code m : run junk (i :: code) m = run junk code (exec junk i m).
Proof. done. Qed.

(** Runs the next instruction on a machine whose registers are given one by
    one. *)
Ltac mach_cbn := cbn [exec get get_seg set set_seg set_ctl rg ram esp eax ecx edx ebx ebp esi edi ds es fs gs cs ss eip eflags].
Ltac exec_step :=
  rewrite run_cons; mach_cbn; unfold pushal, push_sel, popal; mach_cbn;
  repeat (first [rewrite push_esp by (cbn [esp]; lia) | rewrite pop_esp by (cbn [esp]; lia)]; mach_cbn).

Lemma low_word e v : 0 <= v < 2 ^ 16 -> u16 (e - e mod 2 ^ 16 + v) = v.
Proof. intros Hv. unfold u16. change (2 ^ 16) with 65536 in *. Z.div_mod_to_equations; lia. Qed.

(** Collects the offset from [b]. *)
Ltac offsets b :=
  rewrite <-?Z.add_assoc;
  repeat match goal with |- context [b + (?p + ?q)] =>
    let c := eval vm_compute in (p + q) in change (b + (p + q)) with (b + c) end.

(** ** The trap frame *)

Record regs_ok (x : regs) : Prop := {
  ro_general : Forall (fun v => 0 <= v < 2 ^ 32) [eax x; ecx x; edx x; ebx x; esp x; ebp x; esi x; edi x; eip x; eflags x];
  ro_segment : Forall (fun v => 0 <= v < 2 ^ 16) [ds x; es x; fs x; gs x; cs x; ss x];
}.

(** The [struct trapframe] at [tf] holds the registers [x]; the last two fields
    are there when the privilege level changed. *)
Record frame (m : memory) (tf : Z) (x : regs) (n err : Z) : Prop := {
  fr_edi : load32 m tf = edi x;
  fr_esi : load32 m (tf + 4) = esi x;
  fr_ebp : load32 m (tf + 8) = ebp x;
  fr_ebx : load32 m (tf + 16) = ebx x;
  fr_edx : load32 m (tf + 20) = edx x;
  fr_ecx : load32 m (tf + 24) = ecx x;
  fr_eax : load32 m (tf + tf_eax) = eax x;
  fr_gs : u16 (load32 m (tf + 32)) = gs x;
  fr_fs : u16 (load32 m (tf + 36)) = fs x;
  fr_es : u16 (load32 m (tf + tf_es)) = es x;
  fr_ds : u16 (load32 m (tf + tf_ds)) = ds x;
  fr_trapno : load32 m (tf + tf_trapno) = n;
  fr_err : load32 m (tf + tf_err) = err;
  fr_eip : load32 m (tf + tf_eip) = eip x;
  fr_cs : u16 (load32 m (tf + tf_cs)) = cs x;
  fr_eflags : load32 m (tf + tf_eflags) = eflags x;
  fr_esp : cpl x <> 0 -> load32 m (tf + tf_esp) = esp x;
  fr_ss : cpl x <> 0 -> u16 (load32 m (tf + tf_ss)) = ss x;
}.

Section code.
Context (junk : Z -> Z).

(** [trapret] loads the frame at the top of the stack into the registers.  On
    a return to kernel mode the stack pointer is the one above the frame. *)
Lemma trapret_spec m tf x y n err :
  frame m tf x n err -> esp y = tf -> cpl y = 0 -> 0 <= tf < 2 ^ 32 - 80 ->
  (cpl x = 0 -> esp x = tf + tf_esp /\ ss x = ss y) ->
  run junk trapret (MkMach y m) = MkMach x m.
Proof.
  intros [] Hsp Hy Htf Hk. unfold trapret. destruct y. cbn [esp ss] in *. unfold cpl in Hy; cbn [cs] in Hy. subst esp0.
  do 5 exec_step.
  rewrite run_cons; mach_cbn. rewrite u32_small by lia. rewrite run_cons. cbn [exec]. unfold iret.
  do 3 (rewrite pop_esp by (cbn [esp]; lia); mach_cbn). unfold cpl at 1. mach_cbn. rewrite Hy.
  unfold tf_eax, tf_es, tf_ds, tf_trapno, tf_err, tf_eip, tf_cs, tf_eflags, tf_esp, tf_ss in *.
  offsets tf.
  rewrite fr_edi0, fr_esi0, fr_ebp0, fr_ebx0, fr_edx0, fr_ecx0, fr_eax0, fr_gs0, fr_fs0, fr_es0, fr_ds0, fr_eip0, fr_cs0, fr_eflags0.
  fold (cpl x).
  destruct (Z.ltb_spec 0 (cpl x)) as [Hc|Hc].
  - do 2 (rewrite pop_esp by (cbn [esp]; lia); mach_cbn). offsets tf.
    cbn [run foldl]. rewrite fr_ss0, fr_esp0 by lia. by destruct x.
  - assert (cpl x = 0) as E by (unfold cpl in *; pose proof (Z.mod_pos_bound (cs x) 4); lia).
    destruct (Hk E) as [Es Ess]. cbn [run foldl]. rewrite <-Es, <-Ess. by destruct x.
Qed.

(** ** The switch between kernel threads *)

(** The [struct context] at [c]. *)
Record context_at (m : memory) (c v_edi v_esi v_ebx v_ebp v_eip : Z) : Prop := {
  ctx_edi : load32 m c = v_edi;
  ctx_esi : load32 m (c + 4) = v_esi;
  ctx_ebx : load32 m (c + 8) = v_ebx;
  ctx_ebp : load32 m (c + 12) = v_ebp;
  ctx_eip : load32 m (c + context_eip) = v_eip;
}.

Lemma context_ext m m' c a b d e f :
  (forall i, c <= i < c + sizeof_context -> m' i = m i) -> context_at m c a b d e f -> context_at m' c a b d e f.
Proof.
  unfold sizeof_context. intros Hm [].
  split; (rewrite (load32_ext m m'); [done | intros i Hi; apply Hm; unfold context_eip in *; lia]).
Qed.

(** Memory after [swtch] has saved the registers on the stack and its pointer
    at [old]. *)
Definition switched (x : regs) (m : memory) (old : Z) : memory :=
  store32 (stack_mem m (esp x) [ebp x; ebx x; esi x; edi x]) old (esp x - 16).

Lemma swtch_spec x m old new a b d e f :
  16 <= esp x < 2 ^ 32 - 16 -> 0 <= new < 2 ^ 32 - 24 ->
  load32 m (esp x + 4) = old -> load32 m (esp x + 8) = new -> context_at (switched x m old) new a b d e f ->
  run junk swtch_code (MkMach x m) =
    MkMach (MkRegs old (ecx x) new d (new + sizeof_context) e b a (ds x) (es x) (fs x) (gs x) (cs x) (ss x) f (eflags x)) (switched x m old).
Proof.
  intros Hsp Hnew Ho Hn []. unfold context_eip, sizeof_context in *. unfold swtch_code. destruct x. cbn [esp] in *.
  do 2 (rewrite run_cons; mach_cbn; rewrite u32_small by lia). rewrite Ho, Hn. do 4 exec_step.
  do 2 (rewrite run_cons; mach_cbn).
  replace (store32 _ old _) with (switched (MkRegs eax0 ecx0 edx0 ebx0 esp0 ebp0 esi0 edi0 ds0 es0 fs0 gs0 cs0 ss0 eip0 eflags0) m old)
    by (unfold switched; cbn [stack_mem esp ebp ebx esi edi]; f_equal; lia).
  do 5 exec_step. offsets new. cbn [run foldl]. congruence.
Qed.


(** C11: [swtch] suspends the calling thread and resumes the one whose context it
    is given.  A later [swtch] to the saved context, with the saved words
    untouched, returns from the first call with its callee-saved registers and
    its stack. *)
Theorem swtch_roundtrip x m old new :
  16 <= esp x < 2 ^ 32 - 16 -> regs_ok x -> 0 <= new < 2 ^ 32 - 24 ->
  load32 m (esp x + 4) = old -> load32 m (esp x + 8) = new ->
  old + 4 <= esp x - 16 \/ esp x + 4 <= old ->
  let m1 := ram (run junk swtch_code (MkMach x m)) in
  let x1 := rg (run junk swtch_code (MkMach x m)) in
  load32 m1 old = esp x - 16 /\ esp x1 = new + sizeof_context /\
  context_at m1 new (edi x1) (esi x1) (ebx x1) (ebp x1) (eip x1) /\
  forall y m2 old',
    16 <= esp y < 2 ^ 32 - 16 -> load32 m2 (esp y + 4) = old' -> load32 m2 (esp y + 8) = esp x - 16 ->
    (forall a, esp x - 16 <= a < esp x + 4 -> m2 a = m1 a) ->
    (esp y <= esp x - 16 \/ esp x + 4 <= esp y - 16) -> (old' + 4 <= esp x - 16 \/ esp x + 4 <= old') ->
    let x2 := rg (run junk swtch_code (MkMach y m2)) in
    ebx x2 = ebx x /\ esi x2 = esi x /\ edi x2 = edi x /\ ebp x2 = ebp x /\ esp x2 = esp x + 4 /\ eip x2 = load32 m (esp x).
Proof.
  intros Hsp Hr Hnew Ho Hn Hdis.
  rewrite (swtch_spec x m old new _ _ _ _ _ Hsp Hnew Ho Hn ltac:(by split)). cbn [rg ram esp edi esi ebx ebp eip].
  split_and!; [unfold switched; rewrite load32_store32_eq; apply u32_small; lia|done|by split|].
  intros y m2 old' Hy Ho' Hn' Hm Hd Hd'.
  assert (context_at (switched x m old) (esp x - 16) (edi x) (esi x) (ebx x) (ebp x) (load32 m (esp x))) as Hctx.
  { destruct Hr as [Hg _]. rewrite !Forall_cons_iff in Hg. destruct Hg as (_ & _ & _ & ? & _ & ? & ? & ? & _).
    unfold switched, context_eip. split; rewrite load32_store32_ne by (unfold context_eip; lia).
    1: rewrite (stack_word _ _ _ 3 (edi x)) by (done || lia). 2: rewrite (stack_word _ _ _ 2 (esi x)) by (done || lia).
    3: rewrite (stack_word _ _ _ 1 (ebx x)) by (done || lia). 4: rewrite (stack_word _ _ _ 0 (ebp x)) by (done || lia).
    1-4: by apply u32_small. unfold context_eip. replace (esp x - 16 + 16) with (esp x) by lia. apply load32_ext.
    intros i Hi. apply stack_mem_other. lia. }
  rewrite (swtch_spec y m2 old' (esp x - 16) (edi x) (esi x) (ebx x) (ebp x) (load32 m (esp x))); [|lia|lia|done|done|].
  - cbn [rg esp edi esi ebx ebp eip]. unfold sizeof_context. split_and!; try done. lia.
  - eapply context_ext; [|exact Hctx]. unfold sizeof_context. intros i Hi. rewrite <-Hm by lia.
    unfold switched at 1. rewrite store32_other by lia. apply stack_mem_other. cbn [length]. lia.
Qed.

(** The first program asks for [exec], its arguments where [argint] and
    [argptr] look for them: above the word at the stack pointer. *)
Lemma initcode_calls_exec x m init argv :
  esp x = PGSIZE -> 0 <= init < PGSIZE -> 0 <= argv < PGSIZE ->
  let k := run junk (initcode_start init argv) (MkMach x m) in
  eax (rg k) = 7 /\ load32 (ram k) (esp (rg k) + 4) = init /\ load32 (ram k) (esp (rg k) + 8) = argv.
Proof.
  unfold PGSIZE. intros Hsp Hi Ha. unfold initcode_start. destruct x. cbn [esp] in Hsp. subst. do 4 exec_step. cbn [run foldl rg ram].
  mach_cbn. split_and!; [done| |].
  - rewrite load32_store32_ne, load32_store32_eq by lia. apply u32_small. lia.
  - rewrite !load32_store32_ne, load32_store32_eq by lia. apply u32_small. lia.
Qed.

End code.

(** ** Widths *)

(** A machine whose registers, selectors and bytes have their widths. *)
Record mach_ok (m : mach) : Prop := {
  mo_regs : regs_ok (rg m);
  mo_bytes : bytes_ok (ram m);
}.

Record tables_ok (t : tables) : Prop := {
  to_esp0 : 0 <= ts_esp0 (ts t) < 2 ^ 32;
  to_ss0 : 0 <= ts_ss0 (ts t) < 2 ^ 16;
}.

Create HintDb width.

Lemma set_ok r v x : 0 <= v < 2 ^ 32 -> regs_ok x -> regs_ok (set r v x).
Proof.
  intros Hv [Hg Hs]. rewrite !Forall_cons_iff in Hg. rewrite !Forall_cons_iff in Hs.
  destruct x, r; split; cbn in *; rewrite !Forall_cons_iff; tauto.
Qed.
Lemma set_seg_ok r v x : 0 <= v < 2 ^ 16 -> regs_ok x -> regs_ok (set_seg r v x).
Proof.
  intros Hv [Hg Hs]. rewrite !Forall_cons_iff in Hg. rewrite !Forall_cons_iff in Hs.
  destruct x, r; split; cbn in *; rewrite !Forall_cons_iff; tauto.
Qed.
Lemma set_ctl_ok c s i f x :
  0 <= c < 2 ^ 16 -> 0 <= s < 2 ^ 16 -> 0 <= i < 2 ^ 32 -> 0 <= f < 2 ^ 32 -> regs_ok x -> regs_ok (set_ctl c s i f x).
Proof.
  intros Hc Hss Hi Hf [Hg Hs]. rewrite !Forall_cons_iff in Hg. rewrite !Forall_cons_iff in Hs.
  destruct x; split; cbn in *; rewrite !Forall_cons_iff; tauto.
Qed.
Lemma get_ok r x : regs_ok x -> 0 <= get r x < 2 ^ 32.
Proof. intros [Hg _]. rewrite !Forall_cons_iff in Hg. destruct r; cbn; tauto. Qed.
Lemma eflags_ok x : regs_ok x -> 0 <= eflags x < 2 ^ 32.
Proof. intros [Hg _]. rewrite !Forall_cons_iff in Hg. tauto. Qed.
Lemma ss_ok x : regs_ok x -> 0 <= ss x < 2 ^ 16.
Proof. intros [_ Hs]. rewrite !Forall_cons_iff in Hs. tauto. Qed.
Lemma cs_ok x : regs_ok x -> 0 <= cs x < 2 ^ 16.
Proof. intros [_ Hs]. rewrite !Forall_cons_iff in Hs. tauto. Qed.
Lemma u16_width v : 0 <= u16 v < 2 ^ 16.
Proof. apply Z.mod_pos_bound. done. Qed.
Lemma field_width off w x : 0 <= w -> 0 <= field off w x < 2 ^ w.
Proof. intros Hw. apply Z.mod_pos_bound. by apply Z.pow_pos_nonneg. Qed.

#[local] Hint Resolve set_ok set_seg_ok set_ctl_ok get_ok eflags_ok ss_ok cs_ok u16_width u32_range load32_range store32_ok : width.

Lemma mpush_ok v m : mach_ok m -> mach_ok (push v m).
Proof. intros []. split; cbn [push rg ram]; auto with width. Qed.
Lemma mpop_ok m : mach_ok m -> 0 <= (pop m).1 < 2 ^ 32 /\ mach_ok (pop m).2.
Proof. intros []. split; [|split]; cbn [pop fst snd rg ram]; auto with width. Qed.

#[local] Hint Resolve mpush_ok : width.

(** Takes a word from the stack of a machine that is known to be well-typed. *)
Ltac pop_width :=
  match goal with
  | Hm : mach_ok ?m |- context [pop ?m] =>
      let v := fresh "v" in let m' := fresh "m" in let Hv := fresh "Hv" in let Hm' := fresh "Hm" in
      destruct (mpop_ok m Hm) as [Hv Hm']; destruct (pop m) as [v m']; cbn [fst snd] in Hv, Hm'; clear Hm
  end.

Section widths.
Context (junk : Z -> Z).

Lemma popal_ok m : mach_ok m -> mach_ok (popal m).
Proof. intros Hm. unfold popal. repeat pop_width. match goal with Hm : mach_ok _ |- _ => destruct Hm end. split; cbn [rg ram]; auto 20 with width. Qed.

Lemma pushal_ok m : mach_ok m -> mach_ok (pushal m).
Proof. intros Hm. unfold pushal. auto 20 with width. Qed.

Lemma iret_ok m : mach_ok m -> mach_ok (iret m).
Proof.
  intros Hm. unfold iret. do 3 pop_width. destruct (_ <? _).
  - repeat pop_width. match goal with Hm : mach_ok _ |- _ => destruct Hm end. split; cbn [rg ram]; auto 20 with width.
  - match goal with Hm : mach_ok _ |- _ => destruct Hm end. split; cbn [rg ram]; auto 20 with width.
Qed.

Lemma exec_ok i m : mach_ok m -> mach_ok (exec junk i m).
Proof.
  intros Hm. destruct i; cbn [exec]; unfold push_sel; auto using popal_ok, pushal_ok, iret_ok with width;
    try (pop_width; match goal with Hm : mach_ok _ |- _ => destruct Hm end; split; cbn [rg ram]; auto with width; fail);
    destruct Hm as [Hr Hb]; split; cbn [rg ram]; auto with width.
  pose proof (get_ok EAX _ Hr) as He. cbn [get] in He. apply set_ok; [|done]. pose proof (u16_width v) as Hv. unfold u16 in *.
  set (w := v mod 2 ^ 16) in *. clearbody w. change (2 ^ 32) with 4294967296 in *. change (2 ^ 16) with 65536 in *. Z.div_mod_to_equations; lia.
Qed.

Lemma run_ok code : forall m, mach_ok m -> mach_ok (run junk code m).
Proof. induction code as [|i code IH]; intros m Hm; [done|]. rewrite run_cons. by apply IH, exec_ok. Qed.

Lemma land_width a b n : 0 <= n -> 0 <= a < 2 ^ n -> 0 <= Z.land a (Z.lnot b) < 2 ^ n.
Proof.
  intros Hn Ha. assert (0 <= Z.land a (Z.lnot b)) by (apply Z.land_nonneg; lia). split; [done|].
  rewrite <-(Z.mod_small a (2 ^ n)), <-Z.land_ones by lia. rewrite <-Z.land_assoc, (Z.land_comm (Z.ones n)), Z.land_assoc, Z.land_ones by lia.
  apply Z.mod_pos_bound. lia.
Qed.

Lemma interrupt_ok ts_addr t n c m m' :
  mach_ok m -> tables_ok t -> interrupt junk ts_addr t n c m = Some m' -> mach_ok m'.
Proof.
  intros Hm [Te Ts] Hi. unfold interrupt in Hi. set (g := idt t !!! _) in Hi.
  set (code_seg := gdt t !!! Z.to_nat (field 16 16 g / 8)) in Hi. set (tss := gdt t !!! Z.to_nat (tr t / 8)) in Hi. clearbody g code_seg tss.
  destruct (_ <? 8 * n + 7); [done|]. destruct (_ && (_ <? cpl _)); [done|]. destruct (_ || _ || _ || _); [done|].
  set (stack := if desc_dpl code_seg <? cpl (rg m) then _ else _) in Hi.
  assert (forall s m1, stack = Some (s, m1) -> 0 <= s < 2 ^ 16 /\ mach_ok m1) as Hst.
  { intros s m1. unfold stack. destruct (_ <? cpl _).
    - destruct (_ && _ && _ && _); [|done]. intros [= <- <-]. split; [done|]. unfold push_sel. apply mpush_ok, mpush_ok.
      destruct Hm. split; cbn [rg ram]; auto with width.
    - intros [= <- <-]. split; [|done]. apply ss_ok, Hm. }
  destruct stack as [[s m1]|]; [|done]. destruct (Hst s m1 eq_refl) as [Hs Hm1]. injection Hi as <-.
  set (m2 := match c with Fault err => _ | _ => _ end).
  assert (mach_ok m2) as [Hr2 Hb2] by (unfold m2, push_sel; destruct c; auto 10 with width).
  split; cbn [rg ram]; [|done]. apply set_ctl_ok; [|done| | |done].
  - pose proof (field_width 16 16 g ltac:(done)). pose proof (field_width 45 2 code_seg ltac:(done)). unfold desc_dpl.
    change (2 ^ 16) with 65536 in *. change (2 ^ 2) with 4 in *. set (f := field 16 16 g) in *. clearbody f. Z.div_mod_to_equations; lia.
  - pose proof (field_width 0 16 g ltac:(done)). pose proof (field_width 48 16 g ltac:(done)). lia.
  - pose proof (eflags_ok (rg m) (mo_regs _ Hm)). destruct (_ =? STS_IG32); [by apply land_width|done].
Qed.

Lemma switch_tss_ok ts_addr kstack t : tables_ok (switch_tss ts_addr kstack t).
Proof. split; cbn [switch_tss ltr ts ts_esp0 ts_ss0]; [apply u32_range|done]. Qed.

(** The processor runs an instruction or takes an interrupt. *)
Inductive mach_step (ts_addr : Z) (t : tables) (m : mach) : mach -> Prop :=
  | step_instr i : mach_step ts_addr t m (exec junk i m)
  | step_interrupt n c m' : interrupt junk ts_addr t n c m = Some m' -> mach_step ts_addr t m m'.

(** The processor keeps the widths of its state: in any sequence of
    instructions of the assembly files and of interrupts through the tables that
    [switchuvm] leaves, registers stay 32-bit words, selectors 16-bit words and
    memory bytes; so they are when [trap] is called and when [swtch] or
    [trapret] are done. *)
Theorem machine_well_typed ts_addr t kstack n m m' :
  mach_ok m -> rtc (mach_step ts_addr (switch_tss ts_addr kstack t)) m m' ->
  mach_ok m' /\ Forall (fun code => mach_ok (run junk code m')) [vector n ++ alltraps; after_trap ++ trapret; swtch_code].
Proof.
  intros Hm Hs. assert (mach_ok m') as Hm'.
  { induction Hs as [|m1 m2 m3 [i|n' c m' Hi] Hs IH]; [done| |]; apply IH; [by apply exec_ok|].
    by eapply interrupt_ok, Hi; [|apply switch_tss_ok]. }
  split; [done|]. rewrite !Forall_cons. split_and!; [..|done]; by apply run_ok.
Qed.

End widths.

Section kernel_tables.
Context (vectors : nat -> Z) (ts_addr : Z) (Hts : 0 <= ts_addr < 2 ^ 32).

Definition kernel_gate (n : nat) : gatedesc :=
  if decide (n = 64%nat) then SETGATE true (Z.shiftl SEG_KCODE 3) (vectors n) DPL_USER
  else SETGATE false (Z.shiftl SEG_KCODE 3) (vectors n) 0.

(** The tables of a processor that runs a process with the kernel stack
    [kstack]: [seginit], [tvinit], [idtinit] and [switchuvm] have run. *)
Definition kernel_tables (t0 : tables) (kstack : Z) : tables :=
  switch_tss ts_addr kstack (idtinit (tvinit vectors (seginit t0))).

Lemma tvinit_loop k t :
  (k <= 256)%nat -> length (idt t) = 256%nat ->
  let t' := foldl (fun t i => set_idt i (SETGATE false (Z.shiftl SEG_KCODE 3) (vectors i) 0) t) t (seq 0 k) in
  length (idt t') = 256%nat /\ gdt t' = gdt t /\ gdtr t' = gdtr t /\
  forall n, (n < k)%nat -> idt t' !! n = Some (gate_word (SETGATE false (Z.shiftl SEG_KCODE 3) (vectors n) 0)).
Proof.
  intros Hk Hl. induction k as [|k IH]; [by split_and!; [..|lia]|]. specialize (IH ltac:(lia)).
  cbv zeta in *. rewrite seq_S, foldl_app. cbn [foldl Nat.add]. set (t' := foldl _ t (seq 0 k)) in *.
  destruct IH as (Hl' & Hg & Hr & Hi). split_and!; [by cbn [set_idt idt]; rewrite length_insert|done|done|].
  intros n Hn. cbn [set_idt idt]. destruct (decide (n = k)) as [->|].
  - apply list_lookup_insert_eq. lia.
  - rewrite list_lookup_insert_ne by done. apply Hi. lia.
Qed.

(** The interrupt table after [tvinit]; the rest is as it was. *)
Lemma tvinit_spec t :
  length (idt t) = 256%nat ->
  gdt (tvinit vectors t) = gdt t /\ gdtr (tvinit vectors t) = gdtr t /\
  forall n, (n < 256)%nat -> idt (tvinit vectors t) !!! n = gate_word (kernel_gate n).
Proof.
  intros Hl. pose proof (tvinit_loop 256 t ltac:(lia) Hl) as (Hl' & Hg & Hr & Hi). cbv zeta in *. unfold tvinit.
  set (t' := foldl _ t (seq 0 256)) in *. cbn [set_idt idt gdt gdtr]. split_and!; [done|done|]. intros n Hn.
  apply list_lookup_total_correct. unfold kernel_gate. case_decide as E.
  - subst. apply list_lookup_insert_eq. rewrite Hl'. lia.
  - rewrite list_lookup_insert_ne by done. by apply Hi.
Qed.

(** The task state segment after [switchuvm]. *)
Lemma switch_tss_spec kstack t :
  let t' := switch_tss ts_addr kstack (idtinit t) in
  idt t' = idt t /\ gdtr t' = gdtr t /\ idtr t' = 2047 /\ tr t' = 40 /\
  ts_ss0 (ts t') = 16 /\ ts_esp0 (ts t') = u32 (kstack + KSTACKSIZE) /\
  gdt t' = <[5%nat := seg_word (set_sg_s 0 (SEG16 STS_T32A ts_addr 103 0))]>
    (<[5%nat := seg_word (SEG16 STS_T32A ts_addr 103 0)]> (gdt t)).
Proof. by destruct t. Qed.

Context (t0 : tables) (Hgdt : length (gdt t0) = 6%nat) (Hidt : length (idt t0) = 256%nat) (kstack : Z).

Let t := kernel_tables t0 kstack.

Lemma kernel_idt n : (n < 256)%nat -> idt t !!! n = gate_word (kernel_gate n).
Proof.
  unfold t, kernel_tables. destruct (switch_tss_spec kstack (tvinit vectors (seginit t0))) as [-> _].
  by apply tvinit_spec.
Qed.

Lemma kernel_limits : gdtr t = 47 /\ idtr t = 2047.
Proof.
  unfold t, kernel_tables. destruct (switch_tss_spec kstack (tvinit vectors (seginit t0))) as (_ & -> & -> & _).
  destruct (tvinit_spec (seginit t0) Hidt) as (_ & -> & _). by destruct t0.
Qed.

Lemma kernel_gdt_is : gdt t =
  <[5%nat := seg_word (set_sg_s 0 (SEG16 STS_T32A ts_addr 103 0))]>
    (<[5%nat := seg_word (SEG16 STS_T32A ts_addr 103 0)]> (gdt (seginit t0))).
Proof.
  unfold t, kernel_tables. destruct (switch_tss_spec kstack (tvinit vectors (seginit t0))) as (_ & _ & _ & _ & _ & _ & ->).
  destruct (tvinit_spec (seginit t0) Hidt) as (-> & _). done.
Qed.

Lemma kernel_code : gdt t !!! 1%nat = seg_word (SEG (Z.lor STA_X STA_R) 0 0xffffffff 0).
Proof.
  rewrite kernel_gdt_is, !list_lookup_total_insert_ne by done. unfold seginit. cbn [lgdt set_gdt gdt Z.to_nat].
  rewrite !list_lookup_total_insert_ne by done. apply list_lookup_total_insert_eq. rewrite Hgdt. unfold SEG_KCODE. lia.
Qed.

(** The task state segment: where the structure is, and what it says. *)
Lemma kernel_tss :
  desc_base (gdt t !!! 5%nat) = ts_addr /\ field 40 4 (gdt t !!! 5%nat) = STS_T32A /\ field 44 1 (gdt t !!! 5%nat) = 0 /\
  field 47 1 (gdt t !!! 5%nat) = 1 /\ tr t = 40 /\ ts_ss0 (ts t) = 16 /\ ts_esp0 (ts t) = u32 (kstack + KSTACKSIZE).
Proof.
  assert (gdt t !!! 5%nat = seg_word (set_sg_s 0 (SEG16 STS_T32A ts_addr 103 0))) as ->.
  { rewrite kernel_gdt_is. apply list_lookup_total_insert_eq. rewrite length_insert.
    unfold seginit. cbn [lgdt set_gdt gdt]. rewrite !length_insert. lia. }
  set (x := seg_word _). unfold desc_base.
  assert (field 16 16 x = Z.land (u32 ts_addr) 0xffff mod 2 ^ 16) as -> by pack_field 1%nat.
  assert (field 32 8 x = Z.land (Z.shiftr (u32 ts_addr) 16) 0xff mod 2 ^ 8) as -> by pack_field 2%nat.
  assert (field 40 4 x = STS_T32A mod 2 ^ 4) as -> by pack_field 3%nat.
  assert (field 44 1 x = 0 mod 2 ^ 1) as -> by pack_field 4%nat.
  assert (field 47 1 x = 1 mod 2 ^ 1) as -> by pack_field 6%nat.
  assert (field 56 8 x = Z.shiftr (u32 ts_addr) 24 mod 2 ^ 8) as -> by pack_field 12%nat.
  rewrite !(u32_small ts_addr) by done. rewrite split_base by done. unfold t, kernel_tables.
  destruct (switch_tss_spec kstack (tvinit vectors (seginit t0))) as (_ & _ & _ & -> & -> & -> & _). done.
Qed.

Context (junk : Z -> Z).

(** A selector as it is pushed when the stack is at [a]. *)
Definition sel_word (v a : Z) : Z := u16 v + 2 ^ 16 * u16 (junk a).

(** Where the frame of an interrupt begins: a program in user mode is moved to
    the top of the kernel stack of the process. *)
Definition entry_stack (x : regs) : Z := if cpl x =? 0 then esp x else kstack + KSTACKSIZE.

(** What the processor pushes there. *)
Definition entry_words (x : regs) (c : cause) : list Z :=
  let a := entry_stack x in
  (if cpl x =? 0 then [eflags x; sel_word (cs x) (a - 4); eip x]
   else [sel_word (ss x) a; esp x; eflags x; sel_word (cs x) (a - 4 - 4 - 4); eip x]) ++
  match c with Fault err => [err] | _ => [] end.

(** The causes the processor has for a vector: it pushes an error code for
    some exceptions.  A program in user mode may use [int] for system calls
    alone. *)
Definition cause_ok (n : Z) (c : cause) : Prop :=
  match c with Fault _ => has_err n = true | _ => has_err n = false end.

Definition may_enter (x : regs) (n : Z) (c : cause) : bool :=
  match c with Software => (n =? 64) || (cpl x =? 0) | _ => true end.

(** The state in which the code of the vector begins. *)
Definition entered (x : regs) (m : memory) (n : Z) (c : cause) : mach :=
  let fl := if n =? 64 then eflags x else Z.land (eflags x) (Z.lnot FL_IF) in
  let a := entry_stack x in
  let ws := entry_words x c in
  MkMach (set_ctl 8 (if cpl x =? 0 then ss x else 16) (u32 (vectors (Z.to_nat n))) fl
    (set ESP (a - 4 * Z.of_nat (length ws)) x)) (stack_mem m a ws).

Lemma gate_of n :
  0 <= n < 256 ->
  let g := idt t !!! Z.to_nat n in
  field 0 16 g + 2 ^ 16 * field 48 16 g = u32 (vectors (Z.to_nat n)) /\ field 16 16 g = 8 /\
  field 40 4 g = (if n =? 64 then STS_TG32 else STS_IG32) /\ desc_dpl g = (if n =? 64 then 3 else 0) /\ field 47 1 g = 1.
Proof.
  intros Hn g. unfold g. rewrite kernel_idt by lia. unfold kernel_gate.
  case_decide as E; destruct (Z.eqb_spec n 64) as [E'|E']; try lia.
  - apply (gate_decoded true (Z.shiftl SEG_KCODE 3) (vectors (Z.to_nat n)) DPL_USER); done.
  - apply (gate_decoded false (Z.shiftl SEG_KCODE 3) (vectors (Z.to_nat n)) 0); done.
Qed.

(** Runs the innermost push. *)
Ltac push_step :=
  erewrite push_at by (first [apply esp_set | reflexivity | lia]); cbn [rg ram]; rewrite ?esp_set, ?set_set.

Lemma set_ctl_esp c s i f v x : set_ctl c s i f (set ESP v x) = set ESP v (set_ctl c s i f x).
Proof. by destruct x. Qed.

Lemma interrupt_spec x m n c :
  0 <= n < 256 -> cpl x = 0 \/ cpl x = 3 -> 24 <= entry_stack x < 2 ^ 32 ->
  interrupt junk ts_addr t n c (MkMach x m) = if may_enter x n c then Some (entered x m n c) else None.
Proof.
  intros Hn Hcpl Hst. destruct (gate_of n Hn) as (Eoff & Esel & Ety & Edpl & Ep). destruct kernel_limits as [Eg Ei].
  destruct (seg_decoded (Z.lor STA_X STA_R) 0 0xffffffff 0 ltac:(done) ltac:(done) ltac:(done)) as (_ & _ & Ecd & _ & _ & Ecp).
  destruct kernel_tss as (Tb & Tt & Ts & Tp & Ttr & Tss & Tesp).
  unfold interrupt. cbn [rg]. rewrite Esel, Eg, Ei, Edpl, Ep, Eoff, Ety, Ttr. change (Z.to_nat (8 / 8)) with 1%nat.
  change (Z.to_nat (40 / 8)) with 5%nat. rewrite kernel_code, Ecd, Ecp, Tb, Tt, Ts, Tp, Tss, Tesp, Z.eqb_refl.
  destruct (Z.ltb_spec 2047 (8 * n + 7)); [lia|]. cbn [Z.eqb orb Z.ltb Z.compare Pos.eqb andb].
  assert ((match c with Software => true | _ => false end && ((if n =? 64 then 3 else 0) <? cpl x)) = negb (may_enter x n c)) as ->.
  { unfold may_enter. destruct c, (n =? 64), Hcpl as [-> | ->]; done. }
  destruct (may_enter x n c); [|done]. cbn [negb]. rewrite (proj2 (Z.ltb_ge (cpl x) 0)) by lia.
  assert ((if (if n =? 64 then STS_TG32 else STS_IG32) =? STS_IG32 then Z.land (eflags x) (Z.lnot FL_IF) else eflags x) =
    if n =? 64 then eflags x else Z.land (eflags x) (Z.lnot FL_IF)) as -> by by destruct (n =? 64).
  change (8 - 8 mod 4 + 0) with 8. change (47 <? 8 + 7) with false. unfold entered, entry_words, entry_stack, push_sel in *. cbn [rg ram].
  set (fl := if n =? 64 then _ else _). destruct Hcpl as [E|E]; rewrite E in *; cbn [Z.eqb Z.ltb Z.compare orb] in *.
  - destruct c; repeat push_step; cbn [app length stack_mem]; do 4 f_equal; lia.
  - rewrite (u32_small (kstack + KSTACKSIZE)) by lia. change (STS_T32A =? STS_T32A) with true. cbn [andb Z.eqb Pos.eqb].
    destruct c; repeat push_step; cbn [app length stack_mem]; do 4 f_equal; lia.
Qed.

(** The words [vector] and [alltraps] push, from [a] on, and the state in which
    [trap] is called: its argument on the stack, the kernel's data segments
    loaded. *)
Definition trap_words (x : regs) (n a : Z) : list Z :=
  (if has_err n then [] else [0]) ++ [n] ++
  let a := (if has_err n then a else a - 4) - 4 in
  [sel_word (ds x) a; sel_word (es x) (a - 4); sel_word (fs x) (a - 4 - 4); sel_word (gs x) (a - 4 - 4 - 4);
   eax x; ecx x; edx x; ebx x; a - 4 - 4 - 4 - 4; ebp x; esi x; edi x].

Definition calling_trap (x : regs) (m : memory) (n : Z) : mach :=
  let a := esp x in
  let ws := trap_words x n a in
  let tf := a - 4 * Z.of_nat (length ws) in
  MkMach (set ESP (tf - 4) (set_seg ES 16 (set_seg DS 16 (set EAX (eax x - eax x mod 2 ^ 16 + 16) x))))
    (stack_mem m a (ws ++ [tf])).

Lemma alltraps_spec x m n :
  64 <= esp x < 2 ^ 32 -> run junk (vector n ++ alltraps) (MkMach x m) = calling_trap x m n.
Proof.
  intros Hsp. unfold vector, calling_trap, trap_words, alltraps. cbv zeta. destruct x. cbn [esp] in Hsp.
  destruct (has_err n); cbn [app length]; repeat exec_step; change (u16 (Z.shiftl SEG_KDATA 3)) with 16;
    rewrite low_word by done; cbn [run foldl stack_mem].
  - replace (esp0 - 4 * Z.of_nat 13) with (esp0 - 4 - 4 - 4 - 4 - 4 - 4 - 4 - 4 - 4 - 4 - 4 - 4 - 4) by lia. reflexivity.
  - replace (esp0 - 4 * Z.of_nat 14) with (esp0 - 4 - 4 - 4 - 4 - 4 - 4 - 4 - 4 - 4 - 4 - 4 - 4 - 4 - 4) by lia. reflexivity.
Qed.

(** ** The trap frame of an entry *)

Definition error_code (c : cause) : Z := match c with Fault err => err | _ => 0 end.
Definition frame_start (x : regs) : Z := entry_stack x - (if cpl x =? 0 then tf_esp else sizeof_tf).

(** All the words of an entry. *)
Lemma entry_all x m n c :
  cause_ok n c -> 100 <= entry_stack x < 2 ^ 32 ->
  run junk (vector n ++ alltraps) (entered x m n c) =
    MkMach (set ESP (frame_start x - 4) (set_seg ES 16 (set_seg DS 16 (set EAX (eax x - eax x mod 2 ^ 16 + 16)
      (rg (entered x m n c)))))) (stack_mem m (entry_stack x)
        (entry_words x c ++ trap_words x n (esp (rg (entered x m n c))) ++ [frame_start x])).
Proof.
  intros Hc Hst. unfold entered. cbv zeta. cbn [rg]. set (a := entry_stack x). set (fl := if n =? 64 then _ else _).
  set (sx := if cpl x =? 0 then ss x else 16). set (ip := u32 _).
  assert (Z.of_nat (length (entry_words x c)) <= 6) as Hlw.
  { unfold entry_words. destruct (cpl x =? 0), c; cbn [app length]; lia. }
  assert (frame_start x = a - 4 * Z.of_nat (length (entry_words x c)) - 4 * (if has_err n then 13 else 14)) as Ef.
  { unfold frame_start, entry_words, cause_ok, tf_esp, sizeof_tf in *. fold a. destruct (cpl x =? 0), c, (has_err n);
      cbn [app length]; try done; lia. }
  rewrite alltraps_spec by (rewrite set_ctl_esp, esp_set; fold a in Hst; lia).
  unfold calling_trap. cbv zeta. rewrite set_ctl_esp, esp_set. set (b := a - _) in *.
  assert (trap_words (set ESP b (set_ctl 8 sx ip fl x)) n b = trap_words x n b) as -> by by destruct x.
  assert (b - 4 * Z.of_nat (length (trap_words x n b)) = frame_start x) as ->.
  { rewrite Ef. unfold trap_words. destruct (has_err n); cbn [app length]; lia. }
  assert (eax (set ESP b (set_ctl 8 sx ip fl x)) = eax x) as -> by by destruct x.
  rewrite (stack_mem_app m a (entry_words x c)). reflexivity.
Qed.

(** The words of the frame below its two optional ones, from the top, [s] being
    the address above them. *)
Definition frame_words (x : regs) (n err : Z) (s : Z) : list Z :=
  [eflags x; sel_word (cs x) (s - 4); eip x; err; n; sel_word (ds x) (s - 20); sel_word (es x) (s - 24);
   sel_word (fs x) (s - 28); sel_word (gs x) (s - 32); eax x; ecx x; edx x; ebx x; s - 36; ebp x; esi x; edi x].

Definition outer_words (x : regs) : list Z :=
  if cpl x =? 0 then [] else [sel_word (ss x) (entry_stack x); esp x].

Lemma entry_words_frame x m n c :
  cause_ok n c ->
  entry_words x c ++ trap_words x n (esp (rg (entered x m n c))) ++ [frame_start x] =
  outer_words x ++ frame_words x n (error_code c) (frame_start x + tf_esp) ++ [frame_start x].
Proof.
  intros Hc. unfold entered. cbv zeta. cbn [rg]. rewrite set_ctl_esp, esp_set.
  unfold entry_words, trap_words, outer_words, frame_words, frame_start, cause_ok, error_code, tf_esp, sizeof_tf in *.
  cbv zeta. set (a := entry_stack x). destruct (cpl x =? 0), c, (has_err n); try done; cbn [app length Z.of_nat Pos.of_succ_nat Pos.succ];
    repeat (refine (f_equal2 cons _ _); [first [reflexivity | f_equal; lia | lia]|]); reflexivity.
Qed.

Lemma sel_word_low v a : 0 <= v < 2 ^ 16 -> u16 (u32 (sel_word v a)) = v.
Proof.
  intros Hv. unfold sel_word. assert (0 <= u16 v < 2 ^ 16 /\ 0 <= u16 (junk a) < 2 ^ 16) as [? ?] by (split; apply Z.mod_pos_bound; done).
  rewrite u32_small by lia. unfold u16 at 1. rewrite Z.mul_comm, Z.mod_add, Z.mod_small by lia. apply Z.mod_small. lia.
Qed.

Ltac frame_field i := erewrite (stack_word _ _ _ i) by (first [unfold tf_esp; lia | reflexivity]).

Lemma frame_of_words m x n err :
  regs_ok x -> 0 <= n < 256 -> 0 <= err < 2 ^ 32 -> 100 <= entry_stack x < 2 ^ 32 ->
  frame (stack_mem m (entry_stack x) (outer_words x ++ frame_words x n err (frame_start x + tf_esp) ++ [frame_start x]))
    (frame_start x) x n err.
Proof.
  intros [Hg Hs] Hn He Hst. rewrite !Forall_cons_iff in Hg. rewrite !Forall_cons_iff in Hs.
  destruct Hg as (? & ? & ? & ? & ? & ? & ? & ? & ? & ? & _), Hs as (? & ? & ? & ? & ? & ? & _). rewrite stack_mem_app.
  assert (entry_stack x - 4 * Z.of_nat (length (outer_words x)) = frame_start x + tf_esp) as ->.
  { unfold outer_words, frame_start, tf_esp, sizeof_tf. destruct (cpl x =? 0); cbn [length]; lia. }
  split; unfold tf_eax, tf_es, tf_ds, tf_trapno, tf_err, tf_eip, tf_cs, tf_eflags.
  1: frame_field 16%nat. 2: frame_field 15%nat. 3: frame_field 14%nat. 4: frame_field 12%nat. 5: frame_field 11%nat.
  6: frame_field 10%nat. 7: frame_field 9%nat. 8: frame_field 8%nat. 9: frame_field 7%nat. 10: frame_field 6%nat.
  11: frame_field 5%nat. 12: frame_field 4%nat. 13: frame_field 3%nat. 14: frame_field 2%nat. 15: frame_field 1%nat.
  16: frame_field 0%nat. 8-11, 15: by apply sel_word_low. 1-11: apply u32_small; first [assumption | lia].
  all: intros E; rewrite <-Z.eqb_neq in E.
  all: erewrite load32_ext by (intros i Hi; rewrite stack_mem_other by (unfold tf_esp, tf_ss in *; lia); reflexivity).
  all: unfold outer_words, frame_start, tf_esp, tf_ss, sizeof_tf in *; rewrite E in *.
  - rewrite (stack_word _ _ _ 1 (esp x)) by first [done | lia]. by apply u32_small.
  - rewrite (stack_word _ _ _ 0 (sel_word (ss x) (entry_stack x))) by first [done | lia]. by apply sel_word_low.
Qed.

Lemma cpl_entered x m n c : cpl (rg (entered x m n c)) = 0.
Proof. by destruct x. Qed.

(** Entry: the state in which the C function [trap] is called. *)
Lemma trap_entry x m n c :
  0 <= n < 256 -> cpl x = 0 \/ cpl x = 3 -> regs_ok x -> cause_ok n c -> 0 <= error_code c < 2 ^ 32 ->
  100 <= entry_stack x < 2 ^ 32 ->
  let tf := frame_start x in
  let k := run junk (vector n ++ alltraps) (entered x m n c) in
  frame (ram k) tf x n (error_code c) /\ esp (rg k) = tf - 4 /\ load32 (ram k) (tf - 4) = tf /\
  cpl (rg k) = 0 /\ ds (rg k) = 16 /\ es (rg k) = 16 /\ ss (rg k) = (if cpl x =? 0 then ss x else 16) /\
  Z.land (eflags (rg k)) FL_IF = (if n =? 64 then Z.land (eflags x) FL_IF else 0) /\
  forall a, a < tf - 4 \/ entry_stack x <= a -> ram k a = m a.
Proof.
  intros Hn Hcpl Hr Hc He Hst tf k. unfold k. rewrite entry_all by done. rewrite entry_words_frame by done. cbn [rg ram]. fold tf.
  assert (length (outer_words x ++ frame_words x n (error_code c) (tf + tf_esp) ++ [tf]) =
    if cpl x =? 0 then 18%nat else 20%nat) as El by (unfold outer_words; by destruct (cpl x =? 0)).
  assert (tf = entry_stack x - (if cpl x =? 0 then 68 else 76)) as Etf by done.
  split_and!.
  - by apply frame_of_words.
  - apply esp_set.
  - rewrite (stack_word _ _ _ (if cpl x =? 0 then 17 else 19) tf).
    + apply u32_small. destruct (cpl x =? 0); lia.
    + destruct (cpl x =? 0); lia.
    + unfold outer_words. by destruct (cpl x =? 0).
  - by destruct x.
  - by destruct x.
  - by destruct x.
  - by destruct x.
  - unfold entered. cbv zeta. cbn [rg]. rewrite set_ctl_esp.
    replace (eflags _) with (if n =? 64 then eflags x else Z.land (eflags x) (Z.lnot FL_IF)) by by destruct x.
    destruct (n =? 64); [done|]. by rewrite <-Z.land_assoc, (Z.land_comm (Z.lnot FL_IF)), Z.land_lnot_diag, Z.land_0_r.
  - intros a Ha. apply stack_mem_other. rewrite El. destruct (cpl x =? 0); lia.
Qed.

(** C10: An interrupt, exception or system call reaches [trap] with a trap frame
    that holds all the registers of the interrupted program, on the kernel
    stack of the process when it was in user mode, with the kernel's segments
    and with interrupts masked unless it is a system call; nothing else in
    memory changes.  When [trap] returns, the program goes on with the
    registers the frame then holds: with its own when the frame is unchanged. *)
Theorem trap_roundtrip x m n c :
  0 <= n < 256 -> cpl x = 0 \/ cpl x = 3 -> regs_ok x -> cause_ok n c -> 0 <= error_code c < 2 ^ 32 ->
  100 <= entry_stack x < 2 ^ 32 - 80 -> may_enter x n c = true ->
  exists k,
    run junk (vector n ++ alltraps) <$> interrupt junk ts_addr t n c (MkMach x m) = Some k /\
    let tf := frame_start x in
    frame (ram k) tf x n (error_code c) /\ load32 (ram k) (esp (rg k)) = tf /\
    cpl (rg k) = 0 /\ ds (rg k) = 16 /\ es (rg k) = 16 /\
    Z.land (eflags (rg k)) FL_IF = (if n =? 64 then Z.land (eflags x) FL_IF else 0) /\
    (forall a, a < tf - 4 \/ entry_stack x <= a -> ram k a = m a) /\
    forall y m' x' n' err',
      esp y = esp (rg k) -> cs y = cs (rg k) -> ss y = ss (rg k) -> frame m' tf x' n' err' ->
      cpl x' = cpl x -> (cpl x = 0 -> esp x' = esp x /\ ss x' = ss x) ->
      run junk (after_trap ++ trapret) (MkMach y m') = MkMach x' m'.
Proof.
  intros Hn Hcpl Hr Hc He Hst Hm. destruct (trap_entry x m n c) as (Hf & Hsp & Harg & Hk & Hds & Hes & Hss & Hfl & Hmem); [done..|lia|].
  eexists. split; [rewrite interrupt_spec, Hm by (done || lia); reflexivity|]. cbv zeta.
  split_and!; [done|by rewrite Hsp|done..|]. intros y m' x' n' err' Ey Ecs Ess Hf' Ec Hke.
  assert (frame_start x = entry_stack x - (if cpl x =? 0 then 68 else 76)) as Etf by done.
  unfold after_trap. cbn [app]. rewrite run_cons. cbn [exec rg ram]. rewrite Ey, Hsp.
  rewrite u32_small by (destruct (cpl x =? 0); lia). apply (trapret_spec _ _ (frame_start x) _ _ n' err'); [done|rewrite esp_set; lia| | |].
  - unfold cpl in *. replace (cs (set ESP _ y)) with (cs y) by by destruct y. by rewrite Ecs.
  - destruct (cpl x =? 0); lia.
  - intros E. rewrite Ec in E. destruct (Hke E) as [-> ->]. unfold entry_stack in Etf. rewrite E in *. cbn [Z.eqb] in *.
    split; [unfold tf_esp; lia|]. rewrite <-Hss, <-Ess. by destruct y.
Qed.

(** A program in user mode that uses the instruction [int] enters the
    kernel through the system call gate or not at all. *)
Theorem user_int_gate x m n :
  0 <= n < 256 -> cpl x = 3 -> 24 <= kstack + KSTACKSIZE < 2 ^ 32 ->
  interrupt junk ts_addr t n Software (MkMach x m) <> None <-> n = T_SYSCALL.
Proof.
  intros Hn Hc Hs. assert (entry_stack x = kstack + KSTACKSIZE) as E by (unfold entry_stack; by rewrite Hc).
  rewrite interrupt_spec by (rewrite ?E; auto). unfold may_enter. rewrite Hc. cbn [Z.eqb orb]. rewrite orb_false_r.
  unfold T_SYSCALL. destruct (Z.eqb_spec n 64); naive_solver.
Qed.

End kernel_tables.

(** ** The first run of a process *)

Section start.
Context `{Link} (junk : Z -> Z).

(** What [allocproc] leaves for [swtch] and for the return of [forkret]. *)
Lemma new_stack_context v m :
  context_at (new_stack v m) (v + KSTACKSIZE - sizeof_tf - 4 - sizeof_context) 0 0 0 0 (u32 l_forkret) /\
  load32 (new_stack v m) (v + KSTACKSIZE - sizeof_tf - 4) = u32 l_trapret.
Proof.
  unfold new_stack, sizeof_context, context_eip. set (tf := v + KSTACKSIZE - sizeof_tf).
  assert (forall o, 0 <= o <= 12 -> load32 (store32 (memset (store32 m (tf - 4) l_trapret) (tf - 4 - 20) 0 20) (tf - 4 - 20 + 16) l_forkret) (tf - 4 - 20 + o) = 0) as Hz.
  { intros o Hoo. rewrite load32_store32_ne by lia. unfold load32. rewrite !memset_spec by lia.
    repeat (rewrite (proj2 (Z.leb_le _ _)) by lia). repeat (rewrite (proj2 (Z.ltb_lt _ _)) by lia). done. }
  split; [split|].
  - pose proof (Hz 0) as E. rewrite Z.add_0_r in E. apply E. lia.
  - by apply Hz.
  - by apply Hz.
  - by apply Hz.
  - apply load32_store32_eq.
  - rewrite load32_store32_ne by lia. rewrite (load32_ext (store32 m (tf - 4) l_trapret)); [apply load32_store32_eq|].
    intros i Hi. rewrite memset_spec by lia. destruct (Z.ltb_spec i (tf - 4 - 20 + 20)); [lia|]. by rewrite andb_false_r.
Qed.

(** C12: The process [allocproc] sets up starts as its trap frame says.  When the
    scheduler switches to it the first time, [forkret] begins, its return
    address is [trapret], and from there the processor enters the program with
    the registers of the frame. *)
Theorem new_process_starts `{!LinkOk} s i v l :
  L_ptable ∉ k_held s -> L_kmem ∉ k_held s -> kmem_ok s (v :: l) ->
  find_proc (is_state UNUSED) (k_proc s) = Some i ->
  0 <= l_forkret < 2 ^ 32 -> 0 <= l_trapret < 2 ^ 32 ->
  exists s' tf, allocproc s = Ret (Some i) s' /\ p_tf (k_proc s' !!! i) = tf /\ tf = v + KSTACKSIZE - sizeof_tf /\
  forall y m old,
    16 <= esp y < 2 ^ 32 - 16 -> load32 m (esp y + 4) = old -> load32 m (esp y + 8) = p_context (k_proc s' !!! i) ->
    (forall a, v <= a < tf -> m a = k_mem s' a) ->
    esp y <= v \/ v + KSTACKSIZE <= esp y - 16 -> old + 4 <= v \/ v + KSTACKSIZE <= old ->
    let k1 := run junk swtch_code (MkMach y m) in
    eip (rg k1) = l_forkret /\ esp (rg k1) = tf - 4 /\
    forall z m2 x n err,
      esp z = tf - 4 -> cpl z = 0 -> frame m2 tf x n err -> cpl x = 3 ->
      (forall a, tf - 4 <= a < tf -> m2 a = ram k1 a) ->
      let k2 := exec junk RetI (MkMach z m2) in
      eip (rg k2) = l_trapret /\ run junk trapret k2 = MkMach x m2.
Proof.
  intros Hnp Hnk Hk Hf Hfr Htr. destruct (find_proc_Some _ _ _ Hf) as [Hi _]. apply list_lookup_lookup_total_lt in Hi as Hp. set (p := k_proc s !!! i) in Hp.
  destruct (wp_inv _ _ _ (allocproc_spec s i p v l Hnp Hnk Hk Hf Hp)) as (r & s' & Hrun & -> & Eproc & Emem).
  assert (k_proc s' !!! i = set_p_context (v + KSTACKSIZE - sizeof_tf - 4 - sizeof_context)
      (set_p_tf (v + KSTACKSIZE - sizeof_tf) (set_p_kstack v (embryo (k_nextpid s) (k_ticks s) p)))) as Epi.
  { rewrite Eproc. apply list_lookup_total_insert_eq. done. }
  exists s', (v + KSTACKSIZE - sizeof_tf). split_and!; [done|by rewrite Epi|done|]. intros y m old Hy Ho Hn Hm Hd Hd'.
  rewrite Epi in Hn. change (p_context _) with (v + KSTACKSIZE - sizeof_tf - 4 - sizeof_context) in Hn.
  assert (KERNBASE < v < 2 ^ 32 - 8192) as Hv.
  { destruct Hk as [_ _ [Hpv _]%Forall_cons]. pose proof (page_ok_pos v Hpv). destruct Hpv as (_ & _ & Hpv). unfold PHYSTOP, KERNBASE, PGSIZE in *. lia. }
  destruct (new_stack_context v (k_mem s)) as [Hctx Hret]. rewrite <-Emem in Hctx, Hret.
  unfold KSTACKSIZE, sizeof_tf, sizeof_context, KERNBASE in *.
  assert (forall a, v <= a < v + 4096 - 76 -> switched y m old a = k_mem s' a) as Hsw.
  { intros a Ha. rewrite <-Hm by lia. unfold switched. rewrite store32_other by lia. apply stack_mem_other. cbn [length]. lia. }
  rewrite (swtch_spec junk y m old (v + 4096 - 76 - 4 - 20) 0 0 0 0 l_forkret Hy); [|lia|done|done|].
  2: { rewrite u32_small in Hctx by done. eapply context_ext; [|exact Hctx]. unfold sizeof_context. intros a Ha. apply Hsw. lia. }
  cbv zeta. cbn [rg ram eip esp]. unfold sizeof_context. split_and!; [done|lia|]. intros z m2 x n err Ez Hz Hfm Hx Hm2.
  assert (load32 m2 (v + 4096 - 76 - 4) = l_trapret) as El.
  { rewrite u32_small in Hret by done. rewrite <-Hret. apply load32_ext. intros a Ha. rewrite Hm2 by lia. apply Hsw. lia. }
  destruct z. cbn [esp] in Ez. subst. cbn [exec]. rewrite pop_esp by (cbn [esp]; lia). mach_cbn. split; [done|].
  apply (trapret_spec junk m2 (v + 4096 - 76) x _ n err); [done|cbn [esp]; lia|done|lia|intros E; congruence].
Qed.

End start.

(** ** The theorems on a small machine *)

Definition demo_vectors (n : nat) : Z := 0x80106000 + 10 * Z.of_nat n.
Definition demo_tables : tables := MkTables (replicate 6 0) (MkTs 0 0 0) (replicate 256 0) 0 0 0.

(** A program in user mode, about to make a system call. *)
Definition demo_user : regs :=
  MkRegs 7 1 2 3 0x2fd0 0x2ff8 4 5 0x23 0x23 0 0 0x1b 0x23 0x46 (Z.lor FL_IF 2).

Lemma demo_user_ok : regs_ok demo_user.
Proof. split; repeat constructor; by vm_compute. Qed.

Lemma trap_roundtrip_witness :
  exists k, run (fun _ => 0) (vector 64 ++ alltraps) <$>
      interrupt (fun _ => 0) 0x80112000 (kernel_tables demo_vectors 0x80112000 demo_tables 0x8dfff000) 64 Software
        (MkMach demo_user (fun _ => 0)) = Some k /\
    frame (ram k) (0x8e000000 - 76) demo_user 64 0.
Proof.
  destruct (trap_roundtrip demo_vectors 0x80112000 ltac:(lia) demo_tables ltac:(done) ltac:(done) 0x8dfff000 (fun _ => 0)
    demo_user (fun _ => 0) 64 Software) as (k & Hk & Hf & _).
  - lia.
  - right. by vm_compute.
  - apply demo_user_ok.
  - by vm_compute.
  - by vm_compute.
  - by vm_compute.
  - by vm_compute.
  - exists k. split; [exact Hk|exact Hf].
Defined.

Lemma machine_well_typed_witness :
  mach_ok (exec (fun _ => 0) (PushR EBP) (MkMach demo_user (fun _ => 0))).
Proof.
  refine (proj1 (machine_well_typed (fun _ => 0) 0 demo_tables 0x8dfff000 64 (MkMach demo_user (fun _ => 0)) _ _ _)).
  - split; [exact demo_user_ok|]. intros a. split; [discriminate|reflexivity].
  - apply rtc_once, step_instr.
Defined.

Lemma user_int_gate_witness :
  interrupt (fun _ => 0) 0x80112000 (kernel_tables demo_vectors 0x80112000 demo_tables 0x8dfff000) 64 Software
    (MkMach demo_user (fun _ => 0)) <> None.
Proof.
  apply (user_int_gate demo_vectors 0x80112000 ltac:(lia) demo_tables ltac:(done) ltac:(done) 0x8dfff000 (fun _ => 0)
    demo_user (fun _ => 0) 64 ltac:(lia) ltac:(by vm_compute) ltac:(by vm_compute)). reflexivity.
Defined.

(** A thread that has called [swtch] to go to the context at 0x80300f9c. *)
Definition demo_thread : regs :=
  MkRegs 0 0 0 11 0x80200f00 12 13 14 16 16 0 0 8 16 0x80104000 2.
Definition demo_stack : memory :=
  store32 (store32 (fun _ => 0) 0x80200f04 0x80112040) 0x80200f08 0x80300f9c.

Lemma swtch_roundtrip_witness :
  load32 (ram (run (fun _ => 0) swtch_code (MkMach demo_thread demo_stack))) 0x80112040 = 0x80200f00 - 16.
Proof.
  refine (proj1 (swtch_roundtrip (fun _ => 0) demo_thread demo_stack 0x80112040 0x80300f9c _ _ _ _ _ _)).
  - by vm_compute.
  - split; repeat constructor; by vm_compute.
  - lia.
  - by vm_compute.
  - by vm_compute.
  - left. by vm_compute.
Defined.

#[local] Existing Instance demo_link.
#[local] Existing Instance demo_link_ok.

Lemma new_process_starts_witness :
  exists s' tf, allocproc demo_family = Ret (Some 2%nat) s' /\ p_tf (k_proc s' !!! 2%nat) = tf.
Proof.
  destruct (new_process_starts (fun _ => 0) demo_family 2 0x80200000 [0x80300000]) as (s' & tf & H1 & H2 & _).
  - apply not_elem_of_nil.
  - apply not_elem_of_nil.
  - destruct (demo_family_uvm [] ltac:(by vm_compute) ltac:(constructor)) as [[Hk _ _ _ _] _ _ _ _]. exact Hk.
  - by vm_compute.
  - by vm_compute.
  - by vm_compute.
  - exists s', tf. exact (conj H1 H2).
Defined.
