(* ===== verification/Mp.v ===== *)
(** * The multiprocessor tables (mp.c, mp.h)

    The firmware leaves a description of the processors and interrupt
    controllers in memory.  [mpsearch] looks for the floating pointer structure
    in the places the specification names, [mpconfig] checks the table it
    points to, and [mpinit] reads its entries.  The state is the memory, which
    is only read, the variables [mpinit] fills, and the bytes written to
    ports. *)

From stdpp Require Import base numbers list option strings.
From S2P Require Import Prelude Kernel Mmu Cprintf Cstring.

(** ** The structures of mp.h *)

Definition sizeof_mp : Z := 16.
Definition mp_physaddr : Z := 4.
Definition mp_imcrp : Z := 12.
Definition sizeof_mpconf : Z := 44.
Definition mpconf_length : Z := 4.
Definition mpconf_version : Z := 6.
Definition mpconf_lapicaddr : Z := 36.
Definition sizeof_mpproc : Z := 20.
Definition mpproc_apicid : Z := 1.
Definition sizeof_mpioapic : Z := 8.
Definition mpioapic_apicno : Z := 1.

Definition MPPROC : Z := 0.
Definition MPBUS : Z := 1.
Definition MPIOAPIC : Z := 2.
Definition MPIOINTR : Z := 3.
Definition MPLINTR : Z := 4.

(** [cpus[i].apicid], [ncpu], [ioapicid], [lapic], and what has been written to
    ports. *)
Record mps := MkMps {
  s_mem : memory;
  s_apicid : list Z;
  s_ncpu : nat;
  s_ioapicid : Z;
  s_lapic : Z;
  s_out : list (Z * Z);
}.

Definition set_s_lapic (v : Z) (s : mps) : mps :=
  MkMps (s_mem s) (s_apicid s) (s_ncpu s) (s_ioapicid s) v (s_out s).
Definition set_s_ioapicid (v : Z) (s : mps) : mps :=
  MkMps (s_mem s) (s_apicid s) (s_ncpu s) v (s_lapic s) (s_out s).
Definition add_cpu (v : Z) (s : mps) : mps :=
  MkMps (s_mem s) (<[s_ncpu s := v]> (s_apicid s)) (S (s_ncpu s)) (s_ioapicid s) (s_lapic s) (s_out s).
Definition outb (port v : Z) (s : mps) : mps :=
  MkMps (s_mem s) (s_apicid s) (s_ncpu s) (s_ioapicid s) (s_lapic s) (s_out s ++ [(port, u8 v)]).

(** ** mp.c *)

Fixpoint sum_loop (m : memory) (addr : Z) (n : nat) (sum : Z) : Z :=
  match n with
  | O => sum
  | S n' => sum_loop m (addr + 1) n' (i32 (sum + m addr))
  end.
Definition sum (m : memory) (addr : Z) (len : Z) : Z := u8 (sum_loop m addr (Z.to_nat len) 0).

(** [memcmp] with a string constant. *)
Fixpoint memcmp_lit (m : memory) (p : Z) (l : list Z) : Z :=
  match l with
  | [] => 0
  | c :: l' => if negb (m p =? c) then m p - c else memcmp_lit m (p + 1) l'
  end.

Definition valid_mp (m : memory) (p : Z) : bool :=
  (memcmp_lit m p (chars "_MP_") =? 0) && (sum m p sizeof_mp =? 0).

Fixpoint mpsearch1_loop (fuel : nat) (p e : Z) : M mps Z :=
  match fuel with
  | O => out_of_fuel
  | S fuel' =>
      if p <? e then
        m <- gets s_mem ;;
        if valid_mp m p then ret p else mpsearch1_loop fuel' (u32 (p + sizeof_mp)) e
      else ret 0
  end.
Definition mpsearch1 (a len : Z) : M mps Z :=
  let addr := P2V a in
  let e := u32 (addr + len) in
  mpsearch1_loop (Z.to_nat (len / sizeof_mp) + 1) addr e.

Definition mpsearch : M mps Z :=
  let bda := P2V 0x400 in
  m <- gets s_mem ;;
  let p := Z.shiftl (Z.lor (Z.shiftl (m (bda + 0x0F)) 8) (m (bda + 0x0E))) 4 in
  mp <- (if negb (p =? 0) then mpsearch1 p 1024
         else let p := Z.lor (Z.shiftl (m (bda + 0x14)) 8) (m (bda + 0x13)) * 1024 in mpsearch1 (u32 (p - 1024)) 1024) ;;
  if negb (mp =? 0) then ret mp else mpsearch1 0xF0000 0x10000.

(** The configuration table, or 0, and the value of [*pmp]. *)
Definition mpconfig : M mps (Z * Z) :=
  mp <- mpsearch ;;
  m <- gets s_mem ;;
  if (mp =? 0) || (load32 m (mp + mp_physaddr) =? 0) then ret (0, 0) else
  let conf := P2V (load32 m (mp + mp_physaddr)) in
  if negb (memcmp_lit m conf (chars "PCMP") =? 0) then ret (0, 0) else
  if negb (m (conf + mpconf_version) =? 1) && negb (m (conf + mpconf_version) =? 4) then ret (0, 0) else
  if negb (sum m conf (load16 m (conf + mpconf_length)) =? 0) then ret (0, 0) else
  ret (conf, mp).

(** The loop of [mpinit].  The [break] of the last case leaves the [switch]. *)
Fixpoint entry_loop (fuel : nat) (p e : Z) (ismp : bool) : M mps bool :=
  match fuel with
  | O => out_of_fuel
  | S fuel' =>
      if p <? e then
        m <- gets s_mem ;;
        if m p =? MPPROC then
          n <- gets s_ncpu ;;
          when (bool_decide (n < NCPU)%nat) (modify (add_cpu (m (p + mpproc_apicid)))) ;;
          entry_loop fuel' (u32 (p + sizeof_mpproc)) e ismp
        else if m p =? MPIOAPIC then
          modify (set_s_ioapicid (m (p + mpioapic_apicno))) ;;
          entry_loop fuel' (u32 (p + sizeof_mpioapic)) e ismp
        else if (m p =? MPBUS) || (m p =? MPIOINTR) || (m p =? MPLINTR) then
          entry_loop fuel' (u32 (p + 8)) e ismp
        else entry_loop fuel' p e false
      else ret ismp
  end.

(** [in23] is what the port 0x23 reads. *)
Definition mpinit (fuel : nat) (in23 : Z) : M mps unit :=
  r <- mpconfig ;;
  let conf := r.1 in
  let mp := r.2 in
  if conf =? 0 then panic "Expect to run on an SMP" else
  m <- gets s_mem ;;
  modify (set_s_lapic (load32 m (conf + mpconf_lapicaddr))) ;;
  ismp <- entry_loop fuel (u32 (conf + sizeof_mpconf)) (u32 (conf + load16 m (conf + mpconf_length))) true ;;
  if negb ismp then panic "Didn't find a suitable machine" else
  when (negb (m (mp + mp_imcrp) =? 0))
    (modify (outb 0x22 0x70) ;; modify (outb 0x23 (Z.lor in23 1))).

(** ** The search *)

(** The places looked at, in order. *)
Definition area (a len : Z) : list Z := (fun i => P2V a + sizeof_mp * Z.of_nat i) <$> seq 0 (Z.to_nat (len / sizeof_mp)).

Definition ebda (m : memory) : Z := Z.shiftl (Z.lor (Z.shiftl (m (P2V 0x40F)) 8) (m (P2V 0x40E))) 4.
Definition base_end (m : memory) : Z := Z.lor (Z.shiftl (m (P2V 0x414)) 8) (m (P2V 0x413)) * 1024.

Definition places (m : memory) : list Z :=
  (if ebda m =? 0 then area (u32 (base_end m - 1024)) 1024 else area (ebda m) 1024) ++ area 0xF0000 0x10000.

Definition find_mp (m : memory) : option Z := snd <$> list_find (fun p => valid_mp m p = true) (places m).

(** Where the search starts, addresses do not wrap around. *)
Definition low (a : Z) : Prop := 0 <= a < 0x10000000 \/ a = u32 (-1024).

Lemma low_P2V a : low a -> 0 < P2V a /\ P2V a + 0x10000 < 2 ^ 32.
Proof.
  intros [Ha | ->]; unfold P2V, KERNBASE; [|by vm_compute]. rewrite u32_small by lia. lia.
Qed.

Lemma mpsearch1_loop_spec s p0 k : forall n i,
  0 < p0 -> p0 + sizeof_mp * Z.of_nat n < 2 ^ 32 -> (i + k = n)%nat ->
  exists r, mpsearch1_loop (S k) (p0 + sizeof_mp * Z.of_nat i) (p0 + sizeof_mp * Z.of_nat n) s =
    Ret (default 0 r) s /\
  r = snd <$> list_find (fun p => valid_mp (s_mem s) p = true) ((fun i => p0 + sizeof_mp * Z.of_nat i) <$> seq i k).
Proof.
  unfold sizeof_mp. induction k as [|k IH]; intros n i Hp Hn Hik; cbn [mpsearch1_loop seq fmap list_fmap list_find].
  - exists None. rewrite (proj2 (Z.ltb_ge _ _)) by lia. done.
  - rewrite (proj2 (Z.ltb_lt _ _)) by lia. cbn [bind gets res_bind].
    destruct (valid_mp (s_mem s) (p0 + 16 * Z.of_nat i)) eqn:Ev.
    + exists (Some (p0 + 16 * Z.of_nat i)). rewrite decide_True by done. done.
    + rewrite u32_small by (unfold sizeof_mp; lia). unfold sizeof_mp.
      replace (p0 + 16 * Z.of_nat i + 16) with (p0 + 16 * Z.of_nat (S i)) by lia.
      destruct (IH n (S i) Hp Hn) as (r & Hr & ->); [lia|]. eexists. split; [exact Hr|].
      rewrite decide_False by congruence. by destruct (list_find _ _) as [[]|].
Qed.

Lemma mpsearch1_spec s a len :
  low a -> len = 1024 \/ len = 0x10000 ->
  mpsearch1 a len s = Ret (default 0 (snd <$> list_find (fun p => valid_mp (s_mem s) p = true) (area a len))) s.
Proof.
  intros Ha Hlen. destruct (low_P2V a Ha) as [Hpos Hend]. unfold mpsearch1, area.
  assert (sizeof_mp * Z.of_nat (Z.to_nat (len / sizeof_mp)) = len) as El by (destruct Hlen as [-> | ->]; by vm_compute).
  destruct (mpsearch1_loop_spec s (P2V a) (Z.to_nat (len / sizeof_mp)) (Z.to_nat (len / sizeof_mp)) 0) as (r & Hr & ->);
    [done|rewrite El; lia|done|].
  rewrite El, Z.mul_0_r, Z.add_0_r in Hr. rewrite Nat.add_1_r, u32_small by lia. exact Hr.
Qed.

Lemma lor_bytes h l : 0 <= h < 256 -> 0 <= l < 256 -> 0 <= Z.lor (Z.shiftl h 8) l < 65536.
Proof.
  intros Hh Hl. rewrite Z.shiftl_mul_pow2 by done. rewrite (lor_aligned (h * 2 ^ 8) l 8) by (rewrite ?Z.mod_mul; lia). lia.
Qed.

Lemma search_low m : bytes_ok m -> low (ebda m) /\ low (u32 (base_end m - 1024)).
Proof.
  intros Hb. split.
  - left. unfold ebda. rewrite Z.shiftl_mul_pow2 by done. pose proof (lor_bytes _ _ (Hb (P2V 0x40F)) (Hb (P2V 0x40E))). lia.
  - unfold base_end. pose proof (lor_bytes _ _ (Hb (P2V 0x414)) (Hb (P2V 0x413))) as Hr.
    destruct (Z.eq_dec (Z.lor (Z.shiftl (m (P2V 0x414)) 8) (m (P2V 0x413))) 0) as [->|]; [by right|left].
    rewrite u32_small by lia. lia.
Qed.

Lemma area_pos a len : low a -> Forall (fun p => 0 < p) (area a len).
Proof.
  intros Ha. apply Forall_fmap, Forall_true. intros i. pose proof (low_P2V a Ha). unfold sizeof_mp. cbn. lia.
Qed.

Lemma mpsearch_spec s : bytes_ok (s_mem s) -> mpsearch s = Ret (default 0 (find_mp (s_mem s))) s.
Proof.
  intros Hb. unfold mpsearch, find_mp, places. cbn [bind gets res_bind].
  change (P2V 0x400 + 0x0F) with (P2V 0x40F). change (P2V 0x400 + 0x0E) with (P2V 0x40E).
  change (P2V 0x400 + 0x14) with (P2V 0x414). change (P2V 0x400 + 0x13) with (P2V 0x413).
  fold (ebda (s_mem s)) (base_end (s_mem s)).
  destruct (search_low _ Hb) as [He Hl].
  set (a := if ebda (s_mem s) =? 0 then area _ _ else _).
  assert ((if negb (ebda (s_mem s) =? 0) then mpsearch1 (ebda (s_mem s)) 1024 else mpsearch1 (u32 (base_end (s_mem s) - 1024)) 1024) s =
    Ret (default 0 (snd <$> list_find (fun p => valid_mp (s_mem s) p = true) a)) s) as E.
  { unfold a. destruct (ebda (s_mem s) =? 0); (apply mpsearch1_spec; [done|by left]). }
  rewrite (bind_run _ _ _ _ _ E).
  assert (Forall (fun p => 0 < p) a) as Hpos.
  { unfold a. destruct (ebda (s_mem s) =? 0); by apply area_pos. }
  destruct (list_find _ a) as [[i p]|] eqn:Ef; cbn [fmap option_fmap option_map default snd].
  - apply list_find_Some in Ef as Ef'. destruct Ef' as (Hi & _). change (id p) with p. rewrite (proj2 (Z.eqb_neq p 0)).
    2: { pose proof (Forall_lookup_1 _ _ _ _ Hpos Hi). cbn in *. lia. }
    erewrite list_find_app_l by exact Ef. done.
  - cbn [Z.eqb negb]. rewrite mpsearch1_spec by (try (left; lia); by right). rewrite list_find_app_r by done.
    by destruct (list_find _ (area 0xF0000 0x10000)) as [[]|].
Qed.

(** ** The table *)

(** What the specification says about the entries this code knows; the bytes
    that are not used follow. *)
Inductive entry :=
  | Processor (apicid : Z) (rest : list Z)
  | Ioapic (apicno : Z) (rest : list Z)
  | Other (type : Z) (rest : list Z).

Definition entry_bytes (x : entry) : list Z :=
  match x with
  | Processor id rest => MPPROC :: id :: rest
  | Ioapic id rest => MPIOAPIC :: id :: rest
  | Other type rest => type :: rest
  end.

Definition entry_ok (x : entry) : Prop :=
  match x with
  | Processor _ rest => length rest = 18%nat
  | Ioapic _ rest => length rest = 6%nat
  | Other type rest => type ∈ [MPBUS; MPIOINTR; MPLINTR] /\ length rest = 7%nat
  end.

Definition table (es : list entry) : list Z := concat (entry_bytes <$> es).

(** The bytes [l] are at [a]. *)
Definition bytes_at (m : memory) (a : Z) (l : list Z) : Prop := forall i b, l !! i = Some b -> m (a + Z.of_nat i) = b.

Lemma bytes_at_app m a l1 l2 : bytes_at m a (l1 ++ l2) <-> bytes_at m a l1 /\ bytes_at m (a + Z.of_nat (length l1)) l2.
Proof.
  unfold bytes_at. split.
  - intros H. split; intros i b Hi; [apply H; by apply lookup_app_l_Some|].
    replace (a + Z.of_nat (length l1) + Z.of_nat i) with (a + Z.of_nat (length l1 + i)) by lia. apply H.
    by rewrite lookup_app_r, Nat.add_comm, Nat.add_sub by lia.
  - intros [H1 H2] i b [Hi|[Hl Hi]]%lookup_app_Some; [by apply H1|].
    apply H2 in Hi. rewrite <-Hi. f_equal. lia.
Qed.

(** What an entry does to the variables of the kernel. *)
Definition enter (s : mps) (x : entry) : mps :=
  match x with
  | Processor id _ => if bool_decide (s_ncpu s < NCPU)%nat then add_cpu id s else s
  | Ioapic id _ => set_s_ioapicid id s
  | Other _ _ => s
  end.

Lemma enter_mem s x : s_mem (enter s x) = s_mem s.
Proof. destruct x; cbn; [case_bool_decide|..]; done. Qed.

Lemma entry_step s x p e fuel ismp :
  entry_ok x -> bytes_at (s_mem s) p (entry_bytes x) -> 0 <= p -> p + Z.of_nat (length (entry_bytes x)) < 2 ^ 32 -> p < e ->
  entry_loop (S fuel) p e ismp s = entry_loop fuel (p + Z.of_nat (length (entry_bytes x))) e ismp (enter s x).
Proof.
  intros Hok Hm Hp Hlim He. cbn [entry_loop]. rewrite (proj2 (Z.ltb_lt _ _) He). cbn [bind gets res_bind].
  pose proof (Hm 0%nat (hd 0 (entry_bytes x)) ltac:(by destruct x)) as H0. rewrite Z.add_0_r in H0. rewrite H0. clear H0.
  destruct x as [id rest|id rest|ty rest]; cbn [entry_bytes length entry_ok] in *.
  - pose proof (Hm 1%nat id eq_refl) as H1. change (Z.of_nat 1) with 1 in H1. cbn [Z.eqb MPPROC]. unfold mpproc_apicid. rewrite H1. unfold sizeof_mpproc, enter, when.
    replace (p + Z.of_nat (S (S (length rest)))) with (p + 20) in * by lia. rewrite u32_small by lia.
    cbn [hd Z.eqb MPPROC bind gets res_bind]. unfold when. case_bool_decide; done.
  - pose proof (Hm 1%nat id eq_refl) as H1. change (Z.of_nat 1) with 1 in H1. cbn [Z.eqb MPPROC MPIOAPIC Pos.eqb]. unfold mpioapic_apicno. rewrite H1.
    unfold sizeof_mpioapic. replace (p + Z.of_nat (S (S (length rest)))) with (p + 8) in * by lia. by rewrite (u32_small (p + 8)) by lia.
  - destruct Hok as [Hty Hlen]. replace (p + Z.of_nat (S (length rest))) with (p + 8) in * by lia. rewrite (u32_small (p + 8)) by lia.
    rewrite !elem_of_cons, elem_of_nil in Hty. by destruct Hty as [-> | [-> | [-> |]]].
Qed.

Lemma table_cons x es : table (x :: es) = entry_bytes x ++ table es.
Proof. done. Qed.

Lemma entry_pos x : entry_ok x -> 0 < Z.of_nat (length (entry_bytes x)).
Proof. destruct x; cbn; lia. Qed.

Lemma entries_spec es : forall s p e fuel ismp,
  Forall entry_ok es -> bytes_at (s_mem s) p (table es) -> 0 <= p -> p + Z.of_nat (length (table es)) <= e < 2 ^ 32 ->
  entry_loop (length es + fuel) p e ismp s =
    entry_loop fuel (p + Z.of_nat (length (table es))) e ismp (foldl enter s es).
Proof.
  induction es as [|x es IH]; intros s p e fuel ismp Hok Hm Hp He.
  - cbn [table fmap list_fmap concat length foldl Nat.add]. by rewrite Z.add_0_r.
  - apply Forall_cons in Hok as [Hx Hok]. rewrite table_cons in *. apply bytes_at_app in Hm as [Hm1 Hm2].
    rewrite length_app in *. pose proof (entry_pos x Hx). cbn [length Nat.add foldl].
    rewrite (entry_step s x) by (done || lia). rewrite IH; [|done|by rewrite enter_mem|lia|lia]. f_equal. lia.
Qed.

(** A configuration table the kernel accepts, with the entries [es], and what
    [mpinit] reads of it. *)
Record config (m : memory) (mp conf : Z) (n : Z) : Prop := {
  cf_mp : find_mp m = Some mp;
  cf_phys : load32 m (mp + mp_physaddr) <> 0;
  cf_conf : conf = P2V (load32 m (mp + mp_physaddr));
  cf_sig : bytes_at m conf (chars "PCMP");
  cf_version : m (conf + mpconf_version) = 1 \/ m (conf + mpconf_version) = 4;
  cf_sum : sum m conf n = 0;
  cf_length : load16 m (conf + mpconf_length) = n;
  cf_range : sizeof_mpconf <= n;
  cf_end : 0 < conf /\ conf + n < 2 ^ 32;
}.

Lemma memcmp_lit_spec m p l : bytes_at m p l -> memcmp_lit m p l = 0.
Proof.
  revert p. induction l as [|c l IH]; intros p Hm; cbn [memcmp_lit]; [done|].
  pose proof (Hm 0%nat c eq_refl) as H0. rewrite Z.add_0_r in H0. rewrite H0, Z.eqb_refl. cbn [negb].
  apply IH. intros i b Hi. rewrite <-(Hm (S i) b Hi). f_equal. lia.
Qed.

Lemma find_mp_pos m mp : bytes_ok m -> find_mp m = Some mp -> 0 < mp.
Proof.
  unfold find_mp. intros Hb. destruct (list_find _ _) as [[i p]|] eqn:E; [|done]. intros [= <-]. cbn [snd].
  apply list_find_Some in E as (Hi & _). destruct (search_low m Hb) as [He Hl].
  assert (Forall (fun p => 0 < p) (places m)) as Hpos.
  { apply Forall_app. split; [destruct (ebda m =? 0)|]; apply area_pos; try done. left. lia. }
  exact (Forall_lookup_1 _ _ _ _ Hpos Hi).
Qed.

Lemma mpconfig_run s mp conf n :
  bytes_ok (s_mem s) -> config (s_mem s) mp conf n -> mpconfig s = Ret (conf, mp) s.
Proof.
  intros Hb []. unfold mpconfig. rewrite (bind_run _ _ _ _ _ (mpsearch_spec s Hb)), cf_mp0. cbn [default].
  cbn [bind gets res_bind]. change (id mp) with mp. pose proof (find_mp_pos _ _ Hb cf_mp0).
  rewrite (proj2 (Z.eqb_neq mp 0)), (proj2 (Z.eqb_neq _ 0) cf_phys0) by lia. cbn [orb]. rewrite <-cf_conf0.
  rewrite memcmp_lit_spec by done. rewrite cf_length0, cf_sum0. cbn [Z.eqb negb].
  by destruct cf_version0 as [-> | ->].
Qed.

(** The processors and the interrupt controllers of the table. *)
Definition procs (es : list entry) : list Z := omap (fun x => match x with Processor id _ => Some id | _ => None end) es.
Definition ioapics (es : list entry) : list Z := omap (fun x => match x with Ioapic id _ => Some id | _ => None end) es.

Lemma enter_cpus es : forall s,
  (s_ncpu s <= NCPU)%nat -> length (s_apicid s) = NCPU ->
  s_ncpu (foldl enter s es) = Nat.min NCPU (s_ncpu s + length (procs es)) /\
  take (s_ncpu (foldl enter s es)) (s_apicid (foldl enter s es)) = take NCPU (take (s_ncpu s) (s_apicid s) ++ procs es).
Proof.
  induction es as [|x es IH]; intros s Hn Hl.
  - cbn [foldl procs omap list_omap length]. rewrite app_nil_r, take_take. split; [lia|f_equal; lia].
  - cbn [foldl]. destruct x as [id rest|id rest|ty rest]; cbn [enter]; [|exact (IH (set_s_ioapicid id s) Hn Hl)|exact (IH s Hn Hl)].
    change (procs (Processor id rest :: es)) with (id :: procs es). case_bool_decide as Hc.
    + destruct (IH (add_cpu id s)) as [-> ->]; [cbn; lia|cbn; by rewrite length_insert|]. cbn [add_cpu s_ncpu s_apicid length].
      rewrite (take_S_r _ _ id) by (apply list_lookup_insert_eq; lia). rewrite take_insert_ge by lia.
      rewrite <-app_assoc. split; [lia|done].
    + destruct (IH s Hn Hl) as [E ->]. rewrite E. cbn [length]. rewrite !take_app. rewrite length_take, Hl.
      replace (NCPU - _)%nat with 0%nat by lia. split; [lia|done].
Qed.

Lemma enter_rest es : forall s,
  let s' := foldl enter s es in
  s_mem s' = s_mem s /\ s_lapic s' = s_lapic s /\ s_out s' = s_out s /\
  s_ioapicid s' = default (s_ioapicid s) (last (ioapics es)).
Proof.
  induction es as [|x es IH]; intros s; [done|]. cbn [foldl]. destruct (IH (enter s x)) as (-> & -> & -> & ->).
  destruct x as [id rest|id rest|ty rest]; cbn [enter].
  - case_bool_decide; done.
  - change (ioapics (Ioapic id rest :: es)) with (id :: ioapics es). rewrite last_cons. by destruct (last (ioapics es)).
  - done.
Qed.

(** An entry of an unknown type is never left. *)
Lemma entry_stuck fuel : forall s p e ismp,
  p < e -> s_mem s p ∉ [MPPROC; MPBUS; MPIOAPIC; MPIOINTR; MPLINTR] -> entry_loop fuel p e ismp s = OutOfFuel.
Proof.
  induction fuel as [|fuel IH]; intros s p e ismp Hp Ht; [done|]. cbn [entry_loop]. rewrite (proj2 (Z.ltb_lt _ _) Hp).
  cbn [bind gets res_bind]. assert (s_mem s p <> MPPROC /\ s_mem s p <> MPBUS /\ s_mem s p <> MPIOAPIC /\ s_mem s p <> MPIOINTR /\
    s_mem s p <> MPLINTR) as (H0 & H1 & H2 & H3 & H4) by (rewrite !not_elem_of_cons in Ht; tauto).
  rewrite (proj2 (Z.eqb_neq _ _) H0), (proj2 (Z.eqb_neq _ _) H1), (proj2 (Z.eqb_neq _ _) H2), (proj2 (Z.eqb_neq _ _) H3),
    (proj2 (Z.eqb_neq _ _) H4). by apply IH.
Qed.

Lemma entries_hang es t : forall fuel s p e ismp,
  Forall entry_ok es -> bytes_at (s_mem s) p (table es ++ [t]) -> 0 <= p -> p + Z.of_nat (length (table es)) < e -> e < 2 ^ 32 ->
  t ∉ [MPPROC; MPBUS; MPIOAPIC; MPIOINTR; MPLINTR] -> entry_loop fuel p e ismp s = OutOfFuel.
Proof.
  induction es as [|x es IH]; intros fuel s p e ismp Hok Hm Hp He Hlim Ht.
  - apply entry_stuck; [cbn in He; lia|]. pose proof (Hm 0%nat t eq_refl) as H0. rewrite Z.add_0_r in H0. by rewrite H0.
  - destruct fuel as [|fuel]; [done|]. apply Forall_cons in Hok as [Hx Hok]. rewrite table_cons, <-app_assoc in Hm.
    apply bytes_at_app in Hm as [Hm1 Hm2]. rewrite table_cons, length_app in He. pose proof (entry_pos x Hx).
    rewrite (entry_step s x) by (done || lia). apply IH; [done|by rewrite enter_mem|lia|lia|done|done].
Qed.

(** C16: [mpinit] finds the processors of the table: [ncpu] is their number, up
    to NCPU, and the entries of [cpus] have their identifiers in the order of
    the table; [ioapicid] is that of the last interrupt controller, [lapic] the
    address in the header.  One round of the loop for each entry is enough. *)
Theorem mpinit_correct s fuel in23 mp conf es :
  bytes_ok (s_mem s) -> config (s_mem s) mp conf (sizeof_mpconf + Z.of_nat (length (table es))) ->
  Forall entry_ok es -> bytes_at (s_mem s) (conf + sizeof_mpconf) (table es) ->
  s_ncpu s = 0%nat -> length (s_apicid s) = NCPU -> (length es < fuel)%nat ->
  exists s', mpinit fuel in23 s = Ret tt s' /\
    s_ncpu s' = Nat.min NCPU (length (procs es)) /\ take (s_ncpu s') (s_apicid s') = take NCPU (procs es) /\
    s_ioapicid s' = default (s_ioapicid s) (last (ioapics es)) /\
    s_lapic s' = load32 (s_mem s) (conf + mpconf_lapicaddr) /\ s_mem s' = s_mem s /\
    s_out s' = s_out s ++ (if s_mem s (mp + mp_imcrp) =? 0 then [] else [(0x22, 0x70); (0x23, u8 (Z.lor in23 1))]).
Proof.
  intros Hb Hcf Hok Hes Hn0 Hl Hfuel. pose proof Hcf as [? ? ? ? ? ? Hlen ? [Hc0 Hend]].
  unfold mpinit. rewrite (bind_run _ _ _ _ _ (mpconfig_run s mp conf _ Hb Hcf)). cbn [fst snd].
  rewrite (proj2 (Z.eqb_neq conf 0)) by lia. cbn [bind gets modify res_bind]. rewrite Hlen. unfold sizeof_mpconf in *.
  set (s1 := set_s_lapic _ s). rewrite !u32_small by lia.
  assert (entry_loop fuel (conf + 44) (conf + (44 + Z.of_nat (length (table es)))) true s1 = Ret true (foldl enter s1 es)) as Er.
  { replace fuel with (length es + S (fuel - S (length es)))%nat by lia.
    rewrite (entries_spec es s1) by (done || lia). cbn [entry_loop]. by rewrite (proj2 (Z.ltb_ge _ _)) by lia. }
  rewrite (bind_run _ _ _ _ _ Er). cbn [negb]. destruct (enter_cpus es s1) as [En Ea]; [cbn; lia|done|].
  destruct (enter_rest es s1) as (Em & Elp & Eo & Ei). change (s_ncpu s1) with (s_ncpu s) in *. rewrite Hn0 in *.
  unfold when. destruct (s_mem s (mp + mp_imcrp) =? 0); cbn [negb]; eexists; (split; [reflexivity|]);
    cbn [s_ncpu s_apicid s_ioapicid s_lapic s_mem s_out outb]; rewrite ?Em, ?Elp, ?Eo, ?Ei, ?En, ?app_nil_r, <-?app_assoc;
    rewrite En in Ea; split_and!; done.
Qed.

(** A table with an entry of a type the kernel does not know makes [mpinit]
    run forever, since the case for it does not move on: the message the
    function has for such a machine is never printed. *)
Theorem mpinit_hangs s fuel in23 mp conf n es t :
  bytes_ok (s_mem s) -> config (s_mem s) mp conf n -> Forall entry_ok es ->
  bytes_at (s_mem s) (conf + sizeof_mpconf) (table es ++ [t]) ->
  t ∉ [MPPROC; MPBUS; MPIOAPIC; MPIOINTR; MPLINTR] -> sizeof_mpconf + Z.of_nat (length (table es)) < n ->
  mpinit fuel in23 s = OutOfFuel.
Proof.
  intros Hb Hcf Hok Hes Ht Hn. pose proof Hcf as [? ? ? ? ? ? Hlen ? [Hc0 Hend]].
  unfold mpinit. rewrite (bind_run _ _ _ _ _ (mpconfig_run s mp conf _ Hb Hcf)). cbn [fst snd].
  rewrite (proj2 (Z.eqb_neq conf 0)) by lia. cbn [bind gets modify res_bind]. rewrite Hlen. unfold sizeof_mpconf in *.
  rewrite !u32_small by lia. unfold bind at 1. by rewrite (entries_hang es t) by (done || lia).
Qed.

(** ** The theorems on a small machine *)

(** A table with two processors, a bus and an interrupt controller, in the
    extended data area of the firmware. *)
Definition demo_entries : list entry :=
  [Processor 0 (replicate 18 0); Processor 1 (replicate 18 0); Other MPBUS (replicate 7 0); Ioapic 2 (replicate 6 0)].
Definition demo_mp : list Z := [95; 77; 80; 95; 16; 252; 9; 0; 1; 4; 11; 0; 128; 0; 0; 0].
Definition demo_header (n checksum : Z) : list Z :=
  chars "PCMP" ++ [n; 0; 4; checksum] ++ replicate 28 0 ++ [0; 0; 224; 254; 0; 0; 0; 0].

Definition demo_firmware (checksum : Z) (entries : list Z) : memory :=
  write_bytes (write_bytes (write_bytes (fun _ => 0) (P2V 0x40E) [0xC0; 0x9F]) (P2V 0x9FC00) demo_mp) (P2V 0x9FC10)
    (demo_header (44 + Z.of_nat (length entries)) checksum ++ entries).

Definition demo_mps (m : memory) : mps := MkMps m (replicate 8 0) 0 0 0 [].

Lemma demo_bytes_ok c es :
  forallb (fun b => (0 <=? b) && (b <? 256)) (demo_mp ++ demo_header (44 + Z.of_nat (length es)) c ++ es) = true ->
  bytes_ok (demo_firmware c es).
Proof.
  intros H. assert (Forall (fun b => 0 <= b < 256) (demo_mp ++ demo_header (44 + Z.of_nat (length es)) c ++ es)) as Hb.
  { apply Forall_forall. intros b Hin%list_elem_of_In. pose proof (proj1 (forallb_forall _ _) H b Hin) as Hd. cbv beta in Hd. lia. }
  apply Forall_app in Hb as [H1 H2]. repeat apply write_bytes_ok; try done. repeat constructor; done.
Qed.

(** Decides [bytes_at]. *)
Lemma bytes_at_dec m a l : read_bytes m a (length l) = l -> bytes_at m a l.
Proof.
  intros H i b Hi. pose proof Hi as Hlt%lookup_lt_Some. rewrite <-H in Hi. unfold read_bytes in Hi.
  rewrite list_lookup_fmap, lookup_seq_lt in Hi by done. by injection Hi.
Qed.

Lemma demo_config c es n :
  find_mp (demo_firmware c es) = Some (P2V 0x9FC00) ->
  load32 (demo_firmware c es) (P2V 0x9FC00 + mp_physaddr) = 0x9FC10 ->
  read_bytes (demo_firmware c es) (P2V 0x9FC10) 4 = chars "PCMP" ->
  demo_firmware c es (P2V 0x9FC10 + mpconf_version) = 4 ->
  sum (demo_firmware c es) (P2V 0x9FC10) n = 0 ->
  load16 (demo_firmware c es) (P2V 0x9FC10 + mpconf_length) = n -> 44 <= n < 0x10000 ->
  config (demo_firmware c es) (P2V 0x9FC00) (P2V 0x9FC10) n.
Proof.
  intros H1 H2 H3 H4 H5 H6 H7. split; rewrite ?H2; try done.
  - by apply bytes_at_dec.
  - by right.
  - unfold sizeof_mpconf. lia.
  - change (P2V 0x9FC10) with 0x8009FC10. lia.
Qed.

Lemma mpinit_correct_witness :
  exists s', mpinit 5 0 (demo_mps (demo_firmware 132 (table demo_entries))) = Ret tt s' /\
    s_ncpu s' = 2%nat /\ s_ioapicid s' = 2 /\ s_out s' = [(0x22, 0x70); (0x23, 1)].
Proof.
  destruct (mpinit_correct (demo_mps (demo_firmware 132 (table demo_entries))) 5 0 (P2V 0x9FC00) (P2V 0x9FC10) demo_entries)
    as (s' & H1 & H2 & _ & H3 & _ & _ & H4).
  - apply demo_bytes_ok. by vm_compute.
  - apply demo_config; by vm_compute.
  - repeat constructor.
  - apply bytes_at_dec. by vm_compute.
  - reflexivity.
  - reflexivity.
  - cbn. lia.
  - exists s'. split; [exact H1|]. split; [exact H2|]. split; [exact H3|exact H4].
Defined.

Lemma mpinit_hangs_witness :
  mpinit 1000 0 (demo_mps (demo_firmware 252 (table demo_entries ++ 0x80 :: replicate 7 0))) = OutOfFuel.
Proof.
  apply (mpinit_hangs _ 1000 0 (P2V 0x9FC00) (P2V 0x9FC10) 108 demo_entries 0x80).
  - apply demo_bytes_ok. by vm_compute.
  - apply demo_config; by vm_compute.
  - repeat constructor.
  - apply bytes_at_dec. by vm_compute.
  - rewrite !not_elem_of_cons. repeat split; try done. apply not_elem_of_nil.
  - by vm_compute.
Defined.
