(* ===== verification/Apic.v ===== *)
(** * Interrupt controllers and the clock (lapic.c, ioapic.c, picirq.c, date.h)

    The accesses to the local controller and to ports are kept in order as a
    list of events; what a read returns depends on the events before it and is
    a parameter.  The I/O controller has the interface ioapic.c describes: one
    register selects, another reads or writes what is selected. *)

From stdpp Require Import base numbers list option strings.
From S2P Require Import Prelude Kernel Mmu Cprintf Cstring.

Inductive event :=
  | LapicW (index value : Z)
  | LapicR (index : Z)
  | OutB (port value : Z)
  | InB (port : Z).

Record apic := MkApic {
  a_lapic : Z;
  a_mem : memory;
  a_tr : list event;
  io_sel : Z;
  io_reg : Z -> Z;
  a_ioapicid : Z;
  a_out : list string;
}.

Definition add_event (e : event) (s : apic) : apic :=
  MkApic (a_lapic s) (a_mem s) (a_tr s ++ [e]) (io_sel s) (io_reg s) (a_ioapicid s) (a_out s).
Definition set_a_mem (m : memory) (s : apic) : apic :=
  MkApic (a_lapic s) m (a_tr s) (io_sel s) (io_reg s) (a_ioapicid s) (a_out s).
Definition set_io_sel (r : Z) (s : apic) : apic :=
  MkApic (a_lapic s) (a_mem s) (a_tr s) r (io_reg s) (a_ioapicid s) (a_out s).
Definition set_io_reg (f : Z -> Z) (s : apic) : apic :=
  MkApic (a_lapic s) (a_mem s) (a_tr s) (io_sel s) f (a_ioapicid s) (a_out s).
Definition add_out (msg : string) (s : apic) : apic :=
  MkApic (a_lapic s) (a_mem s) (a_tr s) (io_sel s) (io_reg s) (a_ioapicid s) (a_out s ++ [msg]).

(** ** Constants *)

Definition ID : Z := 0x20 / 4.
Definition VER : Z := 0x30 / 4.
Definition TPR : Z := 0x80 / 4.
Definition EOI : Z := 0xB0 / 4.
Definition SVR : Z := 0xF0 / 4.
Definition ENABLE : Z := 0x100.
Definition ESR : Z := 0x280 / 4.
Definition ICRLO : Z := 0x300 / 4.
Definition INIT : Z := 0x500.
Definition STARTUP : Z := 0x600.
Definition DELIVS : Z := 0x1000.
Definition ASSERT : Z := 0x4000.
Definition LEVEL : Z := 0x8000.
Definition BCAST : Z := 0x80000.
Definition ICRHI : Z := 0x310 / 4.
Definition TIMER : Z := 0x320 / 4.
Definition X1 : Z := 0xB.
Definition PERIODIC : Z := 0x20000.
Definition PCINT : Z := 0x340 / 4.
Definition LINT0 : Z := 0x350 / 4.
Definition LINT1 : Z := 0x360 / 4.
Definition ERROR : Z := 0x370 / 4.
Definition MASKED : Z := 0x10000.
Definition TICR : Z := 0x380 / 4.
Definition TDCR : Z := 0x3E0 / 4.

Definition CMOS_PORT : Z := 0x70.
Definition CMOS_RETURN : Z := 0x71.
Definition CMOS_STATA : Z := 0x0a.
Definition CMOS_STATB : Z := 0x0b.
Definition CMOS_UIP : Z := Z.shiftl 1 7.
Definition SECS : Z := 0.
Definition MINS : Z := 2.
Definition HOURS : Z := 4.
Definition DAY : Z := 7.
Definition MONTH : Z := 8.
Definition YEAR : Z := 9.

Definition REG_ID : Z := 0.
Definition REG_VER : Z := 1.
Definition REG_TABLE : Z := 0x10.
Definition INT_DISABLED : Z := 0x10000.

Definition IO_PIC1 : Z := 0x20.
Definition IO_PIC2 : Z := 0xA0.

Record rtcdate := MkDate { second : Z; minute : Z; hour : Z; day : Z; month : Z; year : Z }.

#[global] Instance rtcdate_eq_dec : EqDecision rtcdate.
Proof. solve_decision. Defined.

Section controllers.
(** What a register of the local controller and what a port reads after the
    events [tr]. *)
Context (lapic_reg port_in : list event -> Z -> Z).

(** ** lapic.c *)

Definition outb (port v : Z) : M apic unit := modify (add_event (OutB port (u8 v))).
Definition inb (port : Z) : M apic Z :=
  v <- gets (fun s => port_in (a_tr s) port) ;; modify (add_event (InB port)) ;; ret v.
Definition lapic_read (index : Z) : M apic Z :=
  v <- gets (fun s => lapic_reg (a_tr s) index) ;; modify (add_event (LapicR index)) ;; ret v.

Definition lapicw (index value : Z) : M apic unit :=
  modify (add_event (LapicW index (u32 value))) ;;
  _ <- lapic_read ID ;;
  ret tt.

(** [while(lapic[ICRLO] & DELIVS);] *)
Fixpoint wait_delivery (fuel : nat) : M apic unit :=
  match fuel with
  | O => out_of_fuel
  | S fuel' => v <- lapic_read ICRLO ;; if Z.land v DELIVS =? 0 then ret tt else wait_delivery fuel'
  end.

Definition lapicinit (fuel : nat) : M apic unit :=
  p <- gets a_lapic ;;
  if p =? 0 then ret tt else
  lapicw SVR (Z.lor ENABLE (T_IRQ0 + IRQ_SPURIOUS)) ;;
  lapicw TDCR X1 ;;
  lapicw TIMER (Z.lor PERIODIC (T_IRQ0 + IRQ_TIMER)) ;;
  lapicw TICR 10000000 ;;
  lapicw LINT0 MASKED ;;
  lapicw LINT1 MASKED ;;
  v <- lapic_read VER ;;
  when (4 <=? Z.land (Z.shiftr v 16) 0xFF) (lapicw PCINT MASKED) ;;
  lapicw ERROR (T_IRQ0 + IRQ_ERROR) ;;
  lapicw ESR 0 ;;
  lapicw ESR 0 ;;
  lapicw EOI 0 ;;
  lapicw ICRHI 0 ;;
  lapicw ICRLO (Z.lor (Z.lor BCAST INIT) LEVEL) ;;
  wait_delivery fuel ;;
  lapicw TPR 0.

Definition lapicid : M apic Z :=
  p <- gets a_lapic ;;
  if p =? 0 then ret 0 else v <- lapic_read ID ;; ret (Z.shiftr v 24).

Definition lapiceoi : M apic unit :=
  p <- gets a_lapic ;;
  when (negb (p =? 0)) (lapicw EOI 0).

Definition microdelay (us : Z) : M apic unit := ret tt.

Definition startup_ipi (apicid addr : Z) : M apic unit :=
  lapicw ICRHI (Z.shiftl apicid 24) ;;
  lapicw ICRLO (Z.lor STARTUP (Z.shiftr addr 12)) ;;
  microdelay 200.

Definition lapicstartap (apicid addr : Z) : M apic unit :=
  outb CMOS_PORT 0xF ;;
  outb (CMOS_PORT + 1) 0x0A ;;
  let wrv := P2V (Z.lor (Z.shiftl 0x40 4) 0x67) in
  modify (fun s => set_a_mem (store16 (a_mem s) wrv 0) s) ;;
  modify (fun s => set_a_mem (store16 (a_mem s) (wrv + 2) (u16 (Z.shiftr addr 4))) s) ;;
  lapicw ICRHI (Z.shiftl apicid 24) ;;
  lapicw ICRLO (Z.lor (Z.lor INIT LEVEL) ASSERT) ;;
  microdelay 200 ;;
  lapicw ICRLO (Z.lor INIT LEVEL) ;;
  microdelay 100 ;;
  startup_ipi apicid addr ;;
  startup_ipi apicid addr.

Definition cmos_read (reg : Z) : M apic Z :=
  outb CMOS_PORT reg ;;
  microdelay 200 ;;
  inb CMOS_RETURN.

Definition fill_rtcdate : M apic rtcdate :=
  s <- cmos_read SECS ;;
  mi <- cmos_read MINS ;;
  h <- cmos_read HOURS ;;
  d <- cmos_read DAY ;;
  mo <- cmos_read MONTH ;;
  y <- cmos_read YEAR ;;
  ret (MkDate s mi h d mo y).

Fixpoint stable_date (fuel : nat) : M apic rtcdate :=
  match fuel with
  | O => out_of_fuel
  | S fuel' =>
      t1 <- fill_rtcdate ;;
      a <- cmos_read CMOS_STATA ;;
      if negb (Z.land a CMOS_UIP =? 0) then stable_date fuel' else
      t2 <- fill_rtcdate ;;
      if bool_decide (t1 = t2) then ret t1 else stable_date fuel'
  end.

Definition CONV (x : Z) : Z := u32 (Z.shiftr x 4 * 10 + Z.land x 0xf).
Definition conv_date (r : rtcdate) : rtcdate :=
  MkDate (CONV (second r)) (CONV (minute r)) (CONV (hour r)) (CONV (day r)) (CONV (month r)) (CONV (year r)).

Definition cmostime (fuel : nat) : M apic rtcdate :=
  sb <- cmos_read CMOS_STATB ;;
  let bcd := Z.land sb (Z.shiftl 1 2) =? 0 in
  t1 <- stable_date fuel ;;
  let t1 := if bcd then conv_date t1 else t1 in
  ret (MkDate (second t1) (minute t1) (hour t1) (day t1) (month t1) (u32 (year t1 + 2000))).

(** ** ioapic.c *)

Definition ioapicread (reg : Z) : M apic Z :=
  modify (set_io_sel reg) ;;
  gets (fun s => io_reg s (io_sel s)).

Definition ioapicwrite (reg data : Z) : M apic unit :=
  modify (set_io_sel reg) ;;
  modify (fun s => set_io_reg (upd (io_reg s) (io_sel s) (u32 data)) s).

Fixpoint disable_loop (i : Z) (n : nat) : M apic unit :=
  match n with
  | O => ret tt
  | S n' =>
      ioapicwrite (REG_TABLE + 2 * i) (Z.lor INT_DISABLED (T_IRQ0 + i)) ;;
      ioapicwrite (REG_TABLE + 2 * i + 1) 0 ;;
      disable_loop (i + 1) n'
  end.

Definition ioapicinit : M apic unit :=
  v <- ioapicread REG_VER ;;
  let maxintr := Z.land (Z.shiftr v 16) 0xFF in
  id <- ioapicread REG_ID ;;
  let id := Z.shiftr id 24 in
  ioapicid <- gets a_ioapicid ;;
  when (negb (id =? ioapicid)) (modify (add_out "ioapicinit: id isn't equal to ioapicid; not a MP")) ;;
  disable_loop 0 (Z.to_nat (maxintr + 1)).

Definition ioapicenable (irq cpunum : Z) : M apic unit :=
  ioapicwrite (REG_TABLE + 2 * irq) (T_IRQ0 + irq) ;;
  ioapicwrite (REG_TABLE + 2 * irq + 1) (Z.shiftl cpunum 24).

(** ** picirq.c *)

Definition picinit : M apic unit :=
  outb (IO_PIC1 + 1) 0xFF ;;
  outb (IO_PIC2 + 1) 0xFF.

End controllers.

(** ** The interrupt lines *)

(** The lines up to [n]: masked, or delivered to a processor, in both cases
    with their own vector. *)
Definition routed (s : apic) (route : Z -> option Z) (n : Z) : Prop :=
  forall i, 0 <= i <= n ->
    io_reg s (REG_TABLE + 2 * i) = match route i with None => Z.lor INT_DISABLED (T_IRQ0 + i) | Some _ => T_IRQ0 + i end /\
    io_reg s (REG_TABLE + 2 * i + 1) = match route i with None => 0 | Some cpu => Z.shiftl cpu 24 end.

Definition add_route (route : Z -> option Z) (call : Z * Z) : Z -> option Z :=
  fun i => if i =? call.1 then Some call.2 else route i.

Definition enable_ok (n : Z) (call : Z * Z) : Prop := 0 <= call.1 <= n /\ 0 <= call.2 < 256.

Lemma ioapicwrite_run reg data s :
  ioapicwrite reg data s = Ret tt (set_io_reg (upd (io_reg s) reg (u32 data)) (set_io_sel reg s)).
Proof. done. Qed.

Lemma disable_loop_spec n : forall i s,
  0 <= i -> i + Z.of_nat n <= 256 ->
  exists s', disable_loop i n s = Ret tt s' /\ a_out s' = a_out s /\ a_tr s' = a_tr s /\
    (forall j, i <= j < i + Z.of_nat n ->
      io_reg s' (REG_TABLE + 2 * j) = Z.lor INT_DISABLED (T_IRQ0 + j) /\ io_reg s' (REG_TABLE + 2 * j + 1) = 0) /\
    (forall r, r < REG_TABLE + 2 * i \/ REG_TABLE + 2 * (i + Z.of_nat n) <= r -> io_reg s' r = io_reg s r).
Proof.
  induction n as [|n IH]; intros i s Hi Hn; cbn [disable_loop].
  - exists s. split_and!; try done. intros j Hj. lia.
  - erewrite bind_run by apply ioapicwrite_run. erewrite bind_run by apply ioapicwrite_run.
    edestruct IH as (s' & Hs' & Ho & Ht & Hin & Hout); [| |exists s'; split; [exact Hs'|]]; [lia|lia|].
    cbn [set_io_reg set_io_sel io_reg a_out a_tr] in *. split_and!; [done|done| |].
    + intros j Hj. destruct (Z.eq_dec j i) as [->|]; [|apply Hin; lia]. rewrite !Hout by lia.
      split; [rewrite upd_ne, upd_eq by lia|by rewrite upd_eq]. apply u32_small. unfold INT_DISABLED, T_IRQ0.
      rewrite (lor_aligned 0x10000 (32 + i) 16) by (done || lia). lia.
    + intros r Hr. rewrite Hout by lia. by rewrite !upd_ne by lia.
Qed.

Definition maxintr (s : apic) : Z := Z.land (Z.shiftr (io_reg s REG_VER) 16) 0xFF.

Lemma maxintr_range s : 0 <= maxintr s <= 255.
Proof.
  unfold maxintr. set (v := Z.shiftr _ _). assert (Z.land v 0xFF = v mod 2 ^ 8) as -> by (by apply (Z.land_ones v 8)).
  clearbody v. change (2 ^ 8) with 256. pose proof (Z.mod_pos_bound v 256 ltac:(lia)). lia.
Qed.

Lemma ioapicinit_spec s :
  exists s', ioapicinit s = Ret tt s' /\ routed s' (fun _ => None) (maxintr s) /\
    (forall r, r < REG_TABLE -> io_reg s' r = io_reg s r) /\
    a_out s' = a_out s ++ (if Z.shiftr (io_reg s REG_ID) 24 =? a_ioapicid s then []
      else ["ioapicinit: id isn't equal to ioapicid; not a MP"%string]).
Proof.
  pose proof (maxintr_range s) as Hmax. unfold ioapicinit, ioapicread. cbn [bind modify gets res_bind set_io_sel io_reg io_sel a_ioapicid].
  fold (maxintr s). set (s1 := set_io_sel REG_ID _).
  assert (exists s2, when (negb (Z.shiftr (io_reg s REG_ID) 24 =? a_ioapicid s))
      (modify (add_out "ioapicinit: id isn't equal to ioapicid; not a MP")) s1 = Ret tt s2 /\ io_reg s2 = io_reg s /\
      a_out s2 = a_out s ++ (if Z.shiftr (io_reg s REG_ID) 24 =? a_ioapicid s then []
        else ["ioapicinit: id isn't equal to ioapicid; not a MP"%string])) as (s2 & H2 & Er & Eo).
  { destruct (_ =? _); eexists; (split; [reflexivity|]); split; try done. by rewrite app_nil_r. }
  erewrite bind_run by exact H2. destruct (disable_loop_spec (Z.to_nat (maxintr s + 1)) 0 s2) as (s' & Hs' & Ho & _ & Hin & Hout); [lia|lia|].
  exists s'. split_and!; [exact Hs'| | |by rewrite Ho, Eo].
  - intros i Hi. apply Hin. lia.
  - intros r Hr. rewrite Hout, Er by lia. done.
Qed.

Lemma ioapicenable_spec s route n call :
  routed s route n -> n <= 255 -> enable_ok n call ->
  exists s', ioapicenable call.1 call.2 s = Ret tt s' /\ routed s' (add_route route call) n /\
    (forall r, r < REG_TABLE -> io_reg s' r = io_reg s r) /\ a_out s' = a_out s.
Proof.
  intros Hr Hn [Hirq Hcpu]. unfold ioapicenable. erewrite bind_run by apply ioapicwrite_run. rewrite ioapicwrite_run.
  eexists. split; [reflexivity|]. cbn [io_reg a_out set_io_reg set_io_sel]. split_and!; [|intros r Hlt; by rewrite !upd_ne by lia|done].
  intros i Hi. cbn [io_reg set_io_reg set_io_sel]. unfold add_route. destruct (Z.eqb_spec i call.1) as [->|Hne].
  - unfold T_IRQ0. split; [rewrite upd_ne, upd_eq by lia|rewrite upd_eq]; apply u32_small; [lia|].
    rewrite Z.shiftl_mul_pow2 by done. lia.
  - rewrite !upd_ne by lia. by apply Hr.
Qed.

Lemma enable_all_spec calls : forall s route n,
  routed s route n -> n <= 255 -> Forall (enable_ok n) calls ->
  exists s', foreach calls (fun call => ioapicenable call.1 call.2) s = Ret tt s' /\
    routed s' (foldl add_route route calls) n /\ (forall r, r < REG_TABLE -> io_reg s' r = io_reg s r) /\ a_out s' = a_out s.
Proof.
  induction calls as [|call calls IH]; intros s route n Hr Hn Hok; [by exists s|]. apply Forall_cons in Hok as [Hc Hok].
  destruct (ioapicenable_spec s route n call Hr Hn Hc) as (s1 & H1 & Hr1 & Hlow1 & Ho1).
  destruct (IH s1 (add_route route call) n Hr1 Hn Hok) as (s2 & H2 & Hr2 & Hlow2 & Ho2). exists s2.
  split_and!; [cbn [foreach]; by erewrite bind_run by exact H1|done| |by rewrite Ho2].
  intros r Hlt. by rewrite Hlow2, Hlow1.
Qed.

(** After [ioapicinit] and any sequence of [ioapicenable] calls, a line is
    masked unless it has been enabled, and then goes to the processor of the
    last call for it; every line has its own vector. *)
Theorem ioapic_routes s calls :
  Forall (enable_ok (maxintr s)) calls ->
  exists s', (ioapicinit ;; foreach calls (fun call => ioapicenable call.1 call.2)) s = Ret tt s' /\
    routed s' (foldl add_route (fun _ => None) calls) (maxintr s) /\ maxintr s' = maxintr s.
Proof.
  intros Hok. destruct (ioapicinit_spec s) as (s1 & H1 & Hr1 & Hlow1 & _). pose proof (maxintr_range s) as Hmax.
  destruct (enable_all_spec calls s1 _ (maxintr s) Hr1 ltac:(lia) Hok) as (s2 & H2 & Hr2 & Hlow2 & _).
  exists s2. split_and!; [by erewrite bind_run by exact H1|done|]. unfold maxintr. by rewrite Hlow2, Hlow1.
Qed.

(** ** The clock *)

Section clock.
Context (port_in : list event -> Z -> Z).

(** The clock: [clock k reg] is what register [reg] reads after [k] accesses.
    It shows [date_at k], in binary or in decimal digits as its status register
    says, except at the times [busy], when it updates its registers and they may
    read as anything.  The flag [CMOS_UIP], set at the times [updating], comes
    ahead of every update. *)
Context (clock : nat -> Z -> Z) (date_at : nat -> rtcdate) (updating busy : nat -> bool) (bcd : bool).

Definition to_bcd (x : Z) : Z := 16 * (x / 10) + x mod 10.
Definition encode (x : Z) : Z := if bcd then to_bcd x else x.
Definition encode_date (d : rtcdate) : rtcdate :=
  MkDate (encode (second d)) (encode (minute d)) (encode (hour d)) (encode (day d)) (encode (month d)) (encode (year d)).
Definition date_ok (d : rtcdate) : Prop :=
  Forall (fun x => 0 <= x < 100) [second d; minute d; hour d; day d; month d; year d].

Hypothesis rtc_port : forall tr reg, port_in (tr ++ [OutB CMOS_PORT reg]) CMOS_RETURN = clock (length tr) reg.
Hypothesis rtc_shows : forall k, busy k = false ->
  MkDate (clock k SECS) (clock k MINS) (clock k HOURS) (clock k DAY) (clock k MONTH) (clock k YEAR) = encode_date (date_at k).
Hypothesis rtc_format : forall k, (Z.land (clock k CMOS_STATB) (Z.shiftl 1 2) =? 0) = bcd.
Hypothesis rtc_uip : forall k, (Z.land (clock k CMOS_STATA) CMOS_UIP =? 0) = negb (updating k).
Hypothesis rtc_date : forall k, date_ok (date_at k).
(** When the flag is clear there is time to read the date before an update: the
    MC146818 leaves 244 microseconds, here the accesses of [fill_rtcdate]. *)
Hypothesis rtc_window : forall k j, updating k = false -> (k <= j < k + 14)%nat -> busy j = false /\ date_at j = date_at k.

Definition time (s : apic) : nat := length (a_tr s).

Lemma cmos_read_run reg s :
  u8 reg = reg -> exists s', cmos_read port_in reg s = Ret (clock (time s) reg) s' /\ time s' = (time s + 2)%nat.
Proof.
  intros Hr. unfold cmos_read, outb, inb, microdelay. cbn [bind modify ret gets res_bind]. rewrite Hr.
  eexists. split.
  - cbn [a_tr add_event]. rewrite rtc_port. reflexivity.
  - unfold time. cbn [a_tr add_event]. rewrite !length_app. cbn [length]. lia.
Qed.

(** What the registers give when they are read one after the other. *)
Definition reading (k : nat) : rtcdate :=
  MkDate (clock k SECS) (clock (k + 2) MINS) (clock (k + 4) HOURS) (clock (k + 6) DAY) (clock (k + 8) MONTH) (clock (k + 10) YEAR).

Lemma fill_rtcdate_run s :
  exists s', fill_rtcdate port_in s = Ret (reading (time s)) s' /\ time s' = (time s + 12)%nat.
Proof.
  unfold fill_rtcdate.
  destruct (cmos_read_run SECS s eq_refl) as (s1 & H1 & E1). destruct (cmos_read_run MINS s1 eq_refl) as (s2 & H2 & E2).
  destruct (cmos_read_run HOURS s2 eq_refl) as (s3 & H3 & E3). destruct (cmos_read_run DAY s3 eq_refl) as (s4 & H4 & E4).
  destruct (cmos_read_run MONTH s4 eq_refl) as (s5 & H5 & E5). destruct (cmos_read_run YEAR s5 eq_refl) as (s6 & H6 & E6).
  exists s6. split; [|lia].
  erewrite bind_run by exact H1. erewrite bind_run by exact H2. erewrite bind_run by exact H3.
  erewrite bind_run by exact H4. erewrite bind_run by exact H5. erewrite bind_run by exact H6.
  unfold ret, reading. do 2 f_equal; f_equal; lia.
Qed.

Lemma CONV_bcd x : 0 <= x < 100 -> CONV (to_bcd x) = x.
Proof.
  intros Hx. unfold CONV, to_bcd. rewrite Z.shiftr_div_pow2 by done. change 0xf with (Z.ones 4). rewrite Z.land_ones by done.
  change (2 ^ 4) with 16. rewrite u32_small by (Z.div_mod_to_equations; lia). Z.div_mod_to_equations; lia.
Qed.

(** Registers read while the date stands give the date. *)
Lemma reading_steady k d :
  (forall j, (k <= j <= k + 10)%nat -> busy j = false /\ date_at j = d) -> reading k = encode_date d.
Proof.
  intros Hd.
  assert (forall j, (k <= j <= k + 10)%nat ->
    MkDate (clock j SECS) (clock j MINS) (clock j HOURS) (clock j DAY) (clock j MONTH) (clock j YEAR) = encode_date d) as Hr.
  { intros j Hj. destruct (Hd j Hj) as [Hb <-]. by apply rtc_shows. }
  unfold reading, encode_date in *. f_equal.
  - by injection (Hr k ltac:(lia)).
  - by injection (Hr (k + 2)%nat ltac:(lia)).
  - by injection (Hr (k + 4)%nat ltac:(lia)).
  - by injection (Hr (k + 6)%nat ltac:(lia)).
  - by injection (Hr (k + 8)%nat ltac:(lia)).
  - by injection (Hr (k + 10)%nat ltac:(lia)).
Qed.

(** The second reading, after the flag was found clear. *)
Lemma reading_window k : updating k = false -> reading (k + 2) = encode_date (date_at k).
Proof. intros Hu. apply reading_steady. intros j Hj. apply rtc_window; [done|lia]. Qed.

(** From [N] on no update comes for the time of two attempts. *)
Definition quiet (N : nat) : Prop := forall k, (N <= k < N + 52)%nat -> updating k = false.

Lemma quiet_date N m : quiet N -> (m < 52)%nat -> busy (N + m) = false /\ date_at (N + m) = date_at N.
Proof.
  intros Hq Hm. split; [apply (rtc_window (N + m)); [apply Hq|]; lia|].
  induction m as [|m IH]; [by rewrite Nat.add_0_r|]. rewrite <- IH by lia. apply (rtc_window (N + m)); [apply Hq; lia|lia].
Qed.

Lemma reading_quiet N k : quiet N -> (N <= k)%nat -> (k + 10 < N + 52)%nat -> reading k = encode_date (date_at N).
Proof.
  intros Hq H1 H2. apply reading_steady. intros j Hj. replace j with (N + (j - N))%nat by lia. apply quiet_date; [done|lia].
Qed.

Lemma stable_date_run N n : forall s,
  quiet N -> (time s < N + 26)%nat -> (N <= time s + 14 * n)%nat ->
  exists j s', stable_date port_in (S n) s = Ret (encode_date (date_at j)) s' /\ (time s <= j < N + 52)%nat /\ updating j = false.
Proof.
  induction n as [|n IH]; intros s Hq Hlt Hn; cbn [stable_date];
    destruct (fill_rtcdate_run s) as (s1 & H1 & E1); rewrite (bind_run _ _ _ _ _ H1);
    destruct (cmos_read_run CMOS_STATA s1 eq_refl) as (s2 & H2 & E2); rewrite (bind_run _ _ _ _ _ H2), rtc_uip, negb_involutive.
  - rewrite (Hq (time s1)) by lia. destruct (fill_rtcdate_run s2) as (s3 & H3 & E3). rewrite (bind_run _ _ _ _ _ H3).
    assert (reading (time s) = reading (time s2)) as Eq by (by rewrite !(reading_quiet N) by (done || lia)).
    rewrite bool_decide_eq_true_2 by done. exists (time s1), s3. rewrite Eq, E2, reading_window by (apply Hq; lia).
    split_and!; [done|lia..|apply Hq; lia].
  - destruct (updating (time s1)) eqn:Eu.
    + assert (time s < N)%nat by (destruct (decide (time s < N)%nat); [done|]; by rewrite (Hq (time s1)) in Eu by lia).
      destruct (IH s2 Hq ltac:(lia) ltac:(lia)) as (j & s' & Hs' & Hj & Hu). exists j, s'. split_and!; [exact Hs'|lia..|done].
    + destruct (fill_rtcdate_run s2) as (s3 & H3 & E3). rewrite (bind_run _ _ _ _ _ H3). case_bool_decide as Eq.
      * exists (time s1), s3. rewrite Eq, E2, (reading_window (time s1)) by done. split_and!; [done|lia..|done].
      * assert (time s < N)%nat.
        { destruct (decide (time s < N)%nat); [done|]. destruct Eq. by rewrite !(reading_quiet N) by (done || lia). }
        destruct (IH s3 Hq ltac:(lia) ltac:(lia)) as (j & s' & Hs' & Hj & Hu). exists j, s'. split_and!; [exact Hs'|lia..|done].
Qed.

Lemma decode_date d : date_ok d -> (if bcd then conv_date (encode_date d) else encode_date d) = d.
Proof.
  unfold date_ok, encode_date, encode, conv_date. rewrite !Forall_cons_iff. intros (? & ? & ? & ? & ? & ? & _).
  destruct bcd; cbn [second minute hour day month year]; rewrite ?CONV_bcd by done; by destruct d.
Qed.

(** C39: [cmostime] returns a date that the clock showed during the call, at a
    time when no update was announced, with the century, and whether the clock
    counts in binary or in decimal digits; whatever the registers read as during
    the updates that fall into the call.  It returns when the clock rests
    long enough before the attempts run out. *)
Theorem cmostime_correct s n N :
  quiet N -> (time s + 2 < N + 26)%nat -> (N <= time s + 2 + 14 * n)%nat ->
  exists j r s', cmostime port_in (S n) s = Ret r s' /\ (time s <= j < N + 52)%nat /\ updating j = false /\
    r = MkDate (second (date_at j)) (minute (date_at j)) (hour (date_at j)) (day (date_at j)) (month (date_at j)) (year (date_at j) + 2000).
Proof.
  intros Hq Hlt Hn. unfold cmostime. destruct (cmos_read_run CMOS_STATB s eq_refl) as (s1 & H1 & E1).
  rewrite (bind_run _ _ _ _ _ H1), rtc_format. destruct (stable_date_run N n s1 Hq) as (j & s2 & H2 & Hj & Hu); [lia|lia|].
  rewrite (bind_run _ _ _ _ _ H2), decode_date by apply rtc_date. eexists j, _, s2. split; [reflexivity|]. split; [lia|]. split; [done|].
  f_equal. apply u32_small. pose proof (rtc_date j) as Hd. unfold date_ok in Hd. rewrite !Forall_cons_iff in Hd. lia.
Qed.

End clock.

(** ** The local controller *)

Section lapic.
Context (lapic_reg : list event -> Z -> Z).

(** The messages between processors that a sequence of writes sends: the
    destination is in the high word of the command register, a write to the low
    word sends. *)
Inductive ipi := Init (assert : bool) | Startup (page : Z) | OtherIpi (v : Z).
#[export] Instance ipi_eq_dec : EqDecision ipi.
Proof. solve_decision. Defined.

Definition decode_icr (v : Z) : ipi :=
  if Z.land v 0x700 =? INIT then Init (negb (Z.land v ASSERT =? 0))
  else if Z.land v 0x700 =? STARTUP then Startup (Z.land v 0xFF)
  else OtherIpi v.

(** The writes of a sequence of events. *)
Definition writes (tr : list event) : list (Z * Z) := omap (fun e => match e with LapicW i v => Some (i, v) | _ => None end) tr.

Fixpoint sent (dest : Z) (ws : list (Z * Z)) : list (Z * ipi) :=
  match ws with
  | [] => []
  | (i, v) :: ws' =>
      if i =? ICRHI then sent (Z.shiftr v 24) ws'
      else if i =? ICRLO then (dest, decode_icr v) :: sent dest ws' else sent dest ws'
  end.

Lemma lapicw_run i v s :
  lapicw lapic_reg i v s = Ret tt (add_event (LapicR ID) (add_event (LapicW i (u32 v)) s)).
Proof. done. Qed.

Lemma decode_startup addr :
  addr mod 4096 = 0 -> 0 <= addr < 2 ^ 20 ->
  decode_icr (u32 (Z.lor STARTUP (Z.shiftr addr 12))) = Startup (addr / 4096).
Proof.
  intros Ha Hr. rewrite Z.shiftr_div_pow2 by done. change (2 ^ 12) with 4096. set (p := addr / 4096).
  assert (0 <= p < 256) as Hp by (unfold p; Z.div_mod_to_equations; lia). unfold STARTUP.
  rewrite (lor_aligned 0x600 p 8) by (done || lia). rewrite u32_small by lia. unfold decode_icr, INIT, STARTUP.
  assert (Z.land (0x600 + p) 0x700 = 0x600) as ->.
  { rewrite <-(lor_aligned 0x600 p 8) by (done || lia). rewrite Z.land_lor_distr_l.
    assert (Z.land p 0x700 = 0) as ->; [|done]. rewrite <-(Z.mod_small p (2 ^ 8)), <-Z.land_ones by lia. rewrite <-Z.land_assoc. apply Z.land_0_r. }
  cbn [Z.eqb Pos.eqb]. f_equal. change 0xFF with (Z.ones 8). rewrite Z.land_ones by done. change 0x600 with (6 * 2 ^ 8).
  rewrite Z.add_comm, Z.mod_add by done. apply Z.mod_small. lia.
Qed.

Lemma load16_store16 m a w : load16 (store16 m a w) a = u16 w.
Proof.
  unfold load16, store16. rewrite upd_ne, !upd_eq by lia. unfold le_decode, u16. cbn. Z.div_mod_to_equations; lia.
Qed.

(** [lapicstartap] resets the processor [apicid] and then tells it, twice,
    to start at [addr]; all four messages go to that processor alone, and the
    warm reset vector has been set to [addr] before. *)
Theorem lapicstartap_correct apicid addr s :
  0 <= apicid < 256 -> addr mod 4096 = 0 -> 0 <= addr < 2 ^ 20 ->
  exists s' tr, lapicstartap lapic_reg apicid addr s = Ret tt s' /\ a_tr s' = a_tr s ++ tr /\
    (forall dest, sent dest (writes tr) =
      [(apicid, Init true); (apicid, Init false); (apicid, Startup (addr / 4096)); (apicid, Startup (addr / 4096))]) /\
    16 * load16 (a_mem s') (P2V 0x469) + load16 (a_mem s') (P2V 0x467) = addr /\
    (forall a, a < P2V 0x467 \/ P2V 0x46B <= a -> a_mem s' a = a_mem s a) /\ a_lapic s' = a_lapic s.
Proof.
  intros Hid Hal Hr. unfold lapicstartap, startup_ipi, outb, microdelay, lapicw, lapic_read.
  cbn [bind modify gets ret res_bind]. eexists _, _. split; [reflexivity|]. cbn [a_tr add_event set_a_mem a_mem].
  split; [rewrite <-!app_assoc; reflexivity|].
  change (P2V (Z.lor (Z.shiftl 0x40 4) 0x67)) with 0x80000467. change (P2V 0x469) with (0x80000467 + 2).
  change (P2V 0x467) with 0x80000467. change (P2V 0x46B) with 0x8000046B. split_and!.
  - intros dest. cbn [app writes omap list_omap sent]. change (ICRHI =? ICRHI) with true. change (ICRLO =? ICRHI) with false. change (ICRLO =? ICRLO) with true.
    cbv iota. rewrite decode_startup by done.
    assert (Z.shiftr (u32 (Z.shiftl apicid 24)) 24 = apicid) as ->; [|done].
    rewrite Z.shiftl_mul_pow2 by done. rewrite u32_small by lia. rewrite Z.shiftr_div_pow2 by done. by apply Z.div_mul.
  - rewrite load16_store16. set (m := store16 (a_mem s) _ 0).
    assert (load16 (store16 m (0x80000467 + 2) (u16 (Z.shiftr addr 4))) 0x80000467 = load16 m 0x80000467) as ->.
    { unfold load16, store16. by rewrite !upd_ne by lia. }
    unfold m. rewrite load16_store16. unfold u16. rewrite Z.shiftr_div_pow2 by done. change (2 ^ 4) with 16. change (2 ^ 16) with 65536.
    Z.div_mod_to_equations; lia.
  - intros a Ha. unfold store16. by rewrite !upd_ne by lia.
  - done.
Qed.

(** A message has been delivered when the register is read for the [d]th time
    after it was sent. *)
Definition delivered (d : nat) : Prop :=
  forall tr, Z.land (lapic_reg (tr ++ replicate d (LapicR ICRLO)) ICRLO) DELIVS = 0.

Lemma wait_delivery_run d : forall fuel s,
  Z.land (lapic_reg (a_tr s ++ replicate d (LapicR ICRLO)) ICRLO) DELIVS = 0 -> (d < fuel)%nat ->
  exists s' n, wait_delivery lapic_reg fuel s = Ret tt s' /\ a_tr s' = a_tr s ++ replicate n (LapicR ICRLO).
Proof.
  induction d as [|d IH]; intros [|fuel] s Hd Hf; try lia; cbn [wait_delivery]; unfold lapic_read; cbn [bind gets modify ret res_bind].
  - cbn [replicate] in Hd. rewrite app_nil_r in Hd. rewrite Hd. by eexists _, 1%nat.
  - destruct (_ =? 0); [by eexists _, 1%nat|]. destruct (IH fuel (add_event (LapicR ICRLO) s)) as (s' & n & Hs' & Htr).
    + cbn [a_tr add_event]. by rewrite <-app_assoc.
    + lia.
    + exists s', (S n). split; [exact Hs'|]. rewrite Htr. cbn [a_tr add_event]. by rewrite <-app_assoc.
Qed.

Lemma writes_app tr1 tr2 : writes (tr1 ++ tr2) = writes tr1 ++ writes tr2.
Proof. apply omap_app. Qed.
Lemma writes_reads n i : writes (replicate n (LapicR i)) = [].
Proof. by induction n. Qed.

(** The last value written to a register. *)
Definition written (tr : list event) (i : Z) : option Z := snd <$> last (filter (fun w => w.1 = i) (writes tr)).

(** [lapicinit] ends, and leaves the timer counting with the vector that
    [trap] handles, errors and spurious interrupts with theirs, and the lines
    that are not used masked; only the last write lets interrupts through. *)
Theorem lapicinit_correct fuel d s :
  a_lapic s <> 0 -> delivered d -> (d < fuel)%nat ->
  exists s' tr, lapicinit lapic_reg fuel s = Ret tt s' /\ a_tr s' = a_tr s ++ tr /\
    written tr SVR = Some (ENABLE + (T_IRQ0 + IRQ_SPURIOUS)) /\
    written tr TIMER = Some (PERIODIC + (T_IRQ0 + IRQ_TIMER)) /\ written tr TDCR = Some X1 /\ written tr TICR = Some 10000000 /\
    written tr LINT0 = Some MASKED /\ written tr LINT1 = Some MASKED /\
    written tr ERROR = Some (T_IRQ0 + IRQ_ERROR) /\ last (writes tr) = Some (TPR, 0) /\ sent 0 (writes tr) = [(0, Init false)].
Proof.
  intros Hp Hd Hf. unfold lapicinit. cbn [bind gets res_bind]. rewrite (proj2 (Z.eqb_neq _ _) Hp).
  do 6 (erewrite bind_run by apply lapicw_run). cbn [bind lapic_read gets modify ret res_bind].
  set (b := 4 <=? _). set (s1 := add_event (LapicR VER) _).
  assert (exists s2 tr2, when b (lapicw lapic_reg PCINT MASKED) s1 = Ret tt s2 /\ a_tr s2 = a_tr s1 ++ tr2 /\
    (tr2 = [] \/ tr2 = [LapicW PCINT MASKED; LapicR ID])) as (s2 & tr2 & H2 & E2 & Htr2).
  { destruct b; [|by exists s1, []; rewrite app_nil_r; auto]. eexists _, _. split; [apply lapicw_run|].
    split; [cbn [a_tr add_event]; rewrite <-app_assoc; reflexivity|by right]. }
  rewrite (bind_run _ _ _ _ _ H2). do 6 (erewrite bind_run by apply lapicw_run). set (s3 := add_event (LapicR ID) _).
  destruct (wait_delivery_run d fuel s3 (Hd _) Hf) as (s4 & n & H4 & E4). rewrite (bind_run _ _ _ _ _ H4), lapicw_run.
  unfold s3, s1 in E4, E2. cbn [a_tr add_event] in E2, E4. rewrite E2 in E4.
  eexists _, _. split; [reflexivity|]. cbn [a_tr add_event]. rewrite E4. split; [rewrite <-!app_assoc; reflexivity|].
  unfold written. rewrite !writes_app, writes_reads. destruct Htr2 as [-> | ->]; by vm_compute.
Qed.

End lapic.

(** ** The theorems on a small machine *)

Definition demo_apic : apic :=
  MkApic 0xFEE00000 (fun _ => 0) [] 0 (fun r => if r =? REG_VER then 0x170011 else 0) 0 [].

Lemma ioapic_routes_witness :
  exists s', (ioapicinit ;; foreach [(1, 0); (14, 0); (14, 1)] (fun call => ioapicenable call.1 call.2)) demo_apic = Ret tt s' /\
    io_reg s' (REG_TABLE + 28) = 46 /\ io_reg s' (REG_TABLE + 29) = 0x1000000 /\ io_reg s' (REG_TABLE + 8) = Z.lor INT_DISABLED 36.
Proof.
  destruct (ioapic_routes demo_apic [(1, 0); (14, 0); (14, 1)]) as (s' & H1 & H2 & _).
  - repeat constructor; by vm_compute.
  - exists s'. split; [exact H1|]. destruct (H2 14) as [Ha Hb]; [split; by vm_compute|].
    destruct (H2 4) as [Hc _]; [split; by vm_compute|]. split; [exact Ha|split; [exact Hb|exact Hc]].
Defined.

(** A clock in decimal digits that goes on by a second while the registers are
    read; during the update they all read as 255. *)
Definition demo_date (k : nat) : rtcdate := MkDate (if decide (k < 25)%nat then 58 else 59) 41 23 31 12 26.
Definition demo_busy (k : nat) : bool := (19 <=? k)%nat && (k <? 30)%nat.
Definition demo_uip (k : nat) : bool := (5 <=? k)%nat && (k <? 30)%nat.
Definition demo_clock (k : nat) (reg : Z) : Z :=
  let d := demo_date k in
  let show x := if demo_busy k then 255 else encode true x in
  if reg =? SECS then show (second d) else if reg =? MINS then show (minute d) else if reg =? HOURS then show (hour d)
  else if reg =? DAY then show (day d) else if reg =? MONTH then show (month d) else if reg =? YEAR then show (year d)
  else if (reg =? CMOS_STATA) && demo_uip k then CMOS_UIP else 0.
Definition demo_port (tr : list event) (port : Z) : Z :=
  match last tr with Some (OutB _ reg) => demo_clock (length tr - 1) reg | _ => 0 end.

Lemma demo_window k j : demo_uip k = false -> (k <= j < k + 14)%nat -> demo_busy j = false /\ demo_date j = demo_date k.
Proof.
  unfold demo_uip, demo_busy, demo_date. intros [H%Nat.leb_gt|H%Nat.ltb_ge]%andb_false_iff Hj.
  - split; [apply andb_false_iff; left; apply Nat.leb_gt; lia|by rewrite !decide_True by lia].
  - split; [apply andb_false_iff; right; apply Nat.ltb_ge; lia|by rewrite !decide_False by lia].
Qed.

Lemma cmostime_correct_witness :
  exists j r s', cmostime demo_port 3 demo_apic = Ret r s' /\ (0 <= j < 82)%nat /\ demo_uip j = false /\
    r = MkDate (second (demo_date j)) (minute (demo_date j)) (hour (demo_date j)) (day (demo_date j)) (month (demo_date j))
      (year (demo_date j) + 2000).
Proof.
  apply (cmostime_correct demo_port demo_clock demo_date demo_uip demo_busy true) with (N := 30%nat).
  - intros tr reg. unfold demo_port. rewrite last_snoc, length_app. by rewrite Nat.add_sub.
  - intros k Hk. unfold demo_clock. rewrite Hk. reflexivity.
  - reflexivity.
  - intros k. unfold demo_clock. cbn [Z.eqb]. destruct (demo_uip k); reflexivity.
  - intros k. unfold demo_date, date_ok. case_decide; repeat constructor; cbn; lia.
  - exact demo_window.
  - intros k Hk. apply andb_false_iff. right. apply Nat.ltb_ge. lia.
  - cbn. lia.
  - cbn. lia.
Defined.

Lemma lapicstartap_correct_witness :
  exists s' tr, lapicstartap (fun _ _ => 0) 1 0x7000 demo_apic = Ret tt s' /\ a_tr s' = a_tr demo_apic ++ tr /\
    sent 0 (writes tr) = [(1, Init true); (1, Init false); (1, Startup 7); (1, Startup 7)].
Proof.
  destruct (lapicstartap_correct (fun _ _ => 0) 1 0x7000 demo_apic) as (s' & tr & H1 & H2 & H3 & _).
  - lia.
  - reflexivity.
  - lia.
  - exists s', tr. split; [exact H1|]. split; [exact H2|exact (H3 0)].
Defined.

Lemma lapicinit_correct_witness :
  exists s' tr, lapicinit (fun _ _ => 0) 1 demo_apic = Ret tt s' /\ a_tr s' = a_tr demo_apic ++ tr /\ last (writes tr) = Some (TPR, 0).
Proof.
  destruct (lapicinit_correct (fun _ _ => 0) 1 0 demo_apic) as (s' & tr & H1 & H2 & _ & _ & _ & _ & _ & _ & _ & H3 & _).
  - done.
  - intros tr. reflexivity.
  - lia.
  - exists s', tr. split; [exact H1|]. split; [exact H2|exact H3].
Defined.
