(* ===== verification/Boot.v ===== *)
(** * The boot loader (bootmain.c, elf.h)

    [bootmain] reads the kernel, an ELF file that starts at sector 1 of the
    disk, into memory.  The accesses to the disk controller are kept in order
    as a list of events; what its registers read after them is a parameter, and
    the hypotheses say that a sector can be read with the command the code
    issues.  Paging is off: addresses are physical. *)

From stdpp Require Import base numbers list option strings.
From S2P Require Import Prelude Kernel Mmu Cprintf Cstring Kalloc.

Inductive disk_event :=
  | DOut (port value : Z)
  | DIn (port : Z)
  | DInsl (port cnt : Z).

Record boot := MkBoot { b_mem : memory; b_tr : list disk_event }.

Definition SECTSIZE : Z := 512.
Definition ELF_MAGIC : Z := 0x464C457F.

(** The fields of the headers that are used. *)
Definition elf_magic : Z := 0.
Definition elf_entry : Z := 24.
Definition elf_phoff : Z := 28.
Definition elf_phnum : Z := 44.
Definition ph_off : Z := 4.
Definition ph_paddr : Z := 12.
Definition ph_filesz : Z := 16.
Definition ph_memsz : Z := 20.
Definition sizeof_proghdr : Z := 32.

Section loader.
(** What a port reads after the events [tr], and the bytes a block input from
    the data port gives. *)
Context (port_in : list disk_event -> Z -> Z) (port_data : list disk_event -> list Z).

Definition add_ev (e : disk_event) (s : boot) : boot := MkBoot (b_mem s) (b_tr s ++ [e]).
Definition outb (port v : Z) : M boot unit := modify (add_ev (DOut port (u8 v))).
Definition inb (port : Z) : M boot Z :=
  v <- gets (fun s => port_in (b_tr s) port) ;; modify (add_ev (DIn port)) ;; ret v.
(** [cnt] words from the port to [addr]. *)
Definition insl (port addr cnt : Z) : M boot unit :=
  modify (fun s => MkBoot (write_bytes (b_mem s) addr (take (Z.to_nat (4 * cnt)) (port_data (b_tr s)))) (b_tr s ++ [DInsl port cnt])).

Fixpoint waitdisk (fuel : nat) : M boot unit :=
  match fuel with
  | O => out_of_fuel
  | S fuel' => v <- inb 0x1F7 ;; if negb (Z.land v 0xC0 =? 0x40) then waitdisk fuel' else ret tt
  end.

Definition readsect (fuel : nat) (dst offset : Z) : M boot unit :=
  waitdisk fuel ;;
  outb 0x1F2 1 ;;
  outb 0x1F3 offset ;;
  outb 0x1F4 (Z.shiftr offset 8) ;;
  outb 0x1F5 (Z.shiftr offset 16) ;;
  outb 0x1F6 (Z.lor (Z.shiftr offset 24) 0xE0) ;;
  outb 0x1F7 0x20 ;;
  waitdisk fuel ;;
  insl 0x1F0 dst (SECTSIZE / 4).

Fixpoint readseg_loop (n : nat) (fuel : nat) (pa epa offset : Z) : M boot unit :=
  match n with
  | O => out_of_fuel
  | S n' =>
      if pa <? epa then readsect fuel pa offset ;; readseg_loop n' fuel (u32 (pa + SECTSIZE)) epa (u32 (offset + 1))
      else ret tt
  end.

(** A round of the loop for every sector. *)
Definition readseg (fuel : nat) (pa count offset : Z) : M boot unit :=
  let epa := u32 (pa + count) in
  let pa := u32 (pa - offset mod SECTSIZE) in
  let offset := offset / SECTSIZE + 1 in
  readseg_loop (Z.to_nat ((epa - pa) / SECTSIZE) + 2) fuel pa epa offset.

Fixpoint load_loop (n fuel : nat) (ph eph : Z) : M boot unit :=
  match n with
  | O => out_of_fuel
  | S n' =>
      if ph <? eph then
        m <- gets b_mem ;;
        let pa := load32 m (ph + ph_paddr) in
        readseg fuel pa (load32 m (ph + ph_filesz)) (load32 m (ph + ph_off)) ;;
        m <- gets b_mem ;;
        when (load32 m (ph + ph_filesz) <? load32 m (ph + ph_memsz))
          (modify (fun s => MkBoot (stosb (b_mem s) (u32 (pa + load32 m (ph + ph_filesz))) 0
            (Z.to_nat (load32 m (ph + ph_memsz) - load32 m (ph + ph_filesz)))) (b_tr s))) ;;
        load_loop n' fuel (u32 (ph + sizeof_proghdr)) eph
      else ret tt
  end.

(** The entry point the loader jumps to, or [None] when it returns. *)
Definition bootmain (fuel : nat) : M boot (option Z) :=
  let elf := 0x10000 in
  readseg fuel elf 4096 0 ;;
  m <- gets b_mem ;;
  if negb (load32 m (elf + elf_magic) =? ELF_MAGIC) then ret None else
  let ph := u32 (elf + load32 m (elf + elf_phoff)) in
  let eph := u32 (ph + sizeof_proghdr * load16 m (elf + elf_phnum)) in
  load_loop (Z.to_nat (load16 m (elf + elf_phnum)) + 1) fuel ph eph ;;
  m <- gets b_mem ;;
  ret (Some (load32 m (elf + elf_entry))).

(** ** Reading from the disk *)

(** The sectors of the disk, and the file that starts at sector 1. *)
Context (disk : Z -> list Z).
Definition img (i : Z) : Z := nth (Z.to_nat (i mod SECTSIZE)) (disk (i / SECTSIZE + 1)) 0.

Definition read_command (off : Z) : list disk_event :=
  [DOut 0x1F2 1; DOut 0x1F3 (u8 off); DOut 0x1F4 (u8 (Z.shiftr off 8)); DOut 0x1F5 (u8 (Z.shiftr off 16));
   DOut 0x1F6 (u8 (Z.lor (Z.shiftr off 24) 0xE0)); DOut 0x1F7 0x20].

(** The disk is ready when the status has been read [d] times in a row. *)
Context (d fuel : nat).
Hypothesis disk_ready : forall tr, Z.land (port_in (tr ++ replicate d (DIn 0x1F7)) 0x1F7) 0xC0 = 0x40.
Hypothesis disk_fuel : (d < fuel)%nat.
Hypothesis disk_data : forall tr off n, 0 <= off < 2 ^ 28 ->
  port_data (tr ++ read_command off ++ replicate n (DIn 0x1F7)) = disk off.
Hypothesis disk_sector : forall off, length (disk off) = 512%nat.

Lemma waitdisk_loop k : forall n s,
  Z.land (port_in (b_tr s ++ replicate k (DIn 0x1F7)) 0x1F7) 0xC0 = 0x40 -> (k < n)%nat ->
  exists j, waitdisk n s = Ret tt (MkBoot (b_mem s) (b_tr s ++ replicate j (DIn 0x1F7))).
Proof.
  induction k as [|k IH]; intros [|n] s Hk Hn; try lia; cbn [waitdisk]; unfold inb; cbn [bind gets modify ret res_bind].
  - cbn [replicate] in Hk. rewrite app_nil_r in Hk. rewrite Hk. by exists 1%nat.
  - destruct (_ =? _); cbn [negb]; [by exists 1%nat|].
    destruct (IH n (add_ev (DIn 0x1F7) s)) as [j Hj]; [by cbn; rewrite <-app_assoc|lia|].
    exists (S j). rewrite Hj. cbn [add_ev b_mem b_tr]. by rewrite <-app_assoc.
Qed.

Lemma waitdisk_run s : exists j, waitdisk fuel s = Ret tt (MkBoot (b_mem s) (b_tr s ++ replicate j (DIn 0x1F7))).
Proof. apply (waitdisk_loop d); [apply disk_ready|done]. Qed.

Lemma readsect_run dst off s :
  0 <= off < 2 ^ 28 -> exists s', readsect fuel dst off s = Ret tt s' /\ b_mem s' = write_bytes (b_mem s) dst (disk off).
Proof.
  intros Ho. unfold readsect. destruct (waitdisk_run s) as [j Hj]. rewrite (bind_run _ _ _ _ _ Hj).
  cbn [bind outb modify res_bind]. set (s1 := add_ev (DOut 0x1F7 _) _).
  destruct (waitdisk_run s1) as [n Hn]. rewrite (bind_run _ _ _ _ _ Hn).
  eexists. split; [reflexivity|]. unfold s1. cbn [b_mem b_tr add_ev].
  replace (((((((_ ++ [_]) ++ [_]) ++ [_]) ++ [_]) ++ [_]) ++ [_]) ++ _) with
    ((b_tr s ++ replicate j (DIn 0x1F7)) ++ read_command off ++ replicate n (DIn 0x1F7)) by (by rewrite <-!app_assoc).
  rewrite disk_data by done. rewrite take_ge; [done|]. by rewrite disk_sector.
Qed.

Lemma readsect_mem dst off s :
  0 <= off < 2 ^ 28 ->
  exists s', readsect fuel dst off s = Ret tt s' /\ forall a,
    b_mem s' a = if (dst <=? a) && (a <? dst + SECTSIZE) then img ((off - 1) * SECTSIZE + (a - dst)) else b_mem s a.
Proof.
  intros Ho. destruct (readsect_run dst off s Ho) as (s' & Hs & Hm). exists s'. split; [done|]. intros a.
  rewrite Hm, write_bytes_spec, disk_sector. unfold SECTSIZE. change (Z.of_nat 512) with 512.
  destruct (Z.leb_spec dst a), (Z.ltb_spec a (dst + 512)); try done. cbn [andb]. unfold img, SECTSIZE.
  rewrite (Z.add_comm ((off - 1) * 512)), Z.mod_add, Z.div_add by done. rewrite Z.mod_small, Z.div_small by lia. do 2 f_equal. lia.
Qed.

(** [k] sectors, from the address [pa] on. *)
Lemma readseg_loop_run k : forall n s pa epa off,
  (k < n)%nat -> 0 <= pa -> pa + SECTSIZE * Z.of_nat k < 2 ^ 32 -> 1 <= off -> off + Z.of_nat k <= 2 ^ 28 ->
  epa <= pa + SECTSIZE * Z.of_nat k -> (k <> 0%nat -> pa + SECTSIZE * (Z.of_nat k - 1) < epa) ->
  exists s', readseg_loop n fuel pa epa off s = Ret tt s' /\ forall a,
    b_mem s' a = if (pa <=? a) && (a <? pa + SECTSIZE * Z.of_nat k) then img ((off - 1) * SECTSIZE + (a - pa)) else b_mem s a.
Proof.
  unfold SECTSIZE. induction k as [|k IH]; intros [|n] s pa epa off Hn Hpa Hlim Ho Hol He1 He2; try lia; cbn [readseg_loop].
  - rewrite (proj2 (Z.ltb_ge _ _)) by lia. exists s. split; [done|]. intros a. by zcases.
  - rewrite (proj2 (Z.ltb_lt _ _)) by lia. destruct (readsect_mem pa off s ltac:(lia)) as (s1 & H1 & M1).
    rewrite (bind_run _ _ _ _ _ H1). unfold SECTSIZE in *. rewrite !u32_small by lia.
    destruct (IH n s1 (pa + 512) epa (off + 1)) as (s2 & H2 & M2); [lia..|]. exists s2. split; [exact H2|]. intros a.
    rewrite M2, M1. zcases; cbn [andb]; try lia; try done; f_equal; lia.
Qed.

(** ** Segments *)

Record segment := MkSegment { sg_off : Z; sg_pa : Z; sg_filesz : Z; sg_memsz : Z }.

(** The sectors read for a segment, and the memory that loading it changes. *)
Definition sg_lo (g : segment) : Z := sg_pa g - sg_off g mod SECTSIZE.
Definition sg_sectors (g : segment) : Z := (sg_off g mod SECTSIZE + sg_filesz g + 511) / SECTSIZE.
Definition sg_hi (g : segment) : Z := Z.max (sg_lo g + SECTSIZE * sg_sectors g) (sg_pa g + sg_memsz g).

Record segment_ok (g : segment) : Prop := {
  so_off : 0 <= sg_off g /\ sg_off g + sg_filesz g + SECTSIZE < 2 ^ 32;
  so_size : 0 <= sg_filesz g <= sg_memsz g;
  so_lo : 0 <= sg_lo g;
  so_hi : sg_hi g < 2 ^ 32 - SECTSIZE;
}.

Lemma readseg_run g s :
  segment_ok g ->
  exists s', readseg fuel (sg_pa g) (sg_filesz g) (sg_off g) s = Ret tt s' /\ forall a,
    b_mem s' a = if (sg_lo g <=? a) && (a <? sg_lo g + SECTSIZE * sg_sectors g) then img (sg_off g + (a - sg_pa g)) else b_mem s a.
Proof.
  intros [[Ho1 Ho2] Hsz Hlo Hhi]. unfold sg_hi, sg_lo, SECTSIZE in *. unfold readseg, SECTSIZE, sg_sectors in *. unfold SECTSIZE in *.
  pose proof (Z.mod_pos_bound (sg_off g) 512 ltac:(lia)) as Hm. pose proof (Z.div_mod (sg_off g) 512 ltac:(lia)) as Hdm.
  set (r := sg_off g mod 512) in *. set (q := sg_off g / 512) in *. set (k := (r + sg_filesz g + 511) / 512) in *.
  assert (512 * k <= r + sg_filesz g + 511 < 512 * k + 512) as Hk by (unfold k; Z.div_mod_to_equations; lia).
  rewrite !u32_small by lia. destruct (readseg_loop_run (Z.to_nat k) (Z.to_nat ((sg_pa g + sg_filesz g - (sg_pa g - r)) / 512) + 2) s
    (sg_pa g - r) (sg_pa g + sg_filesz g) (q + 1)) as (s' & Hs & M); unfold SECTSIZE in *; try lia.
  - assert (k <= (sg_pa g + sg_filesz g - (sg_pa g - r)) / 512 + 1); [|lia].
    replace (sg_pa g + sg_filesz g - (sg_pa g - r)) with (r + sg_filesz g) by lia. unfold k. Z.div_mod_to_equations; lia.
  - exists s'. split; [exact Hs|]. intros a. rewrite M, Z2Nat.id by lia. replace (q + 1 - 1) with q by lia.
    replace (q * 512 + (a - (sg_pa g - r))) with (sg_off g + (a - sg_pa g)) by lia. done.
Qed.

(** The segment is in memory. *)
Definition loaded (m : memory) (g : segment) : Prop :=
  (forall i, 0 <= i < sg_filesz g -> m (sg_pa g + i) = img (sg_off g + i)) /\
  (forall i, sg_filesz g <= i < sg_memsz g -> m (sg_pa g + i) = 0).

(** The program header at [ph] describes it. *)
Record header_at (m : memory) (ph : Z) (g : segment) : Prop := {
  ha_off : load32 m (ph + ph_off) = sg_off g;
  ha_pa : load32 m (ph + ph_paddr) = sg_pa g;
  ha_filesz : load32 m (ph + ph_filesz) = sg_filesz g;
  ha_memsz : load32 m (ph + ph_memsz) = sg_memsz g;
}.

Lemma header_ext m m' ph g :
  (forall a, ph <= a < ph + sizeof_proghdr -> m' a = m a) -> header_at m ph g -> header_at m' ph g.
Proof.
  unfold sizeof_proghdr. intros Hm [H1 H2 H3 H4]. unfold ph_off, ph_paddr, ph_filesz, ph_memsz in *.
  split; unfold ph_off, ph_paddr, ph_filesz, ph_memsz; rewrite (load32_ext m m') by (intros x Hx; apply Hm; lia); done.
Qed.

(** One round of the loop. *)
Lemma load_step n s ph eph g :
  segment_ok g -> header_at (b_mem s) ph g -> 0 <= ph -> ph < eph -> eph < 2 ^ 32 - 32 ->
  sg_hi g <= ph \/ ph + sizeof_proghdr <= sg_lo g ->
  exists s1, load_loop (S n) fuel ph eph s = load_loop n fuel (ph + sizeof_proghdr) eph s1 /\
    loaded (b_mem s1) g /\ (forall a, a < sg_lo g \/ sg_hi g <= a -> b_mem s1 a = b_mem s a).
Proof.
  intros Hg Hh Hph Hlt Hlim Hdis. cbn [load_loop]. rewrite (proj2 (Z.ltb_lt _ _) Hlt). cbn [bind gets res_bind].
  pose proof Hh as [E1 E2 E3 _]. rewrite E1, E2, E3. destruct (readseg_run g s Hg) as (s1 & H1 & M1).
  rewrite (bind_run _ _ _ _ _ H1). cbn [bind gets res_bind].
  assert (forall a, a < sg_lo g \/ sg_hi g <= a -> b_mem s1 a = b_mem s a) as Hout.
  { intros a Ha. rewrite M1. unfold sg_hi in *. zcases; try done; lia. }
  assert (header_at (b_mem s1) ph g) as [F1 F2 F3 F4].
  { eapply header_ext; [|exact Hh]. intros a Ha. apply Hout. lia. }
  rewrite F3, F4. destruct Hg as [[Ho1 Ho2] Hsz Hlo Hhi].
  assert (0 <= sg_off g mod 512 < 512) as Hmod by (apply Z.mod_pos_bound; lia).
  unfold sizeof_proghdr in *. rewrite (u32_small (ph + 32)) by lia.
  assert (sg_lo g <= sg_pa g /\ sg_pa g + sg_filesz g <= sg_lo g + SECTSIZE * sg_sectors g /\ sg_pa g + sg_memsz g <= sg_hi g) as (L1 & L2 & L3).
  { unfold sg_hi, sg_lo, sg_sectors, SECTSIZE in *. Z.div_mod_to_equations; lia. }
  assert (sg_pa g + sg_filesz g < 2 ^ 32 /\ 0 <= sg_pa g) as [Hpa1 Hpa2] by (unfold SECTSIZE in *; lia).
  rewrite (u32_small (sg_pa g + sg_filesz g)) by lia.
  destruct (Z.ltb_spec (sg_filesz g) (sg_memsz g)) as [Hz|Hz]; cbn [when bind modify ret res_bind]; eexists; (split; [reflexivity|]); cbn [b_mem].
  - split; [split|].
    + intros i Hi. rewrite stosb_spec, M1. zcases; cbn [andb]; try lia; try (f_equal; lia).
    + intros i Hi. rewrite stosb_spec. zcases; cbn [andb]; try lia; done.
    + intros a Ha. rewrite stosb_spec. rewrite Hout by done. zcases; cbn [andb]; try lia; done.
  - split; [split|done].
    + intros i Hi. rewrite M1. zcases; cbn [andb]; try lia; f_equal; lia.
    + intros i Hi. lia.
Qed.

(** ** The kernel *)

(** The page into which [bootmain] reads the headers. *)
Definition scratch : Z := 0x10000.

(** A segment does not overwrite the headers, and not a segment before it. *)
Definition apart (g : segment) (lo hi : Z) : Prop := sg_hi g <= lo \/ hi <= sg_lo g.
Fixpoint layout (segs : list segment) : Prop :=
  match segs with
  | [] => True
  | g :: segs' => Forall (fun h => apart h (sg_pa g) (sg_pa g + sg_memsz g)) segs' /\ layout segs'
  end.

Fixpoint headers_at (m : memory) (ph : Z) (segs : list segment) : Prop :=
  match segs with
  | [] => True
  | g :: segs' => header_at m ph g /\ headers_at m (ph + sizeof_proghdr) segs'
  end.

Lemma headers_ext segs : forall m m' ph,
  (forall a, ph <= a < ph + sizeof_proghdr * Z.of_nat (length segs) -> m' a = m a) -> headers_at m ph segs -> headers_at m' ph segs.
Proof.
  unfold sizeof_proghdr. induction segs as [|g segs IH]; intros m m' ph Hm; cbn [headers_at length] in *; [done|]. intros [Hg Hs]. split.
  - eapply header_ext; [|exact Hg]. unfold sizeof_proghdr. intros a Ha. apply Hm. lia.
  - eapply IH; [|exact Hs]. unfold sizeof_proghdr. intros a Ha. apply Hm. lia.
Qed.

Lemma loaded_ext m m' g :
  0 <= sg_filesz g -> (forall a, sg_pa g <= a < sg_pa g + sg_memsz g -> m' a = m a) -> sg_filesz g <= sg_memsz g -> loaded m g -> loaded m' g.
Proof. intros H0 Hm Hs [H1 H2]. split; intros i Hi; rewrite Hm by lia; [apply H1|apply H2]; lia. Qed.

Lemma load_all segs : forall n s ph,
  (length segs < n)%nat -> scratch <= ph -> ph + sizeof_proghdr * Z.of_nat (length segs) <= scratch + 4096 ->
  Forall segment_ok segs -> Forall (fun g => apart g scratch (scratch + 4096)) segs -> layout segs -> headers_at (b_mem s) ph segs ->
  exists s', load_loop n fuel ph (ph + sizeof_proghdr * Z.of_nat (length segs)) s = Ret tt s' /\
    Forall (loaded (b_mem s')) segs /\ (forall a, Forall (fun g => a < sg_lo g \/ sg_hi g <= a) segs -> b_mem s' a = b_mem s a).
Proof.
  unfold sizeof_proghdr, scratch. induction segs as [|g segs IH]; intros [|n] s ph Hn Hph Hend Hok Hap Hlay Hh; cbn [length] in *; try lia.
  - exists s. cbn [load_loop]. rewrite (proj2 (Z.ltb_ge _ _)) by lia. split_and!; done.
  - apply Forall_cons in Hok as [Hg Hok], Hap as [Ha Hap]. destruct Hlay as [Hl1 Hlay], Hh as [Hh1 Hh].
    unfold apart, sizeof_proghdr in *.
    destruct (load_step n s ph (ph + 32 * Z.of_nat (S (length segs))) g) as (s1 & H1 & L1 & M1); [done|done|lia|lia|lia|unfold sizeof_proghdr; lia|].
    destruct (IH n s1 (ph + 32)) as (s' & H2 & L2 & M2); [lia|lia|lia|done|done|done| |].
    { eapply headers_ext; [|exact Hh]. unfold sizeof_proghdr. intros a Hb. apply M1. lia. }
    exists s'. split; [|split].
    + rewrite H1. unfold sizeof_proghdr. rewrite <-H2. f_equal. lia.
    + constructor; [|done]. destruct Hg as [_ [Hsz1 Hsz2] _ _]. eapply loaded_ext; [done| |done|exact L1].
      intros a Hb. apply M2. eapply Forall_impl; [exact Hl1|]. cbn. intros h [Hh'|Hh']; lia.
    + intros a [Hga Hsa]%Forall_cons. by rewrite M2, M1.
Qed.

(** The file is an executable with these segments. *)
Record elf_image (segs : list segment) (entry : Z) : Prop := {
  ei_magic : load32 img elf_magic = ELF_MAGIC;
  ei_entry : load32 img elf_entry = entry;
  ei_phnum : load16 img elf_phnum = Z.of_nat (length segs);
  ei_phoff : 0 <= load32 img elf_phoff /\ load32 img elf_phoff + sizeof_proghdr * Z.of_nat (length segs) <= 4096;
  ei_headers : headers_at img (load32 img elf_phoff) segs;
}.

Lemma load32_shift m m' b a : (forall i, 0 <= i < 4096 -> m (b + i) = m' i) -> 0 <= a <= 4092 -> load32 m (b + a) = load32 m' a.
Proof. intros H Ha. unfold load32. rewrite <-!Z.add_assoc, !H by lia. done. Qed.
Lemma load16_shift m m' b a : (forall i, 0 <= i < 4096 -> m (b + i) = m' i) -> 0 <= a <= 4094 -> load16 m (b + a) = load16 m' a.
Proof. intros H Ha. unfold load16. rewrite <-!Z.add_assoc, !H by lia. done. Qed.

Lemma headers_shift segs m b : (forall i, 0 <= i < 4096 -> m (b + i) = img i) -> forall ph,
  0 <= ph -> ph + sizeof_proghdr * Z.of_nat (length segs) <= 4096 -> headers_at img ph segs -> headers_at m (b + ph) segs.
Proof.
  unfold sizeof_proghdr. intros Hm. induction segs as [|g segs IH]; intros ph Hp Hend; cbn [headers_at length] in *; [done|].
  intros [[E1 E2 E3 E4] Hs]. unfold ph_off, ph_paddr, ph_filesz, ph_memsz in *. split.
  - split; unfold ph_off, ph_paddr, ph_filesz, ph_memsz; rewrite <-Z.add_assoc, (load32_shift m img) by (done || lia); done.
  - unfold sizeof_proghdr in *. rewrite <-Z.add_assoc. apply IH; [lia|lia|done].
Qed.

(** C13: The boot loader puts every segment of the kernel where its header says,
    the rest of its memory zero, and jumps to the entry point; also when the
    segments do not begin at a sector and the sectors read for one reach into
    its neighbours. *)
Theorem bootmain_loads segs entry s :
  elf_image segs entry -> Forall segment_ok segs -> Forall (fun g => apart g scratch (scratch + 4096)) segs -> layout segs ->
  exists s', bootmain fuel s = Ret (Some entry) s' /\ Forall (loaded (b_mem s')) segs.
Proof.
  intros [Hmag Hent Hnum Hoff Hhd] Hok Hap Hlay. unfold bootmain.
  destruct (readseg_run (MkSegment 0 scratch 4096 4096) s) as (s1 & H1 & M1); [split; by vm_compute|].
  cbn [sg_pa sg_filesz sg_off] in H1. rewrite (bind_run _ _ _ _ _ H1). cbn [bind gets res_bind].
  assert (forall i, 0 <= i < 4096 -> b_mem s1 (scratch + i) = img i) as Hm.
  { intros i Hi. rewrite M1. unfold sg_lo, sg_sectors, SECTSIZE. cbn [sg_pa sg_off sg_filesz].
    change (0 mod 512) with 0. change ((0 + 4096 + 511) / 512) with 8. zcases; cbn [andb]; try lia. f_equal. lia. }
  fold scratch. unfold elf_magic, elf_phoff, elf_phnum, elf_entry in *.
  rewrite !(load32_shift (b_mem s1) img), !(load16_shift (b_mem s1) img) by (done || lia). rewrite Hmag, Hnum, Z.eqb_refl. cbn [negb].
  set (p := load32 img 28) in *. unfold sizeof_proghdr in *. rewrite !u32_small by (unfold scratch; lia).
  destruct (load_all segs (Z.to_nat (Z.of_nat (length segs)) + 1) s1 (scratch + p)) as (s2 & H2 & L2 & M2);
    unfold sizeof_proghdr; [lia|lia|lia|done|done|done| |].
  { apply headers_shift; [done|lia|unfold sizeof_proghdr; lia|done]. }
  unfold sizeof_proghdr in H2. rewrite (bind_run _ _ _ _ _ H2). cbn [bind gets ret res_bind].
  exists s2. split; [|done]. do 2 f_equal. rewrite <-Hent, <-(load32_shift (b_mem s1) img scratch 24) by (done || lia).
  apply load32_ext. intros a Ha. apply M2. eapply Forall_impl; [exact Hap|]. unfold apart, scratch in *. cbn. intros g Hg. lia.
Qed.

End loader.

(** ** The theorem on a small disk *)

(** The address the registers of the controller hold. *)
Definition select (r : Z * Z * Z * Z) (e : disk_event) : Z * Z * Z * Z :=
  let '(a, b, c, h) := r in
  match e with
  | DOut port v =>
      if port =? 0x1F3 then (v, b, c, h) else if port =? 0x1F4 then (a, v, c, h)
      else if port =? 0x1F5 then (a, b, v, h) else if port =? 0x1F6 then (a, b, c, v) else r
  | _ => r
  end.
Definition selected (tr : list disk_event) : Z :=
  let '(a, b, c, h) := foldl select (0, 0, 0, 0) tr in a + 2 ^ 8 * b + 2 ^ 16 * c + 2 ^ 24 * (h mod 16).

Lemma selected_command tr off n :
  0 <= off < 2 ^ 28 -> selected (tr ++ read_command off ++ replicate n (DIn 0x1F7)) = off.
Proof.
  intros Ho. unfold selected. rewrite !foldl_app. destruct (foldl select (0, 0, 0, 0) tr) as [[[a b] c] h].
  assert (forall r, foldl select r (replicate n (DIn 0x1F7)) = r) as ->.
  { induction n as [|n IH]; intros [[[? ?] ?] ?]; [done|]. apply IH. }
  cbn [foldl read_command select Z.eqb Pos.eqb]. rewrite !Z.shiftr_div_pow2 by done. rewrite Z.lor_comm.
  assert (0 <= off / 2 ^ 24 < 16) as Hh by (Z.div_mod_to_equations; lia).
  rewrite (lor_aligned 0xE0 (off / 2 ^ 24) 4) by (done || lia). unfold u8. rewrite (Z.mod_small (0xE0 + _)) by lia.
  rewrite (Z.add_comm 0xE0). change 0xE0 with (14 * 16). rewrite Z.mod_add, (Z.mod_small (off / 2 ^ 24)) by lia.
  change (2 ^ 8) with 256. change (2 ^ 16) with 65536. change (2 ^ 24) with 16777216. Z.div_mod_to_equations; lia.
Qed.

(** An executable of two segments: the sector of the first reaches over the
    second. *)
Definition demo_segments : list segment := [MkSegment 600 0x100058 20 20; MkSegment 1100 0x100100 8 40].
Definition demo_phdr (g : segment) : list Z :=
  le_encode 4 1 ++ le_encode 4 (sg_off g) ++ le_encode 4 (sg_pa g) ++ le_encode 4 (sg_pa g) ++
  le_encode 4 (sg_filesz g) ++ le_encode 4 (sg_memsz g) ++ replicate 8 0.
Definition demo_file : list Z :=
  le_encode 4 ELF_MAGIC ++ replicate 20 0 ++ le_encode 4 0x10000C ++ le_encode 4 52 ++ replicate 12 0 ++ le_encode 2 2 ++ replicate 6 0 ++
  concat (demo_phdr <$> demo_segments) ++ replicate 484 0 ++ (Z.of_nat <$> seq 1 20) ++ replicate 480 0 ++ (Z.of_nat <$> seq 50 8).
Definition demo_disk (off : Z) : list Z :=
  (fun i => nth (Z.to_nat (512 * (off - 1)) + i) demo_file 0) <$> seq 0 512.

Lemma bootmain_loads_witness :
  exists s', bootmain (fun _ _ => 0x40) (fun tr => demo_disk (selected tr)) 1 (MkBoot (fun _ => 7) []) = Ret (Some 0x10000C) s' /\
    b_mem s' 0x100058 = 1 /\ b_mem s' 0x100107 = 57 /\ b_mem s' 0x100108 = 0.
Proof.
  destruct (bootmain_loads (fun _ _ => 0x40) (fun tr => demo_disk (selected tr)) demo_disk 0 1) with
    (segs := demo_segments) (entry := 0x10000C) (s := MkBoot (fun _ => 7) []) as (s' & H1 & H2).
  - reflexivity.
  - lia.
  - intros tr off n Ho. by rewrite selected_command.
  - reflexivity.
  - split; [by vm_compute|by vm_compute|by vm_compute|by vm_compute|].
    split; [split; by vm_compute|]. split; [split; by vm_compute|]. exact I.
  - constructor; [split; by vm_compute|]. constructor; [split; by vm_compute|constructor].
  - constructor; [right; by vm_compute|]. constructor; [right; by vm_compute|constructor].
  - split; [|by split]. constructor; [right; by vm_compute|constructor].
  - refine (ex_intro _ s' (conj H1 _)). clear H1. apply Forall_cons in H2 as [[Ha _] H2]. apply Forall_cons in H2 as [[Hb Hc] _].
    split; [etrans; [exact (Ha 0 ltac:(by vm_compute))|by vm_compute]|].
    split; [etrans; [exact (Hb 7 ltac:(by vm_compute))|by vm_compute]|exact (Hc 8 ltac:(by vm_compute))].
Defined.
