(* ===== verification/Main.v ===== *)
(** * The start of the processors (main.c, entryother.S; proc.c: mycpu, cpuid; uart.c: uartinit)

    [main] calls the initialisation of every part of the kernel in turn; here
    the parts, which are modelled on states of their own, run on one machine.
    [startothers] starts the other processors, each with a stack of its own.
    They run at the same time: [ap_step] is a step of one of them from the
    startup message on, through entryother.S to the [xchg] of mpmain, and any
    number of such steps fall between two actions of [startothers]. *)

From stdpp Require Import base functions numbers list option strings.
From S2P Require Import Prelude Kernel Fields Mmu Spinlock Proc Cprintf Cstring Sleeplock Bio Kalloc Vm Sched Inode Console.
From S2P Require Import Fs File Life Entry Mp Apic.

(** A processor that is being started: it waits for its startup message, runs
    entryother.S, has loaded its page directory, its stack pointer, and has
    entered the address it was given. *)
Inductive apstate :=
| A_off
| A_start
| A_paged (pgdir : Z)
| A_stacked (pgdir stack : Z)
| A_entered (pgdir stack entry : Z).

(** The kernel, the variables of mp.c, the interrupt controllers and the tables
    of the running processor, and the other processors, with their flags
    [started] and the number of points at which they could move so far.  Memory
    is that of the kernel; [lapic] and [ioapicid] are set by [mpinit] and read
    by the controllers' code. *)
Record machine := MkMachine {
  g_k : kernel;
  g_mp : mps;
  g_ap : apic;
  g_tb : tables;
  g_if : bool;
  g_cpus : nat -> apstate;
  g_started : nat -> bool;
  g_time : nat;
}.

Definition set_g_k (k : kernel) (s : machine) : machine :=
  MkMachine k (g_mp s) (g_ap s) (g_tb s) (g_if s) (g_cpus s) (g_started s) (g_time s).
Definition set_g_tb (t : tables) (s : machine) : machine :=
  MkMachine (g_k s) (g_mp s) (g_ap s) t (g_if s) (g_cpus s) (g_started s) (g_time s).
Definition put_mp (p : mps) (s : machine) : machine :=
  MkMachine (g_k s) p
    (MkApic (s_lapic p) (a_mem (g_ap s)) (a_tr (g_ap s)) (io_sel (g_ap s)) (io_reg (g_ap s)) (s_ioapicid p) (a_out (g_ap s)))
    (g_tb s) (g_if s) (g_cpus s) (g_started s) (g_time s).
Definition put_ap (a : apic) (s : machine) : machine :=
  MkMachine (set_k_mem (a_mem a) (g_k s)) (g_mp s) a (g_tb s) (g_if s) (g_cpus s) (g_started s) (g_time s).
Definition set_cpus (c : nat -> apstate) (b : nat -> bool) (t : nat) (s : machine) : machine :=
  MkMachine (g_k s) (g_mp s) (g_ap s) (g_tb s) (g_if s) c b t.
Definition set_cpu (i : nat) (c : apstate) (s : machine) : machine :=
  set_cpus (<[i := c]> (g_cpus s)) (g_started s) (g_time s) s.
Definition set_started (i : nat) (s : machine) : machine :=
  set_cpus (g_cpus s) (<[i := true]> (g_started s)) (g_time s) s.
Definition tick (s : machine) : machine := set_cpus (g_cpus s) (g_started s) (S (g_time s)) s.
Definition get_mp (s : machine) : mps :=
  MkMps (k_mem (g_k s)) (s_apicid (g_mp s)) (s_ncpu (g_mp s)) (s_ioapicid (g_mp s)) (s_lapic (g_mp s)) (s_out (g_mp s)).
Definition get_ap (s : machine) : apic := set_a_mem (k_mem (g_k s)) (g_ap s).

(** A computation on a part of a state, on the whole. *)
Fixpoint res_zoom {S T A} (get : S -> T) (put : T -> S -> S) (s : S) (r : res T A) : res S A :=
  match r with
  | Ret a t => Ret a (put t s)
  | Panic m => Panic m
  | Swtch to t k => Swtch to (put t s) (fun s' => res_zoom get put s' (k (get s')))
  | OutOfFuel => OutOfFuel
  end.
Definition zoom {S T A} (get : S -> T) (put : T -> S -> S) (c : M T A) : M S A := fun s => res_zoom get put s (c (get s)).

Definition in_k {A} (c : K A) : M machine A := zoom g_k set_g_k c.
Definition in_mp {A} (c : M mps A) : M machine A := zoom get_mp put_mp c.
Definition in_ap {A} (c : M apic A) : M machine A := zoom get_ap put_ap c.
Definition in_tb (f : tables -> tables) : M machine unit := modify (fun s => set_g_tb (f (g_tb s)) s).

Definition COM1 : Z := 0x3f8.
Definition PTE_PS : Z := 0x80.

(** The page directory with which paging begins: entry [i]. *)
Definition entrypgdir (i : Z) : Z :=
  if (i =? 0) || (i =? Z.shiftr KERNBASE 22) then Z.lor (Z.lor (Z.lor 0 PTE_P) PTE_W) PTE_PS else 0.

Section main.
Context `{Link}.
(** What device registers read; the linked image of entryother.S and the
    addresses of [mpenter] and [entrypgdir]. *)
Context (lapic_reg port_in : list event -> Z -> Z).
Context (entryother_start entryother_size l_mpenter l_entrypgdir : Z).
(** The processors that take a step at the [n]th point, in their order. *)
Context (moves : nat -> list nat).

Definition mycpu : M machine nat :=
  i <- gets g_if ;;
  if i then panic "mycpu called with interrupts enabled" else
  apicid <- in_ap (lapicid lapic_reg) ;;
  ids <- gets (fun s => take (s_ncpu (g_mp s)) (s_apicid (g_mp s))) ;;
  match list_find (fun id => id = apicid) ids with
  | Some (i, _) => ret i
  | None => panic "unknown apicid"
  end.

Definition cpuid : M machine Z := i <- mycpu ;; ret (Z.of_nat i).

Definition uartinit : M machine unit :=
  in_ap (outb (COM1 + 2) 0) ;;
  in_ap (outb (COM1 + 3) 0x80) ;;
  in_ap (outb (COM1 + 0) (115200 / 9600)) ;;
  in_ap (outb (COM1 + 1) 0) ;;
  in_ap (outb (COM1 + 3) 0x03) ;;
  in_ap (outb (COM1 + 4) 0) ;;
  in_ap (outb (COM1 + 1) 0x01) ;;
  status <- in_ap (inb port_in (COM1 + 5)) ;;
  if status =? 0xFF then ret tt else
  in_k (modify (set_k_uart true)) ;;
  _ <- in_ap (inb port_in (COM1 + 2)) ;;
  _ <- in_ap (inb port_in (COM1 + 0)) ;;
  in_ap (ioapicenable IRQ_COM1 0) ;;
  in_k (foreach (chars "xv6..." ++ [10]) uartputc).

(** Processor [i] was sent the message to start at the page of the code. *)
Definition startup_sent (s : machine) (i : nat) : bool :=
  bool_decide ((s_apicid (g_mp s) !!! i, Startup 7) ∈ sent 0 (writes (a_tr (g_ap s)))).

(** A step of processor [i]: it wakes up; entryother.S loads the words below
    its code, the page directory at [start-12], the stack at [start-4] and the
    address it calls at [start-8]; there [mpenter] and [mpmain] lead to
    [xchg(&(mycpu()->started), 1)]. *)
Definition ap_step (s : machine) (i : nat) : machine :=
  let word off := load32 (k_mem (g_k s)) (P2V 0x7000 - off) in
  if (s_ncpu (g_mp s) <=? i)%nat then s else
  match g_cpus s i with
  | A_off => if startup_sent s i then set_cpu i A_start s else s
  | A_start => set_cpu i (A_paged (word 12)) s
  | A_paged pgdir => set_cpu i (A_stacked pgdir (word 4)) s
  | A_stacked pgdir stack => set_cpu i (A_entered pgdir stack (word 8)) s
  | A_entered _ _ entry => if (entry =? u32 l_mpenter) && negb (g_started s i) then set_started i s else s
  end.

(** The other processors go on. *)
Definition others : M machine unit := modify (fun s => tick (foldl ap_step s (moves (g_time s)))).

(** [while(c->started == 0);] *)
Fixpoint wait_started (fuel i : nat) : M machine unit :=
  match fuel with
  | O => out_of_fuel
  | S fuel' =>
      others ;;
      started <- gets (fun s => g_started s i) ;;
      if negb started then wait_started fuel' i else ret tt
  end.

Definition start_one (fuel i : nat) : M machine unit :=
  let code := P2V 0x7000 in
  me <- mycpu ;;
  if (i =? me)%nat then ret tt else
  stack <- in_k kalloc ;;
  others ;;
  in_k (poke32 (code - 4) (u32 (stack + KSTACKSIZE))) ;;
  others ;;
  in_k (poke32 (code - 8) l_mpenter) ;;
  others ;;
  in_k (poke32 (code - 12) (V2P l_entrypgdir)) ;;
  apicid <- gets (fun s => s_apicid (g_mp s) !!! i) ;;
  in_ap (lapicstartap lapic_reg apicid (V2P code)) ;;
  wait_started fuel i.

Definition startothers (fuel : nat) : M machine unit :=
  let code := P2V 0x7000 in
  m <- in_k get_mem ;;
  in_k (set_mem (memmove m code entryother_start entryother_size)) ;;
  ncpu <- gets (fun s => s_ncpu (g_mp s)) ;;
  foreach (seq 0 ncpu) (start_one fuel).

(** ** The other processors *)

Lemma zoom_run {S T A} (get : S -> T) put (c : M T A) s a t : c (get s) = Ret a t -> zoom get put c s = Ret a (put t s).
Proof. unfold zoom. by intros ->. Qed.

(** The local controller identifies the processor that runs. *)
Context (id : Z).
Hypothesis own_id : forall tr, Z.shiftr (lapic_reg tr ID) 24 = id.

(** Processor [j] has nothing to do: it is up, or nobody has started it. *)
Definition idle (s : machine) (j : nat) : Prop :=
  (s_ncpu (g_mp s) <= j)%nat \/ (g_started s j = true /\ exists d st e, g_cpus s j = A_entered d st e) \/
  (g_started s j = false /\ g_cpus s j = A_off /\ startup_sent s j = false).

(** What [startothers] needs of the machine: processor [me] runs, with
    interrupts off; the free pages are [pages]; no processor is on its way. *)
Record booting (s : machine) (me : nat) (pages : list Z) : Prop := {
  bt_if : g_if s = false;
  bt_lapic : a_lapic (g_ap s) <> 0;
  bt_ids : Forall (fun v => 0 <= v < 256) (s_apicid (g_mp s));
  bt_ncpu : (s_ncpu (g_mp s) <= length (s_apicid (g_mp s)))%nat;
  bt_nodup : NoDup (take (s_ncpu (g_mp s)) (s_apicid (g_mp s)));
  bt_me : take (s_ncpu (g_mp s)) (s_apicid (g_mp s)) !! me = Some id;
  bt_lock : L_kmem ∉ k_held (g_k s);
  bt_pages : kmem_ok (g_k s) pages;
  bt_idle : forall j, idle s j;
}.

Definition with_event (e : event) (s : machine) : machine := put_ap (add_event e (get_ap s)) s.

Lemma mycpu_run s me pages : booting s me pages -> mycpu s = Ret me (with_event (LapicR ID) s).
Proof.
  intros []. unfold mycpu. cbn [bind gets res_bind]. rewrite bt_if0.
  assert (in_ap (lapicid lapic_reg) s = Ret id (with_event (LapicR ID) s)) as E.
  { unfold in_ap, with_event. apply zoom_run. unfold lapicid. cbn [bind gets res_bind get_ap set_a_mem a_lapic].
    rewrite (proj2 (Z.eqb_neq _ _) bt_lapic0). unfold lapic_read. cbn [bind gets modify ret res_bind]. by rewrite own_id. }
  rewrite (bind_run _ _ _ _ _ E). cbn [bind gets res_bind with_event put_ap g_mp].
  assert (list_find (fun v => v = id) (take (s_ncpu (g_mp s)) (s_apicid (g_mp s))) = Some (me, id)) as ->; [|done].
  apply list_find_Some. split_and!; [done|done|]. intros j y Hj Hlt ->. pose proof (NoDup_lookup _ _ _ _ bt_nodup0 Hj bt_me0). lia.
Qed.

(** The messages that start the processor [apicid] at the page of the code. *)
Lemma booting_event s me pages : booting s me pages -> booting (with_event (LapicR ID) s) me pages.
Proof.
  intros []. split; try done; [destruct bt_pages0; by split|]. intros j. specialize (bt_idle0 j).
  unfold idle, startup_sent, with_event, put_ap, get_ap in *. cbn [g_ap g_mp g_cpus g_started add_event a_tr set_a_mem].
  rewrite writes_app. cbn [writes omap list_omap]. by rewrite app_nil_r.
Qed.

Definition startup_messages (apicid : Z) : list (Z * ipi) :=
  [(apicid, Init true); (apicid, Init false); (apicid, Startup 7); (apicid, Startup 7)].

(** *** The other processors *)

Lemma idle_step s j : idle s j -> ap_step s j = s.
Proof.
  unfold ap_step. intros [Hj|[(Hs & d & st & e & ->)|(_ & -> & ->)]].
  - by rewrite (proj2 (Nat.leb_le _ _) Hj).
  - rewrite Hs, andb_false_r. by case_match.
  - by case_match.
Qed.

Lemma others_idle s : (forall j, idle s j) -> others s = Ret tt (tick s).
Proof.
  intros Hi. unfold others, modify. do 2 f_equal. induction (moves (g_time s)) as [|j l IH]; [done|].
  cbn [foldl]. by rewrite idle_step.
Qed.

(** [s'] is [s] after some steps of processor [i]. *)
Definition moved (i : nat) (s s' : machine) : Prop :=
  s' = set_cpus (g_cpus s') (g_started s') (g_time s') s /\
  forall j, j <> i -> g_cpus s' j = g_cpus s j /\ g_started s' j = g_started s j.

Lemma moved_refl i s : moved i s s.
Proof. split; [by destruct s|done]. Qed.
Lemma moved_trans i s1 s2 s3 : moved i s1 s2 -> moved i s2 s3 -> moved i s1 s3.
Proof.
  intros [E1 H1] [E2 H2]. split.
  - rewrite E2, E1. done.
  - intros j Hj. destruct (H1 j Hj) as [<- <-]. by apply H2.
Qed.
Lemma moved_cpu i c s : moved i s (set_cpu i c s).
Proof. split; [done|]. intros j Hj. cbn. by rewrite fn_lookup_insert_ne. Qed.
Lemma moved_started i s : moved i s (set_started i s).
Proof. split; [done|]. intros j Hj. cbn. by rewrite fn_lookup_insert_ne. Qed.
Lemma moved_tick i s : moved i s (tick s).
Proof. done. Qed.

(** Processor [i] after [k] of the five steps from its message to its flag, when
    the words below the code are [d], [st] and the address of [mpenter]. *)
Definition progress (s : machine) (i : nat) (d st : Z) (k : nat) : Prop :=
  g_cpus s i = match k with
               | 0 => A_off | 1 => A_start | 2 => A_paged d | 3 => A_stacked d st
               | _ => A_entered d st (u32 l_mpenter)
               end%nat /\ g_started s i = (5 <=? k)%nat.

Record launching (s : machine) (i : nat) (d st : Z) (k : nat) : Prop := {
  la_cpu : (i < s_ncpu (g_mp s))%nat;
  la_pgdir : load32 (k_mem (g_k s)) (P2V 0x7000 - 12) = d;
  la_stack : load32 (k_mem (g_k s)) (P2V 0x7000 - 4) = st;
  la_entry : load32 (k_mem (g_k s)) (P2V 0x7000 - 8) = u32 l_mpenter;
  la_sent : startup_sent s i = true;
  la_rest : forall j, j <> i -> idle s j;
  la_progress : progress s i d st k;
}.

Lemma launching_moved s s' i d st k k' :
  launching s i d st k -> moved i s s' -> progress s' i d st k' -> launching s' i d st k'.
Proof.
  intros [H1 H2 H3 H4 H5 H6 _] [-> Hm] Hp. split; try done. intros j Hj. destruct (Hm j Hj) as [E1 E2].
  unfold idle. rewrite E1, E2. exact (H6 j Hj).
Qed.

Lemma ap_step_own s i d st k : launching s i d st k -> (k < 5)%nat ->
  moved i s (ap_step s i) /\ g_time (ap_step s i) = g_time s /\ progress (ap_step s i) i d st (S k).
Proof.
  intros [Hi H12 H4 H8 Hsent _ [Hc Hs]] Hk. unfold ap_step. rewrite (proj2 (Nat.leb_gt _ _) Hi), Hc, H12, H4, H8, Hsent.
  do 5 (destruct k as [|k]; [
    rewrite ?Z.eqb_refl, ?Hs; cbn [andb negb Nat.leb];
    (split; [by (apply moved_cpu || apply moved_started)|]; split; [done|]; split; cbn;
      by rewrite ?fn_lookup_insert, ?Hs, ?Hc)|]). lia.
Qed.

Definition turns (i : nat) (l : list nat) : nat := length (filter (fun j => j = i) l).

Lemma ap_steps l : forall s i d st k, launching s i d st k -> (k <= 5)%nat ->
  let s' := foldl ap_step s l in
  moved i s s' /\ g_time s' = g_time s /\ launching s' i d st (Nat.min 5 (k + turns i l)).
Proof.
  induction l as [|j l IH]; intros s i d st k Hl Hk; cbn [foldl].
  { change (turns i []) with 0%nat. rewrite Nat.add_0_r, Nat.min_r by done. split_and!; [apply moved_refl|done|done]. }
  unfold turns. rewrite filter_cons. destruct (decide (j = i)) as [->|Hj]; cbn [length].
  - destruct (decide (k = 5)%nat) as [->|Hk5].
    + assert (ap_step s i = s) as ->.
      { destruct (la_progress _ _ _ _ _ Hl) as [Hc Hs]. apply idle_step. right. left. split; [done|]. by do 3 eexists. }
      replace (Nat.min 5 (5 + S _)) with (Nat.min 5 (5 + turns i l)) by (unfold turns; lia). by apply IH.
    + destruct (ap_step_own _ _ _ _ _ Hl) as (Hm & Ht & Hp); [lia|].
      destruct (IH (ap_step s i) i d st (S k)) as (Hm2 & Ht2 & Hl2); [by eapply launching_moved|lia|].
      split_and!; [by eapply moved_trans|congruence|]. by rewrite Nat.add_succ_r, <- Nat.add_succ_l.
  - rewrite idle_step by (by apply (la_rest _ _ _ _ _ Hl)). by apply IH.
Qed.

(** Within [fuel] points a processor gets its five steps. *)
Lemma wait_started_run fuel : forall s i d st k, launching s i d st k -> (k < 5)%nat ->
  (5 <= k + turns i (concat (moves <$> seq (g_time s) fuel)))%nat ->
  exists s', wait_started fuel i s = Ret tt s' /\ moved i s s' /\ launching s' i d st 5.
Proof.
  induction fuel as [|fuel IH]; intros s i d st k Hl Hk Hf; [cbn in Hf; lia|].
  cbn [wait_started]. unfold others, modify, bind, gets. cbn [res_bind].
  destruct (ap_steps (moves (g_time s)) s i d st k Hl ltac:(lia)) as (Hm & Ht & Hl1). set (s1 := foldl ap_step s _) in *.
  set (k1 := Nat.min 5 (k + turns i (moves (g_time s)))) in *.
  assert (moved i s (tick s1)) as Hm1 by (eapply moved_trans; [exact Hm|apply moved_tick]).
  assert (launching (tick s1) i d st k1) as Hl2 by (eapply launching_moved; [exact Hl1|apply moved_tick|apply Hl1]).
  rewrite (proj2 (la_progress _ _ _ _ _ Hl2)). destruct (Nat.leb_spec 5 k1) as [Hk1|Hk1]; cbn [negb].
  - exists (tick s1). split_and!; [done|done|]. by replace 5%nat with k1 by (unfold k1 in *; lia).
  - destruct (IH (tick s1) i d st k1 Hl2 Hk1) as (s' & Hr & Hm2 & Hl3).
    + cbn [tick set_cpus g_time]. rewrite Ht. cbn [seq fmap list_fmap concat] in Hf. unfold turns in *.
      rewrite list.filter_app, length_app in Hf. lia.
    + exists s'. split_and!; [exact Hr|by eapply moved_trans|done].
Qed.

(** From [s] to [s'] processor [i], and no other, has been started, with the
    stack [stack]. *)
Record launched (s : machine) (i : nat) (stack : Z) (s' : machine) : Prop := {
  ln_up : g_started s' i = true /\
    g_cpus s' i = A_entered (V2P l_entrypgdir) (stack + KSTACKSIZE) (u32 l_mpenter);
  ln_rest : forall j, j <> i -> g_cpus s' j = g_cpus s j /\ g_started s' j = g_started s j;
  ln_sent : exists tr, a_tr (g_ap s') = a_tr (g_ap s) ++ tr /\
    forall dest, sent dest (writes tr) = startup_messages (s_apicid (g_mp s) !!! i);
  ln_code : forall a, P2V 0x7000 <= a -> k_mem (g_k s') a = k_mem (g_k s) a;
}.

Lemma in_k_run {A} (c : K A) s a k : c (g_k s) = Ret a k -> in_k c s = Ret a (set_g_k k s).
Proof. apply zoom_run. Qed.

Lemma poke_run a v s : in_k (poke32 a v) s = Ret tt (set_g_k (set_k_mem (store32 (k_mem (g_k s)) a v) (g_k s)) s).
Proof. done. Qed.

Lemma page_high p : LinkOk -> page_ok p -> KERNLINK < p.
Proof. intros Hl (_ & Hp & _). pose proof data_text. pose proof data_end. lia. Qed.

(** Changes of memory below the kernel keep the free pages. *)
Lemma low_memory s m pages :
  LinkOk -> (forall a, KERNLINK <= a -> m a = k_mem s a) -> kmem_ok s pages -> kmem_ok (set_k_mem m s) pages.
Proof.
  intros Hl Hm Hk. apply (kmem_ok_frame s); [done| |exact Hk]. intros a (p & Hp & Ha). kproj. apply Hm.
  destruct Hk as [_ _ Hpg]. rewrite Forall_forall in Hpg. pose proof (page_high p Hl (Hpg p Hp)). lia.
Qed.

(** The destination register after some writes. *)
Fixpoint dest_after (dest : Z) (ws : list (Z * Z)) : Z :=
  match ws with
  | [] => dest
  | (i, v) :: ws' => dest_after (if i =? ICRHI then Z.shiftr v 24 else dest) ws'
  end.

Lemma sent_app ws1 ws2 : forall dest, sent dest (ws1 ++ ws2) = sent dest ws1 ++ sent (dest_after dest ws1) ws2.
Proof.
  induction ws1 as [|[i v] ws1 IH]; intros dest; cbn [sent dest_after app]; [done|].
  destruct (i =? ICRHI); [apply IH|]. destruct (i =? ICRLO); [cbn [app]; f_equal|]; apply IH.
Qed.

Lemma startup_sent_app s s' tr i j :
  g_mp s' = g_mp s -> a_tr (g_ap s') = a_tr (g_ap s) ++ tr ->
  (forall dest, sent dest (writes tr) = startup_messages (s_apicid (g_mp s) !!! i)) ->
  startup_sent s' j = startup_sent s j || bool_decide (s_apicid (g_mp s) !!! j = s_apicid (g_mp s) !!! i).
Proof.
  intros Em Et Hs. unfold startup_sent. rewrite Em, Et, writes_app, sent_app, Hs, <- bool_decide_or. apply bool_decide_ext.
  rewrite elem_of_app. unfold startup_messages. rewrite !elem_of_cons, elem_of_nil.
  split; [intros [?|[?|[?|[?|[?|[]]]]]]; [by left|right; congruence..]|intros [?| ->]; [by left|by right; right; right; left]].
Qed.

Lemma ids_distinct s me pages i j :
  booting s me pages -> (i < s_ncpu (g_mp s))%nat -> (j < s_ncpu (g_mp s))%nat -> i <> j ->
  s_apicid (g_mp s) !!! i <> s_apicid (g_mp s) !!! j.
Proof.
  intros [_ _ _ Hn Hnd _ _ _ _] Hi Hj Hij E. apply Hij. eapply NoDup_lookup; [exact Hnd| |]; rewrite lookup_take_lt by done.
  - apply list_lookup_lookup_total_lt. lia.
  - rewrite E. apply list_lookup_lookup_total_lt. lia.
Qed.

(** The memory, and the machine, when processor [i] is sent its messages. *)
Definition handed_mem (m : Z -> Z) (stack : Z) : Z -> Z :=
  store32 (store32 (store32 m (P2V 0x7000 - 4) (u32 (stack + KSTACKSIZE))) (P2V 0x7000 - 8) l_mpenter) (P2V 0x7000 - 12) (V2P l_entrypgdir).

Definition handed (s : machine) (stack : Z) : machine :=
  set_cpus (g_cpus s) (g_started s) (3 + g_time s)
    (set_g_k (set_k_mem (handed_mem (k_mem (g_k s)) stack) (set_k_freelist (load32 (k_mem (g_k s)) stack) (g_k s))) s).

Lemma start_one_handed `{!LinkOk} s me stack pages fuel i :
  booting s me (stack :: pages) -> i <> me ->
  start_one fuel i s =
    (in_ap (lapicstartap lapic_reg (s_apicid (g_mp s) !!! i) 0x7000) ;; wait_started fuel i) (handed (with_event (LapicR ID) s) stack).
Proof.
  intros Hb Hi. unfold start_one. cbv zeta. rewrite (bind_run _ _ _ _ _ (mycpu_run s me _ Hb)).
  rewrite (proj2 (Nat.eqb_neq _ _) Hi). set (s0 := with_event (LapicR ID) s).
  pose proof (booting_event _ _ _ Hb) as Hb0. fold s0 in Hb0. pose proof (bt_pages _ _ _ Hb0) as Hk0.
  assert (in_k kalloc s0 = Ret stack (set_g_k (set_k_freelist (load32 (k_mem (g_k s0)) stack) (g_k s0)) s0)) as E1.
  { apply in_k_run. apply (kalloc_run _ stack pages); [exact (bt_lock _ _ _ Hb)|done]. }
  rewrite (bind_run _ _ _ _ _ E1).
  pose proof (bt_idle _ _ _ Hb0) as Hi0.
  do 3 (erewrite bind_run by (apply others_idle; exact Hi0); rewrite (bind_run _ _ _ _ _ (poke_run _ _ _))). reflexivity.
Qed.

Lemma handed_words stack m t :
  KERNLINK < stack < KERNBASE + PHYSTOP -> (forall a, 0x8000046B <= a -> t a = handed_mem m stack a) ->
  load32 t (P2V 0x7000 - 12) = V2P l_entrypgdir /\ load32 t (P2V 0x7000 - 4) = stack + KSTACKSIZE /\
  load32 t (P2V 0x7000 - 8) = u32 l_mpenter.
Proof.
  intros Hst Ht. unfold KERNLINK, KERNBASE, EXTMEM, PHYSTOP in *. unfold handed_mem in Ht. change (P2V 0x7000) with 0x80007000 in *.
  split_and!; erewrite load32_ext by (intros a Ha; apply Ht; lia).
  - rewrite load32_store32_eq. apply u32_small. unfold V2P. apply u32_range.
  - rewrite !load32_store32_ne, load32_store32_eq by lia. unfold KSTACKSIZE. rewrite !u32_small by (rewrite ?u32_small; lia). done.
  - by rewrite load32_store32_ne, load32_store32_eq by lia.
Qed.

Lemma handed_booting `{!LinkOk} s me stack pages i t tr :
  booting s me (stack :: pages) -> (i < s_ncpu (g_mp s))%nat -> g_started s i = false ->
  let s2 := put_ap t (handed (with_event (LapicR ID) s) stack) in
  a_lapic t = a_lapic (g_ap s) -> (forall a, 0x8000046B <= a -> a_mem t a = handed_mem (k_mem (g_k s)) stack a) ->
  a_tr t = a_tr (g_ap s) ++ tr -> (forall dest, sent dest (writes tr) = startup_messages (s_apicid (g_mp s) !!! i)) ->
  launching s2 i (V2P l_entrypgdir) (stack + KSTACKSIZE) 0 /\ kmem_ok (g_k s2) pages /\
  (forall a, P2V 0x7000 <= a -> a_mem t a = k_mem (g_k s) a).
Proof.
  intros Hb Hlt Hoff s2 Hla Hmem Htr Hsent. pose proof (bt_pages _ _ _ Hb) as Hk. pose proof Hk as [_ _ [Hpg _]%Forall_cons].
  pose proof (page_high stack ltac:(done) Hpg) as Hst. destruct Hpg as (_ & _ & Hpg).
  destruct (handed_words stack (k_mem (g_k s)) (a_mem t)) as (H12 & H4 & H8); [unfold KERNBASE, PHYSTOP, PGSIZE in *; lia|done|].
  assert (forall a, P2V 0x7000 <= a -> a_mem t a = k_mem (g_k s) a) as Hhigh.
  { change (P2V 0x7000) with 0x80007000. intros a Ha. rewrite Hmem by lia. unfold handed_mem. change (P2V 0x7000) with 0x80007000.
    by rewrite !store32_other by lia. }
  split_and!; [split; try done| |done].
  - rewrite (startup_sent_app s s2 tr i i) by done. by rewrite bool_decide_true, orb_true_r.
  - intros j Hj. destruct (bt_idle _ _ _ Hb j) as [H1|[H1|(H1 & H2 & H3)]]; [by left|by right; left|].
    destruct (decide (s_ncpu (g_mp s) <= j)%nat); [by left|]. right; right. split_and!; [done..|].
    rewrite (startup_sent_app s s2 tr i j), H3 by done. apply bool_decide_false. eapply ids_distinct; [exact Hb|lia|done|done].
  - destruct (bt_idle _ _ _ Hb i) as [H1|[[H1 _]|(_ & H1 & _)]]; [lia|congruence|]. by split.
  - apply kmem_ok_pop in Hk. apply (low_memory _ (a_mem t)) in Hk; [exact Hk|done|].
    intros a Ha. kproj. apply Hhigh. change (P2V 0x7000) with 0x80007000. unfold KERNLINK, KERNBASE, EXTMEM in *. lia.
Qed.

Lemma start_one_run `{!LinkOk} s me stack pages fuel i :
  booting s me (stack :: pages) -> i <> me -> (i < s_ncpu (g_mp s))%nat -> g_started s i = false ->
  (forall n, (5 <= turns i (concat (moves <$> seq n fuel)))%nat) ->
  exists s', start_one fuel i s = Ret tt s' /\ launched s i stack s' /\ booting s' me pages /\ g_mp s' = g_mp s.
Proof.
  intros Hb Hi Hlt Hoff Hf. rewrite (start_one_handed s me stack pages) by done. set (s1 := handed _ stack).
  assert (0 <= s_apicid (g_mp s) !!! i < 256) as Hid by (destruct Hb; apply (Forall_lookup_total_1 _ _ _ bt_ids0); lia).
  destruct (lapicstartap_correct lapic_reg (s_apicid (g_mp s) !!! i) 0x7000 (get_ap s1)) as (t & tr & E2 & Etr & Hsent & _ & Hmem & Hla); [done|done|lia|].
  assert (in_ap (lapicstartap lapic_reg (s_apicid (g_mp s) !!! i) 0x7000) s1 = Ret tt (put_ap t s1)) as E3 by (by apply zoom_run).
  rewrite (bind_run _ _ _ _ _ E3).
  assert (a_tr t = a_tr (g_ap s) ++ ([LapicR ID] ++ tr)) as Etr2 by (rewrite Etr, app_assoc; done).
  destruct (handed_booting s me stack pages i t ([LapicR ID] ++ tr)) as (Hl & Hk & Hhigh);
    [done..|by intros a Ha; rewrite Hmem by (by right)|done|exact Hsent|].
  destruct (wait_started_run fuel _ _ _ _ 0 Hl) as (s' & Hr & [Es Hm] & Hl'); [lia|apply Hf|].
  exists s'. split; [exact Hr|]. destruct (la_progress _ _ _ _ _ Hl') as [Hc Hs]. split_and!; [split|split|by rewrite Es].
  - by split.
  - exact Hm.
  - exists ([LapicR ID] ++ tr). split; [by rewrite Es|exact Hsent].
  - intros a Ha. rewrite Es. by apply Hhigh.
  - rewrite Es. exact (bt_if _ _ _ Hb).
  - rewrite Es. cbn. rewrite Hla. exact (bt_lapic _ _ _ Hb).
  - rewrite Es. exact (bt_ids _ _ _ Hb).
  - rewrite Es. exact (bt_ncpu _ _ _ Hb).
  - rewrite Es. exact (bt_nodup _ _ _ Hb).
  - rewrite Es. exact (bt_me _ _ _ Hb).
  - rewrite Es. exact (bt_lock _ _ _ Hb).
  - rewrite Es. exact Hk.
  - intros j. destruct (decide (j = i)) as [->|Hj]; [|by apply (la_rest _ _ _ _ _ Hl')].
    right; left. split; [done|]. by do 3 eexists.
Qed.

(** Processors started one after the other, each with its stack. *)
Inductive handover : list (nat * Z) -> machine -> machine -> Prop :=
  | ho_nil s : handover [] s s
  | ho_self l s s' : handover l (with_event (LapicR ID) s) s' -> handover l s s'
  | ho_start i stack l s s1 s' : launched s i stack s1 -> g_mp s1 = g_mp s -> handover l s1 s' -> handover ((i, stack) :: l) s s'.

Lemma handover_sent l s s' :
  handover l s s' -> exists tr, a_tr (g_ap s') = a_tr (g_ap s) ++ tr /\
    forall dest, sent dest (writes tr) = concat ((fun x => startup_messages (s_apicid (g_mp s) !!! x.1)) <$> l).
Proof.
  induction 1 as [s|l s s' _ (tr & Et & Hs)|i stack l s s1 s' [_ _ (tr1 & Et1 & Hs1) _] Em _ (tr & Et & Hs)].
  - exists []. by rewrite app_nil_r.
  - exists ([LapicR ID] ++ tr). split; [|done]. rewrite Et. unfold with_event, put_ap, get_ap. cbn. by rewrite <-app_assoc.
  - exists (tr1 ++ tr). rewrite Et, Et1, app_assoc. split; [done|]. intros dest. rewrite writes_app, sent_app, Hs1, Hs, Em. done.
Qed.

Lemma handover_code l s s' : handover l s s' -> forall a, P2V 0x7000 <= a -> k_mem (g_k s') a = k_mem (g_k s) a.
Proof.
  induction 1 as [s|l s s' _ IH|i stack l s s1 s' Hl _ _ IH]; intros a Ha; [done| |].
  - by rewrite IH.
  - rewrite IH by done. by apply (ln_code _ _ _ _ Hl).
Qed.

Lemma handover_other l s s' : handover l s s' -> forall i, i ∉ l.*1 -> g_cpus s' i = g_cpus s i /\ g_started s' i = g_started s i.
Proof.
  induction 1 as [s|l s s' _ IH|i stack l s s1 s' Hl _ _ IH]; intros j Hj; [done|by apply IH|].
  cbn in Hj. apply not_elem_of_cons in Hj as [Hj Hjl]. destruct (IH j Hjl) as [-> ->]. by apply (ln_rest _ _ _ _ Hl).
Qed.

Lemma handover_up l s s' : handover l s s' -> NoDup l.*1 -> forall i stack, (i, stack) ∈ l ->
  g_started s' i = true /\ g_cpus s' i = A_entered (V2P l_entrypgdir) (stack + KSTACKSIZE) (u32 l_mpenter).
Proof.
  induction 1 as [s|l s s' _ IH|i stack l s s1 s' Hl _ Hh IH]; intros Hnd j st Hj; [by apply not_elem_of_nil in Hj|by apply IH|].
  cbn in Hnd. apply NoDup_cons in Hnd as [Hi Hnd]. apply elem_of_cons in Hj as [[= -> ->]|Hj]; [|by apply IH].
  destruct (handover_other _ _ _ Hh i Hi) as [-> ->]. apply (ln_up _ _ _ _ Hl).
Qed.

Definition not_me (me i : nat) : Prop := i <> me.
#[local] Instance not_me_dec me i : Decision (not_me me i).
Proof. unfold not_me. apply _. Defined.

Lemma start_loop `{!LinkOk} me fuel pages is_ : forall s stacks,
  booting s me (stacks ++ pages) -> Forall (fun i => (i < s_ncpu (g_mp s))%nat /\ g_started s i = false) is_ -> NoDup is_ ->
  length stacks = length (filter (not_me me) is_) ->
  (forall i n, (i < s_ncpu (g_mp s))%nat -> (5 <= turns i (concat (moves <$> seq n fuel)))%nat) ->
  exists s', foreach is_ (start_one fuel) s = Ret tt s' /\ handover (zip (filter (not_me me) is_) stacks) s s' /\ booting s' me pages.
Proof.
  induction is_ as [|i is_ IH]; intros s stacks Hb Hlt Hnd Hlen Hup; cbn [foreach].
  - destruct stacks; [|done]. exists s. split; [done|]. split; [constructor|done].
  - apply Forall_cons in Hlt as [[Hi Hs] Hlt]. apply NoDup_cons in Hnd as [Hni Hnd]. destruct (decide (i = me)) as [->|Hne].
    + rewrite filter_cons_False in Hlen |- * by (unfold not_me; tauto).
      assert (start_one fuel me s = Ret tt (with_event (LapicR ID) s)) as E.
      { unfold start_one. cbv zeta. rewrite (bind_run _ _ _ _ _ (mycpu_run s me _ Hb)). by rewrite Nat.eqb_refl. }
      rewrite (bind_run _ _ _ _ _ E). destruct (IH (with_event (LapicR ID) s) stacks) as (s' & Hr & Hh & Hb'); [|done..|].
      { by apply booting_event. }
      exists s'. split; [exact Hr|]. split; [by constructor|done].
    + rewrite filter_cons_True in Hlen |- * by done. destruct stacks as [|stack stacks]; [done|].
      destruct (start_one_run s me stack (stacks ++ pages) fuel i) as (s1 & E & Hl & Hb1 & Emp); [done..|by intros n; apply Hup|].
      rewrite (bind_run _ _ _ _ _ E). destruct (IH s1 stacks) as (s' & Hr & Hh & Hb'); [done| |done|cbn in Hlen; lia|by rewrite Emp|].
      { rewrite Emp. rewrite Forall_forall in Hlt |- *. intros j Hj. destruct (Hlt j Hj) as [Hj1 Hj2]. split; [done|].
        rewrite <- Hj2. apply (ln_rest _ _ _ _ Hl). by intros ->. }
      exists s'. split; [exact Hr|]. split; [|done]. cbn [zip zip_with]. by apply ho_start with s1.
Qed.

Lemma others_count me n : (me < n)%nat -> S (length (filter (not_me me) (seq 0 n))) = n.
Proof.
  intros Hme. assert (seq 0 n = seq 0 me ++ [me] ++ seq (S me) (n - S me)) as ->.
  { replace n with (me + S (n - S me))%nat at 1 by lia. by rewrite seq_app. }
  rewrite !list.filter_app, !length_app.
  assert (filter (not_me me) [me] = []) as -> by (rewrite filter_cons_False by (unfold not_me; tauto); done).
  assert (forall a k, (me < a \/ a + k <= me)%nat -> filter (not_me me) (seq a k) = seq a k) as Hall.
  { intros a k Ha. apply filter_all, Forall_forall. intros x Hx%elem_of_seq. unfold not_me. lia. }
  rewrite !Hall by lia. cbn [length filter list_filter]. rewrite !length_seq. lia.
Qed.

(** C14: [startothers] copies the code of entryother.S to its page and starts
    every processor but the running one, in the order of the table, each by
    messages to it alone.  While it runs, the others take their steps at any
    time, and each takes five within the time the loop waits: then it returns,
    and every other processor has loaded the page directory, a stack that no
    other one has, and entered [mpenter], although all of them read these words
    from the same place. *)
Theorem startothers_correct `{!LinkOk} s me stacks pages fuel :
  booting s me (stacks ++ pages) -> (S (length stacks) = s_ncpu (g_mp s))%nat -> (forall i, g_started s i = false) ->
  (forall i n, (i < s_ncpu (g_mp s))%nat -> (5 <= turns i (concat (moves <$> seq n fuel)))%nat) ->
  0 <= entryother_size -> P2V 0x7000 + entryother_size <= KERNLINK ->
  exists s' tr,
    let others := filter (not_me me) (seq 0 (s_ncpu (g_mp s))) in
    startothers fuel s = Ret tt s' /\ booting s' me pages /\ NoDup stacks /\ length others = length stacks /\
    (forall k i stack, others !! k = Some i -> stacks !! k = Some stack ->
       g_started s' i = true /\ g_cpus s' i = A_entered (V2P l_entrypgdir) (stack + KSTACKSIZE) (u32 l_mpenter)) /\
    a_tr (g_ap s') = a_tr (g_ap s) ++ tr /\
    sent 0 (writes tr) = concat ((fun i => startup_messages (s_apicid (g_mp s) !!! i)) <$> others) /\
    forall i, 0 <= i < entryother_size -> k_mem (g_k s') (P2V 0x7000 + i) = k_mem (g_k s) (entryother_start + i).
Proof.
  intros Hb Hlen Hoff Hup Hsz Hend. unfold startothers. cbv zeta. set (m := memmove (k_mem (g_k s)) (P2V 0x7000) entryother_start entryother_size).
  set (s0 := set_g_k (set_k_mem m (g_k s)) s). set (is_ := seq 0 (s_ncpu (g_mp s))).
  assert (length (filter (not_me me) is_) = length stacks) as Hfl.
  { pose proof (lookup_lt_Some _ _ _ (bt_me _ _ _ Hb)) as Hme. rewrite length_take in Hme.
    pose proof (others_count me (s_ncpu (g_mp s)) ltac:(lia)). unfold is_. lia. }
  assert (booting s0 me (stacks ++ pages)) as Hb0.
  { destruct Hb. split; try done. apply low_memory; [done| |done]. intros a Ha. unfold m. rewrite memmove_spec by done.
    destruct (Z.ltb_spec a (P2V 0x7000 + entryother_size)); [lia|]. by rewrite andb_false_r. }
  destruct (start_loop me fuel pages is_ s0 stacks Hb0) as (s' & Hs & Hh & Hb'); [|apply NoDup_seq|done|done|].
  { apply Forall_forall. intros i Hi%elem_of_seq. cbn. split; [lia|apply Hoff]. }
  assert ((zip (filter (not_me me) is_) stacks).*1 = filter (not_me me) is_) as Hfst by (apply fst_zip; lia).
  destruct (handover_sent _ _ _ Hh) as (tr & Et & Hsent). exists s', tr. split_and!; [exact Hs|done| |done| |done| |].
  - destruct Hb as [_ _ _ _ _ _ _ [_ Hnd _] _]. by apply NoDup_app in Hnd as [Hnd _].
  - intros k i stack Hi Hst. eapply handover_up; [exact Hh|rewrite Hfst; apply NoDup_filter, NoDup_seq|].
    apply list_elem_of_lookup. exists k. by rewrite lookup_zip_with, Hi, Hst.
  - rewrite Hsent. f_equal. rewrite <- Hfst at 2. rewrite <- list_fmap_compose. done.
  - intros i Hi. rewrite (handover_code _ _ _ Hh) by lia. unfold s0. cbn [g_k set_g_k]. kproj. unfold m. rewrite memmove_spec by done.
    rewrite (proj2 (Z.leb_le _ _)), (proj2 (Z.ltb_lt _ _)) by lia. cbn [andb]. f_equal. lia.
Qed.

(** ** The serial port *)

Lemma uartputc_all l : forall k, k_uart k = true ->
  exists k', foreach l uartputc k = Ret tt k' /\ k_uart k' = true /\ k_out k' = k_out k ++ (u8 <$> l) /\ k_mem k' = k_mem k.
Proof.
  induction l as [|c l IH]; intros k Hk; cbn [foreach]; [exists k; by rewrite app_nil_r|].
  rewrite (bind_run _ _ _ _ _ (uartputc_run c k)), Hk. destruct (IH (set_k_out (k_out k ++ [u8 c]) k)) as (k' & H1 & H2 & H3 & H4); [done|].
  exists k'. split_and!; [done|done| |by rewrite H4]. rewrite H3. kproj. by rewrite <-app_assoc.
Qed.

Definition quiet_uart (s s' : machine) : Prop := k_uart (g_k s') = k_uart (g_k s) /\ k_out (g_k s') = k_out (g_k s).

Lemma outb_step port v s : exists s', in_ap (outb port v) s = Ret tt s' /\ quiet_uart s s'.
Proof. eexists. split; [apply zoom_run; reflexivity|]. done. Qed.
Lemma inb_step port s : exists v s', in_ap (inb port_in port) s = Ret v s' /\ quiet_uart s s'.
Proof. eexists _, _. split; [apply zoom_run; unfold inb; cbn [bind gets modify ret res_bind]; reflexivity|]. done. Qed.
Lemma enable_step s :
  exists s', in_ap (ioapicenable IRQ_COM1 0) s = Ret tt s' /\ quiet_uart s s' /\
    io_reg (g_ap s') (REG_TABLE + 2 * IRQ_COM1) = T_IRQ0 + IRQ_COM1.
Proof.
  eexists. split; [apply zoom_run; unfold ioapicenable; erewrite bind_run by apply ioapicwrite_run; apply ioapicwrite_run|].
  split; [done|]. cbn [g_ap put_ap io_reg set_io_reg set_io_sel]. rewrite upd_ne by done. apply upd_eq.
Qed.

Ltac quiet_step lem :=
  let s1 := fresh "s" in let E := fresh "E" in let Q := fresh "Q" in
  destruct lem as (s1 & E & Q); rewrite (bind_run _ _ _ _ _ E); clear E.

(** A serial port that is there is switched on, announces the kernel and has
    its interrupt enabled; one that is not is never used. *)
Lemma uartinit_spec s :
  exists s', uartinit s = Ret tt s' /\
    (quiet_uart s s' \/
     k_uart (g_k s') = true /\ k_out (g_k s') = k_out (g_k s) ++ (chars "xv6..." ++ [10]) /\
     io_reg (g_ap s') (REG_TABLE + 2 * IRQ_COM1) = T_IRQ0 + IRQ_COM1).
Proof.
  unfold uartinit. do 7 (match goal with |- context [bind (in_ap (outb ?p ?v)) _ ?t] => quiet_step (outb_step p v t) end).
  unfold quiet_uart in *. destruct (inb_step (COM1 + 5) s6) as (v & s7 & E & Q7). rewrite (bind_run _ _ _ _ _ E). clear E.
  destruct (v =? 0xFF).
  - exists s7. split; [done|]. left. unfold quiet_uart in *. destruct_and!. split; congruence.
  - erewrite bind_run by (apply zoom_run; reflexivity). set (s8 := set_g_k _ s7).
    destruct (inb_step (COM1 + 2) s8) as (v1 & s9 & E & Q9). rewrite (bind_run _ _ _ _ _ E). clear E.
    destruct (inb_step (COM1 + 0) s9) as (v2 & s10 & E & Q10). rewrite (bind_run _ _ _ _ _ E). clear E.
    destruct (enable_step s10) as (s11 & E & Q11 & Hio). rewrite (bind_run _ _ _ _ _ E). clear E. unfold quiet_uart in *.
    assert (k_uart (g_k s8) = true /\ k_out (g_k s8) = k_out (g_k s7)) as [U8 O8] by done. clearbody s8. destruct_and!.
    destruct (uartputc_all (chars "xv6..." ++ [10]) (g_k s11)) as (k' & Hrun & Hu & Ho & _); [congruence|].
    rewrite (in_k_run _ s11 tt k' Hrun). eexists. split; [reflexivity|]. right. cbn [g_k set_g_k g_ap]. rewrite Hu, Ho.
    split_and!; [done| |done]. change (u8 <$> chars "xv6..." ++ [10]) with (chars "xv6..." ++ [10]). congruence.
Qed.

(** ** main.c: the sequence *)

(** The entry points of the vectors. *)
Context `{Fuel} (vectors : nat -> Z).

Definition mpmain (passes : nat) (flag : Z) : M machine unit :=
  i <- cpuid ;;
  j <- cpuid ;;
  in_k (cprintf "cpu%d: starting %d
" [FInt i; FInt j]) ;;
  in_tb idtinit ;;
  me <- mycpu ;;
  modify (set_started me) ;;
  in_k (scheduler passes flag).

Definition mpenter (fuel passes : nat) (flag : Z) : M machine unit :=
  in_k switchkvm ;;
  in_tb seginit ;;
  in_ap (lapicinit lapic_reg fuel) ;;
  mpmain passes flag.

(** [pinit] and [fileinit] only name locks.  The messages of [ioapicinit] are
    kept with the controller. *)
Definition main (fuel passes : nat) (flag in23 disk_size : Z) (initcode : list Z) : M machine unit :=
  in_k (kinit1 l_end (P2V (4 * 1024 * 1024))) ;;
  in_k kvmalloc ;;
  in_mp (mpinit fuel in23) ;;
  in_ap (lapicinit lapic_reg fuel) ;;
  in_tb seginit ;;
  in_ap picinit ;;
  in_ap ioapicinit ;;
  in_k consoleinit ;;
  in_ap (ioapicenable IRQ_KBD 0) ;;
  uartinit ;;
  in_tb (tvinit vectors) ;;
  in_k binit ;;
  in_k (ideinit disk_size) ;;
  startothers fuel ;;
  in_k (kinit2 (P2V (4 * 1024 * 1024)) (P2V PHYSTOP)) ;;
  in_k (userinit initcode) ;;
  mpmain passes flag.

End main.

(** ** The first page directory *)

(** The physical address of [va] under a directory of 4 megabyte pages. *)
Definition translate (pgdir : Z -> Z) (va : Z) : option Z :=
  let pde := pgdir (PDX va) in
  if (Z.land pde PTE_P =? 0) || (Z.land pde PTE_PS =? 0) then None else Some (Z.shiftl (Z.shiftr pde 22) 22 + va mod 2 ^ 22).

(** [entrypgdir] maps the first 4 megabytes of memory at their own
    addresses and at KERNBASE, and nothing else: the kernel runs on when paging
    is switched on, and after it has jumped to its high addresses. *)
Theorem entrypgdir_maps va :
  0 <= va < 2 ^ 32 ->
  translate entrypgdir va =
    if va <? 2 ^ 22 then Some va else if (KERNBASE <=? va) && (va <? KERNBASE + 2 ^ 22) then Some (V2P va) else None.
Proof.
  intros Hva. unfold translate, PDX. assert (Z.land (Z.shiftr va 22) 0x3FF = va / 2 ^ 22) as ->.
  { rewrite Z.shiftr_div_pow2 by done. change 0x3FF with (Z.ones 10). rewrite Z.land_ones by done. apply Z.mod_small. Z.div_mod_to_equations; lia. }
  unfold entrypgdir, V2P, KERNBASE, PTE_P, PTE_W, PTE_PS. change (Z.shiftr 0x80000000 22) with 512.
  pose proof (Z.div_mod va (2 ^ 22) ltac:(lia)) as Hd. pose proof (Z.mod_pos_bound va (2 ^ 22) ltac:(lia)) as Hm. change (2 ^ 22) with 4194304 in *.
  destruct (Z.eqb_spec (va / 4194304) 0) as [E|E]; cbn [orb].
  - rewrite (proj2 (Z.ltb_lt _ _)) by lia. change (Z.shiftl _ 22) with 0. cbn [Z.land Z.eqb orb]. f_equal. lia.
  - rewrite (proj2 (Z.ltb_ge va _)) by lia. destruct (Z.eqb_spec (va / 4194304) 512) as [E2|E2].
    + rewrite (proj2 (Z.leb_le _ _)), (proj2 (Z.ltb_lt _ _)) by lia. change (Z.shiftl _ 22) with 0. cbn [Z.land Z.eqb orb andb].
      rewrite u32_small by lia. f_equal. lia.
    + destruct (Z.leb_spec 0x80000000 va), (Z.ltb_spec va (0x80000000 + 4194304)); cbn; try done. lia.
Qed.

Lemma entrypgdir_maps_witness : translate entrypgdir 0x80101234 = Some 0x101234.
Proof. exact (entrypgdir_maps 0x80101234 ltac:(lia)). Defined.

(** ** The theorem on a small machine *)

#[local] Existing Instance demo_link.
#[local] Existing Instance demo_link_ok.

(** Three processors, the second one running; none of the others is up. *)
Definition demo_machine : machine :=
  MkMachine demo_free (MkMps (fun _ => 0) [4; 0; 9; 0; 0; 0; 0; 0] 3 2 0xFEE00000 [])
    (MkApic 0xFEE00000 (fun _ => 0) [] 0 (fun _ => 0) 2 []) (MkTables [] (MkTs 0 0 0) [] 0 0 0) false
    (fun _ => A_off) (fun _ => false) 0.

(** All of them move at every point. *)
Lemma startothers_correct_witness :
  exists s', startothers (fun _ _ => 0) 0x8010A000 138 0x80103000 0x80109000 (fun _ => [2; 0; 1])%nat 5 demo_machine = Ret tt s' /\
    (g_started s' 2 = true /\ g_cpus s' 2 = A_entered 0x109000 0x80301000 0x80103000) /\
    exists tr, a_tr (g_ap s') = tr /\ sent 0 (writes tr) = startup_messages 4 ++ startup_messages 9.
Proof.
  destruct (startothers_correct (fun _ _ => 0) 0x8010A000 138 0x80103000 0x80109000 (fun _ => [2; 0; 1])%nat 0 (fun _ => eq_refl)
    demo_machine 1 [0x80200000; 0x80300000] [] 5) as (s' & tr & H1 & _ & _ & _ & H2 & H3 & H4 & _).
  - split.
    + reflexivity.
    + done.
    + repeat constructor; by vm_compute.
    + cbn. lia.
    + repeat (apply NoDup_cons; split; [rewrite ?not_elem_of_cons; repeat split; try done; apply not_elem_of_nil|]). apply NoDup_nil_2.
    + reflexivity.
    + apply not_elem_of_nil.
    + exact demo_free_ok.
    + intros j. right. right. done.
  - reflexivity.
  - reflexivity.
  - intros [|[|[|i]]] n Hi; [apply Nat.leb_le; reflexivity..|cbn in Hi; lia].
  - lia.
  - by vm_compute.
  - exists s'. split; [exact H1|]. split; [exact (H2 1%nat 2%nat 0x80300000 eq_refl eq_refl)|].
    exists tr. split; [exact H3|exact H4].
Defined.
