(* ===== verification/Mkfs.v ===== *)
(** * Making a file system image (mkfs.c)

    mkfs runs on the host and writes the image file block by block; its state
    is the image file, a list of blocks, and the next free inode and block.
    The files to store are given by their names and by what the host's [read]
    returns for them.  A failed [assert] or a sector that cannot be read ends
    the program and is a panic; the host is little-endian, its [open], [lseek]
    and [write] succeed.

    The image is read with the functions of the kernel's file system (Inode,
    Fs).  What mkfs promises is stated with a list of files: [ialloc] adds an
    empty file, [iappend] appends to one, and the image represents the list. *)

From stdpp Require Import base numbers list option strings sets.
From S2P Require Import Prelude Kernel Fields Cprintf Cstring Bytes Sleeplock Bio Log Txn Inode Fs.

Definition NINODES : Z := 200.
Definition nbitmap : Z := FSSIZE / (BSIZE * 8) + 1.
Definition ninodeblocks : Z := NINODES / IPB + 1.
Definition nlog : Z := LOGSIZE.
Definition nmeta : Z := 2 + nlog + ninodeblocks + nbitmap.
Definition nblocks : Z := FSSIZE - nmeta.

(** [fsfd], [freeinode] and [freeblock]. *)
Record mk := MkMk {
  fsfd : list block;
  freeinode : Z;
  freeblock : Z;
}.

Abbreviation Host := (M mk).

(** ** The code *)

Definition xshort (x : Z) : Z := le_decode [u8 x; u8 (Z.shiftr x 8)].
Definition xint (x : Z) : Z := le_decode [u8 x; u8 (Z.shiftr x 8); u8 (Z.shiftr x 16); u8 (Z.shiftr x 24)].

(** The super block that [main] fills in, and its bytes. *)
Definition mksb : superblock :=
  mksuperblock (xint FSSIZE) (xint nblocks) (xint NINODES) (xint nlog) (xint 2) (xint (2 + nlog))
    (xint (2 + nlog + ninodeblocks)).
Definition sb_bytes (sb : superblock) : list Z :=
  mjoin (le_encode 4 <$> [sb_size sb; sb_nblocks sb; sb_ninodes sb; sb_nlog sb; sb_logstart sb;
    sb_inodestart sb; sb_bmapstart sb]).

Definition assert (b : bool) : Host unit := if b then ret tt else panic "assert".

(** The block of the image at the byte [sec * BSIZE]. *)
Definition sector (sec : Z) : nat := Z.to_nat (u32 (sec * BSIZE) / BSIZE).

(** A write past the end makes the file longer; a read past the end fails. *)
Definition wsect (sec : Z) (buf : block) : Host unit :=
  modify (fun s =>
    let n := sector sec in let l := fsfd s in
    MkMk (if (n <? length l)%nat then <[n := buf]> l else l ++ replicate (n - length l) zero_block ++ [buf])
      (freeinode s) (freeblock s)).

Definition rsect (sec : Z) : Host block := fun s =>
  match fsfd s !! sector sec with
  | Some buf => Ret buf s
  | None => Panic "read"
  end.

(** [freeinode++] and [freeblock++] *)
Definition next_inode : Host Z := fun s => Ret (freeinode s) (MkMk (fsfd s) (u32 (freeinode s + 1)) (freeblock s)).
Definition next_block : Host Z := fun s => Ret (freeblock s) (MkMk (fsfd s) (freeinode s) (u32 (freeblock s + 1))).

Definition winode (inum : Z) (ip : dinode) : Host unit :=
  let bn := IBLOCK inum mksb in
  buf <- rsect bn ;;
  wsect bn (put_dinode buf (dinode_off inum) ip).

Definition rinode (inum : Z) : Host dinode :=
  let bn := IBLOCK inum mksb in
  buf <- rsect bn ;;
  ret (get_dinode buf (dinode_off inum)).

Definition ialloc (type : Z) : Host Z :=
  inum <- next_inode ;;
  winode inum (mkdinode (xshort type) 0 0 (xshort 1) (xint 0) (replicate 13 0)) ;;
  ret inum.

(** The loop that sets the bits of the first [used] blocks. *)
Fixpoint set_bits (used : nat) (buf : block) : block :=
  match used with
  | O => buf
  | S i => bit_set (set_bits i buf) i
  end.

Definition balloc (used : Z) : Host unit :=
  assert (used <? BSIZE * 8) ;;
  wsect (sb_bmapstart mksb) (set_bits (Z.to_nat used) zero_block).

(** The block [x] for block [fbn] of the file, and the new addresses. *)
Definition file_block (fbn : Z) (addrs : list Z) : Host (Z * list Z) :=
  if fbn <? NDIRECT then
    let k := Z.to_nat fbn in
    addrs <- (if xint (addrs !!! k) =? 0 then
                b <- next_block ;; ret (<[k := xint b]> addrs)
              else ret addrs) ;;
    ret (xint (addrs !!! k), addrs)
  else
    let nd := Z.to_nat NDIRECT in
    let k := Z.to_nat (fbn - NDIRECT) in
    addrs <- (if xint (addrs !!! nd) =? 0 then
                b <- next_block ;; ret (<[nd := xint b]> addrs)
              else ret addrs) ;;
    indirect <- rsect (xint (addrs !!! nd)) ;;
    indirect <- (if get32 indirect k =? 0 then
                   b <- next_block ;;
                   let indirect := set32 indirect k (xint b) in
                   wsect (xint (addrs !!! nd)) indirect ;; ret indirect
                 else ret indirect) ;;
    ret (xint (get32 indirect k), addrs).

(** The loop of [iappend]; each round takes at least one byte of [p]. *)
Fixpoint iappend_loop (fuel : nat) (addrs : list Z) (off : Z) (p : list Z) : Host (list Z * Z) :=
  let n := Z.of_nat (length p) in
  if negb (0 <? n) then ret (addrs, off) else
  match fuel with
  | O => out_of_fuel
  | S fuel' =>
      let fbn := off / BSIZE in
      assert (fbn <? MAXFILE) ;;
      r <- file_block fbn addrs ;;
      let '(x, addrs) := r in
      let n1 := Z.min n ((fbn + 1) * BSIZE - off) in
      buf <- rsect x ;;
      wsect x (splice buf (Z.to_nat (off - fbn * BSIZE)) (take (Z.to_nat n1) p)) ;;
      iappend_loop fuel' addrs (u32 (off + n1)) (drop (Z.to_nat n1) p)
  end.

Definition iappend (inum : Z) (p : list Z) : Host unit :=
  din <- rinode inum ;;
  r <- iappend_loop (length p) (di_addrs din) (xint (di_size din)) p ;;
  let '(addrs, off) := r in
  winode inum (mkdinode (di_type din) (di_major din) (di_minor din) (di_nlink din) (xint off) addrs).

(** A name given on the command line, and what the reads of the file return. *)
Abbreviation input_file := (list Z * list (list Z))%type.

(** [while((cc = read(fd, buf, sizeof(buf))) > 0)] *)
Fixpoint copy_file (inum : Z) (reads : list (list Z)) : Host unit :=
  match reads with
  | [] | [] :: _ => ret tt
  | buf :: reads' => iappend inum buf ;; copy_file inum reads'
  end.

Definition skip_underscore (name : list Z) : list Z :=
  match name with
  | 95 :: name' => name'
  | _ => name
  end.

Definition add_file (rootino : Z) (f : input_file) : Host unit :=
  let '(name, reads) := f in
  assert (negb (bool_decide (47 ∈ name))) ;;
  let name := skip_underscore name in
  inum <- ialloc T_FILE ;;
  iappend rootino (dirent_bytes (mkdirent (xshort inum) (strncpy (arr name) (Z.to_nat DIRSIZ)))) ;;
  copy_file inum reads.

(** An entry whose name is set with [strcpy]. *)
Definition dot_entry (inum : Z) (name : list Z) : list Z :=
  dirent_bytes (mkdirent (xshort inum) (overlay (name ++ [0]) (replicate (Z.to_nat DIRSIZ) 0))).

(** [main], when the image file has been opened; [files] are the arguments
    after it. *)
Definition main (files : list input_file) : Host unit :=
  modify (fun s => MkMk (fsfd s) (freeinode s) nmeta) ;;
  foreach (seq 0 (Z.to_nat FSSIZE)) (fun i => wsect (Z.of_nat i) zero_block) ;;
  wsect 1 (splice zero_block 0 (sb_bytes mksb)) ;;
  rootino <- ialloc T_DIR ;;
  assert (rootino =? ROOTINO) ;;
  iappend rootino (dot_entry rootino [46]) ;;
  iappend rootino (dot_entry rootino [46; 46]) ;;
  foreach files (add_file rootino) ;;
  din <- rinode rootino ;;
  let off := xint (di_size din) in
  let off := u32 ((off / BSIZE + 1) * BSIZE) in
  winode rootino (mkdinode (di_type din) (di_major din) (di_minor din) (di_nlink din) (xint off) (di_addrs din)) ;;
  b <- gets freeblock ;;
  balloc (i32 b).

(** The state in which [main] begins: the image has just been truncated. *)
Definition mk_start : mk := MkMk [] 1 0.

(** ** The image as the kernel sees it *)

Lemma mksb_is : mksb = demo_sb.
Proof. reflexivity. Qed.

(** The kernel functions on this disk; [demo_fs] has the same super block. *)
Lemma mk_geo : fs_geo demo_fs.
Proof. exact demo_fs_geo. Qed.

Lemma xint_id x : 0 <= x < 2 ^ 32 -> xint x = x.
Proof.
  intros Hx. unfold xint, u8. cbn [le_decode]. rewrite !Z.shiftr_div_pow2 by lia.
  change (2 ^ 8) with 256. change (2 ^ 16) with 65536. change (2 ^ 24) with 16777216. change (2 ^ 32) with 4294967296 in Hx.
  Z.div_mod_to_equations; lia.
Qed.

Lemma xshort_id x : 0 <= x < 2 ^ 16 -> xshort x = x.
Proof.
  intros Hx. unfold xshort, u8. cbn [le_decode]. rewrite !Z.shiftr_div_pow2 by lia.
  change (2 ^ 8) with 256. change (2 ^ 16) with 65536 in *. Z.div_mod_to_equations; lia.
Qed.

Lemma sector_small n : 0 <= n < 1000 -> sector n = Z.to_nat n.
Proof. intros Hn. unfold sector, BSIZE. rewrite u32_small by lia. by rewrite Z.div_mul. Qed.

Lemma set_bits_ok n d : block_ok d -> block_ok (set_bits n d).
Proof. intros Hd. induction n as [|n IH]; [done|]. by apply bit_set_ok. Qed.

Lemma bit_test_zero j : (j < 4096)%nat -> bit_test zero_block j = false.
Proof.
  intros Hj. rewrite bit_test_bit. assert (zero_block !!! bit_byte j = 0) as ->; [|apply Z.testbit_0_l].
  apply lookup_total_replicate_2. by apply (bit_byte_lt zero_block), Hj; apply zero_block_ok.
Qed.

Lemma bit_test_bits n j : (n <= 4096)%nat -> (j < 4096)%nat -> bit_test (set_bits n zero_block) j = (j <? n)%nat.
Proof.
  intros Hn Hj. induction n as [|n IH]; [by apply bit_test_zero|]. cbn [set_bits].
  rewrite bit_test_set, IH by (lia || (apply bit_byte_lt; [apply set_bits_ok, zero_block_ok|lia])).
  case_bool_decide; destruct (Nat.ltb_spec j n), (Nat.ltb_spec j (S n)); simpl; lia || done.
Qed.

(** The blocks [V] of the finished file system: those of the image, and the
    bitmap that [balloc] is going to write.  No block from [freeblock] on has
    been written. *)
Record view (s : mk) (V : Z -> block) : Prop := {
  vw_len : length (fsfd s) = 1000%nat;
  vw_img : forall n, 0 <= n < 1000 -> n <> 58 -> fsfd s !! Z.to_nat n = Some (V n);
  vw_map : V 58 = set_bits (Z.to_nat (freeblock s)) zero_block;
  vw_blk : forall n, block_ok (V n);
  vw_free : 59 <= freeblock s <= 1000;
  vw_zero : forall n, freeblock s <= n -> V n = zero_block;
}.

Lemma view_used s V c : view s V -> 0 <= c < 1000 -> used V mksb c = (c <? freeblock s).
Proof.
  intros Hv Hc. pose proof (vw_free _ _ Hv). unfold used.
  destruct (BBLOCK_spec demo_fs c mk_geo ltac:(exact Hc)) as [E _]. change (k_sb demo_fs) with mksb in E.
  rewrite E. change BPB with 4096. rewrite Z.div_small, Z.mod_small by lia.
  change (sb_bmapstart mksb + 0) with 58. rewrite (vw_map _ _ Hv), bit_test_bits by lia.
  destruct (Z.ltb_spec c (freeblock s)), (Nat.ltb_spec (Z.to_nat c) (Z.to_nat (freeblock s))); lia || done.
Qed.

Lemma view_nfree s V : view s V -> nfree V mksb = Z.to_nat (1000 - freeblock s).
Proof.
  intros Hv. pose proof (vw_free _ _ Hv). unfold nfree. change (sb_size mksb) with 1000.
  replace 1000 with (freeblock s + (1000 - freeblock s)) at 1 by lia.
  rewrite seqZ_app, list.filter_app, length_app by lia. rewrite Z.add_0_l.
  rewrite (filter_none _ (seqZ 0 _)), (filter_all _ (seqZ (freeblock s) _)).
  - by rewrite length_seqZ.
  - apply Forall_forall. intros c Hc%elem_of_seqZ. rewrite (view_used s V) by (done || lia). apply Z.ltb_ge. lia.
  - apply Forall_forall. intros c Hc%elem_of_seqZ. rewrite (view_used s V) by (done || lia). rewrite (proj2 (Z.ltb_lt _ _)) by lia. done.
Qed.

Lemma view_bitmap s V : view s V -> bitmap_ok V mksb.
Proof.
  intros Hv c Hc. change (sb_size mksb) with 1000 in Hc. rewrite (view_used s V) by done. intros Hf%Z.ltb_ge.
  pose proof (vw_free _ _ Hv). change (data_start mksb) with 59. lia.
Qed.

Section view.
Context (s : mk) (V : Z -> block) (Hv : view s V).

Lemma rsect_run n : 0 <= n < 1000 -> n <> 58 -> rsect n s = Ret (V n) s.
Proof. intros Hn H58. unfold rsect. rewrite sector_small, (vw_img _ _ Hv) by done. done. Qed.

Lemma wsect_spec n d (Q : unit -> mk -> Prop) :
  0 <= n < freeblock s -> n <> 58 -> block_ok d ->
  (forall s', view s' (bset V n d) -> freeinode s' = freeinode s -> freeblock s' = freeblock s -> Q tt s') ->
  wp (wsect n d) s Q.
Proof.
  intros Hn H58 Hd HQ. pose proof (vw_free _ _ Hv). pose proof (vw_len _ _ Hv) as Hl.
  eapply wp_run; [reflexivity|]. cbv zeta. rewrite sector_small, (proj2 (Nat.ltb_lt (Z.to_nat n) _)) by lia.
  apply HQ; [|done..]. split; cbn [fsfd freeblock].
  - by rewrite length_insert.
  - intros m Hm Hm58. destruct (decide (m = n)) as [->|Hne].
    + rewrite bset_eq. apply list_lookup_insert_eq. lia.
    + rewrite bset_ne by done. rewrite list_lookup_insert_ne by lia. by apply Hv.
  - rewrite bset_ne by done. apply Hv.
  - intros m. unfold bset. case_match; [done|apply Hv].
  - done.
  - intros m Hm. rewrite bset_ne by lia. by apply Hv.
Qed.

Lemma next_block_spec (Q : Z -> mk -> Prop) :
  freeblock s < 1000 ->
  (forall s' V', view s' V' -> alloced mksb V (freeblock s) V' -> freeinode s' = freeinode s ->
     freeblock s' = freeblock s + 1 -> Q (freeblock s) s') ->
  wp next_block s Q.
Proof.
  intros Hfb HQ. pose proof (vw_free _ _ Hv). eapply wp_run; [reflexivity|].
  rewrite u32_small by lia. set (s' := MkMk _ _ _). set (V' := bset V 58 (set_bits (Z.to_nat (freeblock s')) zero_block)).
  assert (view s' V') as Hv'.
  { split; unfold V'; cbn [s' fsfd freeblock]; try lia; [apply Hv| |by rewrite bset_eq| |].
    - intros n Hn H58. rewrite bset_ne by done. by apply Hv.
    - intros n. unfold bset. case_match; [apply set_bits_ok, zero_block_ok|apply Hv].
    - intros n Hn. rewrite bset_ne by lia. apply Hv. lia. }
  apply (HQ s' V'); try done. split; change (data_start mksb) with 59; change (sb_size mksb) with 1000; try lia.
  - rewrite (view_used s V) by (done || lia). apply Z.ltb_irrefl.
  - unfold V'. rewrite bset_ne by lia. apply Hv. lia.
  - intros c Hc. rewrite (view_used s V), (view_used s' V') by done. cbn [s' freeblock].
    case_bool_decide; destruct (Z.ltb_spec c (freeblock s + 1)), (Z.ltb_spec c (freeblock s)); simpl; lia || done.
  - intros n Hn Hne. unfold V'. rewrite bset_ne; [done|]. change (sb_bmapstart mksb) with 58 in Hne. lia.
  - by apply (view_bitmap s').
  - rewrite (view_nfree s V), (view_nfree s' V') by done. cbn [s' freeblock]. lia.
Qed.

End view.

(** ** Appending to a file *)

(** The blocks of a file of [sz] bytes, its indirect block among them. *)
Definition nblk (sz : Z) : Z := (sz + 511) / 512 + (if 12 * 512 <? sz then 1 else 0).

(** No more blocks than needed. *)
Definition tight (V : Z -> block) (a : list Z) (sz : Z) : Prop :=
  (forall k, (k < 140)%nat -> baddr V a k <> 0 -> Z.of_nat k * 512 < sz) /\ (a !!! 12%nat <> 0 -> 12 * 512 < sz).

Lemma file_addr V a sz k :
  file_ok V mksb a sz -> (k <= 12)%nat -> xint (a !!! k) = a !!! k /\ (a !!! k <> 0 -> 59 <= a !!! k < 1000).
Proof.
  intros Hf Hk. assert (a !!! k <> 0 -> 59 <= a !!! k < 1000) as Hr.
  { intros H0. destruct (decide (k = 12%nat)) as [->|].
    - exact (proj1 (fo_ind _ _ _ _ Hf H0)).
    - assert (baddr V a k = a !!! k) as E by (unfold baddr; by rewrite (proj2 (Nat.ltb_lt _ _)) by lia).
      rewrite <- E in *. exact (proj1 (fo_data _ _ _ _ Hf k ltac:(lia) H0)). }
  split; [|done]. apply xint_id. destruct (decide (a !!! k = 0)) as [->|H0]; [done|]. specialize (Hr H0). lia.
Qed.

Lemma tight_bmapped V a off bn r V' a' :
  tight V a off -> bmapped mksb V a off bn r V' a' -> bn = Z.to_nat (off / 512) -> 0 <= off ->
  (a' !!! 12%nat <> 0 -> a !!! 12%nat <> 0 \/ (12 <= bn)%nat) -> tight V' a' (off + 1).
Proof.
  intros [Ht1 Ht2] Hm Ebn Ho H12. split.
  - intros k Hk H0. destruct (decide (k = bn)) as [->|Hne].
    + subst. Z.div_mod_to_equations; lia.
    + rewrite (bm_others _ _ _ _ _ _ _ _ Hm) in H0 by done. specialize (Ht1 k Hk H0). lia.
  - intros H0. destruct (H12 H0) as [H1|H1]; [specialize (Ht2 H1); lia|]. subst. Z.div_mod_to_equations; lia.
Qed.

(** The block of the file is there exactly when some of its bytes are. *)
Lemma tight_mapped V a off :
  file_ok V mksb a off -> tight V a off -> 0 <= off < 71680 ->
  baddr V a (Z.to_nat (off / 512)) = 0 <-> off mod 512 = 0.
Proof.
  intros Hf [Ht _] Ho. assert (Z.to_nat (off / 512) < 140)%nat as Hk by (Z.div_mod_to_equations; lia). split.
  - intros H0. destruct (decide (off mod 512 = 0)); [done|]. exfalso.
    apply (fo_mapped _ _ _ _ Hf (Z.to_nat (off / 512)) Hk); [|done]. unfold BSIZE. Z.div_mod_to_equations; lia.
  - intros Hm. destruct (decide (baddr V a (Z.to_nat (off / 512)) = 0)) as [|H0]; [done|].
    specialize (Ht _ Hk H0). Z.div_mod_to_equations; lia.
Qed.

Lemma tight_indirect V a off :
  file_ok V mksb a off -> tight V a off -> a !!! 12%nat = 0 <-> off <= 12 * 512.
Proof.
  intros Hf [_ Ht]. split.
  - intros H0. destruct (Z.le_gt_cases off (12 * 512)) as [|Hlt]; [done|].
    exfalso. apply (fo_mapped _ _ _ _ Hf 12%nat); [lia|unfold BSIZE; lia|]. unfold baddr. by rewrite H0.
  - intros Hle. destruct (decide (a !!! 12%nat = 0)) as [|H0]; [done|]. specialize (Ht H0). lia.
Qed.

(** One more byte. *)
Lemma nblk_succ off :
  0 <= off -> nblk (off + 1) = nblk off + (if off mod 512 =? 0 then 1 else 0) + (if off =? 12 * 512 then 1 else 0).
Proof.
  intros Ho. unfold nblk.
  destruct (Z.eqb_spec (off mod 512) 0), (Z.eqb_spec off (12 * 512)), (Z.ltb_spec (12 * 512) (off + 1)), (Z.ltb_spec (12 * 512) off);
    Z.div_mod_to_equations; lia.
Qed.

(** The entry of the indirect block. *)
Lemma entry_spec s V a sz (bn : nat) (Q : Z * list Z -> mk -> Prop) :
  view s V -> file_ok V mksb a sz -> a !!! 12%nat <> 0 -> (12 <= bn < 140)%nat ->
  (baddr V a bn = 0 -> freeblock s < 1000) ->
  (forall r s' V', view s' V' -> bmapped mksb V a sz bn r V' a -> freeinode s' = freeinode s ->
     freeblock s' = freeblock s + (if baddr V a bn =? 0 then 1 else 0) -> Q (r, a) s') ->
  wp (indirect <- rsect (xint (a !!! 12%nat)) ;;
      indirect <- (if get32 indirect (bn - 12) =? 0 then
                     b <- next_block ;;
                     let indirect := set32 indirect (bn - 12) (xint b) in
                     wsect (xint (a !!! 12%nat)) indirect ;; ret indirect
                   else ret indirect) ;;
      ret (xint (get32 indirect (bn - 12)), a)) s Q.
Proof.
  intros Hv Hf H12 Hbn Hfree HQ. destruct (file_addr V a sz 12 Hf ltac:(lia)) as [-> Hr]. specialize (Hr H12).
  set (i := a !!! 12%nat) in *. assert (baddr V a bn = get32 (V i) (bn - 12)) as Eb.
  { unfold baddr. fold i. rewrite (proj2 (Nat.ltb_ge _ _)) by lia. by rewrite (proj2 (Z.eqb_neq _ _) H12). }
  apply wp_bind. eapply wp_run; [apply (rsect_run s V Hv); lia|]. rewrite <- Eb in *.
  pose proof (vw_blk _ _ Hv i) as Hi. apply wp_bind. destruct (Z.eqb_spec (baddr V a bn) 0) as [H0|H0].
  - pose proof (vw_free _ _ Hv). specialize (Hfree H0).
    apply wp_bind, (next_block_spec s V Hv); [done|]. intros s1 V1 Hv1 Ha Ei1 Eb1. rewrite xint_id by lia.
    assert (V1 i = V i) as Ei.
    { apply (data_kept mksb ltac:(done) _ _ _ _ Ha), (fo_ind _ _ _ _ Hf H12). }
    cbv zeta. pose proof (fo_ind _ _ _ _ Hf H12) as [_ Hui]. fold i in Hui. rewrite (view_used s V) in Hui by (done || lia).
    apply Z.ltb_lt in Hui. apply wp_bind, (wsect_spec s1 V1 Hv1); [lia|lia|apply set32_ok; [lia|done]|].
    intros s2 Hv2 Ei2 Eb2. apply wp_ret, wp_ret. destruct Hi as [Hil _].
    rewrite get32_set32_eq, xint_id by lia. eapply (HQ _ s2 _ Hv2); [|congruence|lia].
    rewrite <- Ei. exact (bmapped_entry demo_fs V a sz bn _ V1 mk_geo Hf Hbn H12 H0 Ha (vw_blk _ _ Hv i)).
  - apply wp_ret, wp_ret. rewrite <- Eb. pose proof (fo_data _ _ _ _ Hf bn ltac:(lia) H0) as [Hb _].
    change (data_start mksb) with 59 in Hb. change (sb_size mksb) with 1000 in Hb.
    rewrite xint_id by lia. apply (HQ _ s V Hv); [|done|lia]. apply bmapped_hit; [done|done|by apply (view_bitmap s)].
Qed.

(** The state after block [off / 512] of the file has been looked for. *)
Definition block_found s V a off : Z * list Z -> mk -> Prop := fun '(r, a') s' =>
  exists V', view s' V' /\ bmapped mksb V a off (Z.to_nat (off / 512)) r V' a' /\ tight V' a' (off + 1) /\
    freeinode s' = freeinode s /\ freeblock s' = freeblock s + (nblk (off + 1) - nblk off).

Lemma direct_spec s V a off :
  view s V -> file_ok V mksb a off -> tight V a off -> 0 <= off < 12 * 512 ->
  freeblock s + (nblk (off + 1) - nblk off) <= 1000 ->
  wp (file_block (off / 512) a) s (block_found s V a off).
Proof.
  intros Hv Hf Ht Ho Hfree. set (k := Z.to_nat (off / 512)). pose proof (vw_free _ _ Hv) as Hfb.
  assert (k < 12)%nat as Hk by (unfold k; Z.div_mod_to_equations; lia).
  assert (baddr V a k = a !!! k) as Eb by (unfold baddr; by rewrite (proj2 (Nat.ltb_lt _ _)) by lia).
  pose proof (tight_mapped V a off Hf Ht ltac:(lia)) as Hmap. fold k in Hmap. rewrite Eb in Hmap.
  rewrite nblk_succ in Hfree by lia. unfold file_block. change NDIRECT with 12.
  destruct (Z.ltb_spec (off / 512) 12) as [Hlt|]; [|Z.div_mod_to_equations; lia].
  cbv zeta. fold k. destruct (file_addr V a off k Hf ltac:(lia)) as [Ex _]. rewrite Ex.
  pose proof (fo_len _ _ _ _ Hf) as Hl. destruct (Z.eqb_spec (a !!! k) 0) as [H0|H0].
  - rewrite (proj2 (Z.eqb_eq (off mod 512) 0)) in Hfree by tauto.
    apply wp_bind, wp_bind, (next_block_spec s V Hv); [destruct (off =? _); lia|].
    intros s1 V1 Hv1 Ha Ei1 Eb1. rewrite xint_id by lia. apply wp_ret, wp_ret.
    rewrite list_lookup_total_insert_eq, xint_id by lia.
    pose proof (bmapped_direct demo_fs V a off k _ V1 mk_geo Hf Hk ltac:(congruence) Ha : bmapped mksb _ _ _ _ _ _ _) as Hm.
    exists V1. split_and!; [done|done| |done|].
    + apply (tight_bmapped V a off k _ V1 _ Ht Hm eq_refl); [lia|]. rewrite list_lookup_total_insert_ne by lia. tauto.
    + rewrite Eb1, nblk_succ, (proj2 (Z.eqb_eq (off mod 512) 0)), (proj2 (Z.eqb_neq off _)) by (tauto || lia). lia.
  - apply wp_bind, wp_ret, wp_ret. rewrite Ex.
    assert (bmapped mksb V a off k (a !!! k) V a) as Hm
      by (rewrite <- Eb in *; apply bmapped_hit; [done|done|by apply (view_bitmap s)]).
    exists V. split_and!; [done|done| |done|].
    + apply (tight_bmapped V a off k _ V _ Ht Hm eq_refl); [lia|tauto].
    + rewrite nblk_succ, (proj2 (Z.eqb_neq (off mod 512) 0)), (proj2 (Z.eqb_neq off _)) by (tauto || lia). lia.
Qed.

Lemma indirect_spec s V a off :
  view s V -> file_ok V mksb a off -> tight V a off -> 12 * 512 <= off < 71680 ->
  freeblock s + (nblk (off + 1) - nblk off) <= 1000 ->
  wp (file_block (off / 512) a) s (block_found s V a off).
Proof.
  intros Hv Hf Ht Ho Hfree. set (k := Z.to_nat (off / 512)). pose proof (vw_free _ _ Hv) as Hfb.
  assert (12 <= k < 140)%nat as Hk by (unfold k; Z.div_mod_to_equations; lia).
  pose proof (tight_mapped V a off Hf Ht ltac:(lia)) as Hmap. fold k in Hmap.
  pose proof (tight_indirect V a off Hf Ht) as Hind.
  assert (nblk (off + 1) - nblk off = (if baddr V a k =? 0 then 1 else 0) + (if a !!! 12%nat =? 0 then 1 else 0)) as En.
  { rewrite nblk_succ by lia. destruct (Z.eqb_spec (baddr V a k) 0), (Z.eqb_spec (a !!! 12%nat) 0),
      (Z.eqb_spec (off mod 512) 0), (Z.eqb_spec off (12 * 512)); tauto || lia. }
  unfold block_found. rewrite En in *. unfold file_block. change NDIRECT with 12.
  destruct (Z.ltb_spec (off / 512) 12) as [|Hge]; [Z.div_mod_to_equations; lia|].
  cbv zeta. replace (Z.to_nat (off / 512 - 12)) with (k - 12)%nat by (unfold k; lia). change (Z.to_nat 12) with 12%nat.
  rewrite (proj1 (file_addr V a off 12 Hf ltac:(lia))). pose proof (fo_len _ _ _ _ Hf) as Hl.
  destruct (Z.eqb_spec (a !!! 12%nat) 0) as [H12|H12].
  - assert (baddr V a k = 0) as H0 by (unfold baddr; rewrite (proj2 (Nat.ltb_ge _ _)), H12 by lia; done).
    rewrite H0 in *. cbn [Z.eqb] in *.
    apply wp_bind, wp_bind, (next_block_spec s V Hv); [lia|]. intros s1 V1 Hv1 Ha Ei1 Eb1. rewrite xint_id by lia. apply wp_ret.
    destruct (file_add_indirect mksb ltac:(done) V V1 a off _ Hf Ha H12) as [Hf1 E1].
    set (a1 := <[12%nat := freeblock s]> a) in *.
    assert (a1 !!! 12%nat = freeblock s) as E12 by (apply list_lookup_total_insert_eq; lia).
    apply (entry_spec s1 V1 a1 off k); [done|done|lia|lia|lia|].
    intros r s2 V2 Hv2 Hm Ei2 Eb2. rewrite E1, H0 in Eb2 by lia. cbn [Z.eqb] in Eb2.
    assert (bmapped mksb V a off k r V2 a1) as Hm2.
    { refine (bmapped_indirect demo_fs V a off k r V1 _ V2 mk_geo Hf Hk H12 Ha Hm _).
      change (nfree V1 mksb <= nfree V2 mksb + 1)%nat. rewrite (view_nfree s1 V1), (view_nfree s2 V2) by done. lia. }
    exists V2. split_and!; [done|done| |congruence|lia].
    apply (tight_bmapped V a off k r V2 a1 Ht Hm2 eq_refl); [lia|]. lia.
  - apply wp_bind, wp_ret. apply (entry_spec s V a off k); [done|done|done|lia|intros H0; rewrite H0 in *; cbn [Z.eqb] in *; lia|].
    intros r s2 V2 Hv2 Hm Ei2 Eb2. exists V2. split_and!; [done|done| |done|lia].
    apply (tight_bmapped V a off k r V2 a Ht Hm eq_refl); [lia|]. tauto.
Qed.

Lemma file_block_spec s V a off :
  view s V -> file_ok V mksb a off -> tight V a off -> 0 <= off < 71680 ->
  freeblock s + (nblk (off + 1) - nblk off) <= 1000 ->
  wp (file_block (off / 512) a) s (block_found s V a off).
Proof.
  intros Hv Hf Ht Ho Hfree. destruct (Z.lt_ge_cases off (12 * 512)).
  - apply direct_spec; (done || lia).
  - apply indirect_spec; (done || lia).
Qed.

(** The other bytes of the same block need no more blocks. *)
Lemma nblk_same off m : 0 <= off -> 1 <= m -> off mod 512 + m <= 512 -> nblk (off + m) = nblk (off + 1).
Proof.
  intros Ho Hm Hfit. unfold nblk.
  destruct (Z.ltb_spec (12 * 512) (off + m)), (Z.ltb_spec (12 * 512) (off + 1)); Z.div_mod_to_equations; lia.
Qed.

Lemma nblk_mono x y : 0 <= x <= y -> nblk x <= nblk y.
Proof.
  intros Hx. unfold nblk. destruct (Z.ltb_spec (12 * 512) x), (Z.ltb_spec (12 * 512) y); Z.div_mod_to_equations; lia.
Qed.

Lemma tight_mono V a x y : tight V a x -> x <= y -> tight V a y.
Proof. intros [H1 H2] Hle. split; [intros k Hk H0; specialize (H1 k Hk H0); lia|intros H0; specialize (H2 H0); lia]. Qed.

(** Data written to a block of the file keeps its addresses. *)
Lemma tight_bset V a sz b d : tight V a sz -> b <> a !!! 12%nat -> tight (bset V b d) a sz.
Proof. intros [H1 H2] Hb. split; [|done]. intros k. rewrite baddr_bset by done. apply H1. Qed.

(** The rest of the last block of a file is zero. *)
Definition slack (V : Z -> block) (a : list Z) (sz : Z) : Prop :=
  forall j, sz <= j < (sz + 511) / 512 * 512 -> fbyte V a j = 0.

(** A round writes to one block, and leaves the rest of it as it was. *)
Lemma slack_round V a off l r V1 a1 :
  file_ok V mksb a off -> tight V a off -> slack V a off -> 0 <= off -> 0 < Z.of_nat (length l) ->
  off + Z.of_nat (length l) <= 71680 -> off mod 512 + Z.of_nat (length l) <= 512 ->
  bmapped mksb V a off (Z.to_nat (off / 512)) r V1 a1 -> block_ok (V1 r) ->
  slack (bset V1 r (splice (V1 r) (Z.to_nat (off mod 512)) l)) a1 (off + Z.of_nat (length l)).
Proof.
  intros Hf Ht Hs Ho Hl Hmax Hfit Hm [Hlen _] j Hj.
  destruct (round_r demo_fs V a off off l r V1 a1 Hl Hmax Hm) as [_ Hr12].
  assert (j / 512 = off / 512) as Ej by (Z.div_mod_to_equations; lia).
  unfold fbyte, BSIZE. rewrite baddr_bset, Ej, (bm_addr _ _ _ _ _ _ _ _ Hm), bset_eq by done.
  rewrite (list_lookup_total_alt (splice _ _ _)), lookup_splice, decide_False, <- (list_lookup_total_alt (V1 r))
    by (Z.div_mod_to_equations; lia).
  destruct (decide (off mod 512 = 0)) as [E|E].
  - rewrite (bm_new _ _ _ _ _ _ _ _ Hm (proj2 (tight_mapped V a off Hf Ht ltac:(lia)) E)).
    apply lookup_total_replicate_2. pose proof (Z.mod_pos_bound j 512). lia.
  - assert (baddr V a (Z.to_nat (off / 512)) <> 0) as Hold by (rewrite (tight_mapped V a off Hf Ht ltac:(lia)); done).
    destruct (round_old demo_fs V a off off l r V1 a1 Hf Hl Hmax Hm Hold) as [-> ->].
    rewrite <- Ej. change (fbyte V a j = 0). apply Hs. Z.div_mod_to_equations; lia.
Qed.

(** The state after [p] has been appended. *)
Definition appended s V a off p : list Z * Z -> mk -> Prop := fun '(a', off') s' =>
  off' = off + Z.of_nat (length p) /\
  exists V', view s' V' /\ wrote_file mksb V a off off p V' a' off' /\ tight V' a' off' /\ slack V' a' off' /\
    freeinode s' = freeinode s /\ freeblock s' = freeblock s + (nblk off' - nblk off).

Lemma appended_nil s V a off :
  view s V -> file_ok V mksb a off -> tight V a off -> slack V a off -> appended s V a off [] (a, off) s.
Proof.
  intros Hv Hf Ht Hs. split; [simpl; lia|]. exists V. split_and!; try done; [by apply wrote_file_nil|lia].
Qed.

Lemma iappend_loop_spec fuel s V a off p :
  view s V -> file_ok V mksb a off -> tight V a off -> slack V a off -> Forall is_byte p -> (length p <= fuel)%nat ->
  off + Z.of_nat (length p) <= 71680 ->
  freeblock s + (nblk (off + Z.of_nat (length p)) - nblk off) <= 1000 ->
  wp (iappend_loop fuel a off p) s (appended s V a off p).
Proof.
  revert s V a off p. induction fuel as [|fuel IH]; intros s V a off p Hv Hf Ht Hs Hp Hfuel Hmax Hfree;
    destruct (decide (p = [])) as [->|Hne]; [by apply wp_ret, appended_nil| |by apply wp_ret, appended_nil|];
    assert (0 < Z.of_nat (length p)) as Hpos by (destruct p; [done|simpl; lia]); [lia|].
  pose proof (fo_size _ _ _ _ Hf) as [Ho _]. cbn [iappend_loop]. cbv zeta. rewrite (proj2 (Z.ltb_lt _ _) Hpos). cbn [negb].
  change BSIZE with 512. change MAXFILE with 140. rewrite (proj2 (Z.ltb_lt (off / 512) 140)) by (Z.div_mod_to_equations; lia).
  apply wp_bind, wp_ret, wp_bind. pose proof (Z.mod_pos_bound off 512 ltac:(done)).
  set (m := Z.min (Z.of_nat (length p)) ((off / 512 + 1) * 512 - off)).
  assert (off mod 512 + m <= 512 /\ 1 <= m) as [Hm1 Hm2] by (unfold m; Z.div_mod_to_equations; lia).
  pose proof (nblk_mono (off + 1) (off + Z.of_nat (length p)) ltac:(lia)).
  eapply wp_mono; [apply (file_block_spec s V a off Hv Hf Ht); lia|].
  intros [r a1] s1 (V1 & Hv1 & Hbm & Ht1 & Ei1 & Eb1).
  set (l := take (Z.to_nat m) p). assert (Z.of_nat (length l) = m) as El by (unfold l, m; rewrite length_take; lia).
  pose proof (vw_blk _ _ Hv1 r) as Hblk.
  destruct (round_r demo_fs V a off off p r V1 a1 ltac:(lia) ltac:(lia) Hbm) as [[Hr Hu] Hr12].
  change (k_sb demo_fs) with mksb in *. change (data_start mksb) with 59 in Hr. change (sb_size mksb) with 1000 in Hr.
  rewrite (view_used s1 V1) in Hu by (done || lia). apply Z.ltb_lt in Hu.
  apply wp_bind. eapply wp_run; [apply (rsect_run s1 V1 Hv1); lia|].
  replace (off - off / 512 * 512) with (off mod 512) by (Z.div_mod_to_equations; lia).
  apply wp_bind, (wsect_spec s1 V1 Hv1); [lia|lia| |].
  { destruct Hblk as [Hb1 Hb2]. split; [rewrite length_splice; lia|apply splice_bytes; [done|by apply Forall_take]]. }
  intros s2 Hv2 Ei2 Eb2. rewrite u32_small by lia.
  pose proof (wrote_round demo_fs V a off off l r V1 a1 mk_geo Hf ltac:(lia) ltac:(lia) ltac:(lia) ltac:(lia) Hbm Hblk) as Hw.
  pose proof (slack_round V a off l r V1 a1 Hf Ht Hs Ho ltac:(lia) ltac:(lia) ltac:(lia) Hbm Hblk) as Hs2. rewrite El in Hs2.
  set (V2 := bset V1 r _) in *. rewrite Z.max_r, El in Hw by lia. pose proof (nblk_same off m Ho Hm2 Hm1) as En.
  set (rest := drop (Z.to_nat m) p).
  assert (Z.of_nat (length rest) = Z.of_nat (length p) - m) as Er by (unfold rest; rewrite length_drop; lia).
  eapply wp_mono.
  { apply (IH s2 V2 a1 (off + m) rest Hv2); [exact (wf_file _ _ _ _ _ _ _ _ _ Hw)| |done|by apply Forall_drop|lia|lia|].
    - apply tight_bset; [|done]. apply (tight_mono _ _ (off + 1)); [done|lia].
    - replace (off + m + Z.of_nat (length rest)) with (off + Z.of_nat (length p)) by lia. lia. }
  intros [a' off'] s3 (-> & V3 & Hv3 & Hw3 & Ht3 & Hs3 & Ei3 & Eb3).
  replace (off + m + Z.of_nat (length rest)) with (off + Z.of_nat (length p)) in * by lia.
  split; [done|]. exists V3. split_and!; [done| |done|done|congruence|lia].
  assert (p = l ++ rest) as Ep by (symmetry; apply take_drop). rewrite Ep at 1.
  refine (wrote_app demo_fs V a off off l V2 a1 (off + m) rest V3 a' _ mk_geo _ _ _ _ Hw _); try lia.
  rewrite El. exact Hw3.
Qed.

(** ** The files of the image *)

(** A file is its type and its bytes. *)
Abbreviation afile := (Z * list Z)%type.
Definition flen (f : afile) : Z := Z.of_nat (length f.2).
Definition addrs_at (V : Z -> block) (inum : Z) : list Z := di_addrs (disk_inode V mksb inum).

(** Inode [inum] is the file [f], with one link. *)
Record holds (V : Z -> block) (inum : Z) (f : afile) : Prop := {
  ho_type : 0 <= f.1 < 2 ^ 15;
  ho_inode : disk_inode V mksb inum = mkdinode f.1 0 0 1 (flen f) (addrs_at V inum);
  ho_file : file_ok V mksb (addrs_at V inum) (flen f);
  ho_tight : tight V (addrs_at V inum) (flen f);
  ho_slack : slack V (addrs_at V inum) (flen f);
  ho_bytes : contents V (addrs_at V inum) (flen f) = f.2;
}.

(** The blocks in use for the files [fs]: those before the data, and theirs. *)
Definition blocks (fs : list afile) : Z := foldr (fun f n => nblk (flen f) + n) nmeta fs.

(** The image of the files [fs], the first of which is inode 1: each has its
    own blocks, and no other block is in use. *)
Record image (s : mk) (V : Z -> block) (fs : list afile) : Prop := {
  im_view : view s V;
  im_sb : superblock_of (V 1) = mksb;
  im_next : freeinode s = 1 + Z.of_nat (length fs);
  im_count : 1 + Z.of_nat (length fs) <= NINODES;
  im_files : forall i f, fs !! i = Some f -> holds V (1 + Z.of_nat i) f;
  im_own : forall i j b, (i < length fs)%nat -> (j < length fs)%nat -> i <> j ->
    own V (addrs_at V (1 + Z.of_nat i)) b -> ~ own V (addrs_at V (1 + Z.of_nat j)) b;
  im_blocks : freeblock s = blocks fs;
}.

Lemma iblock_range inum : 0 <= inum < 200 -> 32 <= IBLOCK inum mksb < 58.
Proof. intros Hi. exact (proj2 (IBLOCK_spec demo_fs inum mk_geo Hi)). Qed.

Lemma rinode_run s V inum : view s V -> 0 <= inum < 200 -> rinode inum s = Ret (disk_inode V mksb inum) s.
Proof.
  intros Hv Hi. pose proof (iblock_range inum Hi). unfold rinode.
  by rewrite (bind_run _ _ s _ _ (rsect_run s V Hv (IBLOCK inum mksb) ltac:(lia) ltac:(lia))).
Qed.

(** The blocks after the inode has been stored. *)
Definition inode_stored (V : Z -> block) (inum : Z) (d : dinode) : Z -> block :=
  bset V (IBLOCK inum mksb) (put_dinode (V (IBLOCK inum mksb)) (dinode_off inum) d).

Lemma winode_spec s V inum d (Q : unit -> mk -> Prop) :
  view s V -> 0 <= inum < 200 -> length (di_addrs d) = 13%nat ->
  (forall s', view s' (inode_stored V inum d) -> freeinode s' = freeinode s -> freeblock s' = freeblock s -> Q tt s') ->
  wp (winode inum d) s Q.
Proof.
  intros Hv Hi Hd HQ. pose proof (iblock_range inum Hi). pose proof (vw_free _ _ Hv). unfold winode. cbv zeta.
  apply wp_bind. eapply wp_run; [apply (rsect_run s V Hv); lia|].
  apply (wsect_spec s V Hv); [lia|lia| |done]. apply put_dinode_ok; [apply Hv|apply dinode_off_fits|done].
Qed.

Lemma slack_same V V' a sz :
  file_ok V mksb a sz -> (forall b, own V a b -> data_ok V' mksb b /\ V' b = V b) -> slack V a sz -> slack V' a sz.
Proof.
  intros Hf HK Hs j Hj. rewrite <- (Hs j Hj). pose proof (fo_size _ _ _ _ Hf) as Hsz. change (MAXFILE * BSIZE) with 71680 in Hsz.
  unfold fbyte, BSIZE. rewrite (same_baddr mksb V V' a HK).
  assert (Z.to_nat (j / 512) < 140)%nat as Hk by (Z.div_mod_to_equations; lia).
  rewrite (proj2 (HK _ (own_mapped V a _ Hk ltac:(apply (fo_mapped _ _ _ _ Hf _ Hk); unfold BSIZE; Z.div_mod_to_equations; lia)))).
  done.
Qed.

(** A file depends on its inode and its blocks only. *)
Lemma holds_same V V' inum f :
  holds V inum f -> disk_inode V' mksb inum = disk_inode V mksb inum ->
  (forall b, own V (addrs_at V inum) b -> data_ok V' mksb b /\ V' b = V b) ->
  holds V' inum f /\ forall b, own V' (addrs_at V' inum) b <-> own V (addrs_at V inum) b.
Proof.
  intros [Hty Hi Hf Ht Hs Hb] Ei HK. assert (addrs_at V' inum = addrs_at V inum) as Ea by (unfold addrs_at; by rewrite Ei).
  split; [|intros b; rewrite Ea; by apply (same_own mksb)].
  split; rewrite ?Ea; [done|by rewrite Ei|by eapply same_file| |by apply (slack_same V V')|].
  - destruct Ht as [Ht1 Ht2]. split; [|done]. intros k Hk. rewrite (same_baddr mksb V V' _ HK). by apply Ht1.
  - by rewrite (same_contents mksb V V' _ _ Hf HK).
Qed.

Lemma data_before_bitmap V V' :
  (forall b, 58 <= b -> V' b = V b) -> forall a sz b, file_ok V mksb a sz -> own V a b -> data_ok V' mksb b /\ V' b = V b.
Proof. intros HV a sz b Hf Ho. exact (meta_kept demo_fs V V' mk_geo HV a sz b Hf Ho). Qed.

Lemma inode_stored_ne V inum d b : 58 <= b -> 0 <= inum < 200 -> inode_stored V inum d b = V b.
Proof. intros Hb Hi. pose proof (iblock_range inum Hi). apply bset_ne. lia. Qed.

(** Storing an inode changes no other file. *)
Lemma inode_stored_other V inum d m f :
  (forall b, block_ok (V b)) -> 0 <= inum < 200 -> 0 <= m < 200 -> m <> inum -> length (di_addrs d) = 13%nat -> holds V m f ->
  holds (inode_stored V inum d) m f /\
  forall b, own (inode_stored V inum d) (addrs_at (inode_stored V inum d) m) b <-> own V (addrs_at V m) b.
Proof.
  intros HV Hi Hm Hne Hd Hh. apply holds_same; [done| |].
  - by apply (disk_inode_ne demo_fs).
  - intros b. eapply data_before_bitmap; [|apply Hh]. intros c Hc. by apply inode_stored_ne.
Qed.

Lemma blocks_insert fs i f f' :
  fs !! i = Some f -> blocks (<[i := f']> fs) = blocks fs + (nblk (flen f') - nblk (flen f)).
Proof.
  revert i. induction fs as [|g fs IH]; intros [|i] Hi; [done|done| |].
  - injection Hi as ->. cbn. lia.
  - change (nblk (flen g) + blocks (<[i := f']> fs) = nblk (flen g) + blocks fs + (nblk (flen f') - nblk (flen f))).
    rewrite (IH i Hi). lia.
Qed.

Lemma blocks_app fs f : blocks (fs ++ [f]) = blocks fs + nblk (flen f).
Proof. unfold blocks. induction fs as [|g fs IH]; cbn [app foldr]; [cbn; lia|]. rewrite IH. lia. Qed.

Lemma baddr_none V k : (k < 140)%nat -> baddr V (replicate 13 0) k = 0.
Proof.
  intros Hk. unfold baddr. destruct (Nat.ltb_spec k 12); [|done]. apply lookup_total_replicate_2. lia.
Qed.

Lemma empty_file V : file_ok V mksb (replicate 13 0) 0 /\ tight V (replicate 13 0) 0 /\ forall b, ~ own V (replicate 13 0) b.
Proof.
  split_and!.
  - split; [done|done| | |done| |].
    + intros k Hk Hlt. unfold BSIZE in Hlt. lia.
    + intros k Hk H0. by rewrite baddr_none in H0.
    + intros j k Hj Hk H0. by rewrite baddr_none in H0.
    + intros k Hk H0. by rewrite baddr_none in H0.
  - split; [|done]. intros k Hk H0. by rewrite baddr_none in H0.
  - intros b [H0 [->|(k & Hk & ->)]]; [done|]. by rewrite baddr_none in H0.
Qed.

(** [ialloc] adds an empty file. *)
Lemma ialloc_spec s V fs t :
  image s V fs -> 2 + Z.of_nat (length fs) <= NINODES -> 0 <= t < 2 ^ 15 ->
  wp (ialloc t) s (fun i s' => i = 1 + Z.of_nat (length fs) /\ exists V', image s' V' (fs ++ [(t, [])])).
Proof.
  intros [Hv Hsb Hn Hc Hfs Hown Hb] Hroom Ht. change NINODES with 200 in *. unfold ialloc. apply wp_bind.
  eapply wp_run; [reflexivity|]. rewrite (xshort_id t), (xshort_id 1), xint_id by lia. rewrite Hn, u32_small by lia.
  set (s1 := MkMk _ _ _). assert (view s1 V) as Hv1 by (destruct Hv; by split).
  set (inum := 1 + Z.of_nat (length fs)) in *. set (d := mkdinode _ _ _ _ _ _). apply wp_bind.
  apply (winode_spec s1 V inum d _ Hv1); [lia|done|]. intros s2 Hv2 Ei2 Eb2. apply wp_ret. split; [done|].
  set (V2 := inode_stored V inum d) in *. exists V2. destruct (empty_file V2) as (Hf & Htt & Hno).
  assert (disk_inode V2 mksb inum = d) as Ed.
  { apply disk_inode_eq; [apply Hv|]. split; cbn [d di_type di_major di_minor di_nlink di_size di_addrs]; try lia; [|done]. apply Forall_replicate. lia. }
  assert (forall i f, fs !! i = Some f -> holds V2 (1 + Z.of_nat i) f /\ forall b,
    own V2 (addrs_at V2 (1 + Z.of_nat i)) b <-> own V (addrs_at V (1 + Z.of_nat i)) b) as Hold.
  { intros i f Hi. pose proof (lookup_lt_Some _ _ _ Hi).
    apply inode_stored_other; [apply Hv|lia|lia|lia|done|by apply Hfs]. }
  assert (forall i, (i < length fs)%nat -> forall b,
    own V2 (addrs_at V2 (1 + Z.of_nat i)) b <-> own V (addrs_at V (1 + Z.of_nat i)) b) as Hoo.
  { intros i [f Hi]%lookup_lt_is_Some. by eapply Hold. }
  assert (forall b, ~ own V2 (addrs_at V2 inum) b) as Hnew by (unfold addrs_at; by rewrite Ed).
  split; rewrite ?length_app; cbn [length]; change NINODES with 200; [done| |cbn [s1 freeinode] in Ei2; lia|lia| | |].
  - unfold V2, inode_stored. rewrite bset_ne; [done|]. pose proof (iblock_range inum). lia.
  - intros i f [Hi|[Hge Hi]]%lookup_app_Some; [by apply Hold|]. apply list_lookup_singleton_Some in Hi as [Hi <-].
    replace (1 + Z.of_nat i) with inum by lia. split; unfold addrs_at; rewrite ?Ed; try done.
    intros x Hx. change ((flen (t, []) + 511) / 512 * 512) with 0 in Hx. change (flen (t, [])) with 0 in Hx. lia.
  - intros i j b Hi Hj Hne Ho. destruct (decide (j = length fs)) as [->|]; [apply Hnew|].
    destruct (decide (i = length fs)) as [->|]; [by apply Hnew in Ho|].
    rewrite Hoo in Ho |- * by lia. apply (Hown i j b); (done || lia).
  - rewrite blocks_app, Eb2. cbn [s1 freeblock]. rewrite Hb. change (nblk (flen (t, []))) with 0. lia.
Qed.

Lemma addrs_wf V a sz : file_ok V mksb a sz -> Forall (fun x => 0 <= x < 2 ^ 32) a.
Proof.
  intros Hf. apply Forall_lookup_2. intros k x Hk. pose proof (lookup_lt_Some _ _ _ Hk) as Hl.
  rewrite (fo_len _ _ _ _ Hf) in Hl. destruct (file_addr V a sz k Hf ltac:(lia)) as [_ Hr].
  rewrite (list_lookup_total_correct _ _ _ Hk) in Hr. destruct (decide (x = 0)) as [->|H0]; [done|]. specialize (Hr H0). lia.
Qed.

(** Writing to one file keeps the others. *)
Lemma wrote_other V a sz off p V' a' sz' m f :
  wrote_file mksb V a sz off p V' a' sz' -> holds V m f -> 0 <= m < 200 -> (forall b, own V (addrs_at V m) b -> ~ own V a b) ->
  holds V' m f /\ forall b, own V' (addrs_at V' m) b <-> own V (addrs_at V m) b.
Proof.
  intros Hw Hh Hm Hdis. pose proof (iblock_range m Hm). apply holds_same; [done| |].
  - unfold disk_inode. rewrite (fs_keep _ _ _ _ (wf_step _ _ _ _ _ _ _ _ _ Hw)); [done| |left; apply (iblock_range m Hm)].
    intros Ho%(own_data _ _ _ _ _ (wf_file _ _ _ _ _ _ _ _ _ Hw)). destruct Ho as [Ho _]. change (data_start mksb) with 59 in Ho. lia.
  - intros b Hb. refine (other_file demo_fs V V' a a' 0 _ _ mk_geo (ho_file _ _ _ Hh) Hdis _ _ _ b Hb).
    + apply (wf_fresh _ _ _ _ _ _ _ _ _ Hw).
    + done.
    + eapply fstep_weaken; [|exact (wf_step _ _ _ _ _ _ _ _ _ Hw)]. auto.
Qed.

(** The file after the append, its new inode stored. *)
Lemma holds_appended V V1 inum t c p a' :
  0 <= t < 2 ^ 15 -> 0 <= inum < 200 -> (forall b, block_ok (V1 b)) ->
  let sz := flen (t, c ++ p) in let d := mkdinode t 0 0 1 sz a' in
  wrote_file mksb V (addrs_at V inum) (flen (t, c)) (flen (t, c)) p V1 a' sz -> tight V1 a' sz -> slack V1 a' sz ->
  contents V (addrs_at V inum) (flen (t, c)) = c ->
  addrs_at (inode_stored V1 inum d) inum = a' /\ holds (inode_stored V1 inum d) inum (t, c ++ p) /\
  forall b, own (inode_stored V1 inum d) a' b <-> own V1 a' b.
Proof.
  intros Ht Hi Hb1 sz d Hw Htt Hs Hc. pose proof (wf_file _ _ _ _ _ _ _ _ _ Hw) as Hf1. set (V2 := inode_stored V1 inum d).
  assert (disk_inode V2 mksb inum = d) as Ed.
  { apply disk_inode_eq; [apply Hb1|]. pose proof (fo_size _ _ _ _ Hf1) as [H1 H2]. change (MAXFILE * BSIZE) with 71680 in H2.
    split; cbn [d di_type di_major di_minor di_nlink di_size di_addrs]; try lia; [by eapply addrs_wf|by eapply fo_len]. }
  assert (addrs_at V2 inum = a') as Ea by (unfold addrs_at; by rewrite Ed).
  assert (forall b, own V1 a' b -> data_ok V2 mksb b /\ V2 b = V1 b) as HK.
  { intros b. eapply data_before_bitmap; [|done]. intros x Hx. by apply inode_stored_ne. }
  split_and!; [done| |intros b; by apply (same_own mksb)].
  split; rewrite ?Ea, ?Ed; [done|done|by eapply same_file| |by apply (slack_same V1 V2)|].
  - destruct Htt as [Ht1 Ht2]. split; [|done]. intros k Hk. rewrite (same_baddr mksb V1 V2 _ HK). by apply Ht1.
  - fold sz. rewrite (same_contents mksb V1 V2 _ _ Hf1 HK).
    assert (sz = Z.max (flen (t, c)) (flen (t, c) + Z.of_nat (length p))) as Es
      by (unfold sz, flen; cbn [snd]; rewrite length_app; lia).
    rewrite Es in Hw |- *. rewrite (wrote_contents _ _ _ _ _ _ _ _ Hw) by (unfold flen; lia). rewrite Hc. unfold splice, flen. cbn [snd].
    rewrite Nat2Z.id, firstn_all, skipn_all2 by lia. by rewrite app_nil_r.
Qed.

(** [iappend] appends to a file. *)
Lemma iappend_spec s V fs i t c p :
  image s V fs -> fs !! i = Some (t, c) -> Forall is_byte p -> flen (t, c ++ p) <= MAXFILE * BSIZE ->
  blocks (<[i := (t, c ++ p)]> fs) <= FSSIZE ->
  wp (iappend (1 + Z.of_nat i) p) s (fun _ s' => exists V', image s' V' (<[i := (t, c ++ p)]> fs)).
Proof.
  intros [Hv Hsb Hn Hc Hfs Hown Hb] Hi Hp Hmax Hroom. change NINODES with 200 in *. change FSSIZE with 1000 in *.
  change (MAXFILE * BSIZE) with 71680 in Hmax. pose proof (Hfs i _ Hi) as Hh. pose proof (lookup_lt_Some _ _ _ Hi) as Hlt.
  set (inum := 1 + Z.of_nat i) in *. assert (0 <= inum < 200) as Hin by lia.
  rewrite (blocks_insert _ _ _ _ Hi) in Hroom.
  assert (flen (t, c ++ p) = flen (t, c) + Z.of_nat (length p)) as El by (unfold flen; cbn [snd]; rewrite length_app; lia).
  assert (0 <= flen (t, c)) as Hc0 by (unfold flen; lia).
  unfold iappend. apply wp_bind. eapply wp_run; [by apply (rinode_run s V)|]. rewrite (ho_inode _ _ _ Hh).
  cbn [di_type di_major di_minor di_nlink di_size di_addrs fst]. rewrite xint_id by lia. apply wp_bind. eapply wp_mono.
  { apply (iappend_loop_spec _ s V _ _ p Hv (ho_file _ _ _ Hh) (ho_tight _ _ _ Hh) (ho_slack _ _ _ Hh) Hp); rewrite <- ?El; lia. }
  intros [a' off'] s1 (-> & V1 & Hv1 & Hw & Ht1 & Hs1 & Ei1 & Eb1). rewrite <- El in *. rewrite xint_id by lia.
  pose proof (wf_file _ _ _ _ _ _ _ _ _ Hw) as Hf1. set (d := mkdinode _ _ _ _ _ _).
  apply (winode_spec s1 V1 inum d _ Hv1 Hin (fo_len _ _ _ _ Hf1)). intros s2 Hv2 Ei2 Eb2.
  destruct (holds_appended V V1 inum t c p a' (ho_type _ _ _ Hh) Hin (vw_blk _ _ Hv1) Hw Ht1 Hs1 (ho_bytes _ _ _ Hh))
    as (Ea & Hh2 & Ho2). cbv zeta in Ea, Hh2, Ho2. fold d in Ea, Hh2, Ho2. set (V2 := inode_stored V1 inum d) in *.
  assert (forall j f, fs !! j = Some f -> j <> i -> holds V2 (1 + Z.of_nat j) f /\
    forall b, own V2 (addrs_at V2 (1 + Z.of_nat j)) b <-> own V (addrs_at V (1 + Z.of_nat j)) b) as Hold.
  { intros j f Hj Hne. pose proof (lookup_lt_Some _ _ _ Hj).
    destruct (wrote_other V _ _ _ p V1 a' _ (1 + Z.of_nat j) f Hw (Hfs j f Hj) ltac:(lia)) as [Hj1 Ho1].
    { intros b. by apply (Hown j i b). }
    destruct (inode_stored_other V1 inum d (1 + Z.of_nat j) f (vw_blk _ _ Hv1) Hin ltac:(lia) ltac:(lia) (fo_len _ _ _ _ Hf1) Hj1)
      as [Hj2 Hj3]. split; [done|]. intros b. by rewrite <- Ho1. }
  assert (forall j b, (j < length fs)%nat -> j <> i -> own V2 (addrs_at V2 (1 + Z.of_nat j)) b ->
    ~ own V2 (addrs_at V2 inum) b) as Hdis.
  { intros j b Hj Hne Ho Ho'. destruct (lookup_lt_is_Some_2 _ _ Hj) as [f Ej]. rewrite Ea, Ho2 in Ho'.
    rewrite (proj2 (Hold j f Ej Hne)) in Ho. destruct (wf_fresh _ _ _ _ _ _ _ _ _ Hw b Ho') as [Ho1|Hu].
    - by apply (Hown j i b).
    - destruct (own_data _ _ _ _ _ (ho_file _ _ _ (Hfs j f Ej)) Ho) as [_ Hu']. congruence. }
  exists V2. split; rewrite ?length_insert; change NINODES with 200; [done| |congruence|lia| | |].
  - pose proof (iblock_range inum Hin). unfold V2, inode_stored. rewrite bset_ne by lia.
    rewrite (fs_keep _ _ _ _ (wf_step _ _ _ _ _ _ _ _ _ Hw)); [done| |by left].
    intros [Ho _]%(own_data _ _ _ _ _ Hf1). change (data_start mksb) with 59 in Ho. lia.
  - intros j f. destruct (decide (j = i)) as [->|Hne].
    + rewrite list_lookup_insert_eq by done. by intros [= <-].
    + rewrite list_lookup_insert_ne by done. intros Hj. by apply Hold.
  - intros j k b Hj Hk Hne. destruct (decide (k = i)) as [->|]; [by apply Hdis|].
    destruct (decide (j = i)) as [->|]; [intros Ho1 Ho3; by apply (Hdis k b)|].
    destruct (lookup_lt_is_Some_2 _ _ Hj) as [f Ej], (lookup_lt_is_Some_2 _ _ Hk) as [g Ek].
    rewrite (proj2 (Hold j f Ej ltac:(done))), (proj2 (Hold k g Ek ltac:(done))). by apply Hown.
  - rewrite (blocks_insert _ _ _ _ Hi). lia.
Qed.

(** What the reads of a file return until the first empty one. *)
Fixpoint file_data (reads : list (list Z)) : list Z :=
  match reads with
  | [] | [] :: _ => []
  | buf :: reads' => buf ++ file_data reads'
  end.

Lemma blocks_mono fs i t c p :
  fs !! i = Some (t, c) -> blocks (<[i := (t, c)]> fs) <= blocks (<[i := (t, c ++ p)]> fs).
Proof.
  intros Hi. rewrite !(blocks_insert _ _ _ _ Hi). pose proof (nblk_mono (flen (t, c)) (flen (t, c ++ p))) as Hm.
  unfold flen in *. cbn [snd] in *. rewrite length_app in *. lia.
Qed.

Lemma copy_file_spec reads s V fs i t c :
  image s V fs -> fs !! i = Some (t, c) -> Forall (Forall is_byte) reads ->
  flen (t, c ++ file_data reads) <= MAXFILE * BSIZE -> blocks (<[i := (t, c ++ file_data reads)]> fs) <= FSSIZE ->
  wp (copy_file (1 + Z.of_nat i) reads) s (fun _ s' => exists V', image s' V' (<[i := (t, c ++ file_data reads)]> fs)).
Proof.
  revert s V fs c. induction reads as [|buf reads IH]; intros s V fs c Him Hi Hb Hmax Hroom.
  { apply wp_ret. cbn [file_data]. rewrite app_nil_r, list_insert_id by done. by exists V. }
  cbn [copy_file file_data] in *. destruct buf as [|x buf].
  { apply wp_ret. rewrite app_nil_r, list_insert_id by done. by exists V. }
  apply Forall_cons_iff in Hb as [Hb1 Hb2]. rewrite app_assoc in *. pose proof (lookup_lt_Some _ _ _ Hi).
  set (c1 := c ++ x :: buf) in *. set (fs1 := <[i := (t, c1)]> fs).
  assert (fs1 !! i = Some (t, c1)) as Hi1 by by apply list_lookup_insert_eq.
  assert (blocks fs1 <= blocks (<[i := (t, c1 ++ file_data reads)]> fs)) as Hm.
  { pose proof (blocks_mono fs1 i t c1 (file_data reads) Hi1) as Hm. unfold fs1 in Hm.
    by rewrite !list_insert_insert_eq in Hm. }
  apply wp_bind. eapply wp_mono; [apply (iappend_spec s V fs i t c (x :: buf) Him Hi Hb1)|].
  - unfold flen in *. cbn [snd] in *. fold c1. rewrite length_app in Hmax. lia.
  - fold c1 fs1. lia.
  - intros _ s1 [V1 Him1]. fold c1 fs1 in Him1. eapply wp_mono.
    { apply (IH s1 V1 fs1 c1 Him1 Hi1 Hb2); [done|]. unfold fs1. by rewrite list_insert_insert_eq. }
    intros _ s2 [V2 Him2]. exists V2. unfold fs1 in Him2. by rewrite list_insert_insert_eq in Him2.
Qed.

(** ** The whole program *)

(** The entries of the root directory. *)
Definition stored_name (f : input_file) : list Z := strncpy (arr (skip_underscore f.1)) (Z.to_nat DIRSIZ).
Definition dot : list Z := overlay [46; 0] (replicate 14 0).
Definition dotdot : list Z := overlay [46; 46; 0] (replicate 14 0).
Definition root_entries (files : list input_file) : list dirent :=
  [mkdirent ROOTINO dot; mkdirent ROOTINO dotdot] ++
  imap (fun i f => mkdirent (2 + Z.of_nat i) (stored_name f)) files.

(** The files of the image that [main] makes: the root directory and the files
    given to it. *)
Definition root_bytes (files : list input_file) : list Z := mjoin (dirent_bytes <$> root_entries files).
Definition stored (files : list input_file) : list afile :=
  (T_DIR, root_bytes files) :: ((fun f => (T_FILE, file_data f.2)) <$> files).

(** A file that can be stored: its name has no slash, it is not too long. *)
Record good_file (f : input_file) : Prop := {
  gf_slash : 47 ∉ f.1;
  gf_name : Forall is_byte f.1;
  gf_bytes : Forall (Forall is_byte) f.2;
  gf_size : flen (T_FILE, file_data f.2) <= MAXFILE * BSIZE;
}.

Lemma strncpy_bytes l n : Forall is_byte l -> Forall is_byte (strncpy (arr l) n).
Proof.
  intros Hl. assert (forall t : cstr, (forall i, is_byte (t i)) -> Forall is_byte (strncpy t n)) as Hg.
  { induction n as [|n IH]; intros t Ht; [constructor|]. cbn [strncpy]. constructor; [apply Ht|].
    destruct (t 0%nat =? 0); [apply Forall_replicate; unfold is_byte; lia|]. apply IH. intros i. apply Ht. }
  apply Hg. intros i. unfold arr. destruct (nth_in_or_default i l 0) as [Hin| ->]; [|unfold is_byte; lia].
  rewrite Forall_forall in Hl. by apply Hl, list_elem_of_In.
Qed.

Lemma dirent_bytes_ok inum name : Forall is_byte name -> Forall is_byte (dirent_bytes (mkdirent inum name)).
Proof. intros Hn. apply Forall_app. split; [apply le_encode_bytes|done]. Qed.

Lemma stored_name_bytes f : good_file f -> Forall is_byte (stored_name f) /\ length (stored_name f) = 14%nat.
Proof.
  intros Hf. split; [|apply length_strncpy]. apply strncpy_bytes. pose proof (gf_name _ Hf) as Hn. unfold skip_underscore.
  destruct (f.1) as [|x l] eqn:E; [done|]. apply Forall_cons_iff in Hn as Hn'. repeat case_match; tauto || done.
Qed.

Lemma root_bytes_app pre f :
  root_bytes (pre ++ [f]) = root_bytes pre ++ dirent_bytes (mkdirent (2 + Z.of_nat (length pre)) (stored_name f)).
Proof.
  unfold root_bytes, root_entries. rewrite imap_app, app_assoc, fmap_app, join_app. f_equal.
  cbn [imap fmap list_fmap mjoin list_join]. by rewrite app_nil_r, Nat.add_0_r.
Qed.

Lemma length_entries (es : list dirent) :
  Forall (fun e => length (de_name e) = 14%nat) es -> length (mjoin (dirent_bytes <$> es)) = (16 * length es)%nat.
Proof.
  induction 1 as [|e es He _ IH]; [done|].
  change (length (dirent_bytes e ++ mjoin (dirent_bytes <$> es)) = (16 * length (e :: es))%nat).
  rewrite length_app, IH. unfold dirent_bytes. rewrite length_app, length_le_encode, He. simpl. lia.
Qed.

Lemma root_entries_names files : Forall (fun e => length (de_name e) = 14%nat) (root_entries files).
Proof.
  apply Forall_app. split; [repeat constructor|]. apply Forall_lookup_2. intros i e He.
  rewrite list_lookup_imap in He. destruct (files !! i); [|done]. injection He as <-. apply length_strncpy.
Qed.

Lemma length_root files : Z.of_nat (length (root_bytes files)) = 16 * (2 + Z.of_nat (length files)).
Proof.
  unfold root_bytes. rewrite length_entries by apply root_entries_names.
  unfold root_entries. rewrite length_app, length_imap. simpl. lia.
Qed.

Lemma nblk_pos sz : 0 <= sz -> 0 <= nblk sz.
Proof. intros Hs. unfold nblk. destruct (_ <? _); Z.div_mod_to_equations; lia. Qed.

Lemma blocks_le fs fs' : blocks fs <= blocks (fs ++ fs').
Proof.
  unfold blocks. rewrite foldr_app. generalize nmeta. induction fs as [|f fs IH]; intros z; cbn [foldr].
  - induction fs' as [|g fs' IH']; cbn [foldr]; [lia|]. pose proof (nblk_pos (flen g)). unfold flen in *. lia.
  - specialize (IH z). lia.
Qed.

Lemma blocks_cons f fs : blocks (f :: fs) = nblk (flen f) + blocks fs.
Proof. done. Qed.

(** Each file stored needs its blocks, and may make the directory longer. *)
Lemma blocks_stored pre rest : blocks (stored pre) <= blocks (stored (pre ++ rest)).
Proof.
  unfold stored. rewrite fmap_app, !blocks_cons. pose proof (blocks_le ((fun f => (T_FILE, file_data f.2)) <$> pre)
    ((fun f => (T_FILE, file_data f.2)) <$> rest)) as Hb.
  pose proof (nblk_mono (flen (T_DIR, root_bytes pre)) (flen (T_DIR, root_bytes (pre ++ rest)))) as Hn.
  unfold flen in Hn at 1 2 3. cbn [snd] in Hn. rewrite !length_root, length_app in Hn.
  unfold flen in *. cbn [snd] in *. rewrite !length_root, length_app in *. lia.
Qed.

Lemma add_file_spec s V pre f :
  image s V (stored pre) -> good_file f -> 3 + Z.of_nat (length pre) <= NINODES -> blocks (stored (pre ++ [f])) <= FSSIZE ->
  wp (add_file ROOTINO f) s (fun _ s' => exists V', image s' V' (stored (pre ++ [f]))).
Proof.
  intros Him Hf Hroom Hbl. destruct f as [name reads]. pose proof (gf_slash _ Hf) as Hsl. cbn [fst] in Hsl. unfold add_file.
  rewrite bool_decide_eq_false_2 by done. apply wp_bind, wp_ret. apply wp_bind. change NINODES with 200 in *.
  set (ffs := (fun f : input_file => (T_FILE, file_data f.2)) <$> pre).
  assert (length ffs = length pre) as Elen by apply length_fmap.
  eapply wp_mono; [apply (ialloc_spec s V (stored pre) T_FILE Him); unfold T_FILE; cbn [stored length]; fold ffs;
    change NINODES with 200; lia|].
  intros inum s1 [-> [V1 Him1]]. set (e := dirent_bytes (mkdirent (2 + Z.of_nat (length pre)) (stored_name (name, reads)))).
  assert (1 + Z.of_nat (length (stored pre)) = 2 + Z.of_nat (length pre)) as En
    by (cbn [stored length]; fold ffs; lia).
  rewrite En, xshort_id by lia. fold (stored_name (name, reads)). fold e.
  change (stored pre ++ [(T_FILE, [])]) with ((T_DIR, root_bytes pre) :: (ffs ++ [(T_FILE, [])])) in Him1.
  assert (stored (pre ++ [(name, reads)]) = (T_DIR, root_bytes pre ++ e) :: ffs ++ [(T_FILE, file_data reads)]) as Est
    by (unfold stored; rewrite root_bytes_app, fmap_app; done).
  rewrite Est, app_comm_cons, blocks_app in Hbl. assert (Forall is_byte e) as He by by apply dirent_bytes_ok, stored_name_bytes.
  pose proof (length_root (pre ++ [(name, reads)])) as Hl. rewrite root_bytes_app in Hl. fold e in Hl. rewrite !length_app in Hl.
  cbn [length] in Hl. apply wp_bind. eapply wp_mono.
  { apply (iappend_spec s1 V1 _ 0 T_DIR (root_bytes pre) e Him1 eq_refl He).
    - unfold flen. cbn [snd]. rewrite length_app. change (MAXFILE * BSIZE) with 71680. lia.
    - cbn [insert list_insert]. rewrite app_comm_cons, blocks_app. change (nblk (flen (T_FILE, []))) with 0.
      pose proof (nblk_pos (flen (T_FILE, file_data reads))). unfold flen in *. lia. }
  intros _ s2 [V2 Him2]. cbn [insert list_insert] in Him2. rewrite app_comm_cons in Him2.
  set (fs2 := (T_DIR, root_bytes pre ++ e) :: ffs) in *.
  assert (length fs2 = S (length pre)) as El2 by (cbn [fs2 length]; lia).
  replace (2 + Z.of_nat (length pre)) with (1 + Z.of_nat (length fs2)) by lia.
  assert (forall f', <[length fs2 := f']> (fs2 ++ [(T_FILE, [])]) = fs2 ++ [f']) as Ein.
  { intros f'. pose proof (insert_app_r fs2 [(T_FILE, [])] 0 f') as E. rewrite Nat.add_0_r in E. by rewrite E. }
  eapply wp_mono.
  { apply (copy_file_spec reads s2 V2 (fs2 ++ [(T_FILE, [])]) (length fs2) T_FILE [] Him2).
    - by rewrite lookup_app_r, Nat.sub_diag.
    - apply Hf.
    - apply Hf.
    - rewrite Ein, blocks_app. exact Hbl. }
  intros _ s3 [V3 Him3]. exists V3. rewrite Ein in Him3. by rewrite Est.
Qed.

Lemma add_files_spec rest pre s V :
  image s V (stored pre) -> Forall good_file rest -> 2 + Z.of_nat (length (pre ++ rest)) <= NINODES ->
  blocks (stored (pre ++ rest)) <= FSSIZE ->
  wp (foreach rest (add_file ROOTINO)) s (fun _ s' => exists V', image s' V' (stored (pre ++ rest))).
Proof.
  revert pre s V. induction rest as [|f rest IH]; intros pre s V Him Hg Hn Hbl.
  { apply wp_ret. rewrite app_nil_r. by exists V. }
  apply Forall_cons_iff in Hg as [Hf Hg]. replace (pre ++ f :: rest) with ((pre ++ [f]) ++ rest) in * by by rewrite <- app_assoc.
  pose proof (blocks_stored (pre ++ [f]) rest). rewrite !length_app in Hn. cbn [length] in Hn.
  cbn [foreach]. apply wp_bind. eapply wp_mono; [apply (add_file_spec s V pre f Him Hf); lia|].
  intros _ s1 [V1 Him1]. apply (IH (pre ++ [f]) s1 V1 Him1 Hg); [rewrite !length_app; cbn [length]; lia|done].
Qed.

(** The image is filled with zeros first. *)
Lemma clear_image n i b (l : list block) :
  (length l + n <= 1000)%nat ->
  wp (foreach (seq (length l) n) (fun i => wsect (Z.of_nat i) zero_block)) (MkMk l i b)
    (fun _ s' => s' = MkMk (l ++ replicate n zero_block) i b).
Proof.
  revert l. induction n as [|n IH]; intros l Hle.
  { apply wp_ret. by rewrite app_nil_r. }
  cbn [seq foreach]. apply wp_bind. eapply wp_run; [reflexivity|]. cbn [fsfd freeinode freeblock].
  rewrite sector_small, Nat2Z.id, Nat.ltb_irrefl, Nat.sub_diag by lia. cbn [replicate app].
  specialize (IH (l ++ [zero_block])). rewrite length_app in IH. cbn [length] in IH. rewrite Nat.add_1_r in IH.
  eapply wp_mono; [apply IH; lia|]. intros _ s' ->. by rewrite <- app_assoc.
Qed.

(** The empty file system: the super block, no inode, no data. *)
Definition mk_cleared : mk := MkMk (replicate 1000 zero_block) 1 nmeta.

Lemma cleared_view : view mk_cleared (bset (fun _ => zero_block) 58 (set_bits 59 zero_block)).
Proof.
  split; cbn [mk_cleared fsfd freeblock]; change nmeta with 59; try lia; [apply length_replicate| |by rewrite bset_eq| |].
  - intros n Hn H58. rewrite bset_ne by done. apply lookup_replicate_2. lia.
  - intros n. unfold bset. case_match; [apply set_bits_ok|]; apply zero_block_ok.
  - intros n Hn. by rewrite bset_ne by lia.
Qed.

Lemma sb_block_ok : block_ok (splice zero_block 0 (sb_bytes mksb)).
Proof. split; [by vm_compute|]. apply splice_bytes; [apply zero_block_ok|apply words_bytes]. Qed.

Lemma sb_decodes : superblock_of (splice zero_block 0 (sb_bytes mksb)) = mksb.
Proof. by vm_compute. Qed.

(** The root directory with its two entries. *)
Lemma mk_root (k : Z -> Host unit) Q :
  (forall s V, image s V (stored []) -> wp (k ROOTINO) s Q) ->
  wp (wsect 1 (splice zero_block 0 (sb_bytes mksb)) ;;
      rootino <- ialloc T_DIR ;;
      assert (rootino =? ROOTINO) ;;
      iappend rootino (dot_entry rootino [46]) ;;
      iappend rootino (dot_entry rootino [46; 46]) ;; k rootino) mk_cleared Q.
Proof.
  intros Hk. apply wp_bind, (wsect_spec _ _ cleared_view); [done|done|apply sb_block_ok|]. intros s1 Hv1 Ei1 Eb1.
  set (V1 := bset _ 1 _) in *. assert (image s1 V1 []) as Him1.
  { split; [done|unfold V1; rewrite bset_eq; apply sb_decodes|by rewrite Ei1|done|done| |by rewrite Eb1].
    intros i j b Hi. cbn [length] in Hi. lia. }
  apply wp_bind. eapply wp_mono; [apply (ialloc_spec s1 V1 [] T_DIR Him1); done|].
  intros i s2 [-> [V2 Him2]]. change (1 + Z.of_nat (length (A := afile) [])) with (1 + Z.of_nat 0).
  apply wp_bind, wp_ret. cbn [app] in Him2. apply wp_bind. eapply wp_mono.
  { apply (iappend_spec s2 V2 _ 0 T_DIR [] (dot_entry 1 [46]) Him2 eq_refl); [|by vm_compute|by vm_compute].
    by apply dirent_bytes_ok; repeat (constructor; [by vm_compute|]). }
  intros _ s3 [V3 Him3]. apply wp_bind. eapply wp_mono.
  { apply (iappend_spec s3 V3 _ 0 T_DIR _ (dot_entry 1 [46; 46]) Him3 eq_refl); [|by vm_compute|by vm_compute].
    by apply dirent_bytes_ok; repeat (constructor; [by vm_compute|]). }
  intros _ s4 [V4 Him4]. apply (Hk s4 V4). exact Him4.
Qed.

(** Everything up to the end of the loop over the arguments. *)
Lemma mk_files files (k : Z -> Host unit) Q :
  Forall good_file files -> 2 + Z.of_nat (length files) <= NINODES -> blocks (stored files) <= FSSIZE ->
  (forall s V, image s V (stored files) -> wp (k ROOTINO) s Q) ->
  wp (modify (fun s => MkMk (fsfd s) (freeinode s) nmeta) ;;
      foreach (seq 0 (Z.to_nat FSSIZE)) (fun i => wsect (Z.of_nat i) zero_block) ;;
      wsect 1 (splice zero_block 0 (sb_bytes mksb)) ;;
      rootino <- ialloc T_DIR ;;
      assert (rootino =? ROOTINO) ;;
      iappend rootino (dot_entry rootino [46]) ;;
      iappend rootino (dot_entry rootino [46; 46]) ;;
      foreach files (add_file rootino) ;; k rootino) mk_start Q.
Proof.
  intros Hg Hn Hb Hk. apply wp_bind. eapply wp_run; [reflexivity|]. apply wp_bind.
  eapply wp_mono; [exact (clear_image 1000 1 nmeta [] ltac:(cbn; lia))|]. intros _ s1 ->.
  apply (mk_root (fun rootino => foreach files (add_file rootino) ;; k rootino)). intros s V Him.
  apply wp_bind. eapply wp_mono; [by apply (add_files_spec files [] s V Him)|]. intros _ s' [V' Him']. by apply (Hk s' V').
Qed.

(** The root directory: its size is rounded up at the end. *)
Definition root_size (n : Z) : Z := (n / 512 + 1) * 512.
Definition root_inode (V : Z -> block) (files : list input_file) : dinode :=
  mkdinode T_DIR 0 0 1 (root_size (flen (T_DIR, root_bytes files))) (addrs_at V ROOTINO).

(** The blocks of the image file. *)
Definition image_file (s : mk) (V : Z -> block) : Prop :=
  length (fsfd s) = Z.to_nat FSSIZE /\ forall n, 0 <= n < FSSIZE -> fsfd s !! Z.to_nat n = Some (V n).

Lemma main_run files :
  Forall good_file files -> 2 + Z.of_nat (length files) <= NINODES -> blocks (stored files) <= FSSIZE ->
  exists s s0 V, main files mk_start = Ret tt s /\ image s0 V (stored files) /\
    image_file s (inode_stored V ROOTINO (root_inode V files)).
Proof.
  intros Hg Hn Hb. change NINODES with 200 in *. assert (wp (main files) mk_start (fun _ s => exists s0 V, image s0 V (stored files) /\
    image_file s (inode_stored V ROOTINO (root_inode V files)))) as (x & s & Hrun & s0 & V & Hres)%wp_inv.
  2: { exists s, s0, V. destruct x. by split. }
  refine (mk_files files (fun rootino => _) _ Hg Hn Hb _). intros s V Him.
  pose proof (im_view _ _ _ Him) as Hv. pose proof (im_files _ _ _ Him 0%nat _ eq_refl) as Hr.
  change (1 + Z.of_nat 0) with ROOTINO in Hr. pose proof (length_root files) as Hl.
  apply wp_bind. eapply wp_run; [by apply (rinode_run s V)|]. rewrite (ho_inode _ _ _ Hr). cbv zeta.
  cbn [di_type di_major di_minor di_nlink di_size di_addrs fst]. set (sz := flen (T_DIR, root_bytes files)).
  assert (0 <= sz <= 3200) as Hsz by (unfold sz, flen; cbn [snd]; lia).
  assert (0 <= sz / 512 <= 6) by (Z.div_mod_to_equations; lia).
  rewrite (xint_id sz) by lia. change BSIZE with 512. rewrite u32_small, xint_id by lia.
  fold (root_size sz). apply wp_bind, (winode_spec s V); [done|done| |].
  { exact (fo_len _ _ _ _ (ho_file _ _ _ Hr)). }
  intros s1 Hv1 Ei1 Eb1. set (V1 := inode_stored V _ _) in *. apply wp_bind. eapply wp_run; [reflexivity|].
  pose proof (vw_free _ _ Hv1) as Hfb. rewrite i32_small by lia. unfold balloc. change (BSIZE * 8) with 4096.
  rewrite (proj2 (Z.ltb_lt _ _)) by lia. apply wp_bind, wp_ret. eapply wp_run; [reflexivity|]. exists s, V. split; [done|]. change (inode_stored V ROOTINO (root_inode V files)) with V1.
  pose proof (vw_len _ _ Hv1) as Hlen. change (sector (sb_bmapstart mksb)) with 58%nat. cbv zeta.
  rewrite (proj2 (Nat.ltb_lt _ _)) by lia. split; cbn [fsfd]; [by rewrite length_insert|]. intros n Hn0.
  destruct (decide (n = 58)) as [->|Hne].
  - rewrite (vw_map _ _ Hv1). apply list_lookup_insert_eq. lia.
  - rewrite list_lookup_insert_ne by lia. by apply Hv1.
Qed.

(** ** The root directory as the kernel reads it *)

(** A directory entry as it can lie on the disk. *)
Definition de_wf (e : dirent) : Prop := 0 <= de_inum e < 2 ^ 16 /\ length (de_name e) = 14%nat.

Lemma get_dirent_bytes e : de_wf e -> get_dirent (dirent_bytes e) = e.
Proof.
  destruct e as [i nm]. intros [Hi Hn]. cbn [de_inum de_name] in *. unfold get_dirent, dirent_bytes, get16. cbn [de_inum de_name].
  rewrite slice_app_l by apply length_le_encode. rewrite le_decode_encode by done.
  rewrite slice_app_r by (rewrite length_le_encode; lia). rewrite length_le_encode. cbn [Nat.sub].
  f_equal. rewrite <- (app_nil_r nm) at 1. by apply slice_app_l.
Qed.

Lemma slice_entries es k e :
  Forall de_wf es -> es !! k = Some e -> slice (mjoin (dirent_bytes <$> es)) (16 * k) 16 = dirent_bytes e.
Proof.
  intros Hes. revert k. induction Hes as [|e0 es [_ Hn] _ IH]; intros k Hk; [done|].
  change (mjoin (dirent_bytes <$> e0 :: es)) with (dirent_bytes e0 ++ mjoin (dirent_bytes <$> es)).
  assert (length (dirent_bytes e0) = 16%nat) as Hl by (unfold dirent_bytes; rewrite length_app, length_le_encode; lia).
  destruct k as [|k]; [injection Hk as ->; by apply slice_app_l|].
  rewrite slice_app_r by lia. rewrite Hl. replace (16 * S k - 16)%nat with (16 * k)%nat by lia. by apply IH.
Qed.

Lemma dirents_of V a sz es :
  contents V a sz = mjoin (dirent_bytes <$> es) -> Forall de_wf es -> sz = 16 * Z.of_nat (length es) -> dirents V a sz = es.
Proof.
  intros Hc Hes ->. unfold dirents. rewrite Hc. replace (Z.to_nat (16 * Z.of_nat (length es) / 16)) with (length es)
    by (rewrite Z.mul_comm, Z.div_mul by lia; lia).
  apply list_eq. intros k. rewrite list_lookup_fmap. destruct (es !! k) as [e|] eqn:E.
  - pose proof (lookup_lt_Some _ _ _ E). rewrite (proj2 (lookup_seq _ _ _ k)) by (split; [done|lia]). cbn [fmap option_fmap option_map].
    rewrite (slice_entries es k e Hes E), get_dirent_bytes; [done|]. by eapply (Forall_lookup_1 _ _ _ _ Hes).
  - apply lookup_ge_None in E. by rewrite lookup_ge_None_2 by (rewrite length_seq; lia).
Qed.

(** The free entries up to the end of the last block. *)
Definition no_entry : dirent := mkdirent 0 (replicate 14 0).

Lemma free_entries n : mjoin (dirent_bytes <$> replicate n no_entry) = replicate (16 * n) 0.
Proof.
  induction n as [|n IH]; [done|]. replace (16 * S n)%nat with (16 + 16 * n)%nat by lia.
  rewrite replicate_add, <- IH. done.
Qed.

Lemma contents_slack V a sz sz' :
  slack V a sz -> 0 <= sz <= sz' -> sz' <= (sz + 511) / 512 * 512 ->
  contents V a sz' = contents V a sz ++ replicate (Z.to_nat (sz' - sz)) 0.
Proof.
  intros Hs Hle Hmax. unfold contents. replace sz' with (sz + (sz' - sz)) at 1 by lia. rewrite seqZ_app, fmap_app by lia.
  f_equal. apply list_eq. intros k. rewrite list_lookup_fmap.
  destruct (Z.lt_ge_cases (Z.of_nat k) (sz' - sz)).
  - rewrite lookup_seqZ_lt, lookup_replicate_2 by lia. cbn [fmap option_fmap option_map]. f_equal. apply Hs. lia.
  - by rewrite !lookup_ge_None_2 by (rewrite ?length_seqZ, ?length_replicate; lia).
Qed.

Section made.
Context (s : mk) (V : Z -> block) (files : list input_file).
Context (Him : image s V (stored files)).

Let n : Z := flen (T_DIR, root_bytes files).
Let V2 : Z -> block := inode_stored V ROOTINO (root_inode V files).

Lemma made_root : holds V ROOTINO (T_DIR, root_bytes files).
Proof. exact (im_files _ _ _ Him 0%nat _ eq_refl). Qed.

Lemma made_size : n = 16 * (2 + Z.of_nat (length files)) /\ 2 + Z.of_nat (length files) <= 200.
Proof.
  pose proof (length_root files) as Hl. pose proof (im_count _ _ _ Him) as Hc. change NINODES with 200 in Hc.
  unfold stored in Hc. cbn [length] in Hc. rewrite length_fmap in Hc. unfold n, flen. cbn [snd]. lia.
Qed.

Lemma made_inode : disk_inode V2 mksb ROOTINO = root_inode V files.
Proof.
  apply disk_inode_eq; [apply (im_view _ _ _ Him)|]. pose proof made_size as [E Hc]. pose proof (ho_file _ _ _ made_root) as Hf.
  split; cbn [root_inode di_type di_major di_minor di_nlink di_size di_addrs]; try lia; [done|..].
  - fold n. unfold root_size. Z.div_mod_to_equations; lia.
  - by eapply addrs_wf.
  - by eapply fo_len.
Qed.

Lemma made_data b : 58 <= b -> V2 b = V b.
Proof. intros Hb. by apply inode_stored_ne. Qed.

Lemma made_kept a sz b : file_ok V mksb a sz -> own V a b -> data_ok V2 mksb b /\ V2 b = V b.
Proof. apply (data_before_bitmap V V2 made_data). Qed.

Lemma made_used b : 0 <= b < 1000 -> used V2 mksb b = (b <? blocks (stored files)).
Proof.
  intros Hb. rewrite <- (im_blocks _ _ _ Him), <- (view_used s V b (im_view _ _ _ Him) Hb).
  exact (meta_used demo_fs V V2 mk_geo made_data b Hb).
Qed.

Lemma made_sb : superblock_of (V2 1) = mksb.
Proof.
  unfold V2, inode_stored. rewrite bset_ne; [apply Him|]. pose proof (iblock_range ROOTINO ltac:(done)). lia.
Qed.

Lemma made_files i f :
  files !! i = Some f -> holds V2 (2 + Z.of_nat i) (T_FILE, file_data f.2) /\
  forall b, own V2 (addrs_at V2 (2 + Z.of_nat i)) b <-> own V (addrs_at V (2 + Z.of_nat i)) b.
Proof.
  intros Hi. pose proof (lookup_lt_Some _ _ _ Hi). pose proof made_size as [_ Hc].
  assert (stored files !! S i = Some (T_FILE, file_data f.2)) as Hs
    by (unfold stored; rewrite lookup_cons; by rewrite list_lookup_fmap, Hi).
  replace (2 + Z.of_nat i) with (1 + Z.of_nat (S i)) by lia.
  apply inode_stored_other; unfold ROOTINO; [apply (im_view _ _ _ Him)|lia|lia|lia| |by apply (im_files _ _ _ Him)].
  exact (fo_len _ _ _ _ (ho_file _ _ _ made_root)).
Qed.

Lemma made_addrs : addrs_at V2 ROOTINO = addrs_at V ROOTINO.
Proof. unfold addrs_at at 1. by rewrite made_inode. Qed.

Lemma made_owns i b :
  (i <= length files)%nat -> own V2 (addrs_at V2 (1 + Z.of_nat i)) b <-> own V (addrs_at V (1 + Z.of_nat i)) b.
Proof.
  intros Hi. destruct i as [|i].
  - change (1 + Z.of_nat 0) with ROOTINO. rewrite made_addrs. apply (same_own mksb). intros c.
    apply (made_kept _ _ c (ho_file _ _ _ made_root)).
  - destruct (lookup_lt_is_Some_2 files i ltac:(lia)) as [f Hf].
    replace (1 + Z.of_nat (S i)) with (2 + Z.of_nat i) by lia. by apply (made_files i f).
Qed.

(** When the last block of the directory is not full, rounding its size up
    adds free entries only. *)
Lemma made_dir :
  n mod 512 <> 0 ->
  file_ok V2 mksb (addrs_at V ROOTINO) (root_size n) /\
  dirents V2 (addrs_at V ROOTINO) (root_size n) =
    root_entries files ++ replicate (Z.to_nat ((root_size n - n) / 16)) no_entry.
Proof.
  intros Hmod. pose proof made_root as [_ _ Hf Ht Hs Hb]. fold n in Hf, Ht, Hs, Hb. cbn [snd] in Hb.
  pose proof made_size as [En Hc]. set (a := addrs_at V ROOTINO) in *.
  assert (root_size n = (n + 511) / 512 * 512) as Er by (unfold root_size; Z.div_mod_to_equations; lia).
  assert (forall b, own V a b -> data_ok V2 mksb b /\ V2 b = V b) as HK by (intros b; by apply (made_kept a n)).
  pose proof (same_file mksb V V2 a n Hf HK) as Hf2. split.
  - split; try apply Hf2.
    + change (MAXFILE * BSIZE) with 71680. Z.div_mod_to_equations; lia.
    + intros k Hk Hlt. apply (fo_mapped _ _ _ _ Hf2 k Hk). unfold BSIZE in *. Z.div_mod_to_equations; lia.
  - assert (16 * ((root_size n - n) / 16) = root_size n - n /\ n <= root_size n) as [Ed Hle] by (Z.div_mod_to_equations; lia).
    apply dirents_of.
    + rewrite (contents_slack V2 a n), (same_contents mksb V V2 a n Hf HK), Hb by (lia || by apply (slack_same V V2)).
      unfold root_bytes. rewrite fmap_app, join_app, free_entries. do 2 f_equal. lia.
    + apply Forall_app. split; [|by apply Forall_replicate].
      pose proof (root_entries_names files) as Hnm. rewrite Forall_lookup in Hnm |- *. intros k e Hk. split; [|by eapply Hnm].
      unfold root_entries in Hk. apply lookup_app_Some in Hk as [Hk|[Hge Hk]].
      * destruct k as [|[|k]]; [injection Hk as <-; done|injection Hk as <-; done|done].
      * rewrite list_lookup_imap in Hk. destruct (files !! _) eqn:E; [|done]. injection Hk as <-. apply lookup_lt_Some in E.
        cbn [de_inum length] in *. lia.
    + rewrite length_app, length_replicate. unfold root_entries. rewrite length_app, length_imap. cbn [length]. lia.
Qed.

End made.

Lemma dir_full m : (16 * m) mod 512 = 16 * (m mod 32).
Proof. exact (Z.mul_mod_distr_l m 32 16 ltac:(done) ltac:(done)). Qed.

(** C18: From good files that fit on the disk mkfs makes an image with the super
    block of the layout, in which the bitmap marks the blocks in use and no
    others, each file has its bytes in blocks of its own, and the root
    directory, read as the kernel reads it, has the entries "." and "..", one
    entry for each file, and free entries, when the directory does not fill its
    last block. *)
Theorem mkfs_correct files :
  Forall good_file files -> 2 + Z.of_nat (length files) <= NINODES -> blocks (stored files) <= FSSIZE ->
  (2 + Z.of_nat (length files)) mod 32 <> 0 ->
  exists s V, main files mk_start = Ret tt s /\ image_file s V /\ superblock_of (V 1) = mksb /\
    (forall b, 0 <= b < FSSIZE -> used V mksb b = (b <? blocks (stored files))) /\
    (forall i f, files !! i = Some f -> holds V (2 + Z.of_nat i) (T_FILE, file_data f.2)) /\
    (forall i j b, (i <= length files)%nat -> (j <= length files)%nat -> i <> j ->
       own V (addrs_at V (1 + Z.of_nat i)) b -> ~ own V (addrs_at V (1 + Z.of_nat j)) b) /\
    let root := disk_inode V mksb ROOTINO in
    di_type root = T_DIR /\ file_ok V mksb (di_addrs root) (di_size root) /\
    exists k, dirents V (di_addrs root) (di_size root) = root_entries files ++ replicate k no_entry.
Proof.
  intros Hg Hn Hb Hmod. destruct (main_run files Hg Hn Hb) as (s & s0 & V & Hrun & Him & Hfile).
  eexists s, _. split; [exact Hrun|]. split; [exact Hfile|]. cbv zeta. rewrite (made_inode s0 V files Him).
  split_and!; [by eapply made_sb|intros b Hb'; by eapply made_used| | |done| |].
  - intros i f Hi. by apply (made_files s0 V files Him).
  - intros i j b Hi Hj Hne. rewrite !(made_owns s0 V files Him) by done.
    apply (im_own _ _ _ Him); unfold stored; cbn [length]; rewrite ?length_fmap; lia.
  - apply (made_dir s0 V files Him). pose proof (made_size s0 V files Him) as [-> _]. rewrite dir_full. lia.
  - eexists. apply (made_dir s0 V files Him). pose proof (made_size s0 V files Him) as [-> _]. rewrite dir_full. lia.
Qed.

(** When the entries fill the last block of the root directory, rounding
    its size up makes the directory one block longer than its blocks: the block
    that holds the last entries of the directory is not on the disk. *)
Theorem mkfs_root_hole files :
  Forall good_file files -> 2 + Z.of_nat (length files) <= NINODES -> blocks (stored files) <= FSSIZE ->
  (2 + Z.of_nat (length files)) mod 32 = 0 ->
  exists s V k, main files mk_start = Ret tt s /\ image_file s V /\
    let root := disk_inode V mksb ROOTINO in
    Z.of_nat k * BSIZE < di_size root /\ baddr V (di_addrs root) k = 0.
Proof.
  intros Hg Hn Hb Hmod. destruct (main_run files Hg Hn Hb) as (s & s0 & V & Hrun & Him & Hfile).
  pose proof (made_size s0 V files Him) as [En Hc]. set (n := flen _) in En.
  eexists s, _, (Z.to_nat (n / 512)). split; [exact Hrun|]. split; [exact Hfile|]. cbv zeta. rewrite (made_inode s0 V files Him).
  cbn [root_inode di_size di_addrs]. fold n. split.
  - unfold root_size, BSIZE. pose proof (Z.div_pos n 512). lia.
  - pose proof (made_root s0 V files Him) as Hr. rewrite (same_baddr mksb V).
    + apply (tight_mapped V); [apply Hr|apply Hr|fold n; lia|fold n; rewrite En, dir_full; lia].
    + intros b. apply (made_kept V files _ _ b (ho_file _ _ _ Hr)).
Qed.

(** ** The theorems on small images *)

(** A program of ten bytes, read in two pieces. *)
Definition demo_input : input_file := (chars "_cat", [chars "#!cat"; chars "a-b-c"]).

Lemma good_name name reads :
  forallb (fun x => negb (x =? 47) && (0 <=? x) && (x <? 256)) name = true ->
  forallb (forallb (fun x => (0 <=? x) && (x <? 256))) reads = true ->
  (flen (T_FILE, file_data reads) <=? MAXFILE * BSIZE) = true -> good_file (name, reads).
Proof.
  intros Hn Hr Hl%Z.leb_le. rewrite forallb_forall in Hn. split; cbn [fst snd]; [| | |done].
  - intros Hin%list_elem_of_In%Hn. done.
  - apply Forall_forall. intros x Hx%list_elem_of_In%Hn. unfold is_byte. lia.
  - revert Hr. apply forallb_Forall. intros l. apply forallb_Forall. intros x. unfold is_byte. lia.
Qed.

Lemma mkfs_correct_witness :
  exists s V, main [demo_input] mk_start = Ret tt s /\ image_file s V /\ holds V 2 (T_FILE, chars "#!cata-b-c").
Proof.
  destruct (mkfs_correct [demo_input]) as (s & V & Hrun & Hfile & _ & _ & Hf & _).
  - constructor; [by apply good_name; vm_compute|constructor].
  - by vm_compute.
  - by vm_compute.
  - by vm_compute.
  - exists s, V. split; [exact Hrun|]. split; [exact Hfile|]. exact (Hf 0%nat demo_input eq_refl).
Defined.

(** Thirty files, and the two entries of every directory. *)
Lemma mkfs_root_hole_witness :
  exists s V k, main (replicate 30 (chars "f", [])) mk_start = Ret tt s /\ image_file s V /\
    Z.of_nat k * BSIZE < di_size (disk_inode V mksb ROOTINO) /\ baddr V (di_addrs (disk_inode V mksb ROOTINO)) k = 0.
Proof.
  apply (mkfs_root_hole (replicate 30 (chars "f", []))).
  - apply Forall_replicate. by apply good_name; vm_compute.
  - by vm_compute.
  - by vm_compute.
  - by vm_compute.
Defined.
