(* ===== verification/Ide.v ===== *)
(** * The IDE disk driver (ide.c)

    The controller is reached through I/O ports and is not part of the sources:
    its ports are the operations of a class, and what the driver relies on is a
    class of laws about three views of the controller, its registers, its
    medium and the command in progress.  The driver's state is the queue of
    buffers, linked through [qnext] as in the code, the buffers, the controller
    and the buffers whose sleepers were woken.  Holding the lock of the queue
    makes the part of [iderw] up to its wait loop one step, and [ideintr]
    another; a process that waits gives up the processor. *)

From stdpp Require Import base numbers list option strings sets.
From S2P Require Import Prelude Kernel.

(** ** The controller *)

(** The instructions [inb], [outb], [insl] and [outsl] of x86.h on a controller
    [D]; [insl] gives the bytes it stores. *)
Class AtaPorts (D : Type) := {
  inb : Z -> D -> Z * D;
  outb : Z -> Z -> D -> D;
  insl : Z -> nat -> D -> list Z * D;
  outsl : Z -> list Z -> D -> D;
}.

Definition SECTOR_SIZE : Z := 512.
Definition IDE_BSY : Z := 0x80.
Definition IDE_DRDY : Z := 0x40.
Definition IDE_DF : Z := 0x20.
Definition IDE_ERR : Z := 0x01.
Definition IDE_CMD_READ : Z := 0x20.
Definition IDE_CMD_WRITE : Z := 0x30.
Definition IDE_CMD_RDMUL : Z := 0xc4.
Definition IDE_CMD_WRMUL : Z := 0xc5.

(** ** State *)

Record ibuf := MkIbuf {
  q_flags : Z;
  q_dev : Z;
  q_blockno : Z;
  q_locked : bool;
  q_next : option nat;
  q_data : list Z;
}.

Record ide {D : Type} := MkIde {
  ide_queue : option nat;
  ide_bufs : nat -> ibuf;
  ide_dev : D;
  ide_disk1 : bool;
  ide_woken : list nat;
}.
Arguments ide D : clear implicits.
Arguments MkIde {D} _ _ _ _ _.

Section Driver.
Context {D : Type} `{AtaPorts D}.
Abbreviation I := (M (ide D)).

Definition set_queue (q : option nat) (s : ide D) : ide D :=
  MkIde q (ide_bufs s) (ide_dev s) (ide_disk1 s) (ide_woken s).
Definition set_dev (d : D) (s : ide D) : ide D :=
  MkIde (ide_queue s) (ide_bufs s) d (ide_disk1 s) (ide_woken s).
Definition upd_buf (b : nat) (f : ibuf -> ibuf) (s : ide D) : ide D :=
  MkIde (ide_queue s) (fun i => if (i =? b)%nat then f (ide_bufs s i) else ide_bufs s i)
    (ide_dev s) (ide_disk1 s) (ide_woken s).
Definition set_disk1 (s : ide D) : ide D :=
  MkIde (ide_queue s) (ide_bufs s) (ide_dev s) true (ide_woken s).
Definition add_woken (b : nat) (s : ide D) : ide D :=
  MkIde (ide_queue s) (ide_bufs s) (ide_dev s) (ide_disk1 s) (ide_woken s ++ [b]).

Definition set_q_flags (v : Z) (b : ibuf) : ibuf :=
  MkIbuf v (q_dev b) (q_blockno b) (q_locked b) (q_next b) (q_data b).
Definition set_q_next (v : option nat) (b : ibuf) : ibuf :=
  MkIbuf (q_flags b) (q_dev b) (q_blockno b) (q_locked b) v (q_data b).
Definition set_q_data (v : list Z) (b : ibuf) : ibuf :=
  MkIbuf (q_flags b) (q_dev b) (q_blockno b) (q_locked b) (q_next b) v.

Definition in_port (p : Z) : I Z := fun s => let '(v, d) := inb p (ide_dev s) in Ret v (set_dev d s).
Definition out_port (p v : Z) : I unit := modify (fun s => set_dev (outb p v (ide_dev s)) s).

(** ** The code *)

Fixpoint idewait (fuel : nat) (checkerr : bool) : I Z :=
  match fuel with
  | O => out_of_fuel
  | S fuel' =>
      r <- in_port 0x1f7 ;;
      if negb (Z.land r (Z.lor IDE_BSY IDE_DRDY) =? IDE_DRDY) then idewait fuel' checkerr
      else ret (if checkerr && negb (Z.land r (Z.lor IDE_DF IDE_ERR) =? 0) then -1 else 0)
  end.

(** The search for disk 1: at most [n] looks at the status. *)
Fixpoint look_for_disk1 (n : nat) : I unit :=
  match n with
  | O => ret tt
  | S n' => r <- in_port 0x1f7 ;; if negb (r =? 0) then modify set_disk1 else look_for_disk1 n'
  end.

Definition ideinit (fuel : nat) : I unit :=
  idewait fuel false ;;
  out_port 0x1f6 (Z.lor 0xe0 (Z.shiftl 1 4)) ;;
  look_for_disk1 1000 ;;
  out_port 0x1f6 (Z.lor 0xe0 (Z.shiftl 0 4)).

Definition idestart (fuel : nat) (b : option nat) : I unit :=
  match b with
  | None => panic "idestart"
  | Some i =>
      b <- gets (fun s => ide_bufs s i) ;;
      if FSSIZE <=? q_blockno b then panic "incorrect blockno" else
      let sector_per_block := BSIZE / SECTOR_SIZE in
      let sector := q_blockno b * sector_per_block in
      let read_cmd := if sector_per_block =? 1 then IDE_CMD_READ else IDE_CMD_RDMUL in
      let write_cmd := if sector_per_block =? 1 then IDE_CMD_WRITE else IDE_CMD_WRMUL in
      if 7 <? sector_per_block then panic "idestart" else
      idewait fuel false ;;
      out_port 0x3f6 0 ;;
      out_port 0x1f2 sector_per_block ;;
      out_port 0x1f3 (Z.land sector 0xff) ;;
      out_port 0x1f4 (Z.land (Z.shiftr sector 8) 0xff) ;;
      out_port 0x1f5 (Z.land (Z.shiftr sector 16) 0xff) ;;
      out_port 0x1f6 (Z.lor 0xe0 (Z.lor (Z.shiftl (Z.land (q_dev b) 1) 4) (Z.land (Z.shiftr sector 24) 0x0f))) ;;
      if negb (Z.land (q_flags b) B_DIRTY =? 0) then
        out_port 0x1f7 write_cmd ;;
        modify (fun s => set_dev (outsl 0x1f0 (q_data b) (ide_dev s)) s)
      else out_port 0x1f7 read_cmd
  end.

Definition ideintr (fuel : nat) : I unit :=
  q <- gets ide_queue ;;
  match q with
  | None => ret tt
  | Some i =>
      b <- gets (fun s => ide_bufs s i) ;;
      modify (set_queue (q_next b)) ;;
      (if Z.land (q_flags b) B_DIRTY =? 0 then
         r <- idewait fuel true ;;
         when (0 <=? r) (fun s => let '(l, d) := insl 0x1f0 (Z.to_nat (BSIZE / 4)) (ide_dev s) in
                                  Ret tt (upd_buf i (set_q_data l) (set_dev d s)))
       else ret tt) ;;
      modify (upd_buf i (fun b => set_q_flags (Z.lor (q_flags b) B_VALID) b)) ;;
      modify (upd_buf i (fun b => set_q_flags (Z.land (q_flags b) (Z.lnot B_DIRTY)) b)) ;;
      modify (add_woken i) ;;
      q <- gets ide_queue ;;
      match q with Some _ => idestart fuel q | None => ret tt end
  end.

(** The end of the queue: the buffer whose [qnext] is null, from [i] on. *)
Fixpoint queue_end (fuel : nat) (bs : nat -> ibuf) (i : nat) : option nat :=
  match fuel with
  | O => None
  | S fuel' => match q_next (bs i) with None => Some i | Some j => queue_end fuel' bs j end
  end.

(** [for(pp=&idequeue; *pp; pp=&( *pp)->qnext); *pp = b] *)
Definition append_queue (qfuel : nat) (i : nat) : I unit :=
  q <- gets ide_queue ;;
  match q with
  | None => modify (set_queue (Some i))
  | Some j =>
      bs <- gets ide_bufs ;;
      match queue_end qfuel bs j with
      | None => out_of_fuel
      | Some e => modify (upd_buf e (set_q_next (Some i)))
      end
  end.

(** Whether the request of a buffer has finished. *)
Definition finished (b : ibuf) : bool := Z.land (q_flags b) (Z.lor B_VALID B_DIRTY) =? B_VALID.

(** [iderw] up to its wait loop. *)
Definition iderw_submit (fuel qfuel : nat) (i : nat) : I unit :=
  b <- gets (fun s => ide_bufs s i) ;;
  if negb (q_locked b) then panic "iderw: buf not locked" else
  if finished b then panic "iderw: nothing to do" else
  disk1 <- gets ide_disk1 ;;
  if negb (q_dev b =? 0) && negb disk1 then panic "iderw: ide disk 1 not present" else
  modify (upd_buf i (set_q_next None)) ;;
  append_queue qfuel i ;;
  q <- gets ide_queue ;;
  when (match q with Some j => (j =? i)%nat | None => false end) (idestart fuel (Some i)).

(** The wait loop: the process gives up the processor until it is woken. *)
Fixpoint iderw_wait (rounds : nat) (i : nat) : I unit :=
  match rounds with
  | O => out_of_fuel
  | S rounds' =>
      b <- gets (fun s => ide_bufs s i) ;;
      if finished b then ret tt else swtch (Some i) ;; iderw_wait rounds' i
  end.

Definition iderw (rounds fuel qfuel : nat) (i : nat) : I unit :=
  iderw_submit fuel qfuel i ;; iderw_wait rounds i.
End Driver.

(** ** What the driver relies on *)

(** The medium address in the registers: drive and sector. *)
Definition addr_of (r : Z -> Z) : Z * Z :=
  (Z.land (Z.shiftr (r 0x1f6) 4) 1,
   r 0x1f3 + 256 * r 0x1f4 + 65536 * r 0x1f5 + 16777216 * Z.land (r 0x1f6) 15).

(** The ATA controller in its PIO mode: reading the status [polls] times finds
    it ready, the command block registers keep what is written, a command
    refers to the sector the registers name, and a sector goes through the data
    port. *)
Class AtaLaws (D : Type) `{AtaPorts D} := {
  reg : D -> Z -> Z;
  medium : D -> Z * Z -> list Z;
  command : D -> option Z;
  failed : D -> bool;
  polls : D -> nat;
  same_view (d d' : D) : Prop :=
    (forall r, reg d' r = reg d r) /\ (forall a, medium d' a = medium d a) /\
    command d' = command d /\ failed d' = failed d;
  status_busy d n : polls d = S n ->
    Z.land (inb 0x1f7 d).1 (Z.lor IDE_BSY IDE_DRDY) <> IDE_DRDY /\
    polls (inb 0x1f7 d).2 = n /\ same_view d (inb 0x1f7 d).2;
  status_ready d : polls d = O ->
    Z.land (inb 0x1f7 d).1 (Z.lor IDE_BSY IDE_DRDY) = IDE_DRDY /\ same_view d (inb 0x1f7 d).2 /\
    (Z.land (inb 0x1f7 d).1 (Z.lor IDE_DF IDE_ERR) = 0 <-> failed d = false);
  out_register d p v : p ∈ [0x3f6; 0x1f2; 0x1f3; 0x1f4; 0x1f5; 0x1f6] ->
    (forall r, reg (outb p v d) r = if r =? p then v else reg d r) /\
    (forall a, medium (outb p v d) a = medium d a);
  out_command d c : c = IDE_CMD_READ \/ c = IDE_CMD_WRITE ->
    command (outb 0x1f7 c d) = Some c /\ (forall r, reg (outb 0x1f7 c d) r = reg d r) /\
    (forall a, medium (outb 0x1f7 c d) a = medium d a);
  write_data d l : command d = Some IDE_CMD_WRITE -> Z.of_nat (length l) = SECTOR_SIZE ->
    command (outsl 0x1f0 l d) = None /\
    (forall a, medium (outsl 0x1f0 l d) a = if decide (a = addr_of (reg d)) then l else medium d a);
  read_data d : command d = Some IDE_CMD_READ -> failed d = false ->
    (insl 0x1f0 128 d).1 = medium d (addr_of (reg d)) /\ command (insl 0x1f0 128 d).2 = None /\
    (forall a, medium (insl 0x1f0 128 d).2 a = medium d a);
}.

(** ** Requests *)

Section Spec.
Context {D : Type} `{AtaLaws D} (fuel : nat).
Hypothesis Hpolls : forall d : D, (polls d < fuel)%nat.

Lemma same_view_refl d : same_view d d.
Proof. by repeat split. Qed.

Lemma same_view_trans d1 d2 d3 : same_view d1 d2 -> same_view d2 d3 -> same_view d1 d3.
Proof. intros (A1 & A2 & A3 & A4) (B1 & B2 & B3 & B4). split_and!; intros; congruence. Qed.

Lemma idewait_spec chk s : exists d', idewait fuel chk s = Ret (if chk && failed (ide_dev s) then -1 else 0) (set_dev d' s) /\
  same_view (ide_dev s) d'.
Proof.
  specialize (Hpolls (ide_dev s)). revert s Hpolls. generalize fuel as f. induction f as [|f IH]; intros s Hp; [lia|].
  cbn [idewait]. unfold bind, in_port. destruct (polls (ide_dev s)) as [|n] eqn:En.
  - destruct (status_ready _ En) as (H1 & H2 & H3). destruct (inb 0x1f7 (ide_dev s)) as [v d']. cbn [res_bind fst snd] in *.
    rewrite (proj2 (Z.eqb_eq _ _) H1). cbn [negb]. exists d'. split; [|done]. unfold ret. f_equal.
    destruct chk; cbn [andb]; [|done]. destruct (failed (ide_dev s)).
    + rewrite (proj2 (Z.eqb_neq _ _)); [done|]. intros E. apply H3 in E. done.
    + rewrite (proj2 (Z.eqb_eq _ _)); [done|]. by apply H3.
  - destruct (status_busy _ _ En) as (H1 & H2 & H3). destruct (inb 0x1f7 (ide_dev s)) as [v d']. cbn [res_bind fst snd] in *.
    rewrite (proj2 (Z.eqb_neq _ _) H1). cbn [negb]. destruct (IH (set_dev d' s)) as (d2 & Hr & Hv); [cbn; lia|].
    exists d2. cbn in Hr, Hv. destruct H3 as (V1 & V2 & V3 & V4). rewrite V4 in Hr. split; [exact Hr|].
    eapply same_view_trans; [|exact Hv]. by split_and!.
Qed.

(** A request a caller may make: locked, on a block of the file system, with
    something to do. *)
Definition request (b : ibuf) : Prop :=
  q_locked b = true /\ 0 <= q_blockno b < FSSIZE /\ (q_dev b = 0 \/ q_dev b = 1) /\
  finished b = false /\ Z.of_nat (length (q_data b)) = BSIZE.

Definition dirty (b : ibuf) : bool := negb (Z.land (q_flags b) B_DIRTY =? 0).
Definition place (b : ibuf) : Z * Z := (q_dev b, q_blockno b).

(** The medium and the data of the buffer when a request is served at once; [e]
    if the controller reports an error. *)
Definition store (m : Z * Z -> list Z) (a : Z * Z) (l : list Z) : Z * Z -> list Z :=
  fun x => if decide (x = a) then l else m x.
Definition after (m : Z * Z -> list Z) (b : ibuf) : Z * Z -> list Z :=
  if dirty b then store m (place b) (q_data b) else m.
Definition answer (e : bool) (m : Z * Z -> list Z) (b : ibuf) : list Z :=
  if dirty b || e then q_data b else m (place b).

(** The controller after [idestart]: a write is done, a read is under way. *)
Definition started (m : Z * Z -> list Z) (b : ibuf) (d : D) : Prop :=
  if dirty b then command d = None /\ forall a, medium d a = after m b a
  else command d = Some IDE_CMD_READ /\ addr_of (reg d) = place b /\ forall a, medium d a = m a.

Lemma land_byte x : Z.land x 0xff = x mod 256.
Proof. change 0xff with (Z.ones 8). by rewrite Z.land_ones by lia. Qed.

Lemma sector_regs n : 0 <= n < FSSIZE ->
  Z.land n 0xff + 256 * Z.land (Z.shiftr n 8) 0xff + 65536 * Z.land (Z.shiftr n 16) 0xff = n /\ Z.land (Z.shiftr n 24) 0x0f = 0.
Proof.
  intros Hn. unfold FSSIZE in Hn. rewrite !land_byte, !Z.shiftr_div_pow2 by lia. split.
  - change (2 ^ 8) with 256. change (2 ^ 16) with 65536. Z.div_mod_to_equations. lia.
  - rewrite Z.div_small by lia. apply Z.land_0_l.
Qed.

(** The registers [idestart] writes before the command. *)
Definition program (b : ibuf) (d : D) : D :=
  outb 0x1f6 (Z.lor 0xe0 (Z.lor (Z.shiftl (Z.land (q_dev b) 1) 4) (Z.land (Z.shiftr (q_blockno b) 24) 0x0f)))
  (outb 0x1f5 (Z.land (Z.shiftr (q_blockno b) 16) 0xff) (outb 0x1f4 (Z.land (Z.shiftr (q_blockno b) 8) 0xff)
  (outb 0x1f3 (Z.land (q_blockno b) 0xff) (outb 0x1f2 1 (outb 0x3f6 0 d))))).

Lemma reg_out d p v r : p ∈ [0x3f6; 0x1f2; 0x1f3; 0x1f4; 0x1f5; 0x1f6] -> reg (outb p v d) r = if r =? p then v else reg d r.
Proof. intros Hp. by destruct (out_register d p v Hp) as [-> _]. Qed.
Lemma medium_out d p v a : p ∈ [0x3f6; 0x1f2; 0x1f3; 0x1f4; 0x1f5; 0x1f6] -> medium (outb p v d) a = medium d a.
Proof. intros Hp. by destruct (out_register d p v Hp) as [_ ->]. Qed.

Lemma program_spec b d : request b -> addr_of (reg (program b d)) = place b /\ forall a, medium (program b d) a = medium d a.
Proof.
  intros (_ & Hn & Hd & _). destruct (sector_regs _ Hn) as [H1 H2]. unfold program. split.
  - unfold addr_of, place. rewrite !reg_out by set_solver. cbn [Z.eqb Pos.eqb]. rewrite H2.
    assert (Hr : forall v, v = 0 \/ v = 1 -> Z.land (Z.shiftr (Z.lor 224 (Z.lor (Z.shiftl (Z.land v 1) 4) 0)) 4) 1 = v /\
      Z.land (Z.lor 224 (Z.lor (Z.shiftl (Z.land v 1) 4) 0)) 15 = 0) by (by intros v [-> | ->]).
    destruct (Hr _ Hd) as [-> ->]. f_equal. lia.
  - intros a. by rewrite !medium_out by set_solver.
Qed.

Lemma sector_one : BSIZE / SECTOR_SIZE = 1.
Proof. reflexivity. Qed.

(** [idestart] on a request, from a controller whose medium is [m]. *)
Lemma idestart_spec s i m : request (ide_bufs s i) -> (forall a, medium (ide_dev s) a = m a) ->
  exists d', idestart fuel (Some i) s = Ret tt (set_dev d' s) /\ started m (ide_bufs s i) d'.
Proof.
  intros Hr Hm. pose proof Hr as (_ & Hn & _ & _ & Hlen). unfold idestart, bind, gets, out_port, modify. cbn [res_bind].
  set (b := ide_bufs s i) in *. rewrite (proj2 (Z.leb_gt _ _)) by lia. rewrite sector_one. cbn [Z.eqb Pos.eqb Z.ltb Z.compare Pos.compare Pos.compare_cont].
  rewrite Z.mul_1_r. destruct (idewait_spec false s) as (d0 & Hw & Hv). cbn [andb] in Hw. rewrite Hw. cbn [res_bind ide_dev set_dev].
  fold (program b d0). destruct (program_spec b d0 Hr) as [Ha Hp]. destruct Hv as (_ & V2 & _).
  assert (Hm' : forall a, medium (program b d0) a = m a) by (intros a; by rewrite Hp, V2).
  unfold started, after. destruct (dirty b) eqn:Ed; unfold dirty in Ed; rewrite Ed; cbn [res_bind ide_dev set_dev].
  - fold (program b d0). destruct (out_command (program b d0) IDE_CMD_WRITE (or_intror eq_refl)) as (C1 & C2 & C3).
    destruct (write_data _ (q_data b) C1 Hlen) as [W1 W2]. eexists. split; [reflexivity|]. split; [exact W1|].
    intros a. cbn [ide_dev set_dev]. rewrite W2. unfold store.
    assert (addr_of (reg (outb 0x1f7 IDE_CMD_WRITE (program b d0))) = place b) as ->.
    { rewrite <- Ha. unfold addr_of. by rewrite !C2. }
    case_decide; [done|]. by rewrite C3.
  - destruct (out_command (program b d0) IDE_CMD_READ (or_introl eq_refl)) as (C1 & C2 & C3).
    eexists. split; [reflexivity|]. split_and!; [exact C1| |].
    + rewrite <- Ha. unfold addr_of. by rewrite !C2.
    + intros a. by rewrite C3.
Qed.

(** ** The queue *)

(** The buffers linked from [q] are [l]. *)
Fixpoint qseg (bs : nat -> ibuf) (q : option nat) (l : list nat) : Prop :=
  match l with
  | [] => q = None
  | i :: l' => q = Some i /\ qseg bs (q_next (bs i)) l'
  end.

Lemma qseg_ext bs bs' q l : (forall i, i ∈ l -> q_next (bs' i) = q_next (bs i)) -> qseg bs q l -> qseg bs' q l.
Proof.
  revert q. induction l as [|i l IH]; intros q Hx; [done|]. intros [-> Hl]. split; [done|].
  rewrite Hx by set_solver. apply IH; [set_solver|done].
Qed.

Lemma queue_end_spec qfuel bs i l : qseg bs (Some i) (i :: l) -> (length l < qfuel)%nat ->
  exists l' e, i :: l = l' ++ [e] /\ queue_end qfuel bs i = Some e.
Proof.
  revert i l. induction qfuel as [|f IH]; intros i l Hq Hf; [lia|]. destruct Hq as [_ Hq]. cbn [queue_end].
  destruct l as [|j l]; cbn in Hq.
  - rewrite Hq. by exists [], i.
  - destruct Hq as [Hn Hq]. rewrite Hn. destruct (IH j l) as (l' & e & He & Hr); [by split|simpl in Hf; lia|].
    exists (i :: l'), e. rewrite He. by split.
Qed.

(** Linking [i] behind the last buffer. *)
Lemma qseg_snoc bs q l e i : qseg bs q (l ++ [e]) -> NoDup (l ++ [e]) -> q_next (bs i) = None -> i ∉ l ++ [e] ->
  qseg (fun j => if (j =? e)%nat then set_q_next (Some i) (bs j) else bs j) q ((l ++ [e]) ++ [i]).
Proof.
  revert q. induction l as [|j l IH]; intros q Hq Hnd Hn Hi; cbn [app qseg] in *.
  - destruct Hq as [-> _]. split; [done|]. rewrite Nat.eqb_refl. cbn [q_next set_q_next]. split; [done|].
    rewrite (proj2 (Nat.eqb_neq i e)) by set_solver. done.
  - destruct Hq as [-> Hq]. split; [done|]. apply NoDup_cons in Hnd as [Hj Hnd].
    rewrite (proj2 (Nat.eqb_neq j e)) by set_solver. apply IH; [done|done|done|set_solver].
Qed.

(** The state of the driver: the queue is [l], and [m] is the medium as it is
    when the requests before [l] are served. *)
Record ide_ok (s : ide D) (l : list nat) (m : Z * Z -> list Z) : Prop := {
  iok_queue : qseg (ide_bufs s) (ide_queue s) l;
  iok_nodup : NoDup l;
  iok_reqs : forall i, i ∈ l -> request (ide_bufs s i);
  iok_dev : match l with
            | [] => forall a, medium (ide_dev s) a = m a
            | i :: _ => started m (ide_bufs s i) (ide_dev s)
            end;
}.

(** The buffer apart from its link. *)
Definition same_buf (b b' : ibuf) : Prop := b' = set_q_next (q_next b') b.

Lemma request_same b b' : same_buf b b' -> request b -> request b'.
Proof. intros -> H'. exact H'. Qed.
Lemma started_same m b b' d : same_buf b b' -> started m b d -> started m b' d.
Proof. intros -> H'. exact H'. Qed.
Lemma same_buf_next v b : same_buf b (set_q_next v b).
Proof. done. Qed.
Lemma same_buf_refl b : same_buf b b.
Proof. by destruct b. Qed.
Lemma same_buf_trans b1 b2 b3 : same_buf b1 b2 -> same_buf b2 b3 -> same_buf b1 b3.
Proof. unfold same_buf. intros -> ->. by destruct b1. Qed.

(** [append_queue] on a state whose buffer [i] has a null link. *)
Lemma append_queue_spec qfuel (s : ide D) l i : qseg (ide_bufs s) (ide_queue s) l -> NoDup l -> i ∉ l ->
  q_next (ide_bufs s i) = None -> (length l <= qfuel)%nat ->
  exists q bs, append_queue qfuel i s = Ret tt (MkIde q bs (ide_dev s) (ide_disk1 s) (ide_woken s)) /\
    qseg bs q (l ++ [i]) /\ forall j, same_buf (ide_bufs s j) (bs j).
Proof.
  intros Hq Hnd Hi Hn Hf. unfold append_queue, bind, gets. cbn [res_bind]. destruct l as [|j l].
  - cbn in Hq. rewrite Hq. eexists _, _. split; [reflexivity|]. split; [by split|]. intros j. apply same_buf_refl.
  - pose proof Hq as [Hj _]. rewrite Hj in Hq |- *. cbn [res_bind].
    destruct (queue_end_spec qfuel (ide_bufs s) j l Hq ltac:(simpl in Hf; lia)) as (l' & e & He & ->).
    eexists _, _. split; [reflexivity|]. rewrite He in *. split; [by rewrite Hj; apply qseg_snoc|].
    intros k. cbn. destruct (k =? e)%nat; [apply same_buf_next|apply same_buf_refl].
Qed.

(** [iderw] up to its wait puts the request at the end of the queue. *)
Lemma iderw_submit_spec qfuel s l m i : ide_ok s l m -> i ∉ l -> request (ide_bufs s i) ->
  (q_dev (ide_bufs s i) = 0 \/ ide_disk1 s = true) -> (length l <= qfuel)%nat ->
  exists s', iderw_submit fuel qfuel i s = Ret tt s' /\ ide_ok s' (l ++ [i]) m /\
    (forall j, same_buf (ide_bufs s j) (ide_bufs s' j)) /\ ide_woken s' = ide_woken s /\ ide_disk1 s' = ide_disk1 s.
Proof.
  intros [Hq Hnd Hreqs Hdev] Hi Hr Hdisk Hf. pose proof Hr as (Hlk & _ & Hd01 & Hfin & _).
  unfold iderw_submit, bind, gets, modify. cbn [res_bind]. rewrite Hlk, Hfin. cbn [negb res_bind].
  assert (negb (q_dev (ide_bufs s i) =? 0) && negb (ide_disk1 s) = false) as ->.
  { destruct Hdisk as [-> | ->]; [done|apply andb_false_r]. }
  set (s1 := upd_buf i (set_q_next None) s).
  assert (Hb1 : forall j, same_buf (ide_bufs s j) (ide_bufs s1 j)).
  { intros j. cbn. destruct (j =? i)%nat; [apply same_buf_next|apply same_buf_refl]. }
  destruct (append_queue_spec qfuel s1 l i) as (q & bs & -> & Hq' & Hb2); [|done|done| |done|].
  { apply (qseg_ext (ide_bufs s)); [|done]. intros j Hj. cbn. by rewrite (proj2 (Nat.eqb_neq j i)) by set_solver. }
  { cbn. by rewrite Nat.eqb_refl. }
  cbn [res_bind ide_queue]. assert (Hb : forall j, same_buf (ide_bufs s j) (bs j)) by (intros j; by eapply same_buf_trans).
  assert (Hnd' : NoDup (l ++ [i])).
  { apply NoDup_app. split_and!; [done|set_solver|apply NoDup_singleton]. }
  assert (Hreqs' : forall j, j ∈ l ++ [i] -> request (bs j)).
  { intros j [Hj| ->%list_elem_of_singleton]%elem_of_app; (eapply request_same; [apply Hb|]); [by apply Hreqs|done]. }
  destruct l as [|j l]; cbn [app] in Hq'.
  - destruct Hq' as [-> Hq']. rewrite Nat.eqb_refl. cbn [when].
    destruct (idestart_spec (MkIde (Some i) bs (ide_dev s1) (ide_disk1 s1) (ide_woken s1)) i m) as (d' & -> & Hst);
      [exact (request_same _ _ (Hb i) Hr)|done|].
    eexists. split; [reflexivity|]. split_and!; [|done..]. by split.
  - pose proof Hq' as [-> _]. rewrite (proj2 (Nat.eqb_neq j i)) by set_solver. cbn [when ret].
    eexists. split; [reflexivity|]. split_and!; [|done..]. split; [done|done|done|]. exact (started_same _ _ _ _ (Hb j) Hdev).
Qed.

(** ** Interrupts *)

(** The buffer after its request: [l] is its data. *)
Definition complete_buf (l : list Z) (b : ibuf) : ibuf :=
  set_q_flags (Z.land (Z.lor (q_flags b) B_VALID) (Z.lnot B_DIRTY)) (set_q_data l b).

Lemma complete_flags f : Z.land (Z.land (Z.lor f B_VALID) (Z.lnot B_DIRTY)) (Z.lor B_VALID B_DIRTY) = B_VALID.
Proof.
  rewrite <- Z.land_assoc. change (Z.land (Z.lnot B_DIRTY) (Z.lor B_VALID B_DIRTY)) with B_VALID.
  apply Z.bits_inj'. intros n Hn. rewrite Z.land_spec, Z.lor_spec.
  destruct (Z.testbit B_VALID n); [by rewrite orb_true_r|by rewrite andb_false_r].
Qed.

Lemma complete_finished l b : finished (complete_buf l b) = true.
Proof. unfold finished, complete_buf. cbn [q_flags set_q_flags set_q_data]. rewrite complete_flags. apply Z.eqb_refl. Qed.

(** The part of [ideintr] that moves the data. *)
Lemma ideintr_transfer (s : ide D) i m b : ide_bufs s i = b -> started m b (ide_dev s) ->
  exists d' bs, (if Z.land (q_flags b) B_DIRTY =? 0 then
         r <- idewait fuel true ;;
         when (0 <=? r) (fun s => let '(l, d) := insl 0x1f0 (Z.to_nat (BSIZE / 4)) (ide_dev s) in
                                  Ret tt (upd_buf i (set_q_data l) (set_dev d s)))
       else ret tt) s = Ret tt (MkIde (ide_queue s) bs d' (ide_disk1 s) (ide_woken s)) /\
    bs i = set_q_data (answer (failed (ide_dev s)) m b) b /\ (forall j, j <> i -> bs j = ide_bufs s j) /\
    forall a, medium d' a = after m b a.
Proof.
  intros Hb. unfold started, after, answer. destruct (dirty b) eqn:Ed; unfold dirty in Ed; intros Hst; cbn [orb].
  - apply negb_true_iff in Ed. rewrite Ed. destruct Hst as [_ Hm]. exists (ide_dev s), (ide_bufs s).
    split_and!; [by destruct s|rewrite Hb; by destruct b|done|done].
  - apply negb_false_iff in Ed. rewrite Ed. destruct Hst as (Hc & Ha & Hm).
    destruct (idewait_spec true s) as (d0 & Hw & V1 & V2 & V3 & V4). cbn [andb] in Hw.
    unfold bind. rewrite Hw. cbn [res_bind]. destruct (failed (ide_dev s)) eqn:Hf.
    { cbn [Z.leb Z.compare when]. exists d0, (ide_bufs s). split_and!; [done|rewrite Hb; by destruct b|done|intros a; by rewrite V2]. }
    cbn [Z.leb Z.compare when]. change (Z.to_nat (BSIZE / 4)) with 128%nat. cbn [ide_dev set_dev].
    destruct (read_data d0) as (R1 & R2 & R3); [congruence|congruence|].
    destruct (insl 0x1f0 128 d0) as [l d1]. cbn [fst snd] in *. eexists d1, _. split; [reflexivity|].
    split_and!.
    + cbn. rewrite Nat.eqb_refl, Hb. f_equal. rewrite R1, V2, Hm. f_equal. rewrite <- Ha. unfold addr_of. by rewrite !V1.
    + intros j Hj. cbn. by rewrite (proj2 (Nat.eqb_neq _ _)).
    + intros a. by rewrite R3, V2.
Qed.

(** [ideintr] completes the first request of the queue and starts the next. *)
Lemma ideintr_spec (s : ide D) l m i : ide_ok s (i :: l) m ->
  exists s', ideintr fuel s = Ret tt s' /\ ide_ok s' l (after m (ide_bufs s i)) /\
    ide_bufs s' i = complete_buf (answer (failed (ide_dev s)) m (ide_bufs s i)) (ide_bufs s i) /\
    (forall j, j <> i -> ide_bufs s' j = ide_bufs s j) /\ ide_woken s' = ide_woken s ++ [i] /\ ide_disk1 s' = ide_disk1 s.
Proof.
  intros [Hq Hnd Hreqs Hdev]. destruct Hq as [Hhd Hq]. apply NoDup_cons in Hnd as [Hil Hnd].
  unfold ideintr, gets, modify. unfold bind at 1. cbn [res_bind]. rewrite Hhd. unfold bind at 1. cbn [res_bind].
  unfold bind at 1. cbn [res_bind]. set (b := ide_bufs s i) in *. set (s1 := set_queue (q_next b) s).
  destruct (ideintr_transfer s1 i m b eq_refl Hdev) as (d' & bs & Ht & Hbi & Hbj & Hm').
  unfold bind at 1. rewrite Ht. unfold bind. cbn [res_bind ide_queue upd_buf add_woken].
  change (ide_queue s1) with (q_next b).
  set (s2 := add_woken i _).
  assert (Hi2 : ide_bufs s2 i = complete_buf (answer (failed (ide_dev s)) m b) b).
  { subst s2. cbn [ide_bufs add_woken upd_buf]. rewrite !Nat.eqb_refl, Hbi. done. }
  assert (Hj2 : forall j, j <> i -> ide_bufs s2 j = ide_bufs s j).
  { intros j Hj. subst s2. cbn [ide_bufs add_woken upd_buf]. rewrite !(proj2 (Nat.eqb_neq j i)) by done. by apply Hbj. }
  assert (Hq2 : qseg (ide_bufs s2) (q_next b) l).
  { eapply qseg_ext; [|exact Hq]. intros j Hj. rewrite Hj2; [done|]. by intros ->. }
  assert (Hr2 : forall j, j ∈ l -> request (ide_bufs s2 j)).
  { intros j Hj. rewrite Hj2 by (by intros ->). apply Hreqs. set_solver. }
  destruct l as [|k l].
  - cbn in Hq2. rewrite Hq2. exists s2. split; [done|]. split_and!; [|done..]. by split.
  - pose proof Hq2 as [-> _]. destruct (idestart_spec s2 k (after m b)) as (d2 & Hst & Hst2); [apply Hr2; set_solver|done|].
    rewrite Hst. eexists. split; [reflexivity|]. split_and!; [|done..]. split; [|done|done|done].
    exact Hq2.
Qed.

(** ** Interleavings *)

(** A process prepares its buffer and calls [iderw], or the disk interrupts. *)
Inductive istep :=
  | Submit (i : nat) (b : ibuf)
  | Interrupt.

(** What becomes of a request: the buffer whose sleeper was woken, whether the
    controller reported an error, whether the wait of [iderw] is over, and the
    buffer's flags and data as the process finds them. *)
Record outcome := MkOutcome {
  o_buf : nat;
  o_error : bool;
  o_returns : bool;
  o_valid : bool;
  o_dirty : bool;
  o_data : list Z;
}.

Definition outcome_of (e : bool) (s : ide D) (i : nat) : outcome :=
  let b := ide_bufs s i in
  MkOutcome i e (match iderw_wait 1 i s with Ret _ _ => true | _ => false end)
    (Z.testbit (q_flags b) 1) (Z.testbit (q_flags b) 2) (q_data b).

(** One step, with the outcome of the requests whose processes it woke. *)
Definition istep_run (qfuel : nat) (st : istep) (s : ide D) : option (ide D * list outcome) :=
  match match st with
        | Submit i b => iderw_submit fuel qfuel i (upd_buf i (fun _ => b) s)
        | Interrupt => ideintr fuel s
        end with
  | Ret _ s' => Some (s', outcome_of (failed (ide_dev s)) s' <$> drop (length (ide_woken s)) (ide_woken s'))
  | _ => None
  end.

Fixpoint isteps_run (qfuel : nat) (sts : list istep) (s : ide D) : option (ide D * list outcome) :=
  match sts with
  | [] => Some (s, [])
  | st :: sts' =>
      '(s1, o1) ← istep_run qfuel st s;
      '(s2, o2) ← isteps_run qfuel sts' s1;
      Some (s2, o1 ++ o2)
  end.

(** The requests of a sequence of steps, in the order they are made. *)
Definition requests (sts : list istep) : list (nat * ibuf) :=
  omap (fun st => match st with Submit i b => Some (i, b) | Interrupt => None end) sts.

(** Serving requests one after the other, with the errors [es] of the
    controller: each process returns, its buffer valid and not dirty. *)
Fixpoint serve_all (m : Z * Z -> list Z) (es : list bool) (rs : list (nat * ibuf)) : list outcome :=
  match es, rs with
  | e :: es', (i, b) :: rs' => MkOutcome i e true true false (answer e m b) :: serve_all (after m b) es' rs'
  | _, _ => []
  end.

(** A process does not use a buffer whose request is still in the queue [l]. *)
Fixpoint polite (disk1 : bool) (l : list nat) (sts : list istep) : Prop :=
  match sts with
  | [] => True
  | Submit i b :: sts' => (i ∉ l) /\ request b /\ (q_dev b = 0 \/ disk1 = true) /\ polite disk1 (l ++ [i]) sts'
  | Interrupt :: sts' => polite disk1 (tail l) sts'
  end.

(** The number of requests in the queue after the steps. *)
Fixpoint backlog (n : nat) (sts : list istep) : nat :=
  match sts with
  | [] => n
  | Submit _ _ :: sts' => backlog (S n) sts'
  | Interrupt :: sts' => backlog (pred n) sts'
  end.

Lemma serve_same e m b b' : same_buf b b' -> after m b' = after m b /\ answer e m b' = answer e m b.
Proof. by intros ->. Qed.

Lemma complete_outcome e s i l b : ide_bufs s i = complete_buf l b -> outcome_of e s i = MkOutcome i e true true false l.
Proof.
  intros Hb. unfold outcome_of. cbn [iderw_wait]. unfold bind, gets. cbn [res_bind]. rewrite Hb, complete_finished. cbn [ret].
  unfold complete_buf. cbn [q_flags q_data set_q_flags set_q_data]. f_equal; rewrite Z.land_spec, ?Z.lor_spec;
    [by rewrite orb_true_r|by rewrite andb_false_r].
Qed.

Lemma isteps_spec qfuel sts : forall s m P,
  ide_ok s (fst <$> P) m -> Forall (fun p => same_buf p.2 (ide_bufs s p.1)) P ->
  polite (ide_disk1 s) (fst <$> P) sts -> (length P + length sts <= qfuel)%nat ->
  exists s' outs, isteps_run qfuel sts s = Some (s', outs) /\
    outs = serve_all m (o_error <$> outs) (P ++ requests sts) /\
    (length outs + backlog (length P) sts = length P + length (requests sts))%nat.
Proof.
  induction sts as [|st sts IH]; intros s m P Hok Hsame Hpol Hf; cbn [isteps_run].
  { exists s, []. split_and!; [done|done|cbn; lia]. }
  unfold istep_run. destruct st as [i b|]; cbn [polite] in *.
  - destruct Hpol as (Hi & Hr & Hd & Hpol). set (s1 := upd_buf i (fun _ => b) s).
    assert (Hoth : forall j, j <> i -> ide_bufs s1 j = ide_bufs s j) by (intros j Hj; cbn; by rewrite (proj2 (Nat.eqb_neq _ _))).
    assert (Hself : ide_bufs s1 i = b) by (cbn; by rewrite Nat.eqb_refl).
    assert (Hok1 : ide_ok s1 (fst <$> P) m).
    { destruct Hok as [Hq Hnd Hreqs Hdev]. split; [|done| |].
      - eapply qseg_ext; [|exact Hq]. intros j Hj. rewrite Hoth; [done|]. by intros ->.
      - intros j Hj. rewrite Hoth; [by apply Hreqs|]. by intros ->.
      - destruct (fst <$> P) as [|j l]; [done|]. rewrite Hoth; [done|]. intros ->. set_solver. }
    destruct (iderw_submit_spec qfuel s1 _ m i Hok1 Hi) as (s2 & -> & Hok2 & Hb2 & Hw2 & Hd2);
      [by rewrite Hself|by rewrite Hself|rewrite length_fmap; lia|].
    rewrite Hw2, drop_ge by done. cbn [fmap list_fmap mbind option_bind]. destruct (IH s2 m (P ++ [(i, b)])) as (s' & outs & -> & Ho & Hl).
    + by rewrite fmap_app.
    + apply Forall_app. split; [|by constructor; [cbn; rewrite <- Hself; apply Hb2|constructor]].
      apply Forall_forall. intros p Hp. rewrite Forall_forall in Hsame. specialize (Hsame p Hp).
      eapply same_buf_trans; [exact Hsame|]. rewrite <- (Hoth p.1); [apply Hb2|]. intros E. apply Hi. rewrite <- E. set_solver.
    + rewrite Hd2, fmap_app. exact Hpol.
    + rewrite length_app. cbn [length] in Hf |- *. lia.
    + exists s', outs. split; [done|]. rewrite <- app_assoc in Ho. split; [exact Ho|].
      rewrite length_app in Hl. cbn [length] in Hl. rewrite Nat.add_1_r in Hl.
      change (backlog (length P) (Submit i b :: sts)) with (backlog (S (length P)) sts).
      change (length (requests (Submit i b :: sts))) with (S (length (requests sts))). lia.
  - destruct P as [|[i b] P].
    + unfold ideintr, bind, gets. cbn [res_bind]. pose proof (iok_queue _ _ _ Hok) as Hq. cbn in Hq. rewrite Hq. cbn [ret].
      rewrite drop_ge by done. cbn [fmap list_fmap mbind option_bind]. destruct (IH s m []) as (s' & outs & -> & Ho & Hl); [done|constructor|exact Hpol|cbn in Hf |- *; lia|].
      exists s', outs. split; [done|]. split; [exact Ho|exact Hl].
    + apply Forall_cons_iff in Hsame as [Hsb Hsame]. cbn [fmap list_fmap fst snd] in *.
      destruct (ideintr_spec s _ m i Hok) as (s2 & -> & Hok2 & Hbi & Hbj & Hw2 & Hd2).
      destruct (serve_same (failed (ide_dev s)) m b _ Hsb) as [E1 E2]. rewrite E1 in Hok2. rewrite E2 in Hbi.
      pose proof (iok_nodup _ _ _ Hok) as [Hni _]%NoDup_cons.
      rewrite Hw2, drop_app_length. cbn [fmap list_fmap]. rewrite (complete_outcome _ _ _ _ _ Hbi). cbn [mbind option_bind].
      destruct (IH s2 (after m b) P) as (s' & outs & -> & Ho & Hl); [done| |by rewrite Hd2|cbn in Hf; lia|].
      { apply Forall_forall. intros p Hp. rewrite Forall_forall in Hsame. rewrite Hbj; [by apply Hsame|]. intros E. apply Hni.
        rewrite <- E. set_solver. }
      eexists s', _. split; [reflexivity|]. cbn [app length fmap list_fmap o_error serve_all backlog pred].
      split; [by f_equal|]. change (requests (Interrupt :: sts)) with (requests sts). lia.
Qed.
End Spec.

(** C24: The disk driver serves requests in the order they are made.  Take any
    interleaving of calls of [iderw] and disk interrupts in which no process
    uses a buffer whose request is in the queue.  Nothing panics.  Each
    interrupt completes one request, as long as there is one: it wakes the
    process, which finds its buffer valid and not dirty and returns from
    [iderw].  The requests completed, in order, are the first ones of the
    requests made, with the data they have when served one after the other
    on the medium: every read gives what the writes before it left, or, when
    the controller reports an error, what the buffer held before. *)
Theorem ide_serves_in_order {D : Type} `{AtaLaws D} fuel qfuel (s : ide D) sts :
  (forall d : D, (polls d < fuel)%nat) ->
  ide_queue s = None -> polite (ide_disk1 s) [] sts -> (length sts <= qfuel)%nat ->
  exists s' outs, isteps_run fuel qfuel sts s = Some (s', outs) /\
    outs = serve_all (medium (ide_dev s)) (o_error <$> outs) (requests sts) /\
    (length outs + backlog 0 sts = length (requests sts))%nat.
Proof.
  intros Hpo Hq Hpol Hf. apply (isteps_spec fuel Hpo qfuel sts s _ []); [|constructor|done|done].
  split; [done|constructor|set_solver|done].
Qed.

(** A failed read is passed off as a good one: when the controller reports
    an error for the read at the head of the queue, [ideintr] skips the transfer
    but marks the buffer valid and wakes the process all the same, so [iderw]
    returns with the old contents of the buffer. *)
Theorem ide_error_ignored {D : Type} `{AtaLaws D} fuel (s : ide D) i :
  (forall d : D, (polls d < fuel)%nat) -> ide_queue s = Some i ->
  dirty (ide_bufs s i) = false -> q_next (ide_bufs s i) = None -> failed (ide_dev s) = true ->
  exists s', ideintr fuel s = Ret tt s' /\ finished (ide_bufs s' i) = true /\
    q_data (ide_bufs s' i) = q_data (ide_bufs s i) /\ ide_woken s' = ide_woken s ++ [i].
Proof.
  intros Hpo Hq Hd Hn Hf. unfold ideintr, gets, modify. unfold bind at 1. cbn [res_bind]. rewrite Hq.
  unfold bind at 1. cbn [res_bind]. unfold bind at 1. cbn [res_bind]. set (s1 := set_queue _ s).
  unfold dirty in Hd. apply negb_false_iff in Hd. rewrite Hd.
  destruct (idewait_spec fuel Hpo true s1) as (d0 & Hw & _). change (ide_dev s1) with (ide_dev s) in Hw. rewrite Hf in Hw. cbn [andb] in Hw.
  unfold bind. rewrite Hw. cbn [res_bind Z.leb Z.compare when ret ide_queue upd_buf add_woken].
  change (ide_queue (set_dev d0 s1)) with (q_next (ide_bufs s i)). rewrite Hn. eexists. split; [reflexivity|].
  cbn [ide_bufs add_woken upd_buf ide_woken]. rewrite !Nat.eqb_refl. split; [|done].
  apply (complete_finished (q_data (ide_bufs s i)) (ide_bufs s i)).
Qed.

(** ** A controller with the laws *)

(** Always ready; [bad] if every command fails. *)
Record ata (bad : bool) := MkAta { a_regs : Z -> Z; a_medium : Z * Z -> list Z; a_cmd : option Z }.
Arguments MkAta {bad} _ _ _.
Arguments a_regs {bad} _.
Arguments a_medium {bad} _.
Arguments a_cmd {bad} _.

#[export] Instance ata_ports bad : AtaPorts (ata bad) := {
  inb p d := (if p =? 0x1f7 then (if bad then 0x41 else 0x40) else 0, d);
  outb p v d := if p =? 0x1f7 then MkAta (a_regs d) (a_medium d) (Some v)
                else MkAta (fun r => if r =? p then v else a_regs d r) (a_medium d) (a_cmd d);
  insl p n d := (a_medium d (addr_of (a_regs d)), MkAta (a_regs d) (a_medium d) None);
  outsl p l d := MkAta (a_regs d) (fun a => if decide (a = addr_of (a_regs d)) then l else a_medium d a) None;
}.

#[export] Program Instance ata_laws bad : AtaLaws (ata bad) := {
  reg d := a_regs d;
  medium d := a_medium d;
  command d := a_cmd d;
  failed d := bad;
  polls d := O;
}.
Next Obligation. done. Qed.
Next Obligation. intros bad d _. split; [by destruct bad|]. split; [by repeat split|by destruct bad]. Qed.
Next Obligation.
  intros bad d p v Hp. simpl. rewrite (proj2 (Z.eqb_neq p _)); [done|]. intros ->. set_solver.
Qed.
Next Obligation. intros bad d c _. done. Qed.
Next Obligation. intros bad d l _ _. done. Qed.
Next Obligation. intros bad d _ _. done. Qed.

Definition demo_block (v : Z) : list Z := replicate 512 v.
Definition demo_wr (n v : Z) : ibuf := MkIbuf B_DIRTY 0 n true None (demo_block v).
Definition demo_rd (n : Z) : ibuf := MkIbuf 0 0 n true None (demo_block 0).
Definition demo_ide (bad : bool) : ide (ata bad) :=
  MkIde None (fun _ => demo_rd 0) (MkAta (fun _ => 0) (fun _ => demo_block 1) None) false [].

Lemma demo_request n v : 0 <= n < FSSIZE -> request (demo_wr n v) /\ request (demo_rd n).
Proof. intros Hn. split; (split; [done|]; split; [exact Hn|]; split; [by left|]; split; reflexivity). Qed.

(** A write of block 5 and two reads, with the interrupts in between. *)
Definition demo_steps : list istep :=
  [Submit 1 (demo_wr 5 7); Submit 2 (demo_rd 5); Interrupt; Submit 3 (demo_rd 6); Interrupt; Interrupt].

Lemma ide_serves_in_order_witness :
  exists s' e1 e2 e3, isteps_run 1 6 demo_steps (demo_ide false) = Some (s',
    [MkOutcome 1 e1 true true false (demo_block 7);
     MkOutcome 2 e2 true true false (if e2 then demo_block 0 else demo_block 7);
     MkOutcome 3 e3 true true false (if e3 then demo_block 0 else demo_block 1)]).
Proof.
  destruct (ide_serves_in_order 1 6 (demo_ide false) demo_steps) as (s' & outs & Hrun & Ho & Hl).
  - intros d. cbn. lia.
  - reflexivity.
  - cbn [polite demo_steps app tail]. pose proof (demo_request 5 7 ltac:(unfold FSSIZE; lia)) as [? ?].
    pose proof (demo_request 6 0 ltac:(unfold FSSIZE; lia)) as [_ ?]. split_and!; try done; try (by left); set_solver.
  - cbn. lia.
  - destruct outs as [|o1 [|o2 [|o3 [|o4 outs]]]]; try (cbn in Hl; lia).
    exists s', (o_error o1), (o_error o2), (o_error o3). rewrite Hrun. do 2 f_equal. exact Ho.
Defined.

(** A read of block 6 on a disk that fails. *)
Lemma ide_error_ignored_witness :
  exists s', ideintr 1 (MkIde (Some 2%nat) (fun _ => demo_rd 6) (ide_dev (demo_ide true)) false []) = Ret tt s' /\
    finished (ide_bufs s' 2%nat) = true /\ q_data (ide_bufs s' 2%nat) = demo_block 0.
Proof.
  destruct (ide_error_ignored 1 (MkIde (Some 2%nat) (fun _ => demo_rd 6) (ide_dev (demo_ide true)) false []) 2%nat)
    as (s' & H1 & H2 & H3 & _).
  - intros d. cbn. lia.
  - reflexivity.
  - reflexivity.
  - reflexivity.
  - reflexivity.
  - exists s'. split; [exact H1|]. split; [exact H2|exact H3].
Defined.
