(* ===== verification/Ulib.v ===== *)
(** * The user library (ulib.c, printf.c)

    The string routines of user programs run on the memory of the process, or
    on the characters of a string where they only read it.  [gets] reads its
    input from the list of characters still to come.  [printf] is the list of
    the characters it writes.  The call [stat] is in Usys.v. *)

From Stdlib Require Import Ascii String.
From stdpp Require Import base numbers list option strings.
From S2P Require Import Prelude Kernel Fields Cprintf Cstring.

(** ** ulib.c *)

(** [strcpy]: the memory after the copy, or [None] if the string at [t] does
    not end within the fuel. *)
Fixpoint strcpy (fuel : nat) (m : memory) (s t : Z) : option memory :=
  match fuel with
  | O => None
  | S fuel' =>
      let m' := upd m s (m t) in
      if m t =? 0 then Some m' else strcpy fuel' m' (s + 1) (t + 1)
  end.

(** [strcmp] on strings given by their characters. *)
Fixpoint strcmp (p q : list Z) : Z :=
  match p with
  | [] => 0 - u8 (hd 0 q)
  | x :: p' =>
      match q with
      | y :: q' => if negb (x =? 0) && (x =? y) then strcmp p' q' else u8 x - u8 y
      | [] => u8 x - 0
      end
  end.

Fixpoint strlen (fuel : nat) (m : memory) (s : Z) : option Z :=
  match fuel with
  | O => None
  | S fuel' => if m s =? 0 then Some 0 else Z.add 1 <$> strlen fuel' m (s + 1)
  end.

Definition memset (m : memory) (dst c n : Z) : memory := stosb m dst c (Z.to_nat n).

(** [strchr s c]: the offset of the first [c] before the terminator. *)
Fixpoint strchr (s : list Z) (c : Z) : option nat :=
  match s with
  | [] => None
  | x :: s' => if x =? 0 then None else if x =? c then Some O else S <$> strchr s' c
  end.

(** The loop of [gets]: the characters stored and the input left, with room
    for [n] more characters beside the terminator. *)
Fixpoint gets_loop (n : nat) (input : list Z) : list Z * list Z :=
  match n with
  | O => ([], input)
  | S n' =>
      match input with
      | [] => ([], [])
      | c :: input' =>
          if (c =? 10) || (c =? 13) then ([c], input')
          else let '(l, r) := gets_loop n' input' in (c :: l, r)
      end
  end.

(** [gets]: what it stores in the buffer, terminator included. *)
Definition gets (max : Z) (input : list Z) : list Z * list Z :=
  let '(l, r) := gets_loop (Z.to_nat (max - 1)) input in (l ++ [0], r).

(** [atoi] in the arithmetic of an [int]. *)
Fixpoint atoi_loop (n : Z) (s : list Z) : Z :=
  match s with
  | [] => n
  | c :: s' => if (48 <=? c) && (c <=? 57) then atoi_loop (i32 (n * 10 + c - 48)) s' else n
  end.
Definition atoi (s : list Z) : Z := atoi_loop 0 s.

(** [memmove] copies upwards whatever the overlap. *)
Definition memmove (m : memory) (vdst vsrc n : Z) : memory := copy_up m vdst vsrc (Z.to_nat n).

(** ** printf.c *)

(** [digits[x % base]]: the table has capital letters. *)
Definition udigit (d : Z) : Z := if d <? 10 then 48 + d else 65 + (d - 10).

Fixpoint uput_digits (fuel : nat) (base x : Z) : list Z :=
  match fuel with
  | O => []
  | S fuel' => udigit (x mod base) :: (if x / base =? 0 then [] else uput_digits fuel' base (x / base))
  end.

(** The characters [printint] writes; [buf] has 16 entries. *)
Definition uprintint (xx base : Z) (sgn : bool) : list Z :=
  let neg := sgn && (xx <? 0) in
  let x := u32 (if neg then - xx else xx) in
  rev (uput_digits 16 base x ++ if neg then [45] else []).

(** An argument of [printf] on the stack: a word, a string or a null pointer. *)
Fixpoint uformat (fmt : list Z) (percent : bool) (args : list fmtarg) : list Z :=
  match fmt with
  | [] => []
  | c :: fmt' =>
      if negb percent then
        if c =? 37 then uformat fmt' true args else c :: uformat fmt' false args
      else if c =? 100 then uprintint (i32 (arg_word (head args))) 10 true ++ uformat fmt' false (tail args)
      else if (c =? 120) || (c =? 112) then
        uprintint (i32 (arg_word (head args))) 16 false ++ uformat fmt' false (tail args)
      else if c =? 115 then arg_string (head args) ++ uformat fmt' false (tail args)
      else if c =? 99 then u8 (arg_word (head args)) :: uformat fmt' false (tail args)
      else if c =? 37 then c :: uformat fmt' false args
      else 37 :: c :: uformat fmt' false args
  end.

(** The bytes [printf] writes to its descriptor. *)
Definition printf (fmt : string) (args : list fmtarg) : list Z := uformat (chars fmt) false args.

(** ** Strings *)

Lemma strcpy_spec n fuel m s t :
  (forall i, 0 <= i < Z.of_nat n -> m (t + i) <> 0) -> m (t + Z.of_nat n) = 0 ->
  s + Z.of_nat n < t \/ t + Z.of_nat n < s -> (n < fuel)%nat ->
  exists m', strcpy fuel m s t = Some m' /\
    forall a, m' a = if (s <=? a) && (a <=? s + Z.of_nat n) then m (a - s + t) else m a.
Proof.
  revert fuel m s t. induction n as [|n IH]; intros [|fuel] m s t Hne Hz Hov Hf; try lia; cbn [strcpy].
  - rewrite Z.add_0_r in Hz. rewrite Hz. eexists. split; [reflexivity|]. intros a. unfold upd.
    zcases; simpl; try lia; try done. subst. rewrite <- Hz. f_equal. lia.
  - assert (m t <> 0) by (rewrite <- (Z.add_0_r t); apply Hne; lia).
    rewrite (proj2 (Z.eqb_neq _ _)) by done.
    destruct (IH fuel (upd m s (m t)) (s + 1) (t + 1)) as (m' & -> & Hm').
    + intros i Hi. rewrite upd_ne by lia. replace (t + 1 + i) with (t + (i + 1)) by lia. apply Hne. lia.
    + rewrite upd_ne by lia. replace (t + 1 + Z.of_nat n) with (t + Z.of_nat (S n)) by lia. done.
    + lia.
    + lia.
    + exists m'. split; [done|]. intros a. rewrite Hm'. unfold upd. zcases; simpl; try lia; try done; f_equal; lia.
Qed.

(** Characters as a program has them: bytes other than the terminator. *)
Definition ascii_string (l : list Z) : Prop := Forall (fun c => 0 < c < 256) l.

Lemma u8_byte c : 0 < c < 256 -> u8 c = c.
Proof. intros H. unfold u8. apply Z.mod_small. lia. Qed.

(** Where two strings first differ. *)
Lemma strcmp_spec p q : ascii_string p -> ascii_string q ->
  exists l p' q', p = l ++ p' /\ q = l ++ q' /\ strcmp p q = hd 0 p' - hd 0 q' /\ (hd 0 p' = hd 0 q' -> p' = [] /\ q' = []).
Proof.
  intros Hp. revert q. induction Hp as [|x p Hx Hp IH]; intros q Hq.
  - exists [], [], q. split_and!; try done.
    + destruct Hq as [|y q Hy Hq]; simpl; [done|]. by rewrite u8_byte.
    + destruct Hq as [|y q Hy Hq]; simpl; [done|lia].
  - destruct Hq as [|y q Hy Hq]; simpl.
    { exists [], (x :: p), []. split_and!; try done; simpl; [by rewrite u8_byte|lia]. }
    rewrite (proj2 (Z.eqb_neq x 0)) by lia. cbn [negb andb]. destruct (Z.eqb_spec x y) as [<-|Hne].
    + destruct (IH q Hq) as (l & p' & q' & -> & -> & Hs & He). by exists (x :: l), p', q'.
    + exists [], (x :: p), (y :: q). split_and!; try done. simpl. by rewrite !u8_byte.
Qed.

(** ** Reading lines *)

Lemma gets_loop_length n input : (length (gets_loop n input).1 <= n)%nat.
Proof.
  revert input. induction n as [|n IH]; intros input; [done|]. destruct input as [|c input]; simpl; [lia|].
  destruct (_ || _); simpl; [lia|]. specialize (IH input). destruct (gets_loop n input); simpl in *. lia.
Qed.

Definition not_eol (c : Z) : Prop := c <> 10 /\ c <> 13.

Lemma gets_loop_split n input :
  let '(l, r) := gets_loop n input in input = l ++ r /\ Forall not_eol (removelast l) /\
    ((length l = n \/ r = []) \/ exists l' c, l = l' ++ [c] /\ (c = 10 \/ c = 13)).
Proof.
  revert input. induction n as [|n IH]; intros input; simpl; [by split_and!; [|constructor|left; left]|].
  destruct input as [|c input]; simpl; [split_and!; [done|constructor|by left; right]|].
  destruct ((c =? 10) || (c =? 13)) eqn:E.
  { split_and!; [done|constructor|right]. exists [], c. split; [done|]. apply orb_true_iff in E as [E|E]; apply Z.eqb_eq in E; tauto. }
  apply orb_false_iff in E as [E1 E2]. apply Z.eqb_neq in E1, E2.
  specialize (IH input). destruct (gets_loop n input) as [l r]. destruct IH as (-> & Hf & Hor). split; [done|]. split.
  - destruct l as [|d l]; [constructor|]. change (removelast (c :: d :: l)) with (c :: removelast (d :: l)). by constructor.
  - destruct Hor as [[Hl|Hr]|(l' & d & -> & Hd)]; [left; left; simpl; lia|by left; right|].
    right. by exists (c :: l'), d.
Qed.

(** ** Numbers *)

Lemma udigit_digit d : 0 <= d < 10 -> udigit d = 48 + d.
Proof. intros H. unfold udigit. by rewrite (proj2 (Z.ltb_lt _ _)) by lia. Qed.

Definition dec_value (l : list Z) : Z := foldl (fun v c => v * 10 + (c - 48)) 0 l.

Lemma dec_value_snoc l c : dec_value (l ++ [c]) = dec_value l * 10 + (c - 48).
Proof. unfold dec_value. by rewrite foldl_app. Qed.

(** The digits of a number and their value. *)
Lemma uput_digits_value fuel x : 0 <= x < 10 ^ Z.of_nat fuel ->
  dec_value (rev (uput_digits fuel 10 x)) = x /\ Forall (fun c => 48 <= c <= 57) (rev (uput_digits fuel 10 x)).
Proof.
  revert x. induction fuel as [|fuel IH]; intros x Hx; cbn [uput_digits].
  { simpl in Hx. unfold dec_value. simpl. split; [lia|constructor]. }
  rewrite Nat2Z.inj_succ, Z.pow_succ_r in Hx by lia.
  pose proof (Z.mod_pos_bound x 10). pose proof (Z.div_mod x 10). rewrite udigit_digit by lia. cbn [rev].
  destruct (Z.eqb_spec (x / 10) 0) as [E|E].
  - split; [unfold dec_value; simpl; lia|]. repeat constructor; lia.
  - destruct (IH (x / 10)) as [Hv Hf]; [split; [apply Z.div_pos; lia|apply Z.div_lt_upper_bound; lia]|].
    rewrite dec_value_snoc, Hv. split; [lia|]. apply Forall_app. split; [done|]. repeat constructor; lia.
Qed.

Lemma dec_value_nonneg l : Forall (fun c => 48 <= c <= 57) l -> forall v, 0 <= v ->
  v <= foldl (fun v c => v * 10 + (c - 48)) v l.
Proof.
  induction 1 as [|c l Hc Hl IH]; intros v Hv; simpl; [lia|]. specialize (IH (v * 10 + (c - 48)) ltac:(lia)). lia.
Qed.

(** [atoi] computes the value of the leading digits, if it fits. *)
Lemma atoi_loop_spec l r v : Forall (fun c => 48 <= c <= 57) l ->
  (forall c r', r = c :: r' -> c < 48 \/ 57 < c) -> 0 <= v ->
  foldl (fun v c => v * 10 + (c - 48)) v l < 2 ^ 31 ->
  atoi_loop v (l ++ r) = foldl (fun v c => v * 10 + (c - 48)) v l.
Proof.
  intros Hl Hr. revert v. induction Hl as [|c l Hc Hl IH]; intros v Hv Hb; simpl in *.
  - destruct r as [|c r]; simpl; [done|]. destruct (Hr c r eq_refl); zcases; simpl; try done; lia.
  - rewrite (proj2 (Z.leb_le 48 c)), (proj2 (Z.leb_le c 57)) by lia. cbn [andb].
    pose proof (dec_value_nonneg l Hl (v * 10 + (c - 48)) ltac:(lia)).
    rewrite i32_small by lia. replace (v * 10 + c - 48) with (v * 10 + (c - 48)) by lia. apply IH; lia.
Qed.

(** Reading back a printed number: [atoi] of what [printf] writes for [%d] is the
    number, for every non-negative [int], also with more text behind it. *)
Theorem atoi_printf n r : 0 <= n < 2 ^ 31 -> (forall c r', r = c :: r' -> c < 48 \/ 57 < c) ->
  atoi (printf "%d" [FInt n] ++ r) = n.
Proof.
  intros Hn Hr. unfold printf. cbn. rewrite app_nil_r, i32_small by lia. unfold uprintint. cbn [andb].
  rewrite (proj2 (Z.ltb_ge n 0)) by lia. rewrite app_nil_r, u32_small by lia.
  destruct (uput_digits_value 16 n) as [Hv Hf]; [simpl; lia|].
  assert (Hlt : dec_value (rev (uput_digits 16 10 n)) < 2 ^ 31) by lia.
  unfold atoi. rewrite atoi_loop_spec; [exact Hv|done|done|lia|exact Hlt].
Qed.

(** [gets] takes one line: what it stores is the input up to and including
    the first newline or carriage return, cut at [max - 1] characters, and a
    terminator; the rest of the input is left, nothing is lost, and the
    buffer of [max] bytes is not overrun. *)
Theorem gets_correct max input : 1 <= max ->
  let '(l, r) := gets max input in
  exists line, l = line ++ [0] /\ input = line ++ r /\ Z.of_nat (length l) <= max /\
    Forall not_eol (removelast line) /\
    ((exists line' c, line = line' ++ [c] /\ (c = 10 \/ c = 13)) \/ Z.of_nat (length l) = max \/ r = []).
Proof.
  intros Hm. unfold gets. pose proof (gets_loop_split (Z.to_nat (max - 1)) input) as Hs.
  pose proof (gets_loop_length (Z.to_nat (max - 1)) input) as Hl.
  destruct (gets_loop _ input) as [line r]. destruct Hs as (-> & Hf & Hor). simpl in Hl.
  exists line. rewrite length_app. cbn [length]. split_and!; [done|done|lia|done|].
  destruct Hor as [[Hn|Hr]|He]; [right; left; lia|by right; right|by left].
Qed.

Lemma gets_correct_witness : gets 100 (chars "ab" ++ [10] ++ chars "c") = (chars "ab" ++ [10; 0], chars "c").
Proof.
  pose proof (gets_correct 100 (chars "ab" ++ [10] ++ chars "c") ltac:(lia)) as _. vm_compute. reflexivity.
Defined.

(** [strcmp] orders strings: it is zero exactly on equal strings, and otherwise
    its sign is that of the first characters that differ, the terminator
    counting as the smallest. *)
Theorem strcmp_correct p q : ascii_string p -> ascii_string q ->
  (strcmp p q = 0 <-> p = q) /\
  exists l p' q', p = l ++ p' /\ q = l ++ q' /\ strcmp p q = hd 0 p' - hd 0 q'.
Proof.
  intros Hp Hq. destruct (strcmp_spec p q Hp Hq) as (l & p' & q' & -> & -> & Hs & He). split.
  - rewrite Hs. split; [intros H; destruct He as [-> ->]; [lia|done]|].
    intros ->%(app_inv_head l). lia.
  - by exists l, p', q'.
Qed.

Lemma strcmp_correct_witness : strcmp (chars "ab") (chars "ac") = -1 /\ (strcmp (chars "ab") (chars "ab") = 0 <-> chars "ab" = chars "ab").
Proof.
  split; [reflexivity|]. apply (strcmp_correct (chars "ab") (chars "ab")); repeat constructor; lia.
Defined.

(** Copying upwards leaves everything below the destination alone. *)
Lemma copy_up_below k m d s a : a < d -> copy_up m d s k a = m a.
Proof.
  revert m d s. induction k as [|k IH]; intros m d s Ha; [done|]. cbn [copy_up]. rewrite IH by lia. apply upd_ne. lia.
Qed.

Lemma copy_up_by_one k m s j : 0 <= j < Z.of_nat k -> copy_up m (s + 1) s k (s + 1 + j) = m s.
Proof.
  revert m s j. induction k as [|k IH]; intros m s j Hj; [lia|]. cbn [copy_up]. destruct (Z.eq_dec j 0) as [-> |].
  - rewrite Z.add_0_r, copy_up_below by lia. apply upd_eq.
  - replace (s + 1 + j) with (s + 1 + 1 + (j - 1)) by lia. rewrite IH by lia. apply upd_eq.
Qed.

(** The library's [memmove] is not the kernel's: when the destination starts
    inside the source it overwrites bytes before they are copied; moved up by
    one byte, the first byte is repeated through the destination. *)
Theorem umemmove_overlap m src n i :
  1 < n -> 0 <= i < n -> memmove m (src + 1) src n (src + 1 + i) = m src.
Proof. intros Hn Hi. apply copy_up_by_one. lia. Qed.

Lemma umemmove_overlap_witness : memmove (fun a => a) 11 10 3 13 = 10 /\ Cstring.memmove (fun a => a) 11 10 3 13 = 12.
Proof. split; [apply (umemmove_overlap (fun a => a) 10 3 2); lia|vm_compute; reflexivity]. Defined.
