(* ===== verification/Grep.v ===== *)
(** * The pattern matcher and line reader of grep (grep.c)

    A C string is the list of its characters before the terminator.  The
    matcher is translated function by function and shown to decide the
    language a pattern denotes; [grep] runs it over the lines of a descriptor
    read through a 1024-byte buffer, the descriptor being any state with a
    [read] operation. *)

From stdpp Require Import base numbers list option strings sets.
From S2P Require Import Prelude Kernel Cprintf Ulib.

(** ** The matcher *)

Definition CARET : Z := 94.
Definition DOLLAR : Z := 36.
Definition DOT : Z := 46.
Definition STAR : Z := 42.
Definition NL : Z := 10.

(** [matchstar]: the pattern after the star is tried first at each position,
    [matchhere] being the recursive call on that pattern. *)
Fixpoint matchstar (matchhere : list Z -> bool) (c : Z) (text : list Z) : bool :=
  if matchhere text then true
  else match text with
       | [] => false
       | t :: text' => if (t =? c) || (c =? DOT) then matchstar matchhere c text' else false
       end.

Fixpoint matchhere (re text : list Z) : bool :=
  match re with
  | [] => true
  | c :: re1 =>
      let rest :=
        if (c =? DOLLAR) && (hd 0 re1 =? 0) then hd 0 text =? 0
        else match text with
             | [] => false
             | t :: text' => if (c =? DOT) || (c =? t) then matchhere re1 text' else false
             end in
      match re1 with
      | s :: re2 => if s =? STAR then matchstar (matchhere re2) c text else rest
      | [] => rest
      end
  end.

(** The do-while loop of [match], which also looks at the empty suffix. *)
Fixpoint match_loop (re text : list Z) : bool :=
  if matchhere re text then true
  else match text with [] => false | _ :: text' => match_loop re text' end.

Definition match_ (re text : list Z) : bool :=
  match re with
  | c :: re' => if c =? CARET then matchhere re' text else match_loop re text
  | [] => match_loop re text
  end.

(** ** Lines *)

(** The inner loop of [grep]: [p] is the unread part of the buffer.  It gives
    the lines written, newline included, and the part after the last newline. *)
Fixpoint scan_lines (pattern : list Z) (fuel : nat) (p : list Z) : list (list Z) * list Z :=
  match fuel with
  | O => ([], p)
  | S fuel' =>
      match strchr p NL with
      | None => ([], p)
      | Some q =>
          let '(out, p') := scan_lines pattern fuel' (drop (S q) p) in
          ((if match_ pattern (take q p) then [take (S q) p] else []) ++ out, p')
      end
  end.

Definition BUFSZ : nat := 1024.

Section Reader.
Context {F : Type} (read : F -> nat -> list Z * F).

(** [grep]: [buf] holds the [m] bytes carried over; [None] is fuel run out.
    A [read] that fails or is at the end gives no bytes. *)
Fixpoint grep_loop (pattern : list Z) (fuel : nat) (buf : list Z) (fd : F) : option (list (list Z)) :=
  match fuel with
  | O => None
  | S fuel' =>
      let '(b, fd') := read fd (BUFSZ - length buf - 1)%nat in
      match b with
      | [] => Some []
      | _ =>
          let buf := buf ++ b in
          let '(out, p) := scan_lines pattern (length buf) buf in
          let buf' := if (length p =? length buf)%nat then [] else p in
          app out <$> grep_loop pattern fuel' buf' fd'
      end
  end.

Definition grep (pattern : list Z) (fuel : nat) (fd : F) : option (list (list Z)) :=
  grep_loop pattern fuel [] fd.

(** The loop of [main] over the files: what is written, with its descriptor. *)
Fixpoint grep_files (open_ : list Z -> option F) (pattern : list Z) (fuel : nat) (files : list (list Z))
  : option (list (Z * list Z)) :=
  match files with
  | [] => Some []
  | f :: files' =>
      match open_ f with
      | None => Some [(1, printf "grep: cannot open %s" [FStr f] ++ [NL])]
      | Some fd =>
          out ← grep pattern fuel fd;
          rest ← grep_files open_ pattern fuel files';
          Some ((pair 1 <$> out) ++ rest)
      end
  end.

(** [main]: [argv] are the arguments after the name of the program, [stdin] is
    descriptor 0. *)
Definition main (open_ : list Z -> option F) (stdin : F) (fuel : nat) (argv : list (list Z)) : option (list (Z * list Z)) :=
  match argv with
  | [] => Some [(2, printf "usage: grep pattern [file ...]" [] ++ [NL])]
  | [pattern] => (fun out : list (list Z) => pair 1 <$> out) <$> grep pattern fuel stdin
  | pattern :: files => grep_files open_ pattern fuel files
  end.
End Reader.

(** Reading a regular file: the bytes from the offset on, at most [n]. *)
Definition read_file (rest : list Z) (n : nat) : list Z * list Z := (take n rest, drop n rest).

(** Reading a pipe or the console: each call gives one burst. *)
Definition read_bursts (bs : list (list Z)) (n : nat) : list Z * list (list Z) :=
  match bs with
  | [] => ([], [])
  | b :: bs' => (take n b, match drop n b with [] => bs' | r => r :: bs' end)
  end.

(** ** What a pattern denotes *)

(** A pattern is a sequence of single characters and starred characters,
    anchored at the front by a leading caret and at the back by a final
    dollar; the dot stands for every character. *)
Inductive item :=
  | One (c : Z)
  | Many (c : Z).

Definition sat (c t : Z) : Prop := c = DOT \/ c = t.

(** The strings a sequence of items denotes. *)
Inductive denotes : list item -> list Z -> Prop :=
  | denotes_nil : denotes [] []
  | denotes_one c t its s : sat c t -> denotes its s -> denotes (One c :: its) (t :: s)
  | denotes_done c its s : denotes its s -> denotes (Many c :: its) s
  | denotes_more c t its s : sat c t -> denotes (Many c :: its) s -> denotes (Many c :: its) (t :: s).

(** The items of a pattern and whether it is anchored at the back. *)
Fixpoint items (re : list Z) : list item * bool :=
  match re with
  | [] => ([], false)
  | c :: re1 =>
      let single := if (c =? DOLLAR) && (length re1 =? 0)%nat then ([], true)
                    else (One c :: (items re1).1, (items re1).2) in
      match re1 with
      | s :: re2 => if s =? STAR then (Many c :: (items re2).1, (items re2).2) else single
      | [] => single
      end
  end.

(** A pattern without its leading caret, and whether it has one. *)
Definition front (re : list Z) : list Z * bool :=
  match re with
  | c :: re' => if c =? CARET then (re', true) else (re, false)
  | [] => (re, false)
  end.

(** A suffix-anchored occurrence at the start of [text]. *)
Definition occurs_here (its : list item) (back : bool) (text : list Z) : Prop :=
  exists s q, text = s ++ q /\ denotes its s /\ (back = true -> q = []).

(** The pattern occurs in [text]. *)
Definition occurs (re text : list Z) : Prop :=
  exists p s q, text = p ++ s ++ q /\ denotes (items (front re).1).1 s /\
    ((front re).2 = true -> p = []) /\ ((items (front re).1).2 = true -> q = []).

(** ** Correctness of the matcher *)

(** A C string: no terminator inside. *)
Definition c_string (l : list Z) : Prop := Forall (fun c => c <> 0) l.

Lemma c_string_cons c l : c_string (c :: l) <-> c <> 0 /\ c_string l.
Proof. apply Forall_cons_iff. Qed.

Lemma satb c t : (c =? DOT) || (c =? t) = true <-> sat c t.
Proof. unfold sat. rewrite orb_true_iff, !Z.eqb_eq. done. Qed.

Lemma occurs_here_many c its b text :
  occurs_here (Many c :: its) b text <->
  occurs_here its b text \/
  exists t text', text = t :: text' /\ sat c t /\ occurs_here (Many c :: its) b text'.
Proof.
  split.
  - intros (s & q & -> & Hd & Hb). inversion Hd; subst.
    + left. by exists s, q.
    + right. eexists _, _. split; [done|]. split; [done|]. by eexists _, _.
  - intros [(s & q & -> & Hd & Hb)|(t & text' & -> & Hs & s & q & -> & Hd & Hb)].
    + exists s, q. split; [done|]. split; [by constructor|done].
    + exists (t :: s), q. split; [done|]. split; [by constructor|done].
Qed.

Lemma matchstar_spec mh c its b text :
  (forall tx, c_string tx -> mh tx = true <-> occurs_here its b tx) ->
  c_string text -> matchstar mh c text = true <-> occurs_here (Many c :: its) b text.
Proof.
  intros Hmh. induction text as [|t text IH]; intros Hc; rewrite occurs_here_many; simpl.
  - rewrite <- Hmh by done. destruct (mh []); naive_solver.
  - pose proof (proj1 (c_string_cons _ _) Hc) as [_ Hc'].
    rewrite <- Hmh by done. destruct (mh (t :: text)); [naive_solver|].
    rewrite (Z.eqb_sym t c), orb_comm.
    destruct (_ || _) eqn:Hs.
    + rewrite IH by done. apply satb in Hs. naive_solver.
    + split; [done|]. intros [|(t' & tx & [= -> ->] & Hs' & _)]; [done|].
      apply satb in Hs'. congruence.
Qed.

Lemma occurs_here_one c its b t text :
  occurs_here (One c :: its) b (t :: text) <-> sat c t /\ occurs_here its b text.
Proof.
  split.
  - intros (s & q & He & Hd & Hb). inversion Hd; subst. simplify_eq/=. by split; [|eexists _, _].
  - intros (Hs & s & q & -> & Hd & Hb). exists (t :: s), q. split; [done|]. split; [by constructor|done].
Qed.

Lemma occurs_here_one_nil c its b : ~ occurs_here (One c :: its) b [].
Proof. intros (s & q & He & Hd & _). inversion Hd; subst. by simplify_eq/=. Qed.

Lemma occurs_here_end text : occurs_here [] true text <-> text = [].
Proof.
  split.
  - intros (s & q & -> & Hd & Hb). inversion Hd; subst. by rewrite Hb.
  - intros ->. by exists [], []; repeat constructor.
Qed.

(** The case of [matchhere] with no star after the first character. *)
Definition single_step (c : Z) (re1 text : list Z) : bool :=
  if (c =? DOLLAR) && (hd 0 re1 =? 0) then hd 0 text =? 0
  else match text with
       | [] => false
       | t :: text' => if (c =? DOT) || (c =? t) then matchhere re1 text' else false
       end.

Lemma hd_zero l : c_string l -> (hd 0 l =? 0) = (length l =? 0)%nat.
Proof. destruct l as [|x l]; [done|]. intros [Hx _]%c_string_cons. simpl. by apply Z.eqb_neq. Qed.

Lemma single_step_spec c re1 text :
  (forall tx, c_string tx -> matchhere re1 tx = true <-> occurs_here (items re1).1 (items re1).2 tx) ->
  c_string re1 -> c_string text ->
  single_step c re1 text = true <->
  (let its := if (c =? DOLLAR) && (length re1 =? 0)%nat then ([], true)
              else (One c :: (items re1).1, (items re1).2) in occurs_here its.1 its.2 text).
Proof.
  intros IH Hre Ht. unfold single_step. rewrite !hd_zero by done.
  destruct (_ && _); simpl.
  - rewrite occurs_here_end. by destruct text.
  - destruct text as [|t text].
    + split; [done|]. by intros ?%occurs_here_one_nil.
    + apply c_string_cons in Ht as [_ Ht]. rewrite occurs_here_one, <- satb, <- IH by done.
      destruct (_ || _); naive_solver.
Qed.

Lemma matchhere_spec n re text :
  (length re <= n)%nat -> c_string re -> c_string text ->
  matchhere re text = true <-> occurs_here (items re).1 (items re).2 text.
Proof.
  revert re text. induction n as [|n IH]; intros [|c [|s re2]] text Hn Hre Ht; simpl in Hn; try lia.
  1,2: split; [intros _; exists [], text; by repeat constructor|done].
  - apply (single_step_spec c [] text); [|by constructor|done].
    intros tx Htx. by apply IH; [simpl; lia|constructor|].
  - apply c_string_cons in Hre as [_ Hre].
    pose proof (proj1 (c_string_cons _ _) Hre) as [_ Hre2].
    destruct (s =? STAR) eqn:Hs.
    + cbn [matchhere items]. rewrite Hs. apply matchstar_spec; [|done].
      intros tx Htx. apply IH; [lia|done|done].
    + pose proof (single_step_spec c (s :: re2) text) as H.
      cbn [matchhere items]. rewrite Hs. apply H; [|done|done].
      intros tx Htx. by apply IH; [simpl; lia| |].
Qed.

Lemma match_loop_spec re text :
  match_loop re text = true <-> exists p r, text = p ++ r /\ matchhere re r = true.
Proof.
  induction text as [|t text IH]; simpl.
  - destruct (matchhere re []) eqn:Hm; split; try done.
    + by exists [], [].
    + intros (p & r & [-> ->]%symmetry%app_nil & ?). congruence.
  - destruct (matchhere re (t :: text)) eqn:Hm.
    + split; [|done]. by exists [], (t :: text).
    + rewrite IH. split.
      * intros (p & r & -> & Hr). by exists (t :: p), r.
      * intros ([|t' p] & r & He & Hr); simplify_eq/=; [congruence|]. by exists p, r.
Qed.

(** C25: [match] decides the language of its pattern: on a pattern and a text
    that are C strings it returns true exactly when the text has an occurrence
    of the pattern, where a character stands for itself, the dot for any
    character, a starred character for any number of them, and a leading caret
    and a final dollar tie the occurrence to the two ends of the text. *)
Theorem match_correct re text :
  c_string re -> c_string text -> match_ re text = true <-> occurs re text.
Proof.
  intros Hre Ht. unfold occurs.
  assert (Hhere : forall re r, c_string re -> c_string r ->
    matchhere re r = true <-> occurs_here (items re).1 (items re).2 r)
    by (intros; eapply matchhere_spec; eauto).
  assert (Hloop : match_loop re text = true <-> exists p s q, text = p ++ s ++ q /\
    denotes (items re).1 s /\ (false = true -> p = []) /\ ((items re).2 = true -> q = [])).
  { rewrite match_loop_spec. split.
    - intros (p & r & -> & Hm). apply Forall_app in Ht as [_ Hr].
      apply Hhere in Hm as (s & q & -> & Hd & Hb); [|done..]. by exists p, s, q.
    - intros (p & s & q & -> & Hd & _ & Hb). exists p, (s ++ q). split; [done|].
      apply Forall_app in Ht as [_ Hr]. apply Hhere; [done..|]. by exists s, q. }
  unfold match_, front. destruct re as [|c re']; [exact Hloop|].
  destruct (c =? CARET); simpl; [|exact Hloop].
  apply c_string_cons in Hre as [_ Hre]. rewrite Hhere by done. split.
  - intros (s & q & -> & Hd & Hb). by exists [], s, q.
  - intros (p & s & q & -> & Hd & Hp & Hb). rewrite (Hp eq_refl). by exists s, q.
Qed.

(** The pattern ^a.*b$ on the text axxb. *)
Lemma match_correct_witness :
  match_ [94; 97; 46; 42; 98; 36] [97; 120; 120; 98] = true /\
  occurs [94; 97; 46; 42; 98; 36] [97; 120; 120; 98].
Proof.
  split; [reflexivity|]. apply match_correct; [by repeat constructor..|reflexivity].
Defined.

(** ** Correctness of the line reader *)

(** The file with the given lines, each ended by a newline. *)
Definition nl_lines (ls : list (list Z)) : list Z := concat ((fun l => l ++ [NL]) <$> ls).

(** A line that fits the buffer with its newline and the terminator. *)
Definition good_line (l : list Z) : Prop := c_string l /\ (NL ∉ l) /\ (length l + 2 <= BUFSZ)%nat.

Lemma strchr_none s : c_string s -> NL ∉ s -> strchr s NL = None.
Proof.
  induction s as [|x s IH]; [done|]. intros [Hx Hs]%c_string_cons [Hn Hns]%not_elem_of_cons. simpl.
  rewrite IH by done. by rewrite !(proj2 (Z.eqb_neq _ _)).
Qed.

Lemma strchr_line l r : c_string l -> NL ∉ l -> strchr (l ++ NL :: r) NL = Some (length l).
Proof.
  induction l as [|x l IH]; [done|]. intros [Hx Hs]%c_string_cons [Hn Hns]%not_elem_of_cons. simpl.
  rewrite IH by done. by rewrite !(proj2 (Z.eqb_neq _ _)).
Qed.

Lemma nl_lines_cons l ls : nl_lines (l :: ls) = l ++ NL :: nl_lines ls.
Proof. unfold nl_lines. simpl. by rewrite <- app_assoc. Qed.

(** The lines a pattern selects, as they are written. *)
Definition selected (pattern : list Z) (ls : list (list Z)) : list (list Z) :=
  (fun l => l ++ [NL]) <$> filter (fun l => match_ pattern l = true) ls.

Lemma selected_app pattern l1 l2 : selected pattern (l1 ++ l2) = selected pattern l1 ++ selected pattern l2.
Proof. unfold selected. by rewrite list.filter_app, fmap_app. Qed.

Lemma scan_lines_spec pattern ls part fuel :
  Forall good_line ls -> c_string part -> NL ∉ part -> (length ls <= fuel)%nat ->
  scan_lines pattern fuel (nl_lines ls ++ part) = (selected pattern ls, part).
Proof.
  intros Hls Hp Hn. revert fuel. induction Hls as [|l ls (Hl & Hnl & _) Hls IH]; intros fuel Hf.
  - destruct fuel; simpl; [done|]. by rewrite strchr_none.
  - destruct fuel as [|fuel]; simpl in Hf; [lia|]. rewrite nl_lines_cons, <- app_assoc. simpl.
    rewrite strchr_line by done.
    rewrite take_app_length, cons_middle, app_assoc, (drop_app_length' (l ++ [NL])),
      (take_app_length' (l ++ [NL])) by (rewrite length_app; simpl; lia).
    rewrite IH by lia. unfold selected. rewrite list.filter_cons.
    destruct (match_ pattern l); by case_decide.
Qed.

(** A prefix of a file of good lines: whole lines and a part of the next one. *)
Lemma take_nl_lines k ls :
  Forall good_line ls -> exists ls1 ls2 part, ls = ls1 ++ ls2 /\ take k (nl_lines ls) = nl_lines ls1 ++ part /\
    c_string part /\ (NL ∉ part) /\ (length part + 2 <= BUFSZ)%nat /\
    ((BUFSZ <= k + 1)%nat -> ls <> [] -> ls1 <> []).
Proof.
  intros Hls. revert k. induction Hls as [|l ls (Hl & Hnl & Hlen) Hls IH]; intros k.
  - exists [], [], []. change (nl_lines []) with (@nil Z). rewrite take_nil. repeat split; try done; [constructor|set_solver|unfold BUFSZ; simpl; lia].
  - rewrite nl_lines_cons. destruct (decide (length l < k)%nat) as [Hk|Hk].
    + destruct (IH (k - S (length l))%nat) as (ls1 & ls2 & part & -> & Ht & ? & ? & ? & _).
      exists (l :: ls1), ls2, part. split; [done|].
      rewrite nl_lines_cons, take_app_ge by lia.
      replace (k - length l)%nat with (S (k - S (length l))) by lia. simpl.
      rewrite Ht, <- app_assoc. done.
    + exists [], (l :: ls), (take k l). split; [done|]. rewrite take_app_le by lia.
      split; [done|]. split; [by apply Forall_take|]. split; [intros (i & Hi & _)%elem_of_take; by apply list_elem_of_lookup_2 in Hi|].
      rewrite length_take. split; [lia|lia].
Qed.

Lemma nl_lines_app l1 l2 : nl_lines (l1 ++ l2) = nl_lines l1 ++ nl_lines l2.
Proof. unfold nl_lines. by rewrite fmap_app, concat_app. Qed.

Lemma nl_lines_length ls : (length ls <= length (nl_lines ls))%nat.
Proof. induction ls; [done|]. rewrite nl_lines_cons, length_app. simpl. lia. Qed.

Lemma nl_lines_whole ls : NL ∉ nl_lines ls -> ls = [].
Proof. destruct ls as [|l ls]; [done|]. rewrite nl_lines_cons. set_solver. Qed.

(** What one [read] of a regular file leaves in the buffer and in the file. *)
Lemma grep_chunk buf rest l1 l2 part :
  buf ++ rest = nl_lines (l1 ++ l2) -> (length buf + 2 <= BUFSZ)%nat ->
  take (BUFSZ - 1) (nl_lines (l1 ++ l2)) = nl_lines l1 ++ part ->
  buf ++ take (BUFSZ - length buf - 1) rest = nl_lines l1 ++ part /\
  part ++ drop (BUFSZ - length buf - 1) rest = nl_lines l2.
Proof.
  intros He Hb Ht. replace (BUFSZ - length buf - 1)%nat with (BUFSZ - 1 - length buf)%nat by lia.
  assert (Hc : buf ++ take (BUFSZ - 1 - length buf) rest = nl_lines l1 ++ part)
    by (rewrite <- Ht, <- He; symmetry; apply take_app_ge; lia).
  split; [done|]. apply (app_inv_head (nl_lines l1)).
  rewrite app_assoc, <- Hc, <- app_assoc, take_drop, <- nl_lines_app. done.
Qed.

Lemma grep_loop_file pattern fuel buf rest ls :
  Forall good_line ls -> buf ++ rest = nl_lines ls -> (NL ∉ buf) -> (length buf + 2 <= BUFSZ)%nat ->
  (length rest < fuel)%nat -> grep_loop read_file pattern fuel buf rest = Some (selected pattern ls).
Proof.
  revert buf rest ls. induction fuel as [|fuel IH]; intros buf rest ls Hls He Hn Hb Hf; [lia|]. cbn [grep_loop].
  unfold read_file at 1. set (n := (BUFSZ - length buf - 1)%nat).
  destruct (take n rest) as [|x b] eqn:Hx.
  - assert (rest = []) as -> by (destruct rest; [done|destruct n eqn:?; [lia|done]]).
    rewrite app_nil_r in He. rewrite He in Hn. by rewrite (nl_lines_whole ls).
  - assert (Hr : (0 < length rest)%nat) by (destruct rest; [by rewrite take_nil in Hx|simpl; lia]).
    rewrite <- Hx. clear Hx.
    destruct (take_nl_lines (BUFSZ - 1) ls) as (l1 & l2 & part & -> & Ht & Hp & Hnp & Hlp & Hne); [done|].
    apply Forall_app in Hls as [H1 H2].
    destruct (grep_chunk buf rest l1 l2 part) as [Hc Hd]; [done..|]. fold n in Hc, Hd. rewrite Hc.
    rewrite scan_lines_spec; [|done..|rewrite length_app; pose proof (nl_lines_length l1); lia].
    assert (Hl1 : (0 < length l1)%nat).
    { destruct l1; [exfalso|simpl; lia]. apply Hne; [lia| |done]. intros He0. simpl in He0. subst.
      apply (f_equal length) in He. rewrite length_app in He. change (nl_lines ([] ++ [])) with (@nil Z) in He. simpl in He. lia. }
    rewrite (proj2 (Nat.eqb_neq _ _)) by (rewrite length_app; pose proof (nl_lines_length l1); lia).
    rewrite (IH part (drop n rest) l2); [|done..|rewrite length_drop; unfold n; lia].
    by rewrite selected_app.
Qed.

Lemma grep_file pattern ls fuel :
  Forall good_line ls -> (length (nl_lines ls) < fuel)%nat ->
  grep read_file pattern fuel (nl_lines ls) = Some (selected pattern ls).
Proof.
  intros Hls Hf. apply grep_loop_file; [done|done|set_solver|unfold BUFSZ; simpl; lia|done].
Qed.

(** C26: [grep] prints the matching lines of a file: on a file whose lines hold
    no NUL, end in a newline and fit the 1024-byte buffer with their newline
    and a terminator, it terminates and writes exactly the lines that [match]
    accepts, whole and in their order, however the 1023-byte reads cut the
    lines. *)
Theorem grep_correct pattern ls fuel :
  Forall good_line ls -> (length (nl_lines ls) < fuel)%nat ->
  grep read_file pattern fuel (nl_lines ls) = Some (selected pattern ls).
Proof. apply grep_file. Qed.

Lemma grep_correct_witness :
  grep read_file [98] 20 (nl_lines [[97; 98]; [99]; [98]]) = Some [[97; 98; 10]; [98; 10]].
Proof.
  rewrite grep_correct; [vm_compute; reflexivity| |vm_compute; lia].
  repeat constructor; try (vm_compute; congruence); try (vm_compute; lia); set_solver.
Defined.

(** [main] on files that can be opened: the matching lines of each, in the
    order of the arguments. *)
Lemma main_files open_ stdin pattern files fuel texts :
  files <> [] -> Forall2 (fun f ls => open_ f = Some (nl_lines ls) /\ Forall good_line ls /\ (length (nl_lines ls) < fuel)%nat)
    files texts ->
  main read_file open_ stdin fuel (pattern :: files) = Some (pair 1 <$> concat (selected pattern <$> texts)).
Proof.
  intros Hne Hf. destruct files as [|f files]; [done|]. unfold main. clear Hne.
  induction Hf as [|g ls gs ts (Ho & Hg & Hl) _ IH]; [done|].
  cbn [grep_files]. rewrite Ho, grep_file, IH by done. cbn [mbind option_bind]. by rewrite <- fmap_app.
Qed.

(** A burst without a newline leaves the buffer empty. *)
Lemma grep_loop_partial {F} (read : F -> nat -> list Z * F) pattern fuel fd fd' b :
  read fd (BUFSZ - 1)%nat = (b, fd') -> c_string b -> (NL ∉ b) -> b <> [] ->
  grep_loop read pattern (S fuel) [] fd = grep_loop read pattern fuel [] fd'.
Proof.
  intros Hr Hc Hn Hne. cbn [grep_loop]. change (BUFSZ - length [] - 1)%nat with (BUFSZ - 1)%nat.
  rewrite Hr. destruct b as [|x b]; [done|]. cbn [app].
  assert (scan_lines pattern (length (x :: b)) (x :: b) = ([], x :: b)) as ->
    by (apply (scan_lines_spec pattern [] (x :: b)); [constructor|done|done|simpl; lia]).
  rewrite Nat.eqb_refl. by destruct (grep_loop _ _ _ _ _).
Qed.

(** A burst that is one line. *)
Lemma grep_loop_line {F} (read : F -> nat -> list Z * F) pattern fuel fd fd' l :
  read fd (BUFSZ - 1)%nat = (l ++ [NL], fd') -> good_line l ->
  grep_loop read pattern (S fuel) [] fd = app (selected pattern [l]) <$> grep_loop read pattern fuel [] fd'.
Proof.
  intros Hr Hg. cbn [grep_loop]. change (BUFSZ - length [] - 1)%nat with (BUFSZ - 1)%nat.
  rewrite Hr. assert (Hl : l ++ [NL] = nl_lines [l] ++ []) by by rewrite nl_lines_cons, app_nil_r.
  destruct (l ++ [NL]) as [|x b] eqn:Hx; [by destruct l|]. cbn [app].
  assert (scan_lines pattern (length (x :: b)) (x :: b) = (selected pattern [l], [])) as ->.
  { rewrite Hl at 2. apply scan_lines_spec; [by apply Forall_singleton|constructor|set_solver|simpl; lia]. }
  done.
Qed.

(** [grep] loses a line that arrives in pieces: when a read brings part of
    a line and no newline, the buffer is emptied as if the line were too long,
    whatever its length.  So a line that a pipe or the console delivers in
    two bursts is not found by a pattern that occurs in it, and the last line
    of a file without a final newline is never looked at. *)
Theorem grep_drops_partial_line pattern b1 b2 fuel :
  c_string b1 -> (NL ∉ b1) -> b1 <> [] -> good_line b2 -> (length b1 + 1 <= BUFSZ)%nat -> (3 <= fuel)%nat ->
  grep read_bursts pattern fuel [b1; b2 ++ [NL]] = Some (selected pattern [b2]) /\
  grep read_file pattern fuel b1 = Some [].
Proof.
  intros Hc Hn Hne (Hc2 & Hn2 & Hl2) Hl1 Hf. do 3 (destruct fuel as [|fuel]; [lia|]). unfold grep.
  assert (Hb : take (BUFSZ - 1) b1 = b1) by (apply take_ge; lia). split.
  - rewrite (grep_loop_partial _ _ _ _ [b2 ++ [NL]] b1); [|unfold read_bursts; by rewrite Hb, drop_ge by lia|done..].
    rewrite (grep_loop_line _ _ _ _ [] b2); [|unfold read_bursts|done].
    + cbn [grep_loop read_bursts]. simpl. by rewrite app_nil_r.
    + rewrite take_ge, drop_ge by (rewrite length_app; cbn [length]; lia). done.
  - rewrite (grep_loop_partial _ _ _ _ [] b1); [done| |done..].
    unfold read_file. by rewrite Hb, drop_ge by lia.
Qed.

(** The line hello in two bursts: the pattern hell occurs in it and is not found. *)
Lemma grep_drops_partial_line_witness :
  match_ [104; 101; 108; 108] [104; 101; 108; 108; 111] = true /\
  grep read_bursts [104; 101; 108; 108] 3 [[104; 101]; [108; 108; 111; 10]] = Some [].
Proof.
  split; [reflexivity|].
  destruct (grep_drops_partial_line [104; 101; 108; 108] [104; 101] [108; 108; 111] 3) as [H _];
    [by repeat constructor|set_solver|done| |vm_compute; lia|lia|exact H].
  repeat constructor; try (vm_compute; congruence); try (vm_compute; lia); set_solver.
Defined.
