(* ===== verification/Umalloc.v ===== *)
(** * The user-level allocator (umalloc.c)

    The memory of the process is a function from addresses to bytes; a header
    at [a] is the word at [a] ([s.ptr]) and the word at [a + 4] ([s.size]), and
    sizes count headers of 8 bytes.  The address of the static [base] is given
    by the linker, and the memory the kernel can still give by [grant]; both
    are variables.  The break moves as sys_sbrk and growproc move it.  The
    theorems show that [malloc] and [free] keep a partition of the arena into
    a sorted, coalesced circular free list and disjoint allocated blocks, and
    touch nothing but the headers of free blocks. *)

From stdpp Require Import base numbers list option gmap sorting sets.
From S2P Require Import Prelude Kernel Fields Mmu Cstring.

(** ** State *)

Record heap := MkHeap {
  h_mem : memory;
  h_freep : Z;
  h_brk : Z;
}.

Definition HDR : Z := 8.

(** [p->s.ptr], [p->s.size] and their stores, [p + n]. *)
Definition hptr (h : heap) (p : Z) : Z := load32 (h_mem h) p.
Definition hsize (h : heap) (p : Z) : Z := load32 (h_mem h) (p + 4).
Definition set_hptr (p v : Z) (h : heap) : heap :=
  MkHeap (store32 (h_mem h) p v) (h_freep h) (h_brk h).
Definition set_hsize (p v : Z) (h : heap) : heap :=
  MkHeap (store32 (h_mem h) (p + 4) v) (h_freep h) (h_brk h).
Definition set_freep (p : Z) (h : heap) : heap := MkHeap (h_mem h) p (h_brk h).
Definition padd (p n : Z) : Z := u32 (p + HDR * n).

(** ** The code *)

(** The search loop of [free]: the free block [bp] goes after. *)
Fixpoint free_find (fuel : nat) (h : heap) (bp p : Z) : option Z :=
  match fuel with
  | O => None
  | S fuel' =>
      if (p <? bp) && (bp <? hptr h p) then Some p
      else if (hptr h p <=? p) && ((p <? bp) || (bp <? hptr h p)) then Some p
      else free_find fuel' h bp (hptr h p)
  end.

(** [bp] is joined to the block after it, or linked to it. *)
Definition free_upper (bp p : Z) (h : heap) : heap :=
  if padd bp (hsize h bp) =? hptr h p then
    let h := set_hsize bp (u32 (hsize h bp + hsize h (hptr h p))) h in
    set_hptr bp (hptr h (hptr h p)) h
  else set_hptr bp (hptr h p) h.

(** [p] is joined to [bp], or linked to it. *)
Definition free_lower (bp p : Z) (h : heap) : heap :=
  if padd p (hsize h p) =? bp then
    let h := set_hsize p (u32 (hsize h p + hsize h bp)) h in
    set_hptr p (hptr h bp) h
  else set_hptr p bp h.

Definition free (fuel : nat) (ap : Z) (h : heap) : option heap :=
  let bp := u32 (ap - HDR) in
  p ← free_find fuel h bp (h_freep h);
  Some (set_freep p (free_lower bp p (free_upper bp p h))).

Section Alloc.
Context (base : Z) (grant : Z -> bool).

(** [sbrk]: the old break, or -1; a negative [n] whose sum wraps past the
    break leaves it where it is. *)
Definition sbrk (n : Z) (h : heap) : Z * heap :=
  let sz := h_brk h in
  let new := u32 (sz + n) in
  let moved sz' := (sz, MkHeap (h_mem h) (h_freep h) sz') in
  let grown sz' := if sz' =? 0 then (u32 (-1), h) else moved sz' in
  if 0 <? n then
    if KERNBASE <=? new then grown 0
    else if new <? sz then grown sz
    else if grant new then grown new else grown 0
  else if n <? 0 then
    if sz <=? new then grown sz else grown new
  else moved sz.

Definition morecore (fuel : nat) (nu : Z) (h : heap) : option (Z * heap) :=
  let nu := if nu <? 4096 then 4096 else nu in
  let '(p, h) := sbrk (i32 (nu * HDR)) h in
  if p =? u32 (-1) then Some (0, h)
  else
    let h := set_hsize p nu h in
    h ← free fuel (padd p 1) h;
    Some (h_freep h, h).

(** [p] has room: it is taken off the list or its tail is split off. *)
Definition take_block (prevp p nunits : Z) (h : heap) : Z * heap :=
  if hsize h p =? nunits then
    (padd p 1, set_freep prevp (set_hptr prevp (hptr h p) h))
  else
    let h := set_hsize p (u32 (hsize h p - nunits)) h in
    let q := padd p (hsize h p) in
    (padd q 1, set_freep prevp (set_hsize q nunits h)).

(** The loop of [malloc]. *)
Fixpoint malloc_loop (fuel : nat) (nunits prevp p : Z) (h : heap) : option (Z * heap) :=
  match fuel with
  | O => None
  | S fuel' =>
      if nunits <=? hsize h p then Some (take_block prevp p nunits h)
      else if p =? h_freep h then
        '(p, h) ← morecore fuel' nunits h;
        if p =? 0 then Some (0, h) else malloc_loop fuel' nunits p (hptr h p) h
      else malloc_loop fuel' nunits p (hptr h p) h
  end.

Definition units (nbytes : Z) : Z := u32 (nbytes + HDR - 1) / HDR + 1.

Definition malloc_init (h : heap) : heap :=
  if h_freep h =? 0 then set_hsize base 0 (set_freep base (set_hptr base base h)) else h.

Definition malloc (fuel : nat) (nbytes : Z) (h : heap) : option (Z * heap) :=
  let h := malloc_init h in
  malloc_loop fuel (units nbytes) (h_freep h) (hptr h (h_freep h)) h.
End Alloc.

(** ** Blocks *)

(** A block is the address of its header and its size in headers. *)
Abbreviation blk := (Z * Z)%type.
Definition bend (b : blk) : Z := b.1 + HDR * b.2.

(** The addresses of a list of blocks. *)
Definition covers (l : list blk) (x : Z) : Prop := Exists (fun b => b.1 <= x < bend b) l.

(** The first block of [l], or [e]. *)
Definition first (l : list blk) (e : Z) : Z := match l with [] => e | b :: _ => b.1 end.

(** The headers of [l] are linked in order, the last one to [e]. *)
Fixpoint lseg (m : memory) (l : list blk) (e : Z) : Prop :=
  match l with
  | [] => True
  | b :: l' => load32 m b.1 = first l' e /\ load32 m (b.1 + 4) = b.2 /\ lseg m l' e
  end.

(** [b] ends before [c] starts, with a gap. *)
Definition before (b c : blk) : Prop := bend b < c.1.
Definition disjoint (b c : blk) : Prop := bend b <= c.1 \/ bend c <= b.1.

(** A block of the arena between [base] and the break. *)
Definition in_arena (base brk : Z) (b : blk) : Prop :=
  1 <= b.2 /\ base + HDR <= b.1 /\ bend b <= brk.

(** The abstract effect of [free]: [b] joined to the list after it. *)
Definition join_upper (b : blk) (l : list blk) : list blk :=
  match l with
  | c :: l' => if bend b =? c.1 then (b.1, b.2 + c.2) :: l' else b :: l
  | [] => [b]
  end.

Definition addrs (l : list blk) : list Z := fst <$> l.

(** The allocator's invariant: [l] is the free list from [base] on, [al] the
    allocated blocks by the address of their header. *)
Record heap_ok (base : Z) (h : heap) (l : list blk) (al : gmap Z Z) : Prop := {
  ok_base : 0 < base;
  ok_brk : base + HDR <= h_brk h < KERNBASE;
  ok_first : head l = Some (base, 0);
  ok_free : Forall (fun b => b = (base, 0) \/ in_arena base (h_brk h) b) l;
  ok_sorted : StronglySorted before l;
  ok_link : lseg (h_mem h) l base;
  ok_freep : h_freep h ∈ addrs l;
  ok_al : forall a n, al !! a = Some n -> in_arena base (h_brk h) (a, n) /\ hsize h a = n;
  ok_al_disj : forall a n a' n', al !! a = Some n -> al !! a' = Some n' -> a <> a' ->
    disjoint (a, n) (a', n');
  ok_free_disj : forall b a n, b ∈ l -> al !! a = Some n -> disjoint b (a, n);
}.

(** Before the first call: nothing is set up and nothing is allocated. *)
Definition heap_fresh (base : Z) (h : heap) : Prop :=
  h_freep h = 0 /\ 0 < base /\ base + HDR <= h_brk h < KERNBASE.

(** Memory outside the free blocks, the header of [base] and the given range. *)
Definition untouched (base : Z) (l : list blk) (lo hi : Z) (m m' : memory) : Prop :=
  forall x, ~ covers l x -> ~ (base <= x < base + HDR) -> ~ (lo <= x < hi) -> m' x = m x.

(** ** List segments in memory *)

Definition apart (a b : Z) : Prop := a + HDR <= b \/ b + HDR <= a.

Ltac hdrs := unfold apart, disjoint, before, in_arena, bend, HDR, KERNBASE in *; cbn [fst snd] in *; try lia.

Lemma lseg_app m l1 l2 e : lseg m (l1 ++ l2) e <-> lseg m l1 (first l2 e) /\ lseg m l2 e.
Proof.
  induction l1 as [|b l1 IH]; simpl; [tauto|].
  rewrite IH. assert (first (l1 ++ l2) e = first l1 (first l2 e)) as -> by by destruct l1. tauto.
Qed.

Lemma lseg_ext m m' l e :
  (forall b x, b ∈ l -> b.1 <= x < b.1 + HDR -> m' x = m x) -> lseg m l e -> lseg m' l e.
Proof.
  induction l as [|b l IH]; [done|]. intros Hx (H1 & H2 & H3). simpl.
  rewrite (load32_ext m m' b.1), (load32_ext m m' (b.1 + 4)).
  - split; [done|]. split; [done|]. apply IH; [|done]. intros c x Hc. apply Hx. by right.
  - intros x Hr. apply (Hx b); [by left|hdrs].
  - intros x Hr. apply (Hx b); [by left|hdrs].
Qed.

Lemma lseg_lookup m l1 b l2 e :
  lseg m (l1 ++ b :: l2) e -> load32 m b.1 = first l2 e /\ load32 m (b.1 + 4) = b.2.
Proof. rewrite lseg_app. simpl. tauto. Qed.

(** A circular list can be walked from any of its blocks. *)
Lemma lseg_rotate m l1 y l2 e :
  lseg m (l1 ++ y :: l2) e -> first (l1 ++ [y]) e = e -> lseg m (y :: l2 ++ l1) y.1.
Proof.
  rewrite lseg_app. intros [H1 H2] Hf. change (y :: l2 ++ l1) with ((y :: l2) ++ l1).
  rewrite lseg_app. split; [|exact H1].
  assert (first l1 y.1 = e) as -> by (by destruct l1). done.
Qed.

Lemma hptr_set_hptr p v h : hptr (set_hptr p v h) p = u32 v.
Proof. apply load32_store32_eq. Qed.
Lemma hptr_set_hptr_ne p q v h : apart q p -> hptr (set_hptr p v h) q = hptr h q.
Proof. intros H. unfold hptr. simpl. apply load32_store32_ne. hdrs. Qed.
Lemma hptr_set_hsize p q v h : q = p \/ apart q p -> hptr (set_hsize p v h) q = hptr h q.
Proof. intros H. unfold hptr. simpl. apply load32_store32_ne. hdrs. Qed.
Lemma hsize_set_hsize p v h : hsize (set_hsize p v h) p = u32 v.
Proof. apply load32_store32_eq. Qed.
Lemma hsize_set_hsize_ne p q v h : apart q p -> hsize (set_hsize p v h) q = hsize h q.
Proof. intros H. unfold hsize. simpl. apply load32_store32_ne. hdrs. Qed.
Lemma hsize_set_hptr p q v h : q = p \/ apart q p -> hsize (set_hptr p v h) q = hsize h q.
Proof. intros H. unfold hsize. simpl. apply load32_store32_ne. hdrs. Qed.

(** A change confined to the header at [p]. *)
Definition hdr_only (p : Z) (h h' : heap) : Prop :=
  h_freep h' = h_freep h /\ h_brk h' = h_brk h /\
  forall x, ~ (p <= x < p + HDR) -> h_mem h' x = h_mem h x.

Lemma hdr_only_hptr p v h : hdr_only p h (set_hptr p v h).
Proof. split_and!; [done..|]. intros x Hx. apply store32_other. hdrs. Qed.
Lemma hdr_only_hsize p v h : hdr_only p h (set_hsize p v h).
Proof. split_and!; [done..|]. intros x Hx. apply store32_other. hdrs. Qed.
Lemma hdr_only_trans p h1 h2 h3 : hdr_only p h1 h2 -> hdr_only p h2 h3 -> hdr_only p h1 h3.
Proof.
  intros (A1 & A2 & A3) (B1 & B2 & B3). split_and!; [congruence..|].
  intros x Hx. by rewrite B3, A3.
Qed.

Lemma lseg_hdr_only p h h' l e :
  hdr_only p h h' -> Forall (fun b => apart b.1 p) l -> lseg (h_mem h) l e -> lseg (h_mem h') l e.
Proof.
  intros (_ & _ & Hx) Hl. apply lseg_ext. intros b x Hb Hr. apply Hx.
  rewrite Forall_forall in Hl. specialize (Hl b Hb). hdrs.
Qed.

(** ** The two joins of [free] *)

Lemma padd_small p n : 0 <= p -> 0 <= n -> p + HDR * n < 2 ^ 32 -> padd p n = p + HDR * n.
Proof. intros. apply u32_small. hdrs. Qed.

(** The bounds under which address and size arithmetic does not wrap. *)
Definition narrow (b : blk) : Prop := 0 <= b.1 /\ 0 <= b.2 /\ bend b < KERNBASE.

Lemma free_upper_spec h p b l base :
  hptr h p = first l base -> hsize h b.1 = b.2 -> lseg (h_mem h) l base ->
  apart p b.1 -> Forall (fun c => apart c.1 b.1) l -> narrow b -> Forall narrow l ->
  0 <= base < b.1 ->
  let h' := free_upper b.1 p h in
  hdr_only b.1 h h' /\ lseg (h_mem h') (join_upper b l) base.
Proof.
  intros Hp Hs Hl Hap Hapl (Hb1 & Hb2 & Hb3) Hn Hbase h'. subst h'. unfold free_upper.
  rewrite Hs, Hp, padd_small by hdrs. fold (bend b). destruct l as [|c l]; cbn [first join_upper].
  { destruct (Z.eqb_spec (bend b) base); [hdrs|]. split; [apply hdr_only_hptr|]. cbn [lseg first].
    split_and!; [|rewrite <- Hs; apply hsize_set_hptr; by left|done].
    etransitivity; [apply hptr_set_hptr|]. apply u32_small. hdrs. }
  apply Forall_cons_iff in Hapl as [Hac Hapl]. apply Forall_cons_iff in Hn as [(Hc1 & Hc2 & Hc3) Hn].
  destruct Hl as (Hcp & Hcs & Hl).
  assert (Hrest : forall h', hdr_only b.1 h h' -> lseg (h_mem h') l base)
    by (intros h' Hh; by eapply lseg_hdr_only).
  destruct (Z.eqb_spec (bend b) c.1) as [Hj|Hj].
  - set (h1 := set_hsize b.1 _ h).
    assert (hptr h1 p = c.1) as -> by (subst h1; rewrite hptr_set_hsize by hdrs; exact Hp).
    assert (hptr h1 c.1 = first l base) as -> by (subst h1; rewrite hptr_set_hsize by hdrs; exact Hcp).
    assert (Ho : hdr_only b.1 h (set_hptr b.1 (first l base) h1)).
    { eapply hdr_only_trans; [apply hdr_only_hsize|apply hdr_only_hptr]. }
    split; [done|]. cbn [lseg fst snd]. split_and!; [| |by apply Hrest].
    + etransitivity; [apply hptr_set_hptr|]. apply u32_small.
      destruct l as [|d l]; cbn [first]; [hdrs|]. apply Forall_cons_iff in Hn as [(? & ? & ?) _]. hdrs.
    + etransitivity; [apply hsize_set_hptr; by left|]. subst h1. rewrite hsize_set_hsize.
      unfold hsize. rewrite Hcs. rewrite (u32_small (u32 _)) by apply u32_range. apply u32_small. hdrs.
  - assert (Ho := hdr_only_hptr b.1 c.1 h). split; [done|]. cbn [lseg first]. split_and!.
    + etransitivity; [apply hptr_set_hptr|]. apply u32_small. hdrs.
    + rewrite <- Hs. apply hsize_set_hptr. by left.
    + etransitivity; [|exact Hcp]. apply hptr_set_hptr_ne. done.
    + etransitivity; [|exact Hcs]. apply hsize_set_hptr. by right.
    + by apply Hrest.
Qed.

Lemma free_lower_spec h x c l l1 base :
  hsize h x.1 = x.2 -> lseg (h_mem h) l1 x.1 -> lseg (h_mem h) (c :: l) base ->
  Forall (fun y => apart y.1 x.1) (l1 ++ c :: l) -> narrow x -> Forall narrow (c :: l) -> 0 <= base < KERNBASE ->
  let h' := free_lower c.1 x.1 h in
  hdr_only x.1 h h' /\ lseg (h_mem h') (l1 ++ join_upper x (c :: l)) base.
Proof.
  intros Hs Hl1 Hl Hap (Hx1 & Hx2 & Hx3) Hn Hbase h'. subst h'. unfold free_lower.
  rewrite Hs, padd_small by hdrs. fold (bend x). cbn [join_upper].
  apply Forall_app in Hap as [Ha1 Ha2]. pose proof Ha2 as [Hac Hal]%Forall_cons_iff.
  apply Forall_cons_iff in Hn as [(Hc1 & Hc2 & Hc3) Hn]. pose proof Hl as (Hcp & Hcs & Hl').
  assert (Hfl : 0 <= first l base < 2 ^ 32).
  { destruct l as [|d l]; cbn [first]; [hdrs|]. apply Forall_cons_iff in Hn as [(? & ? & ?) _]. hdrs. }
  destruct (Z.eqb_spec (bend x) c.1) as [Hj|Hj].
  - set (h1 := set_hsize x.1 _ h).
    assert (hptr h1 c.1 = first l base) as -> by (subst h1; rewrite hptr_set_hsize by tauto; exact Hcp).
    assert (Ho : hdr_only x.1 h (set_hptr x.1 (first l base) h1)).
    { eapply hdr_only_trans; [apply hdr_only_hsize|apply hdr_only_hptr]. }
    split; [done|]. rewrite lseg_app. cbn [lseg first fst snd].
    split_and!; [by eapply lseg_hdr_only| | |by eapply lseg_hdr_only].
    + etransitivity; [apply hptr_set_hptr|]. by apply u32_small.
    + etransitivity; [apply hsize_set_hptr; by left|]. subst h1. rewrite hsize_set_hsize.
      unfold hsize. rewrite Hcs. rewrite (u32_small (u32 _)) by apply u32_range. apply u32_small. hdrs.
  - assert (Ho := hdr_only_hptr x.1 c.1 h). split; [done|]. rewrite lseg_app. cbn [first].
    split; [by eapply lseg_hdr_only|]. assert (lseg (h_mem (set_hptr x.1 c.1 h)) (c :: l) base) by (by eapply lseg_hdr_only).
    cbn [lseg first] in *. split_and!; try tauto.
    + etransitivity; [apply hptr_set_hptr|]. apply u32_small. hdrs.
    + rewrite <- Hs. apply hsize_set_hptr. by left.
Qed.

(** ** The free list as a list of blocks *)

Lemma join_upper_Forall (P : blk -> Prop) b l :
  (forall c, P b -> P c -> bend b = c.1 -> P (b.1, b.2 + c.2)) -> P b -> Forall P l -> Forall P (join_upper b l).
Proof.
  intros Hj Hb Hl. destruct l as [|c l]; cbn [join_upper]; [by repeat constructor|].
  pose proof Hl as [Hc Hl']%Forall_cons_iff.
  destruct (Z.eqb_spec (bend b) c.1); [constructor; [by apply Hj|done]|by constructor].
Qed.

Lemma join_upper_covers b l x : Forall (fun c => 0 <= c.2) (b :: l) -> covers (join_upper b l) x <-> b.1 <= x < bend b \/ covers l x.
Proof.
  intros [Hb Hl]%Forall_cons_iff. unfold covers. destruct l as [|c l]; cbn [join_upper].
  - by rewrite Exists_cons.
  - apply Forall_cons_iff in Hl as [Hc _].
    destruct (Z.eqb_spec (bend b) c.1) as [Hj|Hj]; rewrite !Exists_cons; [|done].
    assert (bend (b.1, b.2 + c.2) = bend c) as -> by hdrs. cbn [fst].
    assert (b.1 <= bend b <= bend c) by hdrs. rewrite <- Hj. split; [|naive_solver lia].
    intros [Hx|?]; [|tauto]. destruct (Z.lt_ge_cases x (bend b)); [left; lia|right; left; lia].
Qed.

Lemma join_upper_sorted b l :
  Forall (fun c => 0 <= c.2) (b :: l) -> StronglySorted before l -> Forall (fun c => bend b <= c.1) l ->
  StronglySorted before (join_upper b l).
Proof.
  intros [Hb Hn]%Forall_cons_iff Hs Hl. destruct l as [|c l]; cbn [join_upper]; [by repeat constructor|].
  apply StronglySorted_inv in Hs as [Hs Hc]. apply Forall_cons_iff in Hl as [Hbc Hl].
  apply Forall_cons_iff in Hn as [Hcn _]. rewrite Forall_forall in Hc.
  destruct (Z.eqb_spec (bend b) c.1) as [Hj|Hj].
  - constructor; [done|]. apply Forall_forall. intros d Hd. specialize (Hc d Hd). hdrs.
  - constructor; [constructor; [done|by apply Forall_forall]|]. constructor; [hdrs|].
    apply Forall_forall. intros d Hd. specialize (Hc d Hd). hdrs.
Qed.

Lemma join_upper_first b l : first (join_upper b l) 0 = b.1.
Proof. destruct l as [|c l]; cbn; [done|]. by destruct (_ =? _). Qed.

(** Where a block that meets no block of [l] belongs. *)
Lemma split_at b0 l b :
  StronglySorted before (b0 :: l) -> Forall (fun c => 0 <= c.2) (b0 :: l) -> 1 <= b.2 ->
  bend b0 <= b.1 -> Forall (fun c => disjoint c b) l ->
  exists l1 x l2, b0 :: l = l1 ++ x :: l2 /\ Forall (fun c => bend c <= b.1) (l1 ++ [x]) /\
    Forall (fun c => bend b <= c.1) l2.
Proof.
  intros Hs Hn Hb. revert b0 Hs Hn. induction l as [|c l IH]; intros b0 Hs Hn H0 Hd.
  - exists [], b0, []. split; [done|]. split; [by repeat constructor|constructor].
  - apply Forall_cons_iff in Hd as [Hc Hd]. apply StronglySorted_inv in Hs as [Hs H0s].
    apply Forall_cons_iff in Hn as [Hn0 Hn].
    destruct (decide (bend c <= b.1)) as [Hle|Hgt].
    + destruct (IH c) as (l1 & x & l2 & He & H1 & H2); [done..|].
      exists (b0 :: l1), x, l2. rewrite He. split; [done|]. split; [by constructor|done].
    + exists [], b0, (c :: l). split; [done|]. split; [by repeat constructor|].
      apply StronglySorted_inv in Hs as [Hs Hcs]. constructor; [destruct Hc; [done|hdrs]|].
      apply Forall_cons_iff in Hn as [Hnc Hn]. rewrite Forall_forall in Hcs |- *. intros d Hdl. specialize (Hcs d Hdl).
      destruct Hc; hdrs.
Qed.

(** ** The search of [free] *)

Definition stop (h : heap) (bp p : Z) : bool :=
  ((p <? bp) && (bp <? hptr h p)) || ((hptr h p <=? p) && ((p <? bp) || (bp <? hptr h p))).

Lemma free_find_eq fuel h bp p :
  free_find (S fuel) h bp p = if stop h bp p then Some p else free_find fuel h bp (hptr h p).
Proof. unfold stop. cbn [free_find]. by destruct (_ && _); cbn [orb]. Qed.

Lemma free_find_walk h bp c1 x c2 e fuel :
  lseg (h_mem h) (c1 ++ x :: c2) e -> Forall (fun b => stop h bp b.1 = false) c1 -> stop h bp x.1 = true ->
  (length c1 < fuel)%nat -> free_find fuel h bp (first (c1 ++ x :: c2) e) = Some x.1.
Proof.
  revert fuel. induction c1 as [|b c1 IH]; intros [|fuel] Hl Hc Hx Hf; try (simpl in Hf; lia); rewrite free_find_eq.
  - cbn [app first]. by rewrite Hx.
  - apply Forall_cons_iff in Hc as [Hb Hc]. cbn [app first]. rewrite Hb.
    destruct Hl as (Hp & _ & Hl). unfold hptr. rewrite Hp. apply IH; [done..|simpl in Hf; lia].
Qed.

(** Two neighbours of a sorted list. *)
Lemma sorted_next l1 y z l2 : StronglySorted before (l1 ++ y :: z :: l2) -> bend y < z.1.
Proof.
  induction l1 as [|b l1 IH]; intros Hs; apply StronglySorted_inv in Hs as [Hs Hb]; [|by apply IH].
  by apply Forall_cons_iff in Hb as [? _].
Qed.

Lemma sorted_first l e : StronglySorted before l -> Forall (fun c => 0 <= c.2) l ->
  forall y, y ∈ l -> first l e <= y.1.
Proof.
  destruct l as [|b l]; intros Hs Hn y Hy; [by apply not_elem_of_nil in Hy|]. cbn.
  apply StronglySorted_inv in Hs as [_ Hb]. apply Forall_cons_iff in Hn as [Hn _].
  apply elem_of_cons in Hy as [-> |Hy]; [lia|]. rewrite Forall_forall in Hb. specialize (Hb y Hy). hdrs.
Qed.

(** The loop stops exactly at the block [bp] goes after. *)
Section Stop.
Context (h : heap) (l1 l2 : list blk) (x b : blk) (base : Z).
Hypothesis Hl : lseg (h_mem h) (l1 ++ x :: l2) base.
Hypothesis Hf : first (l1 ++ x :: l2) base = base.
Hypothesis Hs : StronglySorted before (l1 ++ x :: l2).
Hypothesis Hn : Forall (fun c => 0 <= c.2) (l1 ++ x :: l2).
Hypothesis Hb : 1 <= b.2.
Hypothesis H1 : Forall (fun c => c.1 < b.1) (l1 ++ [x]).
Hypothesis H2 : Forall (fun c => bend b <= c.1) l2.

Lemma stop_base y : y ∈ l1 ++ x :: l2 -> base <= y.1.
Proof. rewrite <- Hf. by apply sorted_first. Qed.

Lemma stop_x : stop h b.1 x.1 = true.
Proof.
  destruct (lseg_lookup _ _ _ _ _ Hl) as [Hp _]. unfold stop, hptr. rewrite Hp.
  assert (x.1 < b.1) by (apply Forall_app in H1 as [_ Hx]; by apply Forall_cons_iff in Hx as [? _]).
  pose proof (stop_base x ltac:(set_solver)). pose proof H2 as H2'.
  destruct l2 as [|c l2']; cbn [first].
  - rewrite (proj2 (Z.leb_le base x.1)), (proj2 (Z.ltb_lt x.1 b.1)) by lia. apply orb_true_r.
  - apply Forall_cons_iff in H2' as [Hc _].
    by rewrite (proj2 (Z.ltb_lt x.1 b.1)), (proj2 (Z.ltb_lt b.1 c.1)) by hdrs.
Qed.

Lemma stop_false (y : blk) z : y.1 < z -> (z < b.1 \/ b.1 < y.1) -> hptr h y.1 = z -> stop h b.1 y.1 = false.
Proof.
  intros Hyz Hz Hp. unfold stop. rewrite Hp, (proj2 (Z.leb_gt z y.1)) by lia. rewrite orb_false_r.
  destruct Hz; [rewrite (proj2 (Z.ltb_ge b.1 z)) by lia; apply andb_false_r|].
  by rewrite (proj2 (Z.ltb_ge y.1 b.1)) by lia.
Qed.

Lemma stop_lower (y : blk) : y ∈ l1 -> stop h b.1 y.1 = false.
Proof.
  intros (a & c & He)%list_elem_of_split. pose proof Hl as Hl'. pose proof Hs as Hs'. pose proof Hn as Hn'.
  pose proof H1 as H1'. rewrite He in Hl', Hs', Hn', H1'. rewrite <- !app_assoc in Hl', Hs', Hn', H1'. simpl in Hl', Hs', Hn', H1'.
  destruct (lseg_lookup _ _ _ _ _ Hl') as [Hp _].
  assert (0 <= y.2) by (apply Forall_app in Hn' as [_ Hn']; by apply Forall_cons_iff in Hn' as [? _]).
  apply Forall_app in H1' as [_ H1']. apply Forall_cons_iff in H1' as [_ H1'].
  destruct c as [|z c]; simpl in Hp, Hs', H1'; pose proof (sorted_next _ _ _ _ Hs').
  all: apply Forall_cons_iff in H1' as [Hz _].
  - apply (stop_false y x.1); [hdrs|by left|done].
  - apply (stop_false y z.1); [hdrs|by left|done].
Qed.

Lemma stop_upper (y : blk) : y ∈ l2 -> stop h b.1 y.1 = false.
Proof.
  intros Hy. pose proof Hy as (a & c & He)%list_elem_of_split. pose proof Hl as Hl'. pose proof Hs as Hs'. pose proof Hn as Hn'.
  assert (Hby : bend b <= y.1) by (by rewrite Forall_forall in H2; apply H2).
  pose proof (stop_base y ltac:(set_solver)).
  assert (Hbb : base < b.1).
  { pose proof H1 as H1'. rewrite <- Hf. destruct l1; cbn; by apply Forall_cons_iff in H1' as [? _]. }
  rewrite He, cons_middle, app_assoc, app_assoc in Hl', Hs', Hn'.
  destruct (lseg_lookup _ _ _ _ _ Hl') as [Hp _].
  assert (0 <= y.2) by (apply Forall_app in Hn' as [_ Hn']; by apply Forall_cons_iff in Hn' as [? _]).
  destruct c as [|z c]; cbn [first] in Hp.
  - unfold stop. change (load32 (h_mem h) y.1) with (hptr h y.1) in Hp. rewrite Hp.
    rewrite (proj2 (Z.ltb_ge y.1 b.1)), (proj2 (Z.ltb_ge b.1 base)) by hdrs. apply andb_false_r.
  - pose proof (sorted_next _ _ _ _ Hs'). apply (stop_false y z.1); [hdrs|right; hdrs|done].
Qed.

(** From any block of the list the search ends at [x]. *)
Lemma free_find_spec p fuel :
  p ∈ addrs (l1 ++ x :: l2) -> (length (l1 ++ x :: l2) <= fuel)%nat -> free_find fuel h b.1 p = Some x.1.
Proof.
  intros (y & -> & Hy)%list_elem_of_fmap Hfuel.
  assert (Hout : forall c, Forall (fun d => d ∈ l1 \/ d ∈ l2) c -> Forall (fun d => stop h b.1 d.1 = false) c).
  { intros c Hc. eapply Forall_impl; [exact Hc|]. intros d [Hd|Hd]; [by apply stop_lower|by apply stop_upper]. }
  rewrite length_app in Hfuel. simpl in Hfuel.
  apply elem_of_app in Hy as [Hy|[-> |Hy]%elem_of_cons].
  - apply list_elem_of_split in Hy as (a & c & He). pose proof Hl as Hl'. rewrite He, <- app_assoc, lseg_app in Hl'.
    apply (free_find_walk h b.1 (y :: c) x l2 base fuel); [apply Hl'| |apply stop_x|rewrite He, length_app in Hfuel; cbn [length] in Hfuel |- *; lia].
    apply Hout. apply Forall_forall. set_solver.
  - pose proof Hl as Hl'. rewrite lseg_app in Hl'.
    apply (free_find_walk h b.1 [] x l2 base fuel); [apply Hl'|constructor|apply stop_x|simpl; lia].
  - apply list_elem_of_split in Hy as (a & c & He). pose proof Hl as Hl'.
    rewrite He, cons_middle, app_assoc, app_assoc in Hl'. apply lseg_rotate in Hl'.
    2:{ rewrite <- Hf. destruct l1; reflexivity. }
    rewrite <- !app_assoc in Hl'. simpl in Hl'.
    rewrite He in Hfuel. rewrite length_app in Hfuel. simpl in Hfuel.
    apply (free_find_walk h b.1 (y :: c ++ l1) x a y.1 fuel); [cbn [app]; rewrite <- app_assoc; apply Hl'| |apply stop_x|].
    + apply Hout. apply Forall_forall. set_solver.
    + simpl. rewrite length_app. lia.
Qed.
End Stop.

(** ** [free] keeps the invariant *)

(** The free list with [b] put in after [x]. *)
Definition put_block (l1 : list blk) (x b : blk) (l2 : list blk) : list blk :=
  l1 ++ join_upper x (join_upper b l2).

Section Put.
Context (base brk : Z) (l1 l2 : list blk) (x b : blk).
Hypothesis Hbrk : 0 < base /\ base + HDR <= brk < KERNBASE.
Hypothesis Hfree : Forall (fun c => c = (base, 0) \/ in_arena base brk c) (l1 ++ x :: l2).
Hypothesis Hsort : StronglySorted before (l1 ++ x :: l2).
Hypothesis Hb : in_arena base brk b.
Hypothesis Hlow : Forall (fun c => bend c <= b.1) (l1 ++ [x]).
Hypothesis Hup : Forall (fun c => bend b <= c.1) l2.

Lemma put_narrow : Forall narrow (l1 ++ x :: b :: l2).
Proof.
  assert (Hl : Forall narrow (l1 ++ x :: l2)).
  { eapply Forall_impl; [exact Hfree|]. intros c [-> |Hc]; unfold narrow; hdrs. }
  apply Forall_app in Hl as [Hl1 [Hx Hl2]%Forall_cons_iff]. apply Forall_app. split; [done|].
  constructor; [done|]. constructor; [|done]. unfold narrow; hdrs.
Qed.

Lemma put_nonneg l : Forall narrow l -> Forall (fun c => 0 <= c.2) l.
Proof. intros H. eapply Forall_impl; [exact H|]. by intros c (_ & ? & _). Qed.

Lemma put_parts : Forall (fun c => 0 <= c.2) (b :: l2) /\ Forall (fun c => 0 <= c.2) (x :: join_upper b l2) /\
  Forall (fun c => bend x <= c.1) (join_upper b l2) /\ StronglySorted before l2.
Proof.
  pose proof put_narrow as [_ [Hx Hbl]%Forall_cons_iff]%Forall_app. pose proof (put_nonneg _ Hbl) as Hnn.
  pose proof Hnn as [Hb0 Hn2]%Forall_cons_iff.
  pose proof Hlow as [_ [Hxb _]%Forall_cons_iff]%Forall_app.
  split_and!; [done| | |].
  - constructor; [by destruct Hx as (_ & ? & _)|]. apply join_upper_Forall; [intros; hdrs|done..].
  - apply join_upper_Forall; [intros; hdrs|done|].
    eapply Forall_impl; [exact Hup|]. intros c Hc. hdrs.
  - pose proof Hsort as Hs. clear -Hs. induction l1; apply StronglySorted_inv in Hs as [Hs _]; [done|by apply IHl].
Qed.

Lemma put_sorted : StronglySorted before (put_block l1 x b l2).
Proof.
  destruct put_parts as (P1 & P2 & P3 & P4). unfold put_block.
  assert (Hj : StronglySorted before (join_upper x (join_upper b l2))).
  { apply join_upper_sorted; [done| |done]. apply join_upper_sorted; done. }
  pose proof Hsort as Hs. clear -Hs Hj P3 P2.
  assert (Hx : forall y, bend y < x.1 -> Forall (before y) (join_upper x (join_upper b l2))).
  { intros y Hy. apply join_upper_Forall; [intros; hdrs|done|].
    apply Forall_cons_iff in P2 as [P2 _]. eapply Forall_impl; [exact P3|]. intros c Hc. hdrs. }
  induction l1 as [|y l IH]; [done|]. apply StronglySorted_inv in Hs as [Hs Hy]. cbn [app].
  constructor; [by apply IH|]. apply Forall_app in Hy as [Hy [Hyx _]%Forall_cons_iff].
  apply Forall_app. split; [done|by apply Hx].
Qed.

Lemma put_covers y : covers (put_block l1 x b l2) y <-> covers (l1 ++ x :: l2) y \/ b.1 <= y < bend b.
Proof.
  destruct put_parts as (P1 & P2 & _). unfold put_block, covers. rewrite !Exists_app, Exists_cons.
  pose proof (join_upper_covers x (join_upper b l2) y P2) as H1.
  pose proof (join_upper_covers b l2 y P1) as H2. unfold covers in H1, H2. tauto.
Qed.

(** A property of blocks that joining keeps. *)
Lemma put_Forall (P : blk -> Prop) :
  (forall c d, P c -> P d -> bend c = d.1 -> P (c.1, c.2 + d.2)) -> Forall P (l1 ++ x :: l2) -> P b ->
  Forall P (put_block l1 x b l2).
Proof.
  intros Hj [H1 [Hx H2]%Forall_cons_iff]%Forall_app HPb. apply Forall_app. split; [done|].
  apply join_upper_Forall; [auto..|]. apply join_upper_Forall; auto.
Qed.

Lemma put_free : Forall (fun c => c = (base, 0) \/ in_arena base brk c) (put_block l1 x b l2).
Proof.
  apply put_Forall; [|done|by right]. intros c d [-> |Hc] [-> |Hd] Hj; [by left|hdrs|hdrs|right; hdrs].
Qed.

Lemma put_head : head (l1 ++ x :: l2) = Some (base, 0) -> head (put_block l1 x b l2) = Some (base, 0).
Proof.
  unfold put_block. destruct l1 as [|y l]; [|done]. cbn. intros [= ->].
  pose proof (join_upper_first b l2) as Hf. destruct (join_upper b l2) as [|c l]; cbn in *; [done|].
  destruct (Z.eqb_spec (bend (base, 0)) c.1); [hdrs|done].
Qed.

Lemma put_freep : x.1 ∈ addrs (put_block l1 x b l2).
Proof.
  unfold put_block, addrs. rewrite fmap_app. apply elem_of_app. right.
  pose proof (join_upper_first x (join_upper b l2)) as Hf. destruct (join_upper x _) as [|c l] eqn:He.
  - destruct (join_upper b l2); cbn in He; [done|by destruct (_ =? _)].
  - cbn in *. set_solver.
Qed.

Lemma put_fits : exists c, c ∈ put_block l1 x b l2 /\ b.2 <= c.2.
Proof.
  destruct put_parts as ((Hb0 & H2)%Forall_cons_iff & (Hx0 & _)%Forall_cons_iff & _).
  assert (Hj : exists d r, join_upper b l2 = d :: r /\ b.2 <= d.2).
  { destruct l2 as [|d r]; cbn; [by exists b, []|]. apply Forall_cons_iff in H2 as [Hd _].
    destruct (_ =? _); eexists _, _; (split; [done|cbn; lia]). }
  destruct Hj as (d & r & Hj & Hd). unfold put_block. rewrite Hj. cbn [join_upper].
  destruct (_ =? _); [exists (x.1, x.2 + d.2)|exists d]; (split; [set_solver|cbn; lia]).
Qed.

Lemma put_length : (length (put_block l1 x b l2) <= S (length (l1 ++ x :: l2)))%nat.
Proof.
  assert (Hj : forall c l, (length (join_upper c l) <= S (length l))%nat)
    by (intros c [|d l]; cbn; [done|destruct (_ =? _); cbn; lia]).
  unfold put_block. rewrite !length_app. cbn [length].
  pose proof (Hj x (join_upper b l2)). pose proof (Hj b l2). lia.
Qed.

(** The headers met while [b] is put in do not overlap. *)
Lemma put_below c : c ∈ l1 ++ [x] -> c.1 + HDR <= b.1.
Proof.
  intros Hc. rewrite Forall_forall in Hlow, Hfree. specialize (Hlow c Hc).
  destruct (Hfree c ltac:(set_solver)) as [-> |]; hdrs.
Qed.

Lemma put_apart_b : Forall (fun c => apart c.1 b.1) (l1 ++ x :: l2).
Proof.
  apply Forall_forall. intros c Hc. rewrite cons_middle, app_assoc in Hc.
  apply elem_of_app in Hc as [Hc|Hc]; [left; by apply put_below|right].
  rewrite Forall_forall in Hup. specialize (Hup c Hc). hdrs.
Qed.

Lemma put_apart_x : Forall (fun c => apart c.1 x.1) (l1 ++ join_upper b l2).
Proof.
  apply Forall_app. split.
  - apply Forall_forall. intros c Hc. rewrite Forall_forall in Hfree.
    assert (Hcx : bend c < x.1).
    { apply list_elem_of_split in Hc as (a & d & He). clear Hfree Hlow. pose proof Hsort as Hs. rewrite He in Hs.
      clear -Hs. induction a as [|y a IH]; cbn [app] in Hs; apply StronglySorted_inv in Hs as [Hs Hy]; [|by apply IH].
      by apply Forall_app in Hy as [_ [? _]%Forall_cons_iff]. }
    destruct (Hfree c ltac:(set_solver)) as [-> |Hc']; [|hdrs].
    destruct (Hfree x ltac:(set_solver)) as [-> |Hx]; hdrs.
  - pose proof (put_below x ltac:(set_solver)).
    eapply (Forall_impl (fun c => x.1 + HDR <= c.1)); [|intros c Hc; by right].
    apply join_upper_Forall; [done|done|].
    eapply Forall_impl; [exact Hup|]. intros c Hc. hdrs.
Qed.
End Put.

Lemma load32_outside base l lo hi m m' a n :
  untouched base l lo hi m m' -> 0 < base -> base + HDR <= a -> 1 <= n ->
  (forall c, c ∈ l -> disjoint c (a, n)) -> (hi <= a \/ a + HDR * n <= lo) ->
  forall x, a <= x < a + HDR * n -> m' x = m x.
Proof.
  intros Hu Hb Ha Hn Hd Hlo x Hx. apply Hu; [|hdrs|hdrs].
  intros (c & Hc & Hxc)%Exists_exists. specialize (Hd c Hc). hdrs.
Qed.

(** A block that is in no one's hands: neither free nor allocated. *)
Definition loose (base : Z) (h : heap) (l : list blk) (al : gmap Z Z) (b : blk) : Prop :=
  in_arena base (h_brk h) b /\ hsize h b.1 = b.2 /\ (forall c, c ∈ l -> disjoint c b) /\
  (forall a n, al !! a = Some n -> disjoint (a, n) b).

Lemma free_nonneg base brk l :
  Forall (fun b => b = (base, 0) \/ in_arena base brk b) l -> Forall (fun c => 0 <= c.2) l.
Proof. intros H. eapply Forall_impl; [exact H|]. intros c [-> |Hc]; hdrs. Qed.

Lemma loose_split base h l al b :
  heap_ok base h l al -> loose base h l al b ->
  exists l1 x l2, l = l1 ++ x :: l2 /\ Forall (fun c => bend c <= b.1) (l1 ++ [x]) /\
    Forall (fun c => bend b <= c.1) l2.
Proof.
  intros Hok (Hb & _ & Hdl & _). destruct l as [|b0 l]; [by destruct Hok|].
  assert (b0 = (base, 0)) as -> by (by injection (ok_first _ _ _ _ Hok)).
  pose proof (free_nonneg _ _ _ (ok_free _ _ _ _ Hok)).
  apply split_at; [apply Hok|done|hdrs|hdrs|]. apply Forall_forall. intros c Hc. apply Hdl. set_solver.
Qed.

(** The memory [free] leaves. *)
Lemma free_run base h l1 x l2 al b fuel :
  heap_ok base h (l1 ++ x :: l2) al -> loose base h (l1 ++ x :: l2) al b ->
  Forall (fun c => bend c <= b.1) (l1 ++ [x]) -> Forall (fun c => bend b <= c.1) l2 ->
  (length (l1 ++ x :: l2) <= fuel)%nat ->
  exists h', free fuel (b.1 + HDR) h = Some h' /\ h_freep h' = x.1 /\ h_brk h' = h_brk h /\
    lseg (h_mem h') (put_block l1 x b l2) base /\
    forall y, ~ (b.1 <= y < b.1 + HDR) -> ~ (x.1 <= y < x.1 + HDR) -> h_mem h' y = h_mem h y.
Proof.
  intros [Hbase Hbrk Hfst Hfree Hsort Hlink Hfp _ _ _] (Hb & Hbs & _ & _) Hlow Hup Hfuel.
  pose proof (put_narrow _ _ _ _ _ _ (conj Hbase Hbrk) Hfree Hb) as [Hn1 [Hnx Hnb]%Forall_cons_iff]%Forall_app.
  pose proof Hnb as [Hnb' Hn2]%Forall_cons_iff.
  assert (Hbel : forall c, c ∈ l1 ++ [x] -> c.1 + HDR <= b.1) by (intros; by eapply put_below).
  assert (Hab : Forall (fun c => apart c.1 b.1) (l1 ++ x :: l2)) by by eapply put_apart_b.
  assert (Hax : Forall (fun c => apart c.1 x.1) (l1 ++ join_upper b l2)) by by eapply put_apart_x.
  assert (Hff : free_find fuel h b.1 (h_freep h) = Some x.1).
  { apply (free_find_spec h l1 l2 x b base); try done; [| |hdrs|].
    - by destruct l1; cbn in *; simplify_eq.
    - by eapply free_nonneg.
    - apply Forall_forall. intros c Hc. specialize (Hbel c Hc). hdrs. }
  pose proof Hlink as [Hl1 Hl2]%lseg_app. cbn [first] in Hl1. destruct Hl2 as (Hxp & Hxs & Hl2).
  apply Forall_app in Hab as [Hab1 [Habx Hab2]%Forall_cons_iff].
  destruct (free_upper_spec h x.1 b l2 base) as [Ho Hs]; [done..|hdrs|].
  assert (He : exists c r, join_upper b l2 = c :: r /\ c.1 = b.1).
  { pose proof (join_upper_first b l2). destruct (join_upper b l2) eqn:E; [|by eauto].
    destruct l2; cbn in E; [done|by destruct (_ =? _)]. }
  destruct He as (c & r & He & Hc). rewrite He in Hs, Hax.
  destruct (free_lower_spec (free_upper b.1 x.1 h) x c r l1 base) as [Ho' Hs'].
  { rewrite <- Hxs. apply load32_ext. intros y Hy. apply Ho. hdrs. }
  { by eapply lseg_hdr_only. }
  { done. }
  { done. }
  { done. }
  { rewrite <- He. apply join_upper_Forall; [|done..]. intros d. unfold narrow. intros (? & ? & ?) (? & ? & ?). hdrs. }
  { hdrs. }
  exists (set_freep x.1 (free_lower b.1 x.1 (free_upper b.1 x.1 h))). rewrite Hc in Ho', Hs'.
  unfold free. rewrite Z.add_simpl_r, u32_small, Hff by hdrs.
  destruct Ho as (_ & A2 & A3), Ho' as (_ & B2 & B3).
  split_and!; [done|done|cbn; congruence|unfold put_block; by rewrite He|].
  intros y Hy1 Hy2. cbn. by rewrite B3, A3.
Qed.

Lemma free_block_spec base h l al b fuel :
  heap_ok base h l al -> loose base h l al b -> (length l <= fuel)%nat ->
  exists h' l', free fuel (b.1 + HDR) h = Some h' /\ heap_ok base h' l' al /\ h_brk h' = h_brk h /\
    (forall x, covers l' x <-> covers l x \/ b.1 <= x < bend b) /\
    untouched base l b.1 (bend b) (h_mem h) (h_mem h') /\ (length l' <= S (length l))%nat /\
    exists c, c ∈ l' /\ b.2 <= c.2.
Proof.
  intros Hok Hlo Hfuel. destruct (loose_split _ _ _ _ _ Hok Hlo) as (l1 & x & l2 & -> & Hlow & Hup).
  destruct (free_run _ _ _ _ _ _ _ _ Hok Hlo Hlow Hup Hfuel) as (h' & Hrun & Hfp' & Hbrk' & Hl' & Hm).
  pose proof Hok as [Hbase Hbrk Hfst Hfree Hsort Hlink Hfp Hal Hald Hfd].
  pose proof Hlo as (Hb & Hbs & Hdl & Hda).
  assert (Hu : untouched base (l1 ++ x :: l2) b.1 (bend b) (h_mem h) (h_mem h')).
  { intros y Hc Hy1 Hy2. apply Hm; [hdrs|]. intros Hy3.
    rewrite Forall_forall in Hfree. destruct (Hfree x ltac:(set_solver)) as [-> |Hx]; [done|].
    apply Hc. apply Exists_exists. exists x. split; [set_solver|hdrs]. }
  exists h', (put_block l1 x b l2). split_and!; [done| |done| |done|apply put_length|by eapply put_fits].
  2:{ intros y. by eapply put_covers. }
  split; rewrite ?Hbrk'; [done|done|by eapply put_head|by eapply put_free|by eapply put_sorted|done| | |done|].
  - rewrite Hfp'. by eapply put_freep.
  - intros a n Ha. destruct (Hal a n Ha) as [Har Hs]. split; [done|]. rewrite <- Hs. apply load32_ext. intros y Hy.
    eapply (load32_outside _ _ _ _ _ _ a n Hu); [done|hdrs|hdrs|intros c Hc; by eapply Hfd| |hdrs].
    specialize (Hda a n Ha). hdrs.
  - intros c a n Hc Ha. specialize (Hda a n Ha). destruct (Hal a n Ha) as [Har _].
    assert (HP : Forall (fun c => disjoint c (a, n)) (put_block l1 x b l2)); [|by rewrite Forall_forall in HP; apply HP].
    apply put_Forall; [intros; hdrs| |hdrs]. apply Forall_forall. intros d Hd. by eapply Hfd.
Qed.

(** ** [malloc] takes a block *)

(** What is left of [x], and what is taken of it. *)
Definition rest_of (x : blk) (nu : Z) : list blk := if x.2 =? nu then [] else [(x.1, x.2 - nu)].
Definition taken (x : blk) (nu : Z) : blk := (x.1 + HDR * (x.2 - nu), nu).

Lemma sorted_app_inv l1 l2 : StronglySorted before (l1 ++ l2) ->
  StronglySorted before l1 /\ StronglySorted before l2 /\ forall b c, b ∈ l1 -> c ∈ l2 -> before b c.
Proof.
  induction l1 as [|b l1 IH]; cbn [app]; intros Hs; [split; [constructor|split; [done|set_solver]]|].
  apply StronglySorted_inv in Hs as [Hs Hb]. destruct (IH Hs) as (H1 & H2 & H3).
  apply Forall_app in Hb as [Hb1 Hb2]. split_and!; [by constructor|done|].
  intros c d [-> |Hc]%elem_of_cons Hd; [|by apply H3]. rewrite Forall_forall in Hb2. by apply Hb2.
Qed.

Lemma sorted_app l1 l2 : StronglySorted before l1 -> StronglySorted before l2 ->
  (forall b c, b ∈ l1 -> c ∈ l2 -> before b c) -> StronglySorted before (l1 ++ l2).
Proof.
  intros H1 H2. induction H1 as [|b l1 H1 IH Hb]; intros H3; [done|]. cbn. constructor.
  - apply IH. set_solver.
  - apply Forall_app. split; [done|]. apply Forall_forall. set_solver.
Qed.

Section Take.
Context (base : Z) (h : heap) (a c : list blk) (pre x : blk) (al : gmap Z Z) (nu : Z).
Hypothesis Hok : heap_ok base h (a ++ [pre] ++ x :: c) al.
Hypothesis Hnu : 1 <= nu <= x.2.

Lemma take_x : in_arena base (h_brk h) x.
Proof.
  pose proof (ok_free _ _ _ _ Hok) as Hf. rewrite Forall_forall in Hf.
  destruct (Hf x ltac:(set_solver)) as [-> |]; [hdrs|done].
Qed.

Lemma take_before y : y ∈ a ++ [pre] -> bend y < x.1 /\ y.1 + HDR <= x.1.
Proof.
  intros Hy. pose proof (ok_sorted _ _ _ _ Hok) as Hs. rewrite app_assoc in Hs.
  apply sorted_app_inv in Hs as (_ & _ & Hs). specialize (Hs y x Hy ltac:(set_solver)).
  split; [done|]. pose proof take_x as Hx. pose proof (ok_free _ _ _ _ Hok) as Hf. rewrite Forall_forall in Hf.
  destruct (Hf y ltac:(set_solver)) as [-> |]; hdrs.
Qed.

Lemma take_after y : y ∈ c -> bend x < y.1.
Proof.
  intros Hy. pose proof (ok_sorted _ _ _ _ Hok) as Hs. rewrite app_assoc in Hs.
  apply sorted_app_inv in Hs as (_ & Hs & _). apply StronglySorted_inv in Hs as [_ Hs].
  rewrite Forall_forall in Hs. by apply Hs.
Qed.

Lemma take_rest y : y ∈ rest_of x nu -> y = (x.1, x.2 - nu) /\ nu < x.2.
Proof. unfold rest_of. destruct (Z.eqb_spec x.2 nu); [set_solver|]. intros ->%list_elem_of_singleton. split; [done|lia]. Qed.

(** A block of the new list is a block of the old one, or the rest of [x]. *)
Lemma take_elem y : y ∈ a ++ [pre] ++ rest_of x nu ++ c ->
  y ∈ a ++ [pre] \/ (y = (x.1, x.2 - nu) /\ nu < x.2) \/ y ∈ c.
Proof. rewrite !elem_of_app. intros [?|[?|[?%take_rest|?]]]; tauto. Qed.

Lemma take_sorted : StronglySorted before (a ++ [pre] ++ rest_of x nu ++ c).
Proof.
  pose proof (ok_sorted _ _ _ _ Hok) as Hs. rewrite app_assoc in Hs |- *.
  apply sorted_app_inv in Hs as (H1 & [H2 _]%StronglySorted_inv & H3).
  apply sorted_app; [done| |].
  - apply sorted_app; [unfold rest_of; destruct (_ =? _); repeat constructor|done|].
    intros y z [-> Hlt]%take_rest Hz. pose proof (take_after z Hz). hdrs.
  - intros y z Hy [[-> Hlt]%take_rest|Hz]%elem_of_app; [|apply H3; set_solver].
    pose proof (take_before y Hy). hdrs.
Qed.

Lemma take_free : Forall (fun b => b = (base, 0) \/ in_arena base (h_brk h) b) (a ++ [pre] ++ rest_of x nu ++ c).
Proof.
  pose proof (ok_free _ _ _ _ Hok) as Hf. rewrite Forall_forall in Hf |- *. pose proof take_x.
  intros y [Hy|[[-> Hlt]|Hy]]%take_elem; [apply Hf; set_solver|right; hdrs|apply Hf; set_solver].
Qed.

Lemma take_disjoint y : y ∈ a ++ [pre] ++ rest_of x nu ++ c -> disjoint y (taken x nu).
Proof.
  intros [Hy|[[-> Hlt]|Hy]]%take_elem; unfold taken.
  - pose proof (take_before y Hy). left. hdrs.
  - left. hdrs.
  - pose proof (take_after y Hy). right. hdrs.
Qed.

Lemma take_covers y : covers (a ++ [pre] ++ x :: c) y <->
  covers (a ++ [pre] ++ rest_of x nu ++ c) y \/ (taken x nu).1 <= y < bend (taken x nu).
Proof.
  unfold covers. rewrite !Exists_app, !Exists_cons.
  assert (Hx : x.1 <= y < bend x <->
    Exists (fun b => b.1 <= y < bend b) (rest_of x nu) \/ (taken x nu).1 <= y < bend (taken x nu)); [|tauto].
  unfold rest_of, taken. destruct (Z.eqb_spec x.2 nu) as [He|Hne].
  - rewrite Exists_nil. hdrs.
  - rewrite Exists_cons, Exists_nil. hdrs.
Qed.

(** The taken block and the allocated ones. *)
Lemma take_al b n : al !! b = Some n -> disjoint (b, n) (taken x nu) /\ disjoint (b, n) x.
Proof.
  intros Hb. pose proof (ok_free_disj _ _ _ _ Hok x b n ltac:(set_solver) Hb) as Hd.
  destruct (ok_al _ _ _ _ Hok b n Hb) as [Har _]. unfold taken. split; hdrs.
Qed.
Lemma take_apart y : y ∈ a ++ [pre] ++ c -> apart y.1 x.1.
Proof.
  rewrite app_assoc. intros [Hy|Hy]%elem_of_app.
  - left. by apply take_before.
  - pose proof (take_after y Hy). pose proof take_x. right. hdrs.
Qed.

Lemma take_apart_pre y : y ∈ a ++ c -> apart y.1 pre.1.
Proof.
  pose proof (ok_sorted _ _ _ _ Hok) as Hs. apply sorted_app_inv in Hs as (_ & _ & Hs).
  pose proof (ok_free _ _ _ _ Hok) as Hf. rewrite Forall_forall in Hf. pose proof take_x as Hx.
  intros [Hy|Hy]%elem_of_app.
  - specialize (Hs y pre Hy ltac:(set_solver)). left.
    destruct (Hf y ltac:(set_solver)) as [-> |], (Hf pre ltac:(set_solver)) as [-> |]; hdrs.
  - pose proof (take_after y Hy). pose proof (take_before pre ltac:(set_solver)). right. hdrs.
Qed.

Lemma take_links : lseg (h_mem h) a pre.1 /\ hptr h pre.1 = x.1 /\ hsize h pre.1 = pre.2 /\
  hptr h x.1 = first c base /\ hsize h x.1 = x.2 /\ lseg (h_mem h) c base /\ 0 <= first c base < 2 ^ 32.
Proof.
  pose proof (ok_link _ _ _ _ Hok) as Hl. rewrite !lseg_app in Hl. cbn [lseg first] in Hl.
  destruct Hl as (H1 & (H2 & H3 & _) & H4 & H5 & H6). split_and!; try done.
  all: pose proof (ok_base _ _ _ _ Hok); pose proof (ok_brk _ _ _ _ Hok); destruct c as [|d c']; cbn [first]; [hdrs|].
  all: pose proof (ok_free _ _ _ _ Hok) as Hf; rewrite Forall_forall in Hf.
  all: destruct (Hf d ltac:(set_solver)) as [-> |]; hdrs.
Qed.

Lemma take_run_exact : x.2 = nu -> let h' := set_hptr pre.1 (hptr h x.1) h in
  hdr_only pre.1 h h' /\ lseg (h_mem h') (a ++ [pre] ++ c) base /\ hsize h' x.1 = nu.
Proof.
  intros He h'. destruct take_links as (L1 & L2 & L3 & L4 & L5 & L6 & L7).
  assert (Ho : hdr_only pre.1 h h') by apply hdr_only_hptr. split; [done|].
  pose proof take_apart_pre as Hap. split.
  - rewrite !lseg_app. cbn [lseg first]. split_and!; [..|done|].
    + eapply lseg_hdr_only; [exact Ho| |done]. apply Forall_forall. set_solver.
    + etransitivity; [apply hptr_set_hptr|]. rewrite L4. by apply u32_small.
    + etransitivity; [apply hsize_set_hptr; by left|done].
    + eapply lseg_hdr_only; [exact Ho| |done]. apply Forall_forall. set_solver.
  - subst h'. rewrite hsize_set_hptr; [congruence|]. right.
    destruct (take_apart pre ltac:(set_solver)); [by right|by left].
Qed.

Lemma take_run_split : nu < x.2 ->
  let q := (taken x nu).1 in
  let h' := set_hsize q nu (set_hsize x.1 (u32 (x.2 - nu)) h) in
  h_brk h' = h_brk h /\ (forall y, ~ (x.1 <= y < bend x) -> h_mem h' y = h_mem h y) /\
  lseg (h_mem h') (a ++ [pre] ++ (x.1, x.2 - nu) :: c) base /\ hsize h' q = nu.
Proof.
  intros Hlt q h'. destruct take_links as (L1 & L2 & L3 & L4 & L5 & L6 & L7). pose proof take_x as Hx.
  pose proof (ok_brk _ _ _ _ Hok). pose proof (ok_base _ _ _ _ Hok).
  assert (Hq : q = x.1 + HDR * (x.2 - nu)) by done. assert (Hqx : apart x.1 q) by (left; hdrs).
  assert (Hm : forall y, ~ (x.1 <= y < bend x) -> h_mem h' y = h_mem h y).
  { intros y Hy. subst h'. cbn. rewrite !store32_other by hdrs. done. }
  split_and!; [done|done| |].
  - assert (Hk : forall l e, (forall y, y ∈ l -> y ∈ a ++ [pre] ++ c) -> lseg (h_mem h) l e -> lseg (h_mem h') l e).
    { intros l e Hl. apply lseg_ext. intros y z Hy Hz. apply Hm. specialize (Hl y Hy).
      rewrite app_assoc in Hl. apply elem_of_app in Hl as [Hl|Hl].
      - pose proof (take_before y Hl). hdrs.
      - pose proof (take_after y Hl). hdrs. }
    rewrite !lseg_app. cbn [first fst]. split_and!; [apply Hk; [set_solver|done]| |].
    + apply (Hk [pre]); [set_solver|]. cbn. split_and!; [exact L2|exact L3|done].
    + cbn [lseg fst snd]. split_and!; [| |apply Hk; [set_solver|done]].
      * transitivity (hptr h x.1); [|exact L4]. subst h'. rewrite <- (hptr_set_hsize x.1 x.1 (u32 (x.2 - nu)) h) by by left.
        apply hptr_set_hsize. by right.
      * subst h'. transitivity (hsize (set_hsize x.1 (u32 (x.2 - nu)) h) x.1); [by apply hsize_set_hsize_ne|].
        rewrite hsize_set_hsize, !u32_small; [done|hdrs|apply u32_range].
  - subst h'. rewrite hsize_set_hsize. apply u32_small. hdrs.
Qed.
End Take.

(** What [take_block] writes. *)
Lemma take_block_run base h a c pre x al nu :
  heap_ok base h (a ++ [pre] ++ x :: c) al -> 1 <= nu <= x.2 ->
  exists h', take_block pre.1 x.1 nu h = ((taken x nu).1 + HDR, h') /\ h_freep h' = pre.1 /\ h_brk h' = h_brk h /\
    (forall y, ~ (x.1 <= y < bend x) -> ~ (pre.1 <= y < pre.1 + HDR) -> h_mem h' y = h_mem h y) /\
    lseg (h_mem h') (a ++ [pre] ++ rest_of x nu ++ c) base /\ hsize h' (taken x nu).1 = nu.
Proof.
  intros Hok Hnu. pose proof (take_x _ _ _ _ _ _ _ _ Hok Hnu) as Hx.
  destruct (take_links _ _ _ _ _ _ _ nu Hok Hnu) as (_ & _ & _ & _ & L5 & _).
  pose proof (ok_brk _ _ _ _ Hok). pose proof (ok_base _ _ _ _ Hok).
  unfold take_block, rest_of. rewrite L5. destruct (Z.eqb_spec x.2 nu) as [He|Hne].
  - destruct (take_run_exact _ _ _ _ _ _ _ _ Hok Hnu He) as ((_ & Ho & Hm) & Hl & Hs).
    assert ((taken x nu).1 = x.1) as -> by (unfold taken; hdrs).
    eexists. split; [rewrite padd_small by hdrs; f_equal; hdrs|].
    split_and!; [done|exact Ho|by intros y _ Hy; apply Hm|exact Hl|exact Hs].
  - destruct (take_run_split _ _ _ _ _ _ _ _ Hok Hnu ltac:(lia)) as (Hb & Hm & Hl & Hs).
    assert (Hk : hsize (set_hsize x.1 (u32 (x.2 - nu)) h) x.1 = x.2 - nu).
    { rewrite hsize_set_hsize, !u32_small; [done|hdrs|apply u32_range]. }
    rewrite Hk, (padd_small x.1) by hdrs. change (x.1 + HDR * (x.2 - nu)) with (taken x nu).1.
    eexists. split; [rewrite padd_small by (unfold taken; hdrs); f_equal; hdrs|].
    split_and!; [done|exact Hb|by intros y Hy _; apply Hm|exact Hl|exact Hs].
Qed.

Lemma take_block_spec base h a c pre x al nu :
  heap_ok base h (a ++ [pre] ++ x :: c) al -> 1 <= nu <= x.2 ->
  exists h', take_block pre.1 x.1 nu h = ((taken x nu).1 + HDR, h') /\
    heap_ok base h' (a ++ [pre] ++ rest_of x nu ++ c) (<[(taken x nu).1 := nu]> al) /\
    al !! (taken x nu).1 = None /\ in_arena base (h_brk h) (taken x nu) /\ h_brk h' = h_brk h /\
    untouched base (a ++ [pre] ++ x :: c) 0 0 (h_mem h) (h_mem h').
Proof.
  intros Hok Hnu. destruct (take_block_run _ _ _ _ _ _ _ _ Hok Hnu) as (h' & Hrun & Hfp & Hbrk & Hm & Hl & Hs).
  exists h'. split; [done|]. pose proof (ok_base _ _ _ _ Hok). pose proof (take_x _ _ _ _ _ _ _ _ Hok Hnu) as Hx.
  pose proof (take_al _ _ _ _ _ _ _ _ Hok Hnu) as Hta.
  assert (Ht : in_arena base (h_brk h) (taken x nu)) by (unfold taken; hdrs).
  assert (Hnone : al !! (taken x nu).1 = None).
  { destruct (al !! _) as [n|] eqn:E; [|done]. pose proof (ok_al _ _ _ _ Hok _ _ E) as [? _].
    destruct (Hta _ _ E) as [? _]. unfold taken in *. hdrs. }
  assert (Hu : untouched base (a ++ [pre] ++ x :: c) 0 0 (h_mem h) (h_mem h')).
  { pose proof (ok_free _ _ _ _ Hok) as Hf. rewrite Forall_forall in Hf.
    intros y Hc Hy _. apply Hm; intros Hy'.
    - apply Hc, Exists_exists. exists x. split; [set_solver|done].
    - destruct (Hf pre ltac:(set_solver)) as [-> |]; [by apply Hy|].
      apply Hc. apply Exists_exists. exists pre. split; [set_solver|hdrs]. }
  assert (Hold : forall b n, al !! b = Some n -> hsize h' b = n).
  { intros b n Hb. destruct (ok_al _ _ _ _ Hok b n Hb) as [Har <-]. apply load32_ext. intros y Hy.
    eapply (load32_outside _ _ _ _ _ _ b (hsize h b) Hu); [apply Hok|hdrs|hdrs| |hdrs|hdrs].
    intros d Hd. by eapply (ok_free_disj _ _ _ _ Hok). }
  split_and!; try done. split; rewrite ?Hbrk; try apply Hok; try done.
  - pose proof (ok_first _ _ _ _ Hok). by destruct a.
  - by apply (take_free _ _ _ _ _ _ al).
  - by apply (take_sorted base h _ _ _ _ al).
  - rewrite Hfp. unfold addrs. set_solver.
  - intros b n [[<- <-]|[Hne Hb]]%lookup_insert_Some; [done|]. split; [by apply (ok_al _ _ _ _ Hok)|by apply Hold].
  - intros b n b' n' [[<- <-]|[Hne Hb]]%lookup_insert_Some [[<- <-]|[Hne' Hb']]%lookup_insert_Some Hd; [done|..].
    + destruct (Hta _ _ Hb') as [[?|?] _]; [by right|by left].
    + by apply Hta.
    + by eapply (ok_al_disj _ _ _ _ Hok).
  - intros d b n Hd [[<- <-]|[Hne Hb]]%lookup_insert_Some; [by eapply take_disjoint|].
    destruct (take_elem _ _ _ _ _ _ _ _ Hok Hnu d Hd) as [Hd'|[[-> Hlt]|Hd']].
    + eapply (ok_free_disj _ _ _ _ Hok); [set_solver|done].
    + destruct (Hta _ _ Hb) as [_ ?]. destruct (ok_al _ _ _ _ Hok b n Hb) as [? _]. hdrs.
    + eapply (ok_free_disj _ _ _ _ Hok); [set_solver|done].
Qed.

(** ** The loop of [malloc] *)

Lemma malloc_scan grant h nu f q c1 c2 e :
  lseg (h_mem h) (q :: c1 ++ c2) e -> Forall (fun b => b.2 < nu /\ b.1 <> h_freep h) c1 ->
  exists pre, pre ∈ q :: c1 /\ hptr h pre.1 = first c2 e /\
    malloc_loop grant (length c1 + f) nu q.1 (first (c1 ++ c2) e) h =
    malloc_loop grant f nu pre.1 (first c2 e) h.
Proof.
  revert q. induction c1 as [|b c1 IH]; intros q Hl Hc.
  - exists q. split; [set_solver|]. split; [apply Hl|done].
  - apply Forall_cons_iff in Hc as [[Hb Hne] Hc]. destruct Hl as (_ & _ & Hl).
    destruct (IH b Hl Hc) as (pre & Hpre & Hp & Hrun). exists pre. split; [set_solver|]. split; [done|].
    rewrite <- Hrun. cbn [length Nat.add malloc_loop app first]. destruct Hl as (Hbp & Hbs & _).
    unfold hsize at 1. rewrite Hbs. rewrite (proj2 (Z.leb_gt _ _)), (proj2 (Z.eqb_neq _ _)) by done.
    unfold hptr. by rewrite Hbp.
Qed.

Lemma first_fit nu (c : list blk) :
  Forall (fun b => b.2 < nu) c \/ exists c1 x c2, c = c1 ++ x :: c2 /\ Forall (fun b => b.2 < nu) c1 /\ nu <= x.2.
Proof.
  induction c as [|b c [IH|(c1 & x & c2 & -> & H1 & H2)]]; [by left|..];
    (destruct (decide (nu <= b.2)) as [Hb|Hb]; [right; eexists [], b, _; by split_and!|]).
  - left. constructor; [lia|done].
  - right. exists (b :: c1), x, c2. split; [done|]. split; [constructor; [lia|done]|done].
Qed.

Section Loop.
Context (base : Z) (grant : Z -> bool) (h : heap) (l : list blk) (al : gmap Z Z).
Hypothesis Hok : heap_ok base h l al.

Lemma ok_hsize b : b ∈ l -> hsize h b.1 = b.2.
Proof.
  intros (l1 & l2 & ->)%list_elem_of_split. by destruct (lseg_lookup _ _ _ _ _ (ok_link _ _ _ _ Hok)).
Qed.

Lemma ok_positive b : b ∈ l -> 0 < b.1.
Proof.
  intros Hb. pose proof (ok_free _ _ _ _ Hok) as Hf. rewrite Forall_forall in Hf. pose proof (ok_base _ _ _ _ Hok).
  destruct (Hf b Hb) as [-> |]; hdrs.
Qed.

(** The list seen from [freep]. *)
Lemma ok_cycle : exists l1 y l2, l = l1 ++ y :: l2 /\ y.1 = h_freep h /\
  lseg (h_mem h) (y :: l2 ++ l1) y.1 /\ Forall (fun b => b.1 <> h_freep h) (l2 ++ l1).
Proof.
  pose proof (ok_freep _ _ _ _ Hok) as (y & -> & Hy)%list_elem_of_fmap.
  apply list_elem_of_split in Hy as (l1 & l2 & He). exists l1, y, l2. split_and!; [done|done| |].
  - apply lseg_rotate with base; [rewrite <- He; apply Hok|].
    pose proof (ok_first _ _ _ _ Hok) as Hf. rewrite He in Hf. destruct l1; cbn in *; by simplify_eq.
  - pose proof (ok_sorted _ _ _ _ Hok) as Hs. pose proof (free_nonneg _ _ _ (ok_free _ _ _ _ Hok)) as Hn.
    rewrite He in Hs, Hn. rewrite Forall_forall in Hn.
    apply sorted_app_inv in Hs as (_ & [_ H2]%StronglySorted_inv & H1).
    rewrite Forall_forall in H2. apply Forall_forall. intros b [Hb|Hb]%elem_of_app.
    + pose proof (H2 b Hb). pose proof (Hn y ltac:(set_solver)). hdrs.
    + pose proof (H1 b y Hb ltac:(set_solver)). pose proof (Hn b ltac:(set_solver)). hdrs.
Qed.

(** The block before [x] in the circle is the one before it in the list. *)
Lemma pred_split pre x : pre ∈ l -> x ∈ l -> 1 <= x.2 -> hptr h pre.1 = x.1 ->
  exists a c, l = a ++ [pre] ++ x :: c.
Proof.
  intros Hp Hx Hx2 Hl. apply list_elem_of_split in Hp as (a & c & He).
  pose proof (ok_link _ _ _ _ Hok) as Hlk. rewrite He in Hlk.
  destruct (lseg_lookup _ _ _ _ _ Hlk) as [Hf _]. unfold hptr in Hl. rewrite Hf in Hl.
  pose proof (ok_free _ _ _ _ Hok) as Hfr. rewrite Forall_forall in Hfr.
  destruct (Hfr x Hx) as [-> |Hxa]; [cbn in Hx2; lia|].
  destruct c as [|x' c]; cbn [first] in Hl; [hdrs|]. exists a, c. rewrite He. cbn. do 3 f_equal.
  pose proof (ok_hsize x Hx). pose proof (ok_hsize x' ltac:(set_solver)).
  destruct x, x'; cbn in *; congruence.
Qed.

Lemma malloc_fit nu fuel :
  1 <= nu -> (exists b, b ∈ l /\ nu <= b.2) -> (length l <= fuel)%nat ->
  exists a pre x c, l = a ++ [pre] ++ x :: c /\ nu <= x.2 /\
    malloc_loop grant fuel nu (h_freep h) (hptr h (h_freep h)) h = Some (take_block pre.1 x.1 nu h).
Proof.
  intros Hnu (b & Hb & Hbn) Hfuel. destruct ok_cycle as (l1 & y & l2 & He & Hy & Hcyc & Hne).
  assert (Hstart : hptr h (h_freep h) = first (l2 ++ l1) y.1) by (rewrite <- Hy; apply Hcyc).
  assert (Hlen : length l = S (length (l2 ++ l1))) by (rewrite He, !length_app; cbn; lia).
  assert (Hin : forall d, d ∈ y :: l2 ++ l1 -> d ∈ l) by (intros d; rewrite He; set_solver).
  assert (Hgo : exists c1 x c2, x ∈ l /\ nu <= x.2 /\ first c2 y.1 = x.1 /\ l2 ++ l1 = c1 ++ c2 /\ Forall (fun b => b.2 < nu) c1).
  { destruct (first_fit nu (l2 ++ l1)) as [Hno|(c1 & x & c2 & Hc & H1 & H2)].
    - exists (l2 ++ l1), y, []. rewrite app_nil_r. split_and!; [set_solver| |done|done|done].
      rewrite He in Hb. rewrite Forall_forall in Hno.
      apply elem_of_app in Hb as [Hb|[-> |Hb]%elem_of_cons]; [|done|]; specialize (Hno b ltac:(set_solver)); lia.
    - exists c1, x, (x :: c2). split_and!; [apply Hin; rewrite Hc; set_solver|done..]. }
  destruct Hgo as (c1 & x & c2 & Hx & Hxn & Hf & Hc & H1). rewrite Hc in Hcyc, Hne, Hstart, Hlen, Hin.
  destruct (malloc_scan grant h nu (fuel - length c1) y c1 c2 y.1 Hcyc) as (pre & Hpre & Hp & Hrun).
  { apply Forall_app in Hne as [Hne _]. apply Forall_forall. intros d Hd. rewrite Forall_forall in H1, Hne.
    split; [by apply H1|by apply Hne]. }
  destruct (pred_split pre x) as (a & c & Hl); [apply Hin; set_solver|done|lia|by rewrite Hp|].
  exists a, pre, x, c. split; [done|]. split; [done|]. rewrite length_app in Hlen.
  replace (length c1 + (fuel - length c1))%nat with fuel in Hrun by lia. rewrite Hstart, <- Hy, Hrun, Hf.
  destruct (fuel - length c1)%nat eqn:Hfl; [lia|]. cbn [malloc_loop].
  by rewrite (ok_hsize x Hx), (proj2 (Z.leb_le _ _)).
Qed.

Lemma malloc_nofit nu fuel :
  Forall (fun b => b.2 < nu) l -> (length l <= fuel)%nat ->
  malloc_loop grant fuel nu (h_freep h) (hptr h (h_freep h)) h =
  ('(p, h) ← morecore grant (fuel - length l) nu h;
   if p =? 0 then Some (0, h) else malloc_loop grant (fuel - length l) nu p (hptr h p) h).
Proof.
  intros Hno Hfuel. destruct ok_cycle as (l1 & y & l2 & He & Hy & Hcyc & Hne). rewrite Forall_forall in Hno.
  assert (Hstart : hptr h (h_freep h) = first (l2 ++ l1) y.1) by (rewrite <- Hy; apply Hcyc).
  assert (Hlen : length l = S (length (l2 ++ l1))) by (rewrite He, !length_app; cbn; lia).
  destruct (malloc_scan grant h nu (fuel - length (l2 ++ l1)) y (l2 ++ l1) [] y.1) as (pre & Hpre & Hp & Hrun).
  { by rewrite app_nil_r. }
  { apply Forall_forall. intros d Hd. rewrite Forall_forall in Hne. split; [apply Hno; set_solver|by apply Hne]. }
  rewrite app_nil_r in Hrun.
  replace (length (l2 ++ l1) + (fuel - length (l2 ++ l1)))%nat with fuel in Hrun by lia.
  rewrite Hstart, <- Hy, Hrun. cbn [first].
  replace (fuel - length (l2 ++ l1))%nat with (S (fuel - length l)) by lia. cbn [malloc_loop].
  rewrite (ok_hsize y), (proj2 (Z.leb_gt _ _)) by set_solver. by rewrite Hy, Z.eqb_refl.
Qed.
End Loop.

(** ** More memory from the kernel *)

Lemma heap_ok_grow base h l al brk' m' :
  heap_ok base h l al -> h_brk h <= brk' < KERNBASE -> (forall x, x < h_brk h -> m' x = h_mem h x) ->
  heap_ok base (MkHeap m' (h_freep h) brk') l al.
Proof.
  intros [Hbase Hbrk Hfst Hfree Hsort Hlink Hfp Hal Hald Hfd] Hb Hm. split; cbn [h_mem h_freep h_brk]; try done.
  - hdrs.
  - eapply Forall_impl; [exact Hfree|]. intros c [-> |]; [by left|right; hdrs].
  - rewrite Forall_forall in Hfree. eapply lseg_ext; [|exact Hlink]. intros b x Hb' Hx. apply Hm.
    destruct (Hfree b Hb') as [-> |]; hdrs.
  - intros a n Ha. destruct (Hal a n Ha) as [Har Hs]. split; [hdrs|]. rewrite <- Hs.
    apply load32_ext. intros x Hx. apply Hm. hdrs.
Qed.

(** A successful [sbrk] of a positive amount. *)
Lemma sbrk_grow grant n h : 0 < h_brk h < KERNBASE -> 0 < n < 2 ^ 31 ->
  sbrk grant n h = (u32 (-1), h) \/
  (h_brk h + n < KERNBASE /\ sbrk grant n h = (h_brk h, MkHeap (h_mem h) (h_freep h) (h_brk h + n))).
Proof.
  intros Hb Hn. unfold sbrk. rewrite (proj2 (Z.ltb_lt 0 n)), u32_small by hdrs.
  destruct (Z.leb_spec KERNBASE (h_brk h + n)); [by left|].
  rewrite (proj2 (Z.ltb_ge (h_brk h + n) (h_brk h))) by lia.
  destruct (grant _); [|by left]. rewrite (proj2 (Z.eqb_neq (h_brk h + n) 0)) by lia. by right.
Qed.

Lemma morecore_spec base grant h l al nu fuel :
  heap_ok base h l al -> 1 <= nu -> nu * HDR < 2 ^ 31 -> (length l <= fuel)%nat ->
  morecore grant fuel nu h = Some (0, h) \/
  exists h' l', morecore grant fuel nu h = Some (h_freep h', h') /\ heap_ok base h' l' al /\
    h_brk h < h_brk h' /\ (forall x, covers l' x <-> covers l x \/ h_brk h <= x < h_brk h') /\
    untouched base l (h_brk h) (h_brk h') (h_mem h) (h_mem h') /\ (length l' <= S (length l))%nat /\
    exists c, c ∈ l' /\ nu <= c.2.
Proof.
  intros Hok Hnu Hmax Hfuel. unfold morecore.
  pose proof (ok_base _ _ _ _ Hok) as Hbase. pose proof (ok_brk _ _ _ _ Hok) as Hbrk.
  set (k := if nu <? 4096 then 4096 else nu).
  assert (Hk : nu <= k /\ 0 < k * HDR < 2 ^ 31) by (subst k; destruct (Z.ltb_spec nu 4096); hdrs).
  rewrite (i32_small (k * HDR)) by lia.
  destruct (sbrk_grow grant (k * HDR) h) as [-> |[Hnew ->]]; [hdrs|hdrs|by left|right].
  rewrite (proj2 (Z.eqb_neq (h_brk h) (u32 (-1)))) by (change (u32 (-1)) with (2 ^ 32 - 1); hdrs).
  set (h1 := set_hsize (h_brk h) k _).
  assert (Hok1 : heap_ok base h1 l al).
  { apply (heap_ok_grow base h l al (h_brk h + k * HDR)); [done|hdrs|]. intros x Hx. apply store32_other. lia. }
  assert (Hlo : loose base h1 l al (h_brk h, k)).
  { pose proof (ok_free _ _ _ _ Hok) as Hf. rewrite Forall_forall in Hf.
    assert (h_brk h1 = h_brk h + k * HDR) as Hb1 by done. unfold loose. rewrite Hb1. split_and!; [hdrs| | |].
    - subst h1. cbn [fst snd]. rewrite hsize_set_hsize. apply u32_small. hdrs.
    - intros c Hc. left. destruct (Hf c Hc) as [-> |]; hdrs.
    - intros a n Ha. destruct (ok_al _ _ _ _ Hok a n Ha) as [Har _]. left. hdrs. }
  destruct (free_block_spec _ _ _ _ _ _ Hok1 Hlo Hfuel) as (h' & l' & Hrun & Hok' & Hbrk' & Hcov & Hu & Hlen & c & Hc & Hcn).
  exists h', l'. rewrite padd_small by hdrs. rewrite Z.mul_1_r. cbn [fst] in Hrun. rewrite Hrun.
  assert (Hb' : h_brk h' = h_brk h + k * HDR) by (rewrite Hbrk'; done).
  assert (He : bend (h_brk h, k) = h_brk h') by (rewrite Hb'; hdrs). rewrite He in Hcov, Hu. cbn [fst snd] in *.
  split_and!; [done|done|hdrs|done| |done|exists c; split; [done|lia]].
  intros x H1 H2 H3. rewrite (Hu x H1 H2 H3). apply store32_other. hdrs.
Qed.

(** ** What [malloc] and [free] promise *)

(** The allocator between two calls: set up, or not called yet. *)
Definition heap_rep (base : Z) (h : heap) (l : list blk) (al : gmap Z Z) : Prop :=
  heap_ok base h l al \/ (heap_fresh base h /\ l = [(base, 0)] /\ al = ∅).

(** The bytes of the allocated blocks are left alone. *)
Definition blocks_kept (al : gmap Z Z) (h h' : heap) : Prop :=
  forall a n x, al !! a = Some n -> a <= x < a + HDR * n -> h_mem h' x = h_mem h x.

Lemma untouched_kept base h h' l al lo hi :
  heap_ok base h l al -> (forall a n, al !! a = Some n -> hi <= a \/ a + HDR * n <= lo) ->
  untouched base l lo hi (h_mem h) (h_mem h') -> blocks_kept al h h'.
Proof.
  intros Hok Hlo Hu a n x Ha Hx. destruct (ok_al _ _ _ _ Hok a n Ha) as [Har _].
  eapply (load32_outside _ _ _ _ _ _ a n Hu); [apply Hok|hdrs|hdrs| |by apply Hlo|done].
  intros c Hc. by eapply (ok_free_disj _ _ _ _ Hok).
Qed.

Lemma blocks_kept_trans al h1 h2 h3 : blocks_kept al h1 h2 -> blocks_kept al h2 h3 -> blocks_kept al h1 h3.
Proof. intros H1 H2 a n x Ha Hx. by rewrite (H2 a n x Ha Hx), (H1 a n x Ha Hx). Qed.

Lemma malloc_init_spec base h l al :
  heap_rep base h l al -> heap_ok base (malloc_init base h) l al /\
    h_brk (malloc_init base h) = h_brk h /\ blocks_kept al h (malloc_init base h).
Proof.
  intros [Hok|((Hf & Hbase & Hbrk) & -> & ->)]; unfold malloc_init.
  - assert (h_freep h <> 0).
    { pose proof (ok_freep _ _ _ _ Hok) as (y & -> & Hy)%list_elem_of_fmap. pose proof (ok_positive _ _ _ _ Hok y Hy). lia. }
    rewrite (proj2 (Z.eqb_neq _ _)) by done. by split_and!.
  - rewrite Hf, Z.eqb_refl. split_and!; [|done|intros ??? ?%lookup_empty_Some; done].
    split; cbn [h_mem h_freep h_brk set_hsize set_freep set_hptr]; try done.
    + by repeat constructor.
    + by repeat constructor.
    + cbn [lseg first fst snd]. rewrite load32_store32_ne, !load32_store32_eq, u32_small by hdrs. done.
    + unfold addrs. set_solver.
Qed.

Lemma units_spec nbytes : 0 <= nbytes -> nbytes + 2 * HDR <= 2 ^ 31 ->
  1 <= units nbytes /\ units nbytes * HDR < 2 ^ 31 /\ nbytes <= HDR * (units nbytes - 1).
Proof. intros H1 H2. unfold units. rewrite u32_small by hdrs. unfold HDR in *. Z.div_mod_to_equations. lia. Qed.

(** What an allocation of [nu] headers at [r] does to the partition. *)
Definition allocated (base : Z) (h h' : heap) (l : list blk) (al : gmap Z Z) (r nu : Z) : Prop :=
  exists l', al !! (r - HDR) = None /\ heap_ok base h' l' (<[r - HDR := nu]> al) /\
    (forall x, covers l x \/ h_brk h <= x < h_brk h' <-> covers l' x \/ r - HDR <= x < r - HDR + HDR * nu) /\
    blocks_kept al h h' /\ h_brk h <= h_brk h'.

Lemma malloc_take base grant h l al nu fuel :
  heap_ok base h l al -> 1 <= nu -> (exists b, b ∈ l /\ nu <= b.2) -> (length l <= fuel)%nat ->
  exists r h', malloc_loop grant fuel nu (h_freep h) (hptr h (h_freep h)) h = Some (r, h') /\
    0 < r /\ h_brk h' = h_brk h /\ allocated base h h' l al r nu.
Proof.
  intros Hok Hnu Hfit Hfuel.
  destruct (malloc_fit base grant h l al Hok nu fuel Hnu Hfit Hfuel) as (a & pre & x & c & -> & Hx & Hrun).
  destruct (take_block_spec _ _ _ _ _ _ _ _ Hok (conj Hnu Hx)) as (h' & Ht & Hok' & Hnone & Har & Hbrk & Hu).
  exists ((taken x nu).1 + HDR), h'. rewrite Hrun, Ht. pose proof (ok_base _ _ _ _ Hok).
  split_and!; [done|hdrs|done|].
  exists (a ++ [pre] ++ rest_of x nu ++ c). rewrite Z.add_simpl_r. split_and!; [done|done| | |lia].
  - intros y. rewrite (take_covers _ _ _ _ _ (conj Hnu Hx) y). rewrite Hbrk.
    assert (bend (taken x nu) = (taken x nu).1 + HDR * nu) as -> by done. split; [intros [?|?]; [done|lia]|by left].
  - eapply untouched_kept; [done| |exact Hu]. intros b n Hb. left.
    destruct (ok_al _ _ _ _ Hok b n Hb) as [? _]. hdrs.
Qed.

(** C19: [malloc] is correct for requests of up to 2^31 bytes less two headers
    (beyond, its 32-bit arithmetic goes wrong, [malloc_wraps] and
    [malloc_beyond_break]): from a heap that is partitioned into a sorted,
    coalesced free list and disjoint allocated blocks it always returns.
    Either the block at the result is new, large enough, disjoint from every
    other block and taken from the free memory or from memory the kernel just
    gave, which together with the rest of the free list accounts for every
    byte; or it returns 0 with the partition as it was, and then no free block
    was large enough.  The contents of all blocks allocated before are
    unchanged. *)
Theorem malloc_correct base grant h l al nbytes fuel :
  heap_rep base h l al -> 0 <= nbytes -> nbytes + 2 * HDR <= 2 ^ 31 -> (2 * length l + 2 <= fuel)%nat ->
  exists r h', malloc base grant fuel nbytes h = Some (r, h') /\
    ((0 < r /\ nbytes <= HDR * (units nbytes - 1) /\ allocated base h h' l al r (units nbytes)) \/
     (r = 0 /\ heap_ok base h' l al /\ blocks_kept al h h' /\ Forall (fun b => b.2 < units nbytes) l)).
Proof.
  intros Hrep H0 Hmax Hfuel. destruct (units_spec nbytes H0 Hmax) as (Hnu & Hsm & Hbig).
  destruct (malloc_init_spec _ _ _ _ Hrep) as (Hok & Hbrk0 & Hk0). unfold malloc.
  set (h0 := malloc_init base h) in *. set (nu := units nbytes) in *.
  assert (Hdec : (exists b, b ∈ l /\ nu <= b.2) \/ Forall (fun b => b.2 < nu) l).
  { destruct (first_fit nu l) as [?|(c1 & x & c2 & -> & _ & ?)]; [by right|left; exists x; split; [set_solver|done]]. }
  destruct Hdec as [Hfit|Hno].
  - destruct (malloc_take base grant h0 l al nu fuel Hok Hnu Hfit ltac:(lia)) as (r & h' & Hrun & Hr & Hbrk & l' & A1 & A2 & A3 & A4 & A5).
    exists r, h'. split; [done|]. left. split; [done|]. split; [done|]. exists l'. rewrite <- Hbrk0.
    split_and!; [done..|by eapply blocks_kept_trans|done].
  - rewrite (malloc_nofit base grant h0 l al Hok nu fuel Hno) by lia.
    destruct (morecore_spec base grant h0 l al nu (fuel - length l) Hok Hnu Hsm ltac:(lia))
      as [-> |(h1 & l1 & -> & Hok1 & Hb1 & Hcov & Hu & Hlen & Hfit)].
    { exists 0, h0. split; [done|]. right. by split_and!. }
    cbn. assert (h_freep h1 <> 0).
    { pose proof (ok_freep _ _ _ _ Hok1) as (y & -> & Hy)%list_elem_of_fmap. pose proof (ok_positive _ _ _ _ Hok1 y Hy). lia. }
    rewrite (proj2 (Z.eqb_neq _ _)) by done.
    destruct (malloc_take base grant h1 l1 al nu (fuel - length l) Hok1 Hnu Hfit ltac:(lia))
      as (r & h' & Hrun & Hr & Hbrk & l' & A1 & A2 & A3 & A4 & A5).
    exists r, h'. split; [done|]. left. split; [done|]. split; [done|]. exists l'. rewrite <- Hbrk0, Hbrk in *.
    split_and!; [done|done| | |lia].
    + intros x. rewrite <- A3, Hcov. split; [by left|intros [?|?]; [done|lia]].
    + eapply blocks_kept_trans; [exact Hk0|]. eapply blocks_kept_trans; [|exact A4].
      eapply untouched_kept; [exact Hok| |exact Hu]. intros a n Ha. right.
      destruct (ok_al _ _ _ _ Hok a n Ha) as [? _]. hdrs.
Qed.

(** C20: [free] gives back exactly the block: on a pointer to an allocated block
    it returns, the block is no longer allocated, its bytes and the bytes that
    were free are the free ones, the free list is again sorted with no two
    blocks adjacent, and the contents of the other blocks are unchanged. *)
Theorem free_correct base h l al a n fuel :
  heap_ok base h l al -> al !! a = Some n -> (length l <= fuel)%nat ->
  exists h' l', free fuel (a + HDR) h = Some h' /\ heap_ok base h' l' (delete a al) /\
    (forall x, covers l' x <-> covers l x \/ a <= x < a + HDR * n) /\
    blocks_kept (delete a al) h h' /\ h_brk h' = h_brk h.
Proof.
  intros Hok Ha Hfuel. destruct (ok_al _ _ _ _ Hok a n Ha) as [Har Hs].
  assert (Hok' : heap_ok base h l (delete a al)).
  { destruct Hok as [Hbase Hbrk Hfst Hfree Hsort Hlink Hfp Hal Hald Hfd]. split; try done.
    - intros b k [_ ?]%lookup_delete_Some. by apply Hal.
    - intros b k b' k' [_ ?]%lookup_delete_Some [_ ?]%lookup_delete_Some. by apply Hald.
    - intros c b k Hc [_ ?]%lookup_delete_Some. by apply Hfd. }
  assert (Hdis : forall b k, delete a al !! b = Some k -> disjoint (b, k) (a, n)).
  { intros b k [Hne Hb]%lookup_delete_Some. by apply (ok_al_disj _ _ _ _ Hok). }
  destruct (free_block_spec base h l (delete a al) (a, n) fuel Hok') as (h' & l' & Hrun & Hok2 & Hbrk & Hcov & Hu & _).
  { split_and!; [done|done| |done]. intros c Hc. by eapply (ok_free_disj _ _ _ _ Hok). }
  { done. }
  exists h', l'. split_and!; [done|done|done| |done].
  eapply untouched_kept; [exact Hok'| |exact Hu]. intros b k Hb. specialize (Hdis b k Hb). hdrs.
Qed.

Definition demo_fresh : heap := MkHeap (fun _ => 0) 0 4096.

Lemma malloc_correct_witness :
  exists r h', malloc 100 (fun _ => true) 4 20 demo_fresh = Some (r, h') /\ r = 36840 /\
    allocated 100 demo_fresh h' [(100, 0)] ∅ r 4.
Proof.
  destruct (malloc_correct 100 (fun _ => true) demo_fresh [(100, 0)] ∅ 20 4) as (r & h' & Hrun & Hor).
  { right. split; [|split; reflexivity]. unfold heap_fresh, HDR, KERNBASE. cbn [demo_fresh h_freep h_brk]. lia. }
  { lia. }
  { vm_compute. congruence. }
  { cbn. lia. }
  exists r, h'. assert (Hr : fst <$> malloc 100 (fun _ => true) 4 20 demo_fresh = Some 36840) by (vm_compute; reflexivity).
  rewrite Hrun in Hr. injection Hr as Hr. split; [exact Hrun|]. split; [exact Hr|].
  destruct Hor as [(_ & _ & Hal)|(Hr0 & _)]; [exact Hal|rewrite Hr in Hr0; discriminate Hr0].
Defined.

(** One allocated block of two headers at 200. *)
Definition demo_used : heap :=
  MkHeap (store32 (store32 (store32 (fun _ => 0) 100 100) 104 0) 204 2) 100 300.

Lemma demo_used_ok : heap_ok 100 demo_used [(100, 0)] {[200 := 2]}.
Proof.
  split.
  - reflexivity.
  - unfold HDR, KERNBASE. cbn [demo_used h_brk]. lia.
  - reflexivity.
  - by repeat constructor.
  - by repeat constructor.
  - repeat split; vm_compute; reflexivity.
  - unfold addrs. cbn. set_solver.
  - intros a n [<- <-]%lookup_singleton_Some. repeat constructor; vm_compute; congruence.
  - intros a n a' n' [<- <-]%lookup_singleton_Some [<- <-]%lookup_singleton_Some. done.
  - intros b a n ->%list_elem_of_singleton [<- <-]%lookup_singleton_Some. left. vm_compute. congruence.
Qed.

Lemma free_correct_witness :
  exists h' l', free 1 208 demo_used = Some h' /\ heap_ok 100 h' l' ∅ /\ covers l' 215.
Proof.
  destruct (free_correct 100 demo_used [(100, 0)] {[200 := 2]} 200 2 1 demo_used_ok) as (h' & l' & Hrun & Hok & Hcov & _).
  { reflexivity. }
  { cbn. lia. }
  exists h', l'. rewrite delete_singleton_eq in Hok. split; [exact Hrun|]. split; [exact Hok|].
  apply Hcov. right. unfold HDR. lia.
Defined.

(** [malloc] does not check its argument for wrap-around: a request for
    more than 2^32 - 8 bytes is served like a request for none, with a block
    that has no payload. *)
Theorem malloc_wraps base grant fuel nbytes h :
  2 ^ 32 - 7 <= nbytes < 2 ^ 32 -> malloc base grant fuel nbytes h = malloc base grant fuel 0 h /\ units nbytes = 1.
Proof.
  intros Hn. assert (Hu : units nbytes = 1).
  { unfold units, u32, HDR. replace (nbytes + 8 - 1) with (nbytes + 7 - 2 ^ 32 + 1 * 2 ^ 32) by lia.
    rewrite Z.mod_add, Z.mod_small, Z.div_small by lia. done. }
  split; [|done]. unfold malloc. by rewrite Hu.
Qed.

Lemma malloc_wraps_witness :
  malloc 100 (fun _ => true) 4 (2 ^ 32 - 1) demo_fresh = malloc 100 (fun _ => true) 4 0 demo_fresh.
Proof. apply malloc_wraps. lia. Defined.

(** A request whose size in bytes is negative as an [int] leaves the break alone. *)
Lemma sbrk_huge grant n h :
  0 < h_brk h -> 2 ^ 31 <= n -> h_brk h + n < 2 ^ 32 -> sbrk grant (i32 n) h = (h_brk h, h).
Proof.
  intros Hb Hn Hs. assert (i32 n = n - 2 ^ 32) as ->.
  { unfold i32. rewrite <- (Z.mod_unique (n + 2 ^ 31) (2 ^ 32) 1 (n + 2 ^ 31 - 2 ^ 32)) by lia. lia. }
  unfold sbrk, u32. rewrite (proj2 (Z.ltb_ge 0 _)), (proj2 (Z.ltb_lt _ 0)) by lia.
  replace (h_brk h + (n - 2 ^ 32)) with (h_brk h + n + -1 * 2 ^ 32) by lia. rewrite Z.mod_add, Z.mod_small by lia.
  rewrite (proj2 (Z.leb_le _ _)), (proj2 (Z.eqb_neq _ _)) by lia. by destruct h.
Qed.

(** [free] of a block above a list that holds [base] alone. *)
Lemma free_alone base h b nu fuel :
  h_freep h = base -> hptr h base = base -> hsize h base = 0 -> hsize h b = nu ->
  0 < base -> base + HDR <= b -> 0 <= nu -> b + HDR * nu < 2 ^ 32 -> b + HDR < 2 ^ 32 ->
  exists h', free (S fuel) (b + HDR) h = Some h' /\ h_freep h' = base /\ hptr h' base = b /\
    hptr h' b = base /\ hsize h' b = nu /\ h_brk h' = h_brk h.
Proof.
  intros Hf Hp Hs Hb Hbase Hap Hnu Hmax Hmax'. unfold free. rewrite Z.add_simpl_r, u32_small by hdrs.
  assert (Hff : free_find (S fuel) h b (h_freep h) = Some base).
  { rewrite Hf, free_find_eq. unfold stop. rewrite Hp, Z.leb_refl, (proj2 (Z.ltb_lt base b)) by hdrs. by rewrite orb_true_r. }
  rewrite Hff. cbn [mbind option_bind]. eexists. split; [reflexivity|].
  assert (Hup : free_upper b base h = set_hptr b base h).
  { unfold free_upper. rewrite Hb, Hp, padd_small by hdrs. by rewrite (proj2 (Z.eqb_neq _ _)) by hdrs. }
  assert (Hlow : free_lower b base (set_hptr b base h) = set_hptr base b (set_hptr b base h)).
  { unfold free_lower. rewrite hsize_set_hptr, Hs, padd_small by hdrs. by rewrite (proj2 (Z.eqb_neq _ _)) by hdrs. }
  rewrite Hup, Hlow. set (h1 := set_hptr b base h).
  change (hptr (set_freep ?p ?k) ?q) with (hptr k q). change (hsize (set_freep ?p ?k) ?q) with (hsize k q).
  split_and!; [done| | | |done].
  - rewrite hptr_set_hptr. apply u32_small. hdrs.
  - rewrite hptr_set_hptr_ne by hdrs. subst h1. rewrite hptr_set_hptr. apply u32_small. hdrs.
  - subst h1. rewrite !hsize_set_hptr by hdrs. done.
Qed.

(** [malloc] can return memory that does not exist: a first request of
    2^31 bytes or more, up to what fits above the break, is passed to [sbrk]
    as a negative number, which the kernel takes for a shrink past the break
    and answers with success; [malloc] returns a block that starts at the break,
    although the break has not moved. *)
Theorem malloc_beyond_break base grant h nbytes fuel :
  heap_fresh base h -> 2 ^ 31 <= HDR * units nbytes -> h_brk h + HDR * units nbytes < 2 ^ 32 ->
  exists h', malloc base grant (S (S (S fuel))) nbytes h = Some (h_brk h + HDR, h') /\ h_brk h' = h_brk h.
Proof.
  intros (Hf & Hbase & Hbrk) Hlo Hhi. unfold malloc, malloc_init. rewrite Hf, Z.eqb_refl. set (nu := units nbytes) in *.
  set (h0 := set_hsize base 0 _).
  assert (Hp : hptr h0 base = base).
  { subst h0. rewrite hptr_set_hsize by by left. change (hptr (set_freep ?p ?k) ?q) with (hptr k q).
    rewrite hptr_set_hptr. apply u32_small. hdrs. }
  assert (Hs : hsize h0 base = 0) by (subst h0; by rewrite hsize_set_hsize).
  change (h_freep h0) with base. rewrite Hp. cbn [malloc_loop]. rewrite Hs, (proj2 (Z.leb_gt nu 0)) by hdrs.
  change (h_freep h0) with base. rewrite Z.eqb_refl. unfold morecore.
  rewrite (proj2 (Z.ltb_ge nu 4096)), sbrk_huge by (change (h_brk h0) with (h_brk h); hdrs).
  change (h_brk h0) with (h_brk h). rewrite (proj2 (Z.eqb_neq (h_brk h) _)) by (change (u32 (-1)) with (2 ^ 32 - 1); hdrs).
  rewrite padd_small, Z.mul_1_r by hdrs.
  assert (Hap : base = h_brk h \/ apart base (h_brk h)) by (right; left; hdrs).
  destruct (free_alone base (set_hsize (h_brk h) nu h0) (h_brk h) nu (S fuel)) as (h1 & -> & F1 & F2 & F3 & F4 & F5);
    [done|by rewrite hptr_set_hsize|rewrite hsize_set_hsize_ne by (destruct Hap; hdrs); done
    |rewrite hsize_set_hsize; apply u32_small; hdrs|done|hdrs|hdrs|hdrs|hdrs|].
  cbn [mbind option_bind]. rewrite F1, (proj2 (Z.eqb_neq base 0)), F2 by lia.
  rewrite F4, (proj2 (Z.leb_le nu nu)) by lia. unfold take_block. rewrite F4, Z.eqb_refl, padd_small, Z.mul_1_r by hdrs.
  eexists. split; [reflexivity|]. exact F5.
Qed.

Lemma malloc_beyond_break_witness :
  exists h', malloc 100 (fun _ => true) 3 (2 ^ 31) demo_fresh = Some (4104, h') /\ h_brk h' = 4096.
Proof.
  apply (malloc_beyond_break 100 (fun _ => true) demo_fresh (2 ^ 31) 0); [|vm_compute; congruence|vm_compute; congruence].
  unfold heap_fresh, HDR, KERNBASE. cbn [demo_fresh h_freep h_brk]. lia.
Defined.
