(* ===== verification/Usbrk.v ===== *)
(** * The break of a process (umalloc.c and proc.c)

    The allocator of the user library sees the kernel through [sbrk], which
    moves the end of the memory of the process.  Here that view (Umalloc) is
    shown to be what [growproc] does to the size of the process, whatever pages
    the kernel has: the allocator's theorems, which hold for every answer to
    the question whether memory is granted, hold on this kernel. *)

From stdpp Require Import base numbers list option strings.
From S2P Require Import Prelude Kernel Fields Mmu Spinlock Proc Cprintf Cstring Kalloc Vm Life Umalloc.

(** ** Computations that keep the process table *)

Definition keeps {A} (c : K A) : Prop := forall s a s', c s = Ret a s' -> k_proc s' = k_proc s.

Create HintDb keeps.

Lemma keeps_ret {A} (a : A) : keeps (ret a).
Proof. intros s x s' [= _ <-]. done. Qed.
Lemma keeps_panic {A} msg : keeps (panic (A := A) msg).
Proof. done. Qed.
Lemma keeps_fuel {A} : keeps (out_of_fuel (A := A)).
Proof. done. Qed.
Lemma keeps_gets {A} (f : kernel -> A) : keeps (gets f).
Proof. intros s x s' [= _ <-]. done. Qed.
Lemma keeps_modify f : (forall s, k_proc (f s) = k_proc s) -> keeps (modify f).
Proof. intros Hf s x s' Hs. injection Hs as _ <-. apply Hf. Qed.
Lemma bind_inv {A B} (c : K A) (k : A -> K B) s b s' :
  bind c k s = Ret b s' -> exists a s1, c s = Ret a s1 /\ k a s1 = Ret b s'.
Proof. unfold bind. destruct (c s) as [a s1| | |]; try done. eauto. Qed.
Lemma keeps_bind {A B} (c : K A) (k : A -> K B) : keeps c -> (forall a, keeps (k a)) -> keeps (bind c k).
Proof. intros Hc Hk s b s' (a & s1 & H1 & H2)%bind_inv. rewrite (Hk a s1 b s' H2). by apply (Hc s a). Qed.
Lemma keeps_if {A} (b : bool) (c d : K A) : keeps c -> keeps d -> keeps (if b then c else d).
Proof. by destruct b. Qed.
Lemma keeps_when b (c : K unit) : keeps c -> keeps (when b c).
Proof. intros Hc. unfold when. destruct b; [done|apply keeps_ret]. Qed.
Lemma keeps_foreach {I} (l : list I) f : (forall i, keeps (f i)) -> keeps (foreach l f).
Proof. intros Hf. induction l as [|i l IH]; [apply keeps_ret|]. by apply keeps_bind. Qed.

#[local] Hint Resolve keeps_ret keeps_panic keeps_fuel keeps_gets keeps_if keeps_when keeps_foreach keeps_bind : keeps.
#[local] Hint Extern 2 (keeps (modify _)) => (apply keeps_modify; intros; repeat case_match; done) : keeps.

Lemma keeps_acquire lk : keeps (acquire lk).
Proof. unfold acquire, holding. auto 20 with keeps. Qed.
Lemma keeps_release lk : keeps (release lk).
Proof. unfold release, holding. auto 20 with keeps. Qed.
#[local] Hint Resolve keeps_acquire keeps_release : keeps.

Lemma keeps_cprintf fmt args : keeps (cprintf fmt args).
Proof. unfold cprintf, consputc, uartputc, cgaputc. auto 40 with keeps. Qed.
#[local] Hint Resolve keeps_cprintf : keeps.

Section memory.
Context `{Link}.

Lemma keeps_kfree v : keeps (kfree v).
Proof. unfold kfree, get_mem, set_mem. auto 40 with keeps. Qed.
Lemma keeps_kalloc : keeps kalloc.
Proof. unfold kalloc, get_mem. auto 40 with keeps. Qed.
#[local] Hint Resolve keeps_kfree keeps_kalloc : keeps.

Lemma keeps_walkpgdir d va alloc : keeps (walkpgdir d va alloc).
Proof. unfold walkpgdir, get_mem, set_mem. cbv zeta. auto 40 with keeps. Qed.
#[local] Hint Resolve keeps_walkpgdir : keeps.

Lemma keeps_mappages d va size pa perm : keeps (mappages d va size pa perm).
Proof.
  unfold mappages. cbv zeta. generalize (S (Z.to_nat (u32 (PGROUNDDOWN (u32 (va + size - 1)) - PGROUNDDOWN va) / PGSIZE))).
  intros fuel. generalize (PGROUNDDOWN va). revert pa. induction fuel as [|fuel IH]; intros pa a; cbn [mappages_loop];
    unfold get_mem, set_mem; auto 40 with keeps.
Qed.

Lemma keeps_deallocuvm d old new : keeps (deallocuvm d old new).
Proof.
  unfold deallocuvm. apply keeps_if; [apply keeps_ret|]. apply keeps_bind; [|intros; apply keeps_ret].
  generalize (S (Z.to_nat (old / PGSIZE + 1))). intros fuel. generalize (PGROUNDUP new).
  induction fuel as [|fuel IH]; intros a; cbn [deallocuvm_loop]; unfold get_mem, set_mem; cbv zeta; auto 60 with keeps.
Qed.
#[local] Hint Resolve keeps_mappages keeps_deallocuvm : keeps.

Lemma keeps_allocuvm_loop fuel d a old new : keeps (allocuvm_loop fuel d a old new).
Proof.
  revert a. induction fuel as [|fuel IH]; intros a; cbn [allocuvm_loop]; unfold get_mem, set_mem; auto 60 with keeps.
Qed.

(** What [allocuvm] and [deallocuvm] return. *)
Lemma allocuvm_loop_result fuel d a old new s r s' :
  allocuvm_loop fuel d a old new s = Ret r s' -> r = new \/ r = 0.
Proof.
  revert s a. induction fuel as [|fuel IH]; intros s a Hr; [done|]. cbn [allocuvm_loop] in Hr.
  destruct (negb (a <? new)); [injection Hr as <- _; by left|].
  apply bind_inv in Hr as (mem & s1 & _ & Hr). destruct (mem =? 0).
  { apply bind_inv in Hr as (? & s2 & _ & Hr). apply bind_inv in Hr as (? & s3 & _ & Hr). injection Hr as <- _. by right. }
  apply bind_inv in Hr as (m & s2 & _ & Hr). apply bind_inv in Hr as (? & s3 & _ & Hr).
  apply bind_inv in Hr as (q & s4 & _ & Hr). destruct (q <? 0); [|by apply (IH _ _ Hr)].
  apply bind_inv in Hr as (? & s5 & _ & Hr). apply bind_inv in Hr as (? & s6 & _ & Hr).
  apply bind_inv in Hr as (? & s7 & _ & Hr). injection Hr as <- _. by right.
Qed.

Lemma allocuvm_result d old new s r s' :
  allocuvm d old new s = Ret r s' ->
  k_proc s' = k_proc s /\
  if KERNBASE <=? new then r = 0 else if new <? old then r = old else r = new \/ r = 0.
Proof.
  unfold allocuvm. intros Hr. destruct (KERNBASE <=? new); [by injection Hr as <- <-|].
  destruct (new <? old); [by injection Hr as <- <-|].
  split; [by eapply keeps_allocuvm_loop|by eapply allocuvm_loop_result].
Qed.

Lemma deallocuvm_result d old new s r s' :
  deallocuvm d old new s = Ret r s' -> k_proc s' = k_proc s /\ r = if old <=? new then old else new.
Proof.
  intros Hr. split; [by eapply keeps_deallocuvm|]. unfold deallocuvm in Hr. destruct (old <=? new); [by injection Hr as <- _|].
  apply bind_inv in Hr as (? & s1 & _ & Hr). by injection Hr as <- _.
Qed.

(** The end of [growproc]: the size is stored when there is one. *)
Lemma growproc_inv i p n s r s' :
  k_cur s = Some i -> k_proc s !! i = Some p -> growproc n s = Ret r s' ->
  exists s1 sz', k_proc s1 = k_proc s /\
    (if 0 <? n then allocuvm (p_pgdir p) (p_sz p) (u32 (p_sz p + n)) s = Ret sz' s1
     else if n <? 0 then deallocuvm (p_pgdir p) (p_sz p) (u32 (p_sz p + n)) s = Ret sz' s1
     else sz' = p_sz p /\ s1 = s) /\
    if negb (n =? 0) && (sz' =? 0) then r = -1 /\ s' = s1
    else r = 0 /\ k_proc s' = alter (set_p_sz sz') i (k_proc s).
Proof.
  intros Hc Hi Hr. unfold growproc in Hr. apply bind_inv in Hr as (j & s0 & Hj & Hr).
  assert (j = i /\ s0 = s) as [-> ->].
  { unfold curproc in Hj. apply bind_inv in Hj as (o & s1 & Ho & Hj). injection Ho as <- <-. rewrite Hc in Hj.
    by injection Hj as <- <-. }
  apply bind_inv in Hr as (q & s0 & Hq & Hr). injection Hq as <- <-. rewrite (list_lookup_total_correct _ _ _ Hi) in Hr.
  apply bind_inv in Hr as (o & s1 & Ho & Hr).
  assert (exists sz', (if 0 <? n then allocuvm (p_pgdir p) (p_sz p) (u32 (p_sz p + n)) s = Ret sz' s1
     else if n <? 0 then deallocuvm (p_pgdir p) (p_sz p) (u32 (p_sz p + n)) s = Ret sz' s1
     else sz' = p_sz p /\ s1 = s) /\ o = if negb (n =? 0) && (sz' =? 0) then None else Some sz') as (sz' & Hsz & ->).
  { destruct (Z.ltb_spec 0 n).
    - apply bind_inv in Ho as (sz' & s2 & Ha & Ho). injection Ho as <- <-. exists sz'. rewrite (proj2 (Z.eqb_neq n 0)) by lia. done.
    - destruct (Z.ltb_spec n 0).
      + apply bind_inv in Ho as (sz' & s2 & Ha & Ho). injection Ho as <- <-. exists sz'. rewrite (proj2 (Z.eqb_neq n 0)) by lia. done.
      + injection Ho as <- <-. exists (p_sz p). rewrite (proj2 (Z.eqb_eq n 0)) by lia. done. }
  assert (k_proc s1 = k_proc s) as Ep.
  { destruct (0 <? n); [by eapply allocuvm_result|]. destruct (n <? 0); [by eapply deallocuvm_result|]. by destruct Hsz as [_ ->]. }
  exists s1, sz'. split_and!; [done|done|]. destruct (negb (n =? 0) && (sz' =? 0)); [by injection Hr as <- <-|].
  apply bind_inv in Hr as (? & s2 & H2 & Hr). injection H2 as _ <-. apply bind_inv in Hr as (? & s3 & H3 & Hr).
  injection Hr as <- <-. split; [done|]. unfold switchuvm in H3. apply bind_inv in H3 as (q & s4 & Hq & H3).
  injection Hq as _ <-. destruct (p_kstack q =? 0); [done|]. destruct (p_pgdir q =? 0); [done|].
  injection H3 as _ <-. cbn. by rewrite Ep.
Qed.

(** C21: The allocator's [sbrk] is the kernel's: when [growproc] returns for the
    current process, [sbrk] on a heap with the same break returns the old break
    or -1 as the system call does, and moves the break to the new size of the
    process, for one of the answers to the question whether memory was granted. *)
Theorem sbrk_is_growproc i p n s r s' h :
  k_cur s = Some i -> k_proc s !! i = Some p -> p_sz p = h_brk h -> growproc n s = Ret r s' ->
  exists grant, let '(a, h') := sbrk grant n h in
    a = (if r <? 0 then u32 (-1) else p_sz p) /\ p_sz (k_proc s' !!! i) = h_brk h' /\
    h_mem h' = h_mem h /\ h_freep h' = h_freep h.
Proof.
  intros Hc Hi Hb Hr. destruct (growproc_inv i p n s r s' Hc Hi Hr) as (s1 & sz' & Ep & Hsz & Hend).
  set (new := u32 (p_sz p + n)) in *. exists (fun _ => negb (sz' =? 0)). unfold sbrk. rewrite <- Hb. fold new.
  assert (forall sz, k_proc s' = alter (set_p_sz sz) i (k_proc s) -> p_sz (k_proc s' !!! i) = sz) as Hnew.
  { intros sz ->. rewrite (alter_is_insert _ _ _ _ Hi), list_lookup_total_insert_eq; [done|by eapply lookup_lt_Some]. }
  assert (k_proc s' = k_proc s -> p_sz (k_proc s' !!! i) = p_sz p) as Hold.
  { intros ->. by rewrite (list_lookup_total_correct _ _ _ Hi). }
  destruct (Z.ltb_spec 0 n); [|destruct (Z.ltb_spec n 0)].
  - rewrite (proj2 (Z.eqb_neq n 0)) in Hend by lia. cbn [negb andb] in Hend. apply allocuvm_result in Hsz as [_ Hsz].
    destruct (KERNBASE <=? new); [|destruct (new <? p_sz p); [|destruct Hsz as [Hsz|Hsz]]]; rewrite Hsz in *; cbn [Z.eqb].
    + destruct Hend as [-> ->]. split_and!; try done. rewrite <- Hb. by apply Hold.
    + destruct (p_sz p =? 0); destruct Hend as [-> Hend]; split_and!; try done; [subst; rewrite <- Hb; by apply Hold|by apply Hnew].
    + destruct (Z.eqb_spec new 0) as [E0|E0]; destruct Hend as [-> Hend]; cbn [negb]; rewrite ?E0; cbn [Z.eqb]; split_and!; try done.
      * subst. rewrite <- Hb. by apply Hold.
      * by apply Hnew.
    + destruct Hend as [-> ->]. split_and!; try done. rewrite <- Hb. by apply Hold.
  - rewrite (proj2 (Z.eqb_neq n 0)) in Hend by lia. cbn [negb andb] in Hend. apply deallocuvm_result in Hsz as [_ ->].
    destruct (p_sz p <=? new).
    + destruct (p_sz p =? 0); destruct Hend as [-> Hend]; split_and!; try done; [subst; rewrite <- Hb; by apply Hold|by apply Hnew].
    + destruct (new =? 0); destruct Hend as [-> Hend]; split_and!; try done; [subst; rewrite <- Hb; by apply Hold|by apply Hnew].
  - destruct Hsz as [-> ->]. rewrite (proj2 (Z.eqb_eq n 0)) in Hend by lia. cbn [negb andb] in Hend. destruct Hend as [-> Hend].
    split_and!; try done. by apply Hnew.
Qed.
End memory.

(** ** The theorem on a small machine *)

#[local] Existing Instance demo_link.

Definition demo_running : kernel := set_k_proc [set_p_kstack 0x80500000 demo_parent] demo_family.

(** One byte less. *)
Lemma sbrk_is_growproc_witness :
  exists grant s', growproc (-1) demo_running = Ret 0 s' /\
    (sbrk grant (-1) (MkHeap (fun _ => 0) 0 4096)).1 = 4096 /\
    h_brk (sbrk grant (-1) (MkHeap (fun _ => 0) 0 4096)).2 = p_sz (k_proc s' !!! 0%nat).
Proof.
  destruct (growproc (-1) demo_running) as [r s'| | |] eqn:E; [|vm_compute in E; discriminate E..].
  destruct (sbrk_is_growproc 0 (set_p_kstack 0x80500000 demo_parent) (-1) demo_running r s' (MkHeap (fun _ => 0) 0 4096)) as [grant Hg];
    [reflexivity|reflexivity|reflexivity|exact E|].
  assert (r = 0) as -> by (apply (f_equal (fun x => match x with Ret v _ => v | _ => 7 end)) in E; vm_compute in E; by subst).
  exists grant, s'. destruct (sbrk grant (-1) _) as [a h']. cbn [fst snd] in *. destruct Hg as (H1 & H2 & _). by split_and!.
Defined.
