(* ===== verification/Sh.v ===== *)
(** * The shell's command parser (sh.c: gettoken, peek, parsecmd, parseline,
      parsepipe, parseredirs, parseblock, parseexec, nulterminate)

    The line is a list of characters.  A pointer into it is the rest of the
    line from there on; a pointer kept in a command is its offset.  A parser
    returns a value and the rest of the line, or the message of the panic.
    The parsers call one another without bound, so they carry fuel. *)

From Stdlib Require Import Ascii String.
From stdpp Require Import base numbers list option strings sets.
From S2P Require Import Prelude Kernel Cprintf Cstring Ulib Grep.

(** ** Commands *)

(** [q] and [eq] of a word: the offsets of its first character and of the
    character after it. *)
Abbreviation span := (nat * nat)%type.

Inductive cmd :=
  | EXEC (argv : list span)
  | REDIR (c : cmd) (file : span) (mode fd : Z)
  | PIPE (left right : cmd)
  | LIST (left right : cmd)
  | BACK (c : cmd).

Definition MAXARGS : nat := 10.
Definition O_RDONLY : Z := 0x000.
Definition O_WRONLY : Z := 0x001.
Definition O_CREATE : Z := 0x200.

(** The result of a parser: a value, what it prints and the message of the
    panic, or fuel run out. *)
Inductive presult (A : Type) :=
  | POk (a : A)
  | PErr (out : list Z) (msg : string)
  | PFuel.
Arguments POk {A} a.
Arguments PErr {A} out msg.
Arguments PFuel {A}.

(** [panic] with nothing printed before. *)
Abbreviation PPanic := (PErr []).

Definition pbind {A B} (r : presult A) (k : A -> presult B) : presult B :=
  match r with POk a => k a | PErr out m => PErr out m | PFuel => PFuel end.

Declare Scope parse_scope.
Notation "'get' x '<~' r ';;' k" := (pbind r (fun x => k))
  (at level 100, x pattern, r at next level, k at level 100, right associativity) : parse_scope.
Open Scope parse_scope.

(** ** Characters *)

Definition whitespace : list Z := [32; 9; 13; 10; 11].
Definition symbols : list Z := chars "<|>&;()".

Definition LT : Z := 60.
Definition GT : Z := 62.
Definition BAR : Z := 124.
Definition AMP : Z := 38.
Definition SEMI : Z := 59.
Definition LPAR : Z := 40.
Definition RPAR : Z := 41.

(** [strchr] as a test. *)
Definition chr_in (s : list Z) (c : Z) : bool := match strchr s c with Some _ => true | None => false end.

(** ** Tokens *)

(** [while(s < es && strchr(whitespace, *s)) s++] *)
Fixpoint skip_ws (s : list Z) : list Z :=
  match s with
  | c :: s' => if chr_in whitespace c then skip_ws s' else s
  | [] => []
  end.

(** The loop over the characters of a word. *)
Fixpoint skip_word (s : list Z) : list Z :=
  match s with
  | c :: s' => if negb (chr_in whitespace c) && negb (chr_in symbols c) then skip_word s' else s
  | [] => []
  end.

(** The token [gettoken] returns. *)
Inductive token :=
  | TEnd
  | TSym (c : Z)
  | TAppend
  | TWord.

(** [gettoken]: the token, the rests [q] and [eq] and the new [*ps]. *)
Definition gettoken (ps : list Z) : token * list Z * list Z * list Z :=
  let s := skip_ws ps in
  let q := s in
  let '(ret, s) :=
    match s with
    | [] => (TEnd, s)
    | c :: s1 =>
        if c =? 0 then (TEnd, s)
        else if chr_in [BAR; LPAR; RPAR; SEMI; AMP; LT] c then (TSym c, s1)
        else if c =? GT then
          match s1 with
          | d :: s2 => if d =? GT then (TAppend, s2) else (TSym c, s1)
          | [] => (TSym c, s1)
          end
        else (TWord, skip_word s)
    end in
  (ret, q, s, skip_ws s).

(** [peek]: whether the next character is one of [toks], and the new [*ps]. *)
Definition peek (ps : list Z) (toks : list Z) : bool * list Z :=
  let s := skip_ws ps in
  (match s with c :: _ => if c =? 0 then false else chr_in toks c | [] => false end, s).

(** ** The parsers *)

Section Parse.
Context (es : nat).

(** The offset of a rest of a line of [es] characters. *)
Definition off (s : list Z) : nat := es - length s.

(** The redirections of [parseredirs], first to last. *)
Inductive redir := Redir (file : span) (mode fd : Z).

(** [cmd] with redirections around it, the last one outermost. *)
Definition redircmd (c : cmd) (rs : list redir) : cmd :=
  fold_left (fun c '(Redir f m d) => REDIR c f m d) rs c.

Fixpoint parseredirs (fuel : nat) (ps : list Z) : presult (list redir * list Z) :=
  match fuel with
  | O => PFuel
  | S fuel' =>
      let '(more, ps) := peek ps [LT; GT] in
      if negb more then POk ([], ps) else
      let '(tok, _, _, ps) := gettoken ps in
      let '(tok2, q, eq, ps) := gettoken ps in
      match tok2 with
      | TWord =>
          let '(mode, fd) := match tok with
            | TSym c => if c =? LT then (O_RDONLY, 0) else (Z.lor O_WRONLY O_CREATE, 1)
            | _ => (Z.lor O_WRONLY O_CREATE, 1)
            end in
          get (rs, ps) <~ parseredirs fuel' ps ;;
          POk (Redir (off q, off eq) mode fd :: rs, ps)
      | _ => PPanic "missing file for redirection"
      end
  end.

(** The argument loop of [parseexec]: the arguments read so far are [argc]. *)
Fixpoint parseargs (fuel : nat) (argc : nat) (ps : list Z) : presult (list span * list redir * list Z) :=
  match fuel with
  | O => PFuel
  | S fuel' =>
      let '(stop, ps) := peek ps [BAR; RPAR; AMP; SEMI] in
      if stop then POk ([], [], ps) else
      let '(tok, q, eq, ps) := gettoken ps in
      match tok with
      | TEnd => POk ([], [], ps)
      | TWord =>
          if (MAXARGS <=? S argc)%nat then PPanic "too many args" else
          get (rs, ps) <~ parseredirs fuel' ps ;;
          get (args, rs', ps) <~ parseargs fuel' (S argc) ps ;;
          POk ((off q, off eq) :: args, rs ++ rs', ps)
      | _ => PPanic "syntax"
      end
  end.

(** [cmd = backcmd(cmd)] for each ampersand. *)
Fixpoint parseback (fuel : nat) (c : cmd) (ps : list Z) : presult (cmd * list Z) :=
  match fuel with
  | O => PFuel
  | S fuel' =>
      let '(amp, ps) := peek ps [AMP] in
      if amp then let '(_, _, _, ps) := gettoken ps in parseback fuel' (BACK c) ps
      else POk (c, ps)
  end.

(** [parseblock], given [parseline]. *)
Definition parseblock (parseline : list Z -> presult (cmd * list Z)) (fuel : nat) (ps : list Z) : presult (cmd * list Z) :=
  let '(opened, ps) := peek ps [LPAR] in
  if negb opened then PPanic "parseblock" else
  let '(_, _, _, ps) := gettoken ps in
  get (c, ps) <~ parseline ps ;;
  let '(closed, ps) := peek ps [RPAR] in
  if negb closed then PPanic "syntax - missing )" else
  let '(_, _, _, ps) := gettoken ps in
  get (rs, ps) <~ parseredirs fuel ps ;;
  POk (redircmd c rs, ps).

(** [parseexec]: the arguments end up in the command inside the redirections. *)
Definition parseexec (parseline : list Z -> presult (cmd * list Z)) (fuel : nat) (ps : list Z) : presult (cmd * list Z) :=
  let '(block, ps) := peek ps [LPAR] in
  if block then parseblock parseline fuel ps else
  get (rs, ps) <~ parseredirs fuel ps ;;
  get (args, rs', ps) <~ parseargs fuel 0 ps ;;
  POk (redircmd (EXEC args) (rs ++ rs'), ps).

Fixpoint parsepipe (parseline : list Z -> presult (cmd * list Z)) (fuel : nat) (ps : list Z) : presult (cmd * list Z) :=
  match fuel with
  | O => PFuel
  | S fuel' =>
      get (c, ps) <~ parseexec parseline fuel' ps ;;
      let '(bar, ps) := peek ps [BAR] in
      if bar then
        let '(_, _, _, ps) := gettoken ps in
        get (r, ps) <~ parsepipe parseline fuel' ps ;;
        POk (PIPE c r, ps)
      else POk (c, ps)
  end.

Fixpoint parseline (fuel : nat) (ps : list Z) : presult (cmd * list Z) :=
  match fuel with
  | O => PFuel
  | S fuel' =>
      get (c, ps) <~ parsepipe (parseline fuel') fuel' ps ;;
      get (c, ps) <~ parseback fuel' c ps ;;
      let '(semi, ps) := peek ps [SEMI] in
      if semi then
        let '(_, _, _, ps) := gettoken ps in
        get (r, ps) <~ parseline fuel' ps ;;
        POk (LIST c r, ps)
      else POk (c, ps)
  end.
End Parse.

(** The loop over the arguments of a command. *)
Definition nul_words (argv : list span) (buf : list Z) : list Z :=
  fold_left (fun buf (w : span) => <[w.2 := 0]> buf) argv buf.

(** [nulterminate]: the line is an array with its terminator. *)
Fixpoint nulterminate (c : cmd) (buf : list Z) : list Z :=
  match c with
  | EXEC argv => nul_words argv buf
  | REDIR c' file _ _ => <[file.2 := 0]> (nulterminate c' buf)
  | PIPE l r => nulterminate r (nulterminate l buf)
  | LIST l r => nulterminate r (nulterminate l buf)
  | BACK c' => nulterminate c' buf
  end.

(** [parsecmd]: the command and the line its offsets refer to. *)
Definition parsecmd (fuel : nat) (s : list Z) : presult (cmd * list Z) :=
  let es := length s in
  get (c, ps) <~ parseline es fuel s ;;
  let '(_, ps) := peek ps [] in
  match ps with
  | [] => POk (c, nulterminate c (s ++ [0]))
  | _ => PErr (printf "leftovers: %s" [FStr ps] ++ [10]) "syntax"
  end.

(** ** The grammar *)

(** A token of the line; a word with its span. *)
Inductive ltok :=
  | LSym (c : Z)
  | LApp
  | LWord (w : span).

Inductive g_redirs : list ltok -> list redir -> Prop :=
  | g_redirs_nil : g_redirs [] []
  | g_redirs_in w t rs : g_redirs t rs ->
      g_redirs (LSym LT :: LWord w :: t) (Redir w O_RDONLY 0 :: rs)
  | g_redirs_out w t rs : g_redirs t rs ->
      g_redirs (LSym GT :: LWord w :: t) (Redir w (Z.lor O_WRONLY O_CREATE) 1 :: rs)
  | g_redirs_app w t rs : g_redirs t rs ->
      g_redirs (LApp :: LWord w :: t) (Redir w (Z.lor O_WRONLY O_CREATE) 1 :: rs).

Inductive g_args : list ltok -> list span -> list redir -> Prop :=
  | g_args_nil : g_args [] [] []
  | g_args_cons w t rs t' args rs' : g_redirs t rs -> g_args t' args rs' ->
      g_args (LWord w :: t ++ t') (w :: args) (rs ++ rs').

Inductive g_exec : list ltok -> cmd -> Prop :=
  | g_exec_simple t rs t' args rs' : g_redirs t rs -> g_args t' args rs' -> (length args < MAXARGS)%nat ->
      g_exec (t ++ t') (redircmd (EXEC args) (rs ++ rs'))
  | g_exec_block t c t' rs : g_line t c -> g_redirs t' rs ->
      g_exec (LSym LPAR :: t ++ LSym RPAR :: t') (redircmd c rs)
with g_pipe : list ltok -> cmd -> Prop :=
  | g_pipe_one t c : g_exec t c -> g_pipe t c
  | g_pipe_bar t c t' c' : g_exec t c -> g_pipe t' c' -> g_pipe (t ++ LSym BAR :: t') (PIPE c c')
with g_line : list ltok -> cmd -> Prop :=
  | g_line_end t c n : g_pipe t c -> g_line (t ++ replicate n (LSym AMP)) (Nat.iter n BACK c)
  | g_line_seq t c n t' c' : g_pipe t c -> g_line t' c' ->
      g_line (t ++ replicate n (LSym AMP) ++ LSym SEMI :: t') (LIST (Nat.iter n BACK c) c').

Scheme g_exec_mut := Minimality for g_exec Sort Prop
  with g_pipe_mut := Minimality for g_pipe Sort Prop
  with g_line_mut := Minimality for g_line Sort Prop.
Combined Scheme g_mutind from g_exec_mut, g_pipe_mut, g_line_mut.

(** ** Lexing *)

Lemma skip_ws_length s : (length (skip_ws s) <= length s)%nat.
Proof. induction s as [|c s IH]; [done|]. simpl. destruct (chr_in _ _); simpl; lia. Qed.
Lemma skip_word_length s : (length (skip_word s) <= length s)%nat.
Proof. induction s as [|c s IH]; [done|]. simpl. destruct (_ && _); simpl; lia. Qed.
Lemma skip_ws_idem s : skip_ws (skip_ws s) = skip_ws s.
Proof. induction s as [|c s IH]; [done|]. simpl. destruct (chr_in _ _) eqn:E; [done|]. simpl. by rewrite E. Qed.
Lemma skip_ws_string s : c_string s -> c_string (skip_ws s).
Proof.
  induction s as [|c s IH]; [done|]. intros Hs. simpl. pose proof Hs as [_ Hs']%c_string_cons.
  destruct (chr_in _ _); [by apply IH|done].
Qed.
Lemma skip_word_string s : c_string s -> c_string (skip_word s).
Proof.
  induction s as [|c s IH]; [done|]. intros Hs. simpl. pose proof Hs as [_ Hs']%c_string_cons.
  destruct (_ && _); [by apply IH|done].
Qed.
Lemma skip_ws_head s c s' : skip_ws s = c :: s' -> chr_in whitespace c = false.
Proof.
  induction s as [|d s IH]; [done|]. simpl. destruct (chr_in whitespace d) eqn:E; [apply IH|]. intros [= -> ->]. done.
Qed.

Lemma gettoken_skip s : gettoken (skip_ws s) = gettoken s.
Proof. unfold gettoken. by rewrite skip_ws_idem. Qed.

Section Lex.
Context (es : nat).

Definition mktok (t : token) (q e : list Z) : option ltok :=
  match t with
  | TEnd => None
  | TSym c => Some (LSym c)
  | TAppend => Some LApp
  | TWord => Some (LWord (off es q, off es e))
  end.

(** The tokens of a rest of the line, at most [n]. *)
Fixpoint lexn (n : nat) (s : list Z) : list ltok :=
  match n with
  | O => []
  | S n' => let '(t, q, e, s') := gettoken s in
            match mktok t q e with Some k => k :: lexn n' s' | None => [] end
  end.

Definition lex (s : list Z) : list ltok := lexn (length s) s.
End Lex.

(** Membership tests. *)
Lemma strchr_elem l c : Forall (fun x => x <> 0) l -> (exists i, strchr l c = Some i) <-> c ∈ l.
Proof.
  induction 1 as [|x l Hx Hl IH]; simpl.
  - split; [by intros [? ?]|by intros ?%not_elem_of_nil].
  - rewrite (proj2 (Z.eqb_neq x 0)), elem_of_cons by done. destruct (Z.eqb_spec x c) as [-> |Hne].
    + split; [by left|by exists O].
    + rewrite <- IH. split.
      * intros [i Hi]. right. destruct (strchr l c); [by eexists|done].
      * intros [?|[i ->]]; [congruence|by eexists].
Qed.

Lemma chr_in_elem l c : Forall (fun x => x <> 0) l -> chr_in l c = true <-> c ∈ l.
Proof.
  intros Hl. rewrite <- (strchr_elem l c Hl). unfold chr_in. destruct (strchr l c) as [i|]; [|by split; [|intros [? ?]]].
  split; [by exists i|done].
Qed.

Lemma chr_in_sub l k c : Forall (fun x => x <> 0) l -> Forall (fun x => x <> 0) k -> l ⊆ k ->
  chr_in k c = false -> chr_in l c = false.
Proof.
  intros Hl Hk Hs Hc. destruct (chr_in l c) eqn:E; [|done]. apply chr_in_elem in E; [|done].
  rewrite <- Hc. symmetry. apply chr_in_elem; [done|]. by apply Hs.
Qed.

(** The symbols are those [gettoken] and its case for [>] take. *)
Lemma symbols_spec c : chr_in symbols c = chr_in [BAR; LPAR; RPAR; SEMI; AMP; LT] c || (c =? GT).
Proof.
  apply eq_true_iff_eq. rewrite orb_true_iff, Z.eqb_eq, !chr_in_elem by by repeat constructor.
  unfold symbols. cbn. unfold BAR, LPAR, RPAR, SEMI, AMP, LT, GT. set_solver.
Qed.

(** A set of symbols that a parser looks for. *)
Definition sym_set (l : list Z) : Prop := Forall (fun x => x <> 0) l /\ l ⊆ symbols.

Section LexSpec.
Context (es : nat).

(** Every token but the end takes a character. *)
Lemma gettoken_length s t q e s' : gettoken s = (t, q, e, s') -> t <> TEnd -> (length s' < length s)%nat.
Proof.
  unfold gettoken. pose proof (skip_ws_length s) as Hl. destruct (skip_ws s) as [|c s1] eqn:Es; [by intros [= <- <- <- <-]|].
  apply skip_ws_head in Es. simpl in Hl. destruct (c =? 0); [by intros [= <- <- <- <-]|].
  destruct (chr_in [_; _; _; _; _; _] c) eqn:E1.
  { intros [= <- <- <- <-] _. pose proof (skip_ws_length s1). lia. }
  destruct (c =? GT) eqn:E2.
  { destruct s1 as [|d s2]; [intros [= <- <- <- <-] _; simpl in *; lia|].
    pose proof (skip_ws_length (d :: s2)). pose proof (skip_ws_length s2).
    destruct (d =? GT); intros [= <- <- <- <-] _; simpl in *; lia. }
  intros [= <- <- <- <-] _. rewrite Es, symbols_spec, E1, E2. simpl.
  pose proof (skip_ws_length (skip_word s1)). pose proof (skip_word_length s1). lia.
Qed.

Lemma lexn_more n s : (length s <= n)%nat -> lexn es n s = lex es s.
Proof.
  unfold lex. revert s. induction n as [n IH] using lt_wf_ind. intros s Hn. destruct n as [|n].
  { by destruct s; [|simpl in Hn; lia]. }
  destruct (length s) as [|m] eqn:Hm.
  { apply nil_length_inv in Hm as ->. done. }
  simpl. destruct (gettoken s) as [[[t q] e] s'] eqn:Hg. destruct (mktok es t q e) as [k|] eqn:Hk; [|done].
  f_equal. assert (length s' < length s)%nat by (eapply gettoken_length; [done|by intros ->]).
  rewrite (IH n) by lia. symmetry. destruct (decide (m < S n)%nat) as [|]; [|by replace m with n by lia; rewrite IH by lia].
  apply IH; lia.
Qed.

Lemma lex_eq s : lex es s = let '(t, q, e, s') := gettoken s in
  match mktok es t q e with Some k => k :: lex es s' | None => [] end.
Proof.
  rewrite <- (lexn_more (S (length s))) by lia. simpl. destruct (gettoken s) as [[[t q] e] s'] eqn:Hg.
  destruct (mktok es t q e) as [k|] eqn:Hk; [|done]. f_equal. apply lexn_more.
  assert (length s' < length s)%nat by (eapply gettoken_length; [done|by intros ->]). lia.
Qed.

Lemma lex_skip s : lex es (skip_ws s) = lex es s.
Proof. by rewrite !lex_eq, gettoken_skip. Qed.

Lemma gettoken_string s t q e s' : c_string s -> gettoken s = (t, q, e, s') -> c_string s'.
Proof.
  unfold gettoken. intros Hs. pose proof (skip_ws_string s Hs) as H1.
  destruct (skip_ws s) as [|c s1] eqn:Es; [intros [= <- <- <- <-]; constructor|].
  pose proof H1 as [Hc Hs1]%c_string_cons. rewrite (proj2 (Z.eqb_neq c 0)) by done.
  destruct (chr_in [_; _; _; _; _; _] c); [intros [= <- <- <- <-]; by apply skip_ws_string|].
  destruct (c =? GT); [|intros [= <- <- <- <-]; apply skip_ws_string; by apply (skip_word_string (c :: s1))].
  destruct s1 as [|d s2]; [intros [= <- <- <- <-]; constructor|]. pose proof Hs1 as [_ Hs2]%c_string_cons.
  destruct (d =? GT); intros [= <- <- <- <-]; [by apply skip_ws_string|by apply (skip_ws_string (d :: s2))].
Qed.

(** The end is met only at the end. *)
Lemma gettoken_end s q e s' : c_string s -> gettoken s = (TEnd, q, e, s') -> skip_ws s = [] /\ s' = [].
Proof.
  unfold gettoken. intros Hs. pose proof (skip_ws_string s Hs) as H1.
  destruct (skip_ws s) as [|c s1]; [by intros [= <- <- <-]|].
  apply c_string_cons in H1 as [Hc _]. rewrite (proj2 (Z.eqb_neq c 0)) by done.
  destruct (chr_in [_; _; _; _; _; _] c); [done|]. destruct (c =? GT); [|done].
  destruct s1 as [|d s2]; [done|]. by destruct (d =? GT).
Qed.

(** What a parser sees of the next token. *)
Definition next_in (l : list Z) (ts : list ltok) : bool :=
  match ts with
  | LSym c :: _ => chr_in l c
  | LApp :: _ => chr_in l GT
  | _ => false
  end.

Lemma peek_spec s l : c_string s -> sym_set l ->
  peek s l = (next_in l (lex es s), skip_ws s).
Proof.
  intros Hs [Hl Hsub]. unfold peek. f_equal. rewrite lex_eq. unfold gettoken.
  pose proof (skip_ws_string s Hs) as H1. destruct (skip_ws s) as [|c s1] eqn:Es; [done|].
  pose proof H1 as [Hc _]%c_string_cons. rewrite (proj2 (Z.eqb_neq c 0)) by done.
  destruct (chr_in [_; _; _; _; _; _] c) eqn:E1; [done|].
  destruct (Z.eqb_spec c GT) as [-> |E2]; [destruct s1 as [|d s2]; [done|]; by destruct (d =? GT)|].
  simpl. apply (chr_in_sub l symbols); [done|by repeat constructor|done|].
  rewrite symbols_spec, E1. by apply Z.eqb_neq.
Qed.

(** The next token, and the rest. *)
Lemma gettoken_spec s k ts : c_string s -> lex es s = k :: ts ->
  exists t q e s', gettoken s = (t, q, e, s') /\ mktok es t q e = Some k /\ lex es s' = ts /\ c_string s'.
Proof.
  intros Hs Hl. rewrite lex_eq in Hl. destruct (gettoken s) as [[[t q] e] s'] eqn:Hg.
  destruct (mktok es t q e) as [k'|] eqn:Hk; [|done]. simplify_eq. exists t, q, e, s'. split_and!; try done.
  by eapply gettoken_string.
Qed.

Lemma gettoken_nil s : c_string s -> lex es s = [] -> exists q e, gettoken s = (TEnd, q, e, []).
Proof.
  intros Hs Hl. rewrite lex_eq in Hl. destruct (gettoken s) as [[[t q] e] s'] eqn:Hg.
  destruct t; try done. apply gettoken_end in Hg as [_ ->]; [|done]. by exists q, e.
Qed.
End LexSpec.

(** ** The parsers against the grammar *)

Lemma sym_redir : sym_set [LT; GT]. 
Proof. split; [by repeat constructor|]. unfold symbols. cbn. unfold LT, GT. set_solver. Qed.
Lemma sym_stop : sym_set [BAR; RPAR; AMP; SEMI].
Proof. split; [by repeat constructor|]. unfold symbols. cbn. unfold BAR, RPAR, AMP, SEMI. set_solver. Qed.
Lemma sym_one c : c ∈ symbols -> c <> 0 -> sym_set [c].
Proof. intros H1 H2. split; [by repeat constructor|]. set_solver. Qed.
Lemma in_symbols : LPAR ∈ symbols /\ RPAR ∈ symbols /\ BAR ∈ symbols /\ AMP ∈ symbols /\ SEMI ∈ symbols.
Proof. unfold symbols. cbn. unfold BAR, RPAR, AMP, SEMI, LPAR. set_solver. Qed.
Create HintDb sh.
#[local] Hint Resolve sym_redir sym_stop sym_one : sh.
#[local] Hint Extern 1 (_ ∈ symbols) => apply in_symbols : sh.
#[local] Hint Extern 1 (_ <> 0) => discriminate : sh.

Section Grammar.
Context (es : nat).
Abbreviation lx := (lex es).

(** A token whose character a parser has seen. *)
Lemma next_one c ts : c <> GT -> next_in [c] ts = true -> exists ts', ts = LSym c :: ts'.
Proof.
  intros Hc. destruct ts as [|[d| |w] ts]; simpl; [done| | |done]; unfold chr_in; simpl.
  - destruct (c =? 0); [done|]. destruct (Z.eqb_spec c d) as [-> |]; [by eauto|done].
  - destruct (c =? 0); [done|]. by destruct (Z.eqb_spec c GT).
Qed.

(** [peek], then the two ways on. *)
Lemma peek_one s c : c_string s -> sym_set [c] -> c <> GT ->
  (exists ts s', peek s [c] = (true, skip_ws s) /\ lx s = LSym c :: ts /\
     (exists q e, gettoken (skip_ws s) = (TSym c, q, e, s')) /\ lx s' = ts /\ c_string s') \/
  (peek s [c] = (false, skip_ws s) /\ next_in [c] (lx s) = false).
Proof.
  intros Hs Hc Hg. rewrite (peek_spec es) by done. destruct (next_in [c] (lx s)) eqn:E; [left|by right].
  apply next_one in E as [ts E]; [|done]. destruct (gettoken_spec es s _ _ Hs E) as (t & q & e & s' & H1 & H2 & H3 & H4).
  exists ts, s'. split_and!; try done. exists q, e. rewrite gettoken_skip, H1.
  by destruct t; simplify_eq/=.
Qed.

Lemma next_redir ts : next_in [LT; GT] ts = true ->
  exists ts', ts = LSym LT :: ts' \/ ts = LSym GT :: ts' \/ ts = LApp :: ts'.
Proof.
  destruct ts as [|[c| |w] ts]; simpl; [done| |eauto|done].
  rewrite chr_in_elem by by repeat constructor. set_solver.
Qed.

(** *** Redirections *)

(** The redirection a token stands for. *)
Definition redir_of (k : ltok) (w : span) : redir :=
  match k with
  | LSym c => if c =? LT then Redir w O_RDONLY 0 else Redir w (Z.lor O_WRONLY O_CREATE) 1
  | _ => Redir w (Z.lor O_WRONLY O_CREATE) 1
  end.

(** One round of [parseredirs] on the tokens. *)
Lemma parseredirs_eq fuel s : c_string s ->
  parseredirs es (S fuel) s =
  if next_in [LT; GT] (lx s) then
    match lx s with
    | k :: LWord w :: _ =>
        let s1 := (gettoken (gettoken s).2).2 in
        get (rs, ps) <~ parseredirs es fuel s1 ;; POk (redir_of k w :: rs, ps)
    | _ => PPanic "missing file for redirection"
    end
  else POk ([], skip_ws s).
Proof.
  intros Hs. cbn [parseredirs]. rewrite (peek_spec es) by auto with sh.
  destruct (next_in [LT; GT] (lx s)) eqn:E; [|done]. cbn [negb]. rewrite gettoken_skip.
  destruct (lx s) as [|k ts] eqn:El; [done|].
  destruct (gettoken_spec es s k ts Hs El) as (t & q & e & s' & H1 & H2 & H3 & H4). rewrite H1. cbn [snd].
  destruct ts as [|k2 ts2].
  { destruct (gettoken_nil es s' H4 H3) as (q' & e' & ->). done. }
  destruct (gettoken_spec es s' k2 ts2 H4 H3) as (t2 & q2 & e2 & s2 & G1 & G2 & G3 & G4). rewrite G1. cbn [snd].
  destruct t2; simplify_eq/=; try done.
  unfold redir_of. destruct t as [|c| |]; simplify_eq/=; try done. by destruct (c =? LT).
Qed.

(** The rest after the two tokens of a redirection. *)
Lemma two_tokens s k k2 ts : c_string s -> lx s = k :: k2 :: ts ->
  c_string (gettoken (gettoken s).2).2 /\ lx (gettoken (gettoken s).2).2 = ts.
Proof.
  intros Hs El. destruct (gettoken_spec es s _ _ Hs El) as (t & q & e & s' & H1 & H2 & H3 & H4). rewrite H1. cbn [snd].
  destruct (gettoken_spec es s' _ _ H4 H3) as (t2 & q2 & e2 & s2 & G1 & G2 & G3 & G4). by rewrite G1.
Qed.

Lemma redir_of_rule k w t rs ts : next_in [LT; GT] (k :: ts) = true -> g_redirs t rs ->
  g_redirs (k :: LWord w :: t) (redir_of k w :: rs).
Proof.
  intros (ts' & [[= -> _]|[[= -> _]|[= -> _]]])%next_redir H; by constructor.
Qed.

Lemma skip_ws_lx s : c_string s -> c_string (skip_ws s) /\ lx (skip_ws s) = lx s.
Proof. intros Hs. split; [by apply skip_ws_string|apply lex_skip]. Qed.

Lemma redirs_sound fuel s rs s' : c_string s -> parseredirs es fuel s = POk (rs, s') ->
  c_string s' /\ exists t, g_redirs t rs /\ lx s = t ++ lx s'.
Proof.
  revert s rs. induction fuel as [|fuel IH]; intros s rs Hs; [done|]. rewrite parseredirs_eq by done.
  destruct (next_in _ _) eqn:E.
  - destruct (lx s) as [|k [|[| |w] ts]] eqn:El; try done.
    destruct (two_tokens s _ _ _ Hs El) as [H1 H2]. cbv zeta. destruct (parseredirs es fuel _) as [[rs1 s1]| |] eqn:Er; try done.
    simpl. intros [= <- <-]. destruct (IH _ _ H1 Er) as (Hs' & t & Hg & Ht). split; [done|].
    exists (k :: LWord w :: t). split; [by eapply redir_of_rule|]. rewrite <- H2, Ht. done.
  - intros [= <- <-]. destruct (skip_ws_lx s Hs) as [? ->]. split; [done|]. exists []. split; [constructor|done].
Qed.

Lemma redirs_complete t rs : g_redirs t rs -> forall s ts fuel, c_string s -> lx s = t ++ ts ->
  next_in [LT; GT] ts = false -> (length t < fuel)%nat ->
  exists s', parseredirs es fuel s = POk (rs, s') /\ lx s' = ts /\ c_string s'.
Proof.
  assert (Hstep : forall k w t rs s ts fuel, next_in [LT; GT] (k :: t) = true ->
    (forall s ts fuel, c_string s -> lx s = t ++ ts -> next_in [LT; GT] ts = false -> (length t < fuel)%nat ->
      exists s', parseredirs es fuel s = POk (rs, s') /\ lx s' = ts /\ c_string s') ->
    c_string s -> lx s = (k :: LWord w :: t) ++ ts -> next_in [LT; GT] ts = false ->
    (length (k :: LWord w :: t) < fuel)%nat ->
    exists s', parseredirs es fuel s = POk (redir_of k w :: rs, s') /\ lx s' = ts /\ c_string s').
  { intros k w t0 rs0 s ts fuel Hk IH Hs Hl Hts Hf. destruct fuel as [|fuel]; [lia|]. rewrite parseredirs_eq by done.
    assert (next_in [LT; GT] (lx s) = true) as -> by (rewrite Hl; exact Hk).
    destruct (two_tokens s k (LWord w) (t0 ++ ts) Hs Hl) as [H1 H2].
    destruct (IH _ ts fuel H1 H2 Hts ltac:(simpl in Hf; lia)) as (s' & Hr & ? & ?).
    rewrite Hl. simpl. rewrite Hr. by exists s'. }
  induction 1 as [|w t rs Hg IH|w t rs Hg IH|w t rs Hg IH]; intros s ts fuel Hs Hl Hts Hf.
  - destruct fuel as [|fuel]; [simpl in Hf; lia|]. rewrite parseredirs_eq, Hl by done. simpl. rewrite Hts.
    exists (skip_ws s). destruct (skip_ws_lx s Hs) as [? ->]. by rewrite Hl.
  - by apply (Hstep (LSym LT) w t rs s ts fuel).
  - by apply (Hstep (LSym GT) w t rs s ts fuel).
  - by apply (Hstep LApp w t rs s ts fuel).
Qed.

Lemma redirs_fuel fuel s : c_string s -> (length (lx s) < fuel)%nat -> parseredirs es fuel s <> PFuel.
Proof.
  revert s. induction fuel as [|fuel IH]; intros s Hs Hf; [lia|]. rewrite parseredirs_eq by done.
  destruct (next_in _ _) eqn:E; [|done]. destruct (lx s) as [|k [|[| |w] ts]] eqn:El; try done.
  destruct (two_tokens s _ _ _ Hs El) as [H1 H2]. cbv zeta.
  specialize (IH _ H1). rewrite H2 in IH. simpl in Hf. specialize (IH ltac:(lia)).
  by destruct (parseredirs es fuel _) as [[rs1 s1]| |].
Qed.

(** *** Arguments *)

(** The tokens that may follow a command. *)
Definition ends (ts : list ltok) : Prop := ts = [] \/ next_in [BAR; RPAR; AMP; SEMI] ts = true.

Lemma ends_not_redir ts : ends ts -> next_in [LT; GT] ts = false.
Proof.
  intros [-> |H]; [done|]. destruct ts as [|[c| |w] ts]; simpl in *; [done| |by vm_compute in H|done].
  destruct (chr_in [LT; GT] c) eqn:E; [|done].
  apply chr_in_elem in E; [|by repeat constructor]. apply chr_in_elem in H; [|by repeat constructor].
  unfold LT, GT, BAR, RPAR, AMP, SEMI in *. set_solver.
Qed.

Lemma parseargs_eq fuel argc s : c_string s ->
  parseargs es (S fuel) argc s =
  if next_in [BAR; RPAR; AMP; SEMI] (lx s) then POk ([], [], skip_ws s) else
  match lx s with
  | [] => POk ([], [], [])
  | LWord w :: _ =>
      if (MAXARGS <=? S argc)%nat then PPanic "too many args" else
      get (rs, ps) <~ parseredirs es fuel (gettoken s).2 ;;
      get (args, rs', ps) <~ parseargs es fuel (S argc) ps ;;
      POk (w :: args, rs ++ rs', ps)
  | _ => PPanic "syntax"
  end.
Proof.
  intros Hs. cbn [parseargs]. rewrite (peek_spec es) by auto with sh.
  destruct (next_in _ (lx s)) eqn:E; [done|]. rewrite gettoken_skip.
  destruct (lx s) as [|k ts] eqn:El.
  - destruct (gettoken_nil es s Hs El) as (q & e & ->). done.
  - destruct (gettoken_spec es s k ts Hs El) as (t & q & e & s' & H1 & H2 & H3 & H4). rewrite H1. cbn [snd].
    by destruct t; simplify_eq/=.
Qed.

Lemma one_token s k ts : c_string s -> lx s = k :: ts -> c_string (gettoken s).2 /\ lx (gettoken s).2 = ts.
Proof. intros Hs El. destruct (gettoken_spec es s _ _ Hs El) as (t & q & e & s' & H1 & H2 & H3 & H4). by rewrite H1. Qed.

Lemma args_sound fuel argc s args rs s' : c_string s -> parseargs es fuel argc s = POk (args, rs, s') -> (argc < MAXARGS)%nat ->
  c_string s' /\ (exists t, g_args t args rs /\ lx s = t ++ lx s') /\ (argc + length args < MAXARGS)%nat.
Proof.
  revert argc s args rs. induction fuel as [|fuel IH]; intros argc s args rs Hs Hp Ha; [done|].
  rewrite parseargs_eq in Hp by done. destruct (next_in _ _) eqn:E.
  { simplify_eq. destruct (skip_ws_lx s Hs) as [? ->]. split; [done|]. split; [|simpl; lia]. exists []. split; [constructor|done]. }
  destruct (lx s) as [|[| |w] ts] eqn:El; try done.
  { simplify_eq. split; [constructor|]. split; [|simpl; lia]. exists []. split; [constructor|done]. }
  destruct (one_token s _ _ Hs El) as [H1 H2]. destruct (Nat.leb_spec MAXARGS (S argc)); [done|].
  destruct (parseredirs es fuel _) as [[rs1 s1]| |] eqn:Er; try done. simpl in Hp.
  destruct (redirs_sound _ _ _ _ H1 Er) as (Hs1 & t1 & Hg1 & Ht1).
  destruct (parseargs es fuel (S argc) s1) as [[[args2 rs2] s2]| |] eqn:Ea; try done. simplify_eq/=.
  destruct (IH _ _ _ _ Hs1 Ea ltac:(lia)) as (Hs2 & (t2 & Hg2 & Ht2) & Hlen). split; [done|]. split; [|lia].
  exists (LWord w :: t1 ++ t2). split; [by constructor|]. rewrite Ht1, Ht2. simpl. by rewrite app_assoc.
Qed.

Lemma g_args_next t args rs ts : g_args t args rs -> ends ts -> next_in [LT; GT] (t ++ ts) = false.
Proof. destruct 1; [apply ends_not_redir|done]. Qed.

Lemma args_complete t args rs : g_args t args rs -> forall argc s ts fuel, c_string s -> lx s = t ++ ts -> ends ts ->
  (argc + length args < MAXARGS)%nat -> (length t < fuel)%nat ->
  exists s', parseargs es fuel argc s = POk (args, rs, s') /\ lx s' = ts /\ c_string s'.
Proof.
  induction 1 as [|w t rs t' args rs' Hr Ha IH]; intros argc s ts fuel Hs Hl He Hn Hf; (destruct fuel as [|fuel]; [simpl in Hf; lia|]);
    rewrite parseargs_eq, Hl by done; cbn [next_in app length] in *.
  - destruct He as [-> |Hts].
    + exists []. by split_and!; [|rewrite lex_eq|constructor].
    + rewrite Hts. exists (skip_ws s). destruct (skip_ws_lx s Hs) as [? ->]. by rewrite Hl.
  - destruct (one_token s _ _ Hs Hl) as [H1 H2]. destruct (Nat.leb_spec MAXARGS (S argc)); [lia|].
    rewrite <- app_assoc in H2. rewrite length_app in Hf.
    destruct (redirs_complete t rs Hr _ (t' ++ ts) fuel H1 H2) as (s1 & -> & Hl1 & Hs1); [exact (g_args_next _ _ _ _ Ha He)|lia|]. cbn [pbind].
    destruct (IH (S argc) s1 ts fuel Hs1 Hl1 He ltac:(lia) ltac:(lia)) as (s2 & -> & Hl2 & Hs2). by exists s2.
Qed.

Lemma args_fuel fuel argc s : c_string s -> (length (lx s) < fuel)%nat -> parseargs es fuel argc s <> PFuel.
Proof.
  revert argc s. induction fuel as [|fuel IH]; intros argc s Hs Hf; [lia|]. rewrite parseargs_eq by done.
  destruct (next_in _ _); [done|]. destruct (lx s) as [|[| |w] ts] eqn:El; try done.
  destruct (one_token s _ _ Hs El) as [H1 H2]. destruct (MAXARGS <=? S argc)%nat; [done|]. simpl in Hf.
  pose proof (redirs_fuel fuel _ H1) as Hrf. rewrite H2 in Hrf. specialize (Hrf ltac:(lia)).
  destruct (parseredirs es fuel _) as [[rs1 s1]| |] eqn:Er; try done. simpl.
  destruct (redirs_sound _ _ _ _ H1 Er) as (Hs1 & t1 & _ & Ht1).
  assert (Hlen : (length (lx s1) < fuel)%nat) by (rewrite H2 in Ht1; apply (f_equal length) in Ht1; rewrite length_app in Ht1; lia).
  specialize (IH (S argc) s1 Hs1 Hlen). by destruct (parseargs es fuel (S argc) s1) as [[[? ?] ?]| |].
Qed.

(** *** Commands, pipelines and lines *)

(** A parser for lines that finds only derivable commands. *)
Definition finds (P : list ltok -> cmd -> Prop) (parse : list Z -> presult (cmd * list Z)) : Prop :=
  forall s c s', c_string s -> parse s = POk (c, s') -> c_string s' /\ exists t, P t c /\ lx s = t ++ lx s'.

(** [peek] for one symbol followed by [gettoken], on the tokens. *)
Lemma peek_take {A} s c (yes no : list Z -> A) : c_string s -> sym_set [c] -> c <> GT ->
  (let '(b, ps) := peek s [c] in if b then (let '(_, _, _, ps) := gettoken ps in yes ps) else no ps) =
  if next_in [c] (lx s) then yes (gettoken s).2 else no (skip_ws s).
Proof.
  intros Hs Hc Hg. rewrite (peek_spec es) by done. destruct (next_in _ _); [|done].
  rewrite gettoken_skip. by destruct (gettoken s) as [[[? ?] ?] ?].
Qed.

Lemma parseblock_eq pl fuel s ts : c_string s -> lx s = LSym LPAR :: ts ->
  parseblock es pl fuel s =
  (get (c, ps) <~ pl (gettoken s).2 ;;
   let '(closed, ps) := peek ps [RPAR] in
   if closed then (let '(_, _, _, ps) := gettoken ps in get (rs, ps) <~ parseredirs es fuel ps ;; POk (redircmd c rs, ps))
   else PPanic "syntax - missing )").
Proof.
  intros Hs Hl. unfold parseblock. rewrite (peek_spec es) by auto with sh. rewrite Hl. cbn [next_in].
  change (chr_in [LPAR] LPAR) with true. cbn [negb]. rewrite gettoken_skip. destruct (gettoken s) as [[[? ?] ?] s1]. cbn [snd].
  destruct (pl s1) as [[c ps]| |]; cbn [pbind]; try done. destruct (peek ps [RPAR]) as [[] ps']; done.
Qed.

Lemma parseexec_eq pl fuel s : c_string s ->
  parseexec es pl fuel s =
  if next_in [LPAR] (lx s) then parseblock es pl fuel (skip_ws s) else
  get (rs, ps) <~ parseredirs es fuel (skip_ws s) ;;
  get (args, rs', ps) <~ parseargs es fuel 0 ps ;;
  POk (redircmd (EXEC args) (rs ++ rs'), ps).
Proof. intros Hs. unfold parseexec. by rewrite (peek_spec es) by auto with sh. Qed.

Lemma block_sound pl fuel : finds g_line pl -> forall s ts c s', c_string s -> lx s = LSym LPAR :: ts ->
  parseblock es pl fuel s = POk (c, s') -> c_string s' /\ exists t, g_exec t c /\ lx s = t ++ lx s'.
Proof.
  intros Hpl s ts c s' Hs Hl. rewrite (parseblock_eq _ _ _ ts) by done. destruct (one_token s _ _ Hs Hl) as [H1 H2].
  destruct (pl _) as [[c1 s1]| |] eqn:Ep; try done. cbn [pbind]. destruct (Hpl _ _ _ H1 Ep) as (Hs1 & t1 & Hg1 & Ht1).
  rewrite peek_take by (done || auto with sh). destruct (next_in _ _) eqn:E; [|done].
  apply next_one in E as [ts1 E]; [|done]. destruct (one_token s1 _ _ Hs1 E) as [G1 G2].
  destruct (parseredirs es fuel _) as [[rs s2]| |] eqn:Er; try done. intros [= <- <-].
  destruct (redirs_sound _ _ _ _ G1 Er) as (Hs2 & t2 & Hg2 & Ht2). split; [done|].
  exists (LSym LPAR :: t1 ++ LSym RPAR :: t2). split; [by constructor|].
  rewrite Hl, <- H2, Ht1, E, <- G2, Ht2. simpl. by rewrite <- app_assoc.
Qed.

Lemma exec_sound pl fuel : finds g_line pl -> finds g_exec (parseexec es pl fuel).
Proof.
  intros Hpl s c s' Hs. rewrite parseexec_eq by done. destruct (skip_ws_lx s Hs) as [Hk1 Hk2].
  destruct (next_in _ _) eqn:E.
  - apply next_one in E as [ts E]; [|done]. rewrite <- Hk2 in E |- *. by apply (block_sound pl fuel Hpl _ ts).
  - destruct (parseredirs es fuel _) as [[rs1 s1]| |] eqn:Er; try done. cbn [pbind].
    destruct (redirs_sound _ _ _ _ Hk1 Er) as (Hs1 & t1 & Hg1 & Ht1).
    destruct (parseargs es fuel 0 s1) as [[[args rs2] s2]| |] eqn:Ea; try done. intros [= <- <-].
    destruct (args_sound _ _ _ _ _ _ Hs1 Ea) as (Hs2 & (t2 & Hg2 & Ht2) & Hlen); [unfold MAXARGS; lia|].
    split; [done|]. exists (t1 ++ t2). split; [by constructor|]. by rewrite <- Hk2, Ht1, Ht2, app_assoc.
Qed.

Lemma parsepipe_eq pl fuel s : c_string s -> finds g_line pl ->
  parsepipe es pl (S fuel) s =
  (get (c, ps) <~ parseexec es pl fuel s ;;
   if next_in [BAR] (lx ps) then get (r, ps) <~ parsepipe es pl fuel (gettoken ps).2 ;; POk (PIPE c r, ps)
   else POk (c, skip_ws ps)).
Proof.
  intros Hs Hpl. cbn [parsepipe]. destruct (parseexec es pl fuel s) as [[c1 s1]| |] eqn:Ee; cbn [pbind]; try done.
  destruct (exec_sound pl fuel Hpl _ _ _ Hs Ee) as (Hs1 & _). by rewrite peek_take by (done || auto with sh).
Qed.

Lemma pipe_sound pl fuel : finds g_line pl -> finds g_pipe (parsepipe es pl fuel).
Proof.
  intros Hpl. induction fuel as [|fuel IH]; intros s c s' Hs; [done|]. rewrite parsepipe_eq by done.
  destruct (parseexec es pl fuel s) as [[c1 s1]| |] eqn:Ee; cbn [pbind]; try done.
  destruct (exec_sound pl fuel Hpl _ _ _ Hs Ee) as (Hs1 & t1 & Hg1 & Ht1). destruct (next_in _ _) eqn:E.
  - apply next_one in E as [ts E]; [|done]. destruct (one_token s1 _ _ Hs1 E) as [G1 G2].
    destruct (parsepipe es pl fuel _) as [[c2 s2]| |] eqn:Er; cbn [pbind]; try done. intros [= <- <-].
    destruct (IH _ _ _ G1 Er) as (Hs2 & t2 & Hg2 & Ht2). split; [done|].
    exists (t1 ++ LSym BAR :: t2). split; [by constructor|]. rewrite Ht1, E, <- G2, Ht2. by rewrite <- app_assoc.
  - intros [= <- <-]. destruct (skip_ws_lx s1 Hs1) as [? ->]. split; [done|]. exists t1. split; [by constructor|done].
Qed.

Lemma parseback_eq fuel c s : c_string s ->
  parseback (S fuel) c s = if next_in [AMP] (lx s) then parseback fuel (BACK c) (gettoken s).2 else POk (c, skip_ws s).
Proof. intros Hs. cbn [parseback]. by rewrite peek_take by (done || auto with sh). Qed.

Lemma iter_BACK n c : Nat.iter n BACK (BACK c) = BACK (Nat.iter n BACK c).
Proof. induction n as [|n IH]; [done|]. simpl. by rewrite IH. Qed.

Lemma back_sound fuel c s c' s' : c_string s -> parseback fuel c s = POk (c', s') ->
  c_string s' /\ exists n, c' = Nat.iter n BACK c /\ lx s = replicate n (LSym AMP) ++ lx s'.
Proof.
  revert c s. induction fuel as [|fuel IH]; intros c s Hs; [done|]. rewrite parseback_eq by done.
  destruct (next_in _ _) eqn:E.
  - apply next_one in E as [ts E]; [|done]. destruct (one_token s _ _ Hs E) as [G1 G2]. intros Hp.
    destruct (IH _ _ G1 Hp) as (Hs' & n & -> & Hn). split; [done|]. exists (S n). rewrite iter_BACK. split; [done|].
    rewrite E, <- G2, Hn. done.
  - intros [= <- <-]. destruct (skip_ws_lx s Hs) as [? ->]. split; [done|]. by exists O.
Qed.

Lemma line_sound fuel : finds g_line (parseline es fuel).
Proof.
  induction fuel as [|fuel IH]; intros s c s' Hs; [done|]. cbn [parseline].
  destruct (parsepipe es _ fuel s) as [[c1 s1]| |] eqn:Ee; cbn [pbind]; try done.
  destruct (pipe_sound _ fuel IH _ _ _ Hs Ee) as (Hs1 & t1 & Hg1 & Ht1).
  destruct (parseback fuel c1 s1) as [[c2 s2]| |] eqn:Eb; cbn [pbind]; try done.
  destruct (back_sound _ _ _ _ _ Hs1 Eb) as (Hs2 & n & -> & Hn).
  rewrite peek_take by (done || auto with sh). destruct (next_in _ _) eqn:E.
  - apply next_one in E as [ts E]; [|done]. destruct (one_token s2 _ _ Hs2 E) as [G1 G2].
    destruct (parseline es fuel _) as [[c3 s3]| |] eqn:Er; cbn [pbind]; try done. intros [= <- <-].
    destruct (IH _ _ _ G1 Er) as (Hs3 & t3 & Hg3 & Ht3). split; [done|]. eexists. split; [by apply (g_line_seq t1 c1 n t3 c3)|].
    rewrite Ht1, Hn, E, <- G2, Ht3. by rewrite <- !app_assoc.
  - intros [= <- <-]. destruct (skip_ws_lx s2 Hs2) as [? ->]. split; [done|].
    exists (t1 ++ replicate n (LSym AMP)). split; [by constructor|]. by rewrite Ht1, Hn, app_assoc.
Qed.

(** *** Every derivable line is found *)

Definition follow_pipe (ts : list ltok) : Prop := ends ts /\ next_in [BAR] ts = false.
Definition follow_line (ts : list ltok) : Prop := ts = [] \/ exists ts', ts = LSym RPAR :: ts'.

Lemma ends_sym c ts : c ∈ [BAR; RPAR; AMP; SEMI] -> ends (LSym c :: ts).
Proof. intros Hc. right. simpl. apply chr_in_elem; [by repeat constructor|done]. Qed.

Lemma follow_amp n ts : follow_line ts -> follow_pipe (replicate n (LSym AMP) ++ ts).
Proof.
  intros [-> |[ts' ->]]; destruct n; simpl; (split; [|done]); try (apply ends_sym; set_solver). by left.
Qed.

Lemma follow_amp_semi n ts : follow_pipe (replicate n (LSym AMP) ++ LSym SEMI :: ts).
Proof. destruct n; simpl; (split; [apply ends_sym; set_solver|done]). Qed.

Lemma ends_not_lpar ts : ends ts -> next_in [LPAR] ts = false.
Proof.
  intros [-> |H]; [done|]. destruct (next_in [LPAR] ts) eqn:E; [|done].
  apply next_one in E as [ts' ->]; [by vm_compute in H|done].
Qed.

Lemma simple_not_lpar t rs t' args rs' ts : g_redirs t rs -> g_args t' args rs' -> ends ts ->
  next_in [LPAR] ((t ++ t') ++ ts) = false.
Proof. intros [] [] He; try done. by apply ends_not_lpar. Qed.

(** What completeness says of one kind of parser. *)
Definition complete (t : list ltok) (c : cmd) (follow : list ltok -> Prop) (parse : list Z -> presult (cmd * list Z)) : Prop :=
  forall s ts, c_string s -> lx s = t ++ ts -> follow ts ->
    exists s', parse s = POk (c, s') /\ lx s' = ts /\ c_string s'.

Lemma exec_simple_complete t rs t' args rs' F fuel :
  g_redirs t rs -> g_args t' args rs' -> (length args < MAXARGS)%nat -> (length (t ++ t') < fuel)%nat ->
  complete (t ++ t') (redircmd (EXEC args) (rs ++ rs')) ends (parseexec es (parseline es F) fuel).
Proof.
  intros Hr Ha Hn Hf s ts Hs Hl He. rewrite parseexec_eq, Hl, (simple_not_lpar t rs t' args rs' ts) by done.
  destruct (skip_ws_lx s Hs) as [Hk1 Hk2]. rewrite length_app in Hf. rewrite Hl, <- app_assoc in Hk2.
  destruct (redirs_complete t rs Hr _ (t' ++ ts) fuel Hk1 Hk2) as (s1 & -> & Hl1 & Hs1);
    [exact (g_args_next _ _ _ _ Ha He)|lia|]. cbn [pbind].
  destruct (args_complete _ _ _ Ha 0 s1 ts fuel Hs1 Hl1 He ltac:(lia) ltac:(lia)) as (s2 & -> & Hl2 & Hs2). by exists s2.
Qed.

Lemma exec_block_complete t c t' rs F fuel :
  complete t c follow_line (parseline es F) -> g_redirs t' rs -> (length t' < fuel)%nat ->
  complete (LSym LPAR :: t ++ LSym RPAR :: t') (redircmd c rs) ends (parseexec es (parseline es F) fuel).
Proof.
  intros Hc Hr Hf s ts Hs Hl He. cbn [app] in Hl. rewrite <- app_assoc in Hl. rewrite parseexec_eq, Hl by done. cbn [app next_in].
  change (chr_in [LPAR] LPAR) with true. cbn iota. destruct (skip_ws_lx s Hs) as [Hk1 Hk2]. rewrite Hl in Hk2.
  rewrite (parseblock_eq _ _ _ _ Hk1 Hk2). destruct (one_token _ _ _ Hk1 Hk2) as [H1 H2].
  destruct (Hc _ _ H1 H2) as (s1 & -> & Hl1 & Hs1); [right; by eexists|]. cbn [pbind].
  rewrite peek_take by (done || auto with sh). rewrite Hl1. cbn [app next_in]. change (chr_in [RPAR] RPAR) with true. cbn iota.
  destruct (one_token s1 _ _ Hs1 Hl1) as [G1 G2].
  destruct (redirs_complete t' rs Hr _ ts fuel G1 G2) as (s2 & -> & Hl2 & Hs2); [by apply ends_not_redir|done|]. by exists s2.
Qed.

Lemma pipe_one_complete t c F fuel :
  complete t c ends (parseexec es (parseline es F) fuel) -> complete t c follow_pipe (parsepipe es (parseline es F) (S fuel)).
Proof.
  intros Hc s ts Hs Hl [He Hb]. rewrite parsepipe_eq by (done || apply line_sound).
  destruct (Hc s ts Hs Hl He) as (s1 & -> & Hl1 & Hs1). cbn [pbind]. rewrite Hl1, Hb.
  exists (skip_ws s1). destruct (skip_ws_lx s1 Hs1) as [? ->]. by rewrite Hl1.
Qed.

Lemma pipe_bar_complete t c t' c' F fuel :
  complete t c ends (parseexec es (parseline es F) fuel) -> complete t' c' follow_pipe (parsepipe es (parseline es F) fuel) ->
  complete (t ++ LSym BAR :: t') (PIPE c c') follow_pipe (parsepipe es (parseline es F) (S fuel)).
Proof.
  intros Hc Hc' s ts Hs Hl Hfo. rewrite parsepipe_eq by (done || apply line_sound). rewrite <- app_assoc in Hl.
  destruct (Hc s _ Hs Hl) as (s1 & -> & Hl1 & Hs1); [apply ends_sym; set_solver|]. cbn [pbind].
  rewrite Hl1. cbn [app next_in]. change (chr_in [BAR] BAR) with true. cbn iota. destruct (one_token s1 _ _ Hs1 Hl1) as [G1 G2].
  destruct (Hc' _ _ G1 G2 Hfo) as (s2 & -> & Hl2 & Hs2). by exists s2.
Qed.

Lemma back_complete n c s ts fuel : c_string s -> lx s = replicate n (LSym AMP) ++ ts -> next_in [AMP] ts = false ->
  (n < fuel)%nat -> exists s', parseback fuel c s = POk (Nat.iter n BACK c, s') /\ lx s' = ts /\ c_string s'.
Proof.
  revert n c s. induction fuel as [|fuel IH]; intros n c s Hs Hl Hts Hf; [lia|]. rewrite parseback_eq, Hl by done.
  destruct n as [|n]; cbn [replicate app].
  - rewrite Hts. exists (skip_ws s). destruct (skip_ws_lx s Hs) as [? ->]. by rewrite Hl.
  - cbn [next_in]. change (chr_in [AMP] AMP) with true. cbn iota. destruct (one_token s _ _ Hs Hl) as [G1 G2].
    destruct (IH n (BACK c) _ G1 G2 Hts ltac:(lia)) as (s' & -> & ? & ?). exists s'. by rewrite iter_BACK.
Qed.

Lemma line_end_complete t c n fuel :
  complete t c follow_pipe (parsepipe es (parseline es fuel) fuel) -> (n < fuel)%nat ->
  complete (t ++ replicate n (LSym AMP)) (Nat.iter n BACK c) follow_line (parseline es (S fuel)).
Proof.
  intros Hc Hn s ts Hs Hl Hfo. cbn [parseline]. rewrite <- app_assoc in Hl.
  destruct (Hc s _ Hs Hl) as (s1 & -> & Hl1 & Hs1); [by apply follow_amp|]. cbn [pbind].
  destruct (back_complete n c s1 ts fuel Hs1 Hl1) as (s2 & -> & Hl2 & Hs2); [by destruct Hfo as [-> |[? ->]]|done|].
  cbn [pbind]. rewrite peek_take by (done || auto with sh). rewrite Hl2.
  assert (next_in [SEMI] ts = false) as -> by by destruct Hfo as [-> |[? ->]].
  exists (skip_ws s2). destruct (skip_ws_lx s2 Hs2) as [? ->]. by rewrite Hl2.
Qed.

Lemma line_seq_complete t c n t' c' fuel :
  complete t c follow_pipe (parsepipe es (parseline es fuel) fuel) -> (n < fuel)%nat ->
  complete t' c' follow_line (parseline es fuel) ->
  complete (t ++ replicate n (LSym AMP) ++ LSym SEMI :: t') (LIST (Nat.iter n BACK c) c') follow_line (parseline es (S fuel)).
Proof.
  intros Hc Hn Hc' s ts Hs Hl Hfo. cbn [parseline]. rewrite <- !app_assoc in Hl. cbn [app] in Hl.
  destruct (Hc s _ Hs Hl) as (s1 & -> & Hl1 & Hs1); [apply follow_amp_semi|]. cbn [pbind].
  destruct (back_complete n c s1 _ fuel Hs1 Hl1) as (s2 & -> & Hl2 & Hs2); [done|done|].
  cbn [pbind]. rewrite peek_take by (done || auto with sh). rewrite Hl2. cbn [next_in]. change (chr_in [SEMI] SEMI) with true. cbn iota.
  destruct (one_token s2 _ _ Hs2 Hl2) as [G1 G2]. destruct (Hc' _ _ G1 G2 Hfo) as (s3 & -> & Hl3 & Hs3). by exists s3.
Qed.

Lemma grammar_complete :
  (forall t c, g_exec t c -> forall F fuel, (length t < fuel)%nat -> (length t + 1 <= F)%nat ->
     complete t c ends (parseexec es (parseline es F) fuel)) /\
  (forall t c, g_pipe t c -> forall F fuel, (length t + 1 < fuel)%nat -> (length t + 1 <= F)%nat ->
     complete t c follow_pipe (parsepipe es (parseline es F) fuel)) /\
  (forall t c, g_line t c -> forall fuel, (length t + 3 <= fuel)%nat ->
     complete t c follow_line (parseline es fuel)).
Proof.
  apply g_mutind; intros.
  - by apply exec_simple_complete.
  - cbn [length] in *. rewrite length_app in *. cbn [length] in *. apply exec_block_complete; [apply H0; lia|done|lia].
  - destruct fuel as [|fuel]; [lia|]. apply pipe_one_complete. apply H0; lia.
  - destruct fuel as [|fuel]; [lia|]. rewrite length_app in *. cbn [length] in *.
    apply pipe_bar_complete; [apply H0; lia|apply H2; lia].
  - destruct fuel as [|fuel]; [lia|]. rewrite length_app, length_replicate in *.
    apply line_end_complete; [apply H0; lia|lia].
  - destruct fuel as [|fuel]; [lia|]. rewrite !length_app, length_replicate in *. cbn [length] in *.
    apply line_seq_complete; [apply H0; lia|lia|apply H2; lia].
Qed.

(** *** The parsers terminate *)

Lemma finds_length P parse s c s' : finds P parse -> c_string s -> parse s = POk (c, s') ->
  c_string s' /\ (length (lx s') <= length (lx s))%nat.
Proof. intros Hf Hs Hp. destruct (Hf s c s' Hs Hp) as (? & t & _ & ->). split; [done|]. rewrite length_app. lia. Qed.

Section Fuel.
Context (pl : list Z -> presult (cmd * list Z)) (F : nat).
Hypothesis Hpl : finds g_line pl.
Hypothesis Hfuel : forall s, c_string s -> (length (lx s) + 3 <= F)%nat -> pl s <> PFuel.

Lemma block_fuel fuel s ts : c_string s -> lx s = LSym LPAR :: ts -> (length ts < fuel)%nat -> (length ts + 3 <= F)%nat ->
  parseblock es pl fuel s <> PFuel.
Proof.
  intros Hs Hl Hf HF. rewrite (parseblock_eq _ _ _ ts) by done. destruct (one_token s _ _ Hs Hl) as [H1 H2].
  pose proof (Hfuel _ H1) as Hno. rewrite H2 in Hno. specialize (Hno HF).
  destruct (pl _) as [[c1 s1]| |] eqn:Ep; try done. cbn [pbind].
  destruct (finds_length _ _ _ _ _ Hpl H1 Ep) as [Hs1 Hlen]. rewrite H2 in Hlen.
  rewrite peek_take by (done || auto with sh). destruct (next_in _ _) eqn:E; [|done].
  apply next_one in E as [ts1 E]; [|done]. destruct (one_token s1 _ _ Hs1 E) as [G1 G2]. rewrite E in Hlen. simpl in Hlen.
  pose proof (redirs_fuel fuel _ G1) as Hr. rewrite G2 in Hr. specialize (Hr ltac:(lia)).
  by destruct (parseredirs es fuel _) as [[? ?]| |].
Qed.

Lemma exec_fuel fuel s : c_string s -> (length (lx s) < fuel)%nat -> (length (lx s) + 2 <= F)%nat ->
  parseexec es pl fuel s <> PFuel.
Proof.
  intros Hs Hf HF. rewrite parseexec_eq by done. destruct (skip_ws_lx s Hs) as [Hk1 Hk2]. destruct (next_in _ _) eqn:E.
  - apply next_one in E as [ts E]; [|done]. rewrite E in Hf, HF. simpl in Hf, HF. rewrite E in Hk2.
    apply (block_fuel fuel _ ts); [done|done|lia|lia].
  - pose proof (redirs_fuel fuel _ Hk1) as Hr. rewrite Hk2 in Hr. specialize (Hr Hf).
    destruct (parseredirs es fuel _) as [[rs1 s1]| |] eqn:Er; try done. cbn [pbind].
    destruct (redirs_sound _ _ _ _ Hk1 Er) as (Hs1 & t1 & _ & Ht1). rewrite Hk2 in Ht1.
    assert (Ha : parseargs es fuel 0 s1 <> PFuel) by (apply args_fuel; [done|rewrite Ht1, length_app in Hf; lia]).
    by destruct (parseargs es fuel 0 s1) as [[[? ?] ?]| |].
Qed.

Lemma pipe_fuel fuel s : c_string s -> (length (lx s) + 1 < fuel)%nat -> (length (lx s) + 2 <= F)%nat ->
  parsepipe es pl fuel s <> PFuel.
Proof.
  revert s. induction fuel as [|fuel IH]; intros s Hs Hf HF; [lia|]. rewrite parsepipe_eq by done.
  pose proof (exec_fuel fuel s Hs ltac:(lia) HF) as He.
  destruct (parseexec es pl fuel s) as [[c1 s1]| |] eqn:Ee; try done. cbn [pbind].
  destruct (finds_length _ _ _ _ _ (exec_sound pl fuel Hpl) Hs Ee) as [Hs1 Hlen]. destruct (next_in _ _) eqn:E; [|done].
  apply next_one in E as [ts E]; [|done]. destruct (one_token s1 _ _ Hs1 E) as [G1 G2]. rewrite E in Hlen. simpl in Hlen.
  specialize (IH _ G1). rewrite G2 in IH. specialize (IH ltac:(lia) ltac:(lia)).
  by destruct (parsepipe es pl fuel _) as [[? ?]| |].
Qed.
End Fuel.

Lemma back_fuel fuel c s : c_string s -> (length (lx s) < fuel)%nat -> parseback fuel c s <> PFuel.
Proof.
  revert c s. induction fuel as [|fuel IH]; intros c s Hs Hf; [lia|]. rewrite parseback_eq by done.
  destruct (next_in _ _) eqn:E; [|done]. apply next_one in E as [ts E]; [|done].
  destruct (one_token s _ _ Hs E) as [G1 G2]. apply IH; [done|]. rewrite E in Hf. rewrite G2. simpl in Hf. lia.
Qed.

Lemma line_fuel fuel s : c_string s -> (length (lx s) + 3 <= fuel)%nat -> parseline es fuel s <> PFuel.
Proof.
  revert s. induction fuel as [|fuel IH]; intros s Hs Hf; [lia|]. cbn [parseline].
  pose proof (pipe_fuel (parseline es fuel) fuel (line_sound fuel) IH fuel s Hs ltac:(lia) ltac:(lia)) as Hp.
  destruct (parsepipe es _ fuel s) as [[c1 s1]| |] eqn:Ep; try done. cbn [pbind].
  destruct (finds_length _ _ _ _ _ (pipe_sound _ fuel (line_sound fuel)) Hs Ep) as [Hs1 Hlen].
  pose proof (back_fuel fuel c1 s1 Hs1 ltac:(lia)) as Hb.
  destruct (parseback fuel c1 s1) as [[c2 s2]| |] eqn:Eb; try done. cbn [pbind].
  destruct (back_sound _ _ _ _ _ Hs1 Eb) as (Hs2 & n & _ & Hn).
  rewrite peek_take by (done || auto with sh). destruct (next_in _ _) eqn:E; [|done].
  apply next_one in E as [ts E]; [|done]. destruct (one_token s2 _ _ Hs2 E) as [G1 G2].
  assert (Hr : parseline es fuel (gettoken s2).2 <> PFuel).
  { apply IH; [done|]. rewrite G2. rewrite Hn, E, length_app in Hlen. simpl in Hlen. lia. }
  by destruct (parseline es fuel (gettoken s2).2) as [[? ?]| |].
Qed.
End Grammar.

(** *** The parser as a whole *)

Lemma lex_length es s : (length (lex es s) <= length s)%nat.
Proof.
  unfold lex. generalize (length s) as n. intros n. revert s. induction n as [|n IH]; intros s; [done|]. simpl.
  destruct (gettoken s) as [[[t q] e] s']. destruct (mktok es t q e); simpl; [|lia]. specialize (IH s'). lia.
Qed.

Lemma lex_skip_nil es s : skip_ws s = [] -> lex es s = [].
Proof. intros Hs. rewrite lex_eq. unfold gettoken. by rewrite Hs. Qed.

(** What an accepted line says of its command. *)
Lemma parsecmd_sound s fuel c b : c_string s -> parsecmd fuel s = POk (c, b) ->
  g_line (lex (length s) s) c /\ b = nulterminate c (s ++ [0]).
Proof.
  intros Hs. unfold parsecmd. destruct (parseline _ fuel s) as [[c1 s1]| |] eqn:Ep; cbn [pbind]; try done. unfold peek.
  destruct (line_sound (length s) fuel s c1 s1 Hs Ep) as (Hs1 & t & Hg & Ht).
  destruct (skip_ws s1) eqn:Ek; [|done]. intros [= <- <-]. rewrite (lex_skip_nil _ s1 Ek), app_nil_r in Ht. by rewrite Ht.
Qed.

(** C22: The shell's parser decides its grammar.  For every line without NULs
    and with fuel for its length the parser returns; it returns a command
    exactly when the tokens of the line form a command line (pipelines of
    commands with at most nine arguments and redirections anywhere, blocks in
    parentheses, ampersands and semicolons), and the command is the one the
    grammar gives. *)
Theorem parsecmd_correct s fuel : c_string s -> (length s + 3 <= fuel)%nat ->
  parsecmd fuel s <> PFuel /\
  forall c b, parsecmd fuel s = POk (c, b) <-> g_line (lex (length s) s) c /\ b = nulterminate c (s ++ [0]).
Proof.
  intros Hs Hf. unfold parsecmd. pose proof (lex_length (length s) s) as Hlen.
  pose proof (line_fuel (length s) fuel s Hs ltac:(lia)) as Hnf. split.
  - destruct (parseline _ fuel s) as [[c1 s1]| |]; cbn [pbind]; try done. unfold peek. by destruct (skip_ws s1).
  - intros c b. split.
    + by apply parsecmd_sound.
    + intros [Hg ->]. destruct (grammar_complete (length s)) as (_ & _ & Hc).
      destruct (Hc _ _ Hg fuel ltac:(lia) s [] Hs ltac:(by rewrite app_nil_r) ltac:(by left)) as (s' & -> & Hl & Hs').
      cbn [pbind]. unfold peek. destruct (gettoken_nil (length s) s' Hs' Hl) as (q & e & Hg').
      apply gettoken_end in Hg' as [-> _]; [done|done].
Qed.

(** ** The words of a command *)

(** The spans a command refers to. *)
Fixpoint words (c : cmd) : list span :=
  match c with
  | EXEC argv => argv
  | REDIR c' file _ _ => words c' ++ [file]
  | PIPE l r => words l ++ words r
  | LIST l r => words l ++ words r
  | BACK c' => words c'
  end.

(** The characters of a span. *)
Definition slice (s : list Z) (w : span) : list Z := take (w.2 - w.1) (drop w.1 s).

Definition redir_file (r : redir) : span := match r with Redir f _ _ => f end.

Lemma words_redircmd c rs w : w ∈ words (redircmd c rs) <-> w ∈ words c \/ w ∈ redir_file <$> rs.
Proof.
  unfold redircmd. revert c. induction rs as [|[f m d] rs IH]; intros c; simpl.
  - set_solver.
  - rewrite IH. simpl. set_solver.
Qed.

Lemma g_redirs_words t rs w : g_redirs t rs -> w ∈ redir_file <$> rs -> LWord w ∈ t.
Proof. induction 1; simpl; set_solver. Qed.

Lemma g_args_words t args rs w : g_args t args rs -> w ∈ args \/ w ∈ redir_file <$> rs -> LWord w ∈ t.
Proof.
  induction 1 as [|w' t rs t' args rs' Hr Ha IH]; [set_solver|]. pose proof (g_redirs_words _ _ w Hr). rewrite fmap_app. set_solver.
Qed.

Lemma words_iter n c : words (Nat.iter n BACK c) = words c.
Proof. induction n; simpl; [done|]. done. Qed.

Lemma grammar_words :
  (forall t c, g_exec t c -> forall w, w ∈ words c -> LWord w ∈ t) /\
  (forall t c, g_pipe t c -> forall w, w ∈ words c -> LWord w ∈ t) /\
  (forall t c, g_line t c -> forall w, w ∈ words c -> LWord w ∈ t).
Proof.
  apply g_mutind.
  - intros t rs t' args rs' Hr Ha _ w. rewrite words_redircmd, fmap_app. simpl.
    pose proof (g_redirs_words _ _ w Hr). pose proof (g_args_words _ _ _ w Ha). set_solver.
  - intros t c t' rs _ IH Hr w. rewrite words_redircmd. pose proof (g_redirs_words _ _ w Hr). set_solver.
  - done.
  - intros t c t' c' _ IH _ IH' w. simpl. set_solver.
  - intros t c n _ IH w. rewrite words_iter. set_solver.
  - intros t c n t' c' _ IH _ IH' w. simpl. rewrite words_iter. set_solver.
Qed.

(** *** [nulterminate] writes a NUL after every word *)

Lemma nul_fold_length (argv : list span) buf :
  length (nul_words argv buf) = length buf.
Proof. unfold nul_words. revert buf. induction argv as [|w argv IH]; intros buf; [done|]. simpl. by rewrite IH, length_insert. Qed.

Lemma nul_fold_other (argv : list span) buf i : (forall w, w ∈ argv -> w.2 <> i) ->
  nul_words argv buf !! i = buf !! i.
Proof.
  unfold nul_words. revert buf. induction argv as [|w argv IH]; intros buf Hw; [done|]. simpl. rewrite IH by set_solver.
  apply list_lookup_insert_ne. apply Hw. set_solver.
Qed.

Lemma nul_fold_zero (argv : list span) buf i : (exists w, w ∈ argv /\ w.2 = i) \/ buf !! i = Some 0 -> (i < length buf)%nat ->
  nul_words argv buf !! i = Some 0.
Proof.
  unfold nul_words. revert buf. induction argv as [|w argv IH]; intros buf Hw Hi; simpl; [destruct Hw as [(? & ? & _)|?]; [set_solver|done]|].
  apply IH; [|by rewrite length_insert]. destruct (decide (w.2 = i)) as [<-|Hne].
  - right. by apply list_lookup_insert_eq.
  - rewrite list_lookup_insert_ne by done. destruct Hw as [(w' & Hw' & <-)|?]; [|by right].
    left. exists w'. set_solver.
Qed.

Lemma nulterminate_length c buf : length (nulterminate c buf) = length buf.
Proof.
  revert buf. induction c as [argv|c IH f m d|l IHl r IHr|l IHl r IHr|c IH]; intros buf; simpl.
  - apply nul_fold_length.
  - by rewrite length_insert, IH.
  - by rewrite IHr, IHl.
  - by rewrite IHr, IHl.
  - apply IH.
Qed.

Lemma nulterminate_other c buf i : (forall w, w ∈ words c -> w.2 <> i) -> nulterminate c buf !! i = buf !! i.
Proof.
  revert buf. induction c as [argv|c IH f m d|l IHl r IHr|l IHl r IHr|c IH]; intros buf Hw; simpl in *.
  - by apply nul_fold_other.
  - rewrite list_lookup_insert_ne; [apply IH; set_solver|apply Hw; set_solver].
  - rewrite IHr by set_solver. apply IHl. set_solver.
  - rewrite IHr by set_solver. apply IHl. set_solver.
  - by apply IH.
Qed.

Lemma nulterminate_zero c buf i : (exists w, w ∈ words c /\ w.2 = i) \/ buf !! i = Some 0 -> (i < length buf)%nat ->
  nulterminate c buf !! i = Some 0.
Proof.
  revert buf. induction c as [argv|c IH f m d|l IHl r IHr|l IHl r IHr|c IH]; intros buf Hw Hi; simpl in *.
  - by apply nul_fold_zero.
  - destruct (decide (f.2 = i)) as [<-|Hne]; [apply list_lookup_insert_eq; by rewrite nulterminate_length|].
    rewrite list_lookup_insert_ne by done. apply IH; [|done]. set_solver.
  - apply IHr; [|by rewrite nulterminate_length]. destruct Hw as [(w & [Hw|Hw]%elem_of_app & <-)|?];
      [right; apply IHl; [left; by exists w|done]|left; by exists w|right; apply IHl; [by right|done]].
  - apply IHr; [|by rewrite nulterminate_length]. destruct Hw as [(w & [Hw|Hw]%elem_of_app & <-)|?];
      [right; apply IHl; [left; by exists w|done]|left; by exists w|right; apply IHl; [by right|done]].
  - by apply IH.
Qed.

(** *** Words of a line do not touch *)

(** A rest of the line that starts behind a word. *)
Definition after_word (r : list Z) : Prop :=
  match r with [] => True | c :: _ => chr_in whitespace c = true \/ chr_in symbols c = true end.

Lemma skip_word_after s : after_word (skip_word s).
Proof.
  induction s as [|c s IH]; [done|]. simpl. destruct (negb _ && negb _) eqn:E; [done|]. simpl.
  apply andb_false_iff in E as [E|E]; apply negb_false_iff in E; [by left|by right].
Qed.

Lemma symbol_not_ws c : chr_in symbols c = true -> chr_in whitespace c = false.
Proof.
  intros H. destruct (chr_in whitespace c) eqn:E; [|done]. apply chr_in_elem in H; [|by repeat constructor].
  apply chr_in_elem in E; [|by repeat constructor]. unfold symbols, whitespace in *. cbn in *. set_solver.
Qed.

(** A word token, its first character and what is behind it. *)
Lemma gettoken_word s q e s' : gettoken s = (TWord, q, e, s') ->
  q = skip_ws s /\ (length e < length q)%nat /\ after_word e /\ s' = skip_ws e /\
  exists w, q = w ++ e /\ Forall (fun c => chr_in whitespace c = false /\ chr_in symbols c = false) w.
Proof.
  unfold gettoken. destruct (skip_ws s) as [|c s1] eqn:Es; [done|]. destruct (c =? 0); [done|].
  destruct (chr_in [_; _; _; _; _; _] c) eqn:E1; [done|]. destruct (c =? GT) eqn:E2.
  { destruct s1 as [|d s2]; [done|]. by destruct (d =? GT). }
  intros [= <- <- <-]. split; [done|]. apply skip_ws_head in Es.
  assert (Hc : chr_in symbols c = false) by by rewrite symbols_spec, E1, E2.
  cbn [skip_word]. rewrite Es, Hc. cbn [negb andb]. split_and!; [|apply skip_word_after|done|].
  - simpl. pose proof (skip_word_length s1). lia.
  - assert (Hw : exists w, s1 = w ++ skip_word s1 /\ Forall (fun c => chr_in whitespace c = false /\ chr_in symbols c = false) w).
    { clear. induction s1 as [|d s1 (w & IH & Hw)]; [by exists []|]. simpl.
      destruct (chr_in whitespace d) eqn:Ea; [by exists []|]. destruct (chr_in symbols d) eqn:Eb; [by exists []|].
      exists (d :: w). simpl. rewrite <- IH. split; [done|]. by constructor. }
    destruct Hw as (w & Hw & Hf). exists (c :: w). simpl. rewrite <- Hw. split; [done|]. by constructor.
Qed.

Section Spans.
Context (line : list Z).
Abbreviation es := (length line).

(** [s] is a rest of the line. *)
Definition rest_of_line (s : list Z) : Prop := exists p, line = p ++ s.

Lemma rest_off s : rest_of_line s -> drop (off es s) line = s /\ (off es s + length s = es)%nat.
Proof.
  intros [p ->]. unfold off. rewrite length_app, Nat.add_sub. split; [apply drop_app_length|lia].
Qed.

Lemma rest_suffix s p r : rest_of_line s -> s = p ++ r -> rest_of_line r.
Proof. intros [p' Hl] ->. exists (p' ++ p). by rewrite Hl, app_assoc. Qed.

Lemma skip_ws_suffix s : exists p, s = p ++ skip_ws s.
Proof.
  induction s as [|c s [p IH]]; [by exists []|]. simpl. destruct (chr_in _ _); [|by exists []].
  exists (c :: p). simpl. by rewrite <- IH.
Qed.

Lemma rest_skip s : rest_of_line s -> rest_of_line (skip_ws s).
Proof. intros Hs. destruct (skip_ws_suffix s) as [p Hp]. by eapply rest_suffix. Qed.

Lemma gettoken_rest s t q e s' : rest_of_line s -> gettoken s = (t, q, e, s') -> rest_of_line s'.
Proof.
  intros Hs. unfold gettoken. apply rest_skip in Hs. destruct (skip_ws s) as [|c s1] eqn:Es.
  { intros [= <- <- <- <-]. done. }
  assert (H1 : rest_of_line s1) by (by apply (rest_suffix (c :: s1) [c])).
  destruct (c =? 0); [intros [= <- <- <- <-]; by apply (rest_skip (c :: s1))|].
  destruct (chr_in [_; _; _; _; _; _] c); [intros [= <- <- <- <-]; by apply rest_skip|].
  destruct (c =? GT).
  { destruct s1 as [|d s2]; [intros [= <- <- <- <-]; done|].
    destruct (d =? GT); intros [= <- <- <- <-]; [apply rest_skip; by apply (rest_suffix (d :: s2) [d])|by apply (rest_skip (d :: s2))]. }
  intros [= <- <- <- <-]. apply rest_skip.
  assert (Hw : forall r, rest_of_line r -> rest_of_line (skip_word r)); [|by apply (Hw (c :: s1))].
  intros r. induction r as [|d r IH]; [done|]. intros Hr. simpl. destruct (_ && _); [|done].
  apply IH. by apply (rest_suffix (d :: r) [d]).
Qed.

(** A word of the line. *)
Definition is_word (w : span) : Prop :=
  (w.1 < w.2 <= es)%nat /\ Forall (fun c => chr_in whitespace c = false /\ chr_in symbols c = false) (slice line w).

Lemma lex_words n s w : (length s <= n)%nat -> rest_of_line s -> LWord w ∈ lex es s -> (off es s <= w.1)%nat /\ is_word w.
Proof.
  revert s. induction n as [n IH] using lt_wf_ind. intros s Hn Hs. rewrite lex_eq.
  destruct (gettoken s) as [[[t q] e] s'] eqn:Hg. destruct (mktok es t q e) as [k|] eqn:Hk; [|by intros ?%not_elem_of_nil].
  assert (Hlen : (length s' < length s)%nat) by (eapply gettoken_length; [done|by intros ->]).
  pose proof (gettoken_rest _ _ _ _ _ Hs Hg) as Hs'. destruct (rest_off s Hs) as [_ Ho]. destruct (rest_off s' Hs') as [_ Ho'].
  intros [<-|Hw]%elem_of_cons.
  - destruct t; simplify_eq/=. destruct (gettoken_word _ _ _ _ Hg) as (-> & Hlt & _ & _ & p & Hq & Hp).
    pose proof (rest_skip s Hs) as Hr. destruct (rest_off _ Hr) as [Hd Hro]. pose proof (skip_ws_length s).
    pose proof (rest_suffix _ _ _ Hr Hq) as Hre. destruct (rest_off _ Hre) as [_ Heo].
    split; [simpl; lia|]. split; [simpl; lia|]. unfold slice. simpl. rewrite Hd.
    assert (off es e - off es (skip_ws s) = length p)%nat as -> by (pose proof (f_equal length Hq) as Hql; rewrite length_app in Hql; lia).
    by rewrite Hq, take_app_length.
  - destruct (IH (length s') ltac:(lia) s' ltac:(lia) Hs' Hw) as [H1 H2]. split; [lia|done].
Qed.

(** Behind a word the next word starts after a gap. *)
Lemma lex_after e w : rest_of_line e -> after_word e -> LWord w ∈ lex es e -> (off es e < w.1)%nat.
Proof.
  intros He Ha Hw. destruct (rest_off e He) as [_ Ho]. destruct e as [|c e].
  { rewrite lex_eq in Hw. cbn in Hw. by apply not_elem_of_nil in Hw. }
  destruct (chr_in whitespace c) eqn:Ews.
  - rewrite <- lex_skip in Hw. pose proof (rest_skip _ He) as Hr. destruct (rest_off _ Hr) as [_ Hro].
    destruct (lex_words _ _ w (le_n _) Hr Hw) as [H _]. simpl in Hro, H, Ho. rewrite Ews in Hro, H.
    pose proof (skip_ws_length e). lia.
  - destruct Ha as [Ha|Ha]; [congruence|]. rewrite lex_eq in Hw.
    destruct (gettoken (c :: e)) as [[[t q] r] s'] eqn:Hg. destruct (mktok es t q r) as [k|] eqn:Hk; [|by apply not_elem_of_nil in Hw].
    assert (Hlen : (length s' < length (c :: e))%nat) by (eapply gettoken_length; [done|by intros ->]).
    pose proof (gettoken_rest _ _ _ _ _ He Hg) as Hs'. destruct (rest_off s' Hs') as [_ Ho'].
    apply elem_of_cons in Hw as [<-|Hw].
    + destruct t; simplify_eq/=. destruct (gettoken_word _ _ _ _ Hg) as (-> & Hlt & _ & _ & p & Hq & Hp).
      simpl in Hq, Hlt. rewrite Ews in Hq, Hlt. destruct p as [|d p]; simplify_eq/=; [lia|].
      apply Forall_cons_iff in Hp as [[_ Hp] _]. congruence.
    + destruct (lex_words _ _ w (le_n _) Hs' Hw) as [H _]. lia.
Qed.

(** Two words of a line are the same or have a gap between them. *)
Lemma lex_gap n s w w' : (length s <= n)%nat -> rest_of_line s -> LWord w ∈ lex es s -> LWord w' ∈ lex es s ->
  w = w' \/ (w.2 < w'.1)%nat \/ (w'.2 < w.1)%nat.
Proof.
  revert s. induction n as [n IH] using lt_wf_ind. intros s Hn Hs. rewrite lex_eq.
  destruct (gettoken s) as [[[t q] e] s'] eqn:Hg. destruct (mktok es t q e) as [k|] eqn:Hk; [|by intros ?%not_elem_of_nil].
  assert (Hlen : (length s' < length s)%nat) by (eapply gettoken_length; [done|by intros ->]).
  pose proof (gettoken_rest _ _ _ _ _ Hs Hg) as Hs'.
  assert (Hafter : forall v u, LWord v = k -> LWord u ∈ lex es s' -> (v.2 < u.1)%nat).
  { intros v u <- Hu. destruct t; simplify_eq/=. destruct (gettoken_word _ _ _ _ Hg) as (-> & _ & Ha & -> & p & Hq & _).
    rewrite lex_skip in Hu. apply lex_after; [|done|done]. exact (rest_suffix _ p e (rest_skip s Hs) Hq). }
  intros [H1|H1]%elem_of_cons [H2|H2]%elem_of_cons.
  - left. congruence.
  - right. left. by apply Hafter.
  - right. right. by apply Hafter.
  - by apply (IH (length s') ltac:(lia) s').
Qed.
End Spans.

Lemma until_nul_prefix b p : Forall (fun c => c <> 0) p -> until_nul (p ++ 0 :: b) = p.
Proof. induction 1 as [|c p Hc Hp IH]; [done|]. simpl. rewrite (proj2 (Z.eqb_neq _ _)) by done. by rewrite IH. Qed.

(** The command a parsed line runs has the words of the line: after
    [nulterminate] has overwritten the line, the C string at the start of
    every argument and file name is exactly that word of the original line,
    which is not empty and has no blank or symbol in it.  No terminator falls
    into another word. *)
Lemma parsed_words s fuel c b w : c_string s -> parsecmd fuel s = POk (c, b) -> w ∈ words c ->
  is_word s w /\ until_nul (drop w.1 b) = slice s w.
Proof.
  intros Hs Hp Hw. destruct (parsecmd_sound s fuel c b Hs Hp) as [Hg ->].
  destruct grammar_words as (_ & _ & Hgw). assert (Hr : rest_of_line s s) by by exists [].
  assert (Hall : forall v, v ∈ words c -> LWord v ∈ lex (length s) s) by (intros v; by apply Hgw).
  destruct (lex_words s _ s w (le_n _) Hr (Hall w Hw)) as [_ Hiw]. split; [done|]. destruct Hiw as [Hlt _].
  set (b := nulterminate c (s ++ [0])).
  assert (Hb : drop w.1 b = slice s w ++ 0 :: drop (S w.2) b).
  { assert (Hz : b !! w.2 = Some 0).
    { apply nulterminate_zero; [left; by exists w|rewrite length_app; simpl; lia]. }
    rewrite <- (drop_S b 0 w.2 Hz). rewrite <- (take_drop (w.2 - w.1) (drop w.1 b)), drop_drop.
    replace (w.1 + (w.2 - w.1))%nat with w.2 by lia. f_equal. unfold slice.
    apply list_eq. intros i. destruct (decide (i < w.2 - w.1)%nat); [|by rewrite !lookup_take_ge by lia].
    rewrite !lookup_take_lt, !lookup_drop by done. unfold b. rewrite nulterminate_other; [by rewrite lookup_app_l by lia|].
    intros v Hv Hvi. destruct (lex_words s _ s v (le_n _) Hr (Hall v Hv)) as [_ [Hv1 _]].
    destruct (lex_gap s _ s w v (le_n _) Hr (Hall w Hw) (Hall v Hv)) as [<-|[?|?]]; lia. }
  rewrite Hb. apply until_nul_prefix. by apply Forall_take, Forall_drop.
Qed.

Definition demo_line : list Z := chars "ls -l >x; (a|b <c) &".
Lemma demo_parse : parsecmd 40 demo_line = POk
  (LIST (REDIR (EXEC [(0, 2); (3, 5)]%nat) (7, 8)%nat 513 1)
        (BACK (PIPE (EXEC [(11, 12)]%nat) (REDIR (EXEC [(13, 14)]%nat) (16, 17)%nat 0 0))),
   chars "ls" ++ [0] ++ chars "-l" ++ [0] ++ chars ">x" ++ [0] ++ chars " (a" ++ [0] ++ chars "b" ++ [0] ++ chars "<c" ++ [0] ++ chars " &" ++ [0]).
Proof. vm_compute. reflexivity. Qed.

Lemma parsecmd_correct_witness :
  exists c, parsecmd 40 demo_line = POk (c, nulterminate c (demo_line ++ [0])) /\ g_line (lex (length demo_line) demo_line) c.
Proof.
  destruct (parsecmd_correct demo_line 40 ltac:(by repeat constructor) ltac:(vm_compute; lia)) as [_ H].
  destruct (proj1 (H _ _) demo_parse) as [Hg Hb]. eexists. split; [rewrite <- Hb; exact demo_parse|exact Hg].
Defined.
