(* ===== verification/Shrun.v ===== *)
(** * Running commands (sh.c: runcmd, fork1, panic, getcmd, main)

    A process is the tree of the system calls it makes: each node is a call
    with what the process does for each answer.  [runcmd] turns a command into
    such a process.  The processes of a command are then run on descriptor
    tables, the children of a fork included, and the theorem says which
    programs are started with which descriptors. *)

From Stdlib Require Import Ascii String.
From stdpp Require Import base numbers list option strings sets.
From S2P Require Import Prelude Kernel Cprintf Cstring Ulib Grep Sh.

(** ** Processes *)

Inductive uproc :=
  | UExit
  | UClose (fd : Z) (k : uproc)
  | UOpen (path : list Z) (mode : Z) (k : Z -> uproc)
  | UDup (fd : Z) (k : uproc)
  | UPipe (k : option (Z * Z) -> uproc)
  | UFork (k : Z -> uproc)
  | UExec (argv : list (list Z)) (k : uproc)
  | UWait (k : uproc)
  | UWrite (fd : Z) (bytes : list Z) (k : uproc)
  | UChdir (path : list Z) (k : Z -> uproc).

(** ** The code *)

Definition panic (s : string) : uproc := UWrite 2 (printf "%s" [FStr (chars s)] ++ [10]) UExit.

Definition fork1 (k : Z -> uproc) : uproc :=
  UFork (fun pid => if pid =? -1 then panic "fork" else k pid).

(** The string of a span in the line. *)
Definition word_at (b : list Z) (w : span) : list Z := until_nul (drop w.1 b).

(** [runcmd]: every branch ends in [exit]; [b] is the line. *)
Fixpoint runcmd (b : list Z) (c : cmd) : uproc :=
  match c with
  | EXEC argv =>
      match argv with
      | [] => UExit
      | a :: _ =>
          UExec (word_at b <$> argv)
            (UWrite 2 (printf "exec %s failed" [FStr (word_at b a)] ++ [10]) UExit)
      end
  | REDIR c' file mode fd =>
      UClose fd (UOpen (word_at b file) mode (fun r =>
        if r <? 0 then UWrite 2 (printf "open %s failed" [FStr (word_at b file)] ++ [10]) UExit
        else runcmd b c'))
  | LIST l r =>
      fork1 (fun pid => if pid =? 0 then runcmd b l else UWait (runcmd b r))
  | PIPE l r =>
      UPipe (fun p =>
        match p with
        | None => panic "pipe"
        | Some (p0, p1) =>
            fork1 (fun pid =>
              if pid =? 0 then UClose 1 (UDup p1 (UClose p0 (UClose p1 (runcmd b l)))) else
              fork1 (fun pid =>
                if pid =? 0 then UClose 0 (UDup p0 (UClose p0 (UClose p1 (runcmd b r)))) else
                UClose p0 (UClose p1 (UWait (UWait UExit)))))
        end)
  | BACK c' => fork1 (fun pid => if pid =? 0 then runcmd b c' else UExit)
  end.

(** [getcmd]: the prompt, and the line or the end of the input. *)
Definition getcmd (nbuf : Z) (input : list Z) : option (list Z) * list Z :=
  let '(buf, rest) := gets nbuf input in
  (if hd 0 buf =? 0 then None else Some (until_nul buf), rest).

(** The child that [main] forks for a line. *)
Definition run_child (fuel : nat) (buf : list Z) : uproc :=
  match parsecmd fuel buf with
  | POk (c, b) => runcmd b c
  | PErr out m => UWrite 2 out (panic m)
  | PFuel => UExit
  end.

(** One round of the loop of [main] on a line: [cd] is run by the shell
    itself, everything else by a child it waits for; [next] is the loop. *)
Definition run_line (fuel : nat) (buf : list Z) (next : uproc) : uproc :=
  if (nth 0 buf 0 =? 99) && (nth 1 buf 0 =? 100) && (nth 2 buf 0 =? 32) then
    let path := drop 3 (removelast buf) in
    UChdir path (fun r =>
      if r <? 0 then UWrite 2 (printf "cannot cd %s" [FStr path] ++ [10]) next else next)
  else fork1 (fun pid => if pid =? 0 then run_child fuel buf else UWait next).

(** The loop of [main] over the input, 100 bytes at most at a time. *)
Fixpoint main_loop (rounds fuel : nat) (input : list Z) : uproc :=
  match rounds with
  | O => UExit
  | S rounds' =>
      let '(line, input) := getcmd 100 input in
      UWrite 2 (chars "$ ")
        match line with
        | None => UExit
        | Some buf => run_line fuel buf (main_loop rounds' fuel input)
        end
  end.

Definition O_RDWR : Z := 0x002.

(** The loop that makes sure that three descriptors are open: each round opens
    one more, so it ends within NOFILE rounds. *)
Fixpoint open_console (rounds : nat) (k : uproc) : uproc :=
  match rounds with
  | O => k
  | S rounds' =>
      UOpen (chars "console") O_RDWR (fun fd =>
        if fd <? 0 then k else
        if 3 <=? fd then UClose fd k else open_console rounds' k)
  end.

Definition main (rounds fuel : nat) (input : list Z) : uproc :=
  open_console NOFILE (main_loop rounds fuel input).

(** ** Descriptor tables *)

(** What a descriptor refers to. *)
Inductive obj :=
  | OConsole
  | OFile (path : list Z) (mode : Z)
  | ORead (pipe : nat)
  | OWrite (pipe : nat).

Definition fds := list (option obj).

(** [fdalloc]: the lowest free descriptor. *)
Fixpoint fdalloc (t : fds) (o : obj) : option (Z * fds) :=
  match t with
  | [] => None
  | None :: t' => Some (0, Some o :: t')
  | Some x :: t' => '(fd, t'') ← fdalloc t' o; Some (fd + 1, Some x :: t'')
  end.

Definition fdclose (t : fds) (fd : Z) : fds := if fd <? 0 then t else <[Z.to_nat fd := None]> t.
Definition fdget (t : fds) (fd : Z) : option obj := if fd <? 0 then None else mjoin (t !! Z.to_nat fd).

(** What a process does that others can see. *)
Inductive event :=
  | EExec (argv : list (list Z)) (t : fds)
  | EWait (t : fds)
  | EError (bytes : list Z).

Section Run.
Context (can_open : list Z -> Z -> bool).

(** The events of a process and its children when fork, pipe and exec succeed;
    [can_open] says which files open.  [n] is the number of pipes so far. *)
Fixpoint run (n : nat) (t : fds) (p : uproc) : nat * list event :=
  match p with
  | UExit => (n, [])
  | UClose fd k => run n (fdclose t fd) k
  | UOpen path mode k =>
      if can_open path mode then
        match fdalloc t (OFile path mode) with
        | Some (fd, t') => run n t' (k fd)
        | None => run n t (k (-1))
        end
      else run n t (k (-1))
  | UDup fd k =>
      match fdget t fd with
      | Some o => match fdalloc t o with Some (_, t') => run n t' k | None => run n t k end
      | None => run n t k
      end
  | UPipe k =>
      match fdalloc t (ORead n) with
      | Some (p0, t1) =>
          match fdalloc t1 (OWrite n) with
          | Some (p1, t2) => run (S n) t2 (k (Some (p0, p1)))
          | None => run n t (k None)
          end
      | None => run n t (k None)
      end
  | UFork k =>
      let '(n1, child) := run n t (k 0) in
      let '(n2, parent) := run n1 t (k 1) in
      (n2, child ++ parent)
  | UExec argv k => (n, [EExec argv t])
  | UWait k => let '(n', es) := run n t k in (n', EWait t :: es)
  | UWrite fd bytes k => let '(n', es) := run n t k in (n', EError bytes :: es)
  | UChdir path k => run n t (k 0)
  end.

(** ** What a command means *)

(** A table with the three standard descriptors and nothing else. *)
Definition std (i o e : obj) : fds := Some i :: Some o :: Some e :: replicate 13 None.

(** The programs a command starts, each with its standard descriptors: files
    for redirections, the two ends of a new pipe for a pipeline.  A list waits
    for its first part, a pipeline for both sides. *)
Fixpoint plumb (b : list Z) (c : cmd) (n : nat) (i o e : obj) : nat * list event :=
  match c with
  | EXEC argv => (n, match argv with [] => [] | _ => [EExec (word_at b <$> argv) (std i o e)] end)
  | REDIR c' file mode fd =>
      let f := OFile (word_at b file) mode in
      if can_open (word_at b file) mode then
        if fd =? 0 then plumb b c' n f o e else plumb b c' n i f e
      else (n, [EError (printf "open %s failed" [FStr (word_at b file)] ++ [10])])
  | LIST l r =>
      let '(n1, es1) := plumb b l n i o e in
      let '(n2, es2) := plumb b r n1 i o e in
      (n2, es1 ++ EWait (std i o e) :: es2)
  | PIPE l r =>
      let '(n1, es1) := plumb b l (S n) i (OWrite n) e in
      let '(n2, es2) := plumb b r n1 (ORead n) o e in
      (n2, es1 ++ es2 ++ [EWait (std i o e); EWait (std i o e)])
  | BACK c' => plumb b c' n i o e
  end.

(** Redirections are of descriptors 0 and 1 alone. *)
Fixpoint redirs_ok (c : cmd) : Prop :=
  match c with
  | EXEC _ => True
  | REDIR c' _ _ fd => (fd = 0 \/ fd = 1) /\ redirs_ok c'
  | PIPE l r | LIST l r => redirs_ok l /\ redirs_ok r
  | BACK c' => redirs_ok c'
  end.

(** The table between [pipe] and the two forks of a pipeline. *)
Definition std2 (i o e a b : obj) : fds := Some i :: Some o :: Some e :: Some a :: Some b :: replicate 11 None.

Lemma std_reopen d i o e x : d = 0 \/ d = 1 ->
  fdalloc (fdclose (std i o e) d) x = Some (d, if d =? 0 then std x o e else std i x e).
Proof. by intros [-> | ->]. Qed.

Lemma std_pipe i o e a b : fdalloc (std i o e) a = Some (3, Some i :: Some o :: Some e :: Some a :: replicate 12 None) /\
  fdalloc (Some i :: Some o :: Some e :: Some a :: replicate 12 None) b = Some (4, std2 i o e a b).
Proof. done. Qed.

(** The tables of the two children and of the parent. *)
Lemma std2_left i o e a b n k :
  run n (std2 i o e a b) (UClose 1 (UDup 4 (UClose 3 (UClose 4 k)))) = run n (std i b e) k.
Proof. reflexivity. Qed.
Lemma std2_right i o e a b n k :
  run n (std2 i o e a b) (UClose 0 (UDup 3 (UClose 3 (UClose 4 k)))) = run n (std a o e) k.
Proof. reflexivity. Qed.
Lemma std2_parent i o e a b n k : run n (std2 i o e a b) (UClose 3 (UClose 4 k)) = run n (std i o e) k.
Proof. reflexivity. Qed.

Lemma run_fork1 n t k :
  run n t (fork1 k) = let '(n1, child) := run n t (k 0) in
                      let '(n2, parent) := run n1 t (k 1) in (n2, child ++ parent).
Proof. reflexivity. Qed.

Lemma runcmd_plumb b c n i o e : redirs_ok c -> run n (std i o e) (runcmd b c) = plumb b c n i o e.
Proof.
  revert n i o e. induction c as [argv|c IH f m d|l IHl r IHr|l IHl r IHr|c IH]; intros n i o e Hok; cbn [runcmd plumb].
  - by destruct argv.
  - destruct Hok as [Hd Hok]. cbn [run]. destruct (can_open (word_at b f) m); [|reflexivity].
    rewrite std_reopen by done. destruct Hd as [-> | ->]; cbn [Z.ltb Z.compare Z.eqb]; by rewrite IH.
  - destruct Hok as [Hl Hr]. cbn [run]. destruct (std_pipe i o e (ORead n) (OWrite n)) as [-> ->].
    rewrite run_fork1. cbn [Z.eqb]. rewrite std2_left, IHl by done.
    destruct (plumb b l (S n) i (OWrite n) e) as [n1 es1].
    rewrite run_fork1. cbn [Z.eqb]. rewrite std2_right, IHr by done.
    destruct (plumb b r n1 (ORead n) o e) as [n2 es2]. rewrite std2_parent. cbn [run]. done.
  - destruct Hok as [Hl Hr]. rewrite run_fork1. cbn [Z.eqb]. rewrite IHl by done.
    destruct (plumb b l n i o e) as [n1 es1]. cbn [run]. rewrite IHr by done. by destruct (plumb b r n1 i o e).
  - rewrite run_fork1. cbn [Z.eqb]. rewrite IH by done. destruct (plumb b c n i o e) as [n1 es1]. cbn [run]. by rewrite app_nil_r.
Qed.
End Run.

(** One round of that loop. *)
Lemma open_console_step can_open n t k rounds fd t' :
  can_open (chars "console") O_RDWR = true -> fdalloc t (OFile (chars "console") O_RDWR) = Some (fd, t') -> 0 <= fd ->
  run can_open n t (open_console (S rounds) k) =
    run can_open n t' (if 3 <=? fd then UClose fd k else open_console rounds k).
Proof.
  intros Hc Ht Hfd. cbn [open_console run]. rewrite Hc, Ht. by rewrite (proj2 (Z.ltb_ge _ _) Hfd).
Qed.

(** The shell is started with some of the descriptors 0, 1 and 2 open, and
    reads its first line with all three: those it had, and the console. *)
Lemma open_console_run can_open l n k :
  can_open (chars "console") O_RDWR = true -> (length l <= 3)%nat ->
  run can_open n ((Some <$> l) ++ replicate (16 - length l) None) (open_console NOFILE k) =
  run can_open n ((Some <$> l) ++ replicate (3 - length l) (Some (OFile (chars "console") O_RDWR)) ++ replicate 13 None) k.
Proof.
  intros Hc Hl. change NOFILE with 16%nat.
  destruct l as [|x [|y [|z [|w l]]]]; [..|simpl in Hl; lia];
    repeat (erewrite open_console_step by (done || reflexivity);
      match goal with |- context [if ?b then _ else _] => let v := eval vm_compute in b in change b with v end;
      cbv iota); reflexivity.
Qed.

(** ** Lines *)

Lemma redircmd_ok c rs : redirs_ok c -> Forall (fun '(Redir _ _ fd) => fd = 0 \/ fd = 1) rs -> redirs_ok (redircmd c rs).
Proof.
  intros Hc Hr. unfold redircmd. revert c Hc. induction Hr as [|[f m d] rs Hd Hr IH]; intros c Hc; [done|]. simpl. by apply IH.
Qed.

Lemma g_redirs_ok t rs : g_redirs t rs -> Forall (fun '(Redir _ _ fd) => fd = 0 \/ fd = 1) rs.
Proof. induction 1; constructor; auto. Qed.

Lemma g_args_ok t args rs : g_args t args rs -> Forall (fun '(Redir _ _ fd) => fd = 0 \/ fd = 1) rs.
Proof. induction 1 as [|w t rs t' args rs' Hr Ha IH]; [constructor|]. apply Forall_app. split; [by eapply g_redirs_ok|done]. Qed.

Lemma iter_back_ok n c : redirs_ok c -> redirs_ok (Nat.iter n BACK c).
Proof. intros Hc. by induction n. Qed.

Lemma grammar_redirs :
  (forall t c, g_exec t c -> redirs_ok c) /\ (forall t c, g_pipe t c -> redirs_ok c) /\ (forall t c, g_line t c -> redirs_ok c).
Proof.
  apply g_mutind.
  - intros t rs t' args rs' Hr Ha _. apply redircmd_ok; [done|]. apply Forall_app. split; [by eapply g_redirs_ok|by eapply g_args_ok].
  - intros t c t' rs _ IH Hr. apply redircmd_ok; [done|]. by eapply g_redirs_ok.
  - done.
  - done.
  - intros t c n _ IH. by apply iter_back_ok.
  - intros t c n t' c' _ IH _ IH'. split; [by apply iter_back_ok|done].
Qed.

(** Only the standard descriptors are open. *)
Definition tidy (ev : event) : Prop :=
  match ev with
  | EExec _ t | EWait t => exists i o e, t = std i o e
  | EError _ => True
  end.

Lemma plumb_tidy can_open b c n i o e : Forall tidy (plumb can_open b c n i o e).2.
Proof.
  revert n i o e. induction c as [argv|c IH f m d|l IHl r IHr|l IHl r IHr|c IH]; intros n i o e; cbn [plumb].
  - destruct argv; repeat constructor. by exists i, o, e.
  - destruct (can_open _ _); [by destruct (d =? 0)|by repeat constructor].
  - specialize (IHl (S n) i (OWrite n) e). destruct (plumb _ b l _ _ _ _) as [n1 es1].
    specialize (IHr n1 (ORead n) o e). destruct (plumb _ b r _ _ _ _) as [n2 es2]. cbn [snd] in *.
    rewrite !Forall_app. split_and!; [done|done|]. repeat constructor; by exists i, o, e.
  - specialize (IHl n i o e). destruct (plumb _ b l _ _ _ _) as [n1 es1].
    specialize (IHr n1 i o e). destruct (plumb _ b r _ _ _ _) as [n2 es2]. cbn [snd] in *.
    apply Forall_app. split; [done|]. constructor; [by exists i, o, e|done].
  - apply IH.
Qed.

(** C23: The shell wires a line as it is written.  When the line parses, the
    child the shell forks for it starts exactly the programs of the command,
    with the words of the line as arguments; each program has its redirected
    files or its ends of the pipes as descriptors 0 and 1, a list waits for
    its first part and a pipeline for both sides, and every program and every
    waiting process has no descriptor open beside 0, 1 and 2, so that no
    spare end of a pipe keeps its reader from seeing the end. *)
Theorem shell_wiring can_open s fuel c b n i o e : c_string s -> parsecmd fuel s = POk (c, b) ->
  run can_open n (std i o e) (run_child fuel s) = plumb can_open b c n i o e /\
  Forall tidy (run can_open n (std i o e) (run_child fuel s)).2 /\
  forall w, w ∈ words c -> word_at b w = slice s w.
Proof.
  intros Hs Hp. destruct (parsecmd_sound s fuel c b Hs Hp) as [Hg Hb].
  assert (Hrun : run can_open n (std i o e) (run_child fuel s) = plumb can_open b c n i o e).
  { unfold run_child. rewrite Hp. apply runcmd_plumb. by eapply grammar_redirs. }
  split_and!; [done|rewrite Hrun; apply plumb_tidy|]. intros w Hw. by apply (parsed_words s fuel c b w).
Qed.

Definition demo_pipe : list Z := chars "ls|wc >x".

Lemma demo_pipe_parse : parsecmd 20 demo_pipe =
  POk (PIPE (EXEC [(0, 2)%nat]) (REDIR (EXEC [(3, 5)%nat]) (7, 8)%nat 513 1), nulterminate
    (PIPE (EXEC [(0, 2)%nat]) (REDIR (EXEC [(3, 5)%nat]) (7, 8)%nat 513 1)) (demo_pipe ++ [0])).
Proof. vm_compute. reflexivity. Qed.

Lemma shell_wiring_witness :
  (run (fun _ _ => true) 0 (std OConsole OConsole OConsole) (run_child 20 demo_pipe)).2 =
  [EExec [chars "ls"] (std OConsole (OWrite 0) OConsole);
   EExec [chars "wc"] (std (ORead 0) (OFile (chars "x") 513) OConsole);
   EWait (std OConsole OConsole OConsole); EWait (std OConsole OConsole OConsole)].
Proof.
  destruct (shell_wiring (fun _ _ => true) demo_pipe 20 _ _ 0 OConsole OConsole OConsole
    ltac:(by repeat constructor) demo_pipe_parse) as [-> _]. vm_compute. reflexivity.
Defined.
