(* ===== verification/Usys.v ===== *)
(** * Programs and their system calls (user.h, usys.S, printf.c, ulib.c: stat)

    A user program is an interaction tree over the system calls of user.h.  The
    system is a function that answers a call from a state of the world; a call
    that does not return ([exit], an [exec] that succeeds, a wait that never
    ends) stops the program in that state.  Against such a system a program
    returns or stops, and the lemmas here run one call, one sequence and one
    round of a loop at a time.

    [does] is the view without a system: the calls a program makes for given
    answers, one after the other.

    [Descriptors] is what programs rely on of the calls on descriptors: reads
    deliver the input in pieces of any size up to the one asked for, writes
    append, open and close add and remove a descriptor. *)

From Stdlib Require Import Ascii String.
From stdpp Require Import base numbers list option strings gmap.
From S2P Require Import Prelude Kernel Cprintf Cstring Ulib.
From ITree Require Import ITree ITreeFacts Events.State Events.StateFacts.

(** ** Calls *)

(** struct stat, without the device. *)
Record ustat := MkUstat { st_type : Z; st_ino : Z; st_size : Z }.

(** A call with its arguments, and the type of its answer.  [read] answers the
    bytes it stored or the error; [fstat], [pipe] and [waitx] what they stored. *)
Inductive sysE : Type -> Type :=
  | Fork : sysE Z
  | Exit : sysE Empty_set
  | Wait : sysE Z
  | Waitx : sysE (option (Z * Z * Z))
  | Pipe : sysE (option (Z * Z))
  | Write (fd : Z) (bytes : list Z) : sysE Z
  | Read (fd n : Z) : sysE (option (list Z))
  | Close (fd : Z) : sysE Z
  | Kill (pid : Z) : sysE Z
  | Exec (path : list Z) (argv : list (list Z)) : sysE Z
  | Open (path : list Z) (mode : Z) : sysE Z
  | Mknod (path : list Z) (major minor : Z) : sysE Z
  | Unlink (path : list Z) : sysE Z
  | Fstat (fd : Z) : sysE (option ustat)
  | Link (old new : list Z) : sysE Z
  | Mkdir (path : list Z) : sysE Z
  | Chdir (path : list Z) : sysE Z
  | Dup (fd : Z) : sysE Z
  | Getpid : sysE Z
  | Sbrk (n : Z) : sysE Z
  | Sleep (n : Z) : sysE Z
  | Uptime : sysE Z.

Definition prog (R : Type) : Type := itree sysE R.

Declare Scope u_scope.
Delimit Scope u_scope with u.
Notation "x <- c ;; k" := (ITree.bind c (fun x => k))
  (at level 100, c at next level, right associativity) : u_scope.
Notation "c ;; k" := (ITree.bind c (fun _ => k))
  (at level 100, right associativity) : u_scope.

Definition call {T} (e : sysE T) : prog T := ITree.trigger e.
Definition return_ {T} (x : T) : prog T := Ret x.

Section programs.
Local Open Scope u_scope.

Definition exit {T} : prog T := v <- call Exit ;; match (v : Empty_set) return prog T with end.

(** [for]: the body for the elements of a list in order. *)
Fixpoint for_each {A} (f : A -> prog unit) (l : list A) : prog unit :=
  match l with
  | [] => return_ tt
  | x :: l' => f x ;; for_each f l'
  end.

(** [printf] writes its characters one at a time. *)
Definition putc (fd c : Z) : prog unit := call (Write fd [c]) ;; return_ tt.
Definition fprintf (fd : Z) (fmt : string) (args : list fmtarg) : prog unit := for_each (putc fd) (printf fmt args).

(** A format that ends in a newline. *)
Definition line (fmt : string) : string := String.append fmt (String "010" EmptyString).

(** [stat] of ulib.c; 0 is O_RDONLY. *)
Definition stat (n : list Z) : prog (option ustat) :=
  fd <- call (Open n 0) ;;
  if fd <? 0 then return_ None else
  r <- call (Fstat fd) ;;
  call (Close fd) ;;
  return_ r.

End programs.

(** ** Running a program *)

Class System (W : Type) := sys : forall {T}, sysE T -> W -> W * option T.

(** The event in which a program that does not go on leaves the world. *)
Inductive haltE (W : Type) : Type -> Type := Halt (w : W) : haltE W Empty_set.
Arguments Halt {W}.

Section run.
Context {W : Type} `{!System W}.

Definition halted {R} (w : W) : itree (haltE W) R := Vis (Halt w) (fun v : Empty_set => match v with end).

Definition handle T (e : sysE T) : Monads.stateT W (itree (haltE W)) T := fun w =>
  match sys e w with
  | (w', Some a) => Ret (w', a)
  | (w', None) => halted w'
  end.

Definition exec_in {R} (t : prog R) (w : W) : itree (haltE W) (W * R) := interp_state handle t w.

(** [t] returns [r] and leaves the world [w']; [t] stops in the world [w']. *)
Definition returns {R} (t : prog R) (w w' : W) (r : R) : Prop := exec_in t w ≈ Ret (w', r).
Definition halts {R} (t : prog R) (w w' : W) : Prop := exec_in t w ≈ halted w'.

Lemma halted_bind {A B} (w : W) (k : A -> itree (haltE W) B) : ITree.bind (halted w) k ≈ halted w.
Proof. unfold halted. rewrite bind_vis. apply eqit_Vis. intros []. Qed.

Lemma returns_ret {R} (r : R) w : returns (return_ r) w w r.
Proof. unfold returns, exec_in, return_. by rewrite interp_state_ret. Qed.

Lemma returns_bind {A B} (t : prog A) (k : A -> prog B) w w1 w2 a b :
  returns t w w1 a -> returns (k a) w1 w2 b -> returns (ITree.bind t k) w w2 b.
Proof. unfold returns, exec_in. intros Ht Hk. by rewrite interp_state_bind, Ht, bind_ret_l. Qed.

Lemma halts_bind {A B} (t : prog A) (k : A -> prog B) w w1 w2 a :
  returns t w w1 a -> halts (k a) w1 w2 -> halts (ITree.bind t k) w w2.
Proof. unfold returns, halts, exec_in. intros Ht Hk. by rewrite interp_state_bind, Ht, bind_ret_l. Qed.

Lemma halts_first {A B} (t : prog A) (k : A -> prog B) w w1 :
  halts t w w1 -> halts (ITree.bind t k) w w1.
Proof. unfold halts, exec_in. intros Ht. rewrite interp_state_bind, Ht. apply halted_bind. Qed.

Lemma halts_assoc {A B C} (t : prog A) (k : A -> prog B) (h : B -> prog C) w w1 :
  halts (ITree.bind t (fun x => ITree.bind (k x) h)) w w1 -> halts (ITree.bind (ITree.bind t k) h) w w1.
Proof. unfold halts, exec_in. by rewrite bind_bind. Qed.

Lemma returns_call {T} (e : sysE T) w w' a : sys e w = (w', Some a) -> returns (call e) w w' a.
Proof. intros E. unfold returns, exec_in, call. rewrite interp_state_trigger. unfold handle. by rewrite E. Qed.

Lemma halts_call {T} (e : sysE T) w w' : sys e w = (w', None) -> halts (call e) w w'.
Proof. intros E. unfold halts, exec_in, call. rewrite interp_state_trigger. unfold handle. by rewrite E. Qed.

Lemma halts_exit {T} w : halts (@exit T) w (sys Exit w).1.
Proof. apply halts_first, halts_call. by destruct (sys Exit w) as [w' [[]|]]. Qed.

(** *** Loops *)

Lemma exec_step {A B} (f : A -> prog (A + B)) x y w w1 :
  returns (f x) w w1 (inl y) -> exec_in (ITree.iter f x) w ≈ exec_in (ITree.iter f y) w1.
Proof.
  unfold returns, exec_in. intros Hf. rewrite unfold_iter, interp_state_bind, Hf, bind_ret_l. cbn [fst snd].
  by rewrite interp_state_tau, tau_eutt.
Qed.
Lemma returns_step {A B} (f : A -> prog (A + B)) x y w w1 w2 b :
  returns (f x) w w1 (inl y) -> returns (ITree.iter f y) w1 w2 b -> returns (ITree.iter f x) w w2 b.
Proof. intros Hf Hy. unfold returns. by rewrite (exec_step _ _ _ _ _ Hf). Qed.
Lemma halts_step {A B} (f : A -> prog (A + B)) x y w w1 w2 :
  returns (f x) w w1 (inl y) -> halts (ITree.iter f y) w1 w2 -> halts (ITree.iter f x) w w2.
Proof. intros Hf Hy. unfold halts. by rewrite (exec_step _ _ _ _ _ Hf). Qed.
Lemma returns_stop {A B} (f : A -> prog (A + B)) x w w1 b :
  returns (f x) w w1 (inr b) -> returns (ITree.iter f x) w w1 b.
Proof. unfold returns, exec_in. intros Hf. rewrite unfold_iter, interp_state_bind, Hf, bind_ret_l. cbn [fst snd]. by rewrite interp_state_ret. Qed.
Lemma halts_loop {A B} (f : A -> prog (A + B)) x w w1 : halts (f x) w w1 -> halts (ITree.iter f x) w w1.
Proof. unfold halts, exec_in. intros Hf. rewrite unfold_iter, interp_state_bind, Hf. apply halted_bind. Qed.

(** A program does one thing: it returns one value or stops, in one world. *)
Lemma returns_det {R} (t : prog R) w w1 w2 r1 r2 : returns t w w1 r1 -> returns t w w2 r2 -> w1 = w2 /\ r1 = r2.
Proof. unfold returns. intros H1 H2. rewrite H1 in H2. by apply eutt_inv_Ret in H2 as [= -> ->]. Qed.
Lemma returns_not_halts {R} (t : prog R) w w1 w2 r : returns t w w1 r -> ~ halts t w w2.
Proof. unfold returns, halts, halted. intros H1 H2. rewrite H1 in H2. by apply eqit_inv in H2. Qed.

End run.

(** ** Descriptors *)

Class Descriptors (W : Type) `{!System W} := {
  (** the files that can be opened for reading, with their contents; *)
  files : W -> gmap (list Z) (list Z);
  (** what is still to be read from a descriptor, and what was written to it. *)
  input : W -> gmap Z (list Z);
  output : W -> gmap Z (list Z);

  read_some w fd n l : input w !! fd = Some l -> 0 < n < 2 ^ 31 ->
    exists k w', sys (Read fd n) w = (w', Some (Some (take k l))) /\ Z.of_nat k <= n /\ (l <> [] -> (0 < k)%nat) /\
      input w' = <[fd := drop k l]> (input w) /\ output w' = output w /\ files w' = files w;
  write_all w fd o b : output w !! fd = Some o ->
    exists w', sys (Write fd b) w = (w', Some (Z.of_nat (length b))) /\
      input w' = input w /\ output w' = <[fd := o ++ b]> (output w) /\ files w' = files w;
  open_file w path l : files w !! path = Some l -> (size (dom (input w) ∪ dom (output w)) < NOFILE)%nat ->
    exists fd w', sys (Open path 0) w = (w', Some fd) /\ 0 <= fd /\ input w !! fd = None /\ output w !! fd = None /\
      input w' = <[fd := l]> (input w) /\ output w' = output w /\ files w' = files w;
  open_missing w path : files w !! path = None ->
    exists fd w', sys (Open path 0) w = (w', Some fd) /\ fd < 0 /\
      input w' = input w /\ output w' = output w /\ files w' = files w;
  close_input w fd l : input w !! fd = Some l -> output w !! fd = None ->
    exists r w', sys (Close fd) w = (w', Some r) /\
      input w' = delete fd (input w) /\ output w' = output w /\ files w' = files w;
  (** the process is gone, what it wrote is not. *)
  exit_keeps w : output (sys Exit w).1 = output w;
}.

(** The world after a program has read from and written to some descriptors. *)
Definition moved {W} `{!System W, !Descriptors W} (w w' : W) (i o : gmap Z (list Z)) : Prop :=
  input w' = i /\ output w' = o /\ files w' = files w.

(** Goals on [moved] follow from what the steps did. *)
Ltac moves := unfold moved in *; split_and?; congruence.

Section output.
Context {W : Type} `{!System W, !Descriptors W}.

(** [printf] appends its characters, and keeps what writes keep. *)
Lemma fprintf_keeps (P : W -> Prop) w fd o fmt args :
  (forall w b, P w -> P (sys (Write fd b) w).1) -> P w -> output w !! fd = Some o ->
  exists w', returns (fprintf fd fmt args) w w' tt /\ P w' /\ moved w w' (input w) (<[fd := o ++ printf fmt args]> (output w)).
Proof.
  unfold fprintf. generalize (printf fmt args). intros l HP. revert w o. induction l as [|c l IH]; intros w o Hw Ho; cbn [for_each].
  - exists w. split_and!; [apply returns_ret|done|]. split_and!; [done| |done]. by rewrite app_nil_r, insert_id.
  - destruct (write_all w fd o [c] Ho) as (w1 & H1 & Hi & Ho1 & Hf). pose proof (HP w [c] Hw) as Hw1. rewrite H1 in Hw1.
    destruct (IH w1 (o ++ [c]) Hw1) as (w2 & H2 & Hw2 & Hi2 & Ho2 & Hf2); [by rewrite Ho1, lookup_insert_eq|].
    exists w2. split_and!; [|done|split_and!; [congruence| |congruence]].
    + eapply returns_bind; [|exact H2]. eapply returns_bind; [by apply returns_call|apply returns_ret].
    + by rewrite Ho2, Ho1, insert_insert_eq, <-app_assoc.
Qed.

Lemma fprintf_returns w fd o fmt args :
  output w !! fd = Some o ->
  exists w', returns (fprintf fd fmt args) w w' tt /\ moved w w' (input w) (<[fd := o ++ printf fmt args]> (output w)).
Proof. intros Ho. destruct (fprintf_keeps (fun _ => True) w fd o fmt args) as (w' & H & _ & Hm); [done..|]. by exists w'. Qed.

(** A read returns a piece of the input; nothing only at its end. *)
Lemma read_returns w fd n l :
  input w !! fd = Some l -> 0 < n < 2 ^ 31 ->
  exists w' b l', returns (call (Read fd n)) w w' (Some b) /\ l = b ++ l' /\ (b = [] -> l = []) /\
    moved w w' (<[fd := l']> (input w)) (output w).
Proof.
  intros Hl Hn. destruct (read_some w fd n l Hl Hn) as (k & w' & Hs & _ & Hk & Hm).
  exists w', (take k l), (drop k l). split_and!; [by apply returns_call|by rewrite take_drop| |exact Hm].
  intros Hb. destruct l as [|c l]; [done|]. destruct k; [|done]. specialize (Hk ltac:(done)). lia.
Qed.

Lemma write_returns w fd o b :
  output w !! fd = Some o ->
  exists w', returns (call (Write fd b)) w w' (Z.of_nat (length b)) /\ moved w w' (input w) (<[fd := o ++ b]> (output w)).
Proof. intros Ho. destruct (write_all w fd o b Ho) as (w' & Hs & Hm). exists w'. split; [by apply returns_call|exact Hm]. Qed.

(** A program that reads a descriptor to its end and stops reading there: the
    body gets the pieces one after the other. *)
Definition drains {R} (t : prog R) (fd : Z) (w w' : W) (r : R) (o : gmap Z (list Z)) : Prop :=
  returns t w w' r /\ moved w w' (<[fd := []]> (input w)) o.

(** A tool does the same for every file named: it opens it, works, closes it. *)
Lemma with_file w name l (t : Z -> prog unit) (fail : prog unit) o :
  files w !! name = Some l -> (size (dom (input w) ∪ dom (output w)) < NOFILE)%nat ->
  (forall fd w1, input w1 !! fd = Some l -> output w1 = output w -> exists w2, drains (t fd) fd w1 w2 tt o) ->
  dom o = dom (output w) ->
  exists w', returns (fd <- call (Open name 0) ;; if fd <? 0 then fail else t fd ;; call (Close fd) ;; return_ tt)%u w w' tt /\
    moved w w' (input w) o.
Proof.
  intros Hf Hs Ht Ho. destruct (open_file w name l Hf Hs) as (fd & w1 & H1 & H0 & Hi & Hn & Hi1 & Ho1 & Hf1).
  destruct (Ht fd w1) as (w2 & H2 & Hi2 & Ho2 & Hf2); [by rewrite Hi1, lookup_insert_eq|done|].
  destruct (close_input w2 fd []) as (r & w3 & H3 & Hi3 & Ho3 & Hf3).
  { by rewrite Hi2, lookup_insert_eq. }
  { rewrite Ho2. apply not_elem_of_dom. rewrite Ho. by apply not_elem_of_dom. }
  exists w3. split.
  - eapply returns_bind; [by apply returns_call|]. rewrite (proj2 (Z.ltb_ge fd 0)) by lia.
    eapply returns_bind; [exact H2|]. eapply returns_bind; [by apply returns_call|apply returns_ret].
  - split_and!; [|congruence|congruence]. by rewrite Hi3, Hi2, Hi1, insert_insert_eq, delete_insert_id.
Qed.

End output.

(** ** Traces *)

(** A call with the answer it gets. *)
Definition event : Type := { T & (sysE T * T)%type }.
Definition ev {T} (e : sysE T) (a : T) : event := existT T (e, a).

(** [does t l t']: when the system answers as in [l], the program [t] makes the
    calls of [l] in their order, and no other, and goes on as [t']. *)
Inductive does {R} : prog R -> list event -> prog R -> Prop :=
| does_nil t t' : t ≈ t' -> does t [] t'
| does_cons {T} (e : sysE T) (a : T) t k l t' : t ≈ Vis e k -> does (k a) l t' -> does t (ev e a :: l) t'.

(** The calls that write the characters [cs], whatever the answers. *)
Definition says (fd : Z) (cs : list Z) (l : list event) : Prop :=
  exists rs, length rs = length cs /\ l = zip_with (fun c a => ev (Write fd [c]) a) cs rs.

Section traces.

Lemma does_eutt {R} (t u t' : prog R) l : t ≈ u -> does u l t' -> does t l t'.
Proof.
  intros E H. destruct H as [u t' E'|T e a u k l t' E' H].
  - constructor. by rewrite E.
  - econstructor; [|exact H]. by rewrite E.
Qed.

Lemma does_eutt_r {R} (t t' u : prog R) l : does t l t' -> t' ≈ u -> does t l u.
Proof. induction 1 as [t t' E|T e a t k l t' E H IH]; intros E'; [constructor; by rewrite E|econstructor; eauto]. Qed.

Lemma does_app {R} (t t1 t2 : prog R) l1 l2 : does t l1 t1 -> does t1 l2 t2 -> does t (l1 ++ l2) t2.
Proof. induction 1 as [t t' E|T e a t k l t' E H IH]; intros H2; [by eapply does_eutt|econstructor; eauto]. Qed.

Lemma does_bind {A B} (t t' : prog A) (k : A -> prog B) l : does t l t' -> does (ITree.bind t k) l (ITree.bind t' k).
Proof.
  induction 1 as [t t' E|T e a t h l t' E H IH]; [constructor; by rewrite E|].
  apply (does_cons e a _ (fun x => ITree.bind (h x) k)); [|exact IH]. by rewrite E, bind_vis.
Qed.

(** [t] does [l] and returns [x], and the rest goes on. *)
Lemma does_then {A B} (t : prog A) (k : A -> prog B) x l l' t' :
  does t l (return_ x) -> does (k x) l' t' -> does (ITree.bind t k) (l ++ l') t'.
Proof.
  intros H H'. eapply does_app; [by apply does_bind|]. eapply does_eutt; [|exact H']. unfold return_. by rewrite bind_ret_l.
Qed.

Lemma does_call {A T} (e : sysE T) (a : T) (k : T -> prog A) l t :
  does (k a) l t -> does (ITree.bind (call e) k) (ev e a :: l) t.
Proof. intros H. econstructor; [|exact H]. unfold call. by rewrite bind_trigger. Qed.

Lemma does_return {R} (x : R) : does (return_ x) [] (return_ x).
Proof. by constructor. Qed.

Lemma exit_first {A B} (k : A -> prog B) : ITree.bind exit k ≈ exit.
Proof. unfold exit. rewrite bind_bind. apply eutt_clo_bind with (UU := eq); [done|]. intros []. Qed.

Lemma fprintf_does fd fmt args l : says fd (printf fmt args) l -> does (fprintf fd fmt args) l (return_ tt).
Proof.
  intros (rs & Hl & ->). unfold fprintf. revert rs Hl. generalize (printf fmt args). induction l as [|c l IH]; intros [|a rs] Hl; try done.
  - apply does_return.
  - cbn [zip_with for_each]. eapply (does_then (putc fd c) _ tt [ev (Write fd [c]) a]); [|apply IH; by injection Hl].
    apply does_call, does_return.
Qed.

(** A round of a loop. *)
Lemma does_round {A B} (f : A -> prog (A + B)) x y l : does (f x) l (return_ (inl y)) -> does (ITree.iter f x) l (ITree.iter f y).
Proof.
  intros H. eapply does_eutt; [by rewrite unfold_iter|]. eapply does_eutt_r; [by apply does_bind|].
  unfold return_. rewrite bind_ret_l. by rewrite tau_eutt.
Qed.

Lemma does_last {A B} (f : A -> prog (A + B)) x y l : does (f x) l (return_ (inr y)) -> does (ITree.iter f x) l (return_ y).
Proof.
  intros H. eapply does_eutt; [by rewrite unfold_iter|]. eapply does_eutt_r; [by apply does_bind|].
  unfold return_. by rewrite bind_ret_l.
Qed.

Lemma does_exits {A B} (f : A -> prog (A + B)) x l : does (f x) l exit -> does (ITree.iter f x) l exit.
Proof.
  intros H. eapply does_eutt; [by rewrite unfold_iter|]. eapply does_eutt_r; [by apply does_bind|]. apply exit_first.
Qed.

End traces.

(** ** A world *)

(** Files, descriptors, the sizes of the pieces that the next reads deliver,
    and the answers to the calls on processes that are still to come. *)
Record world := MkWorld {
  u_files : gmap (list Z) (list Z);
  u_in : gmap Z (list Z);
  u_out : gmap Z (list Z);
  u_pieces : list nat;
  u_answers : list Z;
}.

Definition u_open (w : world) : gset Z := dom (u_in w) ∪ dom (u_out w).
Definition u_free (w : world) : option Z := head (filter (fun fd => fd ∉ u_open w) (seqZ 0 (Z.of_nat NOFILE))).

(** The size of the next piece: at least one byte, at most [n]. *)
Definition piece (n : Z) (pieces : list nat) : nat :=
  match pieces with [] => Z.to_nat n | c :: _ => Nat.max 1 (Nat.min (Z.to_nat n) c) end.

Definition next_answer (w : world) : world * option Z :=
  match u_answers w with
  | [] => (w, None)
  | a :: l => (MkWorld (u_files w) (u_in w) (u_out w) (u_pieces w) l, Some a)
  end.

#[export] Instance world_system : System world := fun T e w =>
  match e in sysE T return world * option T with
  | Exit => (w, None)
  | Waitx => (w, Some None)
  | Pipe => (w, Some None)
  | Write fd b =>
      match u_out w !! fd with
      | Some o => (MkWorld (u_files w) (u_in w) (<[fd := o ++ b]> (u_out w)) (u_pieces w) (u_answers w), Some (Z.of_nat (length b)))
      | None => (w, Some (-1))
      end
  | Read fd n =>
      match u_in w !! fd with
      | Some l =>
          let k := piece n (u_pieces w) in
          (MkWorld (u_files w) (<[fd := drop k l]> (u_in w)) (u_out w) (tail (u_pieces w)) (u_answers w), Some (Some (take k l)))
      | None => (w, Some None)
      end
  | Close fd => (MkWorld (u_files w) (delete fd (u_in w)) (delete fd (u_out w)) (u_pieces w) (u_answers w), Some 0)
  | Open path mode =>
      match u_files w !! path, u_free w with
      | Some l, Some fd => (MkWorld (u_files w) (<[fd := l]> (u_in w)) (u_out w) (u_pieces w) (u_answers w), Some fd)
      | _, _ => (w, Some (-1))
      end
  | Fstat fd =>
      match u_in w !! fd with
      | Some l => (w, Some (Some (MkUstat T_FILE fd (Z.of_nat (length l)))))
      | None => (w, Some None)
      end
  | Exec _ _ | Mknod _ _ _ | Unlink _ | Link _ _ | Mkdir _ | Chdir _ | Dup _ | Sbrk _ | Sleep _ => (w, Some (-1))
  | Fork | Wait | Kill _ | Getpid | Uptime => next_answer w
  end.

Lemma u_free_some w : (size (u_open w) < NOFILE)%nat -> exists fd, u_free w = Some fd /\ 0 <= fd /\ fd ∉ u_open w.
Proof.
  intros Hs. unfold u_free. set (l := seqZ 0 (Z.of_nat NOFILE)). destruct (filter _ l) as [|fd r] eqn:E.
  - exfalso. assert (list_to_set l ⊆ u_open w) as Hl.
    { intros fd Hfd%elem_of_list_to_set. destruct (decide (fd ∈ u_open w)); [done|].
      assert (fd ∈ filter (fun fd => fd ∉ u_open w) l) as Hin by by apply list_elem_of_filter. rewrite E in Hin. by apply elem_of_nil in Hin. }
    apply subseteq_size in Hl. rewrite size_list_to_set in Hl by apply NoDup_seqZ. unfold l in Hl. rewrite length_seqZ in Hl. lia.
  - exists fd. assert (fd ∈ filter (fun fd => fd ∉ u_open w) l) as Hin by (rewrite E; by left).
    apply list_elem_of_filter in Hin as [Hn Hin]. apply elem_of_seqZ in Hin. split_and!; [done|lia|done].
Qed.

#[export] Instance world_descriptors : Descriptors world.
Proof.
  refine {| files := u_files; input := u_in; output := u_out |}.
  - intros w fd n l Hl Hn. exists (piece n (u_pieces w)). eexists. cbn [sys world_system]. rewrite Hl. split_and!; [done| |..|done]; [| |done|done].
    + unfold piece. destruct (u_pieces w); lia.
    + intros _. unfold piece. destruct (u_pieces w); lia.
  - intros w fd o b Ho. cbn [sys world_system]. rewrite Ho. by eexists.
  - intros w path l Hl Hs. destruct (u_free_some w Hs) as (fd & Hfd & H0 & Hn). exists fd. cbn [sys world_system]. rewrite Hl, Hfd.
    unfold u_open in Hn. eexists. split_and!; [done|done| | |done..]; apply not_elem_of_dom; set_solver.
  - intros w path Hn. exists (-1), w. cbn [sys world_system]. by rewrite Hn.
  - intros w fd l Hi Ho. exists 0. eexists. cbn [sys world_system]. split_and!; [done|done| |done]. cbn [u_out]. by apply delete_id.
  - done.
Defined.
