(* ===== verification/Utools.v ===== *)
(** * Tools (cat.c, wc.c, echo.c, kill.c, ln.c, mkdir.c, rm.c)

    The programs, each in a module with its functions, as trees of system
    calls.  [cat] copies and [wc] counts whatever the sizes of the pieces in
    which reads deliver the input; [echo], [kill], [ln], [mkdir] and [rm] make
    the calls their arguments ask for. *)

From Stdlib Require Import Ascii String.
From stdpp Require Import base numbers list option strings gmap.
From ITree Require Import ITree.
From S2P Require Import Prelude Kernel Cprintf Cstring Ulib Usys.

Local Open Scope u_scope.

(** ** cat.c *)

Module Cat.

Definition round (fd : Z) (_ : unit) : prog (unit + option (list Z)) :=
  r <- call (Read fd 512) ;;
  match r with
  | Some ((_ :: _) as buf) =>
      n <- call (Write 1 buf) ;;
      if negb (n =? Z.of_nat (length buf)) then
        fprintf 1 (line "cat: write error") [] ;;
        exit
      else return_ (inl tt)
  | _ => return_ (inr r)
  end.

Definition cat (fd : Z) : prog unit :=
  r <- ITree.iter (round fd) tt ;;
  match r with
  | None =>
      fprintf 1 (line "cat: read error") [] ;;
      exit
  | Some _ => return_ tt
  end.

Definition file (name : list Z) : prog unit :=
  fd <- call (Open name 0) ;;
  if fd <? 0 then
    fprintf 1 (line "cat: cannot open %s") [FStr name] ;;
    exit
  else
  cat fd ;;
  call (Close fd) ;;
  return_ tt.

Definition main (argv : list (list Z)) : prog unit :=
  match argv with
  | _ :: ((_ :: _) as names) => for_each file names ;; exit
  | _ => cat 0 ;; exit
  end.

End Cat.

(** ** wc.c *)

Module Wc.

(** The variables [l], [w], [c] and [inword]. *)
Record counts := MkCounts { lines : Z; words : Z; bytes : Z; inword : bool }.

Definition SPACES : list Z := [32; 13; 9; 10; 11].

Definition count (x : counts) (ch : Z) : counts :=
  let c := i32 (bytes x + 1) in
  let l := if ch =? 10 then i32 (lines x + 1) else lines x in
  if bool_decide (is_Some (strchr SPACES ch)) then MkCounts l (words x) c false
  else if negb (inword x) then MkCounts l (i32 (words x + 1)) c true
  else MkCounts l (words x) c (inword x).

Definition round (fd : Z) (x : counts) : prog (counts + option counts) :=
  r <- call (Read fd 512) ;;
  match r with
  | Some ((_ :: _) as buf) => return_ (inl (foldl count x buf))
  | Some [] => return_ (inr (Some x))
  | None => return_ (inr None)
  end.

Definition wc (fd : Z) (name : list Z) : prog unit :=
  r <- ITree.iter (round fd) (MkCounts 0 0 0 false) ;;
  match r with
  | None =>
      fprintf 1 (line "wc: read error") [] ;;
      exit
  | Some x => fprintf 1 (line "%d %d %d %s") [FInt (lines x); FInt (words x); FInt (bytes x); FStr name]
  end.

Definition file (name : list Z) : prog unit :=
  fd <- call (Open name 0) ;;
  if fd <? 0 then
    fprintf 1 (line "wc: cannot open %s") [FStr name] ;;
    exit
  else
  wc fd name ;;
  call (Close fd) ;;
  return_ tt.

Definition main (argv : list (list Z)) : prog unit :=
  match argv with
  | _ :: ((_ :: _) as names) => for_each file names ;; exit
  | _ => wc 0 [] ;; exit
  end.

End Wc.

(** ** echo.c, kill.c, ln.c, mkdir.c, rm.c *)

Module Echo.

Fixpoint words (argv : list (list Z)) : prog unit :=
  match argv with
  | [] => return_ tt
  | a :: argv' => fprintf 1 "%s%s" [FStr a; FStr (match argv' with [] => [10] | _ => [32] end)] ;; words argv'
  end.

Definition main (argv : list (list Z)) : prog unit := words (tail argv) ;; exit.

End Echo.

Module Kill.

Definition main (argv : list (list Z)) : prog unit :=
  match argv with
  | _ :: ((_ :: _) as pids) => for_each (fun a => call (Kill (atoi a)) ;; return_ tt) pids ;; exit
  | _ => fprintf 2 (line "usage: kill pid...") [] ;; exit
  end.

End Kill.

Module Ln.

Definition main (argv : list (list Z)) : prog unit :=
  match argv with
  | [_; old; new] =>
      r <- call (Link old new) ;;
      (if r <? 0 then fprintf 2 (line "link %s %s: failed") [FStr old; FStr new] else return_ tt) ;;
      exit
  | _ => fprintf 2 (line "Usage: ln old new") [] ;; exit
  end.

End Ln.

Module Mkdir.

Fixpoint make (names : list (list Z)) : prog unit :=
  match names with
  | [] => return_ tt
  | a :: names' =>
      r <- call (Mkdir a) ;;
      if r <? 0 then fprintf 2 (line "mkdir: %s failed to create") [FStr a] else make names'
  end.

Definition main (argv : list (list Z)) : prog unit :=
  match argv with
  | _ :: ((_ :: _) as names) => make names ;; exit
  | _ => fprintf 2 (line "Usage: mkdir files...") [] ;; exit
  end.

End Mkdir.

Module Rm.

Fixpoint remove (names : list (list Z)) : prog unit :=
  match names with
  | [] => return_ tt
  | a :: names' =>
      r <- call (Unlink a) ;;
      if r <? 0 then fprintf 2 (line "rm: %s failed to delete") [FStr a] else remove names'
  end.

Definition main (argv : list (list Z)) : prog unit :=
  match argv with
  | _ :: ((_ :: _) as names) => remove names ;; exit
  | _ => fprintf 2 (line "Usage: rm files...") [] ;; exit
  end.

End Rm.

(** ** Copying *)

Section tools.
Context {W : Type} `{!System W, !Descriptors W}.

Lemma cat_loop n : forall w fd l o, (length l <= n)%nat -> input w !! fd = Some l -> output w !! 1 = Some o ->
  exists w', drains (ITree.iter (Cat.round fd) tt) fd w w' (Some []) (<[1 := o ++ l]> (output w)).
Proof.
  induction n as [|n IH]; intros w fd l o Hn Hi Ho;
    destruct (read_returns w fd 512 l Hi ltac:(lia)) as (w1 & [|c b] & l' & H1 & -> & Hb & Hi1 & Ho1 & Hf1); try done; try (cbn in Hn; lia).
  1,2: rewrite (Hb eq_refl) in *; cbn [app] in *; rewrite Hb in * by done; exists w1; split;
    [apply returns_stop; eapply returns_bind; [exact H1|apply returns_ret]|];
    split_and!; [done| |done]; by rewrite app_nil_r, insert_id.
  destruct (write_returns w1 1 o (c :: b)) as (w2 & H2 & Hi2 & Ho2 & Hf2); [by rewrite Ho1|].
  destruct (IH w2 fd l' (o ++ c :: b)) as (w3 & H3 & Hi3 & Ho3 & Hf3).
  { cbn in Hn. rewrite length_app in Hn. lia. }
  { by rewrite Hi2, Hi1, lookup_insert_eq. }
  { by rewrite Ho2, lookup_insert_eq. }
  exists w3. split.
  - eapply returns_step; [|exact H3]. eapply returns_bind; [exact H1|]. eapply returns_bind; [exact H2|].
    rewrite Z.eqb_refl. apply returns_ret.
  - split_and!; [|by rewrite Ho3, Ho2, Ho1, insert_insert_eq, <-app_assoc|congruence].
    by rewrite Hi3, Hi2, Hi1, insert_insert_eq.
Qed.

Lemma cat_returns w fd l o :
  input w !! fd = Some l -> output w !! 1 = Some o -> exists w', drains (Cat.cat fd) fd w w' tt (<[1 := o ++ l]> (output w)).
Proof.
  intros Hi Ho. destruct (cat_loop (length l) w fd l o) as (w' & H & Hm); [done..|].
  exists w'. split; [|done]. eapply returns_bind; [exact H|apply returns_ret].
Qed.

(** *** Tools over several files *)

Definition room (w : W) : Prop := (size (dom (input w) ∪ dom (output w)) < NOFILE)%nat.

(** What a tool writes that handles its files in order and gives up at the
    first that does not open. *)
Fixpoint tool_text (fs : gmap (list Z) (list Z)) (out : list Z -> list Z -> list Z) (missing : list Z -> list Z)
    (names : list (list Z)) : list Z :=
  match names with
  | [] => []
  | name :: names' =>
      match fs !! name with
      | Some l => out name l ++ tool_text fs out missing names'
      | None => missing name
      end
  end.

Lemma moved_room w w' o0 o : moved w w' (input w) (<[1 := o]> (output w)) -> output w !! 1 = Some o0 -> room w -> room w'.
Proof. intros (Hi & Ho & _) H1. unfold room. by rewrite Hi, Ho, dom_insert_lookup_L. Qed.

Lemma each_file (ok : list Z -> Prop) (file : list Z -> prog unit) out missing :
  (forall w name l o, ok l -> files w !! name = Some l -> room w -> output w !! 1 = Some o ->
    exists w', returns (file name) w w' tt /\ moved w w' (input w) (<[1 := o ++ out name l]> (output w))) ->
  (forall w name o, files w !! name = None -> output w !! 1 = Some o ->
    exists w', halts (file name) w w' /\ output w' = <[1 := o ++ missing name]> (output w)) ->
  forall names w o, map_Forall (fun _ => ok) (files w) -> room w -> output w !! 1 = Some o ->
  exists w', halts (for_each file names ;; @exit unit) w w' /\
    output w' = <[1 := o ++ tool_text (files w) out missing names]> (output w).
Proof.
  intros Hok Hno names. induction names as [|name names IH]; intros w o Hfs Hr Ho; cbn [for_each tool_text].
  - exists (sys Exit w).1. split; [eapply halts_bind; [apply returns_ret|apply halts_exit]|].
    by rewrite exit_keeps, app_nil_r, insert_id.
  - destruct (files w !! name) as [l|] eqn:E.
    + destruct (Hok w name l o) as (w1 & H1 & Hm); [by eapply Hfs|done..|].
      destruct (IH w1 (o ++ out name l)) as (w2 & H2 & Ho2).
      { destruct Hm as (_ & _ & ->). done. }
      { by eapply moved_room. }
      { destruct Hm as (_ & -> & _). apply lookup_insert_eq. }
      destruct Hm as (_ & Ho1 & Hf1). exists w2. split.
      * apply halts_assoc. eapply halts_bind; [exact H1|exact H2].
      * by rewrite Ho2, Ho1, insert_insert_eq, Hf1, <-app_assoc.
    + destruct (Hno w name o) as (w1 & H1 & Ho1); [done..|]. exists w1. split; [|done]. by apply halts_first, halts_first.
Qed.

Lemma cat_file w name l o :
  files w !! name = Some l -> room w -> output w !! 1 = Some o ->
  exists w', returns (Cat.file name) w w' tt /\ moved w w' (input w) (<[1 := o ++ l]> (output w)).
Proof.
  intros Hf Hr Ho. eapply with_file; [done|done| |by rewrite dom_insert_lookup_L].
  intros fd w1 Hi Ho1. rewrite <-Ho1. apply cat_returns; [done|by rewrite Ho1].
Qed.

(** A message and the end of the program. *)
Lemma message_halts w fd o fmt args :
  output w !! fd = Some o ->
  exists w', halts (fprintf fd fmt args ;; @exit unit) w w' /\ output w' = <[fd := o ++ printf fmt args]> (output w).
Proof.
  intros Ho. destruct (fprintf_returns w fd o fmt args Ho) as (w1 & H1 & _ & Ho1 & _).
  exists (sys Exit w1).1. split; [eapply halts_bind; [exact H1|apply halts_exit]|by rewrite exit_keeps].
Qed.

Lemma open_fails w name o fmt args (t : Z -> prog unit) :
  files w !! name = None -> output w !! 1 = Some o ->
  exists w', halts (fd <- call (Open name 0) ;; if fd <? 0 then fprintf 1 fmt args ;; exit else t fd) w w' /\
    output w' = <[1 := o ++ printf fmt args]> (output w).
Proof.
  intros Hn Ho. destruct (open_missing w name Hn) as (fd & w1 & H1 & H0 & Hi & Ho1 & Hf).
  destruct (message_halts w1 1 o fmt args) as (w2 & H2 & Ho2); [by rewrite Ho1|].
  exists w2. split; [|congruence]. eapply halts_bind; [by apply returns_call|]. by rewrite (proj2 (Z.ltb_lt fd 0)).
Qed.

Lemma cat_main w argv l o :
  room w -> input w !! 0 = Some l -> output w !! 1 = Some o ->
  exists w', halts (Cat.main argv) w w' /\
    output w' = <[1 := o ++ match tail argv with
                            | [] => l
                            | names => tool_text (files w) (fun _ text => text)
                                         (fun name => printf (line "cat: cannot open %s") [FStr name]) names
                            end]> (output w).
Proof.
  intros Hr Hi Ho. destruct (cat_returns w 0 l o Hi Ho) as (w1 & H1 & _ & Ho1 & _).
  assert (exists w', halts (Cat.cat 0 ;; @exit unit) w w' /\ output w' = <[1 := o ++ l]> (output w)) as Hin.
  { exists (sys Exit w1).1. split; [eapply halts_bind; [exact H1|apply halts_exit]|by rewrite exit_keeps]. }
  destruct argv as [|a [|name names]]; cbn [tail Cat.main]; [done..|].
  eapply (each_file (fun _ => True)); [intros; by apply cat_file|intros; by apply open_fails|done..].
Qed.

(** [cat] copies the files it is given, in order and to the last byte, to the
    standard output, or the standard input when it is given none; a file that
    does not open ends it with a message.  This holds for any sizes of the
    pieces in which the reads deliver the bytes. *)
Theorem cat_correct w argv l o :
  room w -> input w !! 0 = Some l -> output w !! 1 = Some o ->
  exists w', halts (Cat.main argv) w w' /\
    output w' = <[1 := o ++ match tail argv with
                            | [] => l
                            | names => tool_text (files w) (fun _ text => text)
                                         (fun name => printf (line "cat: cannot open %s") [FStr name]) names
                            end]> (output w).
Proof. apply cat_main. Qed.

End tools.

(** ** Counting *)

Definition is_space (c : Z) : bool := bool_decide (c ∈ Wc.SPACES).

(** The pieces of a text between its spaces; the words are the non-empty ones. *)
Fixpoint pieces (l : list Z) : list (list Z) :=
  match l with
  | [] => [[]]
  | c :: l' => if is_space c then [] :: pieces l' else match pieces l' with p :: ps => (c :: p) :: ps | [] => [[c]] end
  end.
Definition words_of (l : list Z) : list (list Z) := filter (fun p => p <> []) (pieces l).
Definition lines_of (l : list Z) : nat := length (filter (fun c => c = 10) l).

Lemma strchr_found s c : Forall (fun x => x <> 0) s -> is_Some (strchr s c) <-> c ∈ s.
Proof.
  induction 1 as [|x s Hx Hs IH]; cbn [strchr]; [by rewrite elem_of_nil, is_Some_alt|].
  rewrite (proj2 (Z.eqb_neq x 0) Hx), elem_of_cons, <-IH. destruct (Z.eqb_spec x c); [split; [by left|by eexists]|].
  rewrite fmap_is_Some. split; [by right|]. by intros [->|].
Qed.

Lemma space_found c : bool_decide (is_Some (strchr Wc.SPACES c)) = is_space c.
Proof. apply bool_decide_ext, strchr_found. by repeat constructor. Qed.

Lemma pieces_cons l : exists p ps, pieces l = p :: ps.
Proof. destruct l as [|c l]; cbn [pieces]; [by eexists _, _|]. destruct (is_space c); [by eexists _, _|]. destruct (pieces l); by eexists _, _. Qed.

(** The words that begin in a text, when it follows another character of a word. *)
Definition new_words (inword : bool) (l : list Z) : nat :=
  if inword then length (filter (fun p => p <> []) (tail (pieces l))) else length (words_of l).

Lemma new_words_cons b c l :
  new_words b (c :: l) = if is_space c then new_words false l else ((if b then 0 else 1) + new_words true l)%nat.
Proof.
  unfold new_words, words_of. cbn [pieces]. destruct (is_space c).
  - destruct b; [done|]. by rewrite filter_cons_False by (intros H; by apply H).
  - destruct (pieces_cons l) as (p & ps & ->). destruct b; cbn [tail]; [done|]. by rewrite filter_cons_True.
Qed.

Lemma count_spec l : forall x,
  0 <= Wc.bytes x -> Wc.bytes x + Z.of_nat (length l) < 2 ^ 31 -> 0 <= Wc.lines x <= Wc.bytes x -> 0 <= Wc.words x <= Wc.bytes x ->
  let y := foldl Wc.count x l in
  Wc.lines y = Wc.lines x + Z.of_nat (lines_of l) /\ Wc.words y = Wc.words x + Z.of_nat (new_words (Wc.inword x) l) /\
  Wc.bytes y = Wc.bytes x + Z.of_nat (length l).
Proof.
  induction l as [|c l IH]; intros [li wo by_ iw] Hb Hl Hx Hw; cbn [foldl Wc.lines Wc.words Wc.bytes Wc.inword] in *.
  - change (lines_of []) with 0%nat. assert (new_words iw [] = 0%nat) as -> by by destruct iw. cbn [length]. lia.
  - cbn [length] in *. rewrite new_words_cons. set (y := Wc.count _ c).
    assert (Wc.bytes y = by_ + 1 /\ Wc.lines y = li + (if decide (c = 10) then 1 else 0) /\
      Wc.words y = wo + (if is_space c then 0 else if iw then 0 else 1) /\ Wc.inword y = negb (is_space c)) as (Eb & El & Ew & Ei).
    { unfold y, Wc.count. cbn [Wc.lines Wc.words Wc.bytes Wc.inword]. rewrite space_found, !i32_small by lia.
      destruct (Z.eqb_spec c 10), (is_space c), iw; case_decide; cbn; lia || done. }
    specialize (IH y). rewrite Eb, El, Ew, Ei in IH. destruct IH as (-> & -> & ->); [lia|lia|case_decide; lia| |].
    { destruct (is_space c), iw; lia. }
    unfold lines_of. rewrite filter_cons. split_and!; [case_decide; cbn [length]; lia| |lia]. destruct (is_space c), iw; cbn [negb]; lia.
Qed.

Section wc.
Context {W : Type} `{!System W, !Descriptors W}.

Lemma wc_loop n : forall w fd l x, (length l <= n)%nat -> input w !! fd = Some l ->
  exists w', drains (ITree.iter (Wc.round fd) x) fd w w' (Some (foldl Wc.count x l)) (output w).
Proof.
  induction n as [|n IH]; intros w fd l x Hn Hi;
    destruct (read_returns w fd 512 l Hi ltac:(lia)) as (w1 & [|c b] & l' & H1 & -> & Hb & Hi1 & Ho1 & Hf1); try done; try (cbn in Hn; lia).
  1,2: rewrite (Hb eq_refl) in *; cbn [app] in *; rewrite Hb in * by done; exists w1; split; [|by split_and!];
    apply returns_stop; eapply returns_bind; [exact H1|apply returns_ret].
  destruct (IH w1 fd l' (foldl Wc.count x (c :: b))) as (w2 & H2 & Hi2 & Ho2 & Hf2).
  { cbn in Hn. rewrite length_app in Hn. lia. }
  { by rewrite Hi1, lookup_insert_eq. }
  exists w2. split.
  - eapply returns_step; [eapply returns_bind; [exact H1|apply returns_ret]|]. by rewrite foldl_app.
  - split_and!; [by rewrite Hi2, Hi1, insert_insert_eq|congruence|congruence].
Qed.

(** The line [wc] prints for a text. *)
Definition wc_line (name l : list Z) : list Z :=
  printf (line "%d %d %d %s")
    [FInt (Z.of_nat (lines_of l)); FInt (Z.of_nat (length (words_of l))); FInt (Z.of_nat (length l)); FStr name].

Lemma wc_returns w fd name l o :
  Z.of_nat (length l) < 2 ^ 31 -> input w !! fd = Some l -> output w !! 1 = Some o ->
  exists w', drains (Wc.wc fd name) fd w w' tt (<[1 := o ++ wc_line name l]> (output w)).
Proof.
  intros Hl Hi Ho. destruct (wc_loop (length l) w fd l (Wc.MkCounts 0 0 0 false)) as (w1 & H1 & Hi1 & Ho1 & Hf1); [done..|].
  destruct (count_spec l (Wc.MkCounts 0 0 0 false)) as (El & Ew & Eb); [cbn; lia..|]. cbv zeta in *.
  cbn [Wc.lines Wc.words Wc.bytes Wc.inword new_words Z.add] in El, Ew, Eb.
  destruct (fprintf_returns w1 1 o (line "%d %d %d %s")
    [FInt (Z.of_nat (lines_of l)); FInt (Z.of_nat (length (words_of l))); FInt (Z.of_nat (length l)); FStr name])
    as (w2 & H2 & Hi2 & Ho2 & Hf2); [by rewrite Ho1|].
  exists w2. split; [|unfold wc_line; split_and!; congruence]. eapply returns_bind; [exact H1|]. cbv beta iota. by rewrite El, Ew, Eb.
Qed.

Lemma wc_file w name l o :
  Z.of_nat (length l) < 2 ^ 31 -> files w !! name = Some l -> room w -> output w !! 1 = Some o ->
  exists w', returns (Wc.file name) w w' tt /\ moved w w' (input w) (<[1 := o ++ wc_line name l]> (output w)).
Proof.
  intros Hl Hf Hr Ho. eapply with_file; [done|done| |by rewrite dom_insert_lookup_L].
  intros fd w1 Hi Ho1. rewrite <-Ho1. apply wc_returns; [done|done|by rewrite Ho1].
Qed.

Lemma wc_main w argv l o :
  room w -> input w !! 0 = Some l -> output w !! 1 = Some o ->
  Z.of_nat (length l) < 2 ^ 31 -> map_Forall (fun _ text => Z.of_nat (length text) < 2 ^ 31) (files w) ->
  exists w', halts (Wc.main argv) w w' /\
    output w' = <[1 := o ++ match tail argv with
                            | [] => wc_line [] l
                            | names => tool_text (files w) wc_line
                                         (fun name => printf (line "wc: cannot open %s") [FStr name]) names
                            end]> (output w).
Proof.
  intros Hr Hi Ho Hl Hfs. destruct (wc_returns w 0 [] l o Hl Hi Ho) as (w1 & H1 & _ & Ho1 & _).
  assert (exists w', halts (Wc.wc 0 [] ;; @exit unit) w w' /\ output w' = <[1 := o ++ wc_line [] l]> (output w)) as Hin.
  { exists (sys Exit w1).1. split; [eapply halts_bind; [exact H1|apply halts_exit]|by rewrite exit_keeps]. }
  destruct argv as [|a [|name names]]; cbn [tail Wc.main]; [done..|].
  eapply (each_file _); [|intros; by apply open_fails|exact Hfs|done|done]. intros. by apply wc_file.
Qed.

(** C27: [wc] prints for each file, or for the standard input, its numbers of
    newlines, of words and of bytes, whatever the sizes of the pieces the reads
    deliver: a word that two reads share counts once. *)
Theorem wc_correct w argv l o :
  room w -> input w !! 0 = Some l -> output w !! 1 = Some o ->
  Z.of_nat (length l) < 2 ^ 31 -> map_Forall (fun _ text => Z.of_nat (length text) < 2 ^ 31) (files w) ->
  exists w', halts (Wc.main argv) w w' /\
    output w' = <[1 := o ++ match tail argv with
                            | [] => wc_line [] l
                            | names => tool_text (files w) wc_line
                                         (fun name => printf (line "wc: cannot open %s") [FStr name]) names
                            end]> (output w).
Proof. apply wc_main. Qed.

End wc.

(** ** The other tools *)

Section others.
Context {W : Type} `{!System W, !Descriptors W}.

(** The arguments with a space between them and a newline at the end. *)
Definition echo_line (args : list (list Z)) : list Z :=
  match args with [] => [] | a :: args' => a ++ concat ((fun b => 32 :: b) <$> args') ++ [10] end.

Lemma echo_words args : forall w o, output w !! 1 = Some o ->
  exists w', returns (Echo.words args) w w' tt /\ output w' = <[1 := o ++ echo_line args]> (output w).
Proof.
  induction args as [|a args IH]; intros w o Ho; cbn [Echo.words].
  - exists w. split; [apply returns_ret|]. cbn [echo_line]. by rewrite app_nil_r, insert_id.
  - set (sep := match args with [] => [10] | _ => [32] end).
    destruct (fprintf_returns w 1 o "%s%s" [FStr a; FStr sep] Ho) as (w1 & H1 & _ & Ho1 & _).
    assert (printf "%s%s" [FStr a; FStr sep] = a ++ sep) as Ep.
    { unfold printf. change (chars "%s%s") with [37; 115; 37; 115]. clearbody sep. cbn. by rewrite app_nil_r. }
    rewrite Ep in Ho1.
    destruct (IH w1 (o ++ a ++ sep)) as (w2 & H2 & Ho2); [by rewrite Ho1, lookup_insert_eq|].
    exists w2. split; [eapply returns_bind; [exact H1|exact H2]|]. rewrite Ho2, Ho1, insert_insert_eq, <-!app_assoc.
    assert (sep ++ echo_line args = concat ((fun b => 32 :: b) <$> args) ++ [10]) as E; [|by rewrite E].
    unfold sep. destruct args as [|b args]; cbn [echo_line fmap list_fmap concat app]; by rewrite <-?app_assoc.
Qed.

(** [echo] writes its arguments, a space between two of them, and a newline. *)
Theorem echo_correct w argv o :
  output w !! 1 = Some o ->
  exists w', halts (Echo.main argv) w w' /\ output w' = <[1 := o ++ echo_line (tail argv)]> (output w).
Proof.
  intros Ho. destruct (echo_words (tail argv) w o Ho) as (w1 & H1 & Ho1). exists (sys Exit w1).1.
  split; [eapply halts_bind; [exact H1|apply halts_exit]|by rewrite exit_keeps].
Qed.

(** The world after calls that answer. *)
Inductive answered : list (sysE Z) -> W -> list Z -> W -> Prop :=
  | an_nil w : answered [] w [] w
  | an_cons e es w a w1 as_ w2 : sys e w = (w1, Some a) -> answered es w1 as_ w2 -> answered (e :: es) w (a :: as_) w2.

(** [kill] makes one call for each process it is given, with the number that
    was printed for it. *)
Theorem kill_tool_correct w a0 pids answers w' :
  pids <> [] -> Forall (fun p => 0 <= p < 2 ^ 31) pids -> answered (Kill <$> pids) w answers w' ->
  halts (Kill.main (a0 :: ((fun p => printf "%d" [FInt p]) <$> pids))) w (sys Exit w').1.
Proof.
  intros Hne Hp Ha. cut (returns (for_each (fun a => call (Kill (atoi a)) ;; return_ tt) ((fun p => printf "%d" [FInt p]) <$> pids)) w w' tt).
  { intros Hr. destruct pids as [|p pids]; [done|]. eapply halts_bind; [exact Hr|apply halts_exit]. }
  clear Hne. revert w answers Ha. induction Hp as [|p pids Hp Hps IH]; intros w answers Ha; inversion Ha; simplify_eq; cbn [fmap list_fmap for_each].
  - apply returns_ret.
  - eapply returns_bind; [|by eapply IH]. eapply returns_bind; [|apply returns_ret]. apply returns_call.
    pose proof (atoi_printf p [] Hp) as E. rewrite app_nil_r in E. rewrite E by done. eassumption.
Qed.

(** [mkdir] makes the directories in order up to the first that fails, which
    it names. *)
Theorem mkdir_correct w a0 names bad rest answers w1 r w2 o :
  answered (Mkdir <$> names) w answers w1 -> Forall (fun r => 0 <= r) answers -> sys (Mkdir bad) w1 = (w2, Some r) -> r < 0 ->
  output w2 !! 2 = Some o ->
  exists w', halts (Mkdir.main (a0 :: names ++ bad :: rest)) w w' /\
    output w' = <[2 := o ++ printf (line "mkdir: %s failed to create") [FStr bad]]> (output w2).
Proof.
  intros Ha Hpos Hb Hr Ho. destruct (fprintf_returns w2 2 o (line "mkdir: %s failed to create") [FStr bad] Ho) as (w3 & H3 & _ & Ho3 & _).
  exists (sys Exit w3).1. split; [|by rewrite exit_keeps].
  cut (returns (Mkdir.make (names ++ bad :: rest)) w w3 tt).
  { intros Hm. assert (exists n ns, names ++ bad :: rest = n :: ns) as (n & ns & E) by (destruct names; by eexists _, _).
    rewrite E in *. eapply halts_bind; [exact Hm|apply halts_exit]. }
  revert w answers Ha Hpos. induction names as [|n names IH]; intros w answers Ha Hpos; inversion Ha; simplify_eq; cbn [app Mkdir.make].
  - eapply returns_bind; [by apply returns_call|]. by rewrite (proj2 (Z.ltb_lt r 0)).
  - apply Forall_cons in Hpos as [Hpos1 Hpos2]. eapply returns_bind; [by apply returns_call|].
    rewrite (proj2 (Z.ltb_ge _ 0)) by done. by eapply IH.
Qed.

End others.

(** ** Examples *)

(** Two files; the first reads deliver two bytes, one byte and three. *)
Definition demo_world : world :=
  MkWorld (list_to_map [(chars "a", chars (line "ab cd")); (chars "b", chars "x")])
    {[0 := chars "in"]} (<[1 := []]> {[2 := []]}) [2; 1; 3]%nat [0; -1].

Lemma demo_room : room demo_world.
Proof. apply Nat.ltb_lt. vm_compute. reflexivity. Qed.

Lemma cat_correct_witness : exists w', halts (Cat.main [chars "cat"; chars "b"; chars "a"; chars "c"]) demo_world w' /\
  output w' !! 1 = Some (chars (line "xab cd") ++ chars (line "cat: cannot open c")).
Proof.
  destruct (cat_correct demo_world [chars "cat"; chars "b"; chars "a"; chars "c"] (chars "in") [] demo_room eq_refl eq_refl)
    as (w' & H & Ho).
  exists w'. split; [exact H|]. rewrite Ho. vm_compute. reflexivity.
Defined.

Lemma wc_correct_witness : exists w', halts (Wc.main [chars "wc"; chars "a"; chars "c"]) demo_world w' /\
  output w' !! 1 = Some (chars (line "1 2 6 a") ++ chars (line "wc: cannot open c")).
Proof.
  destruct (wc_correct demo_world [chars "wc"; chars "a"; chars "c"] (chars "in") [] demo_room eq_refl eq_refl)
    as (w' & H & Ho); [reflexivity| |].
  - apply (bool_decide_unpack _). vm_compute. exact I.
  - exists w'. split; [exact H|]. rewrite Ho. vm_compute. reflexivity.
Defined.

Lemma echo_correct_witness : exists w', halts (Echo.main [chars "echo"; chars "a"; chars "b"]) demo_world w' /\
  output w' !! 1 = Some (chars (line "a b")).
Proof.
  destruct (echo_correct demo_world [chars "echo"; chars "a"; chars "b"] []) as (w' & H & Ho); [reflexivity|].
  exists w'. split; [exact H|]. rewrite Ho. vm_compute. reflexivity.
Defined.

Lemma kill_tool_correct_witness : halts (Kill.main [chars "kill"; chars "7"; chars "12"]) demo_world
  (sys Exit (MkWorld (u_files demo_world) (u_in demo_world) (u_out demo_world) (u_pieces demo_world) [])).1.
Proof.
  apply (kill_tool_correct demo_world (chars "kill") [7; 12] [0; -1]); [discriminate| |].
  - repeat constructor; discriminate.
  - by repeat econstructor.
Defined.
