(* ===== verification/Uproc.v ===== *)
(** * Programs that make processes (init.c, forktest.c, stressfs.c, time.c, zombie.c)

    The programs as trees of system calls, from the view of one process: the
    child is the branch in which [fork] answers 0.  [Processes] is what they
    rely on: [fork] makes a child as long as there is a free slot, and [wait]
    gives one child back until there is none. *)

From Stdlib Require Import Ascii String.
From stdpp Require Import base numbers list option strings gmap.
From ITree Require Import ITree ITreeFacts.
From S2P Require Import Prelude Kernel Cprintf Cstring Ulib Usys Utools.

Local Open Scope u_scope.

(** ** init.c *)

Module Init.

Definition O_RDWR : Z := 2.

(** Waits until the shell is gone; other children are orphans of others. *)
Definition reap (pid : Z) (_ : unit) : prog (unit + unit) :=
  wpid <- call Wait ;;
  if (0 <=? wpid) && negb (wpid =? pid) then
    fprintf 1 (line "zombie!") [] ;;
    return_ (inl tt)
  else return_ (inr tt).

Definition round (_ : unit) : prog (unit + unit) :=
  fprintf 1 (line "init: starting sh") [] ;;
  pid <- call Fork ;;
  if pid <? 0 then
    fprintf 1 (line "init: fork failed") [] ;;
    exit
  else if pid =? 0 then
    call (Exec (chars "sh") [chars "sh"]) ;;
    fprintf 1 (line "init: exec sh failed") [] ;;
    exit
  else
  ITree.iter (reap pid) tt ;;
  return_ (inl tt).

Definition main : prog unit :=
  fd <- call (Open (chars "console") O_RDWR) ;;
  (if fd <? 0 then
     call (Mknod (chars "console") 1 1) ;;
     call (Open (chars "console") O_RDWR) ;;
     return_ tt
   else return_ tt) ;;
  call (Dup 0) ;;
  call (Dup 0) ;;
  ITree.iter round tt.

End Init.

(** ** forktest.c *)

Module Forktest.

Definition N : nat := 1000.

(** Its own [printf] writes the format at once. *)
Definition printf (fd : Z) (s : string) : prog unit := call (Write fd (chars s)) ;; return_ tt.

(** The first loop: the number of children when it ends, with [k] rounds left. *)
Fixpoint fork_loop (k n : nat) : prog nat :=
  match k with
  | O => return_ n
  | S k' =>
      pid <- call Fork ;;
      if pid <? 0 then return_ n
      else if pid =? 0 then exit
      else fork_loop k' (S n)
  end.

Fixpoint wait_loop (n : nat) : prog unit :=
  match n with
  | O => return_ tt
  | S n' =>
      r <- call Wait ;;
      if r <? 0 then
        printf 1 (line "wait stopped early") ;;
        exit
      else wait_loop n'
  end.

Definition forktest : prog unit :=
  printf 1 (line "fork test") ;;
  n <- fork_loop N 0 ;;
  if (n =? N)%nat then
    printf 1 (line "fork claimed to work N times!") ;;
    exit
  else
  wait_loop n ;;
  r <- call Wait ;;
  if negb (r =? -1) then
    printf 1 (line "wait got too many") ;;
    exit
  else
  printf 1 (line "fork test OK").

Definition main : prog unit := forktest ;; exit.

End Forktest.

(** ** zombie.c *)

Module Zombie.

Definition main : prog unit :=
  pid <- call Fork ;;
  (if 0 <? pid then call (Sleep 5) ;; return_ tt else return_ tt) ;;
  exit.

End Zombie.

(** ** stressfs.c *)

Module Stressfs.

Definition O_CREATE_RDWR : Z := Z.lor 0x200 0x002.

(** [k] rounds are left; the answer is [i]. *)
Fixpoint fork_loop (k : nat) (i : Z) : prog Z :=
  match k with
  | O => return_ i
  | S k' =>
      pid <- call Fork ;;
      if 0 <? pid then return_ i else fork_loop k' (i + 1)
  end.

Fixpoint repeat (n : nat) (t : prog unit) : prog unit :=
  match n with O => return_ tt | S n' => t ;; repeat n' t end.

Definition main : prog unit :=
  let data := replicate 512 97 in
  fprintf 1 (line "stressfs starting") [] ;;
  i <- fork_loop 4 0 ;;
  fprintf 1 (line "write %d") [FInt i] ;;
  let path := chars "stressfs" ++ [48 + i] in
  fd <- call (Open path O_CREATE_RDWR) ;;
  repeat 20 (call (Write fd data) ;; return_ tt) ;;
  call (Close fd) ;;
  fprintf 1 (line "read") [] ;;
  fd <- call (Open path 0) ;;
  repeat 20 (call (Read fd 512) ;; return_ tt) ;;
  call (Close fd) ;;
  call Wait ;;
  exit.

End Stressfs.

(** ** time.c *)

Module Time.

(** The second loop, on the characters from the last to the first; characters
    are signed. *)
Definition schar (c : Z) : Z := if c <? 128 then c else c - 256.
Fixpoint toint_loop (str : list Z) (ans ex : Z) : Z :=
  match str with
  | [] => ans
  | c :: str' => toint_loop str' (i32 (ans + i32 ((schar c - 48) * ex))) (i32 (ex * 10))
  end.
Definition toint (str : list Z) : Z := toint_loop (rev str) 0 1.

(** The variables [wtime] and [rtime] with [k] rounds left.  The empty loops do
    nothing but take time. *)
Fixpoint measure_loop (k : nat) (wtime rtime : Z) : prog unit :=
  match k with
  | O => return_ tt
  | S k' =>
      pid <- call Fork ;;
      if pid =? 0 then exit else
      r <- call Waitx ;;
      (match r with None => fprintf 1 (line "lmao") [] | Some _ => return_ tt end) ;;
      let wtime := match r with Some (_, w, _) => w | None => wtime end in
      let rtime := match r with Some (_, _, t) => t | None => rtime end in
      fprintf 1 (line "Rtime is: %d") [FInt rtime] ;;
      fprintf 1 (line "Wtime is: %d") [FInt wtime] ;;
      measure_loop k' wtime rtime
  end.

(** [zero] is the string at the address 0, which [argv[1]] is without an
    argument. *)
Definition main (zero : list Z) (argv : list (list Z)) : prog unit :=
  let pid := toint (default zero (argv !! 1%nat)) in
  fprintf 1 (line "**%d**") [FInt pid] ;;
  measure_loop 10 0 0 ;;
  exit.

End Time.

(** ** Processes *)

Class Processes (W : Type) `{!System W, !Descriptors W} := {
  (** the children that were not waited for, and the free slots. *)
  children : W -> nat;
  slots : W -> nat;
  fork_some w n : slots w = S n ->
    exists pid w', sys Fork w = (w', Some pid) /\ 0 < pid /\ children w' = S (children w) /\ slots w' = n /\ moved w w' (input w) (output w);
  fork_none w : slots w = 0%nat ->
    exists pid w', sys Fork w = (w', Some pid) /\ pid < 0 /\ children w' = children w /\ slots w' = 0%nat /\ moved w w' (input w) (output w);
  wait_some w n : children w = S n ->
    exists pid w', sys Wait w = (w', Some pid) /\ 0 <= pid /\ children w' = n /\ slots w' = S (slots w) /\ moved w w' (input w) (output w);
  wait_none w : children w = 0%nat ->
    exists w', sys Wait w = (w', Some (-1)) /\ children w' = 0%nat /\ slots w' = slots w /\ moved w w' (input w) (output w);
  write_procs w fd b : children (sys (Write fd b) w).1 = children w /\ slots (sys (Write fd b) w).1 = slots w;
}.

Section forktest.
Context {W : Type} `{!System W, !Descriptors W, !Processes W}.

Lemma forktest_printf w s o :
  output w !! 1 = Some o ->
  exists w', returns (Forktest.printf 1 s) w w' tt /\ moved w w' (input w) (<[1 := o ++ chars s]> (output w)) /\
    children w' = children w /\ slots w' = slots w.
Proof.
  intros Ho. destruct (write_all w 1 o (chars s) Ho) as (w' & Hs & Hm). pose proof (write_procs w 1 (chars s)) as Hp.
  rewrite Hs in Hp. exists w'. split_and!; [|by apply Hm..|by apply Hp|by apply Hp].
  eapply returns_bind; [by apply returns_call|apply returns_ret].
Qed.

(** The first loop makes as many children as there are slots or rounds. *)
Lemma fork_loop_returns k : forall n w, exists w',
  returns (Forktest.fork_loop k n) w w' (n + Nat.min k (slots w))%nat /\ moved w w' (input w) (output w) /\
  children w' = (children w + Nat.min k (slots w))%nat /\ slots w' = (slots w - k)%nat.
Proof.
  induction k as [|k IH]; intros n w; cbn [Forktest.fork_loop].
  - exists w. rewrite !Nat.add_0_r, Nat.sub_0_r. split; [apply returns_ret|]. by split_and!.
  - destruct (slots w) as [|m] eqn:Es.
    + destruct (fork_none w Es) as (pid & w1 & Hf & Hp & Hc & Hs & Hm). exists w1. rewrite Nat.min_0_r, !Nat.add_0_r. split_and!; [|by apply Hm..|done|lia].
      eapply returns_bind; [by apply returns_call|]. rewrite (proj2 (Z.ltb_lt pid 0)) by done. apply returns_ret.
    + destruct (fork_some w m Es) as (pid & w1 & Hf & Hp & Hc & Hs & Hi & Ho & Hfs).
      destruct (IH (S n) w1) as (w2 & H2 & (Hi2 & Ho2 & Hf2) & Hc2 & Hs2). exists w2. rewrite Hs in *. split_and!; [|by moves|lia|lia].
      eapply returns_bind; [by apply returns_call|]. rewrite (proj2 (Z.ltb_ge pid 0)), (proj2 (Z.eqb_neq pid 0)) by lia.
      replace (n + Nat.min (S k) (S m))%nat with (S n + Nat.min k m)%nat by lia. exact H2.
Qed.

Lemma wait_loop_returns n : forall w, (n <= children w)%nat -> exists w',
  returns (Forktest.wait_loop n) w w' tt /\ moved w w' (input w) (output w) /\
  children w' = (children w - n)%nat /\ slots w' = (slots w + n)%nat.
Proof.
  induction n as [|n IH]; intros w Hn; cbn [Forktest.wait_loop].
  - exists w. rewrite Nat.add_0_r, Nat.sub_0_r. split; [apply returns_ret|]. by split_and!.
  - destruct (children w) as [|m] eqn:Ec; [lia|]. destruct (wait_some w m Ec) as (pid & w1 & Hw & Hp & Hc & Hs & Hi & Ho & Hf).
    destruct (IH w1) as (w2 & H2 & (Hi2 & Ho2 & Hf2) & Hc2 & Hs2); [lia|]. exists w2. split_and!; [|by moves|lia|lia].
    eapply returns_bind; [by apply returns_call|]. rewrite (proj2 (Z.ltb_ge pid 0)) by done. exact H2.
Qed.

(** [forktest] finds out whether [fork] fails when the processes are used up:
    with fewer than a thousand slots it reports success, after it has waited for
    exactly the children it made, and otherwise it complains. *)
Theorem forktest_correct w o :
  children w = 0%nat -> output w !! 1 = Some o ->
  exists w', halts Forktest.main w w' /\
    output w' = <[1 := o ++ chars (line "fork test") ++
                       chars (line (if (slots w <? 1000)%nat then "fork test OK" else "fork claimed to work N times!"))]> (output w).
Proof.
  intros Hc Ho. destruct (forktest_printf w (line "fork test") o Ho) as (w1 & H1 & (Hi1 & Ho1 & Hf1) & Hc1 & Hs1).
  destruct (fork_loop_returns Forktest.N 0 w1) as (w2 & H2 & (Hi2 & Ho2 & Hf2) & Hc2 & Hs2). rewrite Nat.add_0_l, Hs1 in H2.
  assert (output w2 !! 1 = Some (o ++ chars (line "fork test"))) as Ho'.
  { by rewrite Ho2, Ho1, lookup_insert_eq. }
  rewrite Hc1, Hc, Hs1 in Hc2. set (n := Nat.min Forktest.N (slots w)) in *. rewrite Nat.add_0_l in Hc2.
  destruct (Nat.ltb_spec (slots w) 1000).
  - destruct (wait_loop_returns n w2) as (w3 & H3 & (Hi3 & Ho3 & Hf3) & Hc3 & Hs3); [lia|].
    destruct (wait_none w3) as (w4 & H4 & Hc4 & Hs4 & Hi4 & Ho4 & Hf4); [lia|].
    destruct (forktest_printf w4 (line "fork test OK") (o ++ chars (line "fork test"))) as (w5 & H5 & (Hi5 & Ho5 & Hf5) & _).
    { by rewrite Ho4, Ho3. }
    exists (sys Exit w5).1. split; [|by rewrite exit_keeps, Ho5, Ho4, Ho3, Ho2, Ho1, insert_insert_eq, <-app_assoc].
    eapply halts_bind; [|apply halts_exit]. eapply returns_bind; [exact H1|]. eapply returns_bind; [exact H2|].
    rewrite (proj2 (Nat.eqb_neq n Forktest.N)) by (unfold n, Forktest.N; lia). eapply returns_bind; [exact H3|].
    eapply returns_bind; [by apply returns_call|]. exact H5.
  - destruct (forktest_printf w2 (line "fork claimed to work N times!") _ Ho') as (w3 & H3 & (Hi3 & Ho3 & Hf3) & _).
    exists (sys Exit w3).1. split; [|by rewrite exit_keeps, Ho3, Ho2, Ho1, insert_insert_eq, <-app_assoc].
    apply halts_first. eapply halts_bind; [exact H1|]. eapply halts_bind; [exact H2|].
    rewrite (proj2 (Nat.eqb_eq n Forktest.N)) by (unfold n, Forktest.N; lia). eapply halts_bind; [exact H3|apply halts_exit].
Qed.

End forktest.

(** ** Starting the shell *)

(** The orphans that [wait] gives before the shell [pid], each with its line. *)
Definition orphans (pid : Z) (l : list event) : Prop :=
  exists ps zs, Forall (fun p => 0 <= p /\ p <> pid) ps /\ Forall (says 1 (chars (line "zombie!"))) zs /\ length zs = length ps /\
    l = concat (zip_with (fun p z => ev Wait p :: z) ps zs).

Lemma reap_does pid l a :
  orphans pid l -> a = pid \/ a < 0 -> does (ITree.iter (Init.reap pid) tt) (l ++ [ev Wait a]) (return_ tt).
Proof.
  intros (ps & zs & Hp & Hz & Hl & ->) Ha. revert zs Hz Hl. induction Hp as [|p ps [Hp0 Hp] Hps IH]; intros [|z zs] Hz Hl; try done.
  - apply does_last, does_call. replace ((0 <=? a) && negb (a =? pid)) with false; [apply does_return|].
    symmetry. apply andb_false_iff. destruct Ha as [->|Ha]; [right; by rewrite Z.eqb_refl|left; by apply Z.leb_gt].
  - apply Forall_cons in Hz as [Hz Hzs]. cbn [zip_with concat]. rewrite <- app_assoc.
    eapply does_app; [|apply (IH zs Hzs); by injection Hl]. apply does_round, does_call.
    rewrite (proj2 (Z.leb_le 0 p)), (proj2 (Z.eqb_neq p pid)) by done. cbn [negb andb].
    rewrite <- (app_nil_r z). eapply does_then; [by apply fprintf_does|apply does_return].
Qed.

(** C29: [init], whatever the system answers.  It opens the console, making it
    if it is missing, and duplicates it twice.  Then it loops.  It says that it
    is starting the shell and forks.  The child, where [fork] answers 0,
    executes sh, and if that fails says so and exits.  The parent waits until
    [wait] gives the shell's pid or fails, with a line for every other process
    it is given, and starts over.  If [fork] fails it says so and exits. *)
Theorem init_correct :
  (forall fd d1 d2, 0 <= fd ->
    does Init.main [ev (Open (chars "console") 2) fd; ev (Dup 0) d1; ev (Dup 0) d2] (ITree.iter Init.round tt)) /\
  (forall fd m fd' d1 d2, fd < 0 ->
    does Init.main [ev (Open (chars "console") 2) fd; ev (Mknod (chars "console") 1 1) m; ev (Open (chars "console") 2) fd';
                    ev (Dup 0) d1; ev (Dup 0) d2] (ITree.iter Init.round tt)) /\
  forall l0, says 1 (chars (line "init: starting sh")) l0 ->
    (forall pid l a, 0 < pid -> orphans pid l -> a = pid \/ a < 0 ->
      does (ITree.iter Init.round tt) (l0 ++ ev Fork pid :: l ++ [ev Wait a]) (ITree.iter Init.round tt)) /\
    (forall a l, says 1 (chars (line "init: exec sh failed")) l ->
      does (ITree.iter Init.round tt) (l0 ++ ev Fork 0 :: ev (Exec (chars "sh") [chars "sh"]) a :: l) exit) /\
    (forall pid l, pid < 0 -> says 1 (chars (line "init: fork failed")) l ->
      does (ITree.iter Init.round tt) (l0 ++ ev Fork pid :: l) exit).
Proof.
  split_and!.
  - intros fd d1 d2 Hfd. apply does_call. rewrite (proj2 (Z.ltb_ge fd 0)) by done.
    apply (does_then _ _ tt []); [apply does_return|]. by do 2 apply does_call; constructor.
  - intros fd m fd' d1 d2 Hfd. apply does_call. rewrite (proj2 (Z.ltb_lt fd 0)) by done.
    apply (does_then _ _ tt [_; _]); [do 2 apply does_call; apply does_return|]. by do 2 apply does_call; constructor.
  - intros l0 H0. split_and!.
    + intros pid l a Hp Hl Ha. apply does_round. eapply does_then; [by apply fprintf_does|]. apply does_call.
      rewrite (proj2 (Z.ltb_ge pid 0)), (proj2 (Z.eqb_neq pid 0)) by lia. rewrite <- (app_nil_r (l ++ _)).
      eapply does_then; [by apply reap_does|apply does_return].
    + intros a l Hl. apply does_exits. eapply does_then; [by apply fprintf_does|]. apply does_call, does_call.
      rewrite <- (app_nil_r l). eapply does_then; [by apply fprintf_does|by constructor].
    + intros pid l Hp Hl. apply does_exits. eapply does_then; [by apply fprintf_does|]. apply does_call.
      rewrite (proj2 (Z.ltb_lt pid 0)) by done. rewrite <- (app_nil_r l). eapply does_then; [by apply fprintf_does|by constructor].
Qed.

(** ** Numbers *)

Lemma i32_mod a b : a mod 2 ^ 32 = b mod 2 ^ 32 -> i32 a = i32 b.
Proof. intros H. unfold i32. by rewrite <-(Zplus_mod_idemp_l a), H, Zplus_mod_idemp_l. Qed.
Lemma i32_eqm a : i32 a mod 2 ^ 32 = a mod 2 ^ 32.
Proof. unfold i32. rewrite Zminus_mod_idemp_l. f_equal. lia. Qed.

Lemma toint_loop_spec l : forall ans ex, Forall (fun c => 48 <= c <= 57) l ->
  i32 (Time.toint_loop l ans ex) = i32 (ans + ex * foldr (fun c v => (c - 48) + 10 * v) 0 l).
Proof.
  induction l as [|c l IH]; intros ans ex Hl; cbn [Time.toint_loop foldr]; [f_equal; lia|].
  apply Forall_cons in Hl as [Hc Hl]. rewrite IH by done. apply i32_mod. set (v := foldr _ 0 l).
  unfold Time.schar. rewrite (proj2 (Z.ltb_lt c 128)) by lia.
  rewrite Zplus_mod, i32_eqm, Zmult_mod, i32_eqm, <-Zmult_mod, <-Zplus_mod, <-Zplus_mod_idemp_l.
  rewrite <-(Zplus_mod_idemp_r (i32 _)), i32_eqm, Zplus_mod_idemp_r, Zplus_mod_idemp_l. f_equal. lia.
Qed.

Lemma toint_loop_range l : forall ans ex, - 2 ^ 31 <= ans < 2 ^ 31 -> - 2 ^ 31 <= Time.toint_loop l ans ex < 2 ^ 31.
Proof. induction l as [|c l IH]; intros ans ex Ha; cbn [Time.toint_loop]; [done|]. apply IH, i32_range. Qed.

Lemma dec_value_rev l : dec_value (rev l) = foldr (fun c v => (c - 48) + 10 * v) 0 l.
Proof. induction l as [|c l IH]; cbn [rev foldr]; [done|]. rewrite dec_value_snoc, IH. lia. Qed.

(** [toint] of [time], which adds up the digits from the last to the first, is
    the decimal value in the arithmetic of an [int]; for a number that fits it
    is what [atoi] gives. *)
Theorem toint_correct str :
  Forall (fun c => 48 <= c <= 57) str ->
  Time.toint str = i32 (dec_value str) /\ (dec_value str < 2 ^ 31 -> Time.toint str = atoi str).
Proof.
  intros Hd. assert (Time.toint str = i32 (dec_value str)) as E.
  { unfold Time.toint. rewrite <-(i32_small (Time.toint_loop _ 0 1)) by by apply toint_loop_range.
    rewrite toint_loop_spec by by apply Forall_rev. f_equal. rewrite <-dec_value_rev, rev_involutive. lia. }
  split; [exact E|]. intros Hlt. rewrite E. pose proof (atoi_loop_spec str [] 0 Hd) as Ha. rewrite app_nil_r in Ha.
  pose proof (dec_value_nonneg str Hd 0 ltac:(lia)). unfold atoi. fold (dec_value str) in *. rewrite Ha by (done || lia). apply i32_small. lia.
Qed.

Lemma toint_correct_witness : Time.toint (chars "1234") = atoi (chars "1234").
Proof. apply (toint_correct (chars "1234")); [|reflexivity]. repeat constructor; discriminate. Defined.

(** ** Examples *)

(** A world with a table of processes. *)
Record pworld := MkPworld { p_world : world; p_children : nat; p_slots : nat }.

#[export] Instance pworld_system : System pworld := fun T e p =>
  let other : pworld * option T := let '(w, a) := sys e (p_world p) in (MkPworld w (p_children p) (p_slots p), a) in
  match e in sysE T' return pworld * option T' -> pworld * option T' with
  | Fork => fun _ =>
      match p_slots p with
      | O => (p, Some (-1))
      | S n => (MkPworld (p_world p) (S (p_children p)) n, Some (Z.of_nat (S n)))
      end
  | Wait => fun _ =>
      match p_children p with
      | O => (p, Some (-1))
      | S n => (MkPworld (p_world p) n (S (p_slots p)), Some (Z.of_nat (S (p_slots p))))
      end
  | _ => fun other => other
  end other.

#[export] Instance pworld_descriptors : Descriptors pworld.
Proof.
  refine {| files := fun p => files (p_world p); input := fun p => input (p_world p); output := fun p => output (p_world p) |}.
  - intros p fd n l Hl Hn. destruct (read_some _ fd n l Hl Hn) as (k & w' & Hs & Hr). exists k. exists (MkPworld w' (p_children p) (p_slots p)). split; [|exact Hr].
    cbn [sys pworld_system]. by rewrite Hs.
  - intros p fd o b Ho. destruct (write_all _ fd o b Ho) as (w' & Hs & Hr). exists (MkPworld w' (p_children p) (p_slots p)). split; [|exact Hr]. cbn [sys pworld_system]. by rewrite Hs.
  - intros p path l Hl Hs. destruct (open_file _ path l Hl Hs) as (fd & w' & E & Hr). exists fd. exists (MkPworld w' (p_children p) (p_slots p)). split; [|exact Hr].
    cbn [sys pworld_system]. by rewrite E.
  - intros p path Hn. destruct (open_missing _ path Hn) as (fd & w' & E & Hr). exists fd. exists (MkPworld w' (p_children p) (p_slots p)). split; [|exact Hr].
    cbn [sys pworld_system]. by rewrite E.
  - intros p fd l Hi Ho. destruct (close_input _ fd l Hi Ho) as (r & w' & E & Hr). exists r. exists (MkPworld w' (p_children p) (p_slots p)). split; [|exact Hr].
    cbn [sys pworld_system]. by rewrite E.
  - intros p. done.
Defined.

#[export] Instance pworld_processes : Processes pworld.
Proof.
  refine {| children := p_children; slots := p_slots |}.
  - intros p n E. eexists _, _. cbn [sys pworld_system]. rewrite E. split; [done|]. split; [lia|]. by cbn.
  - intros p E. eexists _, p. cbn [sys pworld_system]. rewrite E. split; [done|]. split; [lia|]. by split_and!.
  - intros p n E. eexists _, _. cbn [sys pworld_system]. rewrite E. split; [done|]. split; [lia|]. by cbn.
  - intros p E. exists p. cbn [sys pworld_system]. by rewrite E.
  - intros p fd b. cbn [sys pworld_system]. by destruct (sys _ _).
Defined.

Definition demo_procs (n : nat) : pworld := MkPworld demo_world 0 n.

Lemma forktest_correct_witness : exists w', halts Forktest.main (demo_procs 61) w' /\
  output w' !! 1 = Some (chars (line "fork test") ++ chars (line "fork test OK")).
Proof.
  destruct (forktest_correct (demo_procs 61) []) as (w' & H & Ho); [reflexivity|reflexivity|].
  exists w'. split; [exact H|]. rewrite Ho. vm_compute. reflexivity.
Defined.

Definition demo_line (s : string) : list event := (fun c => ev (Write 1 [c]) 1) <$> chars s.

Lemma demo_line_says s : says 1 (chars s) (demo_line s).
Proof.
  exists (replicate (length (chars s)) 1). split; [by rewrite length_replicate|]. unfold demo_line.
  induction (chars s) as [|c l IH]; [done|]. cbn. by rewrite IH.
Qed.

(** [init] starts the shell as process 2, is given the orphan 5 and then the
    shell. *)
Lemma init_correct_witness :
  does (ITree.iter Init.round tt)
    (demo_line (line "init: starting sh") ++ ev Fork 2 :: (ev Wait 5 :: demo_line (line "zombie!")) ++ [ev Wait 2])
    (ITree.iter Init.round tt).
Proof.
  destruct init_correct as (_ & _ & H). destruct (H _ (demo_line_says (line "init: starting sh"))) as [H' _].
  apply (H' 2 (ev Wait 5 :: demo_line (line "zombie!")) 2); [reflexivity| |by left].
  exists [5], [demo_line (line "zombie!")]. split; [repeat constructor; discriminate|].
  split; [constructor; [apply demo_line_says|constructor]|]. split; [reflexivity|]. cbn [zip_with concat]. by rewrite app_nil_r.
Defined.
