(* ===== verification/Uls.v ===== *)
(** * Listing directories (ls.c)

    [ls] as a tree of system calls, and what it prints: a line for a file, a
    line for each used entry of a directory, with the last element of the path
    padded to the width of a name.  [Attributes] is what it relies on beside the
    calls on descriptors: [fstat] answers the attributes of the file that was
    opened, and directories are read in whole entries. *)

From Stdlib Require Import Ascii String.
From stdpp Require Import base numbers list option strings gmap.
From ITree Require Import ITree ITreeFacts.
From S2P Require Import Prelude Kernel Cprintf Cstring Ulib Usys Utools.

Local Open Scope u_scope.

Definition SLASH : Z := 47.

(** The loop of [fmtname] that looks for the last slash; [n] is [p + 1 - path],
    and the answer is [p - path] after the loop and the increment. *)
Fixpoint last_slash (path : list Z) (n : nat) : nat :=
  match n with
  | O => O
  | S p => if nth p path 0 =? SLASH then S p else last_slash path p
  end.

Definition fmtname (path : list Z) : list Z :=
  let p := drop (last_slash path (S (length path))) path in
  let n := Z.of_nat (length p) in
  if DIRSIZ <=? n then p else p ++ replicate (Z.to_nat (DIRSIZ - n)) 32.

Definition print_entry (name : list Z) (st : ustat) : prog unit :=
  fprintf 1 (line "%s %d %d %d") [FStr (fmtname name); FInt (st_type st); FInt (st_ino st); FInt (st_size st)].

(** struct dirent: [inum] and the bytes of [name]. *)
Definition de_inum (de : list Z) : Z := nth 0 de 0 + 256 * nth 1 de 0.
Definition de_name (de : list Z) : list Z := take (Z.to_nat DIRSIZ) (drop 2 de).

(** A round of the loop over the directory [path] open as [fd]; the string in
    [buf] is the path, a slash and the name. *)
Definition entry_round (path : list Z) (fd : Z) (_ : unit) : prog (unit + unit) :=
  r <- call (Read fd 16) ;;
  match r with
  | None => return_ (inr tt)
  | Some de =>
      if negb (length de =? 16)%nat then return_ (inr tt)
      else if de_inum de =? 0 then return_ (inl tt)
      else
      let buf := path ++ SLASH :: until_nul (de_name de) in
      st <- stat buf ;;
      match st with
      | None => fprintf 1 (line "ls: cannot stat %s") [FStr buf] ;; return_ (inl tt)
      | Some st => print_entry buf st ;; return_ (inl tt)
      end
  end.

(** The switch on the type of the file. *)
Definition body (path : list Z) (fd : Z) (st : ustat) : prog unit :=
  if st_type st =? T_FILE then print_entry path st
  else if st_type st =? T_DIR then
    if 512 <? Z.of_nat (length path) + 1 + DIRSIZ + 1 then fprintf 1 (line "ls: path too long") []
    else ITree.iter (entry_round path fd) tt
  else return_ tt.

Definition ls (path : list Z) : prog unit :=
  fd <- call (Open path 0) ;;
  if fd <? 0 then fprintf 2 (line "ls: cannot open %s") [FStr path] else
  r <- call (Fstat fd) ;;
  match r with
  | None =>
      fprintf 2 (line "ls: cannot stat %s") [FStr path] ;;
      call (Close fd) ;;
      return_ tt
  | Some st =>
      body path fd st ;;
      call (Close fd) ;;
      return_ tt
  end.

Definition main (argv : list (list Z)) : prog unit :=
  match argv with
  | _ :: ((_ :: _) as paths) => for_each ls paths ;; exit
  | _ => ls [46] ;; exit
  end.

(** ** The name that is printed *)

Lemma nth_no_slash l k : SLASH ∉ l -> (nth k l 0 =? SLASH) = false.
Proof.
  intros Hl. apply Z.eqb_neq. intros E. destruct (nth_in_or_default k l 0) as [Hin|E0]; [|by rewrite E0 in E].
  rewrite E in Hin. by apply Hl, list_elem_of_In.
Qed.

Lemma last_slash_none path n : SLASH ∉ path -> last_slash path n = O.
Proof. intros Hn. induction n as [|n IH]; [done|]. cbn [last_slash]. by rewrite nth_no_slash. Qed.

Lemma last_slash_some dir base n : SLASH ∉ base -> (length dir < n)%nat -> last_slash (dir ++ SLASH :: base) n = S (length dir).
Proof.
  intros Hb. induction n as [|n IH]; intros Hn; [lia|]. cbn [last_slash].
  destruct (decide (n = length dir)) as [->|]; [by rewrite nth_middle|].
  rewrite app_nth2 by lia. destruct (n - length dir)%nat as [|k] eqn:Ek; [lia|]. cbn [nth]. rewrite nth_no_slash by done. apply IH. lia.
Qed.

(** Names of up to DIRSIZ characters are padded, longer ones kept. *)
Definition padded (name : list Z) : list Z := name ++ replicate (Z.to_nat DIRSIZ - length name) 32.

(** [fmtname] is the last element of the path, padded to DIRSIZ characters. *)
Lemma fmtname_spec dir base :
  SLASH ∉ base -> fmtname (dir ++ SLASH :: base) = padded base /\ fmtname base = padded base.
Proof.
  intros Hb. unfold fmtname, padded. rewrite (last_slash_some dir base) by (rewrite ?length_app; cbn; lia || done).
  rewrite last_slash_none, drop_0 by done. replace (S (length dir)) with (length dir + 1)%nat by lia.
  rewrite <-drop_drop, drop_app_length. cbn [drop]. cut ((if DIRSIZ <=? Z.of_nat (length base) then base
    else base ++ replicate (Z.to_nat (DIRSIZ - Z.of_nat (length base))) 32) = base ++ replicate (Z.to_nat DIRSIZ - length base) 32); [done|].
  unfold DIRSIZ. destruct (Z.leb_spec 14 (Z.of_nat (length base))).
  - replace (Z.to_nat 14 - length base)%nat with 0%nat by lia. cbn. by rewrite app_nil_r.
  - by replace (Z.to_nat (14 - Z.of_nat (length base))) with (Z.to_nat 14 - length base)%nat by lia.
Qed.

(** ** What [ls] relies on *)

Class Attributes (W : Type) `{!System W, !Descriptors W} := {
  (** the attributes of the files that can be opened, and of the open ones. *)
  info : W -> gmap (list Z) ustat;
  fd_info : W -> gmap Z ustat;

  info_files w : dom (info w) = dom (files w);
  open_info w path st fd w' : info w !! path = Some st -> sys (Open path 0) w = (w', Some fd) -> 0 <= fd ->
    fd_info w !! fd = None /\ fd_info w' = <[fd := st]> (fd_info w) /\ info w' = info w;
  open_failed w path fd w' : sys (Open path 0) w = (w', Some fd) -> fd < 0 -> fd_info w' = fd_info w /\ info w' = info w;
  fstat_info w fd st : fd_info w !! fd = Some st ->
    exists w', sys (Fstat fd) w = (w', Some (Some st)) /\ moved w w' (input w) (output w) /\
      fd_info w' = fd_info w /\ info w' = info w;
  close_info w fd : fd_info (sys (Close fd) w).1 = delete fd (fd_info w) /\ info (sys (Close fd) w).1 = info w;
  write_info w fd b : fd_info (sys (Write fd b) w).1 = fd_info w /\ info (sys (Write fd b) w).1 = info w;
  read_info w fd n : fd_info (sys (Read fd n) w).1 = fd_info w /\ info (sys (Read fd n) w).1 = info w;
  (** a directory is read as far as the bytes asked for. *)
  read_dir w fd st l n : fd_info w !! fd = Some st -> st_type st = T_DIR -> input w !! fd = Some l -> 0 < n ->
    (sys (Read fd n) w).2 = Some (Some (take (Z.to_nat n) l));
}.

Section listing.
Context {W : Type} `{!System W, !Descriptors W, !Attributes W}.

(** The world after some calls, with the attributes too. *)
Definition saw (w w' : W) (i o : gmap Z (list Z)) (f : gmap Z ustat) : Prop :=
  moved w w' i o /\ info w' = info w /\ fd_info w' = f.

Lemma printf_saw w fd o fmt args :
  output w !! fd = Some o ->
  exists w', returns (fprintf fd fmt args) w w' tt /\ saw w w' (input w) (<[fd := o ++ printf fmt args]> (output w)) (fd_info w).
Proof.
  intros Ho. destruct (fprintf_keeps (fun w1 => fd_info w1 = fd_info w /\ info w1 = info w) w fd o fmt args) as (w' & H & [Hp1 Hp2] & Hm).
  - intros w1 b Hw. destruct (write_info w1 fd b) as [-> ->]. done.
  - done.
  - done.
  - by exists w'.
Qed.

Lemma open_saw w path st :
  info w !! path = Some st -> room w ->
  exists fd l w', returns (call (Open path 0)) w w' fd /\ 0 <= fd /\ files w !! path = Some l /\
    input w !! fd = None /\ output w !! fd = None /\ fd_info w !! fd = None /\
    saw w w' (<[fd := l]> (input w)) (output w) (<[fd := st]> (fd_info w)).
Proof.
  intros Hi Hr. assert (path ∈ dom (files w)) as [l Hl]%elem_of_dom by by rewrite <-info_files, elem_of_dom, Hi.
  destruct (open_file w path l Hl Hr) as (fd & w' & Hs & H0 & Hin & Hout & Hm). destruct (open_info w path st fd w' Hi Hs H0) as (Hn & Hf & Hin').
  exists fd, l, w'. split_and!; [by apply returns_call|done..].
Qed.

Lemma open_not_saw w path :
  info w !! path = None ->
  exists fd w', returns (call (Open path 0)) w w' fd /\ fd < 0 /\ saw w w' (input w) (output w) (fd_info w).
Proof.
  intros Hi. assert (files w !! path = None) as Hn by by rewrite <-not_elem_of_dom, <-info_files, not_elem_of_dom.
  destruct (open_missing w path Hn) as (fd & w' & Hs & H0 & Hm). destruct (open_failed w path fd w' Hs H0) as [Hf Hin].
  exists fd, w'. split_and!; [by apply returns_call|done..].
Qed.

Lemma close_saw w fd l :
  input w !! fd = Some l -> output w !! fd = None ->
  exists w' r, returns (call (Close fd)) w w' r /\ saw w w' (delete fd (input w)) (output w) (delete fd (fd_info w)).
Proof.
  intros Hi Ho. destruct (close_input w fd l Hi Ho) as (r & w' & Hs & Hm). pose proof (close_info w fd) as Hc. rewrite Hs in Hc.
  exists w', r. split; [by apply returns_call|]. by destruct Hc.
Qed.

Lemma fstat_saw w fd st :
  fd_info w !! fd = Some st ->
  exists w', returns (call (Fstat fd)) w w' (Some st) /\ saw w w' (input w) (output w) (fd_info w).
Proof. intros Hf. destruct (fstat_info w fd st Hf) as (w' & Hs & Hm & H1 & H2). exists w'. split; [by apply returns_call|done]. Qed.

(** [stat]: what is known of a path, with everything as before. *)
Lemma stat_saw w path :
  room w -> exists w', returns (stat path) w w' (info w !! path) /\ saw w w' (input w) (output w) (fd_info w).
Proof.
  intros Hr. destruct (info w !! path) as [st|] eqn:Ei.
  - destruct (open_saw w path st Ei Hr) as (fd & l & w1 & H1 & H0 & _ & Hi & Ho & Hf & (Hi1 & Ho1 & Hf1) & Hin1 & Hfd1).
    destruct (fstat_saw w1 fd st) as (w2 & H2 & (Hi2 & Ho2 & Hf2) & Hin2 & Hfd2); [by rewrite Hfd1, lookup_insert_eq|].
    destruct (close_saw w2 fd l) as (w3 & r & H3 & (Hi3 & Ho3 & Hf3) & Hin3 & Hfd3).
    { by rewrite Hi2, Hi1, lookup_insert_eq. }
    { by rewrite Ho2, Ho1. }
    exists w3. split.
    + eapply returns_bind; [exact H1|]. rewrite (proj2 (Z.ltb_ge fd 0)) by done.
      eapply returns_bind; [exact H2|]. eapply returns_bind; [exact H3|apply returns_ret].
    + split_and!; [split_and!|..]; [|congruence..|].
      * by rewrite Hi3, Hi2, Hi1, delete_insert_id.
      * by rewrite Hfd3, Hfd2, Hfd1, delete_insert_id.
  - destruct (open_not_saw w path Ei) as (fd & w1 & H1 & H0 & Hs). exists w1. split; [|done].
    eapply returns_bind; [exact H1|]. rewrite (proj2 (Z.ltb_lt fd 0)) by done. apply returns_ret.
Qed.

Lemma read_saw w fd st l :
  fd_info w !! fd = Some st -> st_type st = T_DIR -> input w !! fd = Some l ->
  exists w', returns (call (Read fd 16)) w w' (Some (take 16 l)) /\ saw w w' (<[fd := drop 16 l]> (input w)) (output w) (fd_info w).
Proof.
  intros Hf Ht Hi. destruct (read_some w fd 16 l Hi ltac:(lia)) as (k & w' & Hs & _ & _ & Hi' & Hm). pose proof (read_info w fd 16) as Hr.
  pose proof (read_dir w fd st l 16 Hf Ht Hi ltac:(lia)) as Hd. rewrite Hs in Hr, Hd. cbn [fst snd] in *. injection Hd as Hd.
  change (Z.to_nat 16) with 16%nat in Hd. exists w'. split; [apply returns_call; by rewrite Hs, Hd|].
  assert (drop k l = drop 16 l) as E by (apply (app_inv_head (take 16 l)); rewrite take_drop, <-Hd; apply take_drop). rewrite <-E.
  by destruct Hr.
Qed.

(** *** A directory *)

Definition entry_line (name : list Z) (st : ustat) : list Z :=
  printf (line "%s %d %d %d") [FStr (fmtname name); FInt (st_type st); FInt (st_ino st); FInt (st_size st)].

(** What is printed for an entry: nothing for a free one. *)
Definition entry_text (inf : gmap (list Z) ustat) (path de : list Z) : list Z :=
  if de_inum de =? 0 then [] else
  let name := path ++ SLASH :: until_nul (de_name de) in
  match inf !! name with
  | Some st => entry_line name st
  | None => printf (line "ls: cannot stat %s") [FStr name]
  end.

Lemma saw_room w w' i o o0 f :
  saw w w' i (<[1 := o]> (output w)) f -> output w !! 1 = Some o0 -> dom i = dom (input w) -> room w -> room w'.
Proof. intros ((Hi & Ho & _) & _) H1 Hd. unfold room. by rewrite Hi, Ho, Hd, dom_insert_lookup_L. Qed.

Lemma entry_returns w path fd st de l o :
  fd_info w !! fd = Some st -> st_type st = T_DIR -> input w !! fd = Some (de ++ l) -> length de = 16%nat -> room w ->
  output w !! 1 = Some o ->
  exists w', returns (entry_round path fd tt) w w' (inl tt) /\
    saw w w' (<[fd := l]> (input w)) (<[1 := o ++ entry_text (info w) path de]> (output w)) (fd_info w).
Proof.
  intros Hf Ht Hi Hde Hr Ho. destruct (read_saw w fd st _ Hf Ht Hi) as (w1 & H1 & (Hi1 & Ho1 & Hf1) & Hin1 & Hfd1).
  rewrite take_app_length' in H1 by done. rewrite drop_app_length' in Hi1 by done. unfold entry_text.
  set (name := path ++ SLASH :: until_nul (de_name de)).
  destruct (Z.eqb_spec (de_inum de) 0) as [Ez|Ez].
  { exists w1. split; [|split_and!; [split_and!; [done| |done]|done|done]; by rewrite app_nil_r, insert_id].
    eapply returns_bind; [exact H1|]. cbv beta iota. rewrite Hde, Nat.eqb_refl, Ez. apply returns_ret. }
  destruct (stat_saw w1 name) as (w2 & H2 & (Hi2 & Ho2 & Hf2) & Hin2 & Hfd2).
  { unfold room in *. by rewrite Hi1, Ho1, dom_insert_lookup_L. }
  rewrite Hin1 in H2. destruct (info w !! name) as [st'|].
  - destruct (printf_saw w2 1 o (line "%s %d %d %d") [FStr (fmtname name); FInt (st_type st'); FInt (st_ino st'); FInt (st_size st')])
      as (w3 & H3 & (Hi3 & Ho3 & Hf3) & Hin3 & Hfd3); [rewrite Ho2, Ho1; exact Ho|]. unfold entry_line.
    exists w3. split; [|split_and!; [split_and!|..]; congruence].
    eapply returns_bind; [exact H1|]. cbv beta iota. rewrite Hde, Nat.eqb_refl, (proj2 (Z.eqb_neq _ 0) Ez). cbn [negb].
    eapply returns_bind; [exact H2|]. eapply returns_bind; [exact H3|apply returns_ret].
  - destruct (printf_saw w2 1 o (line "ls: cannot stat %s") [FStr name]) as (w3 & H3 & (Hi3 & Ho3 & Hf3) & Hin3 & Hfd3);
      [rewrite Ho2, Ho1; exact Ho|].
    exists w3. split; [|split_and!; [split_and!|..]; congruence].
    eapply returns_bind; [exact H1|]. cbv beta iota. rewrite Hde, Nat.eqb_refl, (proj2 (Z.eqb_neq _ 0) Ez). cbn [negb].
    eapply returns_bind; [exact H2|]. eapply returns_bind; [exact H3|apply returns_ret].
Qed.

Lemma entries_return des : forall w path fd st t o,
  fd_info w !! fd = Some st -> st_type st = T_DIR -> input w !! fd = Some (concat des ++ t) ->
  Forall (fun de => length de = 16%nat) des -> (length t < 16)%nat -> room w -> output w !! 1 = Some o ->
  exists w', returns (ITree.iter (entry_round path fd) tt) w w' tt /\
    saw w w' (<[fd := []]> (input w)) (<[1 := o ++ concat (entry_text (info w) path <$> des)]> (output w)) (fd_info w).
Proof.
  induction des as [|de des IH]; intros w path fd st t o Hf Ht Hi Hl Hlt Hr Ho.
  - destruct (read_saw w fd st t Hf Ht Hi) as (w1 & H1 & Hs). rewrite take_ge in H1 by lia. rewrite drop_ge in Hs by lia.
    exists w1. split.
    + apply returns_stop. eapply returns_bind; [exact H1|]. cbv beta iota. rewrite (proj2 (Nat.eqb_neq _ 16)) by lia. apply returns_ret.
    + cbn. by rewrite app_nil_r, (insert_id (output w)).
  - apply Forall_cons in Hl as [Hde Hl]. cbn [concat] in Hi. rewrite <-app_assoc in Hi.
    destruct (entry_returns w path fd st de (concat des ++ t) o) as (w1 & H1 & Hs1); [done..|].
    pose proof (saw_room _ _ _ _ _ _ Hs1 Ho) as Hr1. rewrite dom_insert_lookup_L in Hr1 by done. specialize (Hr1 eq_refl Hr).
    destruct Hs1 as ((Hi1 & Ho1 & Hf1) & Hin1 & Hfd1).
    destruct (IH w1 path fd st t (o ++ entry_text (info w) path de)) as (w2 & H2 & (Hi2 & Ho2 & Hf2) & Hin2 & Hfd2);
      [by rewrite Hfd1|done|by rewrite Hi1, lookup_insert_eq|done|done|done|by rewrite Ho1, lookup_insert_eq|].
    exists w2. split; [by eapply returns_step|]. split_and!; [split_and!|..]; [| |congruence..].
    + by rewrite Hi2, Hi1, insert_insert_eq.
    + rewrite Ho2, Ho1, insert_insert_eq, Hin1. cbn [fmap list_fmap concat]. by rewrite <-app_assoc.
Qed.

(** The whole entries of a directory, 16 bytes each. *)
Definition entries (l : list Z) : list (list Z) := (fun i => take 16 (drop (16 * i) l)) <$> seq 0 (length l / 16).

Lemma entries_split l : exists t, l = concat (entries l) ++ t /\ (length t < 16)%nat /\ Forall (fun de => length de = 16%nat) (entries l).
Proof.
  unfold entries. assert (forall n, (16 * n <= length l)%nat ->
    take (16 * n) l = concat ((fun i => take 16 (drop (16 * i) l)) <$> seq 0 n)) as Hc.
  { induction n as [|n IH]; intros Hn; [done|]. rewrite seq_S, fmap_app, concat_app, <-IH by lia. cbn [fmap list_fmap concat Nat.add].
    rewrite app_nil_r, take_take_drop. f_equal. lia. }
  pose proof (Nat.div_mod (length l) 16 ltac:(lia)). pose proof (Nat.mod_upper_bound (length l) 16 ltac:(lia)).
  exists (drop (16 * (length l / 16)) l). split_and!.
  - rewrite <-Hc by lia. by rewrite take_drop.
  - rewrite length_drop. lia.
  - apply Forall_fmap, Forall_forall. intros i Hi%elem_of_seq. cbn. rewrite length_take, length_drop. lia.
Qed.

(** *** A path *)

(** What [ls] prints for a path that opens, with the bytes [l]. *)
Definition path_text (inf : gmap (list Z) ustat) (path : list Z) (st : ustat) (l : list Z) : list Z :=
  if st_type st =? T_FILE then entry_line path st
  else if st_type st =? T_DIR then
    if 512 <? Z.of_nat (length path) + 1 + DIRSIZ + 1 then chars (line "ls: path too long")
    else concat (entry_text inf path <$> entries l)
  else [].

Lemma body_returns w path fd st l o :
  fd_info w !! fd = Some st -> input w !! fd = Some l -> room w -> output w !! 1 = Some o ->
  exists l' w', returns (body path fd st) w w' tt /\
    saw w w' (<[fd := l']> (input w)) (<[1 := o ++ path_text (info w) path st l]> (output w)) (fd_info w).
Proof.
  intros Hf Hi Hr Ho. unfold body, path_text. destruct (_ =? T_FILE).
  - destruct (printf_saw w 1 o (line "%s %d %d %d") [FStr (fmtname path); FInt (st_type st); FInt (st_ino st); FInt (st_size st)] Ho)
      as (w' & H & Hs). exists l, w'. rewrite (insert_id (input w)) by done. split; [exact H|exact Hs].
  - destruct (Z.eqb_spec (st_type st) T_DIR) as [Ht|].
    + destruct (512 <? _).
      * destruct (printf_saw w 1 o (line "ls: path too long") [] Ho) as (w' & H & Hs). exists l, w'.
        rewrite (insert_id (input w)) by done. split; [exact H|exact Hs].
      * destruct (entries_split l) as (t & El & Hlt & Hall). rewrite El in Hi.
        destruct (entries_return (entries l) w path fd st t o Hf Ht Hi Hall Hlt Hr Ho) as (w' & H & Hs). by exists [], w'.
    + exists l, w. split; [apply returns_ret|]. by rewrite app_nil_r, !insert_id.
Qed.

(** Room for a descriptor beside the directory's. *)
Definition room2 (w : W) : Prop := (S (size (dom (input w) ∪ dom (output w))) < NOFILE)%nat.

Definition ls_text (fs : gmap (list Z) (list Z)) (inf : gmap (list Z) ustat) (path : list Z) : Z * list Z :=
  match inf !! path, fs !! path with
  | Some st, Some l => (1, path_text inf path st l)
  | _, _ => (2, printf (line "ls: cannot open %s") [FStr path])
  end.

Definition append (fd : Z) (s : list Z) (o : gmap Z (list Z)) : gmap Z (list Z) := alter (fun x => x ++ s) fd o.

Lemma append_insert fd s o x : o !! fd = Some x -> <[fd := x ++ s]> o = append fd s o.
Proof. intros H. unfold append. by rewrite <-(insert_id o fd x) at 2 by done; rewrite alter_insert_eq. Qed.

Lemma ls_returns w path o1 o2 :
  room2 w -> output w !! 1 = Some o1 -> output w !! 2 = Some o2 ->
  exists w', returns (ls path) w w' tt /\
    let '(fd, s) := ls_text (files w) (info w) path in saw w w' (input w) (append fd s (output w)) (fd_info w).
Proof.
  intros Hr H1 H2. unfold ls_text. destruct (info w !! path) as [st|] eqn:Ei.
  - destruct (open_saw w path st Ei) as (fd & l & w1 & R1 & H0 & El & Hi & Ho & Hf & (Hi1 & Ho1 & Hf1) & Hin1 & Hfd1).
    { unfold room, room2 in *. lia. }
    destruct (fstat_saw w1 fd st) as (w2 & R2 & (Hi2 & Ho2 & Hf2) & Hin2 & Hfd2); [by rewrite Hfd1, lookup_insert_eq|].
    destruct (body_returns w2 path fd st l o1) as (l' & w3 & R3 & (Hi3 & Ho3 & Hf3) & Hin3 & Hfd3).
    { by rewrite Hfd2, Hfd1, lookup_insert_eq. }
    { by rewrite Hi2, Hi1, lookup_insert_eq. }
    { unfold room, room2 in *. rewrite Hi2, Hi1, Ho2, Ho1, dom_insert_L, <-union_assoc_L, size_union, size_singleton; [done|].
      apply not_elem_of_dom in Hi, Ho. set_solver. }
    { by rewrite Ho2, Ho1. }
    destruct (close_saw w3 fd l') as (w4 & r & R4 & (Hi4 & Ho4 & Hf4) & Hin4 & Hfd4).
    { by rewrite Hi3, lookup_insert_eq. }
    { rewrite Ho3, lookup_insert_ne by congruence. by rewrite Ho2, Ho1. }
    exists w4. rewrite El. split.
    + eapply returns_bind; [exact R1|]. rewrite (proj2 (Z.ltb_ge fd 0)) by done. eapply returns_bind; [exact R2|].
      eapply returns_bind; [exact R3|]. eapply returns_bind; [exact R4|apply returns_ret].
    + split_and!; [split_and!|..]; [| |congruence..|].
      * by rewrite Hi4, Hi3, Hi2, Hi1, insert_insert_eq, delete_insert_id.
      * by rewrite Ho4, Ho3, Ho2, Ho1, Hin2, Hin1, (append_insert 1).
      * by rewrite Hfd4, Hfd3, Hfd2, Hfd1, delete_insert_id.
  - destruct (open_not_saw w path Ei) as (fd & w1 & R1 & H0 & (Hi1 & Ho1 & Hf1) & Hin1 & Hfd1).
    destruct (printf_saw w1 2 o2 (line "ls: cannot open %s") [FStr path]) as (w2 & R2 & (Hi2 & Ho2 & Hf2) & Hin2 & Hfd2); [by rewrite Ho1|].
    exists w2. split.
    + eapply returns_bind; [exact R1|]. by rewrite (proj2 (Z.ltb_lt fd 0)).
    + split_and!; [split_and!|..]; [congruence| |congruence..]. rewrite Ho2, Ho1. by apply append_insert.
Qed.

(** The output of [ls] on several paths. *)
Definition ls_output (fs : gmap (list Z) (list Z)) (inf : gmap (list Z) ustat) (paths : list (list Z)) (o : gmap Z (list Z)) :
    gmap Z (list Z) :=
  foldl (fun o path => let '(fd, s) := ls_text fs inf path in append fd s o) o paths.

Lemma append_some fd s o k : is_Some (o !! k) -> is_Some (append fd s o !! k).
Proof. intros H. unfold append. destruct (decide (fd = k)) as [->|]; [rewrite lookup_alter_eq|by rewrite lookup_alter_ne]. by apply fmap_is_Some. Qed.

(** Every descriptor that is opened is closed again. *)
Lemma paths_return paths : forall w,
  room2 w -> is_Some (output w !! 1) -> is_Some (output w !! 2) ->
  exists w', returns (for_each ls paths) w w' tt /\ saw w w' (input w) (ls_output (files w) (info w) paths (output w)) (fd_info w).
Proof.
  induction paths as [|path paths IH]; intros w Hr H1 H2; cbn [for_each].
  - exists w. split; [apply returns_ret|done].
  - destruct (ls_returns w path (output w !!! 1) (output w !!! 2) Hr) as (w1 & R1 & Hs); [by apply lookup_lookup_total..|].
    unfold ls_output. cbn [foldl]. destruct (ls_text (files w) (info w) path) as [fd s]. destruct Hs as ((Hi1 & Ho1 & Hf1) & Hin1 & Hfd1).
    destruct (IH w1) as (w2 & R2 & (Hi2 & Ho2 & Hf2) & Hin2 & Hfd2).
    { unfold room2 in *. rewrite Hi1, Ho1. unfold append. by rewrite dom_alter_L. }
    { rewrite Ho1. by apply append_some. }
    { rewrite Ho1. by apply append_some. }
    unfold ls_output in Ho2. rewrite Hf1, Hin1, Ho1 in Ho2. exists w2. split; [by eapply returns_bind|].
    split_and!; [split_and!|..]; [congruence|exact Ho2|congruence..].
Qed.

(** C28: [ls] prints for every path it is given, or for the current directory, the
    line of a file, or a line for every used entry of a directory, or an error
    for a path that does not open, in which case it goes on with the next. *)
Theorem ls_correct w argv :
  room2 w -> is_Some (output w !! 1) -> is_Some (output w !! 2) ->
  exists w', halts (main argv) w w' /\
    output w' = ls_output (files w) (info w) (match tail argv with [] => [[46]] | paths => paths end) (output w).
Proof.
  intros Hr H1 H2. set (paths := match tail argv with [] => [[46]] | paths => paths end).
  destruct (paths_return paths w Hr H1 H2) as (w0 & R & (_ & Ho & _) & _).
  exists (sys Exit w0).1. split; [|by rewrite exit_keeps]. destruct argv as [|a [|p ps]]; cbn in paths; subst paths;
    [| |by eapply halts_bind, halts_exit].
  all: destruct (ls_returns w [46] (output w !!! 1) (output w !!! 2) Hr) as (w1 & R1 & _); [by apply lookup_lookup_total..|];
    assert (returns (for_each ls [[46]]) w w1 tt) as R' by (eapply returns_bind; [exact R1|apply returns_ret]);
    destruct (returns_det _ _ _ _ _ _ R R') as [-> _]; by eapply halts_bind, halts_exit.
Qed.

End listing.

(** ** Examples *)

Definition tag {K A B} `{Countable K} (f : K -> B) (m : gmap K A) : gmap K B := map_imap (fun k _ => Some (f k)) m.

Lemma lookup_tag {K A B} `{Countable K} (f : K -> B) (m : gmap K A) k : tag f m !! k = (fun _ => f k) <$> m !! k.
Proof. unfold tag. rewrite map_lookup_imap. by destruct (m !! k). Qed.

(** A world whose files have attributes and are read in the sizes asked for. *)
Record dworld := MkDworld { d_world : world; d_attr : list Z -> ustat; d_fds : Z -> ustat }.

#[export] Instance dworld_system : System dworld := fun T e d =>
  let w := d_world d in
  let whole := MkWorld (u_files w) (u_in w) (u_out w) [] (u_answers w) in
  let '(w', a) := sys e whole in
  match e in sysE T' return option T' -> dworld * option T' with
  | Open path _ => fun a =>
      let fds fd := if fd <? 0 then d_fds d else fun k => if k =? fd then d_attr d path else d_fds d k in
      (MkDworld w' (d_attr d) (match a with Some fd => fds fd | None => d_fds d end), a)
  | Fstat fd => fun _ => (d, Some (if decide (fd ∈ dom (u_in w)) then Some (d_fds d fd) else None))
  | _ => fun a => (MkDworld w' (d_attr d) (d_fds d), a)
  end a.

#[export] Instance dworld_descriptors : Descriptors dworld.
Proof.
  refine {| files := fun d => files (d_world d); input := fun d => input (d_world d); output := fun d => output (d_world d) |};
    intros [[fs i o ps an] at_ fds]; cbn [d_world files input output world_descriptors u_files u_in u_out].
  - intros fd n l Hl Hn. destruct (read_some (MkWorld fs i o [] an) fd n l) as (k & w' & Hs & Hr); [exact Hl|exact Hn|]. exists k, (MkDworld w' at_ fds).
    split; [|exact Hr]. unfold sys at 1, dworld_system. cbn [d_world u_files u_in u_out u_answers]. by rewrite Hs.
  - intros fd x b Ho. destruct (write_all (MkWorld fs i o [] an) fd x b) as (w' & Hs & Hr); [exact Ho|]. exists (MkDworld w' at_ fds).
    split; [|exact Hr]. unfold sys at 1, dworld_system. cbn [d_world u_files u_in u_out u_answers]. by rewrite Hs.
  - intros path l Hl Hs. destruct (open_file (MkWorld fs i o [] an) path l) as (fd & w' & E & Hr); [exact Hl|exact Hs|]. eexists fd, (MkDworld w' at_ _).
    split; [|exact Hr]. unfold sys at 1, dworld_system. cbn [d_world u_files u_in u_out u_answers]. by rewrite E.
  - intros path Hn. destruct (open_missing (MkWorld fs i o [] an) path) as (fd & w' & E & Hr); [exact Hn|]. eexists fd, (MkDworld w' at_ _).
    split; [|exact Hr]. unfold sys at 1, dworld_system. cbn [d_world u_files u_in u_out u_answers]. by rewrite E.
  - intros fd l Hi Ho. destruct (close_input (MkWorld fs i o [] an) fd l) as (r & w' & E & Hr); [exact Hi|exact Ho|]. exists r, (MkDworld w' at_ fds).
    split; [|exact Hr]. unfold sys at 1, dworld_system. cbn [d_world u_files u_in u_out u_answers]. by rewrite E.
  - done.
Defined.

(** The effect of a call in this world. *)
Ltac run_call :=
  unfold sys, dworld_system, sys, world_system; cbn [d_world d_attr d_fds u_files u_in u_out u_pieces u_answers].

#[export] Instance dworld_attributes : Attributes dworld.
Proof.
  refine {| info := fun d => tag (d_attr d) (files (d_world d)); fd_info := fun d => tag (d_fds d) (input (d_world d)) |};
    intros [[fs i o ps an] at_ fds]; cbn [d_world d_attr d_fds files input output dworld_descriptors world_descriptors u_files u_in u_out].
  - apply set_eq. intros p. rewrite !elem_of_dom, lookup_tag. apply fmap_is_Some.
  - intros path st fd d' Hst. run_call.
    rewrite lookup_tag in Hst. destruct (fs !! path) as [l|]; [|done]. injection Hst as <-.
    destruct (u_free (MkWorld fs i o [] an)) as [fd'|] eqn:Ef; intros [= <- <-] H0; [|lia]. rewrite (proj2 (Z.ltb_ge fd' 0)) by done. cbn [d_world u_in u_files d_attr d_fds].
    assert (i !! fd' = None) as Hn.
    { unfold u_free in Ef. apply head_Some_elem_of, list_elem_of_filter in Ef as [Ef _]. unfold u_open in Ef. cbn [u_in u_out] in Ef.
      apply not_elem_of_dom. set_solver. }
    split_and!; [by rewrite lookup_tag, Hn| |done]. apply map_eq. intros k. rewrite lookup_tag. destruct (decide (k = fd')) as [->|].
    + by rewrite !lookup_insert_eq, Z.eqb_refl.
    + by rewrite !lookup_insert_ne, lookup_tag, (proj2 (Z.eqb_neq k fd')).
  - intros path fd d'. run_call.
    destruct (fs !! path); [destruct (u_free (MkWorld fs i o [] an)) as [fd'|] eqn:Ef|]; intros [= <- <-] H0; [|done..]. exfalso.
    unfold u_free in Ef. apply head_Some_elem_of, list_elem_of_filter in Ef as [_ Ef]. apply elem_of_seqZ in Ef. lia.
  - intros fd st. rewrite lookup_tag. intros Hs. eexists. run_call.
    destruct (i !! fd) eqn:E; [|done]. injection Hs as <-. rewrite decide_True by (apply elem_of_dom; by rewrite E). by split_and!.
  - intros fd. cbn. split; [|done]. apply map_eq. intros k. rewrite lookup_tag. destruct (decide (k = fd)) as [->|];
      [by rewrite !lookup_delete_eq|by rewrite !lookup_delete_ne, lookup_tag].
  - intros fd b. run_call. by destruct (o !! fd).
  - intros fd n. run_call. destruct (i !! fd) eqn:E; [|done]. cbn. split; [|done]. apply map_eq. intros k. rewrite !lookup_tag.
    destruct (decide (k = fd)) as [->|]; [by rewrite lookup_insert_eq, E|by rewrite lookup_insert_ne].
  - intros fd st l n _ _ Hi _. run_call. by rewrite Hi.
Defined.

(** A directory with a file, a free entry and a name that is gone. *)
Definition demo_entry (inum : Z) (name : string) : list Z :=
  [inum; 0] ++ chars name ++ replicate (14 - length (chars name)) 0.
Definition demo_dir : dworld :=
  MkDworld
    (MkWorld (list_to_map [(chars ".", demo_entry 5 "a" ++ demo_entry 0 "old" ++ demo_entry 7 "b"); (chars "./a", chars "hello")])
       {[0 := []]} (<[1 := []]> {[2 := []]}) [] [])
    (fun p => if decide (p = chars ".") then MkUstat T_DIR 1 48 else MkUstat T_FILE 5 5) (fun _ => MkUstat T_DEV 0 0).

Lemma ls_correct_witness : exists w', halts (main [chars "ls"; chars "."; chars "x"]) demo_dir w' /\
  output w' !! 1 = Some (chars (line "a              2 5 5") ++ chars (line "ls: cannot stat ./b")) /\
  output w' !! 2 = Some (chars (line "ls: cannot open x")).
Proof.
  destruct (ls_correct demo_dir [chars "ls"; chars "."; chars "x"]) as (w' & H & Ho).
  - apply Nat.ltb_lt. vm_compute. reflexivity.
  - vm_compute. by eexists.
  - vm_compute. by eexists.
  - exists w'. split; [exact H|]. rewrite Ho. clear. split; vm_compute; reflexivity.
Defined.
