(* ===== verification/Uread.v ===== *)
(** * Programs on the kernel's files (cat.c, wc.c on file.c, fs.c, log.c, bio.c)

    [fileread] on an open inode delivers the bytes of the file on the disk from
    the offset on, and moves the offset.  A world in which descriptor 0 is such
    a file and [read] is [fileread] therefore keeps the promises that [cat] and
    [wc] rely on, and what they print is a statement about the disk. *)

From Stdlib Require Import Ascii String.
From stdpp Require Import base numbers list option strings gmap.
From S2P Require Import Prelude Kernel Fields Spinlock Proc Cprintf Cstring Bytes Sleeplock Dll Bio Log Txn Kalloc Pipe Inode Fs File Durable.
From S2P Require Import Ulib Usys Utools.

Section reader.
Context `{Kalloc.Link} `{Fuel}.
Implicit Types (s : kernel).

(** File [f], open for reading, is the inode in entry [ip] of the inode table;
    no transaction is under way. *)
Record reader s (f ip : nat) (t : file) (n : inode) : Prop := {
  rd_idle : log_idle s;
  rd_geo : fs_geo s;
  rd_file : k_files s !! f = Some t;
  rd_type : f_type t = FD_INODE /\ f_ip t = Some ip /\ f_readable t = true;
  rd_inode : k_inodes s !! ip = Some n;
  rd_ref : 1 <= i_ref n /\ sl_locked (i_lock n) = 0;
  rd_inum : i_dev n = 1 /\ 0 <= i_inum n < sb_ninodes (k_sb s);
  rd_coherent : coherent (k_disk s) (k_sb s) n;
  rd_regular : let di := disk_inode (k_disk s) (k_sb s) (i_inum n) in
    di_type di <> 0 /\ di_type di <> T_DEV /\ file_ok (k_disk s) (k_sb s) (di_addrs di) (di_size di);
  rd_off : 0 <= f_off t <= di_size (disk_inode (k_disk s) (k_sb s) (i_inum n));
}.

(** What is left to read. *)
Definition rest s (t : file) (n : inode) : list Z :=
  drop (Z.to_nat (f_off t)) (disk_file (k_disk s) (k_sb s) (i_inum n)).

(** The file after a read of [m] bytes, with its inode loaded and unlocked. *)
Lemma reader_moved s s' f ip t n m pid :
  let di := disk_inode (k_disk s) (k_sb s) (i_inum n) in
  let t' := set_f_off (f_off t + m) t in
  let n' := set_i_lock (mksleeplock 0 0) (loaded pid di n) in
  reader s f ip t n -> tx s' (k_disk s) [] ∅ -> fs_geo s' -> k_disk s' = k_disk s -> k_sb s' = k_sb s ->
  log_outstanding (k_log s') = log_outstanding (k_log s) -> log_committing (k_log s') = log_committing (k_log s) ->
  0 <= m <= di_size di - f_off t ->
  k_files s' = <[f := t']> (k_files s) -> k_inodes s' = <[ip := n']> (k_inodes s) ->
  reader s' f ip t' n' /\ rest s' t' n' = drop (Z.to_nat m) (rest s t n).
Proof.
  intros di t' n' [[Hok Hout Hcom] Hg Hft Hty Hn [Href Hlk] Hinum Hco Hreg Hoff] Htx Hg' Ed Esb Eo Ec Hm Ef Ei.
  split.
  - split; rewrite ?Ed, ?Esb; try done.
    + split; [by rewrite Ed|congruence..].
    + rewrite Ef. apply list_lookup_insert_eq. by eapply lookup_lt_Some.
    + rewrite Ei. apply list_lookup_insert_eq. by eapply lookup_lt_Some.
    + change (0 <= f_off t + m <= di_size di). lia.
  - unfold rest, disk_file. rewrite Ed, Esb, drop_drop. change (i_inum n') with (i_inum n). f_equal. change (f_off t') with (f_off t + m). lia.
Qed.

(** [fileread] returns the next bytes, as many as asked for or as there are,
    and leaves the file ready for the next read. *)
Lemma fileread_spec s f ip t n len :
  reader s f ip t n -> 0 <= len < 2 ^ 31 ->
  wp (fileread f len) s (fun r s' =>
    let m := Nat.min (Z.to_nat len) (length (rest s t n)) in
    r = (Z.of_nat m, take m (rest s t n)) /\
    exists t' n', reader s' f ip t' n' /\ rest s' t' n' = drop m (rest s t n) /\ k_disk s' = k_disk s).
Proof.
  intros Hrd0 Hlen. pose proof Hrd0 as [[Hok Hout Hcom] Hg Hft (Hty & Hip & Hrd) Hn [Href Hlk] [Hdev Hinum] Hco (Hnz & Hdv & Hfo) Hoff].
  set (V := k_disk s) in *. set (di := disk_inode V (k_sb s) (i_inum n)) in *.
  unfold fileread. apply wp_bind. eapply wp_run; [reflexivity|]. rewrite (list_lookup_total_correct _ _ _ Hft), Hrd, Hty. cbn [negb].
  unfold deref. rewrite Hip. apply wp_bind, wp_ret, wp_bind.
  eapply wp_mono; [apply (ilock_spec s V [] ∅ ip n); try done|]; [vm_compute; lia|].
  intros _ s2 (Hok2 & Hf2 & Ei2). fold di in Ei2. set (n2 := loaded _ di n) in Ei2.
  pose proof (lookup_lt_Some _ _ _ Hn) as Hlt. assert (k_inodes s2 !! ip = Some n2) as En2 by by rewrite Ei2, list_lookup_insert_eq.
  apply wp_bind. eapply wp_run; [reflexivity|]. rewrite (ff_files Hf2), (list_lookup_total_correct _ _ _ Hft).
  pose proof (fo_size _ _ _ _ Hfo) as Hsz. change (MAXFILE * BSIZE) with 71680 in Hsz.
  apply wp_bind. eapply wp_mono.
  { apply (readi_spec s2 V [] ip n2 (f_off t) len); [done|by eapply fs_geo_frame|by vm_compute; lia|by apply list_lookup_total_correct|done|done| |lia|lia].
    by rewrite (ff_sb Hf2). }
  change (i_size n2) with (di_size di). change (i_addrs n2) with (di_addrs di).
  rewrite (proj2 (Z.ltb_ge (di_size di) (f_off t))), (proj2 (Z.leb_gt _ (f_off t + len))) by lia. cbn [orb].
  intros r s3 (-> & Hok3 & Hf3 & Ei3). cbv zeta. set (m := Z.min len _). cbn [fst].
  assert (fframe s s3) as Hfs by by rewrite Hf2. set (t' := set_f_off (f_off t + m) t).
  apply wp_bind, (wp_run _ _ tt (set_k_files (<[f := t']> (k_files s)) s3)).
  { rewrite <-(ff_files Hfs). pose proof Hft as Hft3. rewrite <-(ff_files Hfs) in Hft3. destruct (Z.ltb_spec 0 m); cbn [when].
    - unfold upd_file, modify. by rewrite (alter_is_insert _ _ _ _ Hft3), u32_small by lia.
    - assert (t' = t) as -> by (unfold t'; replace (f_off t + m) with (f_off t) by lia; by destruct t).
      rewrite list_insert_id by done. by destruct s3. }
  set (s4 := set_k_files _ s3). pose proof (tx_quiet _ _ _ _ Hok3) as Hq3.
  assert (tx s4 V [] ∅) as Hok4 by (apply (tx_frame s3); [done|by destruct Hq3|done..]).
  apply wp_bind. eapply wp_mono; [apply (iunlock_spec s4 V [] ∅ ip n2); [done|by unfold s4; kproj; rewrite Ei3|done|]|].
  { change (cur_pid s4) with (cur_pid s3). by rewrite (ff_pid Hfs). }
  intros _ s5 (Hok5 & Hf5 & Ei5). apply wp_ret.
  assert (length (rest s t n) = Z.to_nat (di_size di - f_off t)) as Elen.
  { unfold rest, disk_file. fold V di. rewrite length_drop, length_file. lia. }
  assert (Z.of_nat (Nat.min (Z.to_nat len) (length (rest s t n))) = m) as Em by (rewrite Elen; lia).
  cbv zeta. rewrite Em. split; [f_equal; unfold slice, rest, disk_file; by rewrite <-Em, Nat2Z.id|].
  exists t', (set_i_lock (mksleeplock 0 0) n2).
  destruct (reader_moved s s5 f ip t n m (cur_pid s)) as [Hr Hrest]; fold V di; try done.
  - eapply fs_geo_frame; [exact Hf5|]. by destruct (fs_geo_frame _ _ Hfs Hg).
  - exact (eq_trans (ff_disk Hf5) (ff_disk Hfs)).
  - exact (eq_trans (ff_sb Hf5) (ff_sb Hfs)).
  - exact (eq_trans (ff_outstanding Hf5) (ff_outstanding Hfs)).
  - exact (eq_trans (ff_committing Hf5) (ff_committing Hfs)).
  - lia.
  - by rewrite (ff_files Hf5).
  - rewrite Ei5. unfold s4. kproj. by rewrite Ei3, Ei2, list_insert_insert_eq.
  - split_and!; [exact Hr|rewrite <-(Nat2Z.id (Nat.min _ _)), Em; exact Hrest|exact (eq_trans (ff_disk Hf5) (ff_disk Hfs))].
Qed.

End reader.

(** ** The kernel as the system of a program *)

Section kernel_world.
Context `{Kalloc.Link} `{Fuel} (f : nat).

Definition is_reader (s : kernel) : Prop := exists ip t n, reader s f ip t n.

(** Descriptor 0 is the open file [f] of the kernel; the other descriptors
    collect what is written to them. *)
Record kworld := MkKworld {
  kw_kernel : kernel;
  kw_reader : is_reader kw_kernel;
  kw_open : bool;
  kw_out : gmap Z (list Z);
}.

(** The inode of the file, and what is left to read. *)
Definition stdin_rest (s : kernel) : list Z :=
  let t := k_files s !!! f in rest s t (k_inodes s !!! default 0%nat (f_ip t)).

Lemma stdin_rest_reader s ip t n : reader s f ip t n -> stdin_rest s = rest s t n.
Proof.
  intros Hr. unfold stdin_rest. rewrite (list_lookup_total_correct _ _ _ (rd_file _ _ _ _ _ Hr)).
  destruct (rd_type _ _ _ _ _ Hr) as (_ & -> & _). cbn [default]. by rewrite (list_lookup_total_correct _ _ _ (rd_inode _ _ _ _ _ Hr)).
Qed.

Lemma fileread_reader s len :
  is_reader s -> 0 <= len < 2 ^ 31 ->
  exists s', let m := Nat.min (Z.to_nat len) (length (stdin_rest s)) in
    fileread f len s = Ret (Z.of_nat m, take m (stdin_rest s)) s' /\ is_reader s' /\ stdin_rest s' = drop m (stdin_rest s).
Proof.
  intros (ip & t & n & Hr) Hlen. destruct (wp_inv _ _ _ (fileread_spec s f ip t n len Hr Hlen)) as (r & s' & Hrun & -> & t' & n' & Hr' & E & _).
  exists s'. cbv zeta. rewrite (stdin_rest_reader _ _ _ _ Hr). split_and!; [done|by exists ip, t', n'|by rewrite (stdin_rest_reader _ _ _ _ Hr')].
Qed.

Lemma fileread_keeps s len r s' : is_reader s -> 0 <= len < 2 ^ 31 -> fileread f len s = Ret r s' -> is_reader s'.
Proof. intros Hr Hlen Hrun. destruct (fileread_reader s len Hr Hlen) as (s1 & E & Hr' & _). rewrite E in Hrun. by injection Hrun as _ <-. Qed.

(** [read] of descriptor 0. *)
Definition kread (n : Z) (w : kworld) : kworld * option (option (list Z)) :=
  match decide (0 <= n < 2 ^ 31) with
  | left Hn =>
      match fileread f n (kw_kernel w) as x return fileread f n (kw_kernel w) = x -> _ with
      | Ret (m, bytes) s' => fun E =>
          (MkKworld s' (fileread_keeps _ _ _ _ (kw_reader w) Hn E) (kw_open w) (kw_out w), Some (if m <? 0 then None else Some bytes))
      | _ => fun _ => (w, None)
      end eq_refl
  | right _ => (w, Some None)
  end.

#[export] Instance kworld_system : System kworld := fun T e w =>
  match e in sysE T return kworld * option T with
  | Exit => (w, None)
  | Read fd n => if (fd =? 0) && kw_open w then kread n w else (w, Some None)
  | Write fd b =>
      match kw_out w !! fd with
      | Some o => (MkKworld (kw_kernel w) (kw_reader w) (kw_open w) (<[fd := o ++ b]> (kw_out w)), Some (Z.of_nat (length b)))
      | None => (w, Some (-1))
      end
  | Close fd => (MkKworld (kw_kernel w) (kw_reader w) (kw_open w && negb (fd =? 0)) (delete fd (kw_out w)), Some 0)
  | Waitx => (w, Some None)
  | Pipe => (w, Some None)
  | Fstat _ => (w, Some None)
  | Fork | Wait | Kill _ | Exec _ _ | Open _ _ | Mknod _ _ _ | Unlink _ | Link _ _ | Mkdir _ | Chdir _ | Dup _ | Getpid | Sbrk _
  | Sleep _ | Uptime => (w, Some (-1))
  end.

Lemma kread_run n w :
  0 <= n < 2 ^ 31 ->
  exists w', let m := Nat.min (Z.to_nat n) (length (stdin_rest (kw_kernel w))) in
    kread n w = (w', Some (Some (take m (stdin_rest (kw_kernel w))))) /\
    stdin_rest (kw_kernel w') = drop m (stdin_rest (kw_kernel w)) /\ kw_open w' = kw_open w /\ kw_out w' = kw_out w.
Proof.
  intros Hn. destruct (fileread_reader (kw_kernel w) n (kw_reader w) Hn) as (s' & E & _ & Hrest). cbv zeta in *.
  set (m := Nat.min _ _) in *. unfold kread. destruct (decide _) as [Hn'|]; [|done].
  generalize (fileread_keeps (kw_kernel w) n). set (x := fileread f n (kw_kernel w)) in *. clearbody x. subst x. intros K.
  rewrite (proj2 (Z.ltb_ge (Z.of_nat m) 0)) by lia. eexists. split; [reflexivity|]. by split_and!.
Qed.

#[export] Instance kworld_descriptors : Descriptors kworld.
Proof.
  refine {| files := fun _ => ∅; input := fun w => if kw_open w then {[0 := stdin_rest (kw_kernel w)]} else ∅; output := kw_out |}.
  - intros w fd n l Hl Hn. destruct (kw_open w) eqn:Eo; [|done]. apply lookup_singleton_Some in Hl as [<- <-].
    destruct (kread_run n w ltac:(lia)) as (w' & E & Hr & Eo' & Eout). eexists _, w'. unfold sys, kworld_system. rewrite Z.eqb_refl, Eo. cbn [andb].
    split; [exact E|]. split; [lia|]. split; [intros Hne; destruct (stdin_rest _); [done|cbn [length]; lia]|].
    rewrite Eo', Eo, Hr, insert_singleton_eq. done.
  - intros w fd o b Ho. unfold sys, kworld_system. rewrite Ho. by eexists.
  - done.
  - intros w path _. by exists (-1), w.
  - intros w fd l Hi Ho. destruct (kw_open w) eqn:Eo; [|done]. apply lookup_singleton_Some in Hi as [<- <-]. eexists _, _.
    unfold sys, kworld_system. split; [reflexivity|]. cbn [kw_open kw_out kw_kernel]. rewrite andb_false_r, delete_singleton_eq.
    split_and!; [done|by apply delete_id|done].
  - done.
Defined.

(** C4: [cat] and [wc] with a file of the kernel as their standard input: [cat]
    prints the bytes that the disk holds for the file, from the offset on, and
    [wc] their numbers of lines, words and bytes. *)
Theorem tools_read_disk s ip t n argv0 :
  forall Hr : is_reader s, reader s f ip t n ->
  let w := MkKworld s Hr true {[1 := []]} in
  let text := drop (Z.to_nat (f_off t)) (disk_file (k_disk s) (k_sb s) (i_inum n)) in
  (exists w', halts (Cat.main [argv0]) w w' /\ kw_out w' !! 1 = Some text) /\
  (exists w', halts (Wc.main [argv0]) w w' /\ kw_out w' !! 1 = Some (wc_line [] text)).
Proof.
  intros Hr Hrd w text. assert (input w !! 0 = Some text) as Hi.
  { cbn [input kworld_descriptors w kw_open kw_kernel]. by rewrite lookup_singleton_eq, (stdin_rest_reader _ _ _ _ Hrd). }
  assert (room w) as Hroom. { unfold room. cbn [input output kworld_descriptors w kw_open kw_out]. rewrite !dom_singleton_L. by vm_compute; lia. }
  split.
  - destruct (cat_main w [argv0] text [] Hroom Hi) as (w' & Hh & Ho); [done|]. exists w'. split; [done|].
    change (kw_out w') with (output w'). rewrite Ho. apply lookup_insert_eq.
  - destruct (wc_main w [argv0] text [] Hroom Hi) as (w' & Hh & Ho); [done| |done|].
    + unfold text, disk_file. rewrite length_drop, length_file. pose proof (rd_regular _ _ _ _ _ Hrd) as (_ & _ & Hfo).
      pose proof (fo_size _ _ _ _ Hfo) as Hsz. change (MAXFILE * BSIZE) with 71680 in Hsz. lia.
    + exists w'. split; [done|]. change (kw_out w') with (output w'). rewrite Ho. apply lookup_insert_eq.
Qed.

End kernel_world.

(** ** The theorem on a small disk *)

#[local] Instance demo_fuel : Fuel := 1%nat.
#[local] Existing Instance demo_link.

(** The file of 700 bytes is open, three bytes before its end. *)
Definition demo_stdin : file := mkfile FD_INODE 1 true true 0 (Some 0%nat) 697.
Definition demo_input : kernel := set_k_files (<[3%nat := demo_stdin]> (replicate NFILE file_zero)) demo_writer.

Lemma demo_input_reader : reader demo_input 3 0 demo_stdin demo_entry.
Proof.
  split; [| |reflexivity|split; [reflexivity|split; reflexivity]|reflexivity| | |intros Hv; discriminate Hv| |].
  - split; [split|done|done].
    + split; vm_compute; (done || lia).
    + split; try done. constructor.
    + refine (demo_bufs_ok demo_input _ eq_refl demo_disk_ok). by split.
    + by vm_compute.
  - split; vm_compute; (done || lia).
  - split; by vm_compute.
  - split; [done|]. split; by vm_compute.
  - split_and!; [by vm_compute|by vm_compute|apply file_okb_ok; by vm_compute].
  - split; by vm_compute.
Qed.

Lemma tools_read_disk_witness :
  let w := MkKworld 3 demo_input (ex_intro _ _ (ex_intro _ _ (ex_intro _ _ demo_input_reader))) true {[1 := []]} in
  (exists w', halts (Cat.main [chars "cat"]) w w' /\ kw_out 3 w' !! 1 = Some (chars "BBB")) /\
  (exists w', halts (Wc.main [chars "wc"]) w w' /\ kw_out 3 w' !! 1 = Some (chars (line "0 1 3 "))).
Proof.
  assert (drop (Z.to_nat (f_off demo_stdin)) (disk_file (k_disk demo_input) (k_sb demo_input) (i_inum demo_entry)) = chars "BBB") as E
    by by vm_compute.
  pose proof (tools_read_disk 3 demo_input 0 demo_stdin demo_entry) as Ht. rewrite E in Ht. split.
  - exact (proj1 (Ht (chars "cat") _ demo_input_reader)).
  - exact (proj2 (Ht (chars "wc") _ demo_input_reader)).
Defined.
