(* ===== verification/Uspec.v ===== *)
(** * A specification of the system calls

    An abstract system: directories are lists of names, files are lists of
    bytes, pipes are queues, processes are trees of system calls that run in
    turn.  It has the limits that programs can observe (the descriptors of a
    process, the number of processes, the length of names, files and pipes) and
    no others: blocks, buffers and inodes never run out. *)

From Stdlib Require Import Ascii String.
From stdpp Require Import base numbers list option strings gmap.
From ITree Require Import ITree.
From S2P Require Import Prelude Kernel Cprintf Cstring Ulib Usys Utools.

(** ** State *)

(** A file, a directory or a device.  An entry of a directory may be free. *)
Record node := MkNode { nd_type : Z; nd_data : list Z; nd_ents : list (option (list Z * Z)) }.

Inductive obj := ONode (i : Z) | OPipe (p : Z).
Record ofile := MkOfile { of_obj : obj; of_off : Z; of_readable : bool; of_writable : bool; of_ref : nat }.
Record queue := MkQueue { q_data : list Z; q_ropen : bool; q_wopen : bool }.

Record process := MkProcess {
  pr_pid : Z;
  pr_parent : Z;
  pr_fds : list (option Z);
  pr_cwd : Z;
  pr_brk : Z;
  pr_killed : bool;
  pr_code : option (prog unit);   (* None for a zombie *)
}.

Record system := MkSystem {
  y_nodes : gmap Z node;
  y_files : gmap Z ofile;
  y_pipes : gmap Z queue;
  y_procs : list process;         (* the others, in the order of their turns *)
  y_next : Z;                     (* the next process and the next node *)
  y_out : list Z;                 (* what the console shows, last character first *)
}.

Definition set_nodes f y := MkSystem (f (y_nodes y)) (y_files y) (y_pipes y) (y_procs y) (y_next y) (y_out y).
Definition set_files f y := MkSystem (y_nodes y) (f (y_files y)) (y_pipes y) (y_procs y) (y_next y) (y_out y).
Definition set_pipes f y := MkSystem (y_nodes y) (y_files y) (f (y_pipes y)) (y_procs y) (y_next y) (y_out y).
Definition set_procs f y := MkSystem (y_nodes y) (y_files y) (y_pipes y) (f (y_procs y)) (y_next y) (y_out y).
Definition bump y := MkSystem (y_nodes y) (y_files y) (y_pipes y) (y_procs y) (y_next y + 1) (y_out y).
Definition show s y := MkSystem (y_nodes y) (y_files y) (y_pipes y) (y_procs y) (y_next y) (rev_append s (y_out y)).

Definition set_code c p := MkProcess (pr_pid p) (pr_parent p) (pr_fds p) (pr_cwd p) (pr_brk p) (pr_killed p) c.
Definition set_fds f p := MkProcess (pr_pid p) (pr_parent p) (f (pr_fds p)) (pr_cwd p) (pr_brk p) (pr_killed p) (pr_code p).
Definition set_cwd c p := MkProcess (pr_pid p) (pr_parent p) (pr_fds p) c (pr_brk p) (pr_killed p) (pr_code p).
Definition set_brk b p := MkProcess (pr_pid p) (pr_parent p) (pr_fds p) (pr_cwd p) b (pr_killed p) (pr_code p).
Definition set_killed p := MkProcess (pr_pid p) (pr_parent p) (pr_fds p) (pr_cwd p) (pr_brk p) true (pr_code p).
Definition set_parent q p := MkProcess (pr_pid p) q (pr_fds p) (pr_cwd p) (pr_brk p) (pr_killed p) (pr_code p).

(** ** Paths *)

Definition ROOT : Z := 1.

(** The elements of a path, cut to the length of a name. *)
Fixpoint elements (fuel : nat) (path : list Z) : list (list Z) :=
  match fuel with
  | O => []
  | S fuel' =>
      match path with
      | [] => []
      | 47 :: path' => elements fuel' path'
      | _ =>
          let elem := take (default (length path) (fst <$> list_find (fun c => c = 47) path)) path in
          take (Z.to_nat DIRSIZ) elem :: elements fuel' (drop (length elem) path)
      end
  end.
Definition path_elements (path : list Z) : list (list Z) := elements (S (length path)) path.

Definition ents (y : system) (i : Z) : option (list (option (list Z * Z))) :=
  match y_nodes y !! i with
  | Some n => if nd_type n =? T_DIR then Some (nd_ents n) else None
  | None => None
  end.

Definition entry_of (name : list Z) (e : option (list Z * Z)) : option Z :=
  match e with Some (n, i) => if bool_decide (n = name) then Some i else None | None => None end.
Definition find_entry (es : list (option (list Z * Z))) (name : list Z) : option Z := head (omap (entry_of name) es).

(** Follows the elements from a directory. *)
Fixpoint walk (y : system) (i : Z) (elems : list (list Z)) : option Z :=
  match elems with
  | [] => Some i
  | name :: elems' =>
      match ents y i with
      | Some es => match find_entry es name with Some j => walk y j elems' | None => None end
      | None => None
      end
  end.

Definition start (p : process) (path : list Z) : Z := if bool_decide (head path = Some 47) then ROOT else pr_cwd p.
Definition namei (p : process) (y : system) (path : list Z) : option Z := walk y (start p path) (path_elements path).
Definition nameiparent (p : process) (y : system) (path : list Z) : option (Z * list Z) :=
  match rev (path_elements path) with
  | [] => None
  | name :: dirs =>
      match walk y (start p path) (rev dirs) with
      | Some d => match ents y d with Some _ => Some (d, name) | None => None end
      | None => None
      end
  end.

(** Puts an entry into the first free place. *)
Fixpoint add_entry (e : list Z * Z) (es : list (option (list Z * Z))) : list (option (list Z * Z)) :=
  match es with
  | [] => [Some e]
  | None :: es' => Some e :: es'
  | Some x :: es' => Some x :: add_entry e es'
  end.
Definition remove_entry (name : list Z) (es : list (option (list Z * Z))) : list (option (list Z * Z)) :=
  (fun e => match entry_of name e with Some _ => None | None => e end) <$> es.
Definition upd_ents (f : list (option (list Z * Z)) -> list (option (list Z * Z))) (d : Z) (y : system) : system :=
  set_nodes (alter (fun n => MkNode (nd_type n) (nd_data n) (f (nd_ents n))) d) y.

(** The bytes of a directory: an entry has 16, all zero when it is free. *)
Definition dir_bytes (es : list (option (list Z * Z))) : list Z :=
  concat ((fun e => match e with
                    | Some (name, i) => [i mod 256; i / 256] ++ name ++ replicate (Z.to_nat DIRSIZ - length name) 0
                    | None => replicate 16 0
                    end) <$> es).

(** ** Files *)

Definition is_empty_dir (y : system) (i : Z) : bool :=
  match ents y i with Some es => (length (filter (fun e => e <> None) es) =? 2)%nat | None => true end.

(** [create]: the node and the system. *)
Definition create (p : process) (y : system) (path : list Z) (type : Z) : option (Z * system) :=
  match nameiparent p y path with
  | None => None
  | Some (d, name) =>
      match find_entry (default [] (ents y d)) name with
      | Some i =>
          if (type =? T_FILE) && bool_decide (nd_type <$> y_nodes y !! i = Some T_FILE) then Some (i, y) else None
      | None =>
          let i := y_next y in
          let es := if type =? T_DIR then [Some ([46], i); Some ([46; 46], d)] else [] in
          Some (i, upd_ents (add_entry (name, i)) d (set_nodes (<[i := MkNode type [] es]>) (bump y)))
      end
  end.

Definition unlink_ (p : process) (y : system) (path : list Z) : option system :=
  match nameiparent p y path with
  | None => None
  | Some (d, name) =>
      if bool_decide (name = [46] \/ name = [46; 46]) then None else
      match find_entry (default [] (ents y d)) name with
      | None => None
      | Some i => if is_empty_dir y i then Some (upd_ents (remove_entry name) d y) else None
      end
  end.

Definition link_ (p : process) (y : system) (old new : list Z) : option system :=
  match namei p y old with
  | None => None
  | Some i =>
      match ents y i, nameiparent p y new with
      | None, Some (d, name) =>
          match find_entry (default [] (ents y d)) name with
          | Some _ => None
          | None => Some (upd_ents (add_entry (name, i)) d y)
          end
      | _, _ => None
      end
  end.

(** The lowest free descriptor. *)
Definition fdalloc (fds : list (option Z)) : option nat := fst <$> list_find (fun d => d = None) fds.

(** A new open file in the lowest free descriptor. *)
Definition new_file (o : ofile) (p : process) (y : system) : option (Z * process * system) :=
  match fdalloc (pr_fds p) with
  | None => None
  | Some fd =>
      let f := y_next y in
      Some (Z.of_nat fd, set_fds (<[fd := Some f]>) p, set_files (<[f := o]>) (bump y))
  end.

Definition get_fd (p : process) (fd : Z) : option Z := if fd <? 0 then None else mjoin (pr_fds p !! Z.to_nat fd).

(** Drops a reference to an open file; the last one closes the end of a pipe. *)
Definition put_file (f : Z) (y : system) : system :=
  match y_files y !! f with
  | None => y
  | Some o =>
      if (1 <? of_ref o)%nat then set_files (<[f := MkOfile (of_obj o) (of_off o) (of_readable o) (of_writable o) (pred (of_ref o))]>) y
      else
        let y := set_files (delete f) y in
        match of_obj o with
        | ONode _ => y
        | OPipe q =>
            set_pipes (alter (fun x => MkQueue (q_data x) (q_ropen x && negb (of_readable o)) (q_wopen x && negb (of_writable o))) q) y
        end
  end.
Definition dup_file (f : Z) (y : system) : system :=
  set_files (alter (fun o => MkOfile (of_obj o) (of_off o) (of_readable o) (of_writable o) (S (of_ref o))) f) y.
Definition set_off (f : Z) (off : Z) (y : system) : system :=
  set_files (alter (fun o => MkOfile (of_obj o) off (of_readable o) (of_writable o) (of_ref o)) f) y.

(** ** Calls *)

(** A call blocks, or the process goes on: it is replaced by the processes of
    the list, itself and a child or nothing. *)
Inductive outcome := Blocked | Ran (ps : list process) (y : system).

(** [exit]: open files are closed, the children go to the first process, and
    those of them that are zombies are gone. *)
Definition exit_ (p : process) (y : system) : outcome :=
  let y := foldr (fun d y => match d with Some f => put_file f y | None => y end) y (pr_fds p) in
  let mine c := pr_parent c =? pr_pid p in
  let adopt c := if mine c then match pr_code c with Some _ => Some (set_parent 1 c) | None => None end else Some c in
  let y := set_procs (omap adopt) y in
  Ran (if pr_parent p =? 1 then [] else [set_fds (fun _ => []) (set_code None p)]) y.

(** [fork]: the child has the answer 0. *)
Definition fork_ (k : Z -> prog unit) (p : process) (y : system) : outcome :=
  if (NPROC <=? 2 + length (y_procs y))%nat then Ran [set_code (Some (k (-1))) p] y else
  let child := MkProcess (y_next y) (pr_pid p) (pr_fds p) (pr_cwd p) (pr_brk p) false (Some (k 0)) in
  let y' := foldr (fun d y => match d with Some f => dup_file f y | None => y end) (bump y) (pr_fds p) in
  Ran [set_code (Some (k (y_next y))) p; child] y'.

(** [wait]: the first child that is a zombie. *)
Definition wait_ (k : Z -> prog unit) (p : process) (y : system) : outcome :=
  let mine c := (pr_parent c =? pr_pid p) && match pr_code c with None => true | Some _ => false end in
  match list_find (fun c => mine c = true) (y_procs y) with
  | Some (i, c) => Ran [set_code (Some (k (pr_pid c))) p] (set_procs (delete i) y)
  | None =>
      if existsb (fun c => pr_parent c =? pr_pid p) (y_procs y) then Blocked else Ran [set_code (Some (k (-1))) p] y
  end.

(** A file is at most [MAXFILE] blocks long; a write to a node replaces the
    bytes from the offset on. *)
Definition write_node (f : Z) (o : ofile) (i : Z) (b : list Z) (y : system) : Z * system :=
  match y_nodes y !! i with
  | None => (-1, y)
  | Some n =>
      if nd_type n =? T_DEV then (Z.of_nat (length b), show b y)
      else if MAXFILE * BSIZE <? of_off o + Z.of_nat (length b) then (-1, y)
      else
        let off := Z.to_nat (of_off o) in
        let data := take off (nd_data n) ++ b ++ drop (off + length b) (nd_data n) in
        (Z.of_nat (length b), set_off f (of_off o + Z.of_nat (length b)) (set_nodes (<[i := MkNode (nd_type n) data (nd_ents n)]>) y))
  end.

(** [write] to a pipe puts in what fits; the rest is another call. *)
Definition write_ (fd : Z) (b : list Z) (k : Z -> prog unit) (p : process) (y : system) : outcome :=
  let answer r y := Ran [set_code (Some (k r)) p] y in
  match get_fd p fd with
  | None => answer (-1) y
  | Some f =>
      match y_files y !! f with
      | None => answer (-1) y
      | Some o =>
          if negb (of_writable o) then answer (-1) y else
          match of_obj o with
          | ONode i => let '(r, y) := write_node f o i b y in answer r y
          | OPipe q =>
              let x := default (MkQueue [] false false) (y_pipes y !! q) in
              if negb (q_ropen x) then answer (-1) y else
              let space := (Z.to_nat PIPESIZE - length (q_data x))%nat in
              let y' := set_pipes (<[q := MkQueue (q_data x ++ take space b) (q_ropen x) (q_wopen x)]>) y in
              if (length b <=? space)%nat then answer (Z.of_nat (length b)) y'
              else if (space =? 0)%nat then Blocked
              else Ran [set_code (Some (ITree.bind (call (Write fd (drop space b)))
                                          (fun r => k (if r <? 0 then -1 else Z.of_nat (length b))))) p] y'
          end
      end
  end.

Definition read_ (fd n : Z) (k : option (list Z) -> prog unit) (p : process) (y : system) : outcome :=
  let answer r y := Ran [set_code (Some (k r)) p] y in
  if n <? 0 then answer None y else
  match get_fd p fd with
  | None => answer None y
  | Some f =>
      match y_files y !! f with
      | None => answer None y
      | Some o =>
          if negb (of_readable o) then answer None y else
          match of_obj o with
          | ONode i =>
              let nd := default (MkNode T_FILE [] []) (y_nodes y !! i) in
              let data := if nd_type nd =? T_DIR then dir_bytes (nd_ents nd) else nd_data nd in
              let b := take (Z.to_nat n) (drop (Z.to_nat (of_off o)) data) in
              answer (Some b) (set_off f (of_off o + Z.of_nat (length b)) y)
          | OPipe q =>
              let x := default (MkQueue [] false false) (y_pipes y !! q) in
              match q_data x with
              | [] => if q_wopen x then Blocked else answer (Some []) y
              | data =>
                  answer (Some (take (Z.to_nat n) data))
                    (set_pipes (<[q := MkQueue (drop (Z.to_nat n) data) (q_ropen x) (q_wopen x)]>) y)
              end
          end
      end
  end.

Definition WRONLY (mode : Z) : bool := negb (Z.land mode 0x001 =? 0).
Definition RDWR (mode : Z) : bool := negb (Z.land mode 0x002 =? 0).
Definition CREATE (mode : Z) : bool := negb (Z.land mode 0x200 =? 0).

Definition open_ (path : list Z) (mode : Z) (p : process) (y : system) : Z * process * system :=
  let found :=
    if CREATE mode then create p y path T_FILE
    else match namei p y path with
         | Some i => if bool_decide (is_Some (ents y i)) && negb (mode =? 0) then None else Some (i, y)
         | None => None
         end in
  match found with
  | None => (-1, p, y)
  | Some (i, y) =>
      match new_file (MkOfile (ONode i) 0 (negb (WRONLY mode)) (WRONLY mode || RDWR mode) 1) p y with
      | Some r => r
      | None => (-1, p, y)
      end
  end.

Definition pipe_ (p : process) (y : system) : option (Z * Z) * process * system :=
  let q := y_next y in
  let y1 := set_pipes (<[q := MkQueue [] true true]>) (bump y) in
  match new_file (MkOfile (OPipe q) 0 true false 1) p y1 with
  | None => (None, p, y)
  | Some (fd0, p1, y2) =>
      match new_file (MkOfile (OPipe q) 0 false true 1) p1 y2 with
      | None => (None, p, y)
      | Some (fd1, p2, y3) => (Some (fd0, fd1), p2, y3)
      end
  end.

Definition close_ (fd : Z) (p : process) (y : system) : Z * process * system :=
  match get_fd p fd with
  | None => (-1, p, y)
  | Some f => (0, set_fds (<[Z.to_nat fd := None]>) p, put_file f y)
  end.

Definition dup_ (fd : Z) (p : process) (y : system) : Z * process * system :=
  match get_fd p fd, fdalloc (pr_fds p) with
  | Some f, Some d => (Z.of_nat d, set_fds (<[d := Some f]>) p, dup_file f y)
  | _, _ => (-1, p, y)
  end.

Definition fstat_ (fd : Z) (p : process) (y : system) : option ustat :=
  match get_fd p fd with
  | None => None
  | Some f =>
      match of_obj <$> y_files y !! f with
      | Some (ONode i) =>
          n ← y_nodes y !! i;
          Some (MkUstat (nd_type n) i (Z.of_nat (if nd_type n =? T_DIR then 16 * length (nd_ents n) else length (nd_data n))))
      | _ => None
      end
  end.

(** The process [pid] is stopped when its turn comes. *)
Definition kill_ (pid : Z) (y : system) : Z * system :=
  if existsb (fun c => pr_pid c =? pid) (y_procs y)
  then (0, set_procs (fmap (fun c => if pr_pid c =? pid then set_killed c else c)) y)
  else (-1, y).

(** The arguments and the words that point to them have a page. *)
Definition args_fit (argv : list (list Z)) : bool :=
  (length argv <? 32)%nat &&
  (foldr (fun a n => (Z.of_nat (length a) + 1 + 3) / 4 * 4 + n) (4 * (4 + Z.of_nat (length argv))) argv <=? 4096).

Section machine.
(** The programs on the disk. *)
Context (programs : list Z -> option (list (list Z) -> prog unit)).

Definition exec_ (path : list Z) (argv : list (list Z)) (p : process) (y : system) : option (prog unit) :=
  match namei p y path, programs path with
  | Some _, Some code => if args_fit argv then Some (code argv) else None
  | _, _ => None
  end.

(** A process makes a call; [k] is what follows. *)
Definition syscall {T} (e : sysE T) (k : T -> prog unit) (p : process) (y : system) : outcome :=
  let go t p y := Ran [set_code (Some t) p] y in
  let done (r : option system) (k : Z -> prog unit) := match r with Some y' => go (k 0) p y' | None => go (k (-1)) p y end in
  match e in sysE T return (T -> prog unit) -> outcome with
  | Fork => fun k => fork_ k p y
  | Exit => fun _ => exit_ p y
  | Wait => fun k => wait_ k p y
  | Waitx => fun k => wait_ (fun r => k (if r <? 0 then None else Some (r, 0, 0))) p y
  | Pipe => fun k => let '(r, p, y) := pipe_ p y in go (k r) p y
  | Write fd b => fun k => write_ fd b k p y
  | Read fd n => fun k => read_ fd n k p y
  | Close fd => fun k => let '(r, p, y) := close_ fd p y in go (k r) p y
  | Kill pid => fun k => let '(r, y) := kill_ pid y in go (k r) p y
  | Exec path argv => fun k => match exec_ path argv p y with Some t => go t p y | None => go (k (-1)) p y end
  | Open path mode => fun k => let '(r, p, y) := open_ path mode p y in go (k r) p y
  | Mknod path _ _ => fun k => done (snd <$> create p y path T_DEV) k
  | Unlink path => fun k => done (unlink_ p y path) k
  | Fstat fd => fun k => go (k (fstat_ fd p y)) p y
  | Link old new => fun k => done (link_ p y old new) k
  | Mkdir path => fun k => done (snd <$> create p y path T_DIR) k
  | Chdir path => fun k =>
      match namei p y path with
      | Some i => if bool_decide (is_Some (ents y i)) then go (k 0) (set_cwd i p) y else go (k (-1)) p y
      | None => go (k (-1)) p y
      end
  | Dup fd => fun k => let '(r, p, y) := dup_ fd p y in go (k r) p y
  | Getpid => fun k => go (k (pr_pid p)) p y
  | Sbrk n => fun k => go (k (pr_brk p)) (set_brk (pr_brk p + n) p) y
  | Sleep _ => fun k => go (k 0) p y
  | Uptime => fun k => go (k 0) p y
  end k.

(** A step of a process. *)
Definition step (p : process) (y : system) : outcome :=
  match pr_code p with
  | None => Blocked
  | Some t =>
      if pr_killed p then exit_ p y else
      match observe t with
      | RetF _ => exit_ p y
      | TauF t' => Ran [set_code (Some t') p] y
      | VisF e k => syscall e k p y
      end
  end.

(** A turn: up to [q] steps, until the process blocks or another appears. *)
Fixpoint turn (q : nat) (p : process) (y : system) : system :=
  match q with
  | O => set_procs (fun ps => ps ++ [p]) y
  | S q' =>
      match step p y with
      | Blocked => set_procs (fun ps => ps ++ [p]) y
      | Ran [p'] y' => turn q' p' y'
      | Ran ps' y' => set_procs (fun ps => ps ++ ps') y'
      end
  end.

(** The processes take turns of [q] steps, until none is left. *)
Fixpoint run (fuel q : nat) (y : system) : option system :=
  match fuel with
  | O => None
  | S fuel' =>
      match y_procs y with
      | [] => Some y
      | p :: ps => run fuel' q (turn q p (set_procs (fun _ => ps) y))
      end
  end.

End machine.

(** ** A system to begin with *)

(** The root directory holds a few files; process 3 is a child of the first,
    with the console as its descriptors. *)
Definition boot_files : list (string * string) := [("README", "xv6"); ("cat", "cat"); ("echo", "echo"); ("init", "init")].
Definition boot_nodes : gmap Z node :=
  <[ROOT := MkNode T_DIR [] (Some ([46], ROOT) :: Some ([46; 46], ROOT) :: Some (chars "console", 2) ::
              imap (fun i f => Some (chars f.1, 3 + Z.of_nat i)) boot_files)]>
  (<[2 := MkNode T_DEV [] []]> (list_to_map (imap (fun i f => (3 + Z.of_nat i, MkNode T_FILE (chars f.2) [])) boot_files))).

Definition boot (t : prog unit) : system :=
  MkSystem boot_nodes {[0 := MkOfile (ONode 2) 0 true true 3]} ∅
    [MkProcess 3 1 (Some 0 :: Some 0 :: Some 0 :: replicate 13 None) ROOT 0x4000 false (Some t)] 100 [].

Definition disk_programs (path : list Z) : option (list (list Z) -> prog unit) :=
  if bool_decide (path = chars "echo") then Some Echo.main else if bool_decide (path = chars "cat") then Some Cat.main else None.

(** What the console shows when the program and all it started are done. *)
Definition outcome_of (fuel q : nat) (t : prog unit) : option (list Z) :=
  (fun y => rev (y_out y)) <$> run disk_programs fuel q (boot t).
