(* ===== verification/Utests.v ===== *)
(** * The tests (usertests.c)

    The tests of usertests.c as programs.  [pipe1_correct] shows of the test of
    pipes, for all answers of a system, what it accepts.  On the system of
    Uspec.v the tests that are run here come to their end and report success,
    with turns of several lengths.  Left out are the tests of memory protection and of
    sbrk ([mem], [sbrktest], [validatetest], [uio]): what they try is not a
    system call. *)

From Stdlib Require Import Ascii String.
From stdpp Require Import base numbers list option strings gmap.
From ITree Require Import ITree ITreeFacts.
From S2P Require Import Prelude Kernel Cprintf Cstring Ulib Usys Utools Uspec.

Local Open Scope u_scope.

Definition O_RDONLY : Z := 0x000.
Definition O_WRONLY : Z := 0x001.
Definition O_RDWR : Z := 0x002.
Definition O_CREATE : Z := 0x200.
Definition O_CREATE_RDWR : Z := Z.lor O_CREATE O_RDWR.

(** A call whose answer must not be bad; otherwise a message, and the end. *)
Definition complain (fmt : string) (args : list fmtarg) : prog Z := fprintf 1 fmt args ;; exit.
Definition must (e : sysE Z) (bad : Z -> bool) (msg : string) : prog Z :=
  r <- call e ;; if bad r then complain msg [] else return_ r.
Definition neg (r : Z) : bool := r <? 0.
Definition nonneg (r : Z) : bool := 0 <=? r.
Definition zero (r : Z) : bool := r =? 0.
Definition nonzero (r : Z) : bool := negb (r =? 0).
Definition isnt (n r : Z) : bool := negb (r =? n).

(** The value of [read]. *)
Definition count (r : option (list Z)) : Z := match r with Some b => Z.of_nat (length b) | None => -1 end.

Definition print (msg : string) : prog unit := fprintf 1 msg [].

(** The body for the numbers below [n]. *)
Definition for_range (n : nat) (f : Z -> prog unit) : prog unit := for_each f (seqZ 0 (Z.of_nat n)).

(** ** Directories and the current directory *)

Definition iputtest : prog unit :=
  print (line "iput test") ;;
  must (Mkdir (chars "iputdir")) neg (line "mkdir failed") ;;
  must (Chdir (chars "iputdir")) neg (line "chdir iputdir failed") ;;
  must (Unlink (chars "../iputdir")) neg (line "unlink ../iputdir failed") ;;
  must (Chdir (chars "/")) neg (line "chdir / failed") ;;
  print (line "iput test ok").

Definition exitiputtest : prog unit :=
  print (line "exitiput test") ;;
  pid <- must Fork neg (line "fork failed") ;;
  if pid =? 0 then
    must (Mkdir (chars "iputdir")) neg (line "mkdir failed") ;;
    must (Chdir (chars "iputdir")) neg (line "child chdir failed") ;;
    must (Unlink (chars "../iputdir")) neg (line "unlink ../iputdir failed") ;;
    exit
  else
  call Wait ;;
  print (line "exitiput test ok").

Definition openiputtest : prog unit :=
  print (line "openiput test") ;;
  must (Mkdir (chars "oidir")) neg (line "mkdir oidir failed") ;;
  pid <- must Fork neg (line "fork failed") ;;
  if pid =? 0 then
    must (Open (chars "oidir") O_RDWR) nonneg (line "open directory for write succeeded") ;;
    exit
  else
  call (Sleep 1) ;;
  must (Unlink (chars "oidir")) nonzero (line "unlink failed") ;;
  call Wait ;;
  print (line "openiput test ok").

Definition opentest : prog unit :=
  print (line "open test") ;;
  fd <- must (Open (chars "echo") 0) neg (line "open echo failed!") ;;
  call (Close fd) ;;
  must (Open (chars "doesnotexist") 0) nonneg (line "open doesnotexist succeeded!") ;;
  print (line "open test ok").

(** ** Small and big files *)

Definition writetest : prog unit :=
  print (line "small file test") ;;
  fd <- call (Open (chars "small") O_CREATE_RDWR) ;;
  (if 0 <=? fd then print (line "creat small succeeded; ok") else complain (line "error: creat small failed!") [] ;; return_ tt) ;;
  for_range 100 (fun i =>
    r <- call (Write fd (chars "aaaaaaaaaa")) ;;
    if negb (r =? 10) then complain (line "error: write aa %d new file failed") [FInt i] ;; return_ tt else
    r <- call (Write fd (chars "bbbbbbbbbb")) ;;
    if negb (r =? 10) then complain (line "error: write bb %d new file failed") [FInt i] ;; return_ tt else
    return_ tt) ;;
  print (line "writes ok") ;;
  call (Close fd) ;;
  fd <- call (Open (chars "small") O_RDONLY) ;;
  (if 0 <=? fd then print (line "open small succeeded ok") else complain (line "error: open small failed!") [] ;; return_ tt) ;;
  r <- call (Read fd 2000) ;;
  (if count r =? 2000 then print (line "read succeeded ok") else complain (line "read failed") [] ;; return_ tt) ;;
  call (Close fd) ;;
  must (Unlink (chars "small")) neg (line "unlink small failed") ;;
  print (line "small file test ok").

(** An [int] in the buffer. *)
Definition int_bytes (i : Z) : list Z := [i mod 256; i / 256 mod 256; i / 65536 mod 256; i / 16777216 mod 256].
Definition int_at (b : list Z) : Z := i32 (nth 0 b 0 + 256 * nth 1 b 0 + 65536 * nth 2 b 0 + 16777216 * nth 3 b 0).

(** The loop that reads the blocks back: [n] of them so far. *)
Definition big_round (fd : Z) (n : Z) : prog (Z + unit) :=
  r <- call (Read fd 512) ;;
  let i := count r in
  if i =? 0 then
    if n =? MAXFILE - 1 then complain "read only %d blocks from big" [FInt n] ;; return_ (inr tt)
    else return_ (inr tt)
  else if negb (i =? 512) then complain (line "read failed %d") [FInt i] ;; return_ (inr tt)
  else if negb (int_at (default [] r) =? n) then
    complain (line "read content of block %d is %d") [FInt n; FInt (int_at (default [] r))] ;; return_ (inr tt)
  else return_ (inl (n + 1)).

(** [buf] is what the buffer holds before. *)
Definition writetest1 (buf : list Z) : prog unit :=
  print (line "big files test") ;;
  fd <- must (Open (chars "big") O_CREATE_RDWR) neg (line "error: creat big failed!") ;;
  for_range (Z.to_nat MAXFILE) (fun i =>
    must (Write fd (int_bytes i ++ take 508 (drop 4 buf))) (isnt 512) (line "error: write big file failed") ;;
    return_ tt) ;;
  call (Close fd) ;;
  fd <- must (Open (chars "big") O_RDONLY) neg (line "error: open big failed!") ;;
  ITree.iter (big_round fd) 0 ;;
  call (Close fd) ;;
  must (Unlink (chars "big")) neg (line "unlink big failed") ;;
  print (line "big files ok").

Definition createtest : prog unit :=
  print (line "many creates, followed by unlink test") ;;
  for_range 52 (fun i => fd <- call (Open [97; 48 + i] O_CREATE_RDWR) ;; call (Close fd) ;; return_ tt) ;;
  for_range 52 (fun i => call (Unlink [97; 48 + i]) ;; return_ tt) ;;
  print (line "many creates, followed by unlink; ok").

Definition dirtest : prog unit :=
  print (line "mkdir test") ;;
  must (Mkdir (chars "dir0")) neg (line "mkdir failed") ;;
  must (Chdir (chars "dir0")) neg (line "chdir dir0 failed") ;;
  must (Chdir (chars "..")) neg (line "chdir .. failed") ;;
  must (Unlink (chars "dir0")) neg (line "unlink dir0 failed") ;;
  print (line "mkdir test ok").

Definition echoargv : list (list Z) := [chars "echo"; chars "ALL"; chars "TESTS"; chars "PASSED"].

Definition exectest : prog unit :=
  print (line "exec test") ;;
  must (Exec (chars "echo") echoargv) neg (line "exec echo failed") ;;
  return_ tt.

(** ** Processes and pipes *)

(** The bytes the child writes from [seq] on. *)
Definition seq_bytes (seq : Z) (n : nat) : list Z := (fun i => u8 (seq + i)) <$> seqZ 0 (Z.of_nat n).

(** The parent's loop: [seq], [total] and [cc]; [None] when a byte is wrong. *)
Definition pipe1_round (fd : Z) (v : Z * Z * Z) : prog (Z * Z * Z + option Z) :=
  let '(seq, total, cc) := v in
  r <- call (Read fd cc) ;;
  let n := count r in
  if n <=? 0 then return_ (inr (Some total)) else
  let b := default [] r in
  if bool_decide (b = seq_bytes seq (length b)) then
    let cc := cc * 2 in
    return_ (inl (seq + n, total + n, if 8192 <? cc then 8192 else cc))
  else print (line "pipe1 oops 2") ;; return_ (inr None).

Definition pipe1 : prog unit :=
  fds <- call Pipe ;;
  match fds with
  | None => print (line "pipe() failed") ;; exit
  | Some (fds0, fds1) =>
      pid <- call Fork ;;
      if pid =? 0 then
        call (Close fds0) ;;
        for_range 5 (fun n =>
          must (Write fds1 (seq_bytes (n * 1033) 1033)) (isnt 1033) (line "pipe1 oops 1") ;; return_ tt) ;;
        exit
      else if 0 <? pid then
        call (Close fds1) ;;
        r <- ITree.iter (pipe1_round fds0) (0, 0, 1) ;;
        match r with
        | None => return_ tt
        | Some total =>
            (if negb (total =? 5 * 1033) then complain (line "pipe1 oops 3 total %d") [FInt total] ;; return_ tt else return_ tt) ;;
            call (Close fds0) ;;
            call Wait ;;
            print (line "pipe1 ok")
        end
      else print (line "fork() failed") ;; exit
  end.

(** [for(;;);] *)
Definition forever : prog unit := ITree.spin.

Definition preempt : prog unit :=
  print "preempt: " ;;
  pid1 <- call Fork ;;
  if pid1 =? 0 then forever else
  pid2 <- call Fork ;;
  if pid2 =? 0 then forever else
  fds <- call Pipe ;;
  let pfds := default (0, 0) fds in
  pid3 <- call Fork ;;
  if pid3 =? 0 then
    call (Close pfds.1) ;;
    r <- call (Write pfds.2 (chars "x")) ;;
    (if negb (r =? 1) then print "preempt write error" else return_ tt) ;;
    call (Close pfds.2) ;;
    forever
  else
  call (Close pfds.2) ;;
  r <- call (Read pfds.1 8192) ;;
  if negb (count r =? 1) then print "preempt read error" else
  call (Close pfds.1) ;;
  print "kill... " ;;
  call (Kill pid1) ;;
  call (Kill pid2) ;;
  call (Kill pid3) ;;
  print "wait... " ;;
  call Wait ;;
  call Wait ;;
  call Wait ;;
  print (line "preempt ok").

(** [k] rounds are left. *)
Fixpoint exitwait_loop (k : nat) : prog unit :=
  match k with
  | O => print (line "exitwait ok")
  | S k' =>
      pid <- call Fork ;;
      if pid <? 0 then print (line "fork failed") else
      if negb (pid =? 0) then
        r <- call Wait ;;
        if negb (r =? pid) then print (line "wait wrong pid") else exitwait_loop k'
      else exit
  end.
Definition exitwait : prog unit := exitwait_loop 100.

(** ** Several processes and files *)

(** The loop over [write]: it ends at the first that fails. *)
Fixpoint share_loop (k : nat) (fd : Z) (buf : list Z) : prog unit :=
  match k with
  | O => return_ tt
  | S k' =>
      r <- call (Write fd buf) ;;
      if negb (r =? 10) then print (line "fstests: write sharedfd failed") else share_loop k' fd buf
  end.

(** The counts of [c] and of [p]; [buf] keeps what a short read does not
    overwrite. *)
Definition occurrences (x : Z) (l : list Z) : Z := Z.of_nat (length (filter (fun c => c = x) l)).
Definition share_round (fd : Z) (v : list Z * Z * Z) : prog (list Z * Z * Z + Z * Z) :=
  let '(buf, nc, np) := v in
  r <- call (Read fd 10) ;;
  if count r <=? 0 then return_ (inr (nc, np)) else
  let b := default [] r in
  let buf := b ++ drop (length b) buf in
  return_ (inl (buf, nc + occurrences 99 buf, np + occurrences 112 buf)).

(** [rounds] is 1000. *)
Definition sharedfd_n (rounds : nat) : prog unit :=
  print (line "sharedfd test") ;;
  call (Unlink (chars "sharedfd")) ;;
  fd <- call (Open (chars "sharedfd") O_CREATE_RDWR) ;;
  if fd <? 0 then print "fstests: cannot open sharedfd for writing" else
  pid <- call Fork ;;
  let buf := replicate 10 (if pid =? 0 then 99 else 112) in
  share_loop rounds fd buf ;;
  (if pid =? 0 then exit else call Wait) ;;
  call (Close fd) ;;
  fd <- call (Open (chars "sharedfd") 0) ;;
  if fd <? 0 then print (line "fstests: cannot open sharedfd for reading") else
  v <- ITree.iter (share_round fd) (buf, 0, 0) ;;
  let '(nc, np) := v in
  call (Close fd) ;;
  call (Unlink (chars "sharedfd")) ;;
  if (nc =? 10 * Z.of_nat rounds) && (np =? 10 * Z.of_nat rounds) then print (line "sharedfd ok")
  else complain (line "sharedfd oops %d %d") [FInt nc; FInt np] ;; return_ tt.
Definition sharedfd : prog unit := sharedfd_n 1000.

(** The loop that reads a file of [fourfiles] back: the bytes so far. *)
Definition four_round (fd i total : Z) : prog (Z + Z) :=
  r <- call (Read fd 8192) ;;
  if count r <=? 0 then return_ (inr total) else
  let b := default [] r in
  if forallb (fun c => c =? 48 + i) b then return_ (inl (total + Z.of_nat (length b)))
  else print (line "wrong char") ;; exit.

Definition fourfiles : prog unit :=
  print (line "fourfiles test") ;;
  for_range 4 (fun pi =>
    let fname := [102; 48 + pi] in
    call (Unlink fname) ;;
    pid <- must Fork neg (line "fork failed") ;;
    if pid =? 0 then
      fd <- must (Open fname O_CREATE_RDWR) neg (line "create failed") ;;
      for_range 12 (fun _ =>
        n <- call (Write fd (replicate 500 (48 + pi))) ;;
        if negb (n =? 500) then complain (line "write failed %d") [FInt n] ;; return_ tt else return_ tt) ;;
      exit
    else return_ tt) ;;
  for_range 4 (fun _ => call Wait ;; return_ tt) ;;
  for_range 2 (fun i =>
    let fname := [102; 48 + i] in
    fd <- call (Open fname 0) ;;
    total <- ITree.iter (four_round fd i) 0 ;;
    call (Close fd) ;;
    (if negb (total =? 12 * 500) then complain (line "wrong length %d") [FInt total] ;; return_ tt else return_ tt) ;;
    call (Unlink fname) ;;
    return_ tt) ;;
  print (line "fourfiles ok").

(** [n] is 20. *)
Definition createdelete_n (n : nat) : prog unit :=
  let half := Z.of_nat n / 2 in
  print (line "createdelete test") ;;
  for_range 4 (fun pi =>
    pid <- must Fork neg (line "fork failed") ;;
    if pid =? 0 then
      for_range n (fun i =>
        fd <- must (Open [112 + pi; 48 + i] O_CREATE_RDWR) neg (line "create failed") ;;
        call (Close fd) ;;
        if (0 <? i) && (i mod 2 =? 0) then
          must (Unlink [112 + pi; 48 + i / 2]) neg (line "unlink failed") ;; return_ tt
        else return_ tt) ;;
      exit
    else return_ tt) ;;
  for_range 4 (fun _ => call Wait ;; return_ tt) ;;
  for_range n (fun i =>
    for_range 4 (fun pi =>
      let name := [112 + pi; 48 + i] in
      fd <- call (Open name 0) ;;
      if ((i =? 0) || (half <=? i)) && (fd <? 0) then complain (line "oops createdelete %s didn't exist") [FStr name] ;; return_ tt
      else if ((1 <=? i) && (i <? half)) && (0 <=? fd) then complain (line "oops createdelete %s did exist") [FStr name] ;; return_ tt
      else if 0 <=? fd then call (Close fd) ;; return_ tt else return_ tt)) ;;
  for_range n (fun i => for_range 4 (fun _ => call (Unlink [112 + i; 48 + i]) ;; return_ tt)) ;;
  print (line "createdelete ok").
Definition createdelete : prog unit := createdelete_n 20.

(** [buf] is what the buffer holds before. *)
Definition unlinkread (buf : list Z) : prog unit :=
  print (line "unlinkread test") ;;
  fd <- must (Open (chars "unlinkread") O_CREATE_RDWR) neg (line "create unlinkread failed") ;;
  call (Write fd (chars "hello")) ;;
  call (Close fd) ;;
  fd <- must (Open (chars "unlinkread") O_RDWR) neg (line "open unlinkread failed") ;;
  must (Unlink (chars "unlinkread")) nonzero (line "unlink unlinkread failed") ;;
  fd1 <- call (Open (chars "unlinkread") O_CREATE_RDWR) ;;
  call (Write fd1 (chars "yyy")) ;;
  call (Close fd1) ;;
  r <- call (Read fd 8192) ;;
  if negb (count r =? 5) then complain "unlinkread read failed" [] ;; return_ tt else
  let buf := default [] r ++ drop 5 buf in
  if negb (nth 0 buf 0 =? 104) then complain (line "unlinkread wrong data") [] ;; return_ tt else
  must (Write fd (take 10 buf)) (isnt 10) (line "unlinkread write failed") ;;
  call (Close fd) ;;
  call (Unlink (chars "unlinkread")) ;;
  print (line "unlinkread ok").

Definition linktest : prog unit :=
  print (line "linktest") ;;
  call (Unlink (chars "lf1")) ;;
  call (Unlink (chars "lf2")) ;;
  fd <- must (Open (chars "lf1") O_CREATE_RDWR) neg (line "create lf1 failed") ;;
  must (Write fd (chars "hello")) (isnt 5) (line "write lf1 failed") ;;
  call (Close fd) ;;
  must (Link (chars "lf1") (chars "lf2")) neg (line "link lf1 lf2 failed") ;;
  call (Unlink (chars "lf1")) ;;
  must (Open (chars "lf1") 0) nonneg (line "unlinked lf1 but it is still there!") ;;
  fd <- must (Open (chars "lf2") 0) neg (line "open lf2 failed") ;;
  r <- call (Read fd 8192) ;;
  if negb (count r =? 5) then complain (line "read lf2 failed") [] ;; return_ tt else
  call (Close fd) ;;
  must (Link (chars "lf2") (chars "lf2")) nonneg (line "link lf2 lf2 succeeded! oops") ;;
  call (Unlink (chars "lf2")) ;;
  must (Link (chars "lf2") (chars "lf1")) nonneg (line "link non-existant succeeded! oops") ;;
  must (Link (chars ".") (chars "lf1")) nonneg (line "link . lf1 succeeded! oops") ;;
  print (line "linktest ok").

(** A round over the directory: the flags [fa] and the count [n].  [de] keeps
    what a short read does not overwrite. *)
Definition conc_round (files : nat) (fd : Z) (v : list Z * list bool * Z) : prog (list Z * list bool * Z + Z) :=
  let '(de, fa, n) := v in
  r <- call (Read fd 16) ;;
  if count r <=? 0 then return_ (inr n) else
  let b := default [] r in
  let de := b ++ drop (length b) de in
  if nth 0 de 0 + 256 * nth 1 de 0 =? 0 then return_ (inl (de, fa, n)) else
  let name := drop 2 de in
  if (nth 0 name 0 =? 67) && (nth 2 name 0 =? 0) then
    let i := nth 1 name 0 - 48 in
    if (i <? 0) || (Z.of_nat files <=? i) then complain (line "concreate weird file %s") [FStr (until_nul name)] ;; return_ (inr n)
    else if nth (Z.to_nat i) fa false then complain (line "concreate duplicate file %s") [FStr (until_nul name)] ;; return_ (inr n)
    else return_ (inl (de, <[Z.to_nat i := true]> fa, n + 1))
  else return_ (inl (de, fa, n)).

Definition reap_or_exit (pid : Z) : prog unit := if pid =? 0 then exit else call Wait ;; return_ tt.

(** [files] is 40. *)
Definition concreate_n (files : nat) : prog unit :=
  print (line "concreate test") ;;
  for_range files (fun i =>
    let file := [67; 48 + i] in
    call (Unlink file) ;;
    pid <- call Fork ;;
    (if negb (pid =? 0) && (i mod 3 =? 1) then call (Link (chars "C0") file) ;; return_ tt
     else if (pid =? 0) && (i mod 5 =? 1) then call (Link (chars "C0") file) ;; return_ tt
     else
       fd <- call (Open file O_CREATE_RDWR) ;;
       if fd <? 0 then complain (line "concreate create %s failed") [FStr file] ;; return_ tt else
       call (Close fd) ;; return_ tt) ;;
    reap_or_exit pid) ;;
  fd <- call (Open (chars ".") 0) ;;
  n <- ITree.iter (conc_round files fd) (replicate 16 0, replicate files false, 0) ;;
  call (Close fd) ;;
  (if negb (n =? Z.of_nat files) then complain (line "concreate not enough files in directory listing") [] ;; return_ tt else return_ tt) ;;
  for_range files (fun i =>
    let file := [67; 48 + i] in
    pid <- must Fork neg (line "fork failed") ;;
    (if ((i mod 3 =? 0) && (pid =? 0)) || ((i mod 3 =? 1) && negb (pid =? 0)) then
       for_range 4 (fun _ => fd <- call (Open file 0) ;; call (Close fd) ;; return_ tt)
     else for_range 4 (fun _ => call (Unlink file) ;; return_ tt)) ;;
    reap_or_exit pid) ;;
  print (line "concreate ok").
Definition concreate : prog unit := concreate_n 40.

(** [x] is the state of the generator. *)
Fixpoint linkunlink_loop (k : nat) (x : Z) : prog unit :=
  match k with
  | O => return_ tt
  | S k' =>
      let x := u32 (x * 1103515245 + 12345) in
      (if x mod 3 =? 0 then fd <- call (Open (chars "x") (Z.lor O_RDWR O_CREATE)) ;; call (Close fd)
       else if x mod 3 =? 1 then call (Link (chars "cat") (chars "x"))
       else call (Unlink (chars "x"))) ;;
      linkunlink_loop k' x
  end.

Definition linkunlink : prog unit :=
  print (line "linkunlink test") ;;
  call (Unlink (chars "x")) ;;
  pid <- must Fork neg (line "fork failed") ;;
  linkunlink_loop 100 (if pid =? 0 then 97 else 1) ;;
  reap_or_exit pid ;;
  print (line "linkunlink ok").

(** [links] is 500. *)
Definition bigdir_n (links : nat) : prog unit :=
  let name i := [120; 48 + i / 64; 48 + i mod 64] in
  print (line "bigdir test") ;;
  call (Unlink (chars "bd")) ;;
  fd <- must (Open (chars "bd") O_CREATE) neg (line "bigdir create failed") ;;
  call (Close fd) ;;
  for_range links (fun i => must (Link (chars "bd") (name i)) nonzero (line "bigdir link failed") ;; return_ tt) ;;
  call (Unlink (chars "bd")) ;;
  for_range links (fun i => must (Unlink (name i)) nonzero "bigdir unlink failed" ;; return_ tt) ;;
  print (line "bigdir ok").
Definition bigdir : prog unit := bigdir_n 500.

(** ** Paths *)

(** The calls in the middle of [subdir], all of which must be refused. *)
Definition subdir_refused : prog unit :=
  must (Open (chars "dd/dd/ff") O_RDONLY) nonneg (line "open (unlinked) dd/dd/ff succeeded!") ;;
  must (Open (chars "dd/ff/ff") O_CREATE_RDWR) nonneg (line "create dd/ff/ff succeeded!") ;;
  must (Open (chars "dd/xx/ff") O_CREATE_RDWR) nonneg (line "create dd/xx/ff succeeded!") ;;
  must (Open (chars "dd") O_CREATE) nonneg (line "create dd succeeded!") ;;
  must (Open (chars "dd") O_RDWR) nonneg (line "open dd rdwr succeeded!") ;;
  must (Open (chars "dd") O_WRONLY) nonneg (line "open dd wronly succeeded!") ;;
  must (Link (chars "dd/ff/ff") (chars "dd/dd/xx")) zero (line "link dd/ff/ff dd/dd/xx succeeded!") ;;
  must (Link (chars "dd/xx/ff") (chars "dd/dd/xx")) zero (line "link dd/xx/ff dd/dd/xx succeeded!") ;;
  must (Link (chars "dd/ff") (chars "dd/dd/ffff")) zero (line "link dd/ff dd/dd/ffff succeeded!") ;;
  must (Mkdir (chars "dd/ff/ff")) zero (line "mkdir dd/ff/ff succeeded!") ;;
  must (Mkdir (chars "dd/xx/ff")) zero (line "mkdir dd/xx/ff succeeded!") ;;
  must (Mkdir (chars "dd/dd/ffff")) zero (line "mkdir dd/dd/ffff succeeded!") ;;
  must (Unlink (chars "dd/xx/ff")) zero (line "unlink dd/xx/ff succeeded!") ;;
  must (Unlink (chars "dd/ff/ff")) zero (line "unlink dd/ff/ff succeeded!") ;;
  must (Chdir (chars "dd/ff")) zero (line "chdir dd/ff succeeded!") ;;
  must (Chdir (chars "dd/xx")) zero (line "chdir dd/xx succeeded!") ;;
  return_ tt.

Definition subdir : prog unit :=
  print (line "subdir test") ;;
  call (Unlink (chars "ff")) ;;
  must (Mkdir (chars "dd")) nonzero (line "subdir mkdir dd failed") ;;
  fd <- must (Open (chars "dd/ff") O_CREATE_RDWR) neg (line "create dd/ff failed") ;;
  call (Write fd (chars "ff")) ;;
  call (Close fd) ;;
  must (Unlink (chars "dd")) nonneg (line "unlink dd (non-empty dir) succeeded!") ;;
  must (Mkdir (chars "/dd/dd")) nonzero (line "subdir mkdir dd/dd failed") ;;
  fd <- must (Open (chars "dd/dd/ff") O_CREATE_RDWR) neg (line "create dd/dd/ff failed") ;;
  call (Write fd (chars "FF")) ;;
  call (Close fd) ;;
  fd <- must (Open (chars "dd/dd/../ff") 0) neg (line "open dd/dd/../ff failed") ;;
  r <- call (Read fd 8192) ;;
  if negb (count r =? 2) || negb (nth 0 (default [] r) 0 =? 102) then complain (line "dd/dd/../ff wrong content") [] ;; return_ tt else
  call (Close fd) ;;
  must (Link (chars "dd/dd/ff") (chars "dd/dd/ffff")) nonzero (line "link dd/dd/ff dd/dd/ffff failed") ;;
  must (Unlink (chars "dd/dd/ff")) nonzero (line "unlink dd/dd/ff failed") ;;
  must (Open (chars "dd/dd/ff") O_RDONLY) nonneg (line "open (unlinked) dd/dd/ff succeeded") ;;
  must (Chdir (chars "dd")) nonzero (line "chdir dd failed") ;;
  must (Chdir (chars "dd/../../dd")) nonzero (line "chdir dd/../../dd failed") ;;
  must (Chdir (chars "dd/../../../dd")) nonzero (line "chdir dd/../../dd failed") ;;
  must (Chdir (chars "./..")) nonzero (line "chdir ./.. failed") ;;
  fd <- must (Open (chars "dd/dd/ffff") 0) neg (line "open dd/dd/ffff failed") ;;
  r <- call (Read fd 8192) ;;
  if negb (count r =? 2) then complain (line "read dd/dd/ffff wrong len") [] ;; return_ tt else
  call (Close fd) ;;
  subdir_refused ;;
  must (Unlink (chars "dd/dd/ffff")) nonzero (line "unlink dd/dd/ff failed") ;;
  must (Unlink (chars "dd/ff")) nonzero (line "unlink dd/ff failed") ;;
  must (Unlink (chars "dd")) zero (line "unlink non-empty dd succeeded!") ;;
  must (Unlink (chars "dd/dd")) neg (line "unlink dd/dd failed") ;;
  must (Unlink (chars "dd")) neg (line "unlink dd failed") ;;
  print (line "subdir ok").

(** The sizes 499, 970 and so on below 12 blocks; [buf] is what the buffer
    holds. *)
Definition bigwrite (buf : list Z) : prog unit :=
  print (line "bigwrite test") ;;
  call (Unlink (chars "bigwrite")) ;;
  for_each (fun sz =>
    fd <- must (Open (chars "bigwrite") O_CREATE_RDWR) neg (line "cannot create bigwrite") ;;
    for_range 2 (fun _ =>
      cc <- call (Write fd (take (Z.to_nat sz) buf)) ;;
      if negb (cc =? sz) then complain (line "write(%d) ret %d") [FInt sz; FInt cc] ;; return_ tt else return_ tt) ;;
    call (Close fd) ;;
    call (Unlink (chars "bigwrite")) ;;
    return_ tt) ((fun i => 499 + 471 * i) <$> seqZ 0 12) ;;
  print (line "bigwrite ok").

(** The loop that reads the file back: [i] and [total]. *)
Definition bigfile_round (fd : Z) (v : Z * Z) : prog (Z * Z + Z) :=
  let '(i, total) := v in
  r <- call (Read fd 300) ;;
  let cc := count r in
  let b := default [] r in
  if cc <? 0 then print (line "read bigfile failed") ;; exit
  else if cc =? 0 then return_ (inr total)
  else if negb (cc =? 300) then print (line "short read bigfile") ;; exit
  else if negb (nth 0 b 0 =? i / 2) || negb (nth 299 b 0 =? i / 2) then print (line "read bigfile wrong data") ;; exit
  else return_ (inl (i + 1, total + cc)).

Definition bigfile : prog unit :=
  print (line "bigfile test") ;;
  call (Unlink (chars "bigfile")) ;;
  fd <- must (Open (chars "bigfile") O_CREATE_RDWR) neg "cannot create bigfile" ;;
  for_range 20 (fun i => must (Write fd (replicate 600 i)) (isnt 600) (line "write bigfile failed") ;; return_ tt) ;;
  call (Close fd) ;;
  fd <- must (Open (chars "bigfile") 0) neg (line "cannot open bigfile") ;;
  total <- ITree.iter (bigfile_round fd) (0, 0) ;;
  call (Close fd) ;;
  if negb (total =? 20 * 600) then complain (line "read bigfile wrong total") [] ;; return_ tt else
  call (Unlink (chars "bigfile")) ;;
  print (line "bigfile test ok").

Definition fourteen : prog unit :=
  print (line "fourteen test") ;;
  must (Mkdir (chars "12345678901234")) nonzero (line "mkdir 12345678901234 failed") ;;
  must (Mkdir (chars "12345678901234/123456789012345")) nonzero (line "mkdir 12345678901234/123456789012345 failed") ;;
  fd <- must (Open (chars "123456789012345/123456789012345/123456789012345") O_CREATE) neg
    (line "create 123456789012345/123456789012345/123456789012345 failed") ;;
  call (Close fd) ;;
  fd <- must (Open (chars "12345678901234/12345678901234/12345678901234") 0) neg
    (line "open 12345678901234/12345678901234/12345678901234 failed") ;;
  call (Close fd) ;;
  must (Mkdir (chars "12345678901234/12345678901234")) zero (line "mkdir 12345678901234/12345678901234 succeeded!") ;;
  must (Mkdir (chars "123456789012345/12345678901234")) zero (line "mkdir 12345678901234/123456789012345 succeeded!") ;;
  print (line "fourteen ok").

Definition rmdot : prog unit :=
  print (line "rmdot test") ;;
  must (Mkdir (chars "dots")) nonzero (line "mkdir dots failed") ;;
  must (Chdir (chars "dots")) nonzero (line "chdir dots failed") ;;
  must (Unlink (chars ".")) zero (line "rm . worked!") ;;
  must (Unlink (chars "..")) zero (line "rm .. worked!") ;;
  must (Chdir (chars "/")) nonzero (line "chdir / failed") ;;
  must (Unlink (chars "dots/.")) zero (line "unlink dots/. worked!") ;;
  must (Unlink (chars "dots/..")) zero (line "unlink dots/.. worked!") ;;
  must (Unlink (chars "dots")) nonzero (line "unlink dots failed!") ;;
  print (line "rmdot ok").

Definition dirfile : prog unit :=
  print (line "dir vs file") ;;
  fd <- must (Open (chars "dirfile") O_CREATE) neg (line "create dirfile failed") ;;
  call (Close fd) ;;
  must (Chdir (chars "dirfile")) zero (line "chdir dirfile succeeded!") ;;
  must (Open (chars "dirfile/xx") 0) nonneg (line "create dirfile/xx succeeded!") ;;
  must (Open (chars "dirfile/xx") O_CREATE) nonneg (line "create dirfile/xx succeeded!") ;;
  must (Mkdir (chars "dirfile/xx")) zero (line "mkdir dirfile/xx succeeded!") ;;
  must (Unlink (chars "dirfile/xx")) zero (line "unlink dirfile/xx succeeded!") ;;
  must (Link (chars "README") (chars "dirfile/xx")) zero (line "link to dirfile/xx succeeded!") ;;
  must (Unlink (chars "dirfile")) nonzero (line "unlink dirfile failed!") ;;
  must (Open (chars ".") O_RDWR) nonneg (line "open . for writing succeeded!") ;;
  fd <- call (Open (chars ".") 0) ;;
  must (Write fd (chars "x")) (fun r => 0 <? r) (line "write . succeeded!") ;;
  call (Close fd) ;;
  print (line "dir vs file OK").

(** [rounds] is 50 + 1. *)
Definition iref_n (rounds : nat) : prog unit :=
  let close_open fd := if 0 <=? fd then call (Close fd) ;; return_ tt else return_ tt in
  print (line "empty file name") ;;
  for_range rounds (fun _ =>
    must (Mkdir (chars "irefd")) nonzero (line "mkdir irefd failed") ;;
    must (Chdir (chars "irefd")) nonzero (line "chdir irefd failed") ;;
    call (Mkdir []) ;;
    call (Link (chars "README") []) ;;
    fd <- call (Open [] O_CREATE) ;;
    close_open fd ;;
    fd <- call (Open (chars "xx") O_CREATE) ;;
    close_open fd ;;
    call (Unlink (chars "xx")) ;;
    return_ tt) ;;
  call (Chdir (chars "/")) ;;
  print (line "empty file name OK").
Definition iref : prog unit := iref_n 51.

(** ** The rest *)

(** The first loop of [forktest], with [k] rounds left and [n] children. *)
Fixpoint fork_loop (k n : nat) : prog nat :=
  match k with
  | O => return_ n
  | S k' =>
      pid <- call Fork ;;
      if pid <? 0 then return_ n else if pid =? 0 then exit else fork_loop k' (S n)
  end.

Definition forktest : prog unit :=
  print (line "fork test") ;;
  n <- fork_loop 1000 0 ;;
  if (n =? 1000)%nat then complain (line "fork claimed to work 1000 times!") [] ;; return_ tt else
  for_range n (fun _ => must Wait neg (line "wait stopped early") ;; return_ tt) ;;
  must Wait (isnt (-1)) (line "wait got too many") ;;
  print (line "fork test OK").

(** [uninit] is what the array holds. *)
Definition bsstest (uninit : list Z) : prog unit :=
  print (line "bss test") ;;
  if forallb (fun c => c =? 0) uninit then print (line "bss test ok") else complain (line "bss test failed") [] ;; return_ tt.

Definition big_arg : list Z := chars (line "bigargs test: failed") ++ replicate 199 32.

Definition bigargtest : prog unit :=
  call (Unlink (chars "bigarg-ok")) ;;
  pid <- call Fork ;;
  if pid =? 0 then
    print (line "bigarg test") ;;
    call (Exec (chars "echo") (replicate 31 big_arg)) ;;
    print (line "bigarg test ok") ;;
    fd <- call (Open (chars "bigarg-ok") O_CREATE) ;;
    call (Close fd) ;;
    exit
  else if pid <? 0 then complain (line "bigargtest: fork failed") [] ;; return_ tt
  else
  call Wait ;;
  fd <- must (Open (chars "bigarg-ok") 0) neg (line "bigarg test failed!") ;;
  call (Close fd) ;;
  call (Unlink (chars "bigarg-ok")) ;;
  return_ tt.

(** The program [init] is read with a length of -1; the address is the end of
    the process. *)
Definition argptest : prog unit :=
  fd <- call (Open (chars "init") O_RDONLY) ;;
  if fd <? 0 then fprintf 2 (line "open failed") [] ;; exit else
  call (Sbrk 0) ;;
  call (Read fd (-1)) ;;
  call (Close fd) ;;
  print (line "arg test passed").

(** [fsfull] fills the disk; [main] does not run it.  [buf] is what the buffer
    holds. *)
Definition full_name (n : Z) : list Z :=
  [102; 48 + n / 1000; 48 + n mod 1000 / 100; 48 + n mod 100 / 10; 48 + n mod 10].

Definition fill_round (buf : list Z) (fd total : Z) : prog (Z + Z) :=
  cc <- call (Write fd (take 512 buf)) ;;
  if cc <? 512 then return_ (inr total) else return_ (inl (total + cc)).

Definition full_round (buf : list Z) (nfiles : Z) : prog (Z + Z) :=
  let name := full_name nfiles in
  fprintf 1 (line "writing %s") [FStr name] ;;
  fd <- call (Open name O_CREATE_RDWR) ;;
  if fd <? 0 then fprintf 1 (line "open %s failed") [FStr name] ;; return_ (inr nfiles) else
  total <- ITree.iter (fill_round buf fd) 0 ;;
  fprintf 1 (line "wrote %d bytes") [FInt total] ;;
  call (Close fd) ;;
  if total =? 0 then return_ (inr nfiles) else return_ (inl (nfiles + 1)).

Definition fsfull (buf : list Z) : prog unit :=
  print (line "fsfull test") ;;
  nfiles <- ITree.iter (full_round buf) 0 ;;
  for_each (fun n => call (Unlink (full_name n)) ;; return_ tt) (rev (seqZ 0 (nfiles + 1))) ;;
  print (line "fsfull test finished").

(** The generator; [unsigned long] has 32 bits. *)
Definition rand (randstate : Z) : Z := u32 (randstate * 1664525 + 1013904223).

(** [main] with the tests that are left out. *)
Definition main (sbrktest validatetest mem uio : prog unit) (buf uninit : list Z) : prog unit :=
  print (line "usertests starting") ;;
  fd <- call (Open (chars "usertests.ran") 0) ;;
  if 0 <=? fd then print (line "already ran user tests -- rebuild fs.img") ;; exit else
  fd <- call (Open (chars "usertests.ran") O_CREATE) ;;
  call (Close fd) ;;
  argptest ;; createdelete ;; linkunlink ;; concreate ;; fourfiles ;; sharedfd ;;
  bigargtest ;; bigwrite buf ;; bigargtest ;; bsstest uninit ;; sbrktest ;; validatetest ;;
  opentest ;; writetest ;; writetest1 buf ;; createtest ;;
  openiputtest ;; exitiputtest ;; iputtest ;;
  mem ;; pipe1 ;; preempt ;; exitwait ;;
  rmdot ;; fourteen ;; bigfile ;; subdir ;; linktest ;; unlinkread buf ;; dirfile ;; iref ;; forktest ;; bigdir ;;
  uio ;;
  exectest ;;
  exit.

(** ** The runs *)

(** The tests and what they print.  Those that take long to run have smaller
    numbers: twenty writes instead of a thousand, thirty links instead of 500. *)
Definition suite : list (prog unit * list string) :=
  [(argptest, ["arg test passed"]);
   (createdelete, ["createdelete test"; "createdelete ok"]);
   (linkunlink, ["linkunlink test"; "linkunlink ok"]);
   (concreate, ["concreate test"; "concreate ok"]);
   (fourfiles, ["fourfiles test"; "fourfiles ok"]);
   (sharedfd_n 20, ["sharedfd test"; "sharedfd ok"]);
   (bigargtest, ["bigarg test"; "bigarg test ok"]);
   (bsstest (replicate 100 0), ["bss test"; "bss test ok"]);
   (opentest, ["open test"; "open test ok"]);
   (writetest, ["small file test"; "creat small succeeded; ok"; "writes ok"; "open small succeeded ok"; "read succeeded ok"; "small file test ok"]);
   (createtest, ["many creates, followed by unlink test"; "many creates, followed by unlink; ok"]);
   (openiputtest, ["openiput test"; "openiput test ok"]);
   (exitiputtest, ["exitiput test"; "exitiput test ok"]);
   (iputtest, ["iput test"; "iput test ok"]);
   (preempt, ["preempt: kill... wait... preempt ok"]);
   (exitwait, ["exitwait ok"]);
   (rmdot, ["rmdot test"; "rmdot ok"]);
   (fourteen, ["fourteen test"; "fourteen ok"]);
   (bigfile, ["bigfile test"; "bigfile test ok"]);
   (subdir, ["subdir test"; "subdir ok"]);
   (linktest, ["linktest"; "linktest ok"]);
   (unlinkread (replicate 100 0), ["unlinkread test"; "unlinkread ok"]);
   (dirfile, ["dir vs file"; "dir vs file OK"]);
   (iref, ["empty file name"; "empty file name OK"]);
   (forktest, ["fork test"; "fork test OK"]);
   (bigdir_n 30, ["bigdir test"; "bigdir ok"]);
   (dirtest, ["mkdir test"; "mkdir test ok"]);
   (exectest, ["exec test"; "ALL TESTS PASSED"])].

Definition passes (q : nat) (x : prog unit * list string) : Prop :=
  outcome_of (Z.to_nat 5000) q x.1 = Some (concat ((fun s => chars (line s)) <$> x.2)).

(** The tests run to the end on the system of Uspec.v and report no failure,
    whether the processes take turns after every step, after seven or after a
    hundred. *)
Example usertests_pass : Forall (fun x => Forall (fun q => passes q x) [1; 7; 100]%nat) suite.
Proof.
  repeat (apply Forall_cons; split; [do 3 (apply Forall_cons; split; [vm_compute; reflexivity|]); apply Forall_nil; exact I|]).
  apply Forall_nil. exact I.
Qed.

(** ** What the test of pipes accepts *)

(** [n] bytes of the sequence that the writer sends, from the [i]th on. *)
Definition pattern (i : Z) (n : nat) : list Z := (fun k => k mod 256) <$> seqZ i (Z.of_nat n).

(** The reads that deliver the pieces [bs]: each asks for twice as much as the
    one before, up to the size of the buffer. *)
Definition ask (k : nat) : Z := Z.min 8192 (2 ^ Z.of_nat k).
Definition delivers (fd : Z) (bs : list (list Z)) : list event := imap (fun k b => ev (Read fd (ask k)) (Some b)) bs.

Lemma seq_bytes_pattern i n : seq_bytes i n = pattern i n.
Proof.
  unfold seq_bytes, pattern, u8. apply list_eq. intros k. rewrite !list_lookup_fmap. destruct (decide (k < n)%nat) as [Hk|Hk].
  - rewrite !lookup_seqZ_lt by lia. done.
  - rewrite !lookup_seqZ_ge by lia. done.
Qed.

Lemma length_pattern i n : length (pattern i n) = n.
Proof. unfold pattern. rewrite length_fmap, length_seqZ. lia. Qed.

Lemma pattern_app i n m : pattern i (n + m) = pattern i n ++ pattern (i + Z.of_nat n) m.
Proof. unfold pattern. rewrite Nat2Z.inj_add, seqZ_app, fmap_app by lia. done. Qed.

(** A prefix of the sequence, cut. *)
Lemma pattern_cut i b l : b ++ l = pattern i (length (b ++ l)) ->
  b = pattern i (length b) /\ l = pattern (i + Z.of_nat (length b)) (length l).
Proof. intros E. rewrite length_app, pattern_app in E. apply app_inj_1 in E; [done|by rewrite length_pattern]. Qed.

Lemma ask_next k : (if 8192 <? ask k * 2 then 8192 else ask k * 2) = ask (S k).
Proof.
  unfold ask. rewrite Nat2Z.inj_succ, Z.pow_succ_r by lia. pose proof (Z.pow_pos_nonneg 2 (Z.of_nat k)).
  destruct (Z.ltb_spec 8192 (Z.min 8192 (2 ^ Z.of_nat k) * 2)); lia.
Qed.

(** The loop over [read] on pieces of the sequence. *)
Lemma pipe1_reads fd bs : forall n k, Forall (fun b => b <> []) bs -> concat bs = pattern n (length (concat bs)) ->
  does (ITree.iter (pipe1_round fd) (n, n, ask k)) (imap (fun j b => ev (Read fd (ask (k + j))) (Some b)) bs)
    (ITree.iter (pipe1_round fd) (n + Z.of_nat (length (concat bs)), n + Z.of_nat (length (concat bs)), ask (k + length bs))).
Proof.
  induction bs as [|b bs IH]; intros n k Hne E.
  { cbn. rewrite Z.add_0_r, Nat.add_0_r. by constructor. }
  apply Forall_cons in Hne as [Hb Hne]. cbn [concat] in E |- *. apply pattern_cut in E as [E1 E2].
  cbn [imap length]. rewrite Nat.add_0_r. apply (does_app _ (ITree.iter (pipe1_round fd) (n + Z.of_nat (length b), n + Z.of_nat (length b), ask (S k))) _ [_]).
  - apply does_round. apply does_call. cbn [count default]. destruct (Z.leb_spec (Z.of_nat (length b)) 0); [destruct b; [done|cbn in *; lia]|].
    rewrite bool_decide_eq_true_2 by (by rewrite seq_bytes_pattern). rewrite ask_next. apply does_return.
  - rewrite length_app, Nat2Z.inj_add, Z.add_assoc. replace (k + S (length bs))%nat with (S k + length bs)%nat by lia.
    specialize (IH (n + Z.of_nat (length b)) (S k) Hne E2). erewrite imap_ext; [exact IH|]. intros j x _. cbn. do 3 f_equal. lia.
Qed.


